(* ===== verification/_CoqProject ===== *)
-Q . S2P
Prelude.v
Text.v
Framer.v
Json.v
JsonText.v
IvpMessage.v
Wire.v
IvpApi.v
OrdMap.v
Router.v
CorePlugin.v
Connection.v
Client.v
ClientThreads.v
Handshake.v
Monitor.v
PriorityTable.v
PriorityRequests.v
Ssm.v
PriorityPlugin.v
Spat.v
Interval.v
Schema.v
Revision.v
Intersection.v
Threads.v
Utilities.v
RtcmData.v
Rtcm3.v
Rtcm2.v
RtcmStream.v
Cloud.v
Hex64.v
SnmpClient.v
ForwardConfig.v
Forward.v
Factory.v
Timer.v
SpatPlugin.v
Dms.v
MapPlugin.v
Receiver.v
PluginClient.v
