(* ===== verification/Prelude.v ===== *)
(** * V2X Hub: the message bus, and the plugins that decide

    V2X Hub is a core process and a set of plugin processes. A plugin talks to the
    core over a TCP socket; the core routes the messages of each plugin to the others
    that subscribed to them. This development models the bus from the bytes of the
    socket up to the registration protocol, on both sides, and the decision logic of
    plugins at intersections. All file names are under [src/src/]; a definition has
    the name of the function it models wherever that is possible.

    ** The parts

    This file holds the notations, the automation and the lemmas that all parts share;
    [Text] holds strings: decimal and hexadecimal numbers, searching and splitting.

    The bus, in [tmx/TmxApi/tmx] (the library of a plugin) and [tmx/TmxCore/src] (the
    core):
    - [Framer] ([TmxApi/tmx/utils/MsgFramer.c] and the receive loop of
      [PluginConnection.cpp]): the 20000 byte buffer that finds STX ... ETX frames.
    - [Json], [JsonText] ([TmxApi/tmx/json/cJSON.c], [cJSONxtra.c]): the tree, and the
      printer and parser of its text.
    - [IvpMessage] ([IvpMessage.c]): a message and its JSON form. [Wire] composes the
      three: a message as framed text on a socket and back.
    - [IvpApi] ([TmxApi/tmx/apimessages]): the system messages (registration,
      configuration, status, event log, errors, subscriptions).
    - [OrdMap] is [std::map]; [Router] is [MessageRouterBasic.cpp], with the lock
      protocol of its threads in the module [RouterThreads].
    - [CorePlugin] ([Plugin.cpp]): the state of a plugin in the core: names in use,
      registrations, configuration. The database behind it is the class [Database].
    - [Connection] ([PluginConnection.cpp]): the queues of a connection, the handlers
      of its messages, and the core as a transition system.
    - [Client] ([IvpPlugin.c]): the plugin's side, a receive round and each call as one
      function, over the class [Network]. [ClientThreads] has the same code as programs of
      single reads and writes with their lock, run by threads that interleave; a program
      that is not interrupted does what the function does. [Handshake] runs both sides of
      a registration.
    - [Monitor] ([PluginMonitor.cpp], [utils/StringUtils.cpp]): the supervision of
      plugin processes and the check of the paths they are started from.

    What the plugins share, in [tmx/TmxUtils/src], [tmx/TmxApi/tmx] and [tmx/Messages]:
    - [PluginClient] ([PluginClient.h], [PluginClient.cpp], [PluginKeepAlive.cpp]): the base
      class of a plugin over [Client]: configuration, status, handlers and the keep alive;
      the handlers are the class [Application]. Its module [ConfigLocks] has the locks of
      the configuration.
    - [Threads] ([LockFreeThread.h], [ThreadGroup.h], [TmxMessageManager.cpp]): the
      workers of a message manager as a transition system, over the class
      [MessageHandler].
    - [Timer] ([ThreadTimer.cpp]): the thread that calls functions at their frequencies.
    - [Utilities] ([FrequencyThrottle.h], [Base64.cpp]) and [Hex64]
      ([Security/include/base64.cpp]).
    - [Factory] ([byte_stream.hpp], [J2735MessageFactory.hpp], [TmxJ2735Codec.hpp]): the
      kind of a J2735 message from its bytes, and messages that hold an encoded one; the
      generated coders are the class [Asn1c].
    - [RtcmData], [Rtcm3], [Rtcm2], [RtcmStream] ([Messages/include/rtcm],
      [RtcmPlugin.cpp]): corrections for satellite navigation, their words, checks and
      frames in both versions, and the messages of a stream.
    - [SnmpClient] ([SNMPClient.cpp]): the client of devices, over the class [NetSnmp].

    The plugins, in [v2i-hub]:
    - [PriorityTable], [PriorityRequests], [Ssm], [PriorityPlugin] ([PriorityPlugin/src]):
      the NTCIP 1211 priority request table, its order, its octet strings, the exchange
      with a signal controller, the status messages, and the plugin with its
      configuration, over the classes [PluginConfig], [PropertyTree], [PriorityWorld],
      [UnorderedMaps] and [SsmCodec].
    - [Spat], [SpatPlugin] ([SpatPlugin/src]): the packed signal controller message, the
      SPAT message made of it, and the plugin that connects to a controller and
      broadcasts its packets, over [Factory], [Timer] and the classes [SpatWorld] and
      [SpatForms].
    - [MapPlugin] ([MapPlugin/src]): the files of a map, and their broadcast for the
      action of the controller; the class [MapWorld].
    - [Receiver] ([MessageReceiverPlugin/src], [TmxUtils/src/RawSpduUtils.h]): datagrams
      of a radio, secured or not, into routed messages, over [Factory], [Threads],
      [Utilities] and the class [ReceiverWorld].
    - [ForwardConfig], [Forward] ([ImmediateForwardPlugin/src]): the configuration of the
      plugin that forwards messages to radios, and what becomes of a message; the classes
      [JsonCpp] and [Radio].
    - [Dms] ([DmsPlugin/src]): a message sign that is set by NTCIP 1203, over
      [SnmpClient] and the class [DmsWorld]; [SignView] and [MessageSign] are the sign.
    - [Cloud] ([CARMACloudPlugin/src]): traffic control messages and their repeated
      broadcast, over the classes [TcmCodec], [Inflate] and [XmlTree].
    - [Interval], [Schema], [Revision], [Intersection]
      ([IntersectionValidationPlugin/src]): the broadcast rate, the minimum data and
      the revision counters of SPaT and MAP messages, and the plugin that runs the
      three checks, throttles its events and decides what to forward.

    ** How states and operations are modelled

    A structure or object is a record; an operation is a function on it, with the
    branches and early returns of the code. A failure is [option], a sum, or an
    exception of the state monad [Core.M], in which what was changed before a throw
    stays changed. What a handler sends is a list in the state or in its result. A
    loop over data is a [Fixpoint] on the data; other loops have fuel (below). Threads
    are step relations whose steps are the moments the code leaves to interleaving
    ([RouterThreads.step], [Connection.step], [ClientThreads.step],
    [Threads.fine_step], [Timer.step], [Receiver.step], [ConfigLocks.step]), or lists of what happens in order ([Receiver.run]). Machine integers are [Z]
    with the wrap-around written out ([u32], [s64] and so on, in this file). Undefined
    behaviour and failed preconditions of a library are results of their own ([None]),
    never given a value.

    Code that is not in the repository is an argument: the database, the network, the
    SNMP client with its clock, the J2735 enumerators, [std::sort] (any sorting
    permutation), rapidjson, jsoncpp, boost's property trees, net-snmp, zlib, files. What the code relies on of them are the laws of the
    class or hypotheses of the theorem, and each theorem that has any comes with a
    witness that discharges them at a concrete instance.

    ** What the theorems show

    - The wire: framing and JSON text are inverted by the receiving side however the
      stream is cut ([message_stream_roundtrip], [framer_stream_roundtrip],
      [cJSON_print_parse_roundtrip]); the framer, with its shifting buffer, refines an
      abstract one ([framer_getNextMsg_refines]); the parser ends
      ([cJSON_Parse_terminates]).
    - The core: sources are not forged, names are unique, a broadcast reaches exactly
      the subscribers ([source_not_forged], [active_names_unique], [broadcast_exact],
      [ordinary_message_routed]); manifests and configuration
      ([manifest_valid_iff], [config_monitor_converges]); queues
      ([queues_keep_newest]); and where the code fails
      ([config_message_terminates_core], [failed_registration_blocks_name],
      [broadcast_registration_race]).
    - The client: what its threads do together is a run of a protocol machine
      ([client_refines_protocol]); a fatal error ends it when it is alone
      ([fatal_error_ends_client]) and can be undone by a frame that fails
      ([fatal_error_undone]); a registration goes through on
      both sides ([registration_end_to_end]), and a refusal is not noticed
      ([refusal_unnoticed]).
    - Supervision: escalation of signals, restarts and confinement of executables
      ([kill_escalation], [check_running], [exe_confined], [exe_escapes]).
    - Threads: no message is handled twice and each worker keeps the order; the messages of
      a source are handled in order if none of them comes in within an [unassign]
      ([messages_in_order]), and not otherwise ([unassign_race]); growth of a
      group starts the wrong workers ([growth_starts_first_workers]); calls of a timer
      keep their distance, and a round calls what is due when it comes to it, however long
      the calls take ([calls_spaced], [round_calls_due]); a throttle lets events through at its distance
      ([throttle_spacing]).
    - The base class: changes of the configuration are read ([config_changes_visible]),
      but a read and a change can wait for each other for ever ([config_read_deadlock]);
      a J2735 message reaches its handler decoded ([j2735_message_delivered]); silence is
      bounded ([keepalive_bounded]); a status that is set too early is lost
      ([early_status_lost]).
    - J2735: what is encoded is recognised and decoded ([encoded_message_decodes]), and a
      frame is recognised by its number exactly, with or without an extension
      ([frame_recognised]).
    - RTCM: both versions are read back, but a message of version 3 without a length
      writes nothing ([rtcm3_roundtrip], [rtcm2_roundtrip]); errors
      are found ([rtcm3_burst_detected], [parity_detects]), a stream falls into its
      messages ([rtcm3_stream]), and a payload that hangs the reader ([payload_hangs]).
    - Priority: the table's invariant, its order and its round trip
      ([table_invariant], [prioritization_orders], [service_request_roundtrip]), the
      outcome of a request and of an exchange ([request_outcome], [exchange_outcome],
      [prg_package]); the plugin keeps its invariant ([plugin_invariant]), a repeated
      request changes nothing ([srm_idempotent]) but takes another row when it is refused
      ([refused_again]), and reports are due, numbered and bounded ([ssm_reports_due], [ssm_number_tracks_contents], [report_limit]).
    - Signal phase: the movements of a message and the time marks ([spat_movements],
      [time_mark], [status_bits_mirrored]); packets that are not the structure
      ([foreign_packet_undefined]); and the connection: a change of the configuration
      waits for the next packet and then ends the plugin, an unhealthy one stays so, a
      silent controller blocks it
      ([reconfiguration_ends_plugin], [unhealthy_for_ever], [silent_controller_blocks],
      [failed_packet_reported_healthy]).
    - Maps: every round sends the map of the active action, whatever the controller
      announces ([map_sent], [map_frame_removed]); changes of
      the configuration are ignored, and one bad file silences the plugin
      ([configuration_ignored], [bad_file_silences]).
    - Received messages: what of a secured datagram is taken ([secured_datagram]), what a
      frame becomes ([received_frame_forwarded]), and the counts that
      several workers make without a lock ([message_counts], [count_lost]).
    - Forwarding: which configurations are read, and as what
      ([parsed_configuration_valid]); every route of a message is served, signed or not,
      up to the first that cannot be signed ([every_route_served]); the order of the set
      requests ([update_configures], [set_requests_sent_iff]), and where it fails
      ([unprepared_radio_blocks], [unreadable_answer_crashes]); signing uses
      [base642hex_right] and [hex2base64_wrong].
    - SNMP: when a session opens and lasts ([client_opens_iff], [answered_session_stays])
      and that one request without an answer silences it for longer identifiers until a
      shorter one is answered ([unanswered_request_silences]).
    - Signs: the simulator takes part only with a sign ([simulator_needs_sign]), the
      activation code decodes ([activation_code_decodes]); and on a machine where freed
      memory keeps its contents ([FreedKept]), which the plugin needs, a sign that follows
      the standard shows the text that is asked for ([requested_message_shown]) and a
      changed text is not shown ([changed_text_not_shown]).
    - Traffic control: the rounds of a broadcast, under changes of the configuration that
      keep its limits, and its end by an acknowledgement
      ([rebroadcast_schedule], [acknowledgement_end_to_end], [stale_start_expires],
      [request_buffers]).
    - Validation: windows account for every late message
      ([windows_account_for_violations]); missing data is reported exactly
      ([missing_required_reported]); the counters are checked by the rule
      ([spat_rule_checked]); events are throttled, receivers are kept supplied, and
      what is held back is a repetition ([content_events_throttled],
      [receivers_refreshed], [held_back_iff_repeated]); documents are prepared
      ([document_prepared]); and a message that could not be checked is marked as
      checked ([unchecked_marked_validated]).

    ** Bounds and fuel

    The drain of the framer has one unit of fuel more than the buffer is long: each
    message found shortens the content. The JSON parser has [3 * length + 3]: every
    call consumes a character or is one of three for it. The loop that removes empty
    tokens has [(n + 1) * n + 1] rounds. The descent into a schema has the limit of the
    code, 64 levels. The polling of a controller has the number of retries of the code, a
    sign in standby is polled 12 times, a message is broadcast at most 255 times. Queues
    of a connection hold 50 messages, those of a worker 20480, the priority table 10
    entries, an object identifier 128 numbers, layers of a secured message are 20. A
    reader of version 2 of RTCM has a round for each byte and one more; the reader of
    version 3 can go round for ever, which is a result of its own. The replacement of
    tags in a request has a round for each character and one more, the walk over a DER
    length two more than there are bytes. That the fuel is enough is part of the
    theorems, which state results and not partial correctness.

    ** What is not modelled

    - Memory: allocation failures, freeing, the contents of uninitialised memory beyond
      an explicit argument. [assert] is taken as removed ([NDEBUG]), except for the
      preconditions of rapidjson.
    - Doubles in JSON text are exact rationals with rounding to 53 bits; overflow,
      subnormal numbers and minus zero are left out.
    - The tables of the database and its SQL ([TmxCore/src/database]), sockets and
      processes beyond the classes above, logging, the order of delivery between
      connections beyond what the step relations leave open.
    - The templates that map messages to attributes ([TmxApi/tmx/messages/message.hpp],
      [attributes]) beyond the messages above, the J2735 coders and all other generated
      code: a handler's input is the decoded message, or the class [Asn1c].
    - In [Client], callbacks are recorded and do not call the library back; in
      [ClientThreads] they may, and the compiler is taken to read the state where the code
      does.
    - Data races on containers without a lock: their operations are steps, except for the
      counts of [Receiver], whose model ends where a race leaves nothing defined.
    - The plugins that are mainly device and network input and output (cameras, clouds,
      CARMA streets and the simulation, pedestrian and vehicle sensors, the location
      daemon, the loggers, the health of radios), the traveller information plugins whose
      messages are read by generated code, and the command line tools; the list of
      components has the reasons. *)
From stdpp Require Export base numbers list option strings gmap sets fin_maps relations.
From Stdlib Require Export ZArith Lia.
From Stdlib Require Import Ascii.

#[export] Set Default Goal Selector "!".
Open Scope Z_scope.

(** * Machine integers

    A [w]-bit unsigned value is a [Z] reduced modulo [2^w]; a signed 32-bit
    value is the representative of its class in [[-2^31, 2^31)]. *)
Definition wrapu (w x : Z) : Z := x `mod` 2 ^ w.
Abbreviation u8 := (wrapu 8).
Abbreviation u16 := (wrapu 16).
Abbreviation u32 := (wrapu 32).
Abbreviation u64 := (wrapu 64).
Definition wraps (w x : Z) : Z := (x + 2 ^ (w - 1)) `mod` 2 ^ w - 2 ^ (w - 1).
Abbreviation s32 := (wraps 32).
Abbreviation s64 := (wraps 64).

#[global] Arguments wrapu : simpl never.
#[global] Arguments wraps : simpl never.

Lemma wrapu_range w x : 0 <= w -> 0 <= wrapu w x < 2 ^ w.
Proof. intros. unfold wrapu. apply Z.mod_pos_bound. lia. Qed.

Lemma wrapu_small w x : 0 <= x < 2 ^ w -> wrapu w x = x.
Proof. intros. unfold wrapu. by apply Z.mod_small. Qed.

Lemma wraps_small w x : 0 < w -> - 2 ^ (w - 1) <= x < 2 ^ (w - 1) -> wraps w x = x.
Proof.
  intros Hw Hx. unfold wraps.
  assert (2 ^ w = 2 * 2 ^ (w - 1)) as E.
  { rewrite <- Z.pow_succ_r by lia. f_equal. lia. }
  rewrite Z.mod_small; lia.
Qed.

Lemma u8_small x : 0 <= x < 2 ^ 8 -> u8 x = x.
Proof. apply wrapu_small. Qed.
Lemma u16_small x : 0 <= x < 2 ^ 16 -> u16 x = x.
Proof. apply wrapu_small. Qed.
Lemma u32_small x : 0 <= x < 2 ^ 32 -> u32 x = x.
Proof. apply wrapu_small. Qed.
Lemma u64_small x : 0 <= x < 2 ^ 64 -> u64 x = x.
Proof. apply wrapu_small. Qed.
Lemma s32_small x : - 2 ^ 31 <= x < 2 ^ 31 -> s32 x = x.
Proof. by apply (wraps_small 32). Qed.

(** * Tactics *)

(** Split every conjunction of the goal and every existential or conjunction
    of the context. *)
Ltac split_all :=
  repeat match goal with
    | |- _ /\ _ => split
    | H : _ /\ _ |- _ => destruct H
    | H : exists _, _ |- _ => destruct H
    end.

(** Turn the boolean tests of the context into propositions. *)
Ltac reflect_bools :=
  repeat match goal with
    | H : (_ =? _) = true |- _ => apply Z.eqb_eq in H
    | H : (_ =? _) = false |- _ => apply Z.eqb_neq in H
    | H : (_ <? _) = true |- _ => apply Z.ltb_lt in H
    | H : (_ <? _) = false |- _ => apply Z.ltb_ge in H
    | H : (_ <=? _) = true |- _ => apply Z.leb_le in H
    | H : (_ <=? _) = false |- _ => apply Z.leb_gt in H
    | H : _ && _ = true |- _ => apply andb_prop in H as [? ?]
    | H : _ || _ = false |- _ => apply orb_false_elim in H as [? ?]
    | H : negb _ = true |- _ => apply negb_true_iff in H
    | H : negb _ = false |- _ => apply negb_false_iff in H
    end.

(** Case analysis on the test of the first [if] of the goal. *)
Ltac case_if :=
  match goal with
  | |- context [if ?b then _ else _] =>
      let E := fresh "E" in destruct b eqn:E; reflect_bools
  end.

(** * Lists *)
Section lists.
Context {A : Type}.
Implicit Types l k : list A.

(** Writing the whole of [k] over [l] from index [i] on. *)
Definition write_at (i : nat) k l : list A := take i l ++ k ++ drop (i + length k) l.

Lemma length_write_at i k l :
  (i + length k <= length l)%nat -> length (write_at i k l) = length l.
Proof. intros. unfold write_at. rewrite !length_app, length_take, length_drop. lia. Qed.

Lemma take_write_at i k l :
  (i + length k <= length l)%nat -> take (i + length k) (write_at i k l) = take i l ++ k.
Proof.
  intros. unfold write_at. rewrite app_assoc, take_app_le.
  - rewrite take_ge; [done|]. rewrite length_app, length_take. lia.
  - rewrite length_app, length_take. lia.
Qed.

Lemma alter_insert (f : A -> A) (i : nat) l :
  alter f i l = match l !! i with Some x => <[i := f x]> l | None => l end.
Proof.
  apply list_eq. intros j. destruct (l !! i) as [x|] eqn:Hi.
  - assert (i < length l)%nat by by eapply lookup_lt_Some. destruct (decide (i = j)) as [<-|].
    + by rewrite list_lookup_insert_eq, list_lookup_alter_eq, Hi.
    + by rewrite list_lookup_insert_ne, list_lookup_alter_ne.
  - destruct (decide (i = j)) as [<-|]; [by rewrite list_lookup_alter_eq, Hi|by rewrite list_lookup_alter_ne].
Qed.
End lists.

(** * Text *)
(** What [strtoll] and its relatives skip before a number. *)
Fixpoint skip_spaces (s : string) : string :=
  match s with
  | String c s' =>
      let n := N_of_ascii c in
      if ((n =? 32) || ((9 <=? n) && (n <=? 13)))%N then skip_spaces s' else s
  | EmptyString => EmptyString
  end.

(** * Small ranges *)
(** What a computation shows for every number below a bound. *)
Lemma below_ind (n : Z) (P : Z -> bool) :
  forallb P (seqZ 0 n) = true -> forall b, 0 <= b < n -> P b = true.
Proof.
  intros H b Hb. rewrite forallb_forall in H. apply H, list_elem_of_In, elem_of_seqZ. lia.
Qed.
