(* ===== verification/Text.v ===== *)
(** Numbers, dates and separators in text, as the standard library of the
    program writes and reads them, and the lemmas that make a separated text
    decodable. *)
From Stdlib Require Import Ascii.
From stdpp Require Import pretty.
From S2P Require Import Prelude.
Open Scope Z_scope.

(** * Reading numbers *)
Definition is_digit (c : ascii) : bool := let n := N_of_ascii c in ((48 <=? n) && (n <=? 57))%N.
Fixpoint digits (acc : Z) (s : string) : Z * string :=
  match s with
  | String c s' =>
      if is_digit c then digits (acc * 10 + Z.of_N (N_of_ascii c - 48)) s' else (acc, s)
  | EmptyString => (acc, s)
  end.
(** An optional sign. *)
Definition sign (s : string) : bool * string :=
  match s with
  | String "-" s => (true, s)
  | String "+" s => (false, s)
  | s => (false, s)
  end.

(** [std::stoul]; what follows the number is ignored. *)
Inductive stox_error := invalid_argument | out_of_range.
Definition stoul (str : string) : stox_error + Z :=
  let '(neg, s) := sign (skip_spaces str) in
  match s with
  | String c _ =>
      if is_digit c then
        let v := fst (digits 0 s) in
        if 2 ^ 64 <=? v then inl out_of_range else inr (u64 (if neg then - v else v))
      else inl invalid_argument
  | EmptyString => inl invalid_argument
  end.

(** The texts [std::getline] yields with a separator, until the stream ends. *)
Fixpoint getlines (sep : ascii) (s : string) : list string :=
  match s with
  | EmptyString => []
  | String c s' =>
      if Ascii.eqb c sep then EmptyString :: getlines sep s'
      else match getlines sep s' with
           | [] => [String c EmptyString]
           | t :: ts => String c t :: ts
           end
  end.

(** [boost::iequals] on ASCII letters. *)
Definition to_upper (a : ascii) : ascii :=
  let n := N_of_ascii a in
  if ((97 <=? n) && (n <=? 122))%N then ascii_of_N (n - 32) else a.
Fixpoint iequals (s1 s2 : string) : bool :=
  match s1, s2 with
  | EmptyString, EmptyString => true
  | String a s1', String b s2' => Ascii.eqb (to_upper a) (to_upper b) && iequals s1' s2'
  | _, _ => false
  end.

(** * [gmtime_r], on non-negative times *)
Definition tm_sec (s : Z) : Z := s `mod` 60.
Definition tm_min (s : Z) : Z := (s / 60) `mod` 60.
Definition tm_hour (s : Z) : Z := (s / 3600) `mod` 24.
Definition year_days (y : Z) : Z :=
  if ((y `mod` 4 =? 0) && negb (y `mod` 100 =? 0)) || (y `mod` 400 =? 0) then 366 else 365.
Fixpoint yday_from (fuel : nat) (y days : Z) : Z :=
  match fuel with
  | O => days
  | S f => if days <? year_days y then days else yday_from f (y + 1) (days - year_days y)
  end.
Definition tm_yday (s : Z) : Z :=
  let days := s / 86400 in yday_from (S (Z.to_nat (days / 365))) 1970 days.

Lemma year_days_range y : 365 <= year_days y <= 366.
Proof. unfold year_days. case_if; lia. Qed.

Lemma yday_from_range fuel : forall y days,
  0 <= days -> days / 365 < Z.of_nat fuel -> 0 <= yday_from fuel y days < 366.
Proof.
  induction fuel as [|f IH]; intros y days H0 Hf.
  { pose proof (Z.div_pos days 365 H0). lia. }
  cbn [yday_from]. pose proof (year_days_range y). destruct (Z.ltb_spec days (year_days y)); [lia|].
  apply IH; [lia|].
  pose proof (Z.div_le_mono (days - year_days y) (days + (-1) * 365) 365 ltac:(lia) ltac:(lia)) as Hm.
  rewrite Z.div_add in Hm by lia. lia.
Qed.

(** The minute of the year. *)
Definition minute_of_year (s : Z) : Z := tm_yday s * 24 * 60 + tm_hour s * 60 + tm_min s.

Lemma minute_of_year_range s : 0 <= s -> 0 <= minute_of_year s < 527040.
Proof.
  intros Hs. unfold minute_of_year, tm_hour, tm_min.
  pose proof (Z.mod_pos_bound (s / 3600) 24 ltac:(lia)). pose proof (Z.mod_pos_bound (s / 60) 60 ltac:(lia)).
  assert (0 <= tm_yday s < 366) as ?; [|lia].
  unfold tm_yday. pose proof (Z.div_pos s 86400 Hs).
  apply yday_from_range; [lia|]. pose proof (Z.div_pos (s / 86400) 365). lia.
Qed.

(** * Separated text *)
Fixpoint all_chars (p : ascii -> bool) (s : string) : bool :=
  match s with
  | EmptyString => true
  | String c s => p c && all_chars p s
  end.

Lemma string_app_cons c s t : String c s +:+ t = String c (s +:+ t).
Proof. done. Qed.
Lemma string_app_nil s : s +:+ "" = s.
Proof. induction s as [|c s IH]; [done|]. by rewrite string_app_cons, IH. Qed.
Lemma string_app_assoc s t u : (s +:+ t) +:+ u = s +:+ (t +:+ u).
Proof. induction s as [|c s IH]; [done|]. by rewrite !string_app_cons, IH. Qed.
Lemma length_string_app s t : (String.length (s +:+ t) = String.length s + String.length t)%nat.
Proof. induction s as [|c s IH]; [done|]. rewrite string_app_cons. cbn. by rewrite IH. Qed.

Lemma all_chars_app p s t : all_chars p (s +:+ t) = all_chars p s && all_chars p t.
Proof. induction s as [|c s IH]; [done|]. rewrite string_app_cons. cbn. by rewrite IH, andb_assoc. Qed.

Lemma all_chars_impl (p q : ascii -> bool) s :
  (forall c, p c = true -> q c = true) -> all_chars p s = true -> all_chars q s = true.
Proof.
  intros Hpq. induction s as [|c s IH]; cbn; [done|]. rewrite !andb_true_iff. intros [? ?]. auto.
Qed.

(** Without the separator before it, a separator ends the text before it. *)
Lemma separator_inj c s1 s2 r1 r2 :
  all_chars (fun x => negb (Ascii.eqb x c)) s1 = true ->
  all_chars (fun x => negb (Ascii.eqb x c)) s2 = true ->
  s1 +:+ String c r1 = s2 +:+ String c r2 -> s1 = s2 /\ r1 = r2.
Proof.
  revert s2. induction s1 as [|a s1 IH]; intros [|b s2]; rewrite ?string_app_cons; cbn.
  - by intros _ _ [= ->].
  - intros _ Hb [= -> _]. by rewrite Ascii.eqb_refl in Hb.
  - intros Ha _ [= -> _]. by rewrite Ascii.eqb_refl in Ha.
  - rewrite !andb_true_iff. intros [_ H1] [_ H2] [= -> H]. destruct (IH s2 H1 H2 H) as [-> ->]. done.
Qed.

(** * Written numbers *)
Definition number_char (c : ascii) : bool := is_digit c || Ascii.eqb c "-".

Lemma is_digit_char x : is_digit (pretty_N_char x) = true.
Proof. unfold pretty_N_char. by repeat case_match. Qed.

Lemma digit_value x : (x < 10)%N -> (N_of_ascii (pretty_N_char x) - 48 = x)%N.
Proof.
  intros H. assert (x ∈ [0; 1; 2; 3; 4; 5; 6; 7; 8; 9]%N) as Hx.
  { rewrite !elem_of_cons. lia. }
  repeat (apply elem_of_cons in Hx as [->|Hx]; [done|]). by apply elem_of_nil in Hx.
Qed.

Lemma pretty_N_go_digits x : forall s, exists t,
  pretty_N_go x s = t +:+ s /\ all_chars is_digit t = true
  /\ (0 < x -> t <> "")%N
  /\ forall acc rest, 0 <= acc -> digits acc (t +:+ rest)
       = digits (acc * 10 ^ Z.of_nat (String.length t) + Z.of_N x) rest.
Proof.
  induction (N.lt_wf_0 x) as [x _ IH]. intros s.
  destruct (N.eq_dec x 0) as [->|Hx].
  { exists "". rewrite pretty_N_go_0. split_all; try done. intros acc rest ?. cbn [String.length]. f_equal; lia. }
  rewrite pretty_N_go_step by lia.
  destruct (IH (x `div` 10)%N ltac:(apply N.div_lt; lia) (String (pretty_N_char (x `mod` 10)) s))
    as (t & Ht & Hd & _ & Hv).
  exists (t +:+ String (pretty_N_char (x `mod` 10)) ""). split_all.
  - rewrite Ht, string_app_assoc. done.
  - rewrite all_chars_app, Hd. cbn. by rewrite is_digit_char.
  - intros _. by destruct t.
  - intros acc rest Hacc. rewrite string_app_assoc, Hv by lia. cbn [digits String.append].
    change (String (pretty_N_char (x `mod` 10)) "" +:+ rest) with (String (pretty_N_char (x `mod` 10)) rest).
    cbn [digits]. rewrite is_digit_char, digit_value by (apply N.mod_lt; lia).
    f_equal. assert (String.length (t +:+ String (pretty_N_char (x `mod` 10)) "") = S (String.length t)) as ->.
    { rewrite length_string_app. cbn. lia. }
    rewrite Nat2Z.inj_succ, Z.pow_succ_r by lia.
    rewrite N2Z.inj_div, N2Z.inj_mod. pose proof (Z.div_mod (Z.of_N x) 10 ltac:(lia)). nia.
Qed.

Lemma pretty_digits (x : Z) : 0 <= x ->
  all_chars is_digit (pretty x) = true /\ pretty x <> ""
  /\ forall rest, digits 0 (pretty x +:+ rest) = digits x rest.
Proof.
  intros Hx. destruct (Z.eq_dec x 0) as [->|Hne].
  { split_all; done. }
  destruct x as [|p|p]; [done| |lia]. unfold pretty, pretty_Z, pretty, pretty_positive, pretty, pretty_N.
  rewrite decide_False by done.
  destruct (pretty_N_go_digits (Npos p) "") as (t & Ht & Hd & Hn & Hv).
  assert (pretty_N_go (N.pos p) "" = t) as ->.
  { by rewrite Ht, string_app_nil. }
  split_all; [done|apply Hn; lia|]. intros rest. rewrite Hv by lia. f_equal.
Qed.

Lemma pretty_number (x : Z) : all_chars number_char (pretty x) = true /\ pretty x <> "".
Proof.
  destruct (Z.le_gt_cases 0 x) as [Hx|Hx].
  - destruct (pretty_digits x Hx) as (Hd & Hn & _). split; [|done].
    eapply all_chars_impl; [|exact Hd]. intros c Hc. unfold number_char. by rewrite Hc.
  - destruct x as [|p|p]; [lia..|]. split; [|done].
    destruct (pretty_digits (Zpos p) ltac:(lia)) as (Hd & _ & _).
    change (pretty (Zneg p)) with (String "-" (pretty (Zpos p))). cbn [all_chars]. apply andb_true_iff. split; [done|].
    eapply all_chars_impl; [|exact Hd]. intros c Hc. unfold number_char. by rewrite Hc.
Qed.

Lemma pretty_free c (x : Z) : number_char c = false ->
  all_chars (fun a => negb (Ascii.eqb a c)) (pretty x) = true.
Proof.
  intros Hc. eapply all_chars_impl; [|apply pretty_number]. intros a Ha.
  destruct (Ascii.eqb_spec a c) as [->|]; [congruence|done].
Qed.

(** A number and the separator after it are read back from the text. *)
Lemma pretty_separator_inj c (x y : Z) r1 r2 : number_char c = false ->
  pretty x +:+ String c r1 = pretty y +:+ String c r2 -> x = y /\ r1 = r2.
Proof.
  intros Hc H. apply separator_inj in H; [|by apply pretty_free..].
  destruct H as [H ->]. split; [|done]. by apply pretty_Z_inj.
Qed.

Lemma skip_spaces_digit s : all_chars is_digit s = true -> skip_spaces s = s /\ sign s = (false, s).
Proof.
  destruct s as [|c s]; [done|]. cbn [all_chars skip_spaces]. rewrite andb_true_iff. intros [Hc _].
  unfold is_digit in Hc. rewrite andb_true_iff, !N.leb_le in Hc. split.
  - destruct (N.eqb_spec (N_of_ascii c) 32); [lia|]. cbn.
    destruct (N.leb_spec 9 (N_of_ascii c)), (N.leb_spec (N_of_ascii c) 13); cbn; try done; lia.
  - unfold sign. repeat case_match; try done; subst; cbn in Hc; lia.
Qed.

Lemma stoul_pretty (x : Z) : 0 <= x < 2 ^ 64 -> stoul (pretty x) = inr x.
Proof.
  intros Hx. destruct (pretty_digits x ltac:(lia)) as (Hd & Hn & Hv).
  unfold stoul. destruct (skip_spaces_digit _ Hd) as [-> ->].
  specialize (Hv ""). rewrite string_app_nil in Hv. destruct (pretty x) as [|c s] eqn:Es; [done|].
  cbn [all_chars] in Hd. apply andb_true_iff in Hd as [-> _]. rewrite Hv. cbn [digits fst].
  destruct (Z.leb_spec (2 ^ 64) x); [lia|]. f_equal. by apply u64_small.
Qed.

Lemma getlines_separator sep s r :
  all_chars (fun x => negb (Ascii.eqb x sep)) s = true ->
  getlines sep (s +:+ String sep r) = s :: getlines sep r.
Proof.
  induction s as [|c s IH]; [intros _|].
  { change ("" +:+ String sep r) with (String sep r). cbn [getlines]. by rewrite Ascii.eqb_refl. }
  rewrite string_app_cons. cbn [all_chars]. rewrite andb_true_iff, negb_true_iff. intros [Hc Hs]. cbn [getlines]. by rewrite Hc, IH.
Qed.

Lemma getlines_last sep s :
  all_chars (fun x => negb (Ascii.eqb x sep)) s = true -> s <> "" -> getlines sep s = [s].
Proof.
  induction s as [|c s IH]; [done|]. cbn [all_chars getlines].
  rewrite andb_true_iff, negb_true_iff. intros [-> Hs] _. destruct s as [|d s]; [done|]. by rewrite IH.
Qed.

(** * Searching, splitting and changing text *)
Definition is_space (c : ascii) : bool := let n := N_of_ascii c in ((n =? 32) || ((9 <=? n) && (n <=? 13)))%N.
Fixpoint trim_right (s : string) : string :=
  match s with
  | EmptyString => EmptyString
  | String c s => match trim_right s with
      | EmptyString => if is_space c then EmptyString else String c EmptyString
      | t => String c t
      end
  end.
(** [boost::trim]. *)
Definition trim (s : string) : string := trim_right (skip_spaces s).
(** [tolower] on every character. *)
Definition to_lower_char (a : ascii) : ascii :=
  let n := N_of_ascii a in
  if ((65 <=? n) && (n <=? 90))%N then ascii_of_N (n + 32) else a.
Fixpoint to_lower (s : string) : string :=
  match s with EmptyString => EmptyString | String c s => String (to_lower_char c) (to_lower s) end.
(** What a [char *] into the text reads: up to the first zero. *)
Fixpoint c_str (s : string) : string :=
  match s with
  | EmptyString => EmptyString
  | String c s => if Ascii.eqb c zero then EmptyString else String c (c_str s)
  end.
(** [std::getline] with a separator as long as the stream is good: an empty text and a
    separator at the end yield an empty text, too. *)
Fixpoint split_on (sep : ascii) (s : string) : list string :=
  match s with
  | EmptyString => [EmptyString]
  | String c s =>
      if Ascii.eqb c sep then EmptyString :: split_on sep s
      else match split_on sep s with
           | [] => [String c EmptyString]
           | t :: ts => String c t :: ts
           end
  end.
(** [std::stol] and [std::stoi]. *)
Definition stox (bits : Z) (str : string) : stox_error + Z :=
  let '(neg, s) := sign (skip_spaces str) in
  match s with
  | String c _ =>
      if is_digit c then
        let v := (if neg : bool then -1 else 1) * fst (digits 0 s) in
        if (v <? - 2 ^ (bits - 1)) || (2 ^ (bits - 1) <=? v) then inl out_of_range else inr v
      else inl invalid_argument
  | EmptyString => inl invalid_argument
  end.
Definition stol : string -> stox_error + Z := stox 64.
Definition stoi : string -> stox_error + Z := stox 32.
(** [std::string::find] and [std::string::replace] on texts of less than [npos]
    characters; [replace] throws for a position beyond the end. *)
Definition npos : Z := 2 ^ 64 - 1.
Definition find (sub s : string) (pos : Z) : Z :=
  if Z.of_nat (String.length s) <? pos then npos
  else match String.index (Z.to_nat pos) sub s with Some p => Z.of_nat p | None => npos end.
Definition contains (sub s : string) : bool := negb (find sub s 0 =? npos).
Definition replace (s : string) (pos len : Z) (t : string) : option string :=
  if Z.of_nat (String.length s) <? pos then None
  else Some (String.substring 0 (Z.to_nat pos) s +:+ t +:+
    String.substring (Z.to_nat (pos + len)) (String.length s) s).

Lemma split_on_nonempty sep s : split_on sep s <> [].
Proof. destruct s as [|c s]; cbn; [done|]. case_if; [done|]. by destruct (split_on sep s). Qed.
Lemma split_on_separator sep s r :
  all_chars (fun x => negb (Ascii.eqb x sep)) s = true ->
  split_on sep (s +:+ String sep r) = s :: split_on sep r.
Proof.
  induction s as [|c s IH]; [intros _|].
  { change ("" +:+ String sep r) with (String sep r). cbn [split_on]. by rewrite Ascii.eqb_refl. }
  rewrite string_app_cons. cbn [all_chars]. rewrite andb_true_iff, negb_true_iff. intros [Hc Hs]. cbn [split_on]. by rewrite Hc, IH.
Qed.
Lemma split_on_last sep s : all_chars (fun x => negb (Ascii.eqb x sep)) s = true -> split_on sep s = [s].
Proof.
  induction s as [|c s IH]; [done|]. cbn [all_chars split_on].
  rewrite andb_true_iff, negb_true_iff. intros [-> Hs]. by rewrite IH.
Qed.
Lemma length_substring n m s : (String.length (String.substring n m s) = Nat.min m (String.length s - n))%nat.
Proof.
  revert n m. induction s as [|c s IH]; intros [|n] [|m]; cbn; try done; rewrite ?IH; try lia.
Qed.

(** [t] occurs in [s] at [p]. *)
Definition occurs (t s : string) (p : nat) : Prop := String.substring p (String.length t) s = t.
Lemma get_length n s : is_Some (String.get n s) <-> (n < String.length s)%nat.
Proof.
  revert n. induction s as [|c s IH]; intros [|n]; cbn; split; intros H; try lia; try (by destruct H); try done.
  - apply IH in H. lia.
  - apply IH. lia.
Qed.
Lemma occurs_get t s p : occurs t s p <-> forall q, (q < String.length t)%nat -> String.get (p + q) s = String.get q t.
Proof.
  unfold occurs. rewrite <-String.get_correct. split.
  - intros H q Hq. rewrite <-(H q), String.substring_correct1 by done. f_equal. lia.
  - intros H q. destruct (Nat.lt_ge_cases q (String.length t)) as [Hq|Hq].
    + rewrite String.substring_correct1, <-H by done. f_equal. lia.
    + rewrite String.substring_correct2 by done. destruct (String.get q t) eqn:E; [|done].
      assert (q < String.length t)%nat by (apply get_length; by eexists). lia.
Qed.
Lemma occurs_bound t s p : occurs t s p -> (0 < String.length t)%nat -> (p + String.length t <= String.length s)%nat.
Proof.
  intros H Ht. apply (f_equal String.length) in H. rewrite length_substring in H. lia.
Qed.
(** The text before the place of a replacement is unchanged. *)
Lemma get_replaced s j t r q : (j <= String.length s)%nat -> (q < j)%nat ->
  String.get q (String.substring 0 j s +:+ t +:+ r) = String.get q s.
Proof.
  intros Hj Hq. assert (String.length (String.substring 0 j s) = j) as Hl by (rewrite length_substring; lia).
  rewrite <-String.append_correct1 by (rewrite Hl; lia). rewrite String.substring_correct1 by lia. f_equal. lia.
Qed.
Lemma get_replacement s j c t r : (j <= String.length s)%nat ->
  String.get j (String.substring 0 j s +:+ String c t +:+ r) = Some c.
Proof.
  intros Hj. assert (String.length (String.substring 0 j s) = j) as Hl by (rewrite length_substring; lia).
  pose proof (String.append_correct2 (String.substring 0 j s) (String c t +:+ r) 0) as H. rewrite Hl in H. cbn [Nat.add] in H. by rewrite <-H.
Qed.
Lemma get_absent c t q : all_chars (fun x => negb (Ascii.eqb x c)) t = true -> String.get q t <> Some c.
Proof.
  revert q. induction t as [|a t IH]; intros [|q]; cbn; try done; rewrite andb_true_iff, negb_true_iff; intros [Ha Ht].
  - intros [= ->]. by rewrite Ascii.eqb_refl in Ha.
  - by apply IH.
Qed.

Lemma length_pretty_N_go k : forall x s, (x < 10 ^ N.of_nat k)%N -> (String.length (pretty_N_go x s) <= k + String.length s)%nat.
Proof.
  induction k as [|k IH]; intros x s Hx.
  { assert (x = 0)%N as -> by (cbn in Hx; lia). by rewrite pretty_N_go_0. }
  destruct (N.eq_dec x 0) as [->|H0]; [rewrite pretty_N_go_0; lia|]. rewrite pretty_N_go_step by lia.
  specialize (IH (x `div` 10)%N (String (pretty_N_char (x `mod` 10)) s)). cbn [String.length] in IH.
  etransitivity; [apply IH|lia]. rewrite Nat2N.inj_succ, N.pow_succ_r' in Hx. apply N.Div0.div_lt_upper_bound. lia.
Qed.
(** The length of a written number. *)
Lemma length_pretty (x : Z) k : (0 < k)%nat -> Z.abs x < 10 ^ Z.of_nat k ->
  (1 <= String.length (pretty x) <= k + (if Z.ltb x 0 then 1 else 0))%nat.
Proof.
  intros Hk Hx. split; [destruct (pretty_number x) as [_ H]; destruct (pretty x); [done|cbn; lia]|].
  assert (forall p, Z.pos p < 10 ^ Z.of_nat k -> (String.length (pretty (N.pos p)) <= k)%nat) as Hp.
  { intros p Hp. unfold pretty, pretty_N. rewrite decide_False by done.
    pose proof (length_pretty_N_go k (N.pos p) "") as H. cbn [String.length] in H. etransitivity; [apply H|lia].
    apply N2Z.inj_lt. rewrite N2Z.inj_pow. change (Z.of_N 10) with 10. by rewrite nat_N_Z. }
  destruct x as [|p|p]; [cbn; lia| |].
  - change (pretty (Z.pos p)) with (pretty (N.pos p)). specialize (Hp p Hx). cbn [Z.ltb Z.compare]. lia.
  - change (pretty (Z.neg p)) with (String "-" (pretty (N.pos p))). specialize (Hp p Hx). cbn [Z.ltb Z.compare String.length]. lia.
Qed.

Lemma to_lower_idem s : to_lower (to_lower s) = to_lower s.
Proof.
  induction s as [|c s IH]; [done|]. cbn [to_lower]. rewrite IH. f_equal. by destruct c as [[] [] [] [] [] [] [] []].
Qed.
Lemma to_lower_free c s : to_lower_char c = c -> (forall a, to_lower_char a = c -> a = c) ->
  all_chars (fun x => negb (Ascii.eqb x c)) s = true -> all_chars (fun x => negb (Ascii.eqb x c)) (to_lower s) = true.
Proof.
  intros Hc Hinj. induction s as [|a s IH]; [done|]. cbn [to_lower all_chars]. rewrite !andb_true_iff. intros [Ha Hs].
  split; [|by apply IH]. rewrite negb_true_iff in *. apply Ascii.eqb_neq. apply Ascii.eqb_neq in Ha. intros H. by apply Ha, Hinj.
Qed.
Lemma to_lower_app s t : to_lower (s +:+ t) = to_lower s +:+ to_lower t.
Proof. induction s as [|c s IH]; [done|]. rewrite string_app_cons. cbn [to_lower]. by rewrite IH. Qed.
Lemma c_str_free s : all_chars (fun x => negb (Ascii.eqb x zero)) s = true -> c_str s = s.
Proof.
  induction s as [|c s IH]; [done|]. cbn [all_chars c_str]. rewrite andb_true_iff, negb_true_iff. intros [-> Hs]. by rewrite IH.
Qed.
Lemma skip_spaces_free s t : all_chars (fun x => negb (is_space x)) s = true -> s <> "" -> skip_spaces (s +:+ t) = s +:+ t.
Proof.
  destruct s as [|c s]; [done|]. intros H _. cbn [all_chars] in H. apply andb_true_iff in H as [H _].
  apply negb_true_iff in H. unfold is_space in H. rewrite string_app_cons. cbn [skip_spaces]. by rewrite H.
Qed.
Lemma trim_space s : all_chars (fun x => negb (is_space x)) s = true -> s <> "" -> trim (s +:+ " ") = s.
Proof.
  intros H Hne. unfold trim. rewrite skip_spaces_free by done. clear Hne. induction s as [|c s IH]; [done|].
  cbn [all_chars] in H. apply andb_true_iff in H as [Hc H]. rewrite string_app_cons. cbn [trim_right]. rewrite IH by done.
  apply negb_true_iff in Hc. destruct s; [by rewrite Hc|done].
Qed.
Lemma digit_no_space c : is_digit c = true -> is_space c = false.
Proof.
  unfold is_digit, is_space. rewrite andb_true_iff, !N.leb_le. intros H.
  destruct (N.eqb_spec (N_of_ascii c) 32); [lia|]. destruct (N.leb_spec (N_of_ascii c) 13); [lia|]. cbn. apply andb_false_r.
Qed.
(** A written number that is followed by no digit is read back. *)
Lemma stox_pretty bits (x : Z) rest : 1 < bits -> 0 <= x < 2 ^ (bits - 1) ->
  match rest with String c _ => is_digit c = false | EmptyString => True end -> stox bits (pretty x +:+ rest) = inr x.
Proof.
  intros Hb Hx Hr. destruct (pretty_digits x ltac:(lia)) as (Hd & Hn & Hv). unfold stox.
  assert (all_chars (fun c => negb (is_space c)) (pretty x) = true) as Hsp.
  { eapply all_chars_impl; [|exact Hd]. intros c Hc. by rewrite digit_no_space. }
  rewrite skip_spaces_free by done.
  assert (sign (pretty x +:+ rest) = (false, pretty x +:+ rest)) as ->.
  { destruct (pretty x) as [|c s]; [done|]. cbn [all_chars] in Hd. apply andb_true_iff in Hd as [Hc _].
    rewrite string_app_cons. unfold sign. repeat case_match; try done; simplify_eq; done. }
  rewrite Hv. destruct (pretty x) as [|c s] eqn:Es; [done|]. cbn [all_chars] in Hd. apply andb_true_iff in Hd as [Hc _].
  rewrite string_app_cons, Hc.
  assert (fst (digits x rest) = x) as -> by (destruct rest as [|r rest]; [done|]; cbn [digits]; by rewrite Hr).
  rewrite Z.mul_1_l, (proj2 (Z.ltb_ge _ _)), (proj2 (Z.leb_gt _ _)) by lia. done.
Qed.

(** [atoi] of the C library: a number out of the range of [long] is its nearest bound,
    and the low 32 bits are the result. *)
Definition atoi (str : string) : Z :=
  let '(neg, s) := sign (skip_spaces str) in
  let v := fst (digits 0 s) in
  s32 (Z.min (2 ^ 63 - 1) (Z.max (- 2 ^ 63) (if neg : bool then - v else v))).
Lemma atoi_pretty (n : Z) : - 2 ^ 31 <= n < 2 ^ 31 -> atoi (pretty n) = n.
Proof.
  intros Hn. assert (forall x, 0 <= x -> fst (digits 0 (pretty x)) = x) as Hd.
  { intros x Hx. destruct (pretty_digits x Hx) as (_ & _ & H). specialize (H ""). rewrite string_app_nil in H. by rewrite H. }
  unfold atoi. destruct (Z.le_gt_cases 0 n) as [H0|H0].
  - destruct (skip_spaces_digit (pretty n)) as [-> ->]; [by apply pretty_digits|]. rewrite Hd by done.
    rewrite Z.max_r, Z.min_r by lia. by apply s32_small.
  - destruct n as [|p|p]; [lia..|]. change (pretty (Zneg p)) with (String "-" (pretty (Zpos p))).
    change (skip_spaces (String "-" ?s)) with (String "-" s). cbn [sign]. rewrite Hd by lia.
    rewrite Z.max_r, Z.min_r by lia. by apply s32_small.
Qed.
