(* ===== verification/Framer.v ===== *)
(** Message framing of the socket stream between plugins and the core. *)
From S2P Require Import Prelude.

Module Framer.
Definition MSG_FRAMER_MAX_BUF_SIZE : Z := 20000.
Definition STX : Z := 2.
Definition ETX : Z := 3.
Definition NUL : Z := 0.

(** A [NULL] test on a returned pointer. *)
Definition isNone {A} (o : option A) : bool :=
  match o with None => true | Some _ => false end.

Record MsgFramer := mkFramer { buf : list Z; bufpos : Z; readpos : Z }.

Definition MSG_FRAMER_INITIALIZER : MsgFramer :=
  mkFramer (replicate (Z.to_nat (MSG_FRAMER_MAX_BUF_SIZE + 1)) NUL) 0 0.

Definition msgFramer_getBufLength (f : MsgFramer) : Z :=
  MSG_FRAMER_MAX_BUF_SIZE - bufpos f.

(** The copy loop [for (i = 0; i < n; i++) buf[i] = buf[i + shift];],
    from iteration [i] on, [k] iterations left. *)
Fixpoint shift_loop (k i shift : nat) (b : list Z) : list Z :=
  match k with
  | O => b
  | S k' => shift_loop k' (S i) shift (<[i := b !!! (i + shift)%nat]> b)
  end.

(** [strstr(s, c)] for a one-character needle: the scan stops at the NUL. *)
Fixpoint strchr (c : Z) (s : list Z) : option nat :=
  match s with
  | [] => None
  | x :: s' => if x =? c then Some O
               else if x =? NUL then None
               else S <$> strchr c s'
  end.

(** The C string that starts at the first cell. *)
Fixpoint cstr (s : list Z) : list Z :=
  match s with
  | [] => []
  | x :: s' => if x =? NUL then [] else x :: cstr s'
  end.

Definition shift_buf (shift : Z) (f : MsgFramer) : MsgFramer :=
  mkFramer (shift_loop (Z.to_nat (bufpos f + 1 - shift)) 0 (Z.to_nat shift) (buf f))
           (bufpos f - shift) (readpos f).

Definition msgFramer_getNextMsg (f : MsgFramer) : option (list Z) * MsgFramer :=
  let f1 :=
    if negb (readpos f =? 0) then
      let f' := shift_buf (readpos f) f in mkFramer (buf f') (bufpos f') 0
    else f in
  let '(results, f2) :=
    match strchr STX (buf f1) with
    | None => (None, mkFramer (buf f1) 0 (readpos f1))
    | Some msgStart =>
        let f' := if negb (Nat.eqb msgStart 0) then shift_buf (Z.of_nat msgStart) f1 else f1 in
        match strchr ETX (buf f') with
        | None => (None, f')
        | Some msgEnd =>
            let b := <[msgEnd := NUL]> (buf f') in
            (Some (cstr (drop 1 b)), mkFramer b (bufpos f') (Z.of_nat msgEnd + 1))
        end
    end in
  if (bufpos f2 =? MSG_FRAMER_MAX_BUF_SIZE) && isNone results
  then (results, mkFramer (buf f2) 0 0)
  else (results, f2).

Definition msgFramer_incrementBufPos (incLength : Z) (f : MsgFramer) : MsgFramer :=
  let p := bufpos f + incLength in
  if p >? MSG_FRAMER_MAX_BUF_SIZE then mkFramer (buf f) 0 0
  else mkFramer (<[Z.to_nat p := NUL]> (buf f)) p (readpos f).

Definition msgFramer_createFramedMsg (msg : list Z) (msgLength : nat) : list Z :=
  [STX] ++ take msgLength msg ++ [ETX].

(** The receive loop's inner [while ((raw = msgFramer_getNextMsg(&f)) != NULL)]:
    the messages found, [None] when the fuel runs out. *)
Fixpoint drain (fuel : nat) (f : MsgFramer) : option (list (list Z) * MsgFramer) :=
  match fuel with
  | O => None
  | S fuel' =>
      match msgFramer_getNextMsg f with
      | (None, f') => Some ([], f')
      | (Some m, f') =>
          '(ms, f'') ← drain fuel' f'; Some (m :: ms, f'')
      end
  end.

(** [recv] into the free part of the buffer followed by the position update. *)
Definition recv_bytes (data : list Z) (f : MsgFramer) : MsgFramer :=
  msgFramer_incrementBufPos (Z.of_nat (length data))
    (mkFramer (write_at (Z.to_nat (bufpos f)) data (buf f)) (bufpos f) (readpos f)).

(** The receive loop on the byte stream a peer sends: the [k]-th [recv]
    delivers at most [k]-th size bytes, never more than the buffer has room
    for; a [recv] of no byte (end of stream, no room) ends the loop. The
    result is the messages found, the bytes not received and the framer. *)
Fixpoint receive (sizes : list nat) (stream : list Z) (f : MsgFramer)
  : option (list (list Z) * list Z * MsgFramer) :=
  match sizes with
  | [] => Some ([], stream, f)
  | n :: sizes' =>
      let k := Nat.min n (Z.to_nat (msgFramer_getBufLength f)) in
      match take k stream with
      | [] => Some ([], stream, f)
      | data =>
          '(ms, f1) ← drain (S (Z.to_nat MSG_FRAMER_MAX_BUF_SIZE)) (recv_bytes data f);
          '(ms', stream', f') ← receive sizes' (drop k stream) f1;
          Some (ms ++ ms', stream', f')
      end
  end.

(** ** The abstract framer: the bytes received and not yet consumed *)
Definition content (f : MsgFramer) : list Z :=
  take (Z.to_nat (bufpos f - readpos f)) (drop (Z.to_nat (readpos f)) (buf f)).

Definition spec_next (c : list Z) : option (list Z) * list Z :=
  match strchr STX c with
  | None => (None, [])
  | Some i =>
      let c' := drop i c in
      match strchr ETX c' with
      | None => (None, if Z.of_nat (length c') =? MSG_FRAMER_MAX_BUF_SIZE then [] else c')
      | Some j => (Some (take (j - 1) (drop 1 c')), drop (S j) c')
      end
  end.

(** The buffer is [c], a NUL, then anything; or the content was discarded
    and what is left in the buffer holds no message. *)
Definition stale (f : MsgFramer) : Prop :=
  bufpos f = 0 /\ readpos f = 0 /\ NUL ∈ buf f /\ (strchr STX (buf f) = None \/
   (strchr STX (buf f) = Some O /\ strchr ETX (buf f) = None)).
Definition repr (f : MsgFramer) (c : list Z) : Prop :=
  bufpos f = Z.of_nat (length c) /\ 0 <= readpos f <= bufpos f /\ exists rest, buf f = c ++ NUL :: rest.
Definition wf (f : MsgFramer) : Prop :=
  length (buf f) = Z.to_nat (MSG_FRAMER_MAX_BUF_SIZE + 1) /\ (stale f \/ exists c, repr f c).

Lemma strchr_Some c l i :
  c <> NUL -> (strchr c l = Some i <->
  exists l1 l2, l = l1 ++ c :: l2 /\ length l1 = i /\ c ∉ l1 /\ NUL ∉ l1).
Proof.
  intros Hc. revert i. induction l as [|x l IH]; intros i; simpl.
  { split; [done|]. intros (l1 & l2 & E & _). by destruct l1. }
  destruct (Z.eqb_spec x c) as [->|E1]; [|destruct (Z.eqb_spec x NUL) as [->|E2]].
  - split.
    + intros [= <-]. exists [], l. set_solver.
    + intros ([|y l1] & l2 & E & <- & Hn & _); simplify_eq/=; [done|set_solver].
  - split; [done|].
    intros ([|y l1] & l2 & E & <- & _ & Hz); simplify_eq/=; set_solver.
  - rewrite fmap_Some. split.
    + intros (k & Hk & ->). apply IH in Hk as (l1 & l2 & -> & <- & ? & ?).
      exists (x :: l1), l2. set_solver.
    + intros ([|y l1] & l2 & E & <- & Hn & Hz); simplify_eq/=.
      exists (length l1). split; [|done]. apply IH. exists l1, l2. set_solver.
Qed.

Lemma strchr_app_NUL c l r : c <> NUL -> strchr c (l ++ NUL :: r) = strchr c l.
Proof.
  intros Hc. induction l as [|x l IH]; cbn [strchr app].
  { by destruct (Z.eqb_spec NUL c); [congruence|]. }
  by rewrite IH.
Qed.

Lemma strchr_None_notin c l : c ∉ l -> strchr c l = None.
Proof.
  induction l as [|x l IH]; simpl; [done|]. rewrite not_elem_of_cons. intros [? ?].
  destruct (Z.eqb_spec x c); [congruence|].
  destruct (x =? NUL); [done|]. by rewrite IH.
Qed.

Lemma cstr_app_NUL l r : NUL ∉ l -> cstr (l ++ NUL :: r) = l.
Proof.
  induction l as [|x l IH]; simpl; [done|]. rewrite not_elem_of_cons. intros [? ?].
  destruct (Z.eqb_spec x NUL); [congruence|]. by rewrite IH.
Qed.

(** The copy loop is a block move: iterating upwards, each cell is read
    before it is overwritten. *)
Lemma shift_loop_spec k i s b :
  (i + k + s <= length b)%nat ->
  shift_loop k i s b = take i b ++ take k (drop (i + s) b) ++ drop (i + k) b.
Proof.
  revert i b. induction k as [|k IH]; intros i b Hlen; cbn [shift_loop].
  { rewrite take_0, Nat.add_0_r. cbn. by rewrite take_drop. }
  destruct (lookup_lt_is_Some_2 b (i + s)) as [x Hx]; [lia|].
  destruct (lookup_lt_is_Some_2 b i) as [y Hy]; [lia|].
  rewrite IH by (rewrite length_insert; lia).
  rewrite (list_lookup_total_correct _ _ _ Hx).
  assert (take (S i) (<[i:=x]> b) = take i b ++ [x]) as ->.
  { rewrite (take_S_r _ _ x) by (apply list_lookup_insert_eq; lia).
    by rewrite take_insert_ge by lia. }
  rewrite (drop_insert_lt _ (S i + s)), (drop_insert_lt _ (S i + k)) by lia.
  rewrite (drop_S b x (i + s)) by done. cbn. rewrite <- app_assoc. cbn.
  by rewrite Nat.add_succ_r.
Qed.

Lemma shift_loop_repr s c rest :
  (s <= length c)%nat ->
  exists rest', shift_loop (length c + 1 - s) 0 s (c ++ NUL :: rest) = drop s c ++ NUL :: rest' /\
                length rest' = (s + length rest)%nat.
Proof.
  intros Hs. rewrite shift_loop_spec by (rewrite length_app; simpl; lia).
  rewrite take_0, !Nat.add_0_l. cbn [app].
  exists (drop (length c + 1 - s) (c ++ NUL :: rest)). split.
  - rewrite drop_app_le by done.
    replace (length c + 1 - s)%nat with (length (drop s c) + 1)%nat at 1
      by (rewrite length_drop; lia).
    rewrite take_app_add. cbn. by rewrite <- app_assoc.
  - rewrite length_drop, length_app. simpl. lia.
Qed.

Lemma content_repr f c : repr f c -> content f = drop (Z.to_nat (readpos f)) c.
Proof.
  intros (Hp & Hr & rest & Hb). unfold content. rewrite Hb, Hp.
  rewrite drop_app_le by lia. rewrite take_app_le by (rewrite length_drop; lia).
  apply take_ge. rewrite length_drop. lia.
Qed.

Lemma content_stale f : stale f -> content f = [].
Proof. intros (Hp & Hr & _). unfold content. by rewrite Hp, Hr. Qed.

(** Moving the content to the front of the buffer. *)
Lemma shift_buf_repr f c s :
  repr f c -> 0 <= s <= Z.of_nat (length c) ->
  let f' := shift_buf s f in
  bufpos f' = Z.of_nat (length (drop (Z.to_nat s) c)) /\
  length (buf f') = length (buf f) /\
  exists rest, buf f' = drop (Z.to_nat s) c ++ NUL :: rest.
Proof.
  intros (Hp & Hr & rest & Hb) Hs. cbn. rewrite length_drop.
  destruct (shift_loop_repr (Z.to_nat s) c rest) as (rest' & E & El); [lia|].
  rewrite Hp, Hb. replace (Z.to_nat (Z.of_nat (length c) + 1 - s))
    with (length c + 1 - Z.to_nat s)%nat by lia.
  rewrite E. split; [lia|]. split; [|by eexists].
  rewrite !length_app, length_drop. simpl. lia.
Qed.

Lemma strchr_repr f c ch : ch <> NUL -> repr f c -> strchr ch (buf f) = strchr ch c.
Proof. intros Hc (_ & _ & rest & ->). by apply strchr_app_NUL. Qed.

Lemma repr_NUL f c : repr f c -> NUL ∈ buf f.
Proof. intros (_ & _ & rest & ->). set_solver. Qed.

(** The scan for ETX, once STX is the first byte of the content. *)
Definition scan_end (f : MsgFramer) : option (list Z) * MsgFramer :=
  match strchr ETX (buf f) with
  | None => (None, f)
  | Some msgEnd =>
      let b := <[msgEnd := NUL]> (buf f) in
      (Some (cstr (drop 1 b)), mkFramer b (bufpos f) (Z.of_nat msgEnd + 1))
  end.

Lemma scan_end_found f l1 l2 :
  repr f (STX :: l1 ++ ETX :: l2) -> ETX ∉ l1 -> NUL ∉ l1 ->
  exists f', scan_end f = (Some l1, f') /\ repr f' (STX :: l1 ++ NUL :: l2) /\
    length (buf f') = length (buf f) /\ readpos f' = Z.of_nat (length l1) + 2.
Proof.
  intros R He Hn. unfold scan_end.
  assert (strchr ETX (STX :: l1 ++ ETX :: l2) = Some (S (length l1))) as E.
  { apply strchr_Some; [done|]. exists (STX :: l1), l2. set_solver. }
  rewrite (strchr_repr _ _ ETX ltac:(done) R), E.
  destruct R as (Hp & Hr & rest & Hb). rewrite Hb.
  assert (<[S (length l1) := NUL]> ((STX :: l1 ++ ETX :: l2) ++ NUL :: rest)
          = (STX :: l1 ++ NUL :: l2) ++ NUL :: rest) as ->.
  { cbn [app]. rewrite <- !app_assoc. cbn [app].
    rewrite (insert_app_r_alt (STX :: l1) (ETX :: l2 ++ NUL :: rest)) by (cbn; lia).
    cbn [length]. by rewrite Nat.sub_diag. }
  eexists. split; [|split; [|split]]; cbn [bufpos readpos buf].
  - cbn [drop app]. rewrite drop_0, <- app_assoc. cbn [app].
    by rewrite cstr_app_NUL.
  - split; cbn [bufpos readpos buf]; [|split].
    + rewrite Hp. cbn [length]. by rewrite !length_app.
    + rewrite Hp. cbn [length]. rewrite length_app. cbn [length]. lia.
    + exists rest. cbn [app]. by rewrite <- app_assoc.
  - cbn [buf]. repeat (rewrite length_app || cbn [length app]). lia.
  - cbn [readpos]. lia.
Qed.

(** The two outcomes of the scan, from a buffer that starts with STX. *)
Lemma scan_end_spec f c :
  length (buf f) = Z.to_nat (MSG_FRAMER_MAX_BUF_SIZE + 1) ->
  repr f (STX :: c) -> readpos f = 0 ->
  (exists l1 l2, c = l1 ++ ETX :: l2 /\ ETX ∉ l1 /\ NUL ∉ l1 /\
     strchr ETX (STX :: c) = Some (S (length l1)) /\
     exists f', scan_end f = (Some l1, f') /\ content f' = l2 /\ wf f') \/
  (strchr ETX (STX :: c) = None /\ scan_end f = (None, f)).
Proof.
  intros Hl R Hr. destruct (strchr ETX (STX :: c)) as [j|] eqn:E.
  - left. pose proof E as E'. apply strchr_Some in E' as (l1 & l2 & Hc & <- & He & Hn); [|done].
    destruct l1 as [|x l1]; [done|]. injection Hc as <- ->.
    exists l1, l2. apply not_elem_of_cons in He as [_ He], Hn as [_ Hn].
    destruct (scan_end_found f l1 l2 R He Hn) as (f' & Es & R' & El & Er).
    split_and!; [done..|]. exists f'. split_and!; [done| |].
    + rewrite (content_repr _ _ R'), Er.
      replace (Z.to_nat (Z.of_nat (length l1) + 2)) with (length (STX :: l1 ++ [NUL])).
      * change (STX :: l1 ++ NUL :: l2) with ((STX :: l1) ++ [NUL] ++ l2).
        by rewrite app_assoc, drop_app_length.
      * cbn. rewrite length_app. cbn. lia.
    + split; [congruence|]. right. by eexists.
  - right. split; [done|]. unfold scan_end.
    by rewrite (strchr_repr _ _ ETX ltac:(done) R), E.
Qed.

Lemma repr_bound f c :
  length (buf f) = Z.to_nat (MSG_FRAMER_MAX_BUF_SIZE + 1) ->
  repr f c -> bufpos f <= MSG_FRAMER_MAX_BUF_SIZE.
Proof.
  intros Hl (Hp & _ & rest & Hb). rewrite Hb, length_app in Hl. cbn [length] in Hl. lia.
Qed.

(** The second shift: the content from STX on, moved to the front. *)
Lemma shift_to_front f l1 l2 :
  repr f (l1 ++ l2) -> readpos f = 0 ->
  let f1 := if negb (length l1 =? 0)%nat then shift_buf (Z.of_nat (length l1)) f else f in
  length (buf f1) = length (buf f) /\ repr f1 l2 /\ readpos f1 = 0.
Proof.
  intros R Hr. destruct l1 as [|x l1]; [done|]. cbn [length Nat.eqb negb].
  change (S (length l1)) with (length (x :: l1)).
  destruct (shift_buf_repr f _ (Z.of_nat (length (x :: l1))) R) as (Hp & Hl & Hb).
  { rewrite length_app. lia. }
  rewrite Nat2Z.id, drop_app_length in Hp, Hb.
  split_and!; [done| |done]. split_and!; [done|cbn..|done]; [lia|].
  cbn in Hp. lia.
Qed.

Lemma getNextMsg_front f c r f' :
  length (buf f) = Z.to_nat (MSG_FRAMER_MAX_BUF_SIZE + 1) ->
  repr f c -> readpos f = 0 ->
  msgFramer_getNextMsg f = (r, f') ->
  spec_next c = (r, content f') /\ wf f' /\
  (r = None -> readpos f' = 0 /\ bufpos f' < MSG_FRAMER_MAX_BUF_SIZE).
Proof.
  intros Hl R Hr. unfold msgFramer_getNextMsg, spec_next.
  rewrite Hr. cbn [Z.eqb negb].
  rewrite (strchr_repr _ _ STX ltac:(done) R).
  destruct (strchr STX c) as [i|] eqn:E.
  - apply strchr_Some in E as (l1 & l2 & -> & <- & Hs & Hn); [|done].
    destruct (shift_to_front f l1 (STX :: l2) R Hr) as (Hl1 & R1 & Hr1).
    set (f1 := if negb (length l1 =? 0)%nat then _ else f) in *.
    rewrite drop_app_length. fold (scan_end f1).
    assert (bufpos f1 = Z.of_nat (length (STX :: l2))) as Hp1 by apply R1.
    destruct (scan_end_spec f1 l2) as
      [(m & l3 & -> & He & Hn' & -> & f2 & -> & Hc & W)|[E ->]]; [congruence|done..| |].
    + cbn [isNone]. rewrite andb_false_r. intros [= <- <-].
      split_and!; [|done|done]. rewrite Hc. do 2 f_equal.
      * cbn [drop]. rewrite drop_0. cbn. by rewrite Nat.sub_0_r, take_app_length.
      * cbn [drop]. change (ETX :: l3) with ([ETX] ++ l3). rewrite app_assoc.
        replace (S (length m)) with (length (m ++ [ETX])) by (rewrite length_app; cbn; lia).
        by rewrite drop_app_length.
    + rewrite E. cbn [isNone]. rewrite andb_true_r, <- Hp1.
      assert (content f1 = STX :: l2) as Hc1.
      { by rewrite (content_repr _ _ R1), Hr1, drop_0. }
      destruct (Z.eqb_spec (bufpos f1) MSG_FRAMER_MAX_BUF_SIZE) as [Em|Em]; intros [= <- <-].
      * split_and!; [done| |done]. split; [cbn; congruence|]. left.
        split_and!; [done..|apply (repr_NUL _ _ R1)|]. right. cbn [buf].
        rewrite (strchr_repr _ _ STX ltac:(done) R1), (strchr_repr _ _ ETX ltac:(done) R1).
        by split.
      * split_and!; [by rewrite Hc1| |].
        { split; [congruence|]. right. by eexists. }
        intros _. split; [done|].
        pose proof (repr_bound f1 _ ltac:(congruence) R1). lia.
  - intros [= <- <-]. cbn [bufpos Z.eqb andb isNone].
    split_and!; [by unfold content; rewrite Hr| |done].
    split; [done|]. left. split_and!; [done..|apply (repr_NUL _ _ R)|]. left. cbn [buf].
    by rewrite (strchr_repr _ _ STX ltac:(done) R).
Qed.

(** The first shift: what the previous call consumed leaves the buffer. *)
Lemma getNextMsg_shift f :
  readpos f <> 0 ->
  msgFramer_getNextMsg f =
  msgFramer_getNextMsg (mkFramer (buf (shift_buf (readpos f) f)) (bufpos f - readpos f) 0).
Proof.
  intros Hr. unfold msgFramer_getNextMsg at 1.
  destruct (Z.eqb_spec (readpos f) 0); [done|]. reflexivity.
Qed.

Lemma shift_to_content f c :
  repr f c -> length (buf f) = Z.to_nat (MSG_FRAMER_MAX_BUF_SIZE + 1) ->
  let f1 := mkFramer (buf (shift_buf (readpos f) f)) (bufpos f - readpos f) 0 in
  repr f1 (content f) /\ length (buf f1) = Z.to_nat (MSG_FRAMER_MAX_BUF_SIZE + 1).
Proof.
  intros R Hl. rewrite (content_repr _ _ R).
  assert (0 <= readpos f <= Z.of_nat (length c)) by (destruct R; lia).
  destruct (shift_buf_repr f c (readpos f) R) as (Hp & Hl' & Hb); [done|].
  cbn in Hp. split; [|cbn in *; lia].
  split_and!; cbn; [done|lia..|exact Hb].
Qed.

Lemma getNextMsg_stale f : stale f -> msgFramer_getNextMsg f = (None, f).
Proof.
  destruct f as [b p r]. intros (Hp & Hr & Hn & Hs). cbn in *. subst p r.
  unfold msgFramer_getNextMsg. cbn [readpos buf bufpos Z.eqb negb].
  destruct Hs as [->|[-> He]]; [done|]. cbn [Nat.eqb negb buf]. by rewrite He.
Qed.

(** [msgFramer_getNextMsg] implements the abstract framer and keeps the
    buffer well formed. *)
Lemma getNextMsg_refines f r f' :
  wf f -> msgFramer_getNextMsg f = (r, f') ->
  spec_next (content f) = (r, content f') /\ wf f' /\
  (r = None -> readpos f' = 0 /\ bufpos f' < MSG_FRAMER_MAX_BUF_SIZE).
Proof.
  intros [Hl [S|[c R]]] E.
  - rewrite getNextMsg_stale in E by done. injection E as <- <-.
    rewrite (content_stale _ S). split_and!; [done|by split; [|left]|].
    intros _. by destruct S as (-> & -> & _).
  - destruct (decide (readpos f = 0)) as [Hr|Hr].
    + replace (content f) with c; [by apply (getNextMsg_front f)|].
      by rewrite (content_repr _ _ R), Hr, drop_0.
    + rewrite getNextMsg_shift in E by done.
      destruct (shift_to_content f c R Hl) as [R1 Hl1].
      by apply (getNextMsg_front _ (content f) r f' Hl1 R1 eq_refl).
Qed.

Lemma framer_wf_init : wf MSG_FRAMER_INITIALIZER.
Proof.
  split; [by cbn [buf MSG_FRAMER_INITIALIZER]; rewrite length_replicate|].
  right. exists []. split_and!; [done|cbn; lia..|].
  exists (replicate (Z.to_nat MSG_FRAMER_MAX_BUF_SIZE) NUL). by cbn [app].
Qed.

Lemma framer_content_init : content MSG_FRAMER_INITIALIZER = [].
Proof. reflexivity. Qed.

Lemma recv_bytes_spec f data :
  wf f -> readpos f = 0 -> Z.of_nat (length data) <= msgFramer_getBufLength f ->
  wf (recv_bytes data f) /\ content (recv_bytes data f) = content f ++ data /\
  readpos (recv_bytes data f) = 0.
Proof.
  intros [Hl W] Hr Hd. unfold msgFramer_getBufLength in Hd.
  set (c := content f).
  assert (bufpos f = Z.of_nat (length c) /\ take (Z.to_nat (bufpos f)) (buf f) = c) as [Hp Hc].
  { unfold c. destruct W as [S|[c' R]].
    - rewrite (content_stale _ S). destruct S as (-> & _). by rewrite take_0.
    - rewrite (content_repr _ _ R), Hr, drop_0. destruct R as (-> & _ & rest & ->).
      split; [done|]. by rewrite Nat2Z.id, take_app_length. }
  assert (repr (recv_bytes data f) (c ++ data)) as R.
  { unfold recv_bytes, msgFramer_incrementBufPos. cbn [bufpos buf readpos].
    destruct (Z.gtb_spec (bufpos f + Z.of_nat (length data)) MSG_FRAMER_MAX_BUF_SIZE); [lia|].
    split_and!; cbn [bufpos buf readpos]; [rewrite length_app; lia|lia..|].
    set (n := (Z.to_nat (bufpos f) + length data)%nat).
    replace (Z.to_nat (bufpos f + Z.of_nat (length data))) with n by lia.
    pose proof (take_write_at (Z.to_nat (bufpos f)) data (buf f)) as T.
    pose proof (length_write_at (Z.to_nat (bufpos f)) data (buf f)) as L.
    rewrite insert_take_drop by lia. unfold n. rewrite T by lia.
    rewrite Hc. by eexists. }
  assert (readpos (recv_bytes data f) = 0) as Hr'.
  { unfold recv_bytes, msgFramer_incrementBufPos. by destruct (_ >? _). }
  split_and!; [|by rewrite (content_repr _ _ R), Hr', drop_0|done].
  split; [|right; by eexists].
  destruct R as (Hp' & _). unfold recv_bytes, msgFramer_incrementBufPos in *.
  cbn [bufpos buf readpos] in *. destruct (_ >? _); cbn [buf]; rewrite ?length_insert, length_write_at; lia.
Qed.

Lemma content_bound f : wf f -> Z.of_nat (length (content f)) <= MSG_FRAMER_MAX_BUF_SIZE.
Proof.
  intros [Hl [S|[c R]]]; [rewrite (content_stale _ S); cbn; unfold MSG_FRAMER_MAX_BUF_SIZE; lia|].
  pose proof (repr_bound _ _ Hl R). rewrite (content_repr _ _ R), length_drop.
  destruct R. lia.
Qed.

(** ** Draining the buffer *)
Lemma spec_next_shrinks c m c' : spec_next c = (Some m, c') -> (length c' < length c)%nat.
Proof.
  unfold spec_next. destruct (strchr STX c) as [i|] eqn:E; [|done].
  apply strchr_Some in E as (l1 & l2 & -> & <- & _); [|done].
  rewrite drop_app_length. destruct (strchr ETX (STX :: l2)) as [j|]; [|done].
  intros [= _ <-]. cbn [drop]. rewrite length_drop, length_app. cbn [length]. lia.
Qed.

Lemma framer_drain_spec fuel f :
  wf f -> (length (content f) < fuel)%nat ->
  exists ms f', drain fuel f = Some (ms, f') /\ wf f' /\ readpos f' = 0 /\
                bufpos f' < MSG_FRAMER_MAX_BUF_SIZE.
Proof.
  revert f. induction fuel as [|fuel IH]; intros f W Hf; [lia|]. cbn [drain].
  destruct (msgFramer_getNextMsg f) as [[m|] f1] eqn:E;
    destruct (getNextMsg_refines _ _ _ W E) as (Hs & W1 & Hn).
  - destruct (IH f1 W1) as (ms & f' & -> & ?); [apply spec_next_shrinks in Hs; lia|].
    cbn. by eauto.
  - destruct (Hn eq_refl). eauto 10.
Qed.

(** ** The stream of framed messages *)
Definition frame (m : list Z) : list Z := msgFramer_createFramedMsg m (length m).
Definition frames (ms : list (list Z)) : list Z := concat (map frame ms).

(** The messages the framing can carry: no control byte, and short enough
    for the framed message to fit the buffer. *)
Definition clean (m : list Z) : Prop :=
  NUL ∉ m /\ STX ∉ m /\ ETX ∉ m /\ Z.of_nat (length m) + 2 <= MSG_FRAMER_MAX_BUF_SIZE.

Lemma frame_eq m : frame m = STX :: m ++ [ETX].
Proof. unfold frame, msgFramer_createFramedMsg. by rewrite take_ge. Qed.
Lemma length_frame m : length (frame m) = S (S (length m)).
Proof. rewrite frame_eq. cbn. rewrite length_app. cbn. lia. Qed.

Lemma spec_next_frame m c : clean m -> spec_next (frame m ++ c) = (Some m, c).
Proof.
  intros (Hn & Hs & He & _). rewrite frame_eq. unfold spec_next. cbn [app strchr].
  rewrite Z.eqb_refl, drop_0.
  assert (strchr ETX (STX :: (m ++ [ETX]) ++ c) = Some (S (length m))) as ->.
  { apply strchr_Some; [done|]. exists (STX :: m), c. rewrite <- app_assoc.
    set_solver. }
  rewrite <- app_assoc. cbn [drop app]. rewrite drop_0, Nat.sub_succ, Nat.sub_0_r.
  rewrite take_app_length. f_equal.
  change (ETX :: c) with ([ETX] ++ c). rewrite app_assoc.
  replace (S (length m)) with (length (m ++ [ETX])) by (rewrite length_app; cbn; lia).
  by rewrite drop_app_length.
Qed.

Lemma spec_next_partial m c k :
  clean m -> c ++ k = frame m -> k <> [] -> spec_next c = (None, c).
Proof.
  intros (Hn & Hs & He & Hm) E Hk. rewrite frame_eq in E.
  destruct c as [|x c]; [done|]. injection E as -> E.
  destruct k as [|y k _] using rev_ind; [done|].
  rewrite app_assoc in E. apply app_inj_tail in E as [<- ->].
  assert (ETX ∉ STX :: c) by set_solver.
  unfold spec_next. cbn [strchr]. rewrite Z.eqb_refl, drop_0.
  rewrite strchr_None_notin by done.
  rewrite length_app in Hm. cbn [length].
  destruct (Z.eqb_spec (Z.of_nat (S (length c))) MSG_FRAMER_MAX_BUF_SIZE); [lia|done].
Qed.

(** The content never holds a whole message of those still to come. *)
Definition partial (c : list Z) (ms : list (list Z)) : Prop :=
  match ms with
  | [] => c = []
  | m :: _ => (length c < length (frame m))%nat
  end.

Lemma drain_prefix ms : forall fuel f rest,
  wf f -> content f ++ rest = frames ms -> Forall clean ms ->
  (length (content f) < fuel)%nat ->
  exists ms1 ms2 f1, ms = ms1 ++ ms2 /\ drain fuel f = Some (ms1, f1) /\
    wf f1 /\ readpos f1 = 0 /\ bufpos f1 < MSG_FRAMER_MAX_BUF_SIZE /\
    content f1 ++ rest = frames ms2 /\ partial (content f1) ms2.
Proof.
  induction ms as [|m ms IH]; intros fuel f rest W E C Hf;
    (destruct fuel as [|fuel]; [lia|]; cbn [drain];
     destruct (msgFramer_getNextMsg f) as [r f1] eqn:N;
     destruct (getNextMsg_refines _ _ _ W N) as (Hs & W1 & Hn)).
  - cbn in E. apply app_nil in E as [Ec ->]. rewrite Ec in Hs.
    injection Hs as <- Hc1. destruct (Hn eq_refl).
    exists [], [], f1. rewrite <- Hc1. done.
  - apply Forall_cons in C as [Cm C]. unfold frames in E. cbn [map concat] in E.
    destruct (le_lt_dec (length (frame m)) (length (content f))) as [Hl|Hl].
    + assert (content f = frame m ++ drop (length (frame m)) (content f)) as Ec.
      { rewrite <- (take_drop (length (frame m)) (content f)) at 1. f_equal.
        apply (f_equal (take (length (frame m)))) in E.
        by rewrite take_app_le, take_app_length in E. }
      pose proof Hs as Hs'. rewrite Ec, spec_next_frame in Hs by done. injection Hs as <- Hc1.
      apply spec_next_shrinks in Hs'.
      destruct (IH fuel f1 rest) as (ms1 & ms2 & f2 & -> & -> & ?); [done| |done| |].
      * rewrite Ec, <- app_assoc in E. apply app_inv_head in E. by rewrite <- Hc1.
      * lia.
      * exists (m :: ms1), ms2, f2. by split.
    + assert (exists k, content f ++ k = frame m /\ k <> []) as (k & Ek & Hk).
      { exists (drop (length (content f)) (frame m)). split.
        - rewrite <- (take_drop (length (content f)) (frame m)) at 2. f_equal.
          apply (f_equal (take (length (content f)))) in E.
          by rewrite take_app_length, take_app_le in E by lia.
        - intros Hd. apply (f_equal length) in Hd. rewrite length_drop in Hd. cbn [length] in Hd. lia. }
      rewrite (spec_next_partial m _ k) in Hs by done. injection Hs as <- Hc1.
      destruct (Hn eq_refl). exists [], (m :: ms), f1. rewrite <- Hc1. done.
Qed.

Lemma framer_receive_spec sizes : forall f stream ms,
  wf f -> readpos f = 0 -> bufpos f < MSG_FRAMER_MAX_BUF_SIZE ->
  content f ++ stream = frames ms -> partial (content f) ms -> Forall clean ms ->
  Forall (fun n => 0 < n)%nat sizes -> (length stream <= length sizes)%nat ->
  exists f', receive sizes stream f = Some (ms, [], f') /\ content f' = [].
Proof.
  induction sizes as [|n sizes IH]; intros f stream ms W Hr Hp E P C Hn Hl.
  - destruct stream; [|cbn in Hl; lia]. rewrite app_nil_r in E.
    destruct ms as [|m ms]; cbn [partial] in P; [by exists f|].
    rewrite E in P. unfold frames in P. cbn [map concat] in P. rewrite length_app in P. lia.
  - cbn [receive]. set (k := Nat.min n _).
    apply Forall_cons in Hn as [Hn0 Hn].
    assert (0 < k)%nat by (unfold k, msgFramer_getBufLength; lia).
    assert (Z.of_nat k <= msgFramer_getBufLength f) by (unfold k, msgFramer_getBufLength in *; lia).
    destruct stream as [|x stream].
    + rewrite take_nil, app_nil_r in *.
      destruct ms as [|m ms]; cbn [partial] in P; [by exists f|].
      rewrite E in P. unfold frames in P. cbn [map concat] in P. rewrite length_app in P. lia.
    + set (data := take k (x :: stream)).
      assert (data <> []) as Hd by (unfold data; destruct k; [lia|done]).
      destruct (recv_bytes_spec f data W Hr) as (W1 & Hc1 & Hr1).
      { unfold data. rewrite length_take. lia. }
      rewrite <- (take_drop k (x :: stream)), app_assoc in E. fold data in E. rewrite <- Hc1 in E.
      destruct (drain_prefix ms (S (Z.to_nat MSG_FRAMER_MAX_BUF_SIZE)) _ _ W1 E C)
        as (ms1 & ms2 & f1 & -> & D & W2 & Hr2 & Hp2 & E2 & P2).
      { pose proof (content_bound _ W1). lia. }
      destruct (IH f1 (drop k (x :: stream)) ms2) as (f' & R & Hc'); try done.
      { by apply Forall_app in C as [_ C]. }
      { rewrite length_drop. cbn [length] in *. lia. }
      exists f'. split; [|done]. clearbody data. destruct data as [|z l]; [done|].
      rewrite D. cbn [mbind option_bind]. by rewrite R.
Qed.

(** ** Properties *)

(** Framing is transparent to the stream. Whatever way the socket cuts
    the bytes of a sequence of framed messages into reads (any positive
    sizes, at least as many reads as bytes), the receive loop started on the
    initial framer returns exactly the messages, in order, reads every byte
    and leaves nothing pending. *)
Theorem framer_stream_roundtrip ms sizes :
  Forall clean ms -> Forall (fun n => 0 < n)%nat sizes ->
  (length (frames ms) <= length sizes)%nat ->
  exists f', receive sizes (frames ms) MSG_FRAMER_INITIALIZER = Some (ms, [], f') /\
             content f' = [].
Proof.
  intros C Hs Hl. apply framer_receive_spec; try done; [apply framer_wf_init|].
  destruct ms; [done|]. cbn [partial]. rewrite length_frame, framer_content_init.
  cbn [length]. lia.
Qed.

Lemma framer_stream_roundtrip_witness :
  exists f', receive (replicate 4 3%nat ++ replicate 8 1%nat) (frames [[72; 105]; []; [33; 33]])
               MSG_FRAMER_INITIALIZER = Some ([[72; 105]; []; [33; 33]], [], f') /\
             content f' = [].
Proof.
  apply framer_stream_roundtrip.
  - repeat constructor; try set_solver; vm_compute; discriminate.
  - repeat constructor.
  - vm_compute. lia.
Defined.

(** C17: one call of [msgFramer_getNextMsg] on a well-formed framer returns
    the first complete message of the pending bytes (dropping what precedes
    its STX, or everything when there is no STX before a NUL), keeps exactly
    the bytes after its ETX pending, discards a full buffer that holds no
    message, and leaves the framer well formed, whatever the copy loops and
    the positions do in the buffer. *)
Theorem framer_getNextMsg_refines f :
  wf f ->
  let '(r, f') := msgFramer_getNextMsg f in
  spec_next (content f) = (r, content f') /\ wf f'.
Proof.
  intros W. destruct (msgFramer_getNextMsg f) as [r f'] eqn:E.
  by destruct (getNextMsg_refines f r f' W E) as (? & ? & _).
Qed.

Lemma framer_getNextMsg_refines_witness :
  let f := recv_bytes [9; 2; 65; 66; 3; 2; 67] MSG_FRAMER_INITIALIZER in
  fst (msgFramer_getNextMsg f) = Some [65; 66] /\
  let '(r, f') := msgFramer_getNextMsg f in
  spec_next (content f) = (r, content f') /\ wf f'.
Proof.
  split; [vm_compute; reflexivity|].
  apply framer_getNextMsg_refines, recv_bytes_spec; [apply framer_wf_init|done|].
  vm_compute. discriminate.
Defined.

(** Draining terminates and leaves room. On a well-formed framer the
    loop that calls [msgFramer_getNextMsg] until it returns NULL stops within
    [MSG_FRAMER_MAX_BUF_SIZE + 1] calls, and afterwards the space offered to
    the next [recv] is positive and inside the buffer: the receiver never
    asks [recv] for zero bytes, which it would take for a closed connection. *)
Theorem framer_drain_leaves_room f :
  wf f ->
  exists ms f', drain (S (Z.to_nat MSG_FRAMER_MAX_BUF_SIZE)) f = Some (ms, f') /\ wf f' /\
    0 < msgFramer_getBufLength f' <= MSG_FRAMER_MAX_BUF_SIZE /\
    bufpos f' + msgFramer_getBufLength f' < Z.of_nat (length (buf f')).
Proof.
  intros W. pose proof (content_bound _ W).
  destruct (framer_drain_spec (S (Z.to_nat MSG_FRAMER_MAX_BUF_SIZE)) f W)
    as (ms & f' & D & W' & Hr & Hp); [lia|].
  exists ms, f'. split_and!; try done; unfold msgFramer_getBufLength; destruct W' as [Hl W'].
  - lia.
  - destruct W' as [S|[c R]]; [destruct S as (-> & _); lia|].
    destruct R as (_ & ? & _). lia.
  - unfold MSG_FRAMER_MAX_BUF_SIZE in *. lia.
Qed.

Lemma framer_drain_leaves_room_witness :
  exists ms f', drain (S (Z.to_nat MSG_FRAMER_MAX_BUF_SIZE))
      (recv_bytes [2; 65; 3; 2; 66] MSG_FRAMER_INITIALIZER) = Some (ms, f') /\ wf f' /\
    0 < msgFramer_getBufLength f' <= MSG_FRAMER_MAX_BUF_SIZE /\
    bufpos f' + msgFramer_getBufLength f' < Z.of_nat (length (buf f')).
Proof.
  apply framer_drain_leaves_room, recv_bytes_spec; [apply framer_wf_init|done|].
  vm_compute. discriminate.
Defined.
End Framer.
