(* ===== verification/Json.v ===== *)
(** The JSON trees of [src/src/tmx/TmxApi/tmx/json]: the node structure of
    cJSON, the accessors and constructors the message layer calls
    ([cJSON.c] 39-43 and 510-583), and the typed field readers of
    [cJSONxtra.c].

    A node is modelled as the C structure: its type code, [valuestring],
    [valueint], [valuedouble] and its list of children, each child with the
    name ([string], NULL in arrays) it carries. A [double] is the rational it
    denotes. The text form is an interface ([JsonText]): a printer and a
    parser whose law is that parsing what was printed gives the tree back,
    with every [valueint] recomputed from the printed number. *)
From Stdlib Require Import QArith Ascii String.
From S2P Require Import Prelude.
Open Scope Z_scope.

Module Json.
Inductive cJSON_type :=
  cJSON_False | cJSON_True | cJSON_NULL | cJSON_Number | cJSON_String | cJSON_Array | cJSON_Object.

#[export] Instance cJSON_type_eq_dec : EqDecision cJSON_type.
Proof. solve_decision. Defined.

Inductive cJSON : Type := Node {
  type : cJSON_type;
  valuestring : option string;
  valueint : Z;
  valuedouble : Q;
  child : list (option string * cJSON)
}.

(** Induction with the hypothesis on every child. *)
Lemma cJSON_rect_children (P : cJSON -> Prop) :
  (forall t vs vi vd ch, Forall (fun p => P p.2) ch -> P (Node t vs vi vd ch)) ->
  forall j, P j.
Proof.
  intros H. fix IH 1. intros [t vs vi vd ch]. apply H.
  induction ch as [|[s c] ch IHch]; constructor; [apply IH|exact IHch].
Qed.

(** ** Strings *)
Definition tolower (c : ascii) : ascii :=
  let n := N_of_ascii c in
  if ((65 <=? n) && (n <=? 90))%N then ascii_of_N (n + 32) else c.

(** [cJSON_strcasecmp(s1, s2) == 0] on two C strings. *)
Fixpoint strcaseeq (s1 s2 : string) : bool :=
  match s1, s2 with
  | EmptyString, EmptyString => true
  | String c1 s1', String c2 s2' => Ascii.eqb (tolower c1) (tolower c2) && strcaseeq s1' s2'
  | _, _ => false
  end.
Definition cJSON_strcaseeq (s1 : option string) (s2 : string) : bool :=
  match s1 with None => false | Some s => strcaseeq s s2 end.

(** ** Numbers *)

(** [(int64_t) d]: truncation towards zero. *)
Definition trunc (q : Q) : Z := Z.quot (Qnum q) (Zpos (Qden q)).

(** The quotient of two positive integers rounded to nearest, ties to even. *)
Definition div_even (a d : Z) : Z :=
  let q := a / d in
  let r := a mod d in
  if 2 * r <? d then q else if d <? 2 * r then q + 1 else if Z.even q then q else q + 1.

(** The [double] nearest to a rational, ties to even, with a 53-bit
    significand; overflow and subnormal results are not modelled. *)
Definition rnd (x : Q) : Q :=
  let a := Z.abs (Qnum x) in
  let d := Zpos (Qden x) in
  if (a <=? 2 ^ 53) && (d =? 2 ^ Z.log2 d) then x
  else
    let e := Z.log2 a - Z.log2 d in
    let e := if a * 2 ^ Z.max 0 (- e) <? d * 2 ^ Z.max 0 e then e - 1 else e in
    let m := div_even (a * 2 ^ Z.max 0 (52 - e)) (d * 2 ^ Z.max 0 (e - 52)) in
    Qmake (Z.sgn (Qnum x) * m * 2 ^ Z.max 0 (e - 52)) (Z.to_pos (2 ^ Z.max 0 (52 - e))).
Definition double_of_int (n : Z) : Q := rnd (inject_Z n).

(** ** Accessors *)
Definition cJSON_GetArraySize (array : cJSON) : Z := Z.of_nat (length (child array)).

Definition cJSON_GetArrayItem (array : cJSON) (item : Z) : option cJSON :=
  snd <$> child array !! Z.to_nat item.

Definition find_member (ch : list (option string * cJSON)) (name : string) : option cJSON :=
  snd <$> List.find (fun p => cJSON_strcaseeq p.1 name) ch.
Definition cJSON_GetObjectItem (object : cJSON) (name : string) : option cJSON :=
  find_member (child object) name.

(** ** Constructors *)
Definition cJSON_CreateNumber (num : Q) : cJSON :=
  Node cJSON_Number None (trunc (rnd (num + (1 # 2)))) num [].
Definition cJSON_CreateString (s : string) : cJSON := Node cJSON_String (Some s) 0 0%Q [].
Definition cJSON_CreateArray : cJSON := Node cJSON_Array None 0 0%Q [].
Definition cJSON_CreateObject : cJSON := Node cJSON_Object None 0 0%Q [].

Definition set_child (j : cJSON) (ch : list (option string * cJSON)) : cJSON :=
  Node (type j) (valuestring j) (valueint j) (valuedouble j) ch.

Definition cJSON_AddItemToArray (array item : cJSON) : cJSON :=
  set_child array (child array ++ [(None, item)]).
Definition cJSON_AddItemToObject (object : cJSON) (name : string) (item : cJSON) : cJSON :=
  set_child object (child object ++ [(Some name, item)]).
Definition cJSON_AddStringToObject (object : cJSON) (name s : string) : cJSON :=
  cJSON_AddItemToObject object name (cJSON_CreateString s).
Definition cJSON_AddNumberToObject (object : cJSON) (name : string) (n : Z) : cJSON :=
  cJSON_AddItemToObject object name (cJSON_CreateNumber (double_of_int n)).

(** [cJSON_DetachItemFromObject]: the first member of that name and the
    object without it. *)
Fixpoint detach_member (ch : list (option string * cJSON)) (name : string)
  : option cJSON * list (option string * cJSON) :=
  match ch with
  | [] => (None, [])
  | p :: ch' =>
      if cJSON_strcaseeq p.1 name then (Some p.2, ch')
      else let '(r, k) := detach_member ch' name in (r, p :: k)
  end.
Definition cJSON_DetachItemFromObject (object : cJSON) (name : string) : option cJSON * cJSON :=
  let '(r, ch) := detach_member (child object) name in (r, set_child object ch).

(** [cJSON_ReplaceItemInObject]: the first member of that name replaced, its
    name respelt; nothing when there is none. *)
Fixpoint replace_member (ch : list (option string * cJSON)) (name : string) (j : cJSON)
  : list (option string * cJSON) :=
  match ch with
  | [] => []
  | p :: ch' =>
      if cJSON_strcaseeq p.1 name then (Some name, j) :: ch'
      else p :: replace_member ch' name j
  end.
Definition cJSON_ReplaceItemInObject (object : cJSON) (name : string) (j : cJSON) : cJSON :=
  set_child object (replace_member (child object) name j).

(** [cJSON_Duplicate(item, 1)]. *)
Fixpoint cJSON_Duplicate (j : cJSON) : cJSON :=
  match j with
  | Node t vs vi vd ch =>
      Node t vs vi vd
        ((fix dup l := match l with
           | [] => []
           | (s, c) :: l' => (s, cJSON_Duplicate c) :: dup l'
           end) ch)
  end.

(** ** cJSONxtra: typed field readers; [None] is the return code 0, which
    leaves the output variable alone *)
Definition cJSONxtra_tryGetStr (root : cJSON) (fieldName : string) : option string :=
  field ← cJSON_GetObjectItem root fieldName;
  if decide (type field = cJSON_String) then valuestring field else None.
Definition tryGetNumber (root : cJSON) (fieldName : string) : option Z :=
  field ← cJSON_GetObjectItem root fieldName;
  if decide (type field = cJSON_Number) then Some (valueint field) else None.
Definition cJSONxtra_tryGetUnsignedInt (root : cJSON) (fieldName : string) : option Z :=
  wrapu 32 <$> tryGetNumber root fieldName.
Definition cJSONxtra_tryGetInt (root : cJSON) (fieldName : string) : option Z :=
  wraps 32 <$> tryGetNumber root fieldName.
Definition cJSONxtra_tryGetInt64 (root : cJSON) (fieldName : string) : option Z :=
  wrapu 64 <$> tryGetNumber root fieldName.

(** ** The text form *)

(** What printing a tree and parsing the text back makes of it: every
    integer value recomputed from the printed number, [true] with the
    [valueint] 1 the parser gives it. *)
Fixpoint reparse (j : cJSON) : cJSON :=
  match j with
  | Node t vs vi vd ch =>
      Node t vs
        (match t with cJSON_Number => trunc vd | cJSON_True => 1 | _ => vi end) vd
        ((fix go l := match l with
           | [] => []
           | (s, c) :: l' => (s, reparse c) :: go l'
           end) ch)
  end.

(** A C string holds no NUL. *)
Fixpoint c_string (s : string) : bool :=
  match s with
  | EmptyString => true
  | String c s' => negb (N_of_ascii c =? 0)%N && c_string s'
  end.

(** The trees the text form can carry: a string has its text, a number is an
    integer of absolute value at most [2^53], only arrays and objects have
    children, which are named exactly in objects. *)
Inductive printable : cJSON -> Prop :=
| printable_atom t vi :
    t = cJSON_False \/ t = cJSON_True \/ t = cJSON_NULL ->
    (t = cJSON_True -> vi = 0 \/ vi = 1) -> (t <> cJSON_True -> vi = 0) ->
    printable (Node t None vi 0%Q [])
| printable_number vi n :
    Z.abs n <= 2 ^ 53 -> Z.abs vi <= 2 ^ 53 -> printable (Node cJSON_Number None vi (inject_Z n) [])
| printable_string s : c_string s = true -> printable (Node cJSON_String (Some s) 0 0%Q [])
| printable_array ch :
    Forall (fun p => p.1 = None) ch -> Forall (fun p => printable p.2) ch ->
    printable (Node cJSON_Array None 0 0%Q ch)
| printable_object ch :
    Forall (fun p => exists s, p.1 = Some s /\ c_string s = true) ch -> Forall (fun p => printable p.2) ch ->
    printable (Node cJSON_Object None 0 0%Q ch).

(** What the message layer relies on: a printer, formatted or not, and a
    parser that reads back what was printed; the unformatted text is a string
    of bytes without control characters. *)
Class JsonText := {
  cJSON_Print : cJSON -> list Z;
  cJSON_PrintUnformatted : cJSON -> list Z;
  cJSON_Parse : list Z -> option cJSON;
  parse_print : forall j, printable j -> cJSON_Parse (cJSON_Print j) = Some (reparse j);
  parse_printUnformatted :
    forall j, printable j -> cJSON_Parse (cJSON_PrintUnformatted j) = Some (reparse j);
  printUnformatted_text :
    forall j, printable j -> Forall (fun b => 31 < b < 256) (cJSON_PrintUnformatted j)
}.

(** ** Lemmas *)
Lemma rnd_exact x :
  Z.abs (Qnum x) <= 2 ^ 53 -> Zpos (Qden x) = 2 ^ Z.log2 (Zpos (Qden x)) -> rnd x = x.
Proof. intros H1%Z.leb_le H2%Z.eqb_eq. unfold rnd. by rewrite H1, H2. Qed.

Lemma double_exact n : Z.abs n <= 2 ^ 53 -> double_of_int n = inject_Z n.
Proof. intros. by apply rnd_exact. Qed.

Lemma trunc_inject n : trunc (inject_Z n) = n.
Proof. unfold trunc. cbn. apply Z.quot_1_r. Qed.

Lemma CreateNumber_valueint n :
  - 2 ^ 52 <= n < 2 ^ 52 ->
  valueint (cJSON_CreateNumber (inject_Z n)) = if n <? 0 then n + 1 else n.
Proof.
  intros Hn. cbn [valueint cJSON_CreateNumber]. rewrite rnd_exact; [|cbn; lia|done].
  unfold trunc, Qplus. cbn [Qnum Qden inject_Z]. change (Zpos (1 * 2)) with 2.
  destruct (Z.ltb_spec n 0).
  - rewrite <- (Z.opp_involutive (n * 2 + 1 * 1)), Z.quot_opp_l by lia.
    rewrite Z.quot_div_nonneg by lia.
    replace (- (n * 2 + 1 * 1)) with (1 + (- n - 1) * 2) by lia.
    rewrite Z.div_add by lia. change (1 / 2) with 0. lia.
  - rewrite Z.quot_div_nonneg by lia.
    replace (n * 2 + 1 * 1) with (1 + n * 2) by lia.
    rewrite Z.div_add by lia. change (1 / 2) with 0. lia.
Qed.

Lemma Duplicate_id j : cJSON_Duplicate j = j.
Proof.
  induction j as [t vs vi vd ch IH] using cJSON_rect_children. cbn. f_equal.
  induction IH as [|[s c] ch Hc _ IHch]; cbn in *; congruence.
Qed.

Lemma reparse_child j :
  child (reparse j) = (fun p => (p.1, reparse p.2)) <$> child j.
Proof.
  destruct j as [t vs vi vd ch]. cbn.
  induction ch as [|[s c] ch IH]; cbn; congruence.
Qed.

Lemma find_member_fmap f ch name :
  find_member ((fun p => (p.1, f p.2)) <$> ch) name = f <$> find_member ch name.
Proof.
  unfold find_member. induction ch as [|[s c] ch IH]; cbn; [done|].
  by destruct (cJSON_strcaseeq s name).
Qed.

Lemma GetObjectItem_reparse j name :
  cJSON_GetObjectItem (reparse j) name = reparse <$> cJSON_GetObjectItem j name.
Proof. unfold cJSON_GetObjectItem. by rewrite reparse_child, find_member_fmap. Qed.

Lemma tryGetStr_reparse j name :
  cJSONxtra_tryGetStr (reparse j) name = cJSONxtra_tryGetStr j name.
Proof.
  unfold cJSONxtra_tryGetStr. rewrite GetObjectItem_reparse.
  destruct (cJSON_GetObjectItem j name) as [[t vs vi vd ch]|]; done.
Qed.

(** Reading a member of an object built member by member. *)
Lemma find_member_app ch1 ch2 name :
  find_member (ch1 ++ ch2) name =
  match find_member ch1 name with Some y => Some y | None => find_member ch2 name end.
Proof.
  unfold find_member. induction ch1 as [|[s c] ch1 IH]; cbn; [done|].
  by destruct (cJSON_strcaseeq s name).
Qed.

Lemma GetObjectItem_add j n x name :
  cJSON_GetObjectItem (cJSON_AddItemToObject j n x) name =
  match cJSON_GetObjectItem j name with
  | Some y => Some y
  | None => if strcaseeq n name then Some x else None
  end.
Proof.
  unfold cJSON_GetObjectItem, cJSON_AddItemToObject. cbn [child set_child].
  rewrite find_member_app. unfold find_member at 2. cbn.
  by destruct (strcaseeq n name).
Qed.

Lemma GetObjectItem_create name : cJSON_GetObjectItem cJSON_CreateObject name = None.
Proof. done. Qed.

Lemma detach_member_fst ch name : fst (detach_member ch name) = find_member ch name.
Proof.
  unfold find_member. induction ch as [|[s c] ch IH]; cbn; [done|].
  destruct (cJSON_strcaseeq s name); [done|]. by destruct (detach_member ch name).
Qed.

Lemma DetachItem_fst j name :
  fst (cJSON_DetachItemFromObject j name) = cJSON_GetObjectItem j name.
Proof.
  unfold cJSON_DetachItemFromObject, cJSON_GetObjectItem. rewrite <- detach_member_fst.
  by destruct (detach_member (child j) name).
Qed.

(** A number written by the code and read back from the text. *)
Lemma number_roundtrip n :
  Z.abs n <= 2 ^ 53 ->
  reparse (cJSON_CreateNumber (double_of_int n)) = Node cJSON_Number None n (inject_Z n) [].
Proof. intros H. rewrite double_exact by done. cbn. by rewrite trunc_inject. Qed.

Lemma tryGetNumber_reparse j name n :
  cJSON_GetObjectItem j name = Some (cJSON_CreateNumber (double_of_int n)) ->
  Z.abs n <= 2 ^ 53 -> tryGetNumber (reparse j) name = Some n.
Proof.
  intros E Hn. unfold tryGetNumber. rewrite GetObjectItem_reparse, E. cbn [fmap option_fmap option_map].
  by rewrite number_roundtrip.
Qed.

Lemma tryGetNumber_reparse_None j name :
  cJSON_GetObjectItem j name = None -> tryGetNumber (reparse j) name = None.
Proof. intros E. unfold tryGetNumber. by rewrite GetObjectItem_reparse, E. Qed.

(** A number written by the code and read from the tree itself. *)
Lemma number_valueint n :
  0 <= n < 2 ^ 52 -> valueint (cJSON_CreateNumber (double_of_int n)) = n.
Proof.
  intros H. rewrite double_exact, CreateNumber_valueint by lia.
  destruct (Z.ltb_spec n 0); lia.
Qed.

(** Name comparison is equality of the lower-case names. *)
Fixpoint lower (s : string) : string :=
  match s with EmptyString => EmptyString | String c s' => String (tolower c) (lower s') end.

Lemma strcaseeq_spec s1 s2 : strcaseeq s1 s2 = true <-> lower s1 = lower s2.
Proof.
  revert s2. induction s1 as [|c1 s1 IH]; intros [|c2 s2]; cbn; try done.
  rewrite andb_true_iff, IH, Ascii.eqb_eq. split; [intros [-> ->]|intros [=]]; done.
Qed.

Lemma strcaseeq_refl s : strcaseeq s s = true.
Proof. by apply strcaseeq_spec. Qed.

Lemma strcaseeq_trans_false a b c :
  strcaseeq a b = true -> strcaseeq b c = false -> strcaseeq a c = false.
Proof.
  rewrite <- !not_true_iff_false, !strcaseeq_spec. intros -> H. exact H.
Qed.

Lemma GetObjectItem_replace j n x name :
  cJSON_GetObjectItem (cJSON_ReplaceItemInObject j n x) name =
  if strcaseeq n name
  then match cJSON_GetObjectItem j n with Some _ => Some x | None => cJSON_GetObjectItem j name end
  else cJSON_GetObjectItem j name.
Proof.
  unfold cJSON_GetObjectItem, cJSON_ReplaceItemInObject. cbn [child set_child].
  induction (child j) as [|[s c] ch IH]; cbn [replace_member].
  - unfold find_member. cbn. by case_if.
  - unfold find_member in *. cbn [fst snd].
    destruct (cJSON_strcaseeq s n) eqn:Es; cbn [List.find fst snd].
    + rewrite Es. cbn [cJSON_strcaseeq fmap option_fmap option_map snd].
      destruct (strcaseeq n name) eqn:En; [done|].
      destruct s as [s|]; [|done]. cbn in *. by rewrite (strcaseeq_trans_false s n name).
    + rewrite Es. destruct (cJSON_strcaseeq s name) eqn:Esn; [|done].
      destruct (strcaseeq n name) eqn:En; [|done]. exfalso.
      destruct s as [s|]; [|done]. cbn in *.
      apply strcaseeq_spec in Esn, En. apply not_true_iff_false in Es. apply Es, strcaseeq_spec. congruence.
Qed.

(** Printable objects, closed under adding printable members. *)
Definition printable_obj (j : cJSON) : Prop :=
  printable j /\ j = Node cJSON_Object None 0 0%Q (child j).

Lemma pobj_create : printable_obj cJSON_CreateObject.
Proof. split; [|done]. by apply printable_object. Qed.

Lemma pobj_add j n x :
  c_string n = true -> printable_obj j -> printable x ->
  printable_obj (cJSON_AddItemToObject j n x).
Proof.
  intros Hn [H E] Hx. split; [|rewrite E; done]. rewrite E in *.
  inversion H; subst; [naive_solver|].
  apply printable_object; cbn in *; apply Forall_app; split; try done; constructor; eauto.
Qed.

Lemma pobj_add_string j n s :
  c_string n = true -> c_string s = true -> printable_obj j ->
  printable_obj (cJSON_AddStringToObject j n s).
Proof. intros. apply pobj_add; [done..|]. by apply printable_string. Qed.

Lemma pobj_add_number j n v :
  c_string n = true -> - 2 ^ 52 <= v < 2 ^ 52 -> printable_obj j ->
  printable_obj (cJSON_AddNumberToObject j n v).
Proof.
  intros Hn Hv Hj. apply pobj_add; [done..|]. rewrite double_exact by lia.
  pose proof (CreateNumber_valueint v Hv) as E. unfold cJSON_CreateNumber in *.
  cbn [valueint] in E. rewrite E. apply printable_number; [lia|]. case_if; lia.
Qed.

Lemma pobj_printable j : printable_obj j -> printable j.
Proof. by intros [? _]. Qed.
End Json.

(** Decide the name tests of member lookups on literal names. *)
Ltac json_names :=
  repeat match goal with
    | |- context [Json.strcaseeq ?a ?b] =>
        let v := eval vm_compute in (Json.strcaseeq a b) in change (Json.strcaseeq a b) with v
    end; cbn [fmap option_fmap option_map mbind option_bind default from_option].

Create HintDb json.
Create Rewrite HintDb json.
#[export] Hint Rewrite Json.Duplicate_id Json.tryGetStr_reparse Json.GetObjectItem_reparse
  Json.GetObjectItem_add Json.GetObjectItem_create Json.DetachItem_fst : json.

#[export] Hint Resolve Json.pobj_create Json.pobj_add Json.pobj_add_string Json.pobj_add_number
  Json.pobj_printable : json.
