(* ===== verification/JsonText.v ===== *)
(** The text form of JSON trees: the printer and the parser of
    [src/src/tmx/TmxApi/tmx/json/cJSON.c] (lines 95-507), and the instance of
    the interface [Json.JsonText] they make.

    A text is the list of its bytes; a pointer into it is the suffix that
    starts there, and memory after the text is read as zero. Numbers are
    computed in [double] arithmetic ([Json.rnd]). The recursive parser takes
    fuel; three units per byte are enough for every text
    ([parse_value_terminates]). *)
From Stdlib Require Import QArith Qabs Ascii String.
From S2P Require Import Prelude Json.
Import Json.
Open Scope Z_scope.

Module CJson.
(** ** Characters and strings *)
Abbreviation NUL := 0.
Abbreviation QUOTE := 34.
Abbreviation COMMA := 44.
Abbreviation MINUS := 45.
Abbreviation DOT := 46.
Abbreviation COLON := 58.
Abbreviation LBRACKET := 91.
Abbreviation BACKSLASH := 92.
Abbreviation RBRACKET := 93.
Abbreviation LBRACE := 123.
Abbreviation RBRACE := 125.

Fixpoint bytes (s : string) : list Z :=
  match s with
  | EmptyString => []
  | String c s' => Z.of_N (N_of_ascii c) :: bytes s'
  end.
Fixpoint string_of (l : list Z) : string :=
  match l with
  | [] => EmptyString
  | b :: l' => String (ascii_of_N (Z.to_N b)) (string_of l')
  end.

(** [*ptr], and the C string that starts at a pointer. *)
Definition cur (v : list Z) : Z := hd 0 v.
Fixpoint cstr (v : list Z) : list Z :=
  match v with
  | [] => []
  | x :: v' => if x =? NUL then [] else x :: cstr v'
  end.
(** [!strncmp(value, s, strlen(s))]. *)
Definition starts (s : string) (v : list Z) : bool :=
  bool_decide (take (String.length s) v = bytes s).

Fixpoint skip (v : list Z) : list Z :=
  match v with
  | [] => []
  | c :: v' => if negb (c =? NUL) && (c <=? 32) then skip v' else v
  end.

(** ** Numbers *)
Definition is_digit (c : Z) : bool := (48 <=? c) && (c <=? 57).

(** [pow(10.0, k)]. *)
Definition pow10 (k : Z) : Q :=
  if 0 <=? k then rnd (inject_Z (10 ^ k)) else rnd (Qmake 1 (Z.to_pos (10 ^ (- k)))).

(** The loop [n = n*10.0 + digit], counting the digits. *)
Fixpoint read_digits (n : Q) (count : Z) (v : list Z) : Q * Z * list Z :=
  match v with
  | [] => (n, count, [])
  | c :: v' =>
      if is_digit c then read_digits (rnd (rnd (n * inject_Z 10) + inject_Z (c - 48))) (count + 1) v'
      else (n, count, v)
  end.
Fixpoint skip_zeros (v : list Z) : list Z :=
  match v with
  | [] => []
  | c :: v' => if c =? 48 then skip_zeros v' else v
  end.
(** The exponent is an [int]. *)
Fixpoint read_exponent (k : Z) (v : list Z) : Z * list Z :=
  match v with
  | [] => (k, [])
  | c :: v' => if is_digit c then read_exponent (s32 (k * 10 + (c - 48))) v' else (k, v)
  end.

Definition parse_number (v : list Z) : Q * list Z :=
  let '(sign, v) := if cur v =? MINUS then (-1, drop 1 v) else (1, v) in
  let v := skip_zeros v in
  let '(n, _, v) := read_digits 0 0 v in
  let '(n, fraction, v) := if cur v =? DOT then read_digits n 0 (drop 1 v) else (n, 0, v) in
  let '(k, v) :=
    if (cur v =? 101) || (cur v =? 69) then
      let v := drop 1 v in
      if cur v =? 43 then read_exponent 0 (drop 1 v)
      else if cur v =? MINUS then
        let '(k, v) := read_exponent 0 (drop 1 v) in (- k, v)
      else read_exponent 0 v
    else (0, v) in
  (rnd (inject_Z sign * n * pow10 (k - fraction)), v).

(** Decimal digits of a natural number, the most significant first. *)
Fixpoint digits_fuel (fuel : nat) (n : Z) : list Z :=
  match fuel with
  | O => []
  | S fuel' => if n <? 10 then [48 + n] else digits_fuel fuel' (n / 10) ++ [48 + n mod 10]
  end.
Definition digits (n : Z) : list Z := digits_fuel (S (Z.to_nat (Z.log2 n))) n.
(** ["%lld"]. *)
Definition print_int (n : Z) : list Z := if n <? 0 then MINUS :: digits (- n) else digits n.

Definition round_even (x : Q) : Z :=
  Z.sgn (Qnum x) * div_even (Z.abs (Qnum x)) (Zpos (Qden x)).
Definition sign_of (x : Q) : list Z := if Qnum x <? 0 then [MINUS] else [].
(** ["%f"]: six decimals. *)
Definition print_f (x : Q) : list Z :=
  let m := round_even (Qabs x * inject_Z (10 ^ 6)) in
  sign_of x ++ digits (m / 10 ^ 6) ++ DOT :: drop 1 (digits (10 ^ 6 + m mod 10 ^ 6)).
(** The power of ten of the leading digit, searched upwards from [k]. *)
Fixpoint exponent10 (fuel : nat) (k : Z) (x : Q) : Z :=
  match fuel with
  | O => k
  | S fuel' =>
      if Qle_bool (if 0 <=? k + 1 then inject_Z (10 ^ (k + 1)) else Qmake 1 (Z.to_pos (10 ^ (- (k + 1))))) x
      then exponent10 fuel' (k + 1) x else k
  end.
(** ["%e"]. *)
Definition print_e (x : Q) : list Z :=
  let a := Qabs x in
  let k := exponent10 700 (-330) a in
  let m := round_even (if k <=? 6 then a * inject_Z (10 ^ (6 - k))
                       else a * Qmake 1 (Z.to_pos (10 ^ (k - 6)))) in
  let '(m, k) := if m =? 10 ^ 7 then (10 ^ 6, k + 1) else (m, k) in
  let ds := digits m in
  let e := digits (Z.abs k) in
  sign_of x ++ take 1 ds ++ DOT :: drop 1 ds ++
  101 :: (if k <? 0 then MINUS else 43) :: (if Z.abs k <? 10 then [48] else []) ++ e.

Definition DBL_EPSILON : Q := Qmake 1 (2 ^ 52).
Definition INT_MAX : Z := 2 ^ 31 - 1.
Definition INT_MIN : Z := - 2 ^ 31.
Definition Qfloor' (x : Q) : Q := inject_Z (Qnum x / Zpos (Qden x)).
Definition Qlt_bool (x y : Q) : bool := negb (Qle_bool y x).

Definition print_number (item : cJSON) : list Z :=
  let d := valuedouble item in
  if Qle_bool (Qabs (double_of_int (valueint item) - d)) DBL_EPSILON &&
     Qle_bool d (inject_Z INT_MAX) && Qle_bool (inject_Z INT_MIN) d
  then print_int (valueint item)
  else if Qle_bool (Qabs (Qfloor' d - d)) DBL_EPSILON && Qlt_bool (Qabs d) (inject_Z (10 ^ 60))
  then print_int (round_even d)
  else if Qlt_bool (Qabs d) (rnd (Qmake 1 (10 ^ 6))) || Qlt_bool (inject_Z (10 ^ 9)) (Qabs d)
  then print_e d
  else print_f d.

(** ** Strings *)
Definition hex_digit (c : Z) : option Z :=
  if (48 <=? c) && (c <=? 57) then Some (c - 48)
  else if (65 <=? c) && (c <=? 70) then Some (10 + c - 65)
  else if (97 <=? c) && (c <=? 102) then Some (10 + c - 97)
  else None.
(** 0 as soon as a character is not a hexadecimal digit. *)
Definition parse_hex4 (v : list Z) : Z :=
  default 0 (
    a ← hex_digit (nth 0 v 0); b ← hex_digit (nth 1 v 0);
    c ← hex_digit (nth 2 v 0); d ← hex_digit (nth 3 v 0);
    Some (((a * 16 + b) * 16 + c) * 16 + d)).

Definition utf8_cont (uc : Z) : Z := Z.land (Z.lor uc 128) 191.
Definition utf8 (uc : Z) : list Z :=
  if uc <? 128 then [uc]
  else if uc <? 2048 then [Z.lor (Z.shiftr uc 6) 192; utf8_cont uc]
  else if uc <? 65536 then
    [Z.lor (Z.shiftr uc 12) 224; utf8_cont (Z.shiftr uc 6); utf8_cont uc]
  else
    [Z.lor (Z.shiftr uc 18) 240; utf8_cont (Z.shiftr uc 12); utf8_cont (Z.shiftr uc 6); utf8_cont uc].

(** One escape: [v] is the text after the backslash; the characters it
    stands for and the text after it. *)
Definition unescape1 (v : list Z) : list Z * list Z :=
  let c := cur v in
  if c =? 98 then ([8], drop 1 v)
  else if c =? 102 then ([12], drop 1 v)
  else if c =? 110 then ([10], drop 1 v)
  else if c =? 114 then ([13], drop 1 v)
  else if c =? 116 then ([9], drop 1 v)
  else if c =? 117 then
    let uc := parse_hex4 (drop 1 v) in
    let p := drop 4 v in
    if ((56320 <=? uc) && (uc <=? 57343)) || (uc =? 0) then ([], drop 1 p)
    else if (55296 <=? uc) && (uc <=? 56319) then
      if negb (nth 1 p 0 =? BACKSLASH) || negb (nth 2 p 0 =? 117) then ([], drop 1 p)
      else
        let uc2 := parse_hex4 (drop 3 p) in
        let p := drop 6 p in
        if (uc2 <? 56320) || (57343 <? uc2) then ([], drop 1 p)
        else (utf8 (65536 + Z.lor (Z.shiftl (Z.land uc 1023) 10) (Z.land uc2 1023)), drop 1 p)
    else (utf8 uc, drop 1 p)
  else ([c], drop 1 v).

(** The copying loop; it stops at a quote or at the end of the text. *)
Fixpoint unescape (fuel : nat) (v : list Z) : list Z * list Z :=
  match fuel with
  | O => ([], v)
  | S fuel' =>
      if (cur v =? QUOTE) || (cur v =? NUL) then ([], v)
      else if negb (cur v =? BACKSLASH) then
        let '(out, r) := unescape fuel' (drop 1 v) in (cur v :: out, r)
      else
        let '(o, v') := unescape1 (drop 1 v) in
        let '(out, r) := unescape fuel' v' in (o ++ out, r)
  end.

Definition parse_string (v : list Z) : option (string * list Z) :=
  if negb (cur v =? QUOTE) then None
  else
    let '(out, r) := unescape (length v) (drop 1 v) in
    Some (string_of (cstr out), if cur r =? QUOTE then drop 1 r else r).

Definition hex_char (d : Z) : Z := if d <? 10 then 48 + d else 87 + d.
(** ["u%04x"] of a byte. *)
Definition print_u (token : Z) : list Z := [117; 48; 48; hex_char (token / 16); hex_char (token mod 16)].
Definition print_char (token : Z) : list Z :=
  if (31 <? token) && negb (token =? QUOTE) && negb (token =? BACKSLASH) then [token]
  else BACKSLASH ::
    (if token =? BACKSLASH then [BACKSLASH]
     else if token =? QUOTE then [QUOTE]
     else if token =? 8 then [98]
     else if token =? 12 then [102]
     else if token =? 10 then [110]
     else if token =? 13 then [114]
     else if token =? 9 then [116]
     else print_u token).
Definition print_string_ptr (str : option string) : list Z :=
  match str with
  | None => []
  | Some s => QUOTE :: concat (map print_char (cstr (bytes s))) ++ [QUOTE]
  end.

(** ** Values *)
Inductive presult :=
| OutOfFuel
| Null
| Parsed (item : cJSON) (rest : list Z).

(** [parse_string], the name's colon, and the text of the value. *)
Definition parse_name (v : list Z) : option (string * list Z) :=
  '(name, r) ← parse_string v;
  let r := skip r in
  if cur r =? COLON then Some (name, skip (drop 1 r)) else None.

(** What follows the bracket of an array: its end or the elements. *)
Definition parse_array (elements : list Z -> presult) (v : list Z) : presult :=
  let v := skip (drop 1 v) in
  if cur v =? RBRACKET then Parsed (Node cJSON_Array None 0 0 []) (drop 1 v)
  else elements v.
(** One element and what follows it: a comma and the next one, or the end. *)
Definition parse_elements (value : list Z -> presult) (elements : list (option string * cJSON) -> list Z -> presult)
    (acc : list (option string * cJSON)) (v : list Z) : presult :=
  match value (skip v) with
  | Parsed c r =>
      let r := skip r in
      let acc := acc ++ [(None, c)] in
      if cur r =? COMMA then elements acc (drop 1 r)
      else if cur r =? RBRACKET then Parsed (Node cJSON_Array None 0 0 acc) (drop 1 r)
      else Null
  | x => x
  end.
(** The same for the members of an object. *)
Definition parse_object (members : list Z -> presult) (v : list Z) : presult :=
  let v := skip (drop 1 v) in
  if cur v =? RBRACE then Parsed (Node cJSON_Object None 0 0 []) (drop 1 v)
  else members v.
Definition parse_members (value : list Z -> presult) (members : list (option string * cJSON) -> list Z -> presult)
    (acc : list (option string * cJSON)) (v : list Z) : presult :=
  match parse_name (skip v) with
  | None => Null
  | Some (name, r) =>
      match value r with
      | Parsed c r =>
          let r := skip r in
          let acc := acc ++ [(Some name, c)] in
          if cur r =? COMMA then members acc (drop 1 r)
          else if cur r =? RBRACE then Parsed (Node cJSON_Object None 0 0 acc) (drop 1 r)
          else Null
      | x => x
      end
  end.

(** The recursion of the three, on fuel. *)
Fixpoint parse_value (fuel : nat) (v : list Z) : presult :=
  match fuel with
  | O => OutOfFuel
  | S n =>
      if starts "null" v then Parsed (Node cJSON_NULL None 0 0 []) (drop 4 v)
      else if starts "false" v then Parsed (Node cJSON_False None 0 0 []) (drop 5 v)
      else if starts "true" v then Parsed (Node cJSON_True None 1 0 []) (drop 4 v)
      else if cur v =? QUOTE then
        match parse_string v with
        | Some (s, r) => Parsed (Node cJSON_String (Some s) 0 0 []) r
        | None => Null
        end
      else if (cur v =? MINUS) || (cur v =? DOT) || is_digit (cur v) then
        let '(d, r) := parse_number v in Parsed (Node cJSON_Number None (trunc d) d []) r
      else if cur v =? LBRACKET then array_at n v
      else if cur v =? LBRACE then object_at n v
      else Null
  end
with array_at (fuel : nat) (v : list Z) : presult :=
  match fuel with O => OutOfFuel | S n => parse_array (elements_at n []) v end
with elements_at (fuel : nat) (acc : list (option string * cJSON)) (v : list Z) : presult :=
  match fuel with O => OutOfFuel | S n => parse_elements (parse_value n) (elements_at n) acc v end
with object_at (fuel : nat) (v : list Z) : presult :=
  match fuel with O => OutOfFuel | S n => parse_object (members_at n []) v end
with members_at (fuel : nat) (acc : list (option string * cJSON)) (v : list Z) : presult :=
  match fuel with O => OutOfFuel | S n => parse_members (parse_value n) (members_at n) acc v end.

Definition parse_fuel (v : list Z) : nat := 3 * length v + 3.
(** [cJSON_Parse]: text after the value is ignored. *)
Definition cJSON_Parse (value : list Z) : option cJSON :=
  match parse_value (parse_fuel value) (skip value) with
  | Parsed c _ => Some c
  | _ => None
  end.

(** The entries of a container, separated by commas. *)
Fixpoint join (sep : list Z) (entries : list (list Z)) : list Z :=
  match entries with
  | [] => []
  | [e] => e
  | e :: entries' => e ++ sep ++ join sep entries'
  end.
Definition tabs (fmt : bool) (n : nat) : list Z := if fmt then replicate n 9 else [].
Definition opt (fmt : bool) (l : list Z) : list Z := if fmt then l else [].

Fixpoint print_value (fmt : bool) (depth : nat) (item : cJSON) : list Z :=
  match type item with
  | cJSON_NULL => bytes "null"
  | cJSON_False => bytes "false"
  | cJSON_True => bytes "true"
  | cJSON_Number => print_number item
  | cJSON_String => print_string_ptr (valuestring item)
  | cJSON_Array =>
      let entries := map (fun p => print_value fmt (S depth) p.2) (child item) in
      LBRACKET :: join (COMMA :: opt fmt [32]) entries ++ [RBRACKET]
  | cJSON_Object =>
      match child item with
      | [] => LBRACE :: opt fmt [10] ++ tabs fmt (depth - 1) ++ [RBRACE]
      | ch =>
          let entries := map (fun p => tabs fmt (S depth) ++ print_string_ptr p.1 ++
            COLON :: opt fmt [9] ++ print_value fmt (S depth) p.2) ch in
          LBRACE :: opt fmt [10] ++ join (COMMA :: opt fmt [10]) entries ++ opt fmt [10] ++
          tabs fmt depth ++ [RBRACE]
      end
  end.

(** ** Bytes and strings *)
Lemma string_of_bytes s : string_of (bytes s) = s.
Proof.
  induction s as [|c s IH]; cbn; [done|].
  by rewrite IH, N2Z.id, ascii_N_embedding.
Qed.

Lemma bytes_range s : Forall (fun b => 0 <= b < 256) (bytes s).
Proof.
  induction s as [|c s IH]; cbn; constructor; [|done].
  pose proof (N_ascii_bounded c). lia.
Qed.

Lemma bytes_c_string s : c_string s = true -> Forall (fun b => 0 < b < 256) (bytes s).
Proof.
  induction s as [|c s IH]; cbn; [constructor|].
  intros [Hc Hs]%andb_prop. constructor; [|auto].
  pose proof (N_ascii_bounded c). apply negb_true_iff, N.eqb_neq in Hc. lia.
Qed.

Lemma cstr_id l : Forall (fun b => 0 < b < 256) l -> cstr l = l.
Proof.
  induction 1 as [|b l Hb _ IH]; cbn; [done|].
  destruct (Z.eqb_spec b 0); [lia|]. by rewrite IH.
Qed.

Lemma cstr_range l : Forall (fun b => 0 <= b < 256) l -> Forall (fun b => 0 < b < 256) (cstr l).
Proof.
  induction 1 as [|b l Hb _ IH]; cbn; [constructor|].
  destruct (Z.eqb_spec b 0); [constructor|]. constructor; [lia|done].
Qed.

Lemma skip_fix v : 32 < cur v -> skip v = v.
Proof.
  destruct v as [|c v]; cbn; [done|]. intros.
  destruct (Z.eqb_spec c 0), (Z.leb_spec c 32); [lia..|done].
Qed.

Lemma skip_ws ws v : Forall (fun c => 0 < c <= 32) ws -> skip (ws ++ v) = skip v.
Proof.
  induction 1 as [|c ws Hc _ IH]; cbn; [done|].
  destruct (Z.eqb_spec c 0), (Z.leb_spec c 32); [lia..|done|lia].
Qed.

Lemma starts_false c s v : Z.of_N (N_of_ascii c) <> cur v -> starts (String c s) v = false.
Proof.
  intros H. apply bool_decide_eq_false_2. destruct v as [|x v]; cbn in *; congruence.
Qed.

(** ** Strings *)
Lemma print_char_nonempty b : (1 <= length (print_char b))%nat.
Proof. unfold print_char. case_if; cbn; lia. Qed.

Lemma unescape_print_char b fuel v :
  0 < b < 256 ->
  unescape (S fuel) (print_char b ++ v) =
  let '(out, r) := unescape fuel v in (b :: out, r).
Proof.
  intros Hb. destruct (decide (b ∈ QUOTE :: BACKSLASH :: seqZ 1 31)) as [Hin|Hout].
  - clear Hb. pattern b. apply (proj1 (Forall_forall _ (QUOTE :: BACKSLASH :: seqZ 1 31))); [|done].
    change (seqZ 1 31) with (Z.of_nat <$> seq 1 31). cbn [seq fmap list_fmap Z.of_nat].
    repeat constructor.
  - assert (b <> QUOTE /\ b <> BACKSLASH /\ 31 < b) as (Hq & Hs & Hc).
    { rewrite !elem_of_cons, elem_of_seqZ in Hout. lia. }
    unfold print_char. apply Z.ltb_lt in Hc. apply Z.eqb_neq in Hq, Hs.
    rewrite Hc, Hq, Hs. cbn [negb andb app unescape cur hd drop]. rewrite Hq, Hs.
    destruct (Z.eqb_spec b 0); [lia|]. cbn [orb negb].
    rewrite drop_0. by destruct (unescape fuel v).
Qed.

Lemma unescape_print l fuel rest :
  Forall (fun b => 0 < b < 256) l -> (length l < fuel)%nat ->
  unescape fuel (concat (map print_char l) ++ QUOTE :: rest) = (l, QUOTE :: rest).
Proof.
  intros Hl. revert fuel. induction Hl as [|b l Hb _ IH]; intros [|fuel] Hf; cbn in Hf; try lia.
  - done.
  - cbn [map concat]. rewrite <- app_assoc, unescape_print_char, IH by (done || lia). done.
Qed.

Lemma length_concat_print l : (length l <= length (concat (map print_char l)))%nat.
Proof.
  induction l as [|b l IH]; cbn; [lia|].
  rewrite length_app. pose proof (print_char_nonempty b). lia.
Qed.

Lemma parse_print_string s rest :
  c_string s = true -> parse_string (print_string_ptr (Some s) ++ rest) = Some (s, rest).
Proof.
  intros Hs. pose proof (bytes_c_string s Hs) as Hb.
  cbn [print_string_ptr]. rewrite cstr_id by done. unfold parse_string.
  cbn [app cur hd drop]. rewrite <- app_assoc, drop_0. cbn [app].
  replace (negb (QUOTE =? QUOTE)) with false by done.
  rewrite unescape_print; [|done|].
  - cbn [cur hd drop]. replace (QUOTE =? QUOTE) with true by done.
    rewrite drop_0. by rewrite cstr_id, string_of_bytes.
  - cbn. rewrite length_app. cbn. pose proof (length_concat_print (bytes s)). lia.
Qed.

Lemma length_unescape fuel v : (length (snd (unescape fuel v)) <= length v)%nat.
Proof.
  revert v. induction fuel as [|fuel IH]; intros v; cbn [unescape]; [done|].
  case_if; [done|]. case_if.
  - specialize (IH (drop 1 v)). destruct (unescape fuel (drop 1 v)).
    rewrite length_drop in IH. cbn in *. lia.
  - destruct (unescape1 (drop 1 v)) as [o v'] eqn:Eu.
    assert (length v' <= length v)%nat.
    { unfold unescape1 in Eu. repeat case_match; simplify_eq; rewrite ?length_drop; lia. }
    specialize (IH v'). destruct (unescape fuel v'). cbn in *. lia.
Qed.

(** ** Numbers *)
Definition digit_list (l : list Z) : Prop := Forall (fun c => 48 <= c <= 57) l.
Definition value_of (l : list Z) (a : Z) : Z := fold_left (fun a c => a * 10 + (c - 48)) l a.
(** What may follow a number in the text. *)
Definition follow (v : list Z) : bool :=
  negb (is_digit (cur v)) && negb (cur v =? DOT) && negb (cur v =? 101) && negb (cur v =? 69).

Lemma is_digit_spec c : is_digit c = true <-> 48 <= c <= 57.
Proof. unfold is_digit. rewrite andb_true_iff, !Z.leb_le. lia. Qed.

Lemma digits_fuel_spec fuel n :
  0 <= n < 2 ^ Z.of_nat fuel ->
  digit_list (digits_fuel fuel n) /\ value_of (digits_fuel fuel n) 0 = n /\
  (0 < n -> exists l, 48 < cur l /\ digits_fuel fuel n = l).
Proof.
  revert n. induction fuel as [|fuel IH]; intros n Hn.
  { cbn in *. assert (n = 0) by lia. subst. by split_and!; [constructor|..|lia]. }
  cbn [digits_fuel]. destruct (Z.ltb_spec n 10).
  - split_and!; [constructor; [lia|constructor]|cbn; lia|intros; eexists; split; [|done]; cbn; lia].
  - assert (0 <= n / 10 < 2 ^ Z.of_nat fuel) as Hd.
    { split; [apply Z.div_pos; lia|]. apply Z.div_lt_upper_bound; [lia|].
      replace (Z.of_nat (S fuel)) with (Z.succ (Z.of_nat fuel)) in Hn by lia.
      rewrite Z.pow_succ_r in Hn by lia. lia. }
    destruct (IH _ Hd) as (H1 & H2 & H3). pose proof (Z.mod_pos_bound n 10).
    split_and!.
    + apply Forall_app. split; [done|]. constructor; [lia|constructor].
    + unfold value_of in *. rewrite fold_left_app, H2. cbn.
      pose proof (Z.div_mod n 10). lia.
    + intros _. eexists. split; [|done].
      destruct H3 as (l & Hl & ->); [apply Z.div_str_pos; lia|].
      destruct l; cbn in *; lia.
Qed.

Lemma digits_spec n :
  0 <= n -> digit_list (digits n) /\ value_of (digits n) 0 = n /\ digits n <> [].
Proof.
  intros Hn. unfold digits.
  destruct (digits_fuel_spec (S (Z.to_nat (Z.log2 n))) n) as (H1 & H2 & H3).
  - pose proof (Z.log2_nonneg n). split; [lia|].
    destruct (decide (n = 0)) as [->|]; [done|].
    replace (Z.of_nat (S (Z.to_nat (Z.log2 n)))) with (Z.succ (Z.log2 n)) by lia.
    apply Z.log2_spec. lia.
  - split_and!; [done..|]. cbn. case_if; [done|]. by intros [_ ?]%app_eq_nil.
Qed.

Lemma value_of_ge l a : digit_list l -> 0 <= a -> a <= value_of l a.
Proof.
  intros Hl. revert a. induction Hl as [|c l Hc _ IH]; intros a Ha; cbn; [done|].
  unfold value_of in IH. etransitivity; [|apply IH]; lia.
Qed.

Lemma read_digits_spec l a count rest :
  digit_list l -> 0 <= a -> value_of l a <= 2 ^ 53 -> is_digit (cur rest) = false ->
  read_digits (inject_Z a) count (l ++ rest) =
  (inject_Z (value_of l a), count + Z.of_nat (length l), rest).
Proof.
  intros Hl. revert a count. induction Hl as [|c l Hc Hl IH]; intros a count Ha Hv Hr.
  - destruct rest as [|x r]; cbn in *; rewrite ?Hr; do 2 f_equal; lia.
  - cbn [app read_digits value_of fold_left] in *.
    assert (is_digit c = true) as -> by (apply is_digit_spec; lia).
    pose proof (value_of_ge l (a * 10 + (c - 48)) Hl ltac:(lia)). unfold value_of in *.
    replace (rnd (rnd (inject_Z a * inject_Z 10) + inject_Z (c - 48)))
      with (inject_Z (a * 10 + (c - 48))).
    { rewrite IH by (done || lia). cbn [length]. do 2 f_equal. lia. }
    change (inject_Z a * inject_Z 10)%Q with (inject_Z (a * 10)).
    rewrite (rnd_exact (inject_Z (a * 10))) by (done || cbn; lia).
    rewrite rnd_exact; [|cbn; lia|done]. unfold Qplus, inject_Z. cbn. f_equal. lia.
Qed.

Lemma skip_zeros_spec l rest :
  digit_list l -> is_digit (cur rest) = false ->
  exists l', digit_list l' /\ value_of l' 0 = value_of l 0 /\ skip_zeros (l ++ rest) = l' ++ rest.
Proof.
  intros Hl Hr. induction Hl as [|c l Hc Hl IH].
  - exists []. split_and!; [constructor|done|]. destruct rest as [|x r]; [done|].
    cbn. destruct (Z.eqb_spec x 48) as [->|]; [done|done].
  - cbn [app skip_zeros]. destruct (Z.eqb_spec c 48) as [->|].
    + destruct IH as (l' & ? & E & ?). exists l'. split_and!; [done| |done]. by rewrite E.
    + exists (c :: l). split_and!; [by constructor|done|done].
Qed.

Lemma parse_print_int n rest :
  Z.abs n <= 2 ^ 53 -> follow rest = true -> parse_number (print_int n ++ rest) = (inject_Z n, rest).
Proof.
  intros Hn Hr. unfold follow in Hr.
  rewrite !andb_true_iff, !negb_true_iff in Hr. destruct Hr as [[[H H2] H1] H0].
  destruct (digits_spec (Z.abs n)) as (Hd & Hv & Hne); [lia|].
  assert (exists sign, print_int n ++ rest = (if sign =? -1 then [MINUS] else []) ++ digits (Z.abs n) ++ rest
    /\ (sign = 1 \/ sign = -1) /\ n = sign * Z.abs n) as (sign & -> & Hs & En).
  { unfold print_int. destruct (Z.ltb_spec n 0).
    - exists (-1). rewrite Z.abs_neq by lia. split_and!; [done|auto|lia].
    - exists 1. rewrite Z.abs_eq by lia. split_and!; [done|auto|lia]. }
  destruct (skip_zeros_spec (digits (Z.abs n)) rest) as (l' & Hl' & Ev & Ez); [done..|].
  unfold parse_number.
  replace (if cur ((if sign =? -1 then [MINUS] else []) ++ digits (Z.abs n) ++ rest) =? MINUS then _ else _)
    with (sign, digits (Z.abs n) ++ rest).
  2: { destruct Hs as [-> | ->]; cbn [Z.eqb app]; [|done].
       destruct (digits (Z.abs n)) as [|c l]; [done|]. inversion Hd; subst. cbn.
       by destruct (Z.eqb_spec c MINUS); [lia|]. }
  rewrite Ez. change 0%Q with (inject_Z 0). rewrite read_digits_spec by (done || lia).
  rewrite H2, H1, H0. cbn [orb]. rewrite Ev, Hv.
  change (pow10 (0 - 0)) with (inject_Z 1).
  replace (inject_Z sign * inject_Z (Z.abs n) * inject_Z 1)%Q with (inject_Z n).
  { by rewrite rnd_exact. }
  unfold Qmult, inject_Z. cbn [Qnum Qden]. f_equal. lia.
Qed.

Lemma print_number_int vi n :
  Z.abs n <= 2 ^ 53 -> Z.abs vi <= 2 ^ 53 ->
  print_number (Node cJSON_Number None vi (inject_Z n) []) = print_int n.
Proof.
  intros Hn Hvi. unfold print_number. cbn [valuedouble valueint].
  rewrite double_exact by done.
  assert (round_even (inject_Z n) = n) as Er.
  { unfold round_even, div_even, inject_Z. cbn [Qnum Qden]. cbv zeta.
    rewrite Z.div_1_r, Z.mod_1_r. change (2 * 0 <? 1) with true. cbn iota.
    by rewrite Z.mul_comm, Z.abs_sgn. }
  assert (Qle_bool (Qabs (Qfloor' (inject_Z n) - inject_Z n)) DBL_EPSILON = true) as Ef.
  { apply Qle_bool_iff. unfold Qfloor'. cbn [Qnum Qden inject_Z]. rewrite Z.div_1_r.
    unfold Qle, Qabs, Qminus, Qplus, Qopp, inject_Z. cbn [Qnum Qden].
    replace (n * 1 + - n * 1) with 0 by lia. done. }
  assert (Qlt_bool (Qabs (inject_Z n)) (inject_Z (10 ^ 60)) = true) as El.
  { unfold Qlt_bool. apply negb_true_iff, not_true_is_false. intros H%Qle_bool_iff.
    unfold Qle in H. cbn in H. lia. }
  rewrite Ef, El, Er. case_if; [|done].
  reflect_bools. apply Qle_bool_iff in H.
  assert (vi = n) as ->; [|done].
  unfold Qle, Qabs, Qminus, Qplus, inject_Z, DBL_EPSILON in H. cbn in H. lia.
Qed.

(** ** The parser: more fuel changes nothing, the rest is a shorter text,
    and three units of fuel per byte are enough *)
Definition agrees (x y : presult) : Prop := x <> OutOfFuel -> y = x.

Ltac step_agree IH :=
  match goal with
  | |- agrees (match ?x with _ => _ end) (match ?y with _ => _ end) =>
      let E := fresh "E" in
      assert (agrees x y) as E by apply IH;
      destruct x; [by intros []|..]; rewrite E by done
  end.

Lemma parse_mono_step n :
  (forall v, agrees (parse_value n v) (parse_value (S n) v)) /\
  (forall v, agrees (array_at n v) (array_at (S n) v)) /\
  (forall acc v, agrees (elements_at n acc v) (elements_at (S n) acc v)) /\
  (forall v, agrees (object_at n v) (object_at (S n) v)) /\
  (forall acc v, agrees (members_at n acc v) (members_at (S n) acc v)).
Proof.
  induction n as [|n (IHv & IHa & IHe & IHo & IHm)]; [split_and!; by intros ** []|].
  split_and!.
  - intros v. cbn [parse_value]. fold array_at object_at.
    do 5 (case_if; [by intros ?|]).
    case_if; [apply IHa|]. case_if; [apply IHo|by intros ?].
  - intros v. cbn [array_at]; unfold parse_array; cbn zeta. case_if; [by intros ?|]. apply IHe.
  - intros acc v. cbn [elements_at]; unfold parse_elements; cbn zeta. step_agree IHv; [by intros ?|].
    case_if; [apply IHe|by intros ?].
  - intros v. cbn [object_at]; unfold parse_object; cbn zeta. case_if; [by intros ?|]. apply IHm.
  - intros acc v. cbn [members_at]; unfold parse_members; cbn zeta. destruct (parse_name _) as [[name r]|]; [|by intros ?].
    step_agree IHv; [by intros ?|]. case_if; [apply IHm|by intros ?].
Qed.

Lemma parse_value_mono n m v :
  (n <= m)%nat -> agrees (parse_value n v) (parse_value m v).
Proof.
  induction 1 as [|m _ IH]; [by intros ?|]. intros Hn.
  rewrite <- (IH Hn). apply parse_mono_step. by rewrite (IH Hn).
Qed.

Lemma length_skip v : (length (skip v) <= length v)%nat.
Proof. induction v as [|c v IH]; cbn; [done|]. case_if; cbn; lia. Qed.

Lemma length_read_digits n count v : (length (snd (read_digits n count v)) <= length v)%nat.
Proof.
  revert n count. induction v as [|c v IH]; intros n count; cbn [read_digits]; [done|].
  case_if; [|done]. etransitivity; [apply IH|]. cbn. lia.
Qed.

Lemma length_skip_zeros v : (length (skip_zeros v) <= length v)%nat.
Proof. induction v as [|c v IH]; cbn; [done|]. case_if; cbn; lia. Qed.

Lemma length_read_exponent k v : (length (snd (read_exponent k v)) <= length v)%nat.
Proof.
  revert k. induction v as [|c v IH]; intros k; cbn [read_exponent]; [done|].
  case_if; [|done]. etransitivity; [apply IH|]. cbn. lia.
Qed.

Lemma length_parse_number v : (length (snd (parse_number v)) <= length v)%nat.
Proof.
  unfold parse_number.
  assert (exists s w, (if cur v =? MINUS then (-1, drop 1 v) else (1, v)) = (s, w) /\
    (length w <= length v)%nat) as (s & w & -> & Hw).
  { case_if; do 2 eexists; (split; [done|]); rewrite ?length_drop; lia. }
  pose proof (length_skip_zeros w). pose proof (length_read_digits 0 0 (skip_zeros w)) as H1.
  destruct (read_digits 0 0 (skip_zeros w)) as [[n c] v1]. cbn [snd] in H1.
  assert (exists n' f v2, (if cur v1 =? DOT then read_digits n 0 (drop 1 v1) else (n, 0, v1)) =
    (n', f, v2) /\ (length v2 <= length v1)%nat) as (n' & f & v2 & -> & H2).
  { case_if; [|by eauto]. pose proof (length_read_digits n 0 (drop 1 v1)) as Hr.
    destruct (read_digits n 0 (drop 1 v1)) as [[??]?]. rewrite length_drop in Hr. cbn [snd] in Hr.
    do 3 eexists. split; [done|]. lia. }
  assert (forall x, (length (snd (read_exponent 0 (drop 1 x))) <= length x)%nat) as He.
  { intros x. etransitivity; [apply length_read_exponent|]. rewrite length_drop. lia. }
  pose proof (He v2) as H3. pose proof (He (drop 1 v2)) as H4. rewrite length_drop in H4.
  case_if; [|cbn; lia]. case_if; [|case_if].
  - destruct (read_exponent _ (drop 1 (drop 1 v2))). cbn in *. lia.
  - destruct (read_exponent _ (drop 1 (drop 1 v2))). cbn in *. lia.
  - destruct (read_exponent _ (drop 1 v2)). cbn in *. lia.
Qed.

Lemma length_parse_string v s r : parse_string v = Some (s, r) -> (length r <= length v)%nat.
Proof.
  unfold parse_string. case_if; [done|]. pose proof (length_unescape (length v) (drop 1 v)) as H.
  destruct (unescape (length v) (drop 1 v)) as [out r']. rewrite length_drop in H. cbn [snd] in H.
  intros [= _ <-]. case_if; rewrite ?length_drop; lia.
Qed.

Lemma length_parse_name v s r : parse_name v = Some (s, r) -> (length r <= length v)%nat.
Proof.
  unfold parse_name. intros H. apply bind_Some in H as ([s' r'] & H & H'). revert H'.
  case_if; [|done]. intros [= _ <-]. apply length_parse_string in H.
  pose proof (length_skip (drop 1 (skip r'))). pose proof (length_skip r').
  rewrite length_drop in *. lia.
Qed.

Definition shorter (x : presult) (v : list Z) : Prop :=
  match x with Parsed _ r => (length r <= length v)%nat | _ => True end.

Lemma shorter_trans x v w : shorter x v -> (length v <= length w)%nat -> shorter x w.
Proof. destruct x; cbn; lia. Qed.

Lemma cur_nonempty v c : cur v = c -> 0 < c -> (1 <= length v)%nat.
Proof. destruct v; cbn; lia. Qed.

Lemma parse_shorter n :
  (forall v, shorter (parse_value n v) v) /\ (forall v, shorter (array_at n v) v) /\
  (forall acc v, shorter (elements_at n acc v) v) /\ (forall v, shorter (object_at n v) v) /\
  (forall acc v, shorter (members_at n acc v) v).
Proof.
  induction n as [|n (IHv & IHa & IHe & IHo & IHm)]; [done|].
  assert (forall v, (length (skip (drop 1 v)) <= length v)%nat) as Hs.
  { intros v. etransitivity; [apply length_skip|]. rewrite length_drop. lia. }
  split_and!.
  - intros v. cbn [parse_value]. fold array_at object_at.
    do 3 (case_if; [cbn; rewrite length_drop; lia|]).
    case_if. { destruct (parse_string v) as [[s r]|] eqn:Ep; [|done]. by apply length_parse_string in Ep. }
    case_if. { pose proof (length_parse_number v). by destruct (parse_number v). }
    case_if; [apply IHa|]. case_if; [apply IHo|done].
  - intros v. cbn [array_at]; unfold parse_array; cbn zeta. case_if; [cbn; rewrite length_drop; pose proof (Hs v); lia|].
    eapply shorter_trans; [apply IHe|apply Hs].
  - intros acc v. cbn [elements_at]; unfold parse_elements; cbn zeta. specialize (IHv (skip v)). pose proof (length_skip v).
    destruct (parse_value n (skip v)) as [| |c r]; cbn in IHv; [done..|].
    pose proof (length_skip r). case_if; [eapply shorter_trans; [apply IHe|]|case_if; [cbn|done]];
      rewrite length_drop; lia.
  - intros v. cbn [object_at]; unfold parse_object; cbn zeta. case_if; [cbn; rewrite length_drop; pose proof (Hs v); lia|].
    eapply shorter_trans; [apply IHm|apply Hs].
  - intros acc v. cbn [members_at]; unfold parse_members; cbn zeta. pose proof (length_skip v).
    destruct (parse_name (skip v)) as [[name w]|] eqn:En; [|done]. apply length_parse_name in En.
    specialize (IHv w). destruct (parse_value n w) as [| |c r]; cbn in IHv; [done..|].
    pose proof (length_skip r). case_if; [eapply shorter_trans; [apply IHm|]|case_if; [cbn|done]];
      rewrite length_drop; lia.
Qed.

Lemma parse_enough n :
  (forall v, (3 * length v + 3 <= n)%nat -> parse_value n v <> OutOfFuel) /\
  (forall v, (1 <= length v)%nat -> (3 * length v + 2 <= n)%nat -> array_at n v <> OutOfFuel) /\
  (forall acc v, (3 * length v + 4 <= n)%nat -> elements_at n acc v <> OutOfFuel) /\
  (forall v, (1 <= length v)%nat -> (3 * length v + 2 <= n)%nat -> object_at n v <> OutOfFuel) /\
  (forall acc v, (3 * length v + 4 <= n)%nat -> members_at n acc v <> OutOfFuel).
Proof.
  induction n as [|n (IHv & IHa & IHe & IHo & IHm)]; [split_and!; intros; lia|].
  assert (forall v, (length (skip (drop 1 v)) <= length v - 1)%nat) as Hs.
  { intros v. etransitivity; [apply length_skip|]. by rewrite length_drop. }
  split_and!.
  - intros v Hv. cbn [parse_value]. fold array_at object_at.
    do 3 (case_if; [done|]).
    case_if. { by destruct (parse_string v) as [[s r]|]. }
    case_if. { by destruct (parse_number v). }
    case_if; [apply IHa; [by eapply cur_nonempty|lia]|].
    case_if; [apply IHo; [by eapply cur_nonempty|lia]|done].
  - intros v Hv Hn. cbn [array_at]; unfold parse_array; cbn zeta. case_if; [done|]. apply IHe. pose proof (Hs v). lia.
  - intros acc v Hn. cbn [elements_at]; unfold parse_elements; cbn zeta. pose proof (length_skip v).
    pose proof (proj1 (parse_shorter n) (skip v)) as Hl. specialize (IHv (skip v)).
    destruct (parse_value n (skip v)) as [| |c r]; cbn in Hl; [apply IHv; lia|done|].
    pose proof (length_skip r). case_if; [|by case_if].
    apply cur_nonempty in E; [|done]. apply IHe. rewrite length_drop. lia.
  - intros v Hv Hn. cbn [object_at]; unfold parse_object; cbn zeta. case_if; [done|]. apply IHm. pose proof (Hs v). lia.
  - intros acc v Hn. cbn [members_at]; unfold parse_members; cbn zeta. pose proof (length_skip v).
    destruct (parse_name (skip v)) as [[name w]|] eqn:En; [|done]. apply length_parse_name in En.
    pose proof (proj1 (parse_shorter n) w) as Hl. specialize (IHv w).
    destruct (parse_value n w) as [| |c r]; cbn in Hl; [apply IHv; lia|done|].
    pose proof (length_skip r). case_if; [|by case_if].
    apply cur_nonempty in E; [|done]. apply IHm. rewrite length_drop. lia.
Qed.

(** ** Parsing what was printed *)
Definition blank (ws : list Z) : Prop := Forall (fun c => 0 < c <= 32) ws.

Lemma blank_opt fmt c : 0 < c <= 32 -> blank (opt fmt [c]).
Proof. intros. destruct fmt; [|constructor]. constructor; [done|constructor]. Qed.
Lemma blank_tabs fmt n : blank (tabs fmt n).
Proof. destruct fmt; [|constructor]. apply Forall_replicate. lia. Qed.
Lemma blank_app ws ws' : blank ws -> blank ws' -> blank (ws ++ ws').
Proof. intros. by apply Forall_app. Qed.
#[local] Hint Resolve blank_opt blank_tabs blank_app : json.

Lemma follow_blank ws c rest :
  blank ws -> c = COMMA \/ c = RBRACKET \/ c = RBRACE -> follow (ws ++ c :: rest) = true.
Proof.
  intros Hw Hc. destruct Hw as [|b ws Hb _]; [by destruct Hc as [->|[->| ->]]|].
  unfold follow, is_digit, cur. cbn [app hd].
  rewrite !andb_true_iff, !negb_true_iff, !andb_false_iff, !Z.leb_gt, !Z.eqb_neq. lia.
Qed.

Lemma print_int_head n rest : cur (print_int n ++ rest) = MINUS \/ is_digit (cur (print_int n ++ rest)) = true.
Proof.
  unfold print_int. destruct (Z.ltb_spec n 0); [by left|right].
  destruct (digits_spec n) as (Hd & _ & Hne); [done|].
  destruct (digits n) as [|c l]; [done|]. inversion Hd; subst. by apply is_digit_spec.
Qed.

Lemma print_value_head fmt depth j rest :
  printable j -> 32 < cur (print_value fmt depth j ++ rest) /\
                 cur (print_value fmt depth j ++ rest) <> RBRACKET.
Proof.
  intros H. inversion H as [t vi Ht _ _|vi n Hn Hvi|s Hs|ch _ _|ch _ _]; subst.
  - by destruct Ht as [->|[->| ->]].
  - cbn [print_value type]. rewrite print_number_int by done.
    destruct (print_int_head n rest) as [->|Hd%is_digit_spec]; lia.
  - done.
  - done.
  - by destruct ch.
Qed.

Lemma reparse_node t vs vi vd ch :
  reparse (Node t vs vi vd ch) =
  Node t vs (match t with cJSON_Number => trunc vd | cJSON_True => 1 | _ => vi end) vd
    (map (fun p => (p.1, reparse p.2)) ch).
Proof. cbn. f_equal. induction ch as [|[s c] ch IH]; cbn; congruence. Qed.

Lemma join_cons sep e es :
  join sep (e :: es) = e ++ match es with [] => [] | _ => sep ++ join sep es end.
Proof. destruct es; cbn; by rewrite ?app_nil_r. Qed.

Definition reads_back (j : cJSON) : Prop :=
  printable j -> forall fmt depth rest, follow rest = true ->
  exists n, parse_value n (print_value fmt depth j ++ rest) = Parsed (reparse j) rest.

(** Use a result at a larger amount of fuel. *)
Lemma parse_value_at n m v c r :
  parse_value n v = Parsed c r -> (n <= m)%nat -> parse_value m v = Parsed c r.
Proof. intros E Hn. rewrite (parse_value_mono n m v Hn); [done|]. by rewrite E. Qed.

Lemma parse_elements_at n m acc v c r :
  elements_at n acc v = Parsed c r -> (n <= m)%nat -> elements_at m acc v = Parsed c r.
Proof.
  induction 2 as [|m _ IH]; [done|]. rewrite <- IH. apply parse_mono_step. by rewrite IH.
Qed.
Lemma parse_members_at n m acc v c r :
  members_at n acc v = Parsed c r -> (n <= m)%nat -> members_at m acc v = Parsed c r.
Proof.
  induction 2 as [|m _ IH]; [done|]. rewrite <- IH. apply parse_mono_step. by rewrite IH.
Qed.

Lemma parse_elements_print fmt depth ch rest :
  Forall (fun p => reads_back p.2) ch -> Forall (fun p => printable p.2) ch ->
  Forall (fun p => p.1 = None) ch -> ch <> [] -> forall acc ws, blank ws ->
  exists n, elements_at n acc
    (ws ++ join (COMMA :: opt fmt [32]) (map (fun p => print_value fmt depth p.2) ch) ++ RBRACKET :: rest)
    = Parsed (Node cJSON_Array None 0 0 (acc ++ map (fun p => (p.1, reparse p.2)) ch)) rest.
Proof.
  intros Hr. induction Hr as [|[s j] ch Hj _ IH]; [done|]. intros Hp Hn _ acc ws Hws.
  inversion Hp as [|? ? Hpj Hp']; inversion Hn as [|? ? Es Hn']; subst. cbn [fst snd] in *. subst s.
  cbn [map]. rewrite join_cons, <- app_assoc. cbn [fst snd].
  set (tail := match map _ ch with [] => [] | _ => _ end ++ RBRACKET :: rest).
  assert (follow tail = true /\ skip tail = tail) as [Hf Hsk].
  { subst tail. by destruct ch. }
  destruct (Hj Hpj fmt depth tail Hf) as [n1 E1].
  destruct (print_value_head fmt depth j tail Hpj) as [Hh _].
  destruct ch as [|[s' j'] ch].
  - exists (S n1). cbn [elements_at]; unfold parse_elements; cbn zeta. rewrite skip_ws, skip_fix, E1, Hsk by done.
    subst tail. cbn. by rewrite drop_0.
  - destruct (IH Hp' Hn' ltac:(done) (acc ++ [(None, reparse j)]) (opt fmt [32])) as [n2 E2];
      [auto with json; apply blank_opt; lia|].
    exists (S (n1 `max` n2)). cbn [elements_at]; unfold parse_elements; cbn zeta.
    rewrite skip_ws, skip_fix, (parse_value_at n1 _ _ _ _ E1), Hsk by (done || lia).
    subst tail. cbn [map app cur hd]. rewrite Z.eqb_refl. cbn [drop]. rewrite drop_0, <- app_assoc.
    rewrite <- app_assoc in E2. apply (parse_elements_at _ _ _ _ _ _ E2). lia.
Qed.

Lemma parse_name_print name v :
  c_string name = true ->
  parse_name (print_string_ptr (Some name) ++ COLON :: v) = Some (name, skip v).
Proof.
  intros Hn. unfold parse_name. rewrite parse_print_string by done. cbn. by rewrite drop_0.
Qed.

Lemma parse_members_print fmt depth post ch rest :
  Forall (fun p => reads_back p.2) ch -> Forall (fun p => printable p.2) ch ->
  Forall (fun p => exists s, p.1 = Some s /\ c_string s = true) ch -> ch <> [] -> blank post ->
  forall acc ws, blank ws ->
  exists n, members_at n acc
    (ws ++ join (COMMA :: opt fmt [10]) (map (fun p => tabs fmt depth ++ print_string_ptr p.1 ++
            COLON :: opt fmt [9] ++ print_value fmt depth p.2) ch) ++ post ++ RBRACE :: rest)
    = Parsed (Node cJSON_Object None 0 0 (acc ++ map (fun p => (p.1, reparse p.2)) ch)) rest.
Proof.
  intros Hr Hp Hn Hne Hpost. revert Hp Hn Hne.
  induction Hr as [|[s j] ch Hj _ IH]; [done|]. intros Hp Hn _ acc ws Hws.
  inversion Hp as [|? ? Hpj Hp']; inversion Hn as [|? ? Es Hn']; subst. cbn [fst snd] in *.
  destruct Es as (name & -> & Hname).
  cbn [map]. rewrite join_cons, <- !app_assoc. cbn [fst snd]. rewrite <- !app_comm_cons, <- !app_assoc.
  set (tail := match map _ ch with [] => [] | _ => _ end ++ post ++ RBRACE :: rest).
  assert (follow tail = true) as Hf.
  { subst tail. destruct ch; [|done]. apply follow_blank; auto. }
  destruct (Hj Hpj fmt depth tail Hf) as [n1 E1].
  destruct (print_value_head fmt depth j tail Hpj) as [Hh _].
  assert (forall n, members_at (S n) acc (ws ++ tabs fmt depth ++ print_string_ptr (Some name) ++
      COLON :: opt fmt [9] ++ print_value fmt depth j ++ tail) =
    match parse_value n (print_value fmt depth j ++ tail) with
    | Parsed c r =>
        let r := skip r in
        let acc := acc ++ [(Some name, c)] in
        if cur r =? COMMA then members_at n acc (drop 1 r)
        else if cur r =? RBRACE then Parsed (Node cJSON_Object None 0 0 acc) (drop 1 r) else Null
    | x => x
    end) as Estep.
  { intros n. cbn [members_at]; unfold parse_members; cbn zeta.
    rewrite skip_ws, skip_ws by (done || apply blank_tabs).
    rewrite (skip_fix (print_string_ptr (Some name) ++ _)) by done.
    rewrite parse_name_print, skip_ws, skip_fix by (done || by apply blank_opt). done. }
  destruct ch as [|[s' j'] ch].
  - exists (S n1). rewrite Estep, E1. subst tail. cbn [map app].
    rewrite skip_ws by done. cbn. by rewrite drop_0.
  - destruct (IH Hp' Hn' ltac:(done) (acc ++ [(Some name, reparse j)]) (opt fmt [10])) as [n2 E2];
      [apply blank_opt; lia|].
    exists (S (n1 `max` n2)). rewrite Estep, (parse_value_at n1 _ _ _ _ E1) by lia.
    assert (skip tail = tail) as -> by done. cbv zeta.
    subst tail. cbn [map app cur hd]. rewrite Z.eqb_refl.
    cbn [drop]. rewrite drop_0, <- app_assoc.
    rewrite <- app_assoc in E2. apply (parse_members_at _ _ _ _ _ _ E2). lia.
Qed.

Lemma parse_value_punct n v :
  ~ cur v ∈ [110; 102; 116] ->
  parse_value (S n) v =
  if cur v =? QUOTE then
    match parse_string v with
    | Some (s, r) => Parsed (Node cJSON_String (Some s) 0 0 []) r
    | None => Null
    end
  else if (cur v =? MINUS) || (cur v =? DOT) || is_digit (cur v) then
    let '(d, r) := parse_number v in Parsed (Node cJSON_Number None (trunc d) d []) r
  else if cur v =? LBRACKET then array_at n v
  else if cur v =? LBRACE then object_at n v
  else Null.
Proof.
  intros Hv. cbn [parse_value]. fold array_at object_at.
  rewrite !starts_false; [done|..]; cbn; set_solver.
Qed.

Lemma parse_array_start n w :
  32 < cur w /\ cur w <> RBRACKET -> array_at (S n) (LBRACKET :: w) = elements_at n [] w.
Proof.
  intros [Hw Hr%Z.eqb_neq]. cbn [array_at]; unfold parse_array; cbn zeta; cbn [drop]. by rewrite drop_0, skip_fix, Hr by done.
Qed.

Lemma parse_value_array n v : parse_value (S n) (LBRACKET :: v) = array_at n (LBRACKET :: v).
Proof. rewrite parse_value_punct by (cbn; set_solver). done. Qed.
Lemma parse_value_object n v : parse_value (S n) (LBRACE :: v) = object_at n (LBRACE :: v).
Proof. rewrite parse_value_punct by (cbn; set_solver). done. Qed.

Lemma if_false {A} (b : bool) (x y : A) : b = false -> (if b then x else y) = y.
Proof. by intros ->. Qed.

Lemma skip_skip v : skip (skip v) = skip v.
Proof. induction v as [|c v IH]; cbn; [done|]. case_if; [done|]. cbn. by rewrite E. Qed.

Lemma parse_members_skip n acc v : members_at n acc (skip v) = members_at n acc v.
Proof. destruct n; [done|]. cbn [members_at]; unfold parse_members; cbn zeta. by rewrite skip_skip. Qed.

Lemma parse_object_eq n v :
  object_at (S n) (LBRACE :: v) =
  if cur (skip v) =? RBRACE then Parsed (Node cJSON_Object None 0 0 []) (drop 1 (skip v))
  else members_at n [] v.
Proof. cbn [object_at]; unfold parse_object; cbn zeta; cbn [drop]. rewrite drop_0. case_if; [done|]. apply parse_members_skip. Qed.

Lemma print_reads_back j : reads_back j.
Proof.
  induction j as [t vs vi vd ch IH] using cJSON_rect_children. intros H fmt depth rest Hf.
  inversion H as [? ? Ht Hvt Hvf|? n Hn Hvi|s Hs|? Hnames Hch|? Hnames Hch]; subst.
  - exists 1%nat. destruct Ht as [->|[->| ->]];
      try (by rewrite (Hvf ltac:(done))).
    cbn [print_value type bytes app]. cbn [parse_value]. by rewrite !starts_false by done.
  - exists 1%nat. cbn [print_value type]. rewrite print_number_int by done.
    pose proof (print_int_head n rest) as Hh. rewrite parse_value_punct.
    2: { unfold is_digit in Hh. rewrite andb_true_iff, !Z.leb_le in Hh.
         rewrite !elem_of_cons, elem_of_nil. lia. }
    rewrite parse_print_int by done.
    destruct (Z.eqb_spec (cur (print_int n ++ rest)) QUOTE) as [Eq|_].
    { rewrite Eq in Hh. by destruct Hh. }
    destruct Hh as [Eq|Ed]; [rewrite Eq|rewrite Ed, !orb_true_r]; done.
  - exists 1%nat. cbn [print_value type valuestring].
    rewrite parse_value_punct by (cbn; set_solver).
    by rewrite parse_print_string.
  - rewrite reparse_node. cbn [print_value type child].
    destruct ch as [|p ch].
    + exists 2%nat. cbn. by rewrite ?drop_0.
    + destruct (parse_elements_print fmt (S depth) (p :: ch) rest IH Hch Hnames ltac:(done)
        [] [] ltac:(constructor)) as [n E].
      exists (S (S n)). rewrite <- app_comm_cons, <- app_assoc, parse_value_array.
      etransitivity; [|exact E]. apply parse_array_start.
      cbn [map]. rewrite join_cons, <- app_assoc. apply print_value_head. by inversion Hch.
  - rewrite reparse_node. cbn [print_value type child].
    destruct ch as [|p ch].
    + exists 2%nat. rewrite <- app_comm_cons, <- !app_assoc, parse_value_object, parse_object_eq.
      rewrite (skip_ws (opt fmt [10])), skip_ws by (apply blank_tabs || by apply blank_opt).
      cbn. by rewrite drop_0.
    + destruct (parse_members_print fmt (S depth) (opt fmt [10] ++ tabs fmt depth) (p :: ch) rest
        IH Hch Hnames ltac:(done) ltac:(apply blank_app; [by apply blank_opt|apply blank_tabs])
        [] (opt fmt [10]) ltac:(by apply blank_opt)) as [n E].
      rewrite <- app_assoc in E. exists (S (S n)).
      rewrite <- app_comm_cons, <- !app_assoc, parse_value_object, parse_object_eq.
      etransitivity; [|exact E]. apply if_false.
      inversion Hnames as [|? ? (name & Ename & _) _]; subst.
      cbn [map]. rewrite skip_ws, join_cons, <- !app_assoc, skip_ws, Ename
        by (apply blank_tabs || by apply blank_opt). done.
Qed.

(** The fuel [cJSON_Parse] gives is enough for every text: the parser
    terminates, with a value or without. *)
Lemma parse_value_terminates v : parse_value (parse_fuel v) (skip v) <> OutOfFuel.
Proof. apply parse_enough. unfold parse_fuel. pose proof (length_skip v). lia. Qed.

Lemma parse_print_value fmt depth j :
  printable j -> cJSON_Parse (print_value fmt depth j) = Some (reparse j).
Proof.
  intros Hj. pose proof (print_value_head fmt depth j [] Hj) as [Hh _]. rewrite app_nil_r in Hh.
  destruct (print_reads_back j Hj fmt depth [] eq_refl) as [n E]. rewrite app_nil_r in E.
  unfold cJSON_Parse. pose proof (parse_value_terminates (print_value fmt depth j)) as Ht.
  rewrite skip_fix in * by done.
  set (v := print_value fmt depth j) in *. set (m := parse_fuel v) in *.
  pose proof (parse_value_mono m (n `max` m) v ltac:(lia) Ht) as Em.
  rewrite (parse_value_at n (n `max` m) v _ _ E ltac:(lia)) in Em. by rewrite <- Em.
Qed.

(** ** The unformatted text has no control character *)
Definition text (l : list Z) : Prop := Forall (fun b => 31 < b < 256) l.

Lemma print_char_text b : 0 < b < 256 -> text (print_char b).
Proof.
  intros Hb. unfold print_char, print_u, hex_char, text.
  pose proof (Z.div_pos b 16). pose proof (Z.div_lt_upper_bound b 16 16).
  pose proof (Z.mod_pos_bound b 16).
  repeat (case_if; try (repeat constructor; lia)).
Qed.

Lemma print_string_text s : text (print_string_ptr s).
Proof.
  destruct s as [s|]; [|constructor]. cbn. constructor; [lia|].
  apply Forall_app. split; [|by repeat constructor]. apply Forall_concat, Forall_map.
  eapply Forall_impl; [apply cstr_range, bytes_range|]. apply print_char_text.
Qed.

Lemma print_int_text n : text (print_int n).
Proof.
  assert (forall n, 0 <= n -> text (digits n)) as Hd.
  { intros k Hk. destruct (digits_spec k Hk) as (H & _). eapply Forall_impl; [exact H|]. cbn. lia. }
  unfold print_int. destruct (Z.ltb_spec n 0); [constructor; [lia|]|]; apply Hd; lia.
Qed.

Lemma join_text sep es : text sep -> Forall text es -> text (join sep es).
Proof.
  intros Hs. induction 1 as [|e es He _ IH]; [constructor|]. rewrite join_cons.
  apply Forall_app. split; [done|]. destruct es; [constructor|]. by apply Forall_app.
Qed.

Lemma print_value_text depth j : printable j -> text (print_value false depth j).
Proof.
  revert depth. induction j as [t vs vi vd ch IH] using cJSON_rect_children. intros depth H.
  inversion H as [? ? Ht Hvt Hvf|? n Hn Hvi|s Hs|? Hnames Hch|? Hnames Hch]; subst.
  - by destruct Ht as [->|[->| ->]]; repeat constructor.
  - cbn [print_value type]. rewrite print_number_int by done. apply print_int_text.
  - apply print_string_text.
  - cbn [print_value type child]. constructor; [lia|]. apply Forall_app.
    split; [|by repeat constructor]. apply join_text; [by repeat constructor|].
    apply Forall_map, Forall_forall. intros q Hq.
    apply (proj1 (Forall_forall _ _) IH q Hq), (proj1 (Forall_forall _ _) Hch q Hq).
  - cbn [print_value type child]. destruct ch as [|p ch]; [by repeat constructor|].
    constructor; [lia|]. cbn [opt tabs app]. apply Forall_app.
    split; [|by repeat constructor]. apply join_text; [by repeat constructor|].
    apply Forall_map, Forall_forall. intros q Hq. apply Forall_app.
    split; [apply print_string_text|]. constructor; [lia|].
    apply (proj1 (Forall_forall _ _) IH q Hq), (proj1 (Forall_forall _ _) Hch q Hq).
Qed.

Definition cJSON_Print (item : cJSON) : list Z := print_value true 0 item.
Definition cJSON_PrintUnformatted (item : cJSON) : list Z := print_value false 0 item.

#[export] Instance cJSON_text : JsonText := {|
  Json.cJSON_Print := cJSON_Print;
  Json.cJSON_PrintUnformatted := cJSON_PrintUnformatted;
  Json.cJSON_Parse := cJSON_Parse;
  parse_print := fun j => parse_print_value true 0 j;
  parse_printUnformatted := fun j => parse_print_value false 0 j;
  printUnformatted_text := fun j => print_value_text 0 j
|}.

(** ** Properties *)

(** C18: the printer and the parser agree. Every tree whose numbers are integers from
    [-2^53] to [2^53], the range in which a [double] holds every integer, and whose
    strings are C strings is read back from its text, formatted or not and printed at
    any depth, with nothing changed but the recomputed [valueint] of its numbers and of
    [true]. *)
Theorem cJSON_print_parse_roundtrip fmt depth j :
  printable j -> cJSON_Parse (print_value fmt depth j) = Some (reparse j).
Proof. apply parse_print_value. Qed.

Definition example_json : cJSON :=
  let a := cJSON_AddItemToArray cJSON_CreateArray (cJSON_CreateString (string_of [9; 34; 92; 200; 1])) in
  let a := cJSON_AddItemToArray a cJSON_CreateObject in
  cJSON_AddNumberToObject (cJSON_AddItemToObject cJSON_CreateObject "list" a) "n" (-305).

Lemma cJSON_print_parse_roundtrip_witness :
  cJSON_Parse (print_value true 1 example_json) = Some (reparse example_json).
Proof.
  apply cJSON_print_parse_roundtrip, pobj_printable, pobj_add_number; [done|lia|].
  apply pobj_add; [done|apply pobj_create|]. apply printable_array; [by repeat constructor|].
  constructor; [by apply printable_string|]. constructor; [|constructor].
  apply printable_object; constructor.
Defined.

(** The parser terminates on every text, well formed or not: the fuel
    [cJSON_Parse] gives it (three units per byte, and three) is never used
    up, and any larger amount gives the same result. *)
Theorem cJSON_Parse_terminates v n :
  parse_value (parse_fuel v + n) (skip v) = parse_value (parse_fuel v) (skip v) /\
  parse_value (parse_fuel v + n) (skip v) <> OutOfFuel.
Proof.
  pose proof (parse_value_terminates v) as Ht.
  pose proof (parse_value_mono (parse_fuel v) (parse_fuel v + n) (skip v) ltac:(lia) Ht) as E.
  by rewrite E.
Qed.
End CJson.
