(* ===== verification/IvpMessage.v ===== *)
(** The message structure of [src/src/tmx/TmxApi/tmx/IvpMessage.c] and its
    conversion to and from JSON.

    A message is the C structure: a NULL string is [None], the DSRC metadata
    and the payload are optional. Memory that the code allocates with [malloc]
    and may leave unset is an argument ([mem]). *)
From Stdlib Require Import QArith.
From S2P Require Import Prelude Json.
Import Json.
Open Scope Z_scope.

Module IvpMsg.
Record IvpDsrcMetadata := mkDsrc { psid : Z; channel : Z }.

Record IvpMessage := mkMsg {
  msg_type : option string;
  subtype : option string;
  source : option string;
  sourceId : Z;
  encoding : option string;
  timestamp : Z;
  flags : Z;
  dsrcMetadata : option IvpDsrcMetadata;
  payload : option cJSON
}.

Definition IvpMsgFlags_None : Z := 0.
Definition IVPMSG_TYPE_APIRESV_SUBSCRIBE : string := "__subscribe".
Definition IVPMSG_TYPE_APIRESV_REGISTER : string := "__register".
Definition IVPMSG_TYPE_APIRESV_ERROR : string := "__error".
Definition IVPMSG_TYPE_APIRESV_STATUS : string := "__status".
Definition IVPMSG_TYPE_APIRESV_CONFIG : string := "__config".
Definition IVPMSG_TYPE_APIRESV_EVENTLOG : string := "__eventLog".
Definition IVP_ENCODING_JSON : string := "json".

(** [now] is the clock read by [ivpMsg_refreshTimestamp], in milliseconds,
    already truncated to the 64-bit field. *)
Definition ivpMsg_create (now : Z) (type subtype encoding : option string) (flags : Z)
    (payload : option cJSON) : IvpMessage :=
  mkMsg type subtype None 0 encoding now flags None (cJSON_Duplicate <$> payload).

Definition ivpMsg_addDsrcMetadata (m : IvpMessage) (psid channel : Z) : IvpMessage :=
  mkMsg (msg_type m) (subtype m) (source m) (sourceId m) (encoding m) (timestamp m) (flags m)
    (Some (mkDsrc psid channel)) (payload m).

(** The part of [ivpMsg_parse] that follows [cJSON_Parse]. *)
Definition ivpMsg_of_json (mem : IvpDsrcMetadata) (root : cJSON) : option IvpMessage :=
  header ← cJSON_GetObjectItem root "header";
  let md := cJSON_GetObjectItem header "dsrcMetadata" in
  let read_md d :=
    mkDsrc (default (psid mem) (cJSONxtra_tryGetInt d "psid"))
           (default (channel mem) (cJSONxtra_tryGetInt d "channel")) in
  Some (mkMsg
    (cJSONxtra_tryGetStr header "type")
    (cJSONxtra_tryGetStr header "subtype")
    (cJSONxtra_tryGetStr header "source")
    (default 0 (cJSONxtra_tryGetUnsignedInt header "sourceId"))
    (cJSONxtra_tryGetStr header "encoding")
    (default 0 (cJSONxtra_tryGetInt64 header "timestamp"))
    (default 0 (cJSONxtra_tryGetUnsignedInt header "flags"))
    (read_md <$> md)
    (fst (cJSON_DetachItemFromObject root "payload"))).

Definition ivpMsg_parse `{JsonText} (mem : IvpDsrcMetadata) (jsonmsg : list Z) : option IvpMessage :=
  root ← cJSON_Parse jsonmsg; ivpMsg_of_json mem root.

Definition ivpMsg_copy (m : IvpMessage) : IvpMessage :=
  mkMsg (msg_type m) (subtype m) (source m) (sourceId m) (encoding m) (timestamp m) (flags m)
    (dsrcMetadata m) (cJSON_Duplicate <$> payload m).

(** Optional members, appended in the order of the code. *)
Definition add_string_opt (name : string) (s : option string) (j : cJSON) : cJSON :=
  match s with Some s => cJSON_AddStringToObject j name s | None => j end.

Definition dsrc_json (d : IvpDsrcMetadata) : cJSON :=
  let j := cJSON_AddNumberToObject cJSON_CreateObject "channel" (channel d) in
  cJSON_AddNumberToObject j "psid" (psid d).

Definition header_json (m : IvpMessage) : cJSON :=
  let h := cJSON_CreateObject in
  let h := add_string_opt "type" (msg_type m) h in
  let h := add_string_opt "subtype" (subtype m) h in
  let h := add_string_opt "source" (source m) h in
  let h := if sourceId m =? 0 then h else cJSON_AddNumberToObject h "sourceId" (sourceId m) in
  let h := add_string_opt "encoding" (encoding m) h in
  let h := cJSON_AddNumberToObject h "timestamp" (timestamp m) in
  let h := cJSON_AddNumberToObject h "flags" (flags m) in
  match dsrcMetadata m with
  | Some d => cJSON_AddItemToObject h "dsrcMetadata" (dsrc_json d)
  | None => h
  end.

(** The tree that [ivpMsg_createJsonString] prints. *)
Definition ivpMsg_to_json (m : IvpMessage) : cJSON :=
  let root := cJSON_AddItemToObject cJSON_CreateObject "header" (header_json m) in
  match payload m with
  | Some p => cJSON_AddItemToObject root "payload" (cJSON_Duplicate p)
  | None => root
  end.

(** [formatted] is the bit [IvpMsg_FormatOptions_formatted] of the options. *)
Definition ivpMsg_createJsonString `{JsonText} (formatted : bool) (m : IvpMessage) : list Z :=
  if formatted then cJSON_Print (ivpMsg_to_json m) else cJSON_PrintUnformatted (ivpMsg_to_json m).

(** ** Well-formed messages: the C types of the fields, and a payload and a
    timestamp the text form carries exactly *)
Definition dsrc_ok (d : IvpDsrcMetadata) : Prop :=
  - 2 ^ 31 <= psid d < 2 ^ 31 /\ - 2 ^ 31 <= channel d < 2 ^ 31.
Definition c_str (s : option string) : bool :=
  match s with Some s => c_string s | None => true end.
Definition msg_ok (m : IvpMessage) : Prop :=
  (c_str (msg_type m) && c_str (subtype m) && c_str (source m) && c_str (encoding m) = true) /\
  0 <= sourceId m < 2 ^ 32 /\ 0 <= timestamp m < 2 ^ 52 /\ 0 <= flags m < 2 ^ 32 /\
  (forall d, dsrcMetadata m = Some d -> dsrc_ok d) /\
  (forall p, payload m = Some p -> printable p).
Definition with_payload (p : option cJSON) (m : IvpMessage) : IvpMessage :=
  mkMsg (msg_type m) (subtype m) (source m) (sourceId m) (encoding m) (timestamp m) (flags m)
    (dsrcMetadata m) p.

(** ** Reading back what was written *)
Lemma GetObjectItem_add_string_opt j n s name :
  cJSON_GetObjectItem (add_string_opt n s j) name =
  match cJSON_GetObjectItem j name with
  | Some y => Some y
  | None => if strcaseeq n name then cJSON_CreateString <$> s else None
  end.
Proof.
  destruct s as [s|]; cbn [add_string_opt].
  - apply GetObjectItem_add.
  - destruct (cJSON_GetObjectItem j name), (strcaseeq n name); done.
Qed.

Lemma pobj_add_string_opt j n s :
  c_string n = true -> c_str s = true -> printable_obj j -> printable_obj (add_string_opt n s j).
Proof. destruct s; cbn; auto with json. Qed.
#[local] Hint Resolve pobj_add_string_opt : json.

Lemma header_json_printable m : msg_ok m -> printable_obj (header_json m).
Proof.
  intros (Hc & Hs & Ht & Hf & Hd & _). reflect_bools. unfold header_json.
  assert (forall h, printable_obj h -> printable_obj
    (match dsrcMetadata m with
     | Some d => cJSON_AddItemToObject h "dsrcMetadata" (dsrc_json d)
     | None => h end)) as Hmd.
  { intros h Hh. destruct (dsrcMetadata m) as [d|]; [|exact Hh].
    destruct (Hd d eq_refl) as [? ?]. apply pobj_add; [done..|]. apply pobj_printable.
    unfold dsrc_json. repeat (apply pobj_add_number; [done|lia|]). auto with json. }
  apply Hmd. do 2 (apply pobj_add_number; [done|lia|]).
  destruct (sourceId m =? 0);
    repeat (apply pobj_add_number; [done|lia|] || apply pobj_add_string_opt; [done..|]);
    auto with json.
Qed.

Lemma ivpMsg_to_json_printable m : msg_ok m -> printable (ivpMsg_to_json m).
Proof.
  intros Hm. pose proof (pobj_printable _ (header_json_printable m Hm)) as Hh.
  destruct Hm as (_ & _ & _ & _ & _ & Hp). apply pobj_printable. unfold ivpMsg_to_json.
  destruct (payload m) as [p|]; rewrite ?Duplicate_id; auto with json.
Qed.

(** Evaluate a member lookup in an object built by the functions above. *)
Ltac read_field :=
  unfold cJSON_AddStringToObject, cJSON_AddNumberToObject;
  autorewrite with json; rewrite ?GetObjectItem_add_string_opt;
  repeat (autorewrite with json; rewrite ?GetObjectItem_add_string_opt);
  json_names.

(** Look a member of the header of [m] up, whatever optional members it has. *)
Ltac header_field m :=
  unfold header_json;
  repeat match goal with
    | E : (sourceId m =? 0) = _ |- _ => rewrite E
    | |- context [if sourceId m =? 0 then _ else _] => destruct (sourceId m =? 0)
    end;
  destruct (dsrcMetadata m); read_field;
  destruct (msg_type m), (subtype m), (source m), (encoding m); done.

Lemma dsrc_json_read mem d :
  dsrc_ok d ->
  let j := reparse (dsrc_json d) in
  mkDsrc (default (psid mem) (cJSONxtra_tryGetInt j "psid"))
         (default (channel mem) (cJSONxtra_tryGetInt j "channel")) = d.
Proof.
  intros [Hp Hc]. destruct d as [p c]. cbn [psid channel] in *. cbv zeta.
  unfold cJSONxtra_tryGetInt.
  rewrite (tryGetNumber_reparse _ "psid" p), (tryGetNumber_reparse _ "channel" c) by
    (lia || by unfold dsrc_json; read_field).
  cbn [fmap option_fmap option_map default from_option]. by rewrite !s32_small by lia.
Qed.

Lemma header_json_read m :
  msg_ok m ->
  let h := reparse (header_json m) in
  cJSONxtra_tryGetStr h "type" = msg_type m /\
  cJSONxtra_tryGetStr h "subtype" = subtype m /\
  cJSONxtra_tryGetStr h "source" = source m /\
  default 0 (cJSONxtra_tryGetUnsignedInt h "sourceId") = sourceId m /\
  cJSONxtra_tryGetStr h "encoding" = encoding m /\
  default 0 (cJSONxtra_tryGetInt64 h "timestamp") = timestamp m /\
  default 0 (cJSONxtra_tryGetUnsignedInt h "flags") = flags m /\
  cJSON_GetObjectItem h "dsrcMetadata" = reparse ∘ dsrc_json <$> dsrcMetadata m.
Proof.
  intros (Hc & Hs & Ht & Hf & Hd & _). cbv zeta. rewrite !tryGetStr_reparse.
  unfold cJSONxtra_tryGetUnsignedInt, cJSONxtra_tryGetInt64.
  rewrite (tryGetNumber_reparse _ "timestamp" (timestamp m)),
    (tryGetNumber_reparse _ "flags" (flags m)) by (lia || header_field m).
  assert (default 0 (wrapu 32 <$> tryGetNumber (reparse (header_json m)) "sourceId") = sourceId m) as ->.
  { destruct (sourceId m =? 0) eqn:E.
    - rewrite tryGetNumber_reparse_None by header_field m. by reflect_bools.
    - rewrite (tryGetNumber_reparse _ "sourceId" (sourceId m)) by (lia || header_field m).
      by apply u32_small. }
  cbn [fmap option_fmap option_map default from_option]. rewrite u64_small, u32_small by lia.
  unfold cJSONxtra_tryGetStr. split_and!; try done; header_field m.
Qed.

(** What is printed is read back: every field of the header, and the payload
    as the text form carries it. *)
Lemma of_json_to_json mem m :
  msg_ok m ->
  ivpMsg_of_json mem (reparse (ivpMsg_to_json m)) = Some (with_payload (reparse <$> payload m) m).
Proof.
  intros Hm. pose proof (header_json_read m Hm) as Hh. cbv zeta in Hh.
  destruct Hh as (H1 & H2 & H3 & H4 & H5 & H6 & H7 & H8).
  assert (cJSON_GetObjectItem (reparse (ivpMsg_to_json m)) "header" =
          Some (reparse (header_json m))) as Eh.
  { rewrite GetObjectItem_reparse. unfold ivpMsg_to_json.
    destruct (payload m); read_field; done. }
  unfold ivpMsg_of_json. rewrite Eh. cbn [mbind option_bind].
  rewrite DetachItem_fst, (GetObjectItem_reparse (ivpMsg_to_json m)), H1, H2, H3, H4, H5, H6, H7, H8.
  unfold with_payload. do 2 f_equal.
  - destruct (dsrcMetadata m) as [d|] eqn:Ed; [|done]. cbn. f_equal.
    apply dsrc_json_read. by apply Hm.
  - unfold ivpMsg_to_json. destruct (payload m); read_field; done.
Qed.

Lemma parse_createJsonString `{JsonText} mem formatted m :
  msg_ok m ->
  ivpMsg_parse mem (ivpMsg_createJsonString formatted m) =
  Some (with_payload (reparse <$> payload m) m).
Proof.
  intros Hm. unfold ivpMsg_parse, ivpMsg_createJsonString.
  pose proof (ivpMsg_to_json_printable m Hm) as Hp.
  destruct formatted; rewrite ?parse_print, ?parse_printUnformatted by done;
    by apply of_json_to_json.
Qed.
End IvpMsg.
