(* ===== verification/Wire.v ===== *)
(** Messages on a socket: [PluginConnection::onMessageReceived] writes a
    message as framed JSON text, [PluginConnection::receiverThread] reads a
    stream of such frames and parses every message. This file composes the
    framer, the JSON text and the message layer. *)
From S2P Require Import Prelude Framer Json JsonText IvpMessage.
Import Json IvpMsg.
Open Scope Z_scope.

Module Wire.
Section wire.
Context `{JsonText}.

(** The bytes [onMessageReceived] writes ([PluginConnection.cpp] 64-81). *)
Definition framed (m : IvpMessage) : list Z :=
  let jsonmsg := ivpMsg_createJsonString false m in
  Framer.msgFramer_createFramedMsg jsonmsg (length jsonmsg).

(** A message read from the text it is sent as. *)
Definition hop (mem : IvpDsrcMetadata) (formatted : bool) (m : IvpMessage) : option IvpMessage :=
  ivpMsg_parse mem (ivpMsg_createJsonString formatted m).

(** Messages whose frame fits the peer's buffer. *)
Definition fits (m : IvpMessage) : Prop :=
  Z.of_nat (length (framed m)) <= Framer.MSG_FRAMER_MAX_BUF_SIZE.

Lemma json_clean m : msg_ok m -> fits m -> Framer.clean (ivpMsg_createJsonString false m).
Proof.
  intros Hm Hf.
  pose proof (printUnformatted_text _ (ivpMsg_to_json_printable m Hm)) as Ht.
  rewrite Forall_forall in Ht. unfold Framer.clean.
  split_and!.
  1-3: intros Hin%Ht; unfold Framer.NUL, Framer.STX, Framer.ETX in Hin; lia.
  unfold fits in Hf. change (framed m) with (Framer.frame (ivpMsg_createJsonString false m)) in Hf.
  rewrite Framer.length_frame in Hf. lia.
Qed.

Lemma framed_frames ms :
  concat (map framed ms) = Framer.frames (map (ivpMsg_createJsonString false) ms).
Proof. unfold Framer.frames. by rewrite map_map. Qed.

(** Every message arrives, once, in order, with its header intact. *)
Lemma receive_framed mem ms sizes :
  Forall msg_ok ms -> Forall fits ms -> Forall (fun n => 0 < n)%nat sizes ->
  (length (concat (map framed ms)) <= length sizes)%nat ->
  exists raws f',
    Framer.receive sizes (concat (map framed ms)) Framer.MSG_FRAMER_INITIALIZER = Some (raws, [], f') /\
    map (ivpMsg_parse mem) raws = map (fun m => Some (with_payload (reparse <$> payload m) m)) ms.
Proof.
  intros Hm Hf Hs Hl. rewrite framed_frames in *.
  destruct (Framer.framer_receive_spec sizes Framer.MSG_FRAMER_INITIALIZER
    (Framer.frames (map (ivpMsg_createJsonString false) ms)) (map (ivpMsg_createJsonString false) ms))
    as (f' & E & _); try done.
  - apply Framer.framer_wf_init.
  - destruct ms; [done|]. cbn [map Framer.partial].
    rewrite Framer.length_frame, Framer.framer_content_init. cbn [length]. lia.
  - apply Forall_map, Forall_forall. intros m Hin. apply json_clean; by eapply Forall_forall.
  - eexists _, f'. split; [exact E|]. rewrite map_map. apply map_ext_in.
    intros m Hin%list_elem_of_In. apply parse_createJsonString. by eapply Forall_forall.
Qed.

(** What is sent again after one hop is sent unchanged. *)
Lemma reparse_idem j : printable j -> reparse (reparse j) = reparse j.
Proof.
  intros Hj. induction j as [t vs vi vd ch IH] using cJSON_rect_children.
  assert (forall j, printable j -> True) as _ by done.
  rewrite !CJson.reparse_node. f_equal; [by destruct t|].
  rewrite map_map. apply map_ext_in. intros [s c] Hin%list_elem_of_In. cbn. f_equal.
  rewrite Forall_forall in IH. apply (IH (s, c) Hin).
  inversion Hj as [? ? Ht|? n|? ?|? ? Hch|? ? Hch]; subst; try by apply elem_of_nil in Hin.
  all: rewrite Forall_forall in Hch; by apply (Hch (s, c)).
Qed.

Lemma reparse_printable j : printable j -> printable (reparse j).
Proof.
  induction j as [t vs vi vd ch IH] using cJSON_rect_children. intros Hj.
  assert (forall c, c ∈ ch -> printable c.2 -> printable (reparse c.2)) as IH'.
  { intros c Hc. by apply (proj1 (Forall_forall _ _) IH c Hc). }
  rewrite CJson.reparse_node.
  inversion Hj as [? ? Ht Hvt Hvf|? n Hn Hvi|? Hs|? Hn Hch|? Hn Hch]; subst.
  - apply printable_atom; [done|..]; by destruct Ht as [->|[->| ->]]; auto.
  - rewrite trunc_inject. by apply printable_number.
  - by apply printable_string.
  - apply printable_array; apply Forall_map, Forall_forall; intros c Hc; cbn;
      [by apply (proj1 (Forall_forall _ _) Hn c)|].
    apply IH', (proj1 (Forall_forall _ _) Hch c Hc). done.
  - apply printable_object; apply Forall_map, Forall_forall; intros c Hc; cbn;
      [by apply (proj1 (Forall_forall _ _) Hn c)|].
    apply IH', (proj1 (Forall_forall _ _) Hch c Hc). done.
Qed.
End wire.

(** ** Properties: with the printer and the parser of [cJSON.c] *)
#[local] Existing Instance CJson.cJSON_text.

(** C1: messages survive the socket. A peer that writes a sequence of
    well-formed messages (each printed as JSON and framed) is understood
    whatever way the stream is cut into reads: the receive loop finds one
    text per message, in order, consumes every byte, and parsing each text
    gives the message back, every header field equal (type, subtype, source,
    sourceId, encoding, timestamp, flags, DSRC metadata) and the payload equal
    up to the recomputed integer values of its numbers. The result does not
    depend on the memory [ivpMsg_parse] leaves uninitialised. *)
Theorem message_stream_roundtrip mem ms sizes :
  Forall msg_ok ms -> Forall fits ms -> Forall (fun n => 0 < n)%nat sizes ->
  (length (concat (map framed ms)) <= length sizes)%nat ->
  exists raws f',
    Framer.receive sizes (concat (map framed ms)) Framer.MSG_FRAMER_INITIALIZER = Some (raws, [], f') /\
    map (ivpMsg_parse mem) raws = map (fun m => Some (with_payload (reparse <$> payload m) m)) ms.
Proof. apply receive_framed. Qed.

Definition example_msgs : list IvpMessage :=
  [ mkMsg (Some "J2735") (Some "BSM") (Some "DSRC") 7 (Some "json") 1700000000000 1
      (Some (mkDsrc 32 172)) (Some (cJSON_AddNumberToObject cJSON_CreateObject "speed" (-12)));
    mkMsg None None None 0 None 0 0 None None ]%string.

Lemma message_stream_roundtrip_witness :
  exists raws f',
    Framer.receive (replicate 300 11%nat) (concat (map framed example_msgs))
      Framer.MSG_FRAMER_INITIALIZER = Some (raws, [], f') /\
    map (ivpMsg_parse (mkDsrc 0 0)) raws =
      map (fun m => Some (with_payload (reparse <$> payload m) m)) example_msgs.
Proof.
  apply message_stream_roundtrip.
  - constructor; [|constructor; [|constructor]]; split_and!; try (done || (cbn; lia)).
    + intros ? [= <-]. split; cbn; lia.
    + intros ? [= <-]. apply pobj_printable, pobj_add_number; [done|lia|apply pobj_create].
  - repeat constructor; vm_compute; discriminate.
  - repeat constructor.
  - vm_compute. lia.
Defined.

(** A relayed payload is stable. Whatever well-formed message arrives,
    the message read from its text is again well formed and sending it once
    more changes nothing: its text, and the message parsed from it, are the
    same at every further hop. *)
Theorem relay_is_stable mem m :
  msg_ok m ->
  let m1 := with_payload (reparse <$> payload m) m in
  hop mem false m = Some m1 /\ msg_ok m1 /\ hop mem false m1 = Some m1 /\ hop mem true m1 = Some m1.
Proof.
  intros Hm m1. assert (msg_ok m1) as Hm1.
  { destruct Hm as (? & ? & ? & ? & ? & Hp). split_and!; try (done || (cbn; lia)).
    intros p Ep. destruct (payload m) as [q|]; [|done]. injection Ep as <-.
    by apply reparse_printable, Hp. }
  assert (with_payload (reparse <$> payload m1) m1 = m1) as E.
  { unfold m1, with_payload. cbn. destruct (payload m) as [q|] eqn:Eq; [|done]. cbn.
    rewrite reparse_idem; [done|]. by apply Hm. }
  unfold hop. rewrite !parse_createJsonString, E by done. done.
Qed.

Lemma relay_is_stable_witness :
  let m := mkMsg (Some "J2735") (Some "BSM") None 7 None 1700000000000 1 None
             (Some (cJSON_AddNumberToObject cJSON_CreateObject "speed" (-12))) in
  let m1 := with_payload (reparse <$> payload m) m in
  hop (mkDsrc 0 0) false m = Some m1 /\ msg_ok m1 /\
  hop (mkDsrc 0 0) false m1 = Some m1 /\ hop (mkDsrc 0 0) true m1 = Some m1.
Proof.
  apply relay_is_stable. split_and!; try (done || (cbn; lia)).
  intros ? [= <-]. apply pobj_printable, pobj_add_number; [done|lia|apply pobj_create].
Defined.
End Wire.
