(* ===== verification/IvpApi.v ===== *)
(** The system messages of [src/src/tmx/TmxApi/tmx/apimessages]: errors,
    configuration collections, message types, registration manifests,
    subscriptions, plugin status and the event log.

    A collection is a JSON array of objects, NULL when it does not exist
    ([option cJSON]). The library is built with NDEBUG: an [assert] does
    nothing and the tests that follow it decide. *)
From Stdlib Require Import QArith.
From S2P Require Import Prelude Json IvpMessage.
Import Json IvpMsg.
Open Scope Z_scope.

Module IvpApi.
(** [cJSON *] collections: the items of an array, nothing otherwise. *)
Definition is_array (c : cJSON) : bool := bool_decide (type c = cJSON_Array).
Definition items (c : option cJSON) : list cJSON :=
  match c with
  | Some c => if is_array c then map snd (child c) else []
  | None => []
  end.
(** The collection an [add] function works on: a fresh array for NULL. *)
Definition open_collection (c : option cJSON) : cJSON := default cJSON_CreateArray c.
Definition append_item (c : option cJSON) (item : cJSON) : option cJSON :=
  let c := open_collection c in
  if is_array c then Some (cJSON_AddItemToArray c item) else Some c.
Definition type_is (m : IvpMessage) (t : string) : bool :=
  match msg_type m with Some t' => String.eqb t' t | None => false end.
(** A member that is present with another type than string. *)
Definition not_string (item : cJSON) (name : string) : bool :=
  match cJSON_GetObjectItem item name with
  | Some f => bool_decide (type f <> cJSON_String)
  | None => false
  end.

(** ** IvpError.c *)
Definition IvpLogLevel_debug : Z := 0.
Definition IvpLogLevel_info : Z := 1.
Definition IvpLogLevel_warn : Z := 2.
Definition IvpLogLevel_error : Z := 3.
Definition IvpLogLevel_fatal : Z := 4.

Definition IvpError_none : Z := 0.
Definition IvpError_pluginNoName : Z := 4.
Definition IvpError_configFormat : Z := 5.
Definition IvpError_configDuplicateKey : Z := 6.
Definition IvpError_configMissingKey : Z := 7.
Definition IvpError_configMissingDefault : Z := 8.
Definition IvpError_configKeyDoesntExist : Z := 11.
Definition IvpError_messageParse : Z := 12.
Definition IvpError_assert : Z := 13.
Definition IvpError_msgTypeCollectionFormat : Z := 14.
Definition IvpError_msgTypeCollectionMissingType : Z := 15.
Definition IvpError_msgTypeCollectionMissingSubType : Z := 16.
Definition IvpError_msgTypeCollectionDuplicate : Z := 17.

Record IvpError := mkError { level : Z; error : Z; sysErrNo : Z }.
Definition IVP_ERROR_INITIALIZER : IvpError := mkError IvpLogLevel_debug IvpError_none 0.
Definition ivpError_createError (level error sysErrNo : Z) : IvpError := mkError level error sysErrNo.
Definition ivpError_isErrMsg (m : IvpMessage) : bool := type_is m IVPMSG_TYPE_APIRESV_ERROR.

(** The field names, as the macros of the file define them. *)
Definition IVP_ERROR_FIELD_LEVEL : string := "level".
Definition IVP_ERROR_FIELD_ERROR : string := "error".
Definition IVP_ERROR_FIELD_SYSTEM_ERROR_NUMBER : string := "error".

Definition ivpError_payload (err : IvpError) : cJSON :=
  let p := cJSON_AddNumberToObject cJSON_CreateObject IVP_ERROR_FIELD_LEVEL (level err) in
  let p := cJSON_AddNumberToObject p IVP_ERROR_FIELD_ERROR (error err) in
  cJSON_AddNumberToObject p IVP_ERROR_FIELD_SYSTEM_ERROR_NUMBER (sysErrNo err).
Definition ivpError_createMsg (now : Z) (err : IvpError) : IvpMessage :=
  ivpMsg_create now (Some IVPMSG_TYPE_APIRESV_ERROR) None (Some IVP_ENCODING_JSON) IvpMsgFlags_None
    (Some (ivpError_payload err)).

Definition ivpError_getError (m : IvpMessage) : IvpError :=
  if negb (ivpError_isErrMsg m) then IVP_ERROR_INITIALIZER
  else
    match payload m with
    | Some p =>
        mkError (default 0 (cJSONxtra_tryGetInt p IVP_ERROR_FIELD_LEVEL))
          (default 0 (cJSONxtra_tryGetInt p IVP_ERROR_FIELD_ERROR))
          (default (sysErrNo IVP_ERROR_INITIALIZER)
             (cJSONxtra_tryGetInt p IVP_ERROR_FIELD_SYSTEM_ERROR_NUMBER))
    | None => IVP_ERROR_INITIALIZER
    end.

(** ** IvpConfig.c *)
Record IvpConfigItem := mkConfigItem {
  key : option string; value : option string; defaultValue : option string;
  description : option string }.

Definition ivpConfig_createMsg (now : Z) (collection : option cJSON) : IvpMessage :=
  ivpMsg_create now (Some IVPMSG_TYPE_APIRESV_CONFIG) None (Some IVP_ENCODING_JSON) IvpMsgFlags_None
    collection.
Definition ivpConfig_isConfigMsg (m : IvpMessage) : bool := type_is m IVPMSG_TYPE_APIRESV_CONFIG.

(** The loop over the items; [seen] holds the keys of the items before. *)
Fixpoint ivpConfig_validate_items (seen : list string) (l : list cJSON) : IvpError :=
  match l with
  | [] => IVP_ERROR_INITIALIZER
  | item :: l' =>
      match cJSONxtra_tryGetStr item "key" with
      | None => ivpError_createError IvpLogLevel_fatal IvpError_configMissingKey 0
      | Some k =>
          match cJSONxtra_tryGetStr item "default" with
          | None => ivpError_createError IvpLogLevel_fatal IvpError_configMissingDefault 0
          | Some _ =>
              if not_string item "description"
              then ivpError_createError IvpLogLevel_fatal IvpError_configFormat 0
              else if bool_decide (k ∈ seen)
              then ivpError_createError IvpLogLevel_fatal IvpError_configDuplicateKey 0
              else ivpConfig_validate_items (seen ++ [k]) l'
          end
      end
  end.
Definition ivpConfig_validate (collection : option cJSON) : IvpError :=
  match collection with
  | None => IVP_ERROR_INITIALIZER
  | Some c =>
      if negb (is_array c) then ivpError_createError IvpLogLevel_fatal IvpError_configFormat 0
      else ivpConfig_validate_items [] (items (Some c))
  end.

Definition ivpConfig_getItemCount (collection : option cJSON) : Z :=
  Z.of_nat (length (items collection)).
Definition ivpConfig_item (item : cJSON) : IvpConfigItem :=
  mkConfigItem (cJSONxtra_tryGetStr item "key") (cJSONxtra_tryGetStr item "value")
    (cJSONxtra_tryGetStr item "default") (cJSONxtra_tryGetStr item "description").
Definition ivpConfig_getItem (collection : option cJSON) (index : nat) : option IvpConfigItem :=
  ivpConfig_item <$> items collection !! index.

Definition ivpConfig_addItemToCollection (collection : option cJSON)
    (key value defaultValue : option string) : option cJSON :=
  match key with
  | None => collection
  | Some k =>
      let item := cJSON_AddStringToObject cJSON_CreateObject "key" k in
      let item := add_string_opt "value" value item in
      let item := add_string_opt "default" defaultValue item in
      match value, defaultValue with
      | None, None => Some (open_collection collection)
      | _, _ => append_item collection item
      end
  end.

(** The item found by [ivpConfig_updateValueInCollection]. *)
Definition update_item (item : cJSON) (value : string) : cJSON :=
  let newValue := cJSON_CreateString value in
  match cJSON_GetObjectItem item "value" with
  | None => cJSON_AddItemToObject item "value" newValue
  | Some existing =>
      if bool_decide (type existing = cJSON_String) && bool_decide (valuestring existing = Some value)
      then item
      else cJSON_ReplaceItemInObject item "value" newValue
  end.
Fixpoint update_items (key value : string) (ch : list (option string * cJSON))
  : list (option string * cJSON) :=
  match ch with
  | [] => []
  | (s, item) :: ch' =>
      match cJSONxtra_tryGetStr item "key" with
      | Some k => if String.eqb key k then (s, update_item item value) :: ch'
                  else (s, item) :: update_items key value ch'
      | None => (s, item) :: update_items key value ch'
      end
  end.
(** The return value and the collection. *)
Definition ivpConfig_updateValueInCollection (collection : option cJSON) (key value : option string)
  : Z * option cJSON :=
  match key, value with
  | Some k, Some v =>
      (1, match collection with
          | Some c => if is_array c then Some (set_child c (update_items k v (child c))) else Some c
          | None => None
          end)
  | _, _ => (0, collection)
  end.

Fixpoint find_value (key : string) (l : list cJSON) : option string :=
  match l with
  | [] => None
  | item :: l' =>
      match cJSONxtra_tryGetStr item "key" with
      | Some k =>
          if String.eqb k key then
            match cJSON_GetObjectItem item "value" with
            | Some _ => cJSONxtra_tryGetStr item "value"
            | None => cJSONxtra_tryGetStr item "default"
            end
          else find_value key l'
      | None => find_value key l'
      end
  end.
Definition ivpConfig_getCopyOfValueFromCollection (collection : option cJSON) (key : string)
  : option string := find_value key (items collection).

(** ** IvpMessageType.c *)
Record IvpMessageTypeEntry := mkTypeEntry {
  entry_type : option string; entry_subtype : option string; entry_description : option string }.

Definition ivpMsgType_addEntryToCollection (collection : option cJSON)
    (type subtype description : option string) : option cJSON :=
  match type, subtype with
  | Some t, Some st =>
      let item := cJSON_AddStringToObject cJSON_CreateObject "type" t in
      let item := cJSON_AddStringToObject item "subtype" st in
      let item := add_string_opt "description" description item in
      append_item collection item
  | _, _ => collection
  end.

Fixpoint ivpMsgType_validate_items (seen : list (string * string)) (l : list cJSON) : IvpError :=
  match l with
  | [] => IVP_ERROR_INITIALIZER
  | item :: l' =>
      match cJSONxtra_tryGetStr item "type" with
      | None => ivpError_createError IvpLogLevel_fatal IvpError_msgTypeCollectionMissingType 0
      | Some t =>
          match cJSONxtra_tryGetStr item "subtype" with
          | None => ivpError_createError IvpLogLevel_fatal IvpError_msgTypeCollectionMissingSubType 0
          | Some st =>
              if not_string item "description"
              then ivpError_createError IvpLogLevel_fatal IvpError_msgTypeCollectionFormat 0
              else if bool_decide ((t, st) ∈ seen)
              then ivpError_createError IvpLogLevel_fatal IvpError_msgTypeCollectionDuplicate 0
              else ivpMsgType_validate_items (seen ++ [(t, st)]) l'
          end
      end
  end.
Definition ivpMsgType_validateCollection (collection : option cJSON) : IvpError :=
  match collection with
  | None => IVP_ERROR_INITIALIZER
  | Some c =>
      if negb (is_array c)
      then ivpError_createError IvpLogLevel_fatal IvpError_msgTypeCollectionFormat 0
      else ivpMsgType_validate_items [] (items (Some c))
  end.

Definition ivpMsgType_getEntryCount (collection : option cJSON) : Z :=
  Z.of_nat (length (items collection)).
Definition ivpMsgType_entry (item : cJSON) : IvpMessageTypeEntry :=
  mkTypeEntry (cJSONxtra_tryGetStr item "type") (cJSONxtra_tryGetStr item "subtype")
    (cJSONxtra_tryGetStr item "description").
Definition ivpMsgType_getEntry (collection : option cJSON) (index : nat)
  : option IvpMessageTypeEntry := ivpMsgType_entry <$> items collection !! index.

(** ** IvpRegister.c *)
Record IvpManifest := mkManifest {
  name : option string; manifest_description : option string; version : option string;
  coreIpAddr : option string; corePort : Z;
  messageTypes : option cJSON; configuration : option cJSON }.

Definition ivpRegister_createMsgFromJson (now : Z) (manifest : cJSON) : IvpMessage :=
  ivpMsg_create now (Some IVPMSG_TYPE_APIRESV_REGISTER) None (Some "JSON"%string) IvpMsgFlags_None
    (Some manifest).
Definition ivpRegister_isRegistrationMsg (m : IvpMessage) : bool :=
  type_is m IVPMSG_TYPE_APIRESV_REGISTER.
Definition ivpRegister_getManifestFromJson (manifest : cJSON) : IvpManifest :=
  mkManifest (cJSONxtra_tryGetStr manifest "name") (cJSONxtra_tryGetStr manifest "description")
    (cJSONxtra_tryGetStr manifest "version") (cJSONxtra_tryGetStr manifest "coreIpAddr")
    (default 0 (cJSONxtra_tryGetInt manifest "corePort"))
    (cJSON_Duplicate <$> cJSON_GetObjectItem manifest "messageTypes")
    (cJSON_Duplicate <$> cJSON_GetObjectItem manifest "configuration").
Definition ivpRegister_getManifest (m : IvpMessage) : option IvpManifest :=
  if negb (ivpRegister_isRegistrationMsg m) then None
  else ivpRegister_getManifestFromJson <$> payload m.
Definition ivpRegister_validateManifest (manifest : option IvpManifest) : IvpError :=
  match manifest with
  | None => ivpError_createError IvpLogLevel_fatal IvpError_assert 0
  | Some m =>
      match name m with
      | None | Some EmptyString => ivpError_createError IvpLogLevel_fatal IvpError_pluginNoName 0
      | Some _ =>
          let configError := ivpConfig_validate (configuration m) in
          if negb (error configError =? IvpError_none) then configError
          else
            let messageTypeErr := ivpMsgType_validateCollection (messageTypes m) in
            if negb (error messageTypeErr =? IvpError_none) then messageTypeErr
            else IVP_ERROR_INITIALIZER
      end
  end.

(** ** IvpSubscribe.c *)
Definition ivpSubscribe_createMsg (now : Z) (filter : option cJSON) : IvpMessage :=
  ivpMsg_create now (Some IVPMSG_TYPE_APIRESV_SUBSCRIBE) None None IvpMsgFlags_None filter.
Definition ivpSubscribe_isSubscribeMsg (m : IvpMessage) : bool :=
  type_is m IVPMSG_TYPE_APIRESV_SUBSCRIBE.

Definition ivpSubscribe_addFilterEntryWithFlagMask (filter : option cJSON)
    (type subtype : option string) (flags : Z) : option cJSON :=
  match type with
  | None => Some (open_collection filter)
  | Some t =>
      let newFilter := cJSON_AddStringToObject cJSON_CreateObject "type" t in
      let newFilter := add_string_opt "subtype" subtype newFilter in
      let newFilter := if flags =? IvpMsgFlags_None then newFilter
                       else cJSON_AddNumberToObject newFilter "flagmask" flags in
      append_item filter newFilter
  end.
Definition ivpSubscribe_addFilterEntry (filter : option cJSON) (type subtype : option string)
  : option cJSON := ivpSubscribe_addFilterEntryWithFlagMask filter type subtype IvpMsgFlags_None.

Definition ivpSubscribe_getFilterEntryCount (m : IvpMessage) : Z :=
  Z.of_nat (length (items (payload m))).
(** The three outputs. *)
Definition ivpSubscribe_getFilterEntry (m : IvpMessage) (index : nat)
  : option string * option string * Z :=
  match items (payload m) !! index with
  | Some entry =>
      (cJSONxtra_tryGetStr entry "type", cJSONxtra_tryGetStr entry "subtype",
       default IvpMsgFlags_None (cJSONxtra_tryGetUnsignedInt entry "flagmask"))
  | None => (None, None, IvpMsgFlags_None)
  end.

(** ** IvpPluginStatus.c *)
Record IvpPluginStatusItem := mkStatusItem { status_key : option string; status_value : option string }.

Definition ivpPluginStatus_isStatusMsg (m : IvpMessage) : bool := type_is m IVPMSG_TYPE_APIRESV_STATUS.
Definition ivpPluginStatus_createMsg (now : Z) (collection : option cJSON) : IvpMessage :=
  ivpMsg_create now (Some IVPMSG_TYPE_APIRESV_STATUS) None (Some IVP_ENCODING_JSON) IvpMsgFlags_None
    collection.
Definition ivpPluginStatus_addStatusItem (collection : option cJSON) (key value : option string)
  : option cJSON :=
  match value, key with
  | None, None => Some (open_collection collection)
  | _, _ => append_item collection (add_string_opt "value" value (add_string_opt "key" key cJSON_CreateObject))
  end.
Definition ivpPluginStatus_getItemCount (collection : option cJSON) : Z :=
  Z.of_nat (length (items collection)).
Definition ivpPluginStatus_item (item : cJSON) : IvpPluginStatusItem :=
  mkStatusItem (cJSONxtra_tryGetStr item "key") (cJSONxtra_tryGetStr item "value").
Definition ivpPluginStatus_getItem (collection : option cJSON) (index : nat)
  : option IvpPluginStatusItem := ivpPluginStatus_item <$> items collection !! index.

(** ** IvpEventLog.c *)
Record IvpEventLogEntry := mkEventLog { event_level : Z; event_description : option string }.

Definition ivpEventLog_isEventLogMsg (m : IvpMessage) : bool := type_is m IVPMSG_TYPE_APIRESV_EVENTLOG.
Definition ivpEventLog_createMsg (now : Z) (level : Z) (description : option string)
  : option IvpMessage :=
  match description with
  | None | Some EmptyString => None
  | Some d =>
      let payload := cJSON_AddNumberToObject cJSON_CreateObject "level" level in
      let payload := cJSON_AddStringToObject payload "description" d in
      Some (ivpMsg_create now (Some IVPMSG_TYPE_APIRESV_EVENTLOG) None (Some IVP_ENCODING_JSON)
        IvpMsgFlags_None (Some payload))
  end.
(** [level0] is the content of the uninitialised local [level]. *)
Definition ivpEventLog_getEventLogEntry (level0 : Z) (m : IvpMessage) : option IvpEventLogEntry :=
  if negb (ivpEventLog_isEventLogMsg m) then None
  else
    p ← payload m;
    Some (mkEventLog (default level0 (cJSONxtra_tryGetInt p "level"))
      (cJSONxtra_tryGetStr p "description")).

(** ** Collections *)
Lemma items_append c item :
  (forall c', c = Some c' -> is_array c' = true) ->
  items (append_item c item) = items c ++ [item] /\
  forall c', append_item c item = Some c' -> is_array c' = true.
Proof.
  intros Hc. unfold append_item, open_collection. destruct c as [c|]; cbn [default from_option id].
  - pose proof (Hc c eq_refl) as Ha. rewrite Ha.
    assert (is_array (cJSON_AddItemToArray c item) = true) as Ha' by exact Ha.
    unfold items. rewrite Ha', Ha. cbn [child set_child cJSON_AddItemToArray]. rewrite map_app.
    split; [done|]. by intros ? [= <-].
  - split; [done|]. by intros ? [= <-].
Qed.

Lemma items_reparse c : items (reparse <$> c) = map reparse (items c).
Proof.
  destruct c as [c|]; [|done]. cbn. unfold is_array.
  rewrite reparse_child. destruct c as [t vs vi vd ch]. cbn.
  case_bool_decide; [|done]. by rewrite !map_map.
Qed.

(** The lookups of one member, in objects the [add] functions build. *)
Ltac read_item :=
  unfold cJSONxtra_tryGetStr, cJSONxtra_tryGetUnsignedInt, cJSONxtra_tryGetInt, tryGetNumber;
  repeat case_if; read_field; repeat case_match; simplify_eq/=; try done.

(** ** Configuration collections *)
Definition config_keys (l : list cJSON) : list string := omap (fun i => cJSONxtra_tryGetStr i "key") l.
Definition config_item_ok (item : cJSON) : Prop :=
  is_Some (cJSONxtra_tryGetStr item "key") /\ is_Some (cJSONxtra_tryGetStr item "default") /\
  not_string item "description" = false.

Lemma config_validate_items_iff l seen :
  NoDup seen ->
  error (ivpConfig_validate_items seen l) = IvpError_none <->
  Forall config_item_ok l /\ NoDup (seen ++ config_keys l).
Proof.
  revert seen. induction l as [|item l IH]; intros seen Hs; cbn [ivpConfig_validate_items].
  { split; [|done]. intros _. split; [constructor|]. cbn. by rewrite app_nil_r. }
  unfold config_keys. cbn [omap list_omap].
  destruct (cJSONxtra_tryGetStr item "key") as [k|] eqn:Ek.
  2: { split; [done|]. intros [Hf _]. inversion Hf as [|? ? ([] & _) _]. congruence. }
  destruct (cJSONxtra_tryGetStr item "default") as [d|] eqn:Ed.
  2: { split; [done|]. intros [Hf _]. inversion Hf as [|? ? (_ & [] & _) _]. congruence. }
  destruct (not_string item "description") eqn:En.
  { split; [done|]. intros [Hf _]. inversion Hf as [|? ? (_ & _ & ?) _]. congruence. }
  case_bool_decide as Hin.
  - split; [done|]. intros [_ Hd]. rewrite NoDup_app in Hd. destruct Hd as (_ & Hd & _).
    destruct (Hd k Hin). left.
  - rewrite IH.
    + rewrite <- app_assoc. cbn [app]. fold (config_keys l). rewrite Forall_cons.
      unfold config_item_ok at 2. rewrite Ek, Ed, En. naive_solver.
    + apply NoDup_app. split_and!; [done|set_solver|apply NoDup_singleton].
Qed.

Lemma config_validate_iff c :
  error (ivpConfig_validate (Some c)) = IvpError_none <->
  is_array c = true /\ Forall config_item_ok (items (Some c)) /\ NoDup (config_keys (items (Some c))).
Proof.
  unfold ivpConfig_validate. destruct (is_array c) eqn:Ea; cbn [negb].
  - rewrite config_validate_items_iff by constructor. cbn [app]. naive_solver.
  - split; [done|]. naive_solver.
Qed.

Definition type_names (l : list cJSON) : list (string * string) :=
  omap (fun i => t ← cJSONxtra_tryGetStr i "type"; st ← cJSONxtra_tryGetStr i "subtype"; Some (t, st)) l.
Definition type_item_ok (item : cJSON) : Prop :=
  is_Some (cJSONxtra_tryGetStr item "type") /\ is_Some (cJSONxtra_tryGetStr item "subtype") /\
  not_string item "description" = false.

Lemma msgType_validate_items_iff l seen :
  NoDup seen ->
  error (ivpMsgType_validate_items seen l) = IvpError_none <->
  Forall type_item_ok l /\ NoDup (seen ++ type_names l).
Proof.
  revert seen. induction l as [|item l IH]; intros seen Hs; cbn [ivpMsgType_validate_items].
  { split; [|done]. intros _. split; [constructor|]. cbn. by rewrite app_nil_r. }
  unfold type_names. cbn [omap list_omap].
  destruct (cJSONxtra_tryGetStr item "type") as [t|] eqn:Et.
  2: { split; [done|]. intros [Hf _]. inversion Hf as [|? ? ([] & _) _]. congruence. }
  destruct (cJSONxtra_tryGetStr item "subtype") as [st|] eqn:Est.
  2: { split; [done|]. intros [Hf _]. inversion Hf as [|? ? (_ & [] & _) _]. congruence. }
  cbn [mbind option_bind].
  destruct (not_string item "description") eqn:En.
  { split; [done|]. intros [Hf _]. inversion Hf as [|? ? (_ & _ & ?) _]. congruence. }
  case_bool_decide as Hin.
  - split; [done|]. intros [_ Hd]. rewrite NoDup_app in Hd. destruct Hd as (_ & Hd & _).
    destruct (Hd (t, st) Hin). left.
  - rewrite IH.
    + rewrite <- app_assoc. cbn [app]. fold (type_names l). rewrite Forall_cons.
      unfold type_item_ok at 2. rewrite Et, Est, En. naive_solver.
    + apply NoDup_app. split_and!; [done|set_solver|apply NoDup_singleton].
Qed.

Lemma msgType_validate_iff c :
  error (ivpMsgType_validateCollection (Some c)) = IvpError_none <->
  is_array c = true /\ Forall type_item_ok (items (Some c)) /\ NoDup (type_names (items (Some c))).
Proof.
  unfold ivpMsgType_validateCollection. destruct (is_array c) eqn:Ea; cbn [negb].
  - rewrite msgType_validate_items_iff by constructor. cbn [app]. naive_solver.
  - split; [done|]. naive_solver.
Qed.

(** ** Updating a value *)
Lemma update_item_lookup item v n :
  strcaseeq "value" n = false ->
  cJSON_GetObjectItem (update_item item v) n = cJSON_GetObjectItem item n.
Proof.
  intros Hn. unfold update_item.
  destruct (cJSON_GetObjectItem item "value") as [e|] eqn:Ev; [case_if|]; [done|..].
  - by rewrite GetObjectItem_replace, Hn.
  - rewrite GetObjectItem_add, Hn. by destruct (cJSON_GetObjectItem item n).
Qed.

Lemma update_item_field item v n :
  strcaseeq "value" n = false ->
  cJSONxtra_tryGetStr (update_item item v) n = cJSONxtra_tryGetStr item n.
Proof. intros Hn. unfold cJSONxtra_tryGetStr. by rewrite update_item_lookup. Qed.

Lemma update_item_value item v :
  cJSON_GetObjectItem (update_item item v) "value" <> None /\
  cJSONxtra_tryGetStr (update_item item v) "value" = Some v.
Proof.
  unfold update_item, cJSONxtra_tryGetStr.
  destruct (cJSON_GetObjectItem item "value") as [e|] eqn:Ev.
  - destruct (bool_decide (type e = cJSON_String)) eqn:E1, (bool_decide (valuestring e = Some v)) eqn:E2;
      cbn [andb].
    2-4: by rewrite GetObjectItem_replace, strcaseeq_refl, Ev.
    apply bool_decide_eq_true in E1, E2. rewrite Ev. cbn. by rewrite decide_True.
  - by rewrite GetObjectItem_add, Ev, strcaseeq_refl.
Qed.

Lemma find_value_update k v key ch :
  find_value key (map snd (update_items k v ch)) =
  if String.eqb key k && bool_decide (k ∈ config_keys (map snd ch)) then Some v
  else find_value key (map snd ch).
Proof.
  induction ch as [|[s item] ch IH]; cbn [update_items map snd].
  { by rewrite andb_false_r. }
  unfold config_keys in *. cbn [find_value omap list_omap].
  destruct (cJSONxtra_tryGetStr item "key") as [k'|] eqn:Ek.
  2: { cbn [map snd find_value]. by rewrite Ek. }
  destruct (String.eqb_spec k k') as [<-|Hne]; cbn [map snd find_value].
  - rewrite update_item_field, Ek by done.
    rewrite (bool_decide_eq_true_2 (k ∈ k :: _)) by constructor. rewrite andb_true_r, (String.eqb_sym key).
    destruct (String.eqb_spec k key) as [<-|]; [|done].
    destruct (update_item_value item v) as [Hv ->].
    by destruct (cJSON_GetObjectItem (update_item item v) "value").
  - rewrite Ek. destruct (String.eqb_spec k' key) as [<-|Hk'].
    + destruct (String.eqb_spec k' k); [congruence|done].
    + rewrite IH. destruct (String.eqb_spec key k) as [->|]; [|done]. cbn [andb].
      case_bool_decide as H1; case_bool_decide as H2; try done; exfalso; set_solver.
Qed.

Lemma update_items_keys k v ch :
  config_keys (map snd (update_items k v ch)) = config_keys (map snd ch) /\
  Forall2 (fun i i' => forall n, strcaseeq "value" n = false ->
    cJSON_GetObjectItem i' n = cJSON_GetObjectItem i n) (map snd ch) (map snd (update_items k v ch)).
Proof.
  unfold config_keys.
  induction ch as [|[s item] ch [IH1 IH2]]; cbn [update_items map snd]; [by repeat constructor|].
  destruct (cJSONxtra_tryGetStr item "key") as [k'|] eqn:Ek.
  - destruct (String.eqb k k'); cbn [map snd omap list_omap].
    + rewrite update_item_field, Ek by done. split; [done|]. constructor.
      * intros n Hn. by apply update_item_lookup.
      * clear. induction ch; by constructor.
    + rewrite Ek, IH1. by repeat constructor.
  - cbn [map snd omap list_omap]. rewrite Ek, IH1. by repeat constructor.
Qed.

(** ** Building and reading collections *)
Definition filter_of (entries : list (string * option string * Z)) : option cJSON :=
  foldl (fun f e => ivpSubscribe_addFilterEntryWithFlagMask f (Some e.1.1) e.1.2 e.2) None entries.
Definition filter_entry (item : cJSON) : option string * option string * Z :=
  (cJSONxtra_tryGetStr item "type", cJSONxtra_tryGetStr item "subtype",
   default IvpMsgFlags_None (cJSONxtra_tryGetUnsignedInt item "flagmask")).
Definition statuses_of (l : list (option string * option string)) : option cJSON :=
  foldl (fun c e => ivpPluginStatus_addStatusItem c e.1 e.2) None l.

(** A payload that has crossed the wire. *)
Definition arrived (m : IvpMessage) : IvpMessage := with_payload (reparse <$> payload m) m.

Lemma items_foldl {A} (item_of : A -> cJSON) (add : option cJSON -> A -> option cJSON) (ok : A -> Prop) :
  (forall c a, ok a -> add c a = append_item c (item_of a)) ->
  forall l, Forall ok l -> items (foldl add None l) = map item_of l.
Proof.
  intros Hadd l Hl.
  enough (forall c, (forall c', c = Some c' -> is_array c' = true) ->
    items (foldl add c l) = items c ++ map item_of l) as H by by apply H.
  induction Hl as [|a l Ha _ IH]; intros c Hc; cbn [foldl map]; [by rewrite app_nil_r|].
  rewrite Hadd by done. destruct (items_append c (item_of a) Hc) as [Hi Hc'].
  by rewrite IH, Hi, <- app_assoc.
Qed.

Lemma items_duplicate c : items (cJSON_Duplicate <$> c) = items c.
Proof. destruct c as [c|]; cbn; [by rewrite Duplicate_id|done]. Qed.

Lemma lookup_items_map {B} (f : cJSON -> B) (d : B) l :
  map (fun i => match l !! i with Some x => f x | None => d end) (seq 0 (length l)) = map f l.
Proof.
  induction l as [|x l IH]; [done|]. cbn [length seq map]. f_equal.
  rewrite <- seq_shift, map_map. exact IH.
Qed.

(** A number member written and read back. *)
Lemma tryGetUnsignedInt_reparse j n v :
  cJSON_GetObjectItem j n = Some (cJSON_CreateNumber (double_of_int v)) -> 0 <= v < 2 ^ 32 ->
  cJSONxtra_tryGetUnsignedInt (reparse j) n = Some v.
Proof.
  intros E Hv. unfold cJSONxtra_tryGetUnsignedInt. rewrite (tryGetNumber_reparse _ _ _ E) by lia.
  cbn. by rewrite u32_small.
Qed.

Lemma filter_entry_item t st fl :
  0 <= fl < 2 ^ 32 ->
  let newFilter := cJSON_AddStringToObject cJSON_CreateObject "type" t in
  let newFilter := add_string_opt "subtype" st newFilter in
  filter_entry (reparse (if fl =? IvpMsgFlags_None then newFilter
                else cJSON_AddNumberToObject newFilter "flagmask" fl)) = (Some t, st, fl).
Proof.
  intros Hfl. cbv zeta. unfold filter_entry. rewrite !tryGetStr_reparse.
  assert (default IvpMsgFlags_None (cJSONxtra_tryGetUnsignedInt (reparse
    (if fl =? IvpMsgFlags_None then add_string_opt "subtype" st (cJSON_AddStringToObject cJSON_CreateObject "type" t)
     else cJSON_AddNumberToObject (add_string_opt "subtype" st
            (cJSON_AddStringToObject cJSON_CreateObject "type" t)) "flagmask" fl)) "flagmask") = fl) as ->.
  { destruct (Z.eqb_spec fl IvpMsgFlags_None) as [->|].
    - unfold cJSONxtra_tryGetUnsignedInt. rewrite tryGetNumber_reparse_None; [done|]. read_field. by destruct st.
    - rewrite (tryGetUnsignedInt_reparse _ _ fl); [done| |done]. read_field. by destruct st. }
  unfold cJSONxtra_tryGetStr. destruct (fl =? IvpMsgFlags_None); read_field; by destruct st.
Qed.

(** ** Properties *)

(** What a valid manifest holds. *)
Lemma manifest_fields_valid m :
  error (ivpRegister_validateManifest (Some m)) = IvpError_none <->
  (exists n, name m = Some n /\ n <> EmptyString) /\
  (forall c, configuration m = Some c -> is_array c = true /\
     Forall config_item_ok (items (Some c)) /\ NoDup (config_keys (items (Some c)))) /\
  (forall c, messageTypes m = Some c -> is_array c = true /\
     Forall type_item_ok (items (Some c)) /\ NoDup (type_names (items (Some c)))).
Proof.
  cbn [ivpRegister_validateManifest].
  destruct (name m) as [[|a n]|]; [split; [done|naive_solver]| |split; [done|naive_solver]].
  assert (error (ivpConfig_validate (configuration m)) = IvpError_none <->
    (forall c, configuration m = Some c -> is_array c = true /\
     Forall config_item_ok (items (Some c)) /\ NoDup (config_keys (items (Some c))))) as Hc.
  { destruct (configuration m) as [c|]; [|split; [done|reflexivity]]. rewrite config_validate_iff. naive_solver. }
  assert (error (ivpMsgType_validateCollection (messageTypes m)) = IvpError_none <->
    (forall c, messageTypes m = Some c -> is_array c = true /\
     Forall type_item_ok (items (Some c)) /\ NoDup (type_names (items (Some c))))) as Ht.
  { destruct (messageTypes m) as [c|]; [|split; [done|reflexivity]]. rewrite msgType_validate_iff. naive_solver. }
  rewrite <- Hc, <- Ht.
  destruct (Z.eqb_spec (error (ivpConfig_validate (configuration m))) IvpError_none); cbn [negb]; [|naive_solver].
  destruct (Z.eqb_spec (error (ivpMsgType_validateCollection (messageTypes m))) IvpError_none); cbn [negb];
    naive_solver.
Qed.

(** A manifest is accepted exactly when it has a nonempty name, its
    configuration (if any) is an array whose items all have a string key, a
    string default and no description that is not a string, with no key
    twice, and its message types (if any) are an array whose items all have
    a string type and subtype and no description that is not a string, with
    no (type, subtype) pair twice. *)
Theorem manifest_valid_iff m :
  error (ivpRegister_validateManifest (Some m)) = IvpError_none <->
  (exists n, name m = Some n /\ n <> EmptyString) /\
  (forall c, configuration m = Some c -> is_array c = true /\
     Forall config_item_ok (items (Some c)) /\ NoDup (config_keys (items (Some c)))) /\
  (forall c, messageTypes m = Some c -> is_array c = true /\
     Forall type_item_ok (items (Some c)) /\ NoDup (type_names (items (Some c)))).
Proof. apply manifest_fields_valid. Qed.

(** Updating a configuration value. After
    [ivpConfig_updateValueInCollection] the copied value of the updated key
    is the new one if an item has that key, and nothing changes for any
    other key or when there is no such item; the keys, the defaults and the
    validity of the collection are kept. The return value is 1 in every one
    of these cases, also when nothing was changed. *)
Theorem config_update_get c k v key :
  is_array c = true ->
  let '(r, c') := ivpConfig_updateValueInCollection (Some c) (Some k) (Some v) in
  r = 1 /\
  ivpConfig_getCopyOfValueFromCollection c' key =
    (if String.eqb key k && bool_decide (k ∈ config_keys (items (Some c))) then Some v
     else ivpConfig_getCopyOfValueFromCollection (Some c) key) /\
  config_keys (items c') = config_keys (items (Some c)) /\
  ivpConfig_getItemCount c' = ivpConfig_getItemCount (Some c) /\
  (error (ivpConfig_validate (Some c)) = IvpError_none -> error (ivpConfig_validate c') = IvpError_none).
Proof.
  intros Ha. cbn [ivpConfig_updateValueInCollection]. rewrite Ha.
  destruct (update_items_keys k v (child c)) as [Hk Hf].
  assert (is_array (set_child c (update_items k v (child c))) = true) as Ha' by exact Ha.
  unfold ivpConfig_getCopyOfValueFromCollection, ivpConfig_getItemCount.
  assert (items (Some (set_child c (update_items k v (child c)))) =
    map snd (update_items k v (child c))) as -> by (cbn [items]; by rewrite Ha').
  assert (items (Some c) = map snd (child c)) as Ei by (cbn [items]; by rewrite Ha).
  rewrite Ei. split_and!; [done|apply find_value_update|done|by rewrite (Forall2_length _ _ _ Hf)|].
  rewrite !config_validate_iff, Ei. cbn [items]. rewrite Ha'. cbn [child set_child].
  rewrite Hk. intros (_ & Hok & Hd). split_and!; [done| |done].
  clear - Hf Hok. revert Hok. induction Hf as [|i i' l l' Hi _ IH]; [done|].
  rewrite !Forall_cons. intros [Hok Hl]. split; [|auto].
  unfold config_item_ok, cJSONxtra_tryGetStr, not_string in *. by rewrite !Hi by done.
Qed.

Lemma config_update_get_witness :
  let c := default cJSON_CreateArray
    (ivpConfig_addItemToCollection (ivpConfig_addItemToCollection None (Some "rate") None (Some "5"))
       (Some "name") (Some "x") (Some "y")) in
  let '(r, c') := ivpConfig_updateValueInCollection (Some c) (Some "rate") (Some "7") in
  r = 1 /\
  ivpConfig_getCopyOfValueFromCollection c' "rate" =
    (if String.eqb "rate" "rate" && bool_decide ("rate" ∈ config_keys (items (Some c))) then Some "7"
     else ivpConfig_getCopyOfValueFromCollection (Some c) "rate") /\
  config_keys (items c') = config_keys (items (Some c)) /\
  ivpConfig_getItemCount c' = ivpConfig_getItemCount (Some c) /\
  (error (ivpConfig_validate (Some c)) = IvpError_none -> error (ivpConfig_validate c') = IvpError_none).
Proof. apply (config_update_get _ "rate" "7" "rate"). reflexivity. Defined.

(** Subscriptions survive the wire. A filter built entry by entry with
    [ivpSubscribe_addFilterEntryWithFlagMask], sent as a subscribe message
    and parsed by the core, yields the same entries at the same indices:
    type, optional subtype and the 32-bit flag mask. *)
Theorem subscribe_roundtrip now entries :
  Forall (fun e => 0 <= e.2 < 2 ^ 32) entries ->
  let m := arrived (ivpSubscribe_createMsg now (filter_of entries)) in
  ivpSubscribe_isSubscribeMsg m = true /\
  ivpSubscribe_getFilterEntryCount m = Z.of_nat (length entries) /\
  map (ivpSubscribe_getFilterEntry m) (seq 0 (length entries)) =
    map (fun e => (Some e.1.1, e.1.2, e.2)) entries.
Proof.
  intros He m.
  set (item_of := fun e : string * option string * Z =>
    let newFilter := cJSON_AddStringToObject cJSON_CreateObject "type" e.1.1 in
    let newFilter := add_string_opt "subtype" e.1.2 newFilter in
    if e.2 =? IvpMsgFlags_None then newFilter else cJSON_AddNumberToObject newFilter "flagmask" e.2).
  assert (items (payload m) = map reparse (map item_of entries)) as Hi.
  { unfold m. cbn [payload arrived with_payload ivpSubscribe_createMsg ivpMsg_create].
    rewrite items_reparse, items_duplicate. f_equal. apply (items_foldl item_of _ (fun _ => True)).
    - done.
    - by apply Forall_true. }
  split_and!; [done|unfold ivpSubscribe_getFilterEntryCount; by rewrite Hi, !length_map|].
  unfold ivpSubscribe_getFilterEntry. rewrite Hi.
  replace (length entries) with (length (map reparse (map item_of entries))) by by rewrite !length_map.
  rewrite (lookup_items_map filter_entry). rewrite !map_map. apply map_ext_in.
  intros [[t st] fl] Hin%list_elem_of_In. apply filter_entry_item.
  by apply (proj1 (Forall_forall _ _) He _ Hin).
Qed.

Lemma subscribe_roundtrip_witness :
  let entries := [("J2735", Some "BSM", 0); ("*", None, 3)]%string in
  let m := arrived (ivpSubscribe_createMsg 0 (filter_of entries)) in
  ivpSubscribe_isSubscribeMsg m = true /\
  ivpSubscribe_getFilterEntryCount m = Z.of_nat (length entries) /\
  map (ivpSubscribe_getFilterEntry m) (seq 0 (length entries)) =
    map (fun e => (Some e.1.1, e.1.2, e.2)) entries.
Proof. apply subscribe_roundtrip. repeat constructor; cbn; lia. Defined.

(** Error messages lose the system error number. The error read from a
    message made of an error (and sent over the wire) has its level and its
    error number, but its [sysErrNo] is the error number again, because both
    fields are written under the same name and the first one is read. *)
Theorem error_roundtrip_loses_sysErrNo now l e n :
  0 <= l < 2 ^ 31 -> 0 <= e < 2 ^ 31 ->
  ivpError_getError (arrived (ivpError_createMsg now (ivpError_createError l e n))) = mkError l e e.
Proof.
  intros Hl He. unfold ivpError_getError. cbn [arrived ivpError_createMsg ivpMsg_create payload with_payload].
  change (negb _) with false. cbn [fmap option_fmap option_map]. rewrite Duplicate_id.
  unfold cJSONxtra_tryGetInt.
  rewrite (tryGetNumber_reparse _ IVP_ERROR_FIELD_LEVEL l) by (lia || by unfold ivpError_payload; read_field).
  rewrite (tryGetNumber_reparse _ IVP_ERROR_FIELD_ERROR e) by (lia || by unfold ivpError_payload; read_field).
  rewrite (tryGetNumber_reparse _ IVP_ERROR_FIELD_SYSTEM_ERROR_NUMBER e)
    by (lia || by unfold ivpError_payload; read_field).
  cbn [fmap option_fmap option_map default from_option]. by rewrite !s32_small by lia.
Qed.

Lemma error_roundtrip_loses_sysErrNo_witness :
  ivpError_getError (arrived (ivpError_createMsg 0 (ivpError_createError IvpLogLevel_error 9 111))) =
  mkError IvpLogLevel_error 9 9.
Proof. apply error_roundtrip_loses_sysErrNo; unfold IvpLogLevel_error; lia. Defined.
End IvpApi.
