(* ===== verification/OrdMap.v ===== *)
(** [std::map] as the code uses it: a list of key-value pairs in strictly
    increasing key order, which is also the order of iteration. The order of
    keys is an interface ([KeyOrder]) with instances for integers (pointers
    and numbers) and for [std::string]. *)
From Stdlib Require Import Ascii String Sorting.Sorted RelationClasses.
From S2P Require Import Prelude.
Open Scope Z_scope.

Class KeyOrder (K : Type) := {
  klt : K -> K -> bool;
  klt_irrefl : forall x, klt x x = false;
  klt_trans : forall x y z, klt x y = true -> klt y z = true -> klt x z = true;
  klt_total : forall x y, klt x y = false -> klt y x = false -> x = y
}.

#[export] Instance KeyOrder_Z : KeyOrder Z.
Proof.
  refine {| klt := Z.ltb |}; intros *; rewrite ?Z.ltb_lt, ?Z.ltb_ge; lia.
Defined.

(** [std::string::compare]: bytes as unsigned characters. *)
Fixpoint string_lt (s1 s2 : string) : bool :=
  match s1, s2 with
  | _, EmptyString => false
  | EmptyString, String _ _ => true
  | String a s1', String b s2' =>
      if (N_of_ascii a <? N_of_ascii b)%N then true
      else if (N_of_ascii b <? N_of_ascii a)%N then false
      else string_lt s1' s2'
  end.

Lemma N_of_ascii_inj a b : N_of_ascii a = N_of_ascii b -> a = b.
Proof. intros H. by rewrite <- (ascii_N_embedding a), <- (ascii_N_embedding b), H. Qed.

#[export] Instance KeyOrder_string : KeyOrder string.
Proof.
  refine {| klt := string_lt |}.
  - induction x as [|a s IH]; cbn; [done|]. by rewrite N.ltb_irrefl.
  - induction x as [|a x IH]; intros [|b y] [|c z]; cbn; try done.
    repeat match goal with |- context [(?p <? ?q)%N] => destruct (N.ltb_spec p q) end; try done; try lia.
    apply IH.
  - induction x as [|a x IH]; intros [|b y]; cbn; try done.
    repeat match goal with |- context [(?p <? ?q)%N] => destruct (N.ltb_spec p q) end; try done.
    intros H1 H2. rewrite (IH _ H1 H2). f_equal. apply N_of_ascii_inj. lia.
Defined.

Module OrdMap.
Section map.
Context {K A : Type} `{KeyOrder K}.
Implicit Types m : list (K * A).

Definition klt_prop (x y : K) : Prop := klt x y = true.
Definition sorted m : Prop := StronglySorted klt_prop (map fst m).

Definition keqb (x y : K) : bool := negb (klt x y) && negb (klt y x).

(** [m.find(k)]. *)
Fixpoint find (k : K) m : option A :=
  match m with
  | [] => None
  | (k', a) :: m' => if keqb k k' then Some a else find k m'
  end.
(** [m[k] = a]. *)
Fixpoint insert (k : K) (a : A) m : list (K * A) :=
  match m with
  | [] => [(k, a)]
  | (k', a') :: m' =>
      if klt k k' then (k, a) :: m
      else if klt k' k then (k', a') :: insert k a m'
      else (k, a) :: m'
  end.
(** [m.erase(k)]. *)
Fixpoint erase (k : K) m : list (K * A) :=
  match m with
  | [] => []
  | (k', a') :: m' => if keqb k k' then m' else (k', a') :: erase k m'
  end.

Lemma keqb_spec x y : keqb x y = true <-> x = y.
Proof.
  unfold keqb. rewrite andb_true_iff, !negb_true_iff. split.
  - intros [? ?]. by apply klt_total.
  - intros ->. by rewrite klt_irrefl.
Qed.
Lemma keqb_refl x : keqb x x = true.
Proof. by apply keqb_spec. Qed.
Lemma keqb_false x y : keqb x y = false <-> x <> y.
Proof. rewrite <- not_true_iff_false, keqb_spec. done. Qed.
Lemma klt_neq x y : klt x y = true -> x <> y.
Proof. intros E ->. by rewrite klt_irrefl in E. Qed.

Lemma find_insert k k' a m :
  find k' (insert k a m) = if keqb k' k then Some a else find k' m.
Proof.
  induction m as [|[k1 a1] m IH]; cbn [insert find]; [done|].
  destruct (klt k k1) eqn:E1; [done|]. destruct (klt k1 k) eqn:E2; cbn [find].
  - rewrite IH. destruct (keqb k' k1) eqn:Ek; [|done].
    apply keqb_spec in Ek as ->. assert (keqb k1 k = false) as ->; [|done].
    apply keqb_false. by apply klt_neq.
  - rewrite (klt_total k k1 E1 E2). by destruct (keqb k' k1).
Qed.

Lemma insert_keys k a m x : x ∈ map fst (insert k a m) <-> x = k \/ x ∈ map fst m.
Proof.
  induction m as [|[k1 a1] m IH]; cbn [insert map fst]; [set_solver|].
  destruct (klt k k1) eqn:E1; [cbn [map fst]; set_solver|].
  destruct (klt k1 k) eqn:E2; cbn [map fst]; rewrite !elem_of_cons.
  - rewrite IH. tauto.
  - rewrite (klt_total k k1 E1 E2). tauto.
Qed.

Lemma Forall_insert (P : K * A -> Prop) k a m : P (k, a) -> Forall P m -> Forall P (insert k a m).
Proof.
  intros Hp. induction 1 as [|[k1 a1] m H1 Hm IH]; cbn [insert]; [by repeat constructor|].
  destruct (klt k k1); [by repeat constructor|]. destruct (klt k1 k); by constructor.
Qed.

Lemma sorted_cons k a m :
  sorted ((k, a) :: m) <-> sorted m /\ Forall (fun k' => klt k k' = true) (map fst m).
Proof.
  unfold sorted. cbn [map fst]. split; [intros Hs; inversion Hs; by subst|].
  intros [? ?]. by constructor.
Qed.

Lemma sorted_insert k a m : sorted m -> sorted (insert k a m).
Proof.
  induction m as [|[k1 a1] m IH]; intros Hs; cbn [insert].
  { apply sorted_cons. split; [done|constructor]. }
  apply sorted_cons in Hs as [Hs Hk].
  destruct (klt k k1) eqn:E1; [|destruct (klt k1 k) eqn:E2].
  - apply sorted_cons. split; [by apply sorted_cons|]. cbn [map fst].
    constructor; [done|]. eapply Forall_impl; [exact Hk|]. cbn. intros x. by apply klt_trans.
  - apply sorted_cons. split; [by apply IH|]. apply Forall_forall. intros x Hx.
    apply insert_keys in Hx as [->|Hx]; [done|]. by apply (proj1 (Forall_forall _ _) Hk).
  - apply sorted_cons. by rewrite (klt_total k k1 E1 E2).
Qed.

Lemma erase_sublist k m : sublist (erase k m) m.
Proof.
  induction m as [|[k1 a1] m IH]; cbn [erase]; [constructor|].
  destruct (keqb k k1); by constructor.
Qed.

Lemma erase_keys_incl k m x : x ∈ map fst (erase k m) -> x ∈ map fst m.
Proof.
  induction m as [|[k1 a1] m IH]; cbn [erase]; [done|].
  destruct (keqb k k1); cbn [map fst]; rewrite ?elem_of_cons; tauto.
Qed.

Lemma sorted_erase k m : sorted m -> sorted (erase k m).
Proof.
  induction m as [|[k1 a1] m IH]; intros Hs; cbn [erase]; [done|].
  apply sorted_cons in Hs as [Hs Hk]. destruct (keqb k k1); [done|].
  apply sorted_cons. split; [by apply IH|]. apply Forall_forall. intros x Hx%erase_keys_incl.
  by apply (proj1 (Forall_forall _ _) Hk).
Qed.

Lemma find_None_below k m :
  sorted m -> Forall (fun k' => klt k k' = true) (map fst m) -> find k m = None.
Proof.
  induction m as [|[k1 a1] m IH]; intros Hs Hk; [done|]. apply sorted_cons in Hs as [Hs _].
  inversion Hk; subst. cbn [find].
  assert (keqb k k1 = false) as -> by (apply keqb_false; by apply klt_neq). by apply IH.
Qed.

Lemma find_erase k k' m :
  sorted m -> find k' (erase k m) = if keqb k' k then None else find k' m.
Proof.
  induction m as [|[k1 a1] m IH]; intros Hs; cbn [erase find]; [by destruct (keqb k' k)|].
  apply sorted_cons in Hs as [Hs Hk]. destruct (keqb k k1) eqn:E.
  - apply keqb_spec in E as ->. destruct (keqb k' k1) eqn:E'; [|done].
    apply keqb_spec in E' as ->. by apply find_None_below.
  - cbn [find]. destruct (keqb k' k1) eqn:E'; [|by apply IH].
    apply keqb_spec in E' as ->. assert (keqb k1 k = false) as ->; [|done].
    apply keqb_false. apply keqb_false in E. congruence.
Qed.

Lemma find_In k a m : find k m = Some a -> (k, a) ∈ m.
Proof.
  induction m as [|[k1 a1] m IH]; cbn [find]; [done|]. destruct (keqb k k1) eqn:E.
  - apply keqb_spec in E as ->. intros [= ->]. by constructor.
  - intros Hm. constructor. by apply IH.
Qed.
Lemma find_elem k a m : sorted m -> find k m = Some a <-> (k, a) ∈ m.
Proof.
  induction m as [|[k1 a1] m IH]; intros Hs; cbn [find]; [set_solver|].
  apply sorted_cons in Hs as [Hs Hk]. rewrite elem_of_cons. destruct (keqb k k1) eqn:E.
  - apply keqb_spec in E as ->. split; [intros [= ->]; by left|].
    intros [[= ->]|Hin]; [done|]. exfalso.
    apply (list_elem_of_fmap_2 fst) in Hin. apply (proj1 (Forall_forall _ _) Hk) in Hin. cbn in Hin.
    by rewrite klt_irrefl in Hin.
  - rewrite IH by done. apply keqb_false in E. split; [by right|]. intros [[= -> ->]|?]; done.
Qed.

Lemma sorted_NoDup m : sorted m -> NoDup (map fst m).
Proof.
  induction m as [|[k1 a1] m IH]; intros Hs; [constructor|]. apply sorted_cons in Hs as [Hs Hk].
  cbn [map fst]. constructor; [|by apply IH]. intros Hin.
  apply (proj1 (Forall_forall _ _) Hk) in Hin. by rewrite klt_irrefl in Hin.
Qed.

Lemma sorted_nil : sorted [].
Proof. constructor. Qed.
End map.
End OrdMap.

Create HintDb ordmap.
#[export] Hint Resolve OrdMap.sorted_insert OrdMap.sorted_erase OrdMap.sorted_nil : ordmap.
