(* ===== verification/Router.v ===== *)
(** The message router of [src/src/tmx/TmxCore/src/MessageRouterBasic.cpp] and
    the client base class of [MessageRouterClient.cpp].

    [Router]: the map from receivers (pointers, ordered as [std::map] orders
    them) to their filters, registration and the routing decision.
    [RouterThreads]: the synchronisation of broadcasts with registrations, as
    an interleaving of atomic steps. *)
From S2P Require Import Prelude Json IvpMessage OrdMap.
Import IvpMsg.
Open Scope Z_scope.

Module Router.
Record MessageFilterEntry := mkFilter { type : string; subtype : string; flagmask : Z }.

(** A default-constructed filter entry. *)
Definition MessageFilterEntry_new : MessageFilterEntry := mkFilter "" "" 0.

(** [mReceiverMessageFilterEntryMap]; a receiver is its address. *)
Definition t : Type := list (Z * list MessageFilterEntry).
Definition MessageRouterBasic_new : t := [].

Definition mask_passes (mask flags : Z) : bool := (mask =? 0) || (0 <? Z.land mask flags).
Definition str_is (s : option string) (x : string) : bool :=
  match s with Some s => String.eqb x s | None => false end.

(** The inner loop of [broadcastMessage]: whether some filter sends the
    message; the loop stops at the first one that does. *)
Fixpoint any_filter (filters : list MessageFilterEntry) (msg : IvpMessage) : bool :=
  match filters with
  | [] => false
  | f :: filters' =>
      if String.eqb (type f) "*" then
        if mask_passes (flagmask f) (flags msg) then true else any_filter filters' msg
      else if str_is (msg_type msg) (type f) then
        if String.eqb (subtype f) "*" || str_is (IvpMsg.subtype msg) (subtype f) then
          if mask_passes (flagmask f) (flags msg) then true else any_filter filters' msg
        else any_filter filters' msg
      else any_filter filters' msg
  end.

(** The receivers whose [receiveMessage] is called, in order. *)
Fixpoint broadcastMessage (sender : Z) (msg : IvpMessage) (m : t) : list Z :=
  match m with
  | [] => []
  | (receiver, filters) :: m' =>
      if sender =? receiver then broadcastMessage sender msg m'
      else if any_filter filters msg then receiver :: broadcastMessage sender msg m'
      else broadcastMessage sender msg m'
  end.

Definition registerReceiver (receiver : Z) (filters : list MessageFilterEntry) (m : t) : t :=
  OrdMap.insert receiver filters m.
Definition unregisterReceiver (receiver : Z) (m : t) : t := OrdMap.erase receiver m.

(** ** What a subscription means *)
Definition accepts (f : MessageFilterEntry) (msg : IvpMessage) : Prop :=
  (flagmask f = 0 \/ Z.land (flagmask f) (flags msg) > 0) /\
  (type f = "*"%string \/
   msg_type msg = Some (type f) /\
   (subtype f = "*"%string \/ IvpMsg.subtype msg = Some (subtype f))).
Definition subscribed (m : t) (receiver : Z) (msg : IvpMessage) : Prop :=
  exists filters f, OrdMap.find receiver m = Some filters /\ f ∈ filters /\ accepts f msg.

Lemma str_is_spec s x : str_is s x = true <-> s = Some x.
Proof.
  destruct s as [s|]; cbn; [|done]. rewrite String.eqb_eq. naive_solver.
Qed.

Lemma mask_passes_spec mask flags :
  mask_passes mask flags = true <-> mask = 0 \/ Z.land mask flags > 0.
Proof. unfold mask_passes. rewrite orb_true_iff, Z.eqb_eq, Z.ltb_lt. lia. Qed.

Lemma any_filter_spec filters msg :
  any_filter filters msg = true <-> exists f, f ∈ filters /\ accepts f msg.
Proof.
  induction filters as [|f fs IH]; cbn [any_filter]; [set_solver|].
  assert ((exists f', f' ∈ f :: fs /\ accepts f' msg) <->
    accepts f msg \/ exists f', f' ∈ fs /\ accepts f' msg) as -> by set_solver.
  rewrite <- IH. unfold accepts. rewrite <- mask_passes_spec.
  rewrite <- (str_is_spec (msg_type msg)), <- (str_is_spec (IvpMsg.subtype msg)), <- !String.eqb_eq.
  destruct (mask_passes _ _), (String.eqb (type f) "*"), (str_is (msg_type msg) _),
    (String.eqb (subtype f) "*"), (str_is (IvpMsg.subtype msg) _), (any_filter fs msg); cbn; naive_solver.
Qed.

Lemma elem_broadcast sender msg m r :
  r ∈ broadcastMessage sender msg m <->
  r <> sender /\ exists filters, (r, filters) ∈ m /\ any_filter filters msg = true.
Proof.
  induction m as [|[r' fs] m IH]; cbn [broadcastMessage]; [set_solver|].
  assert ((exists fs', (r, fs') ∈ (r', fs) :: m /\ any_filter fs' msg = true) <->
    (r = r' /\ any_filter fs msg = true) \/ exists fs', (r, fs') ∈ m /\ any_filter fs' msg = true) as ->.
  { setoid_rewrite elem_of_cons. naive_solver. }
  destruct (Z.eqb_spec sender r') as [->|Hne]; [rewrite IH; naive_solver|].
  destruct (any_filter fs msg) eqn:E; rewrite ?elem_of_cons, IH; naive_solver.
Qed.

Lemma broadcast_sublist sender msg m : sublist (broadcastMessage sender msg m) (map fst m).
Proof.
  induction m as [|[r fs] m IH]; cbn [broadcastMessage map fst]; [constructor|].
  destruct (sender =? r); [|destruct (any_filter fs msg)]; by constructor.
Qed.

Lemma find_register r fs m r' :
  OrdMap.find r' (registerReceiver r fs m) = if r' =? r then Some fs else OrdMap.find r' m.
Proof.
  unfold registerReceiver. rewrite OrdMap.find_insert.
  destruct (Z.eqb_spec r' r) as [->|Hne]; [by rewrite OrdMap.keqb_refl|].
  apply OrdMap.keqb_false in Hne. by rewrite Hne.
Qed.

Lemma find_unregister r m r' :
  OrdMap.sorted m ->
  OrdMap.find r' (unregisterReceiver r m) = if r' =? r then None else OrdMap.find r' m.
Proof.
  intros Hs. unfold unregisterReceiver. rewrite OrdMap.find_erase by done.
  destruct (Z.eqb_spec r' r) as [->|Hne]; [by rewrite OrdMap.keqb_refl|].
  apply OrdMap.keqb_false in Hne. by rewrite Hne.
Qed.

Lemma elem_broadcast_subscribed sender msg m r :
  OrdMap.sorted m -> r ∈ broadcastMessage sender msg m <-> r <> sender /\ subscribed m r msg.
Proof.
  intros Hs. rewrite elem_broadcast. unfold subscribed.
  setoid_rewrite any_filter_spec. setoid_rewrite (fun fs => OrdMap.find_elem r fs m Hs). naive_solver.
Qed.

(** ** Properties *)

(** C16: routing is exact. A broadcast calls the receivers that are
    registered with at least one filter accepting the message, the sender
    excepted, each exactly once and in the order of the map; a filter
    accepts a message when its mask is 0 or shares a bit with the flags and
    its type is a star, or equals the type with an equal or star subtype. *)
Theorem broadcast_exact sender msg m :
  OrdMap.sorted m ->
  (forall r, r ∈ broadcastMessage sender msg m <-> r <> sender /\ subscribed m r msg) /\
  NoDup (broadcastMessage sender msg m) /\
  sublist (broadcastMessage sender msg m) (map fst m).
Proof.
  intros Hs. split_and!; [intros r; by apply elem_broadcast_subscribed| |apply broadcast_sublist].
  eapply sublist_NoDup; [|by apply broadcast_sublist]. by apply OrdMap.sorted_NoDup.
Qed.

Definition bsm : IvpMessage := mkMsg (Some "J2735") (Some "BSM") None 0 None 0 1 None None.
Definition example_router : t :=
  registerReceiver 30 [mkFilter "J2735" "SPAT" 0; mkFilter "*" "" 2; mkFilter "J2735" "*" 1]
    (registerReceiver 10 [mkFilter "*" "" 0] (registerReceiver 20 [mkFilter "J2735" "BSM" 2] [])).

Lemma broadcast_exact_witness :
  broadcastMessage 40 bsm example_router = [10; 30] /\
  (forall r, r ∈ broadcastMessage 10 bsm example_router <-> r <> 10 /\ subscribed example_router r bsm) /\
  NoDup (broadcastMessage 10 bsm example_router) /\
  sublist (broadcastMessage 10 bsm example_router) (map fst example_router).
Proof.
  split; [reflexivity|]. apply broadcast_exact. unfold example_router, registerReceiver.
  auto with ordmap.
Defined.

(** Registration replaces, unregistration removes. After
    [registerReceiver r fs] the receiver [r] gets exactly the messages of
    others that a filter of [fs] accepts (none for the empty list), after
    [unregisterReceiver r] it gets none, and in both cases every other
    receiver gets what it got before; the map stays ordered. *)
Theorem registration_effect m r fs sender msg :
  OrdMap.sorted m ->
  let m1 := registerReceiver r fs m in
  let m2 := unregisterReceiver r m in
  OrdMap.sorted m1 /\ OrdMap.sorted m2 /\
  (r ∈ broadcastMessage sender msg m1 <-> r <> sender /\ exists f, f ∈ fs /\ accepts f msg) /\
  (r ∉ broadcastMessage sender msg m2) /\
  (forall r', r' <> r ->
    (r' ∈ broadcastMessage sender msg m1 <-> r' ∈ broadcastMessage sender msg m) /\
    (r' ∈ broadcastMessage sender msg m2 <-> r' ∈ broadcastMessage sender msg m)).
Proof.
  intros Hs m1 m2.
  assert (OrdMap.sorted m1) as H1 by (apply OrdMap.sorted_insert; done).
  assert (OrdMap.sorted m2) as H2 by (apply OrdMap.sorted_erase; done).
  split_and!; [done..| | |].
  - rewrite elem_broadcast_subscribed by done. unfold subscribed, m1.
    rewrite find_register, Z.eqb_refl. naive_solver.
  - rewrite elem_broadcast_subscribed by done. unfold subscribed, m2.
    rewrite find_unregister, Z.eqb_refl by done. naive_solver.
  - intros r' Hr%Z.eqb_neq. rewrite !elem_broadcast_subscribed by done. unfold subscribed, m1, m2.
    by rewrite find_register, find_unregister, Hr by done.
Qed.

Lemma registration_effect_witness :
  let m1 := registerReceiver 20 [] example_router in
  let m2 := unregisterReceiver 20 example_router in
  OrdMap.sorted m1 /\ OrdMap.sorted m2 /\
  (20 ∈ broadcastMessage 0 bsm m1 <-> 20 <> 0 /\ exists f, f ∈ [] /\ accepts f bsm) /\
  (20 ∉ broadcastMessage 0 bsm m2) /\
  (forall r', r' <> 20 ->
    (r' ∈ broadcastMessage 0 bsm m1 <-> r' ∈ broadcastMessage 0 bsm example_router) /\
    (r' ∈ broadcastMessage 0 bsm m2 <-> r' ∈ broadcastMessage 0 bsm example_router)).
Proof. apply registration_effect. unfold example_router, registerReceiver. auto with ordmap. Defined.
End Router.

(** ** Broadcasts and registrations as concurrent threads

    [broadcastMessage] increments [mActiveBroadcasts], walks the map without a
    lock and decrements the counter; [registerReceiver] and
    [unregisterReceiver] take [mMapLock], wait until they read a zero counter
    and change the map. Each of these moments is one atomic step. *)
Module RouterThreads.
Inductive pc :=
| Idle
| Broadcasting   (** between the two counter updates, reading the map *)
| Waiting        (** holds the lock, polls the counter *)
| Writing.       (** has read a zero counter, changes the map *)

#[export] Instance pc_eq_dec : EqDecision pc.
Proof. solve_decision. Defined.

Record state := mkState { mActiveBroadcasts : Z; mMapLock : option nat; pcs : list pc }.

Definition initial (threads : nat) : state := mkState 0 None (replicate threads Idle).

Inductive step : state -> state -> Prop :=
| step_begin s t :
    pcs s !! t = Some Idle ->
    step s (mkState (mActiveBroadcasts s + 1) (mMapLock s) (<[t := Broadcasting]> (pcs s)))
| step_end s t :
    pcs s !! t = Some Broadcasting ->
    step s (mkState (mActiveBroadcasts s - 1) (mMapLock s) (<[t := Idle]> (pcs s)))
| step_lock s t :
    pcs s !! t = Some Idle -> mMapLock s = None ->
    step s (mkState (mActiveBroadcasts s) (Some t) (<[t := Waiting]> (pcs s)))
| step_pass s t :
    pcs s !! t = Some Waiting -> ~ mActiveBroadcasts s > 0 ->
    step s (mkState (mActiveBroadcasts s) (mMapLock s) (<[t := Writing]> (pcs s)))
| step_unlock s t :
    pcs s !! t = Some Writing ->
    step s (mkState (mActiveBroadcasts s) None (<[t := Idle]> (pcs s))).

Definition reachable (n : nat) (s : state) : Prop := rtc step (initial n) s.

Definition holds_lock (p : pc) : Prop := p = Waiting \/ p = Writing.
Definition broadcasts (l : list pc) : nat := length (filter (fun p => p = Broadcasting) l).

Record inv (s : state) : Prop := {
  inv_count : mActiveBroadcasts s = Z.of_nat (broadcasts (pcs s));
  inv_lock : forall t p, pcs s !! t = Some p -> holds_lock p -> mMapLock s = Some t
}.

Definition one (p : pc) : nat := if decide (p = Broadcasting) then 1 else 0.

Lemma broadcasts_update l t p p' :
  l !! t = Some p -> (broadcasts (<[t := p']> l) + one p = broadcasts l + one p')%nat.
Proof.
  unfold broadcasts, one. revert t. induction l as [|q l IH]; intros [|t] E; try done; cbn in E.
  - injection E as ->. destruct p, p'; cbn; repeat case_decide; simplify_eq/=; lia.
  - specialize (IH t E). change (<[S t := p']> (q :: l)) with (q :: <[t := p']> l).
    rewrite !filter_cons. destruct (decide (q = Broadcasting)); cbn [length]; lia.
Qed.

Lemma lookup_update (l : list pc) t p p' u q :
  l !! t = Some p -> <[t := p']> l !! u = Some q -> (u = t /\ q = p') \/ (u <> t /\ l !! u = Some q).
Proof.
  intros Ht Hu. apply list_lookup_insert_Some in Hu as [(-> & -> & _)|[? ?]]; auto.
Qed.

Lemma inv_initial n : inv (initial n).
Proof.
  constructor; cbn.
  - unfold broadcasts. by induction n; cbn.
  - intros t p [-> _]%lookup_replicate [?|?]; done.
Qed.

Lemma count_step s s' :
  step s s' -> mActiveBroadcasts s = Z.of_nat (broadcasts (pcs s)) ->
  mActiveBroadcasts s' = Z.of_nat (broadcasts (pcs s')).
Proof.
  intros Hst Hc. inversion Hst as [? t Ht|? t Ht|? t Ht Hlk|? t Ht Ha|? t Ht]; subst;
    cbn [mActiveBroadcasts pcs];
    match goal with |- context [<[t := ?p']> _] =>
      pose proof (broadcasts_update (pcs s) t _ p' Ht) as Hu end;
    unfold one in Hu; repeat case_decide; simplify_eq; lia.
Qed.

(** One thread's move, seen from the lock. *)
Lemma lock_move (l : list pc) (t : nat) (p p' : pc) (lk lk' : option nat) :
  l !! t = Some p ->
  (forall t p, l !! t = Some p -> holds_lock p -> lk = Some t) ->
  (forall u, u <> t -> lk = Some u -> lk' = Some u) -> (holds_lock p' -> lk' = Some t) ->
  forall (u : nat) (q : pc), <[t := p']> l !! u = Some q -> holds_lock q -> lk' = Some u.
Proof.
  intros Ht Hlk Hother Hself u q Hu Hq.
  destruct (lookup_update _ _ _ _ _ _ Ht Hu) as [[-> ->]|[Hne Hu']]; [auto|].
  apply (Hother u Hne), (Hlk u q Hu' Hq).
Qed.

Lemma inv_step s s' : step s s' -> inv s -> inv s'.
Proof.
  intros Hst [Hc Hk]. constructor; [by apply (count_step s)|].
  inversion Hst as [? t Ht|? t Ht|? t Ht Hlk|? t Ht Ha|? t Ht]; subst; cbn [mMapLock pcs];
    apply (lock_move (pcs s) t _ _ (mMapLock s) _ Ht Hk); try done; try by intros [?|?].
  - intros u _ Hu. congruence.
  - intros _. apply (Hk t Waiting Ht). by left.
  - intros u Hne Hu. exfalso. apply Hne.
    assert (mMapLock s = Some t) by (apply (Hk t Writing Ht); by right). congruence.
Qed.

Lemma inv_reachable n s : reachable n s -> inv s.
Proof.
  unfold reachable. intros H. remember (initial n) as s0.
  assert (inv s0) as H0 by (subst; apply inv_initial). clear Heqs0.
  induction H; [done|]. eauto using inv_step.
Qed.

(** What the lock and the counter do guarantee. In every reachable
    state, whatever the number of threads and the interleaving, the counter
    is the number of broadcasts in progress (it is never negative and never
    leaks), and at most one thread is registering or unregistering: the one
    that holds the lock. *)
Theorem registration_exclusive n s :
  reachable n s ->
  mActiveBroadcasts s = Z.of_nat (broadcasts (pcs s)) /\
  (forall t u p q, pcs s !! t = Some p -> pcs s !! u = Some q -> holds_lock p -> holds_lock q -> t = u).
Proof.
  intros [Hc Hk]%inv_reachable. split; [done|]. intros t u p q Ht Hu Hp Hq.
  pose proof (Hk t p Ht Hp). pose proof (Hk u q Hu Hq). congruence.
Qed.

Lemma registration_exclusive_witness :
  let s := mkState 1 (Some 1%nat) [Broadcasting; Waiting] in
  mActiveBroadcasts s = Z.of_nat (broadcasts (pcs s)) /\
  (forall t u p q, pcs s !! t = Some p -> pcs s !! u = Some q -> holds_lock p -> holds_lock q -> t = u).
Proof.
  apply (registration_exclusive 2). eapply rtc_l; [apply (step_begin (initial 2) 0%nat eq_refl)|].
  eapply rtc_l; [|apply rtc_refl]. exact (step_lock (mkState 1 None [Broadcasting; Idle]) 1%nat eq_refl eq_refl).
Defined.

(** The counter does not keep a broadcast from starting during a
    registration. With two threads a state is reachable in which one walks
    the map while the other, having read a zero counter, modifies it; there,
    the broadcast may even have been the later of the two to start. *)
Theorem broadcast_registration_race :
  exists s, reachable 2 s /\ pcs s = [Broadcasting; Writing] /\ mActiveBroadcasts s = 1 /\
    exists s0, reachable 2 s0 /\ pcs s0 = [Idle; Writing] /\ step s0 s.
Proof.
  assert (reachable 2 (mkState 0 (Some 1%nat) [Idle; Writing])) as H0.
  { eapply rtc_l; [apply (step_lock (initial 2) 1%nat eq_refl eq_refl)|].
    eapply rtc_l; [apply (step_pass (mkState 0 (Some 1%nat) [Idle; Waiting]) 1%nat eq_refl); done|].
    apply rtc_refl. }
  pose proof (step_begin (mkState 0 (Some 1%nat) [Idle; Writing]) 0%nat eq_refl) as Hs.
  eexists. split; [eapply rtc_r; [exact H0|exact Hs]|]. split; [done|]. split; [done|].
  eexists. split; [exact H0|]. split; [done|exact Hs].
Qed.
End RouterThreads.
