(* ===== verification/CorePlugin.v ===== *)
(** The plugin base class of the core,
    [src/src/tmx/TmxCore/src/Plugin.cpp], over the router.

    The state of the process is a record; an operation of a plugin object is a
    computation that changes the state and returns or throws, so that what was
    changed before a [throw] stays changed. The database behind the
    [*Context] classes is an interface whose operations may fail, which the
    code sees as a [DbException]; what a failed operation did to the tables is
    not assumed. *)
From S2P Require Import Prelude Json IvpMessage OrdMap Router.
Import IvpMsg.
Open Scope Z_scope.

Module Core.
Record PluginEntry := mkPluginEntry { id : Z; name : string; description : string; version : string }.
Record ConfigEntry := mkConfig {
  c_id : Z; c_pluginId : Z; c_key : string; c_value : string; c_default : string; c_description : string }.
(** The constructor with a key, a default and a description. *)
Definition PluginConfigurationParameterEntry (key defaultValue description : string) : ConfigEntry :=
  mkConfig 0 0 key defaultValue defaultValue description.
Record MessageTypeEntry := mkMessageType { t_type : string; t_subtype : string; t_description : string }.
Record RegistrationInformation := mkInfo {
  pluginInfo : PluginEntry;
  configDefaultEntries : list ConfigEntry;
  messageTypeEntries : list MessageTypeEntry }.

(** What the code calls on the database; [None] is a [DbException]. *)
Class Database (DB : Type) := {
  insertOrUpdatePlugin : PluginEntry -> DB -> option Z * DB;
  initializePluginConfigParameters : Z -> list ConfigEntry -> DB -> option unit * DB;
  getPluginConfigParameters : Z -> DB -> option (list (string * ConfigEntry)) * DB;
  updatePluginConfigParameterValue : ConfigEntry -> DB -> option unit * DB;
  insertMessageType : MessageTypeEntry -> DB -> option Z * DB;
  mapPluginToMessageType : Z -> Z -> DB -> option unit * DB;
  db_setPluginStatus : Z -> string -> DB -> option unit * DB;
  setPluginStatusItems : Z -> list (string * string) -> DB -> option unit * DB;
  removePluginStatusItems : Z -> list string -> DB -> option unit * DB;
  removeAllPluginStatusItems : Z -> DB -> option unit * DB
}.

(** Exceptions; the first three are [PluginException] and its subclasses. *)
Inductive exn :=
| PluginException
| PluginNotRegisteredException
| UnknownConfigurationKeyException
| DbException
| LogicError      (** [std::string] built from a null pointer *)
| NullPointer.    (** a null pointer passed to [strcmp] *)
Definition is_PluginException (e : exn) : bool :=
  match e with
  | PluginException | PluginNotRegisteredException | UnknownConfigurationKeyException => true
  | _ => false
  end.
Definition is_DbException (e : exn) : bool := match e with DbException => true | _ => false end.

Definition is_UnknownKey (e : exn) : bool :=
  match e with UnknownConfigurationKeyException => true | _ => false end.

(** The members of a [Plugin] object. *)
Record Plugin := mkPlugin {
  mRegistered : bool;
  mInfo : PluginEntry;
  mConfigValues : list (string * ConfigEntry) }.
Definition Plugin_new : Plugin := mkPlugin false (mkPluginEntry 0 "" "" "") [].

Definition IVP_STATUS_RUNNING : string := "Running".
Definition IVP_STATUS_STOPPED_DISCONNECTED : string := "Stopped / Disconnected".
Definition LogLevel_Info : Z := 1.
Definition LogLevel_Warning : Z := 2.

Declare Scope core_scope.
Delimit Scope core_scope with core.

Section core.
Context {DB : Type} `{Database DB}.

(** The process: the set of names in use, the router, the live plugin objects
    by address, the database, the messages handed to receivers and the event
    log, both in order. *)
Record Core := mkCore {
  clientNames : gset string;
  router : Router.t;
  plugins : gmap Z Plugin;
  db : DB;
  sent : list (Z * IvpMessage);
  events : list (string * Z * string) }.

Definition set_clientNames n s := mkCore n (router s) (plugins s) (db s) (sent s) (events s).
Definition set_router r s := mkCore (clientNames s) r (plugins s) (db s) (sent s) (events s).
Definition set_plugins p s := mkCore (clientNames s) (router s) p (db s) (sent s) (events s).
Definition set_db d s := mkCore (clientNames s) (router s) (plugins s) d (sent s) (events s).
Definition add_sent l s := mkCore (clientNames s) (router s) (plugins s) (db s) (sent s ++ l) (events s).
Definition add_event e s := mkCore (clientNames s) (router s) (plugins s) (db s) (sent s) (events s ++ [e]).

(** Computations *)
Definition M (A : Type) : Type := Core -> (exn + A) * Core.
Definition ret {A} (a : A) : M A := fun s => (inr a, s).
Definition throw {A} (e : exn) : M A := fun s => (inl e, s).
Definition bind {A B} (m : M A) (f : A -> M B) : M B := fun s =>
  match m s with
  | (inr a, s') => f a s'
  | (inl e, s') => (inl e, s')
  end.
Definition modify (f : Core -> Core) : M unit := fun s => (inr tt, f s).
Definition gets {A} (f : Core -> A) : M A := fun s => (inr (f s), s).
(** [try m catch (T &e) { h }] for the exceptions [T] matches. *)
Definition try_catch {A} (m : M A) (matches : exn -> bool) (h : M A) : M A := fun s =>
  match m s with
  | (inl e, s') => if matches e then h s' else (inl e, s')
  | r => r
  end.
Definition call_db {A} (f : DB -> option A * DB) : M A := fun s =>
  match f (db s) with
  | (Some a, d) => (inr a, set_db d s)
  | (None, d) => (inl DbException, set_db d s)
  end.
Fixpoint for_each {A} (l : list A) (f : A -> M unit) : M unit :=
  match l with
  | [] => ret tt
  | a :: l' => bind (f a) (fun _ => for_each l' f)
  end.

Local Notation "'let!' x := m 'in' k" := (bind m (fun x => k))
  (at level 10, x pattern, m at level 100, k at level 200) : core_scope.
Local Notation "m ;; k" := (bind m (fun _ => k)) (at level 100, right associativity) : core_scope.
Local Open Scope core_scope.

(** ** Members of a plugin; [p] is the address of the object *)
Definition this (p : Z) (s : Core) : Plugin := default Plugin_new (plugins s !! p).
Definition update_this (p : Z) (f : Plugin -> Plugin) : M unit :=
  modify (fun s => set_plugins (<[p := f (this p s)]> (plugins s)) s).

(** The test every operation starts with. *)
Definition require_registered (p : Z) : M unit :=
  let! pl := gets (this p) in
  if mRegistered pl then ret tt else throw PluginNotRegisteredException.

(** Database errors are reported as [PluginException]. *)
Definition db_guard {A} (m : M A) : M A := try_catch m is_DbException (throw PluginException).

Definition subscribeForMessages (p : Z) (filter : list Router.MessageFilterEntry) : M unit :=
  require_registered p ;;
  modify (fun s => set_router (Router.registerReceiver p filter (router s)) s).

Definition setPluginStatus (p : Z) (status : string) : M unit :=
  require_registered p ;;
  let! pl := gets (this p) in
  db_guard (call_db (db_setPluginStatus (id (mInfo pl)) status)).

Definition setStatusItems (p : Z) (statusItems : list (string * string)) : M unit :=
  require_registered p ;;
  let! pl := gets (this p) in
  db_guard (call_db (setPluginStatusItems (id (mInfo pl)) statusItems)).

Definition removeStatusItems (p : Z) (itemKeys : list string) : M unit :=
  require_registered p ;;
  let! pl := gets (this p) in
  db_guard (call_db (removePluginStatusItems (id (mInfo pl)) itemKeys)).

Definition addEventLogEntry (p : Z) (level : Z) (description : string) : M unit :=
  require_registered p ;;
  let! pl := gets (this p) in
  modify (add_event (name (mInfo pl), level, description)).

(** The message with the sender's name and id. *)
Definition stamp (info : PluginEntry) (m : IvpMessage) : IvpMessage :=
  mkMsg (msg_type m) (subtype m) (Some (name info)) (id info) (encoding m) (timestamp m) (flags m)
    (dsrcMetadata m) (payload m).

(** [MessageRouterClient::sendMessageToRouter]: the receivers of the broadcast. *)
Definition broadcast (p : Z) (m : IvpMessage) : M unit :=
  modify (fun s => add_sent (map (fun r => (r, m)) (Router.broadcastMessage p m (router s))) s).
Definition sendMessageToRouter (p : Z) (m : IvpMessage) : M unit :=
  require_registered p ;;
  let! pl := gets (this p) in
  broadcast p (stamp (mInfo pl) m).

Definition getConfigValue (p : Z) (key : string) : M string :=
  require_registered p ;;
  let! pl := gets (this p) in
  match OrdMap.find key (mConfigValues pl) with
  | None => throw UnknownConfigurationKeyException
  | Some e => ret (c_value e)
  end.

Definition getAllConfigValues (p : Z) : M (list (string * ConfigEntry)) :=
  require_registered p ;;
  let! pl := gets (this p) in
  ret (mConfigValues pl).

Definition with_value (e : ConfigEntry) (value : string) : ConfigEntry :=
  mkConfig (c_id e) (c_pluginId e) (c_key e) value (c_default e) (c_description e).
(** A database error is only logged. *)
Definition setConfigValue (p : Z) (key value : string) : M unit :=
  require_registered p ;;
  let! pl := gets (this p) in
  match OrdMap.find key (mConfigValues pl) with
  | None => throw UnknownConfigurationKeyException
  | Some e =>
      try_catch (call_db (updatePluginConfigParameterValue (with_value e value))) is_DbException (ret tt)
  end.

Definition with_id (e : PluginEntry) (i : Z) : PluginEntry :=
  mkPluginEntry i (name e) (description e) (version e).

(** The database part of [registerPlugin]: the row's id and the configuration. *)
Definition register_in_db (info : RegistrationInformation) : M (Z * list (string * ConfigEntry)) :=
  let! i := call_db (insertOrUpdatePlugin (pluginInfo info)) in
  call_db (initializePluginConfigParameters i (configDefaultEntries info)) ;;
  let! configMap := call_db (getPluginConfigParameters i) in
  for_each (messageTypeEntries info) (fun e =>
    let! t := call_db (insertMessageType e) in
    call_db (mapPluginToMessageType i t)) ;;
  ret (i, configMap).

(** [registerPlugin] once the name is taken, and all of it. *)
Definition announce (now p : Z) : M unit :=
  addEventLogEntry p LogLevel_Info "Plugin registered" ;;
  setPluginStatus p IVP_STATUS_RUNNING ;;
  sendMessageToRouter p (ivpMsg_create now None None None IvpMsgFlags_None None).
Definition complete_registration (now p : Z) (info : RegistrationInformation) : M unit :=
  let! r := db_guard (register_in_db info) in
  update_this p (fun _ => mkPlugin true (with_id (pluginInfo info) (fst r)) (snd r)) ;;
  announce now p.
Definition registerPlugin (now p : Z) (info : RegistrationInformation) : M unit :=
  let n := name (pluginInfo info) in
  if String.eqb n "" then throw PluginException
  else
    let! names := gets clientNames in
    if bool_decide (n ∈ names) then throw PluginException
    else
      modify (fun s => set_clientNames ({[n]} ∪ names) s) ;;
      complete_registration now p info.

(** The destructors of [Plugin] and [MessageRouterClient], in that order. *)
Definition destroyPlugin (p : Z) : M unit :=
  let! pl := gets (this p) in
  modify (fun s => set_clientNames (clientNames s ∖ {[name (mInfo pl)]}) s) ;;
  (if mRegistered pl then addEventLogEntry p LogLevel_Warning "Plugin deconstructing" else ret tt) ;;
  try_catch (subscribeForMessages p [] ;; setPluginStatus p IVP_STATUS_STOPPED_DISCONNECTED)
    is_PluginException (ret tt) ;;
  try_catch (call_db (removeAllPluginStatusItems (id (mInfo pl)))) is_DbException (ret tt) ;;
  modify (fun s => set_router (Router.unregisterReceiver p (router s)) s) ;;
  modify (fun s => set_plugins (delete p (plugins s)) s).

(** One round of the configuration monitor: the first loop compares the known
    entries with the database and reports changes; it returns the new values,
    the entries of the database that were not met and the changed entries. *)
Fixpoint monitor_known (known configMap : list (string * ConfigEntry))
  : list (string * ConfigEntry) * list (string * ConfigEntry) * list ConfigEntry :=
  match known with
  | [] => ([], configMap, [])
  | (k, e) :: known' =>
      match OrdMap.find k configMap with
      | None =>
          let '(vs, rest, ch) := monitor_known known' configMap in ((k, e) :: vs, rest, ch)
      | Some e' =>
          let '(vs, rest, ch) := monitor_known known' (OrdMap.erase k configMap) in
          if String.eqb (c_value e') (c_value e) then ((k, e) :: vs, rest, ch)
          else ((k, e') :: vs, rest, e' :: ch)
      end
  end.
Definition monitor_new (values rest : list (string * ConfigEntry)) : list (string * ConfigEntry) :=
  foldl (fun vs e => OrdMap.insert e.1 e.2 vs) values rest.

(** [onConfigChanged] is the virtual method, given as an argument; the values
    are stored before it is called, which no handler observes. *)
Definition configMonitor (onConfigChanged : Z -> string -> string -> M unit) (p : Z) : M unit :=
  let! pl := gets (this p) in
  if negb (mRegistered pl) then ret tt
  else
    let! r := try_catch
      (let! configMap := call_db (getPluginConfigParameters (id (mInfo pl))) in ret (Some configMap))
      is_DbException (ret None) in
    match r with
    | None => ret tt
    | Some configMap =>
        let '(values, rest, changed) := monitor_known (mConfigValues pl) configMap in
        update_this p (fun pl => mkPlugin (mRegistered pl) (mInfo pl) (monitor_new values rest)) ;;
        for_each changed (fun e => onConfigChanged p (c_key e) (c_value e)) ;;
        for_each (map snd rest) (fun e =>
          try_catch (onConfigChanged p (c_key e) (c_value e)) is_UnknownKey (ret tt))
    end.

(** ** Reasoning about computations: what one does to the state, whether it
    returns or throws, as a preorder on states *)
Definition keeps {A} (R : Core -> Core -> Prop) (m : M A) : Prop := forall s, R s (snd (m s)).

Section keeps.
Context (R : Core -> Core -> Prop) `{!PreOrder R}.

Lemma keeps_ret {A} (a : A) : keeps R (ret a).
Proof. intros s. cbn. reflexivity. Qed.
Lemma keeps_throw {A} e : keeps R (throw (A := A) e).
Proof. intros s. cbn. reflexivity. Qed.
Lemma keeps_gets {A} (f : Core -> A) : keeps R (gets f).
Proof. intros s. cbn. reflexivity. Qed.
Lemma keeps_bind {A B} (m : M A) (f : A -> M B) :
  keeps R m -> (forall a, keeps R (f a)) -> keeps R (bind m f).
Proof.
  intros Hm Hf s. unfold bind. specialize (Hm s). destruct (m s) as [[e|a] s1]; cbn in *; [done|].
  etransitivity; [exact Hm|apply Hf].
Qed.
Lemma keeps_try {A} (m h : M A) c : keeps R m -> keeps R h -> keeps R (try_catch m c h).
Proof.
  intros Hm Hh s. unfold try_catch. specialize (Hm s). destruct (m s) as [[e|a] s1]; cbn in *; [|done].
  destruct (c e); cbn; [|done]. etransitivity; [exact Hm|apply Hh].
Qed.
Lemma keeps_for_each {A} (l : list A) f : (forall a, keeps R (f a)) -> keeps R (for_each l f).
Proof. intros Hf. induction l; cbn; [apply keeps_ret|]. by apply keeps_bind. Qed.
Lemma keeps_modify f : (forall s, R s (f s)) -> keeps R (modify f).
Proof. intros Hf s. apply Hf. Qed.
Lemma keeps_call_db {A} (f : DB -> option A * DB) : (forall s d, R s (set_db d s)) -> keeps R (call_db f).
Proof. intros Hd s. unfold call_db. destruct (f (db s)) as [[a|] d]; apply Hd. Qed.
End keeps.

(** Nothing but the database changes. *)
Definition only_db (s s' : Core) : Prop := s' = set_db (db s') s.
#[global] Instance only_db_preorder : PreOrder only_db.
Proof.
  split; [by intros []|]. intros s1 s2 s3 E1 E2. unfold only_db in *. rewrite E2, E1. done.
Qed.

(** The names and the identities of the plugins stay. *)
Definition identity (p : Z) (s : Core) : bool * PluginEntry := (mRegistered (this p s), mInfo (this p s)).
Definition same_names (s s' : Core) : Prop :=
  clientNames s' = clientNames s /\ forall p, identity p s' = identity p s.
#[global] Instance same_names_preorder : PreOrder same_names.
Proof.
  split; [by split|]. intros s1 s2 s3 [E1 H1] [E2 H2]. split; [congruence|].
  intros p. by rewrite H2.
Qed.

(** The names and the plugins stay, and only [p] is sent anything. *)
Definition only_self (p : Z) (s s' : Core) : Prop :=
  same_names s s' /\ exists l, sent s' = sent s ++ l /\ Forall (fun e => e.1 = p) l.
#[global] Instance only_self_preorder p : PreOrder (only_self p).
Proof.
  split; [split; [reflexivity|exists []; by rewrite app_nil_r]|].
  intros s1 s2 s3 [N1 (l1 & E1 & F1)] [N2 (l2 & E2 & F2)]. split; [by etransitivity|].
  exists (l1 ++ l2). rewrite E2, E1, <- app_assoc. split; [done|]. by apply Forall_app.
Qed.

Lemma only_self_same s s' p : only_self p s s' -> same_names s s'.
Proof. by intros [? _]. Qed.

Lemma keeps_weaken {A} (R R' : Core -> Core -> Prop) (m : M A) :
  (forall s s', R s s' -> R' s s') -> keeps R m -> keeps R' m.
Proof. intros HR Hm s. apply HR, Hm. Qed.

Lemma only_db_self p s s' : only_db s s' -> only_self p s s'.
Proof.
  intros E. unfold only_db in E. rewrite E. split; [by split|]. exists []. by rewrite app_nil_r.
Qed.

Lemma only_self_sent p l s :
  Forall (fun e => e.1 = p) l -> only_self p s (add_sent l s).
Proof. intros Hl. split; [by split|]. by exists l. Qed.
Lemma only_self_event p e s : only_self p s (add_event e s).
Proof. split; [by split|]. exists []. by rewrite app_nil_r. Qed.
Lemma only_self_router p r s : only_self p s (set_router r s).
Proof. split; [by split|]. exists []. by rewrite app_nil_r. Qed.
Lemma only_self_db p d s : only_self p s (set_db d s).
Proof. split; [by split|]. exists []. by rewrite app_nil_r. Qed.
End core.
Arguments Core : clear implicits.
Arguments M : clear implicits.

Notation "'let!' x := m 'in' k" := (bind m (fun x => k))
  (at level 10, x pattern, m at level 100, k at level 200) : core_scope.
Notation "m ;; k" := (bind m (fun _ => k)) (at level 100, right associativity) : core_scope.
End Core.

Create HintDb keeps.
#[export] Hint Resolve Core.keeps_ret Core.keeps_throw Core.keeps_gets Core.keeps_bind Core.keeps_try
  Core.keeps_for_each Core.only_self_sent Core.only_self_event Core.only_self_router Core.only_self_db : keeps.

(** Decompose a computation into its parts. *)
Ltac keeps_step :=
  match goal with
  | |- Core.keeps _ (Core.ret _) => apply Core.keeps_ret; apply _
  | |- Core.keeps _ (Core.throw _) => apply Core.keeps_throw; apply _
  | |- Core.keeps _ (Core.gets _) => apply Core.keeps_gets; apply _
  | |- Core.keeps _ (Core.bind _ _) => apply Core.keeps_bind; [apply _| |intros ?]
  | |- Core.keeps _ (Core.try_catch _ _ _) => apply Core.keeps_try; [apply _| |]
  | |- Core.keeps _ (Core.for_each _ _) => apply Core.keeps_for_each; [apply _|intros ?]
  | |- Core.keeps _ (Core.modify _) => apply Core.keeps_modify; intros ?; auto with keeps
  | |- Core.keeps _ (Core.call_db _) => apply Core.keeps_call_db; intros ? ?; auto with keeps
  | |- Core.keeps _ (match ?x with _ => _ end) => destruct x
  end.
Ltac keeps := repeat (keeps_step || solve [auto with keeps]).

Module CoreFacts.
Import Core.
Section facts.
Context {DB : Type} `{Database DB}.
Local Open Scope core_scope.
Implicit Types s : Core DB.

Lemma self_require q p : keeps (DB := DB) (only_self q) (require_registered p).
Proof. unfold require_registered. keeps. Qed.
Lemma self_guard q {A} (m : M DB A) : keeps (only_self q) m -> keeps (only_self q) (db_guard m).
Proof. intros. unfold db_guard. keeps. Qed.
#[local] Hint Resolve self_require self_guard : keeps.

Lemma self_subscribe q p f : keeps (DB := DB) (only_self q) (subscribeForMessages p f).
Proof. unfold subscribeForMessages. keeps. Qed.
Lemma self_setPluginStatus q p st : keeps (DB := DB) (only_self q) (setPluginStatus p st).
Proof. unfold setPluginStatus, db_guard. keeps. Qed.
Lemma self_setStatusItems q p l : keeps (DB := DB) (only_self q) (setStatusItems p l).
Proof. unfold setStatusItems, db_guard. keeps. Qed.
Lemma self_removeStatusItems q p l : keeps (DB := DB) (only_self q) (removeStatusItems p l).
Proof. unfold removeStatusItems, db_guard. keeps. Qed.
Lemma self_addEventLogEntry q p l d : keeps (DB := DB) (only_self q) (addEventLogEntry p l d).
Proof. unfold addEventLogEntry. keeps. Qed.
Lemma self_setConfigValue q p k v : keeps (DB := DB) (only_self q) (setConfigValue p k v).
Proof. unfold setConfigValue. keeps. Qed.
Lemma self_getAllConfigValues q p : keeps (DB := DB) (only_self q) (getAllConfigValues p).
Proof. unfold getAllConfigValues. keeps. Qed.

Lemma db_register info : keeps (DB := DB) only_db (register_in_db info).
Proof. unfold register_in_db. keeps; done. Qed.
Lemma db_guard_db {A} (m : M DB A) : keeps only_db m -> keeps only_db (db_guard m).
Proof. intros. unfold db_guard. apply keeps_try; [apply _|done|apply keeps_throw; apply _]. Qed.

(** A computation that returns has returned at every step. *)
Lemma bind_inr {A B} (m : M DB A) (f : A -> M DB B) s b s' :
  bind m f s = (inr b, s') -> exists a s1, m s = (inr a, s1) /\ f a s1 = (inr b, s').
Proof. unfold bind. destruct (m s) as [[e|a] s1]; [done|]. eauto. Qed.

Lemma identity_update p q f s :
  identity q (set_plugins (<[p := f (this p s)]> (plugins s)) s) =
  if decide (q = p) then (mRegistered (f (this p s)), mInfo (f (this p s))) else identity q s.
Proof.
  unfold identity. unfold this at 1 3. cbn [plugins set_plugins].
  destruct (decide (q = p)) as [->|Hne]; [by rewrite lookup_insert_eq|by rewrite lookup_insert_ne].
Qed.

Lemma sends_same_names p m : keeps (DB := DB) same_names (sendMessageToRouter p m).
Proof. unfold sendMessageToRouter, require_registered, broadcast. keeps; done. Qed.

(** ** Names *)
Record names_inv s : Prop := {
  names_used : forall p, fst (identity p s) = true ->
    name (snd (identity p s)) ∈ clientNames s /\ name (snd (identity p s)) <> ""%string;
  names_empty : forall p, fst (identity p s) = false -> name (snd (identity p s)) = ""%string;
  names_unique : forall p q, fst (identity p s) = true -> fst (identity q s) = true ->
    name (snd (identity p s)) = name (snd (identity q s)) -> p = q
}.

Lemma names_inv_same s s' : same_names s s' -> names_inv s -> names_inv s'.
Proof.
  intros [Hn Hi] [H1 H2 H3]. constructor; setoid_rewrite Hi; rewrite ?Hn; auto.
Qed.

Lemma keeps_same p {A} (m : M DB A) : keeps (only_self p) m -> keeps same_names m.
Proof. intros Hm s. eapply only_self_same, Hm. Qed.

Lemma announce_names now p : keeps (DB := DB) same_names (announce now p).
Proof.
  unfold announce. keeps_step; [|keeps_step; [|apply sends_same_names]].
  - apply (keeps_same p), self_addEventLogEntry.
  - apply (keeps_same p), self_setPluginStatus.
Qed.

(** Completing a registration changes no name, or gives [p] its identity. *)
Lemma complete_registration_names now p info s :
  let s' := snd (complete_registration now p info s) in
  clientNames s' = clientNames s /\
  ((forall q, identity q s' = identity q s) \/
   exists i, forall q, identity q s' =
     if decide (q = p) then (true, with_id (pluginInfo info) i) else identity q s).
Proof.
  cbv zeta. unfold complete_registration, update_this, modify, bind.
  pose proof (db_guard_db _ (db_register info) s) as Hdb. unfold only_db in Hdb.
  destruct (db_guard (register_in_db info) s) as [[e|[i cm]] s1]; cbn [snd] in *.
  - rewrite Hdb. split; [done|]. by left.
  - cbn [fst snd]. set (s2 := set_plugins _ s1). destruct (announce_names now p s2) as [En Ei].
    rewrite En. split; [unfold s2; by rewrite Hdb|]. right. exists i. intros q.
    rewrite Ei. unfold s2. rewrite (identity_update p q (fun _ => mkPlugin true (with_id (pluginInfo info) i) cm)).
    cbn. by rewrite Hdb.
Qed.

Lemma registerPlugin_inv now p info s : names_inv s -> names_inv (snd (registerPlugin now p info s)).
Proof.
  intros Hs. unfold registerPlugin. destruct (String.eqb_spec (name (pluginInfo info)) "") as [E|E]; [done|].
  unfold bind at 1, gets. case_bool_decide as Hn; [done|].
  unfold bind, modify. set (s1 := set_clientNames _ s).
  destruct (complete_registration_names now p info s1) as [Hc Hi].
  assert (forall q, identity q s1 = identity q s) as H1 by done.
  destruct Hs as [Hu He Hd].
  change (clientNames s1) with ({[name (pluginInfo info)]} ∪ clientNames s) in Hc.
  assert (forall x, x ∈ clientNames s -> x ∈ clientNames (snd (complete_registration now p info s1))) as Hsub.
  { intros x Hx. rewrite Hc. apply elem_of_union. by right. }
  destruct Hi as [Hi|[i Hi]].
  - constructor; intros *; rewrite !Hi, ?H1; [|apply He|apply Hd].
    intros Hp. destruct (Hu _ Hp). auto.
  - constructor.
    + intros q. rewrite !Hi. case_decide as Eq; cbn [fst snd name with_id]; rewrite ?H1.
      * intros _. split; [|done]. rewrite Hc. apply elem_of_union. left. by apply elem_of_singleton.
      * intros Hq. destruct (Hu _ Hq). auto.
    + intros q. rewrite !Hi. case_decide; cbn [fst]; [done|]. apply He.
    + intros q1 q2. rewrite !Hi. repeat case_decide; cbn [fst snd name with_id]; subst; rewrite ?H1; try done.
      * intros _ Hq Heq. destruct (Hu _ Hq). congruence.
      * intros Hq _ Heq. destruct (Hu _ Hq). congruence.
      * apply Hd.
Qed.

Lemma destroyPlugin_names p s :
  let s' := snd (destroyPlugin p s) in
  (exists e, fst (destroyPlugin p s) = inl e) \/
  clientNames s' = clientNames s ∖ {[name (snd (identity p s))]} /\
  forall q, identity q s' = if decide (q = p) then (false, mkPluginEntry 0 "" "" "") else identity q s.
Proof.
  cbv zeta. destruct (destroyPlugin p s) as [[e|[]] s'] eqn:E; [left; by exists e|right].
  unfold destroyPlugin in E. apply bind_inr in E as (pl & s0 & [= <- <-] & E).
  apply bind_inr in E as (u1 & s1 & [= _ <-] & E).
  set (s1 := set_clientNames _ s) in E.
  apply bind_inr in E as (u2 & s2 & E2 & E).
  assert (same_names s1 s2) as H2.
  { assert (keeps (DB := DB) same_names (if mRegistered (this p s)
      then addEventLogEntry p LogLevel_Warning "Plugin deconstructing" else ret tt)) as Hk.
    { destruct (mRegistered _); [|apply keeps_ret; apply _].
      apply (keeps_same p), self_addEventLogEntry. }
    specialize (Hk s1). by rewrite E2 in Hk. }
  apply bind_inr in E as (u3 & s3 & E3 & E).
  assert (same_names s2 s3) as H3.
  { pose proof (keeps_try (only_self p) (subscribeForMessages p [] ;; setPluginStatus p IVP_STATUS_STOPPED_DISCONNECTED)
      (ret tt) is_PluginException) as Hk.
    specialize (Hk ltac:(apply keeps_bind; [apply _|apply self_subscribe|intros; apply self_setPluginStatus])
      ltac:(apply keeps_ret; apply _) s2). rewrite E3 in Hk. by eapply only_self_same. }
  apply bind_inr in E as (u4 & s4 & E4 & E).
  assert (same_names s3 s4) as H4.
  { assert (keeps (DB := DB) (only_self p) (try_catch (call_db (removeAllPluginStatusItems (id (mInfo (this p s))))) is_DbException (ret tt)))
      as Hk by keeps.
    specialize (Hk s3). rewrite E4 in Hk. by eapply only_self_same. }
  apply bind_inr in E as (u5 & s5 & [= _ <-] & E). injection E as <-.
  assert (same_names s1 s4) as [Hn Hi] by (etransitivity; [|exact H4]; by etransitivity).
  split; [exact Hn|]. intros q. cbn [snd]. unfold identity at 1, this. cbn [plugins set_plugins set_router].
  destruct (decide (q = p)) as [->|Hne]; [by rewrite lookup_delete_eq|].
  rewrite lookup_delete_ne by done. apply Hi.
Qed.

(** A connection's destructor frees the name in its [mInfo], and no other. *)
Lemma destroyPlugin_clientNames p s :
  clientNames (snd (destroyPlugin p s)) = clientNames s ∖ {[name (mInfo (this p s))]}.
Proof.
  unfold destroyPlugin, bind at 1, gets, bind at 1, modify. set (s1 := set_clientNames _ s).
  match goal with |- clientNames (snd (?m s1)) = _ => set (rest := m) end.
  assert (keeps (fun s s' : Core DB => clientNames s' = clientNames s) rest) as Hk; [|apply Hk].
  assert (PreOrder (fun s s' : Core DB => clientNames s' = clientNames s)) as HP
    by (split; [done|]; intros ? ? ? E1 E2; congruence).
  assert (forall A (m : M DB A), keeps (only_self p) m ->
    keeps (fun s s' : Core DB => clientNames s' = clientNames s) m) as Hw.
  { intros A m Hm s0. by destruct (Hm s0) as [[Hn _] _]. }
  unfold rest. repeat (apply keeps_bind; [done| |intros _]).
  - apply Hw. destruct (mRegistered _); [apply self_addEventLogEntry|keeps].
  - apply Hw. keeps_step; [keeps_step|keeps_step]; [apply self_subscribe|apply self_setPluginStatus].
  - apply Hw. keeps.
  - by apply keeps_modify.
  - by apply keeps_modify.
Qed.

(** ** The configuration monitor *)
Implicit Types known configMap : list (string * ConfigEntry).

Definition monitored known configMap (k : string) : option ConfigEntry :=
  match OrdMap.find k known, OrdMap.find k configMap with
  | Some e, Some e' => Some (if String.eqb (c_value e') (c_value e) then e else e')
  | Some e, None => Some e
  | None, r => r
  end.

Lemma monitor_known_spec known configMap :
  OrdMap.sorted known -> OrdMap.sorted configMap ->
  let '(values, rest, changed) := monitor_known known configMap in
  map fst values = map fst known /\ OrdMap.sorted rest /\
  (forall k, OrdMap.find k rest =
     match OrdMap.find k known with Some _ => None | None => OrdMap.find k configMap end) /\
  (forall k, OrdMap.find k values =
     match OrdMap.find k known with Some _ => monitored known configMap k | None => None end) /\
  (forall e', e' ∈ changed <-> exists k e, OrdMap.find k known = Some e /\
     OrdMap.find k configMap = Some e' /\ c_value e' <> c_value e).
Proof.
  revert configMap. induction known as [|[k0 e0] known IH]; intros configMap Hk Hc; cbn [monitor_known].
  { split_and!; try done. intros e'. split; [by intros ?%not_elem_of_nil|]. intros (k & e & [=] & _). }
  apply OrdMap.sorted_cons in Hk as [Hk Hb].
  assert (OrdMap.find k0 known = None) as Hk0 by by apply OrdMap.find_None_below.
  unfold monitored in *. destruct (OrdMap.find k0 configMap) as [e1|] eqn:E1.
  - specialize (IH (OrdMap.erase k0 configMap) Hk (OrdMap.sorted_erase _ _ Hc)).
    destruct (monitor_known known (OrdMap.erase k0 configMap)) as [[vs rest] ch].
    destruct IH as (I1 & I2 & I3 & I4 & I5).
    assert (forall k, OrdMap.find k (OrdMap.erase k0 configMap) =
      if OrdMap.keqb k k0 then None else OrdMap.find k configMap) as Hf
      by (intros k; by apply OrdMap.find_erase).
    assert (forall e', e' ∈ ch <-> exists k e, OrdMap.keqb k k0 = false /\ OrdMap.find k known = Some e /\
      OrdMap.find k configMap = Some e' /\ c_value e' <> c_value e) as H5.
    { intros e'. rewrite I5. split; intros (k & e & HH); exists k, e; rewrite Hf in *.
      - destruct (OrdMap.keqb k k0); [by destruct HH as (_ & [=] & _)|by split].
      - by destruct HH as [-> ?]. }
    assert (forall k, OrdMap.find k rest =
      match (if OrdMap.keqb k k0 then Some e0 else OrdMap.find k known) with
      | Some _ => None | None => OrdMap.find k configMap end) as H3.
    { intros k. rewrite I3, Hf. destruct (OrdMap.keqb k k0) eqn:Ek; [|done].
      apply OrdMap.keqb_spec in Ek as ->. by rewrite Hk0. }
    destruct (String.eqb_spec (c_value e1) (c_value e0)) as [Ev|Ev]; cbn [map fst OrdMap.find]; rewrite I1;
      (split_and!; [done|done|done|..]).
    + intros k. destruct (OrdMap.keqb k k0) eqn:Ek; [|by rewrite I4, Hf, Ek].
      apply OrdMap.keqb_spec in Ek as ->. by rewrite E1, Ev, String.eqb_refl.
    + intros e'. rewrite H5. split.
      * intros (k & e & Ek & HH). exists k, e. by rewrite Ek.
      * intros (k & e & HH). exists k, e. destruct (OrdMap.keqb k k0) eqn:Ek; [|done].
        apply OrdMap.keqb_spec in Ek as ->. destruct HH as ([= <-] & He & Hv). congruence.
    + intros k. destruct (OrdMap.keqb k k0) eqn:Ek; [|by rewrite I4, Hf, Ek].
      apply OrdMap.keqb_spec in Ek as ->. rewrite E1. by apply String.eqb_neq in Ev as ->.
    + intros e'. rewrite elem_of_cons, H5. split.
      * intros [->|(k & e & Ek & HH)]; [|exists k, e; by rewrite Ek].
        exists k0, e0. by rewrite OrdMap.keqb_refl.
      * intros (k & e & He & Hc' & Hv). destruct (OrdMap.keqb k k0) eqn:Ek.
        -- apply OrdMap.keqb_spec in Ek as ->. left. congruence.
        -- right. by exists k, e.
  - specialize (IH configMap Hk Hc). destruct (monitor_known known configMap) as [[vs rest] ch].
    destruct IH as (I1 & I2 & I3 & I4 & I5). cbn [map fst OrdMap.find]. rewrite I1.
    split_and!; [done|done|..].
    + intros k. rewrite I3. destruct (OrdMap.keqb k k0) eqn:Ek; [|done].
      apply OrdMap.keqb_spec in Ek as ->. by rewrite Hk0, E1.
    + intros k. rewrite I4. destruct (OrdMap.keqb k k0) eqn:Ek; [|done].
      apply OrdMap.keqb_spec in Ek as ->. by rewrite E1.
    + intros e'. rewrite I5. split; intros (k & e & Hf & He & Hv); exists k, e;
        destruct (OrdMap.keqb k k0) eqn:Ek; try done; apply OrdMap.keqb_spec in Ek as ->; congruence.
Qed.

Lemma monitor_new_spec values rest k :
  OrdMap.sorted rest ->
  OrdMap.find k (monitor_new values rest) =
  match OrdMap.find k rest with Some e => Some e | None => OrdMap.find k values end.
Proof.
  unfold monitor_new. revert values. induction rest as [|[k1 e1] rest IH]; intros values Hr; cbn [foldl]; [done|].
  apply OrdMap.sorted_cons in Hr as [Hr Hb]. rewrite IH, OrdMap.find_insert by done. cbn [OrdMap.find fst snd].
  destruct (OrdMap.keqb k k1) eqn:Ek; [|done]. apply OrdMap.keqb_spec in Ek as ->.
  by rewrite (OrdMap.find_None_below k1 rest).
Qed.

(** After a round the values are those of the database where it has the key. *)
Lemma monitor_find known configMap k :
  OrdMap.sorted known -> OrdMap.sorted configMap ->
  let '(values, rest, _) := monitor_known known configMap in
  OrdMap.find k (monitor_new values rest) = monitored known configMap k.
Proof.
  intros Hk Hc. pose proof (monitor_known_spec known configMap Hk Hc) as Hs.
  destruct (monitor_known known configMap) as [[values rest] changed].
  destruct Hs as (_ & Hr & H3 & H4 & _). rewrite monitor_new_spec, H3, H4 by done.
  unfold monitored. by destruct (OrdMap.find k known), (OrdMap.find k configMap).
Qed.
End facts.
End CoreFacts.
