(* ===== verification/Connection.v ===== *)
(** The connection of an external plugin,
    [src/src/tmx/TmxCore/src/PluginConnection.cpp]: the two message queues, the
    handlers of the system messages, and the core as a transition system whose
    events are connections, received messages, processor rounds, monitor rounds
    and disconnections in any order. *)
From S2P Require Import Prelude Json IvpMessage IvpApi OrdMap Router CorePlugin.
Import Json IvpMsg Core CoreFacts.
Open Scope Z_scope.

Module Connection.
(** ** The queues: [boost::circular_buffer] of capacity 50 *)
Definition QUEUE_CAPACITY : nat := 50.
(** [push_back] on a full buffer drops the front. *)
Definition push_back {A} (q : list A) (x : A) : list A :=
  if (length q =? QUEUE_CAPACITY)%nat then drop 1 q ++ [x] else q ++ [x].

Record Queues := mkQueues { mFastMessageQueue : list IvpMessage; mSlowMessageQueue : list IvpMessage }.
Definition Queues_new : Queues := mkQueues [] [].

(** Status and event log messages go to the slow queue. *)
Definition is_slow (m : IvpMessage) : bool :=
  IvpApi.ivpPluginStatus_isStatusMsg m || IvpApi.ivpEventLog_isEventLogMsg m.
Definition enqueue (m : IvpMessage) (q : Queues) : Queues :=
  if is_slow m then mkQueues (mFastMessageQueue q) (push_back (mSlowMessageQueue q) m)
  else mkQueues (push_back (mFastMessageQueue q) m) (mSlowMessageQueue q).

Section connection.
Context {DB : Type} `{Database DB} (now : Z).
Local Open Scope core_scope.

(** [onMessageReceived] of a connection: the message goes to its socket. *)
Definition onMessageReceived (p : Z) (m : IvpMessage) : M DB unit :=
  modify (add_sent [(p, m)]).

Definition send_error (p : Z) (level : Z) : M DB unit :=
  onMessageReceived p (IvpApi.ivpError_createMsg now
    (IvpApi.mkError level (IvpApi.error IvpApi.IVP_ERROR_INITIALIZER)
       (IvpApi.sysErrNo IvpApi.IVP_ERROR_INITIALIZER))).

Definition onConfigChanged (p : Z) (key value : string) : M DB unit :=
  onMessageReceived p (IvpApi.ivpConfig_createMsg now
    (IvpApi.ivpConfig_addItemToCollection None (Some key) (Some value) None)).

(** [string(ptr)]: building a string from NULL throws. *)
Definition std_string (s : option string) : M DB string :=
  match s with Some s => ret s | None => throw LogicError end.
Fixpoint map_each {A B} (f : A -> M DB B) (l : list A) : M DB (list B) :=
  match l with
  | [] => ret []
  | a :: l' => let! b := f a in let! bs := map_each f l' in ret (b :: bs)
  end.

Definition config_default_entry (item : IvpApi.IvpConfigItem) : M DB ConfigEntry :=
  let! k := std_string (IvpApi.key item) in
  let! d := std_string (IvpApi.defaultValue item) in
  ret (PluginConfigurationParameterEntry k d (default "" (IvpApi.description item))).
Definition message_type_entry (e : IvpApi.IvpMessageTypeEntry) : M DB MessageTypeEntry :=
  let! t := std_string (IvpApi.entry_type e) in
  let! st := std_string (IvpApi.entry_subtype e) in
  ret (mkMessageType t st (default "" (IvpApi.entry_description e))).

(** The configuration message sent back after a registration: the entries
    whose value is not the default. *)
Definition changed_config (values : list (string * ConfigEntry)) : option cJSON :=
  foldl (fun c e =>
    if String.eqb (c_value e.2) (c_default e.2) then c
    else IvpApi.ivpConfig_addItemToCollection c (Some (c_key e.2)) (Some (c_value e.2)) None) None values.

Definition processRegistrationMessage (p : Z) (m : IvpMessage) : M DB unit :=
  match IvpApi.ivpRegister_getManifest m with
  | None => ret tt
  | Some manifest =>
      if IvpApi.error (IvpApi.ivpRegister_validateManifest (Some manifest)) =? IvpApi.IvpError_none then
        let info := mkPluginEntry 0 (default "" (IvpApi.name manifest))
          (default "" (IvpApi.manifest_description manifest)) (default "" (IvpApi.version manifest)) in
        let! configs := map_each config_default_entry
          (map IvpApi.ivpConfig_item (IvpApi.items (IvpApi.configuration manifest))) in
        let! types := map_each message_type_entry
          (map IvpApi.ivpMsgType_entry (IvpApi.items (IvpApi.messageTypes manifest))) in
        try_catch
          (registerPlugin now p (mkInfo info configs types) ;;
           let! values := getAllConfigValues p in
           onMessageReceived p (IvpApi.ivpConfig_createMsg now (changed_config values)))
          is_PluginException
          (send_error p IvpApi.IvpLogLevel_fatal)
      else ret tt
  end.

(** The filter entries of a subscribe message; entries without a type are
    skipped, a missing subtype is empty. *)
Definition filter_entries (m : IvpMessage) : list Router.MessageFilterEntry :=
  omap (fun i =>
    let '(t, st, mask) := IvpApi.ivpSubscribe_getFilterEntry m i in
    t ← t; Some (Router.mkFilter t (default "" st) mask))
    (seq 0 (Z.to_nat (IvpApi.ivpSubscribe_getFilterEntryCount m))).
Definition processSubscribeMessage (p : Z) (m : IvpMessage) : M DB unit :=
  try_catch (subscribeForMessages p (filter_entries m)) is_PluginException
    (send_error p IvpApi.IvpLogLevel_error).

(** One item of a configuration message. *)
Definition processConfigItem (p : Z) (source : option string) (item : IvpApi.IvpConfigItem)
  : M DB (list ConfigEntry) :=
  match source with
  | None => throw NullPointer
  | Some src =>
      if String.eqb src "_global" then
        let! k := std_string (IvpApi.key item) in
        let! d := std_string (IvpApi.defaultValue item) in
        let! v := std_string (IvpApi.value item) in
        ret [with_value (PluginConfigurationParameterEntry k d
               (default "Global system parameter" (IvpApi.description item))) v]
      else
        let! k := std_string (IvpApi.key item) in
        let! v := std_string (IvpApi.value item) in
        setConfigValue p k v ;; ret []
  end.
Definition processConfigMessage (p : Z) (m : IvpMessage) : M DB unit :=
  let! globals := map_each (processConfigItem p (source m))
    (map IvpApi.ivpConfig_item (IvpApi.items (payload m))) in
  db_guard (call_db (initializePluginConfigParameters 0 (concat globals))).

(** The values to set, as a map, and the keys to remove. *)
Definition status_updates (l : list IvpApi.IvpPluginStatusItem)
  : list (string * string) * list string :=
  foldl (fun acc i =>
    match IvpApi.status_value i with
    | None =>
        match IvpApi.status_key i with
        | Some (String a k) => (acc.1, acc.2 ++ [String a k])
        | _ => acc
        end
    | Some v => (OrdMap.insert (default "" (IvpApi.status_key i)) v acc.1, acc.2)
    end) ([], []) l.
Definition processStatusMessage (p : Z) (m : IvpMessage) : M DB unit :=
  let '(updateItems, removeItems) :=
    status_updates (map IvpApi.ivpPluginStatus_item (IvpApi.items (payload m))) in
  try_catch (setStatusItems p updateItems ;; removeStatusItems p removeItems) is_PluginException (ret tt).

(** [level0] is the uninitialised level of [ivpEventLog_getEventLogEntry]. *)
Definition processEventLogMessage (level0 p : Z) (m : IvpMessage) : M DB unit :=
  match IvpApi.ivpEventLog_getEventLogEntry level0 m with
  | None => ret tt
  | Some e =>
      match IvpApi.event_description e with
      | None => throw NullPointer
      | Some EmptyString => ret tt
      | Some d => addEventLogEntry p (IvpApi.event_level e) d
      end
  end.

(** What one round of the fast processor does with the message it took. *)
Definition processFast (p : Z) (m : IvpMessage) : M DB unit :=
  if IvpApi.ivpRegister_isRegistrationMsg m then processRegistrationMessage p m
  else if IvpApi.ivpSubscribe_isSubscribeMsg m then processSubscribeMessage p m
  else if IvpApi.ivpConfig_isConfigMsg m then processConfigMessage p m
  else try_catch (sendMessageToRouter p m) is_PluginException
         (send_error p IvpApi.IvpLogLevel_error).
Definition processSlow (level0 p : Z) (m : IvpMessage) : M DB unit :=
  if IvpApi.ivpPluginStatus_isStatusMsg m then processStatusMessage p m
  else if IvpApi.ivpEventLog_isEventLogMsg m then processEventLogMessage level0 p m
  else ret tt.

(** ** The core process *)
Inductive system :=
| Running (core : Core DB) (queues : gmap Z Queues)
| Terminated.

(** An exception that leaves a thread's function ends the process. *)
Definition after (r : (exn + unit) * Core DB) (queues : gmap Z Queues) : system :=
  match r with
  | (inr _, s) => Running s queues
  | (inl _, _) => Terminated
  end.

Inductive step : system -> system -> Prop :=
| step_connect s qs p :
    plugins s !! p = None ->
    step (Running s qs) (Running (set_plugins (<[p := Plugin_new]> (plugins s)) s) (<[p := Queues_new]> qs))
| step_receive s qs p q m :
    qs !! p = Some q -> step (Running s qs) (Running s (<[p := enqueue m q]> qs))
| step_fast s qs p q m rest :
    qs !! p = Some q -> mFastMessageQueue q = m :: rest ->
    step (Running s qs) (after (processFast p m s) (<[p := mkQueues rest (mSlowMessageQueue q)]> qs))
| step_slow s qs p q m rest level0 :
    qs !! p = Some q -> mSlowMessageQueue q = m :: rest ->
    step (Running s qs) (after (processSlow level0 p m s) (<[p := mkQueues (mFastMessageQueue q) rest]> qs))
| step_monitor s qs p :
    is_Some (plugins s !! p) ->
    step (Running s qs) (after (configMonitor onConfigChanged p s) qs)
| step_disconnect s qs p :
    is_Some (plugins s !! p) ->
    step (Running s qs) (after (destroyPlugin p s) (delete p qs)).

Definition initial (d : DB) : system := Running (mkCore ∅ [] ∅ d [] []) ∅.
Definition reachable (d : DB) (x : system) : Prop := rtc step (initial d) x.

(** ** The handlers *)
Lemma self_onMessageReceived p m : keeps (only_self p) (onMessageReceived p m).
Proof. unfold onMessageReceived. keeps. Qed.
Lemma self_send_error p l : keeps (only_self p) (send_error p l).
Proof. apply self_onMessageReceived. Qed.
Lemma self_onConfigChanged p k v : keeps (only_self p) (onConfigChanged p k v).
Proof. apply self_onMessageReceived. Qed.

Lemma keeps_map_each R `{!PreOrder R} {A B} (f : A -> M DB B) l :
  (forall a, keeps R (f a)) -> keeps R (map_each f l).
Proof.
  intros Hf. induction l; cbn [map_each]; [by apply keeps_ret|].
  apply keeps_bind; [done|done|intros b]. apply keeps_bind; [done|done|intros bs]. by apply keeps_ret.
Qed.

Lemma self_std_string p s : keeps (DB := DB) (only_self p) (std_string s).
Proof. destruct s; cbn; keeps. Qed.

Lemma self_processConfig p m : keeps (only_self p) (processConfigMessage p m).
Proof.
  unfold processConfigMessage, db_guard. keeps_step; [|keeps].
  apply keeps_map_each; [apply _|]. intros item. unfold processConfigItem.
  destruct (source m) as [src|]; [|keeps].
  destruct (String.eqb src "_global");
    repeat (keeps_step || apply self_std_string || apply self_setConfigValue).
Qed.

Lemma self_processSubscribe p m : keeps (only_self p) (processSubscribeMessage p m).
Proof.
  unfold processSubscribeMessage. keeps_step; [apply self_subscribe|apply self_send_error].
Qed.

Lemma self_processStatus p m : keeps (only_self p) (processStatusMessage p m).
Proof.
  unfold processStatusMessage. destruct (status_updates _) as [u r].
  keeps_step; [keeps_step|keeps_step]; [apply self_setStatusItems|apply self_removeStatusItems].
Qed.

Lemma self_processEventLog l0 p m : keeps (only_self p) (processEventLogMessage l0 p m).
Proof.
  unfold processEventLogMessage. destruct (IvpApi.ivpEventLog_getEventLogEntry l0 m) as [e|]; [|keeps].
  destruct (IvpApi.event_description e) as [[|a d]|]; [keeps|apply self_addEventLogEntry|keeps].
Qed.

Lemma self_processSlow l0 p m : keeps (only_self p) (processSlow l0 p m).
Proof.
  unfold processSlow. case_if; [apply self_processStatus|]. case_if; [apply self_processEventLog|keeps].
Qed.

Lemma self_configMonitor p s : only_self p s (snd (configMonitor onConfigChanged p s)).
Proof.
  unfold configMonitor, bind at 1, gets.
  destruct (mRegistered (this p s)) eqn:Er; cbn [negb]; [|apply keeps_ret; apply _].
  unfold bind at 1.
  assert (only_db s (snd (try_catch (let! configMap := call_db (getPluginConfigParameters (id (mInfo (this p s)))) in
    ret (Some configMap)) is_DbException (ret None) s))) as Hdb.
  { revert s Er. enough (forall i, keeps only_db (try_catch (let! configMap := call_db (getPluginConfigParameters i) in
      ret (Some configMap)) is_DbException (ret None))) as Hk by (intros s _; apply Hk). intros i. keeps. done. }
  destruct (try_catch _ _ _ s) as [[e|[configMap|]] s1]; cbn [snd] in Hdb; [by apply only_db_self| |by apply only_db_self].
  destruct (monitor_known _ _) as [[values rest] changed].
  unfold bind at 1, update_this, modify. set (s2 := set_plugins _ s1).
  transitivity s2.
  - unfold only_db in Hdb. split; [split|exists []; unfold s2; rewrite Hdb, app_nil_r; by split].
    + unfold s2. by rewrite Hdb.
    + intros q. unfold s2. rewrite (identity_update p q (fun pl => mkPlugin (mRegistered pl) (mInfo pl) (monitor_new values rest))).
      cbn. rewrite Hdb. case_decide; [by subst|done].
  - revert s2. intros s2.
    assert (keeps (only_self p) (for_each changed (fun e => onConfigChanged p (c_key e) (c_value e)) ;;
      for_each (map snd rest) (fun e => try_catch (onConfigChanged p (c_key e) (c_value e)) is_UnknownKey (ret tt)))) as Hk.
    { repeat (keeps_step || apply self_onConfigChanged). }
    apply Hk.
Qed.

(** ** Names in the whole system *)
Lemma names_processFast p m s : names_inv s -> names_inv (snd (processFast p m s)).
Proof.
  intros Hs. unfold processFast. case_if; [|case_if; [|case_if]].
  - unfold processRegistrationMessage. destruct (IvpApi.ivpRegister_getManifest m) as [manifest|]; [|done].
    case_if; [|done].
    assert (forall A B (m : M DB A) (f : A -> M DB B), keeps (only_self p) m ->
      (forall a s, names_inv s -> names_inv (snd (f a s))) ->
      forall s, names_inv s -> names_inv (snd (bind m f s))) as Hbind.
    { intros A B m' f Hm Hf s0 H0. unfold bind. specialize (Hm s0).
      destruct (m' s0) as [[e|a] s1]; cbn [snd] in *;
        [|apply Hf]; by eapply names_inv_same; [eapply only_self_same|]. }
    apply Hbind; [|intros configs s1 H1; apply Hbind; [| |exact H1]|exact Hs].
    1: apply keeps_map_each; [apply _|]; intros; unfold config_default_entry;
       repeat (keeps_step || apply self_std_string).
    1: apply keeps_map_each; [apply _|]; intros; unfold message_type_entry;
       repeat (keeps_step || apply self_std_string).
    intros types s2 H2.
    set (body := registerPlugin now p _).
    assert (names_inv (snd (body s2))) as H3 by by apply registerPlugin_inv.
    unfold try_catch, bind. destruct (body s2) as [[e|[]] s3]; cbn [snd] in *.
    + destruct (is_PluginException e); [|done].
      eapply names_inv_same; [eapply only_self_same, (self_send_error p)|done].
    + assert (names_inv (snd ((let! values := getAllConfigValues p in
        onMessageReceived p (IvpApi.ivpConfig_createMsg now (changed_config values))) s3))) as H4.
      { eapply names_inv_same; [|exact H3]. apply (keeps_same p).
        keeps_step; [apply self_getAllConfigValues|apply self_onMessageReceived]. }
      unfold bind in H4. destruct (getAllConfigValues p s3) as [[e|v] s4]; [|exact H4].
      destruct (is_PluginException e); [|exact H4].
      eapply names_inv_same; [eapply only_self_same, (self_send_error p)|exact H4].
  - eapply names_inv_same; [eapply only_self_same, self_processSubscribe|done].
  - eapply names_inv_same; [eapply only_self_same, self_processConfig|done].
  - eapply names_inv_same; [|done].
    apply keeps_try; [apply _|apply sends_same_names|apply (keeps_same p), self_send_error].
Qed.

Definition system_inv (x : system) : Prop :=
  match x with Running s _ => names_inv s | Terminated => True end.

Lemma after_inv r qs : names_inv (snd r) -> system_inv (after r qs).
Proof. destruct r as [[e|[]] s]; cbn; auto. Qed.

Lemma step_inv x y : step x y -> system_inv x -> system_inv y.
Proof.
  intros Hst Hx. destruct Hst as [s qs p Hp|s qs p q m Hq|s qs p q m rest Hq Hm|s qs p q m rest l0 Hq Hm|s qs p Hp|s qs p Hp];
    cbn [system_inv] in *.
  - eapply names_inv_same; [|exact Hx]. split; [done|]. intros q. unfold identity, this. cbn [plugins set_plugins].
    destruct (decide (q = p)) as [->|Hne]; [by rewrite lookup_insert_eq, Hp|by rewrite lookup_insert_ne].
  - done.
  - apply after_inv. by apply names_processFast.
  - apply after_inv. eapply names_inv_same; [eapply only_self_same, self_processSlow|done].
  - apply after_inv. eapply names_inv_same; [eapply only_self_same, self_configMonitor|done].
  - destruct (destroyPlugin_names p s) as [[e He]|[Hc Hi]].
    { destruct (destroyPlugin p s) as [r s']. cbn in He. by subst r. }
    apply after_inv. destruct Hx as [Hu He Hd]. constructor.
    + intros r. rewrite !Hi. case_decide as Er; cbn [fst snd]; [done|]. intros Hr.
      destruct (Hu r Hr) as [Hin Hne]. split; [|done]. rewrite Hc. apply elem_of_difference.
      split; [done|]. rewrite elem_of_singleton. intros Heq.
      destruct (fst (identity p s)) eqn:Ep; [by apply Er, (Hd r p)|].
      apply He in Ep. congruence.
    + intros r. rewrite !Hi. case_decide; cbn [fst snd name]; [done|apply He].
    + intros r1 r2. rewrite !Hi. repeat case_decide; cbn [fst snd]; try done. apply Hd.
Qed.

Lemma reachable_inv d x : reachable d x -> system_inv x.
Proof.
  unfold reachable. intros Hr. remember (initial d) as x0.
  assert (system_inv x0) as H0 by (subst; by constructor). clear Heqx0.
  induction Hr as [x|x y z Hst _ IH]; [done|]. apply IH. by eapply step_inv.
Qed.

(** ** Who a message is from *)

(** A message that carries the name and the id of [p]. *)
Definition stamped (p : Z) (s : Core DB) (m : IvpMessage) : Prop :=
  mRegistered (this p s) = true /\ source m = Some (name (mInfo (this p s))) /\
  sourceId m = id (mInfo (this p s)).
(** Everything sent in between went to [p] itself or is stamped. *)
Definition good_sent (p : Z) (s s' : Core DB) : Prop :=
  exists l, sent s' = sent s ++ l /\ Forall (fun e => e.1 = p \/ stamped p s' e.2) l.

Lemma only_self_good p s s' : only_self p s s' -> good_sent p s s'.
Proof.
  intros [_ (l & E & Hl)]. exists l. split; [done|]. eapply Forall_impl; [exact Hl|]. by left.
Qed.

(** Nothing stamped is sent before, and the identity stays after. *)
Lemma good_sent_after p s s1 s2 :
  good_sent p s s1 -> same_names s1 s2 -> good_sent p s1 s2 -> good_sent p s s2.
Proof.
  intros (l1 & E1 & F1) [_ Hi] (l2 & E2 & F2). exists (l1 ++ l2).
  rewrite E2, E1, <- app_assoc. split; [done|]. apply Forall_app. split; [|done].
  eapply Forall_impl; [exact F1|]. intros e [?|(Hr & Hs & Hd)]; [by left|right].
  specialize (Hi p). unfold identity in Hi. injection Hi as Hr' Hi'. unfold stamped. by rewrite Hr', Hi'.
Qed.
Lemma good_sent_before p s s1 s2 :
  (exists l, sent s1 = sent s ++ l /\ Forall (fun e => e.1 = p) l) ->
  good_sent p s1 s2 -> good_sent p s s2.
Proof.
  intros (l1 & E1 & F1) (l2 & E2 & F2). exists (l1 ++ l2).
  rewrite E2, E1, <- app_assoc. split; [done|]. apply Forall_app. split; [|done].
  eapply Forall_impl; [exact F1|]. by left.
Qed.

(** The exact effect of [sendMessageToRouter]. *)
Lemma sendMessageToRouter_eq p m (s : Core DB) :
  sendMessageToRouter p m s =
  if mRegistered (this p s)
  then let m' := stamp (mInfo (this p s)) m in
       (inr tt, add_sent (map (fun r => (r, m')) (Router.broadcastMessage p m' (router s))) s)
  else (inl PluginNotRegisteredException, s).
Proof.
  unfold sendMessageToRouter, require_registered, bind, gets. by destruct (mRegistered (this p s)).
Qed.

Lemma sendMessageToRouter_good p m (s : Core DB) : good_sent p s (snd (sendMessageToRouter p m s)).
Proof.
  rewrite sendMessageToRouter_eq. destruct (mRegistered (this p s)) eqn:Er; cbn [snd].
  - eexists. split; [reflexivity|]. apply Forall_forall. intros [r m'].
    rewrite list_elem_of_In, in_map_iff. intros (r' & [= <- <-] & _). right. cbn. by repeat split.
  - exists []. by rewrite app_nil_r.
Qed.

Lemma bind_good {A B} p (m : M DB A) (f : A -> M DB B) s :
  keeps (only_self p) m -> (forall a s1, good_sent p s1 (snd (f a s1))) -> good_sent p s (snd (bind m f s)).
Proof.
  intros Hm Hf. unfold bind. specialize (Hm s). destruct (m s) as [[e|a] s1]; cbn [snd] in *.
  - by apply only_self_good.
  - eapply good_sent_before; [|apply Hf]. apply Hm.
Qed.

Lemma registerPlugin_good p info s : good_sent p s (snd (registerPlugin now p info s)).
Proof.
  assert (good_sent p s s) as Hrefl by (exists []; by rewrite app_nil_r).
  unfold registerPlugin. case_if; [done|]. unfold bind at 1, gets. case_bool_decide; [done|].
  unfold bind, modify. set (s1 := set_clientNames _ s).
  apply (good_sent_before p s s1); [exists []; by rewrite app_nil_r|].
  unfold complete_registration, update_this, modify, bind.
  pose proof (db_guard_db _ (db_register info) s1) as Hdb.
  destruct (db_guard (register_in_db info) s1) as [[e|[i cm]] s2]; cbn [snd] in *.
  - by apply only_self_good, only_db_self.
  - set (s3 := set_plugins _ s2). apply (good_sent_before p s1 s3).
    + exists []. unfold s3. unfold only_db in Hdb. rewrite Hdb, app_nil_r. by split.
    + unfold announce. apply bind_good; [apply self_addEventLogEntry|intros _ s4].
      apply bind_good; [apply self_setPluginStatus|intros _ s5]. apply sendMessageToRouter_good.
Qed.

(** ** Properties *)

(** C6: no two live plugins have one name. Whatever connections, messages,
    failures of the database, monitor rounds and disconnections happen, in any
    order, as long as the core runs every registered plugin has a nonempty name
    that is in the set of used names, and two registered plugins with the same
    name are the same plugin. *)
Theorem active_names_unique d s qs :
  reachable d (Running s qs) ->
  (forall p, mRegistered (this p s) = true ->
     name (mInfo (this p s)) ∈ clientNames s /\ name (mInfo (this p s)) <> ""%string) /\
  (forall p q, mRegistered (this p s) = true -> mRegistered (this q s) = true ->
     name (mInfo (this p s)) = name (mInfo (this q s)) -> p = q).
Proof. intros [Hu _ Hd]%reachable_inv. by split. Qed.

(** C2: the source of a message cannot be forged. Whatever message a
    connection sends (its own header may claim any source), everything the
    core hands to other receivers while it processes it carries the name and
    the id the connection is registered with. *)
Theorem source_not_forged p m (s : Core DB) :
  exists l, sent (snd (processFast p m s)) = sent s ++ l /\
    Forall (fun e => e.1 = p \/ stamped p (snd (processFast p m s)) e.2) l.
Proof.
  change (good_sent p s (snd (processFast p m s))).
  unfold processFast. case_if; [|case_if; [|case_if]].
  - unfold processRegistrationMessage. destruct (IvpApi.ivpRegister_getManifest m) as [manifest|];
      [|exists []; by rewrite app_nil_r].
    case_if; [|exists []; by rewrite app_nil_r].
    apply bind_good.
    { apply keeps_map_each; [apply _|]; intros; unfold config_default_entry;
        repeat (keeps_step || apply self_std_string). }
    intros configs s1. apply bind_good.
    { apply keeps_map_each; [apply _|]; intros; unfold message_type_entry;
        repeat (keeps_step || apply self_std_string). }
    intros types s2. set (info := mkInfo _ _ _).
    pose proof (registerPlugin_good p info s2) as Hg.
    unfold try_catch, bind. destruct (registerPlugin now p info s2) as [[e|[]] s3]; cbn [snd] in *.
    + destruct (is_PluginException e); [|done]. pose proof (self_send_error p IvpApi.IvpLogLevel_fatal s3) as Hs.
      eapply good_sent_after; [exact Hg|by eapply only_self_same|by apply only_self_good].
    + set (reply := fun values => onMessageReceived p (IvpApi.ivpConfig_createMsg now (changed_config values))).
      unfold getAllConfigValues, bind, require_registered, bind, gets.
      destruct (mRegistered (this p s3)); cbn [ret throw].
      * cbn [is_PluginException]. pose proof (self_onMessageReceived p
          (IvpApi.ivpConfig_createMsg now (changed_config (mConfigValues (this p s3)))) s3) as Hs.
        eapply good_sent_after; [exact Hg|by eapply only_self_same|by apply only_self_good].
      * cbn [is_PluginException]. pose proof (self_send_error p IvpApi.IvpLogLevel_fatal s3) as Hs.
        eapply good_sent_after; [exact Hg|by eapply only_self_same|by apply only_self_good].
  - apply only_self_good, self_processSubscribe.
  - apply only_self_good, self_processConfig.
  - pose proof (sendMessageToRouter_good p m s) as Hg. unfold try_catch.
    destruct (sendMessageToRouter p m s) as [[e|[]] s1]; cbn [snd] in *; [|done].
    destruct (is_PluginException e); [|done]. pose proof (self_send_error p IvpApi.IvpLogLevel_error s1) as Hs.
    eapply good_sent_after; [exact Hg|by eapply only_self_same|by apply only_self_good].
Qed.

(** An ordinary message is routed, and nothing else happens. When a
    registered plugin sends a message that is no system message, the message,
    stamped with its name and id, is handed to exactly the receivers of the
    broadcast, in order, and no other part of the core changes; when the plugin
    is not registered, nobody but the plugin itself gets anything: an error
    message of level error. *)
Theorem ordinary_message_routed p m (s : Core DB) :
  IvpApi.ivpRegister_isRegistrationMsg m = false -> IvpApi.ivpSubscribe_isSubscribeMsg m = false ->
  IvpApi.ivpConfig_isConfigMsg m = false ->
  processFast p m s = (inr tt,
    if mRegistered (this p s) then
      add_sent (map (fun r => (r, stamp (mInfo (this p s)) m))
        (Router.broadcastMessage p (stamp (mInfo (this p s)) m) (router s))) s
    else add_sent [(p, IvpApi.ivpError_createMsg now (IvpApi.mkError IvpApi.IvpLogLevel_error 0 0))] s).
Proof.
  intros H1 H2 H3. unfold processFast, try_catch. rewrite H1, H2, H3, sendMessageToRouter_eq.
  by destruct (mRegistered (this p s)).
Qed.

(** A configuration message can end the process. When the first item of a
    configuration message (not addressed to the global parameters) names a key
    the connection's plugin does not have, or the plugin is not registered, the
    exception of [setConfigValue] is caught neither by the handler nor by the
    processor thread, which terminates the core. *)
Theorem config_message_terminates_core p m (s : Core DB) qs src item rest k v :
  IvpApi.ivpConfig_isConfigMsg m = true -> source m = Some src -> src <> "_global"%string ->
  IvpApi.items (payload m) = item :: rest ->
  cJSONxtra_tryGetStr item "key" = Some k -> cJSONxtra_tryGetStr item "value" = Some v ->
  mRegistered (this p s) = false \/ OrdMap.find k (mConfigValues (this p s)) = None ->
  after (processFast p m s) qs = Terminated.
Proof.
  intros Hc Hsrc Hg Hi Hk Hv Hr. unfold processFast.
  assert (IvpApi.ivpRegister_isRegistrationMsg m = false /\ IvpApi.ivpSubscribe_isSubscribeMsg m = false) as [-> ->].
  { unfold IvpApi.ivpConfig_isConfigMsg, IvpApi.ivpRegister_isRegistrationMsg,
      IvpApi.ivpSubscribe_isSubscribeMsg, IvpApi.type_is in *.
    destruct (msg_type m); [|done]. by apply String.eqb_eq in Hc as ->. }
  rewrite Hc. unfold processConfigMessage. rewrite Hi. cbn [map map_each].
  unfold processConfigItem at 1. rewrite Hsrc. apply String.eqb_neq in Hg. rewrite Hg.
  cbn [IvpApi.key IvpApi.value IvpApi.ivpConfig_item]. rewrite Hk, Hv. cbn [std_string].
  unfold setConfigValue, require_registered, bind, ret, gets.
  destruct (mRegistered (this p s)); [|done]. destruct Hr as [?|Hf]; [done|]. by rewrite Hf.
Qed.

(** A failed registration blocks its name. When the database fails during
    a registration under a fresh name, the plugin gets a [PluginException] and
    stays unregistered, but the name stays taken although no plugin has it,
    even after the connection is destroyed, and every later registration under
    this name, from any connection, is refused. *)
Theorem failed_registration_blocks_name p info (s : Core DB) :
  let n := name (pluginInfo info) in
  n <> ""%string -> n ∉ clientNames s ->
  fst (insertOrUpdatePlugin (pluginInfo info) (db s)) = None -> name (mInfo (this p s)) = ""%string ->
  exists s1, registerPlugin now p info s = (inl PluginException, s1) /\
    (forall q, identity q s1 = identity q s) /\
    n ∈ clientNames (snd (destroyPlugin p s1)) /\
    forall q info' s2, name (pluginInfo info') = n -> n ∈ clientNames s2 ->
      registerPlugin now q info' s2 = (inl PluginException, s2).
Proof.
  intros n Hn Hf Hdb Hp. unfold registerPlugin at 1. fold n.
  apply String.eqb_neq in Hn as Hn'. rewrite Hn'. unfold bind at 1, gets.
  rewrite bool_decide_eq_false_2 by done. unfold bind, modify, complete_registration, bind, db_guard, try_catch,
    register_in_db, bind, call_db. cbn [db set_clientNames].
  destruct (insertOrUpdatePlugin (pluginInfo info) (db s)) as [r d]. cbn [fst] in Hdb. subst r.
  cbn [is_DbException throw]. eexists. split; [reflexivity|]. split; [done|]. split.
  - rewrite destroyPlugin_clientNames. cbn [clientNames set_db set_clientNames].
    unfold this in *. cbn [plugins set_db set_clientNames]. rewrite Hp. set_solver.
  - intros q info' s2 <- Hin. unfold registerPlugin. rewrite Hn'. unfold bind, gets.
    by rewrite bool_decide_eq_true_2.
Qed.

(** C39: the configuration monitor converges. One round for a registered
    plugin, the database answering, leaves every key of the database with the
    database's value and every other key as it was; the plugin is told of
    exactly the entries that are new or whose value changed, and of nothing
    else. *)
Theorem config_monitor_converges p (s : Core DB) configMap d :
  mRegistered (this p s) = true ->
  getPluginConfigParameters (id (mInfo (this p s))) (db s) = (Some configMap, d) ->
  OrdMap.sorted (mConfigValues (this p s)) -> OrdMap.sorted configMap ->
  exists told s', configMonitor onConfigChanged p s = (inr tt, s') /\
    (forall k, OrdMap.find k (mConfigValues (this p s')) = monitored (mConfigValues (this p s)) configMap k) /\
    sent s' = sent s ++ map (fun e => (p, IvpApi.ivpConfig_createMsg now
      (IvpApi.ivpConfig_addItemToCollection None (Some (c_key e)) (Some (c_value e)) None))) told /\
    (forall e', e' ∈ told <-> exists k, OrdMap.find k configMap = Some e' /\
       match OrdMap.find k (mConfigValues (this p s)) with
       | Some e => c_value e' <> c_value e
       | None => True
       end) /\
    (forall k e', OrdMap.find k configMap = Some e' ->
       exists e, OrdMap.find k (mConfigValues (this p s')) = Some e /\ c_value e = c_value e').
Proof.
  intros Hr Hdb Hk Hc.
  pose proof (monitor_known_spec _ _ Hk Hc) as Hs. pose proof (fun k => monitor_find _ _ k Hk Hc) as Hf.
  unfold configMonitor. unfold bind at 1, gets. rewrite Hr. cbn [negb].
  unfold bind at 1, try_catch, bind at 1, call_db at 1. rewrite Hdb. cbn [ret].
  destruct (monitor_known (mConfigValues (this p s)) configMap) as [[values rest] changed].
  destruct Hs as (_ & Hrs & H3 & _ & H5).
  set (known := mConfigValues (this p s)) in *.
  set (s1 := set_db d s). unfold bind at 1, update_this, modify. set (s2 := set_plugins _ s1).
  assert (forall l (s : Core DB), for_each l (fun e => onConfigChanged p (c_key e) (c_value e)) s = (inr tt,
    add_sent (map (fun e => (p, IvpApi.ivpConfig_createMsg now
      (IvpApi.ivpConfig_addItemToCollection None (Some (c_key e)) (Some (c_value e)) None))) l) s)) as Hl.
  { induction l as [|e l IH]; intros s0; cbn [for_each map].
    - unfold ret, add_sent. rewrite app_nil_r. by destruct s0.
    - unfold bind, onConfigChanged at 1, onMessageReceived, modify. rewrite IH.
      unfold add_sent. cbn. by rewrite <- app_assoc. }
  assert (forall l (s : Core DB), for_each l (fun e => try_catch (onConfigChanged p (c_key e) (c_value e))
      is_UnknownKey (ret tt)) s = for_each l (fun e => onConfigChanged p (c_key e) (c_value e)) s) as Ht.
  { induction l as [|e l IH]; intros s0; cbn [for_each]; [done|]. unfold bind. cbn. apply IH. }
  unfold bind. rewrite Hl, Ht, Hl. exists (changed ++ map snd rest). eexists. split; [reflexivity|].
  assert (forall l1 l2 (s : Core DB), this p (add_sent l1 (add_sent l2 s)) = this p s) as Hthis by done.
  assert (mConfigValues (this p s2) = monitor_new values rest) as Hv2.
  { unfold s2, this at 1. cbn [plugins set_plugins]. by rewrite lookup_insert_eq. }
  rewrite Hthis, Hv2.
  split_and!.
  - exact Hf.
  - unfold add_sent. cbn. by rewrite <- app_assoc, map_app.
  - intros e'. rewrite elem_of_app, H5.
    assert (e' ∈ map snd rest <-> exists k, OrdMap.find k known = None /\ OrdMap.find k configMap = Some e') as ->.
    { rewrite list_elem_of_In, in_map_iff. split.
      - intros ([k e] & <- & Hin%list_elem_of_In). apply OrdMap.find_elem in Hin; [|done].
        exists k. rewrite H3 in Hin. by destruct (OrdMap.find k known).
      - intros (k & Hn & He). exists (k, e'). split; [done|]. apply list_elem_of_In, OrdMap.find_elem; [done|].
        by rewrite H3, Hn. }
    split.
    + intros [(k & e & Hkn & He & Hv)|(k & Hkn & He)]; exists k; by rewrite Hkn.
    + intros (k & He & Hv). destruct (OrdMap.find k known) as [e|] eqn:Ek; [left; by exists k, e|right; by exists k].
  - intros k e' He. rewrite Hf. unfold monitored. rewrite He.
    destruct (OrdMap.find k known) as [e|]; [|by exists e'].
    destruct (String.eqb_spec (c_value e') (c_value e)) as [->|]; eauto.
Qed.
End connection.
Arguments system : clear implicits.

(** ** The queues *)
Definition newest {A} (l : list A) : list A := drop (length l - QUEUE_CAPACITY) l.

Lemma push_back_newest {A} (q ms : list A) :
  (length q <= QUEUE_CAPACITY)%nat -> foldl push_back q ms = newest (q ++ ms).
Proof.
  unfold newest. revert q. induction ms as [|m ms IH]; intros q Hq; cbn [foldl].
  { rewrite app_nil_r. by replace (length q - QUEUE_CAPACITY)%nat with O by lia. }
  unfold push_back at 2. destruct (Nat.eqb_spec (length q) QUEUE_CAPACITY) as [E|E].
  - destruct q as [|x q]; [done|]. cbn [length] in *. rewrite IH by (rewrite length_app, length_drop; cbn; lia).
    cbn [drop]. rewrite drop_0, <- !app_assoc. cbn [app].
    replace (length (x :: q ++ m :: ms) - QUEUE_CAPACITY)%nat
      with (S (length (q ++ m :: ms) - QUEUE_CAPACITY))%nat; [done|].
    cbn [length]. rewrite length_app. cbn [length]. lia.
  - rewrite IH by (rewrite length_app; cbn; lia). by rewrite <- app_assoc.
Qed.

Definition slow_of (ms : list IvpMessage) : list IvpMessage := filter (fun m => is_slow m = true) ms.
Definition fast_of (ms : list IvpMessage) : list IvpMessage := filter (fun m => is_slow m = false) ms.

(** Overload drops the oldest messages of a class only. Receiving any
    sequence of messages while no processor runs leaves in the slow queue the
    newest 50 status and event log messages and in the fast queue the newest 50
    others, each in the order of arrival: a flood of status messages never
    displaces a registration, configuration or ordinary message. *)
Theorem queues_keep_newest ms :
  foldl (fun q m => enqueue m q) Queues_new ms = mkQueues (newest (fast_of ms)) (newest (slow_of ms)).
Proof.
  enough (forall q, foldl (fun q m => enqueue m q) q ms =
    mkQueues (foldl push_back (mFastMessageQueue q) (fast_of ms))
             (foldl push_back (mSlowMessageQueue q) (slow_of ms))) as ->.
  { by rewrite !push_back_newest by (cbn; lia). }
  unfold fast_of, slow_of. induction ms as [|m ms IH]; intros [f sl]; [done|].
  cbn [foldl]. rewrite IH, !filter_cons. unfold enqueue.
  destruct (is_slow m) eqn:E; by repeat case_decide.
Qed.

(** ** A small database, for examples: it answers or it is down *)
Record toy := mkToy { up : bool; rows : list (string * ConfigEntry) }.
Definition answer {A} (a : A) (d : toy) : option A * toy := (if up d then Some a else None, d).
#[export] Instance toy_db : Database toy := {|
  insertOrUpdatePlugin := fun _ => answer 7;
  initializePluginConfigParameters := fun _ _ => answer tt;
  getPluginConfigParameters := fun _ d => answer (rows d) d;
  updatePluginConfigParameterValue := fun _ => answer tt;
  insertMessageType := fun _ => answer 1;
  mapPluginToMessageType := fun _ _ => answer tt;
  db_setPluginStatus := fun _ _ => answer tt;
  setPluginStatusItems := fun _ _ => answer tt;
  removePluginStatusItems := fun _ _ => answer tt;
  removeAllPluginStatusItems := fun _ => answer tt
|}.

Definition example_db : toy := mkToy true [("rate"%string, mkConfig 1 7 "rate" "9" "5" "")].
Definition empty_core (d : toy) : Core toy := mkCore ∅ [] ∅ d [] [].
Definition connected (p : Z) (s : Core toy) : Core toy :=
  set_plugins (<[p := Plugin_new]> (plugins s)) s.
Definition registration : IvpMessage :=
  IvpApi.ivpRegister_createMsgFromJson 0 (cJSON_AddStringToObject cJSON_CreateObject "name" "SPAT").
(** A plugin at address 5 has registered as SPAT. *)
Definition registered_core : Core toy := Eval vm_compute in
  snd (processFast 0 5 registration (connected 5 (empty_core example_db))).

Lemma registered_reachable : exists qs, reachable 0 example_db (Running registered_core qs).
Proof.
  eexists. eapply rtc_l; [apply (step_connect 0 (empty_core example_db) ∅ 5); reflexivity|].
  eapply rtc_l; [eapply (step_receive 0 _ _ 5 Queues_new registration); apply lookup_insert_eq|].
  eapply rtc_l; [|apply rtc_refl].
  assert (forall qs, Running registered_core qs =
    after (processFast 0 5 registration (connected 5 (empty_core example_db))) qs) as -> by by vm_compute.
  by apply (step_fast 0 _ _ 5 (enqueue registration Queues_new)); [apply lookup_insert_eq|].
Qed.

Lemma active_names_unique_witness :
  let s := registered_core in
  (forall p, mRegistered (this p s) = true ->
     name (mInfo (this p s)) ∈ clientNames s /\ name (mInfo (this p s)) <> ""%string) /\
  (forall p q, mRegistered (this p s) = true -> mRegistered (this q s) = true ->
     name (mInfo (this p s)) = name (mInfo (this q s)) -> p = q).
Proof. destruct registered_reachable as [qs Hr]. exact (active_names_unique 0 example_db registered_core qs Hr). Defined.

Lemma ordinary_message_routed_witness :
  processFast 0 5 Router.bsm registered_core = (inr tt,
    if mRegistered (this 5 registered_core) then
      add_sent (map (fun r => (r, stamp (mInfo (this 5 registered_core)) Router.bsm))
        (Router.broadcastMessage 5 (stamp (mInfo (this 5 registered_core)) Router.bsm) (router registered_core)))
        registered_core
    else add_sent [(5, IvpApi.ivpError_createMsg 0 (IvpApi.mkError IvpApi.IvpLogLevel_error 0 0))] registered_core).
Proof. apply ordinary_message_routed; reflexivity. Defined.

Definition bad_config : IvpMessage :=
  let m := IvpApi.ivpConfig_createMsg 0 (IvpApi.ivpConfig_addItemToCollection None (Some "nope") (Some "1") None) in
  mkMsg (msg_type m) (subtype m) (Some "SPAT"%string) 7 (encoding m) (timestamp m) (flags m) None (payload m).

Lemma config_message_terminates_core_witness :
  after (processFast 0 5 bad_config registered_core) ∅ = Terminated.
Proof.
  eapply config_message_terminates_core; try reflexivity; [discriminate|].
  right. vm_compute. reflexivity.
Defined.

Lemma failed_registration_blocks_name_witness :
  let info := mkInfo (mkPluginEntry 0 "SPAT" "" "") [] [] in
  let s := connected 5 (empty_core (mkToy false [])) in
  let n := name (pluginInfo info) in
  exists s1, registerPlugin 0 5 info s = (inl PluginException, s1) /\
    (forall q, identity q s1 = identity q s) /\
    n ∈ clientNames (snd (destroyPlugin 5 s1)) /\
    forall q info' s2, name (pluginInfo info') = n -> n ∈ clientNames s2 ->
      registerPlugin 0 q info' s2 = (inl PluginException, s2).
Proof.
  apply failed_registration_blocks_name; try reflexivity; [discriminate|].
  cbn. apply not_elem_of_empty.
Defined.

Lemma config_monitor_converges_witness :
  let s := registered_core in
  let known := mConfigValues (this 5 s) in
  let configMap := [("rate"%string, mkConfig 1 7 "rate" "8" "5" "")] in
  exists told s', configMonitor (onConfigChanged 0) 5 (set_db (mkToy true configMap) s) = (inr tt, s') /\
    (forall k, OrdMap.find k (mConfigValues (this 5 s')) = monitored known configMap k) /\
    sent s' = sent s ++ map (fun e => (5, IvpApi.ivpConfig_createMsg 0
      (IvpApi.ivpConfig_addItemToCollection None (Some (c_key e)) (Some (c_value e)) None))) told /\
    (forall e', e' ∈ told <-> exists k, OrdMap.find k configMap = Some e' /\
       match OrdMap.find k known with
       | Some e => c_value e' <> c_value e
       | None => True
       end) /\
    (forall k e', OrdMap.find k configMap = Some e' ->
       exists e, OrdMap.find k (mConfigValues (this 5 s')) = Some e /\ c_value e = c_value e').
Proof.
  intros s known configMap.
  apply (config_monitor_converges 0 5 (set_db (mkToy true configMap) s) configMap (mkToy true configMap)).
  - by vm_compute.
  - reflexivity.
  - change (OrdMap.sorted (rows example_db)). apply OrdMap.sorted_cons. split; constructor.
  - apply OrdMap.sorted_cons. split; constructor.
Defined.
End Connection.
