(* ===== verification/Client.v ===== *)
(** The plugin's side of the protocol, [src/src/tmx/TmxApi/tmx/IvpPlugin.c]: the
    creation of a client, the calls of the application, the handling of a message
    from the core, and the thread that connects, registers and receives.

    The network is the class [Network] over a state of its own. The state of the
    client carries the trace of what it sends and of what it passes to the
    application's callbacks; a callback that is not set receives nothing, and
    callbacks are not modelled as calling the library back. The thread is a machine
    whose step is one round of a loop. Every function is a step of its own here; the
    interleaving of threads and the callbacks that call are in [ClientThreads]. *)
From S2P Require Import Prelude Framer Json JsonText IvpMessage Wire IvpApi.
Import Json IvpMsg IvpApi.
Open Scope Z_scope.

(** What the thread asks of the system; a failure is its error number. *)
Inductive received := RecvFailed (errno : Z) | RecvClosed | RecvData (data : list Z).
Class Network (W : Type) := {
  net_now : W -> Z;
  net_socket : W -> (Z + Z) * W;
  net_connect : Z -> string -> Z -> W -> option Z * W;
  net_send : Z -> list Z -> W -> bool * W;
  net_recv : Z -> Z -> W -> received * W }.

Module Client.
Definition IVP_DEFAULT_IP : string := "127.0.0.1".
Definition IVP_DEFAULT_PORT : Z := 24601.
Definition IvpError_manifestLoad : Z := 1.
Definition IvpError_manifestParse : Z := 2.
Definition IvpError_connectFail : Z := 9.
Definition IvpError_connectionDropped : Z := 10.

Inductive IvpPluginState := disconnected | connected | registered | failed.
#[export] Instance IvpPluginState_eq_dec : EqDecision IvpPluginState.
Proof. solve_decision. Defined.

(** What leaves the client: a frame given to [send], with its success, and the
    callbacks. *)
Inductive event :=
| Sent (data : list Z) (ok : bool)
| OnStateChange (s : IvpPluginState)
| OnError (e : IvpError)
| OnConfigChanged (key value : string)
| OnMsgReceived (m : IvpMessage).

Section client.
Context {W : Type} {NW : Network W} {JT : JsonText}.
(** The memory [ivpMsg_parse] leaves uninitialised. *)
Variable mem : IvpDsrcMetadata.

Record IvpPlugin := mkPlugin {
  state : IvpPluginState; jsonManifest : cJSON; filter : option cJSON; config : option cJSON;
  coreIpAddr : string; corePortNumber : Z; socket : Z;
  world : W; trace : list event }.

Definition set_state (st : IvpPluginState) (p : IvpPlugin) : IvpPlugin :=
  mkPlugin st (jsonManifest p) (filter p) (config p) (coreIpAddr p) (corePortNumber p) (socket p)
    (world p) (trace p).
Definition set_filter (f : option cJSON) (p : IvpPlugin) : IvpPlugin :=
  mkPlugin (state p) (jsonManifest p) f (config p) (coreIpAddr p) (corePortNumber p) (socket p)
    (world p) (trace p).
Definition set_config (c : option cJSON) (p : IvpPlugin) : IvpPlugin :=
  mkPlugin (state p) (jsonManifest p) (filter p) c (coreIpAddr p) (corePortNumber p) (socket p)
    (world p) (trace p).
Definition set_socket (fd : Z) (p : IvpPlugin) : IvpPlugin :=
  mkPlugin (state p) (jsonManifest p) (filter p) (config p) (coreIpAddr p) (corePortNumber p) fd
    (world p) (trace p).
Definition set_world (w : W) (p : IvpPlugin) : IvpPlugin :=
  mkPlugin (state p) (jsonManifest p) (filter p) (config p) (coreIpAddr p) (corePortNumber p) (socket p)
    w (trace p).
Definition emit (e : event) (p : IvpPlugin) : IvpPlugin :=
  mkPlugin (state p) (jsonManifest p) (filter p) (config p) (coreIpAddr p) (corePortNumber p) (socket p)
    (world p) (trace p ++ [e]).

Definition is_up (st : IvpPluginState) : bool :=
  match st with connected | registered => true | _ => false end.
Definition now (p : IvpPlugin) : Z := net_now (world p).

(** * Callbacks *)
Definition ivp_onError (err : IvpError) (p : IvpPlugin) : IvpPlugin :=
  if error err =? IvpError_none then p
  else emit (OnError err) (if IvpLogLevel_fatal <=? level err then set_state failed p else p).

Definition ivp_onStateChange (st : IvpPluginState) (p : IvpPlugin) : IvpPlugin :=
  if bool_decide (state p = st) then p else emit (OnStateChange st) (set_state st p).

Definition ivp_onConfigChanged (key value : string) (p : IvpPlugin) : IvpPlugin :=
  emit (OnConfigChanged key value) p.

(** * Sending *)
Definition ivp_broadcastMessage (m : IvpMessage) (p : IvpPlugin) : IvpPlugin :=
  if negb (is_up (state p)) then p
  else
    let framedMsg := Wire.framed m in
    let '(ok, w) := net_send (socket p) framedMsg (world p) in
    let p := emit (Sent framedMsg ok) (set_world w p) in
    if ok then p else ivp_onStateChange disconnected p.

Definition ivp_broadcastAndDestroyMessage (m : option IvpMessage) (p : IvpPlugin) : IvpPlugin :=
  match m with Some m => ivp_broadcastMessage m p | None => p end.

(** [changed] is the test of the pointers; the filter is copied. *)
Definition ivp_subscribe (changed : bool) (f : option cJSON) (p : IvpPlugin) : IvpPlugin :=
  let p := if changed then set_filter (cJSON_Duplicate <$> f) p else p in
  ivp_broadcastAndDestroyMessage (Some (ivpSubscribe_createMsg (now p) (filter p))) p.

Definition ivp_setStatus (status : string) (p : IvpPlugin) : IvpPlugin :=
  ivp_broadcastAndDestroyMessage
    (Some (ivpPluginStatus_createMsg (now p) (ivpPluginStatus_addStatusItem None None (Some status)))) p.

Definition ivp_setStatusItem (key value : string) (p : IvpPlugin) : IvpPlugin :=
  if String.eqb key "" then p
  else
    ivp_broadcastAndDestroyMessage
      (Some (ivpPluginStatus_createMsg (now p) (ivpPluginStatus_addStatusItem None (Some key) (Some value)))) p.

Definition ivp_removeStatusItem (key : string) (p : IvpPlugin) : IvpPlugin :=
  if String.eqb key "" then p
  else
    ivp_broadcastAndDestroyMessage
      (Some (ivpPluginStatus_createMsg (now p) (ivpPluginStatus_addStatusItem None (Some key) None))) p.

Definition ivp_addEventLog (lvl : Z) (description : string) (p : IvpPlugin) : IvpPlugin :=
  if String.eqb description "" then p
  else ivp_broadcastAndDestroyMessage (ivpEventLog_createMsg (now p) lvl (Some description)) p.

Definition ivp_setConfigurationValue (key value : string) (p : IvpPlugin) : IvpPlugin :=
  if String.eqb key "" then p
  else
    ivp_broadcastAndDestroyMessage
      (Some (ivpConfig_createMsg (now p) (ivpConfig_addItemToCollection None (Some key) (Some value) None))) p.

Definition ivp_getCopyOfConfigurationValue (key : string) (p : IvpPlugin) : option string * IvpPlugin :=
  if String.eqb key "" then (None, p)
  else
    match config p with
    | None => (None, ivp_onError (ivpError_createError IvpLogLevel_error IvpError_configKeyDoesntExist 0) p)
    | Some c => (ivpConfig_getCopyOfValueFromCollection (Some c) key, p)
    end.

(** * A message from the core *)
Definition update_config (item : IvpConfigItem) (p : IvpPlugin) : IvpPlugin :=
  match key item, value item with
  | Some k, Some v =>
      let '(found, c) := ivpConfig_updateValueInCollection (config p) (Some k) (Some v) in
      let p := set_config c p in
      if found =? 0 then p else ivp_onConfigChanged k v p
  | _, _ => p
  end.

Definition ivp_onMessageReceived (m : IvpMessage) (p : IvpPlugin) : IvpPlugin :=
  if ivpError_isErrMsg m then ivp_onError (ivpError_getError m) p
  else if ivpConfig_isConfigMsg m then
    let p := fold_left (fun p item => update_config (ivpConfig_item item) p) (items (payload m)) p in
    if bool_decide (state p = connected)
    then ivp_subscribe false None (ivp_onStateChange registered p)
    else p
  else emit (OnMsgReceived m) p.

(** * The receive thread *)
(** At the head of the outer loop, after [connect], in the inner loop with the
    framer of the connection, or returned. *)
Inductive position := Outer | Connecting (fd : Z) | Inner (framer : Framer.MsgFramer) | Returned.

Definition handle_text (p : IvpPlugin) (rawmsg : list Z) : IvpPlugin :=
  match ivpMsg_parse mem rawmsg with
  | Some m => ivp_onMessageReceived m p
  | None => ivp_onError (ivpError_createError IvpLogLevel_warn IvpError_messageParse 0) p
  end.

(** The messages of the buffer: the framer does not depend on their handling. *)
Definition drain_fuel : nat := S (Z.to_nat Framer.MSG_FRAMER_MAX_BUF_SIZE).
Definition take_data (data : list Z) (framer : Framer.MsgFramer) (p : IvpPlugin)
    : option (Framer.MsgFramer * IvpPlugin) :=
  '(raws, framer) ← Framer.drain drain_fuel (Framer.recv_bytes data framer);
  Some (framer, fold_left handle_text raws p).

Definition outer_round (p : IvpPlugin) : position * IvpPlugin :=
  if bool_decide (state p = failed) then (Returned, p)
  else
    let '(s, w) := net_socket (world p) in
    let p := set_world w p in
    match s with
    | inl errno =>
        (Outer, ivp_onError (ivpError_createError IvpLogLevel_error IvpError_connectFail errno) p)
    | inr fd =>
        let '(c, w) := net_connect fd (coreIpAddr p) (corePortNumber p) (world p) in
        let p := set_world w p in
        match c with
        | Some errno =>
            (Outer, ivp_onError (ivpError_createError IvpLogLevel_error IvpError_connectFail errno) p)
        | None => (Connecting fd, ivp_onStateChange connected (set_socket fd p))
        end
    end.

(** [None] only where the drain of the framer has no fuel left. *)
Definition inner_round (framer : Framer.MsgFramer) (p : IvpPlugin) : option (position * IvpPlugin) :=
  if is_up (state p) then
    let '(r, w) := net_recv (socket p) (Framer.msgFramer_getBufLength framer) (world p) in
    let p := set_world w p in
    match r with
    | RecvFailed errno =>
        Some (Inner framer, ivp_onStateChange disconnected
          (ivp_onError (ivpError_createError IvpLogLevel_error IvpError_connectionDropped errno) p))
    | RecvClosed => Some (Inner framer, ivp_onStateChange disconnected p)
    | RecvData data => '(framer, p) ← take_data data framer p; Some (Inner framer, p)
    end
  else Some (Outer, set_socket (-1) p).

Definition ivp_receive_step (x : position * IvpPlugin) : option (position * IvpPlugin) :=
  match x with
  | (Outer, p) => Some (outer_round p)
  | (Connecting fd, p) =>
      Some (Inner Framer.MSG_FRAMER_INITIALIZER,
            ivp_broadcastAndDestroyMessage (Some (ivpRegister_createMsgFromJson (now p) (jsonManifest p))) p)
  | (Inner framer, p) => inner_round framer p
  | (Returned, p) => Some (Returned, p)
  end.

(** * Creation *)
(** The errors are passed to the callback without a client where there is none
    yet; a client that is not valid is destroyed. *)
Definition ivp_create (rawManifest : option (list Z)) (errno : Z) (w : W) : option IvpPlugin * list IvpError :=
  match rawManifest with
  | None => (None, [ivpError_createError IvpLogLevel_fatal IvpError_manifestLoad errno])
  | Some raw =>
      match cJSON_Parse raw with
      | None => (None, [ivpError_createError IvpLogLevel_fatal IvpError_manifestParse errno])
      | Some json =>
          let manifest := ivpRegister_getManifestFromJson json in
          let manifestError := ivpRegister_validateManifest (Some manifest) in
          if error manifestError =? IvpError_none then
            (Some (mkPlugin disconnected json None (cJSON_Duplicate <$> configuration manifest)
                     (default IVP_DEFAULT_IP (IvpApi.coreIpAddr manifest))
                     (if corePort manifest =? 0 then IVP_DEFAULT_PORT else corePort manifest)
                     0 w []), [])
          else (None, [manifestError])
      end
  end.

(** * The calls of the application *)
Inductive call :=
| Subscribe (changed : bool) (f : option cJSON)
| SetStatus (status : string)
| SetStatusItem (key value : string)
| RemoveStatusItem (key : string)
| AddEventLog (lvl : Z) (description : string)
| Broadcast (m : IvpMessage)
| SetConfigurationValue (key value : string)
| GetConfigurationValue (key : string).

Definition perform (c : call) (p : IvpPlugin) : IvpPlugin :=
  match c with
  | Subscribe changed f => ivp_subscribe changed f p
  | SetStatus s => ivp_setStatus s p
  | SetStatusItem k v => ivp_setStatusItem k v p
  | RemoveStatusItem k => ivp_removeStatusItem k p
  | AddEventLog l d => ivp_addEventLog l d p
  | Broadcast m => ivp_broadcastMessage m p
  | SetConfigurationValue k v => ivp_setConfigurationValue k v p
  | GetConfigurationValue k => snd (ivp_getCopyOfConfigurationValue k p)
  end.

Lemma send_not_up m p : is_up (state p) = false -> ivp_broadcastMessage m p = p.
Proof. intros H. unfold ivp_broadcastMessage. by rewrite H. Qed.

(** A client that is not up sends nothing on any call. *)
Lemma perform_down c p :
  is_up (state p) = false ->
  state (perform c p) = state p /\
  (trace (perform c p) = trace p \/ exists e, trace (perform c p) = trace p ++ [OnError e]).
Proof.
  intros Hu. destruct c as [[] f|st|k v|k|l d|m'|k v|k]; cbn [perform]; unfold ivp_subscribe, ivp_setStatus,
    ivp_setStatusItem, ivp_removeStatusItem, ivp_addEventLog, ivp_setConfigurationValue,
    ivp_broadcastAndDestroyMessage; try case_if; rewrite ?send_not_up; auto.
  - destruct (ivpEventLog_createMsg _ _ _); [rewrite send_not_up|]; auto.
  - unfold ivp_getCopyOfConfigurationValue. case_if; [by auto|]. destruct (config p); [by auto|].
    split; [done|]. right. by eexists.
Qed.

(** * After a fatal error *)
Fixpoint thread_steps (n : nat) (x : position * IvpPlugin) : option (position * IvpPlugin) :=
  match n with O => Some x | S n => y ← ivp_receive_step x; thread_steps n y end.

Lemma thread_steps_app n m x y :
  thread_steps n x = Some y -> thread_steps (n + m) x = thread_steps m y.
Proof.
  revert x. induction n as [|n IH]; intros x; cbn [thread_steps Nat.add]; [by intros [= ->]|].
  intros (z & Hz & H)%bind_Some. rewrite Hz. cbn. by apply IH.
Qed.

Lemma failed_returns pos p :
  state p = failed ->
  exists n p', (n <= 3)%nat /\ thread_steps n (pos, p) = Some (Returned, p') /\
    state p' = failed /\ trace p' = trace p.
Proof.
  intros Hf. assert (is_up (state p) = false) as Hu by (by rewrite Hf).
  assert (forall q, state q = failed -> ivp_receive_step (Outer, q) = Some (Returned, q)) as Ho.
  { intros q Hq. cbn. unfold outer_round. by rewrite bool_decide_true. }
  assert (forall f q, state q = failed -> ivp_receive_step (Inner f, q) = Some (Outer, set_socket (-1) q)) as Hi.
  { intros f q Hq. cbn. unfold inner_round. by rewrite Hq. }
  destruct pos as [|fd|f|].
  - exists 1%nat, p. cbn [thread_steps]. rewrite Ho by done. split; [lia|done].
  - exists 3%nat, (set_socket (-1) p). split; [lia|]. cbn [thread_steps ivp_receive_step].
    cbn [ivp_broadcastAndDestroyMessage mbind option_bind]. rewrite send_not_up by done.
    rewrite (Hi _ p Hf). cbn [mbind option_bind]. by rewrite Ho.
  - exists 2%nat, (set_socket (-1) p). split; [lia|]. cbn [thread_steps].
    rewrite (Hi _ p Hf). cbn [mbind option_bind]. by rewrite Ho.
  - exists 0%nat, p. split; [lia|done].
Qed.

(** * Properties *)
(** A fatal error ends the client: an error message of fatal level that arrives
    in any position puts the client in the error state, in which no call of the
    application sends anything or leaves the state, and the thread returns after at
    most three steps without a further event. *)
Theorem fatal_error_ends_client (m : IvpMessage) (p : IvpPlugin) (pos : position) (cs : list call) :
  ivpError_isErrMsg m = true -> error (ivpError_getError m) <> IvpError_none ->
  IvpLogLevel_fatal <= level (ivpError_getError m) ->
  let p1 := fold_left (fun p c => perform c p) cs (ivp_onMessageReceived m p) in
  state p1 = failed /\
  (forall data ok, Sent data ok ∈ trace p1 -> Sent data ok ∈ trace p) /\
  exists n p', (n <= 3)%nat /\ thread_steps n (pos, p1) = Some (Returned, p') /\
    state p' = failed /\ trace p' = trace p1.
Proof.
  intros Hm He Hl. cbn zeta.
  assert (state (ivp_onMessageReceived m p) = failed /\
    forall data ok, Sent data ok ∈ trace (ivp_onMessageReceived m p) -> Sent data ok ∈ trace p) as [H0 Ht0].
  { unfold ivp_onMessageReceived. rewrite Hm. unfold ivp_onError.
    rewrite (proj2 (Z.eqb_neq _ _) He), (proj2 (Z.leb_le _ _) Hl). split; [done|].
    intros data ok. cbn. rewrite elem_of_app, list_elem_of_singleton. by intros [?|?]. }
  revert H0 Ht0. generalize (ivp_onMessageReceived m p) as q.
  induction cs as [|c cs IH]; intros q Hq Ht; cbn.
  - split; [done|]. split; [done|]. by apply failed_returns.
  - destruct (perform_down c q) as [Es Et]; [by rewrite Hq|]. apply IH; [by rewrite Es|].
    intros data ok. destruct Et as [->|[e ->]]; [apply Ht|].
    rewrite elem_of_app, list_elem_of_singleton. intros [H|?]; [by apply Ht|done].
Qed.


(** The callbacks of a message that is no error: the items of a configuration
    message with a key and a value, or the message itself. *)
Definition config_events (m : IvpMessage) : list event :=
  omap (fun item => match key (ivpConfig_item item), value (ivpConfig_item item) with
                    | Some k, Some v => Some (OnConfigChanged k v)
                    | _, _ => None
                    end) (items (payload m)).
Definition message_events (m : IvpMessage) : list event :=
  if ivpConfig_isConfigMsg m then config_events m else [OnMsgReceived m].

(** What a message leaves alone. *)
Definition same_client (p q : IvpPlugin) : Prop :=
  state q = state p /\ jsonManifest q = jsonManifest p /\ filter q = filter p /\ socket q = socket p /\
  world q = world p.

#[local] Instance same_client_trans : Transitive same_client.
Proof. intros p q r (?&?&?&?&?) (?&?&?&?&?). unfold same_client. split_and!; congruence. Qed.

Lemma update_config_spec item p :
  same_client p (update_config (ivpConfig_item item) p) /\
  trace (update_config (ivpConfig_item item) p) = trace p ++
    omap (fun item => match key (ivpConfig_item item), value (ivpConfig_item item) with
                      | Some k, Some v => Some (OnConfigChanged k v)
                      | _, _ => None
                      end) [item].
Proof.
  unfold update_config. cbn [omap list_omap].
  destruct (key (ivpConfig_item item)), (value (ivpConfig_item item)); cbn; rewrite ?app_nil_r; done.
Qed.

Lemma config_items_spec l p :
  let q := fold_left (fun p item => update_config (ivpConfig_item item) p) l p in
  same_client p q /\
  trace q = trace p ++
    omap (fun item => match key (ivpConfig_item item), value (ivpConfig_item item) with
                      | Some k, Some v => Some (OnConfigChanged k v)
                      | _, _ => None
                      end) l.
Proof.
  cbn zeta. revert p. induction l as [|item l IH]; intros p; cbn [fold_left].
  - cbn. by rewrite app_nil_r.
  - destruct (update_config_spec item p) as [S1 T1].
    destruct (IH (update_config (ivpConfig_item item) p)) as [S2 T2].
    split; [by etrans|]. rewrite T2, T1, <- app_assoc. f_equal. cbn. by case_match.
Qed.

Lemma received_registered m p :
  state p = registered -> ivpError_isErrMsg m = false ->
  same_client p (ivp_onMessageReceived m p) /\
  trace (ivp_onMessageReceived m p) = trace p ++ message_events m.
Proof.
  intros Hs He. unfold ivp_onMessageReceived, message_events. rewrite He.
  destruct (ivpConfig_isConfigMsg m); [|done].
  destruct (config_items_spec (items (payload m)) p) as [S T].
  rewrite bool_decide_false; [done|]. rewrite (proj1 S), Hs. done.
Qed.
End client.

(** * The registration *)
(** A peer that is a script: every connection and every [send] succeeds, and each
    [recv] gets what the room and the size of a segment allow of the stream. *)
Record script := mkScript { clock : Z; sizes : list nat; stream : list Z }.
#[export] Instance script_network : Network script := {
  net_now := clock;
  net_socket w := (inr 3, w);
  net_connect _ _ _ w := (None, w);
  net_send _ _ w := (true, w);
  net_recv _ n w :=
    match sizes w with
    | [] => (RecvClosed, w)
    | k :: ks =>
        let k' := Nat.min k (Z.to_nat n) in
        match take k' (stream w) with
        | [] => (RecvClosed, w)
        | data => (RecvData data, mkScript (clock w) ks (drop k' (stream w)))
        end
    end }.

Section script.
Context {JT : JsonText}.
Variable mem : IvpDsrcMetadata.
Implicit Types p : IvpPlugin (W := script).

Lemma send_script m p :
  is_up (state p) = true ->
  ivp_broadcastMessage m p = emit (Sent (Wire.framed m) true) (set_world (world p) p).
Proof. intros H. unfold ivp_broadcastMessage. by rewrite H. Qed.

Lemma received_connected m p :
  state p = connected -> ivpConfig_isConfigMsg m = true -> ivpError_isErrMsg m = false ->
  let q := ivp_onMessageReceived m p in
  state q = registered /\ jsonManifest q = jsonManifest p /\ filter q = filter p /\
  world q = world p /\
  trace q = trace p ++ config_events m ++
    [OnStateChange registered; Sent (Wire.framed (ivpSubscribe_createMsg (clock (world p)) (filter p))) true].
Proof.
  intros Hs Hc He. cbn zeta. unfold ivp_onMessageReceived. rewrite He, Hc.
  destruct (config_items_spec (items (payload m)) p) as [(S1 & S2 & S3 & S4 & S5) T].
  set (q := fold_left _ _ p) in *.
  rewrite bool_decide_true by congruence.
  unfold ivp_subscribe, ivp_broadcastAndDestroyMessage, ivp_onStateChange.
  rewrite bool_decide_false by (rewrite S1, Hs; done).
  rewrite send_script by done. cbn. rewrite S5, S3, T, <- !app_assoc. done.
Qed.

(** The time of the world is all the handling of a message reads of it. *)
Lemma send_set_world m p w :
  ivp_broadcastMessage m (set_world w p) = set_world w (ivp_broadcastMessage m p).
Proof. unfold ivp_broadcastMessage. cbn. by destruct (is_up (state p)). Qed.

Lemma onError_set_world e p w : ivp_onError e (set_world w p) = set_world w (ivp_onError e p).
Proof. unfold ivp_onError. case_if; [done|]. by case_if. Qed.

Lemma update_set_world item p w :
  update_config item (set_world w p) = set_world w (update_config item p).
Proof. unfold update_config. by destruct (key item), (value item). Qed.

Lemma fold_update_set_world l p w :
  fold_left (fun p item => update_config (ivpConfig_item item) p) l (set_world w p) =
  set_world w (fold_left (fun p item => update_config (ivpConfig_item item) p) l p).
Proof. revert p. induction l as [|i l IH]; intros p; cbn; [done|]. by rewrite update_set_world, IH. Qed.

Lemma handle_set_world raw p w :
  clock w = clock (world p) ->
  handle_text mem (set_world w p) raw = set_world w (handle_text mem p raw).
Proof.
  intros Hc. unfold handle_text. destruct (ivpMsg_parse mem raw) as [m|]; [|apply onError_set_world].
  unfold ivp_onMessageReceived. case_if; [apply onError_set_world|]. case_if; [|done].
  rewrite fold_update_set_world.
  destruct (config_items_spec (items (payload m)) p) as [(S1 & S2 & S3 & S4 & S5) _].
  set (q := fold_left _ _ p) in *. cbn [state set_world].
  case_bool_decide; [|done]. unfold ivp_subscribe, ivp_broadcastAndDestroyMessage, ivp_onStateChange, now.
  cbn [state set_world]. case_bool_decide; cbn [filter world set_world emit set_state net_now script_network];
    rewrite S5, <- Hc; [apply send_set_world|].
  change (emit (OnStateChange registered) (set_state registered (set_world w q)))
    with (set_world w (emit (OnStateChange registered) (set_state registered q))).
  apply send_set_world.
Qed.

Lemma send_world m p : world (ivp_broadcastMessage m p) = world p.
Proof. unfold ivp_broadcastMessage. cbn. by destruct (is_up (state p)). Qed.

Lemma handle_world raw p : world (handle_text mem p raw) = world p.
Proof.
  unfold handle_text. destruct (ivpMsg_parse mem raw) as [m|].
  - unfold ivp_onMessageReceived. case_if; [unfold ivp_onError; repeat case_if; done|].
    case_if; [|done]. destruct (config_items_spec (items (payload m)) p) as [(S1 & S2 & S3 & S4 & S5) _].
    case_bool_decide; [|done]. unfold ivp_subscribe, ivp_broadcastAndDestroyMessage.
    rewrite send_world. unfold ivp_onStateChange. by case_bool_decide.
  - unfold ivp_onError. by repeat case_if.
Qed.

(** A text that keeps the client up. *)
Definition welcome (raw : list Z) : Prop :=
  exists m, ivpMsg_parse mem raw = Some m /\ ivpError_isErrMsg m = false.

Lemma handle_up raw p :
  welcome raw -> is_up (state p) = true -> is_up (state (handle_text mem p raw)) = true.
Proof.
  intros (m & Em & He) Hu. unfold handle_text. rewrite Em.
  destruct (decide (state p = connected /\ ivpConfig_isConfigMsg m = true)) as [[Hs Hc]|Hn].
  - by destruct (received_connected m p Hs Hc He) as (-> & _).
  - unfold ivp_onMessageReceived. rewrite He. destruct (ivpConfig_isConfigMsg m) eqn:Hc; [|done].
    destruct (config_items_spec (items (payload m)) p) as [(S1 & _) _].
    rewrite bool_decide_false; [by rewrite S1|]. rewrite S1. tauto.
Qed.

Lemma fold_handle raws p w :
  clock w = clock (world p) -> Forall welcome raws -> is_up (state p) = true ->
  fold_left (handle_text mem) raws (set_world w p) = set_world w (fold_left (handle_text mem) raws p) /\
  is_up (state (fold_left (handle_text mem) raws p)) = true /\
  world (fold_left (handle_text mem) raws p) = world p.
Proof.
  revert p. induction raws as [|raw raws IH]; intros p Hc Hw Hu; cbn; [done|].
  apply Forall_cons in Hw as [H1 Hw]. rewrite handle_set_world by done.
  destruct (IH (handle_text mem p raw)) as (E1 & E2 & E3); [by rewrite handle_world|done|by apply handle_up|].
  split; [done|]. split; [done|]. by rewrite E3, handle_world.
Qed.

Lemma set_world_id p : set_world (world p) p = p.
Proof. by destruct p. Qed.

(** The inner loop handles what the framer finds in the stream, however it is cut. *)
Lemma inner_run ss st f raws f' p c :
  Framer.receive ss st f = Some (raws, [], f') -> world p = mkScript c ss st ->
  Forall welcome raws -> is_up (state p) = true ->
  exists n ss', thread_steps mem n (Inner f, p) =
    Some (Inner f', set_world (mkScript c ss' []) (fold_left (handle_text mem) raws p)).
Proof.
  revert st f raws p. induction ss as [|k ss IH]; intros st f raws p; cbn [Framer.receive].
  { intros [= <- -> <-] Hw _ _. exists 0%nat, []. cbn. by rewrite <- Hw, set_world_id. }
  set (k' := Nat.min k _). destruct (take k' st) as [|x data] eqn:Ed.
  { intros [= <- -> <-] Hw _ _. exists 0%nat, (k :: ss). cbn. by rewrite <- Hw, set_world_id. }
  intros ([raws1 f1] & Hd & ([[raws2 st2] f2] & Hr & [= <- -> <-])%bind_Some)%bind_Some Hw Hwel Hu.
  apply Forall_app in Hwel as [Hw1 Hw2].
  set (w1 := mkScript c ss (drop k' st)).
  destruct (fold_handle raws1 p w1) as (E1 & U1 & W1); [by rewrite Hw|done|done|].
  assert (ivp_receive_step mem (Inner f, p) =
    Some (Inner f1, set_world w1 (fold_left (handle_text mem) raws1 p))) as Estep.
  { cbn [ivp_receive_step]. unfold inner_round. rewrite Hu. cbn [net_recv script_network].
    rewrite Hw. cbn [sizes stream clock]. fold k'. rewrite Ed. unfold take_data, drain_fuel.
    rewrite Hd. cbn [mbind option_bind]. fold w1. by rewrite E1. }
  destruct (IH _ _ _ (set_world w1 (fold_left (handle_text mem) raws1 p)) Hr) as (n & ss' & En); try done.
  exists (S n), ss'. cbn [thread_steps]. rewrite Estep. cbn [mbind option_bind]. rewrite En.
  destruct (fold_handle raws2 (fold_left (handle_text mem) raws1 p) w1) as (E2 & _ & _); [by rewrite W1, Hw|done|done|].
  rewrite fold_left_app, E2. done.
Qed.

Lemma fold_registered ms p :
  state p = registered -> Forall (fun m => ivpError_isErrMsg m = false) ms ->
  let q := fold_left (fun p m => ivp_onMessageReceived m p) ms p in
  state q = registered /\ trace q = trace p ++ concat (map message_events ms).
Proof.
  cbn zeta. revert p. induction ms as [|m ms IH]; intros p Hs He; cbn; [by rewrite app_nil_r|].
  apply Forall_cons in He as [Hm He]. destruct (received_registered m p Hs Hm) as [S T].
  destruct (IH (ivp_onMessageReceived m p)) as [S2 T2]; [by rewrite (proj1 S)|done|].
  by rewrite T2, T, <- app_assoc.
Qed.

Lemma fold_texts raws ms p :
  map (ivpMsg_parse mem) raws = map Some ms ->
  fold_left (handle_text mem) raws p = fold_left (fun p m => ivp_onMessageReceived m p) ms p.
Proof.
  revert ms p. induction raws as [|raw raws IH]; intros [|m ms] p; try done. cbn.
  intros [= E1 E2]. unfold handle_text at 2. rewrite E1. by apply IH.
Qed.

(** The run of a registration, used with the core in [Handshake]. *)
Lemma client_registration (p : IvpPlugin) (cfg : IvpMessage) (ms : list IvpMessage) (c : Z) (ss : list nat) :
  let answer := concat (map Wire.framed (cfg :: ms)) in
  state p = disconnected -> world p = mkScript c ss answer ->
  ivpConfig_isConfigMsg cfg = true -> Forall (fun m => ivpError_isErrMsg m = false) (cfg :: ms) ->
  Forall msg_ok (cfg :: ms) -> Forall Wire.fits (cfg :: ms) ->
  Forall (fun n => 0 < n)%nat ss -> (length answer <= length ss)%nat ->
  exists n framer p',
    thread_steps mem n (Outer, p) = Some (Inner framer, p') /\ state p' = registered /\
    trace p' = trace p ++
      [OnStateChange connected;
       Sent (Wire.framed (ivpRegister_createMsgFromJson c (jsonManifest p))) true] ++
      config_events (arrived cfg) ++
      [OnStateChange registered; Sent (Wire.framed (ivpSubscribe_createMsg c (filter p))) true] ++
      concat (map (fun m => message_events (arrived m)) ms).
Proof.
  cbn zeta. intros Hs Hw Hc He Hok Hfit Hss Hlen.
  destruct (Wire.receive_framed mem (cfg :: ms) ss Hok Hfit Hss Hlen) as (raws & f' & Hr & Hm).
  set (p1 := emit (OnStateChange connected) (set_state connected (set_socket 3 p))).
  set (p2 := emit (Sent (Wire.framed (ivpRegister_createMsgFromJson c (jsonManifest p))) true) p1).
  assert (thread_steps mem 2 (Outer, p) = Some (Inner Framer.MSG_FRAMER_INITIALIZER, p2)) as E2.
  { cbn. unfold outer_round. rewrite bool_decide_false by (by rewrite Hs). cbn.
    unfold ivp_onStateChange. rewrite bool_decide_false by (cbn; by rewrite Hs). cbn.
    unfold now, ivp_broadcastMessage. cbn. rewrite Hw. by destruct p; cbn in *; subst. }
  assert (map (ivpMsg_parse mem) raws = map Some (map arrived (cfg :: ms))) as Hm'.
  { rewrite Hm, map_map. done. }
  destruct (inner_run ss (concat (map Wire.framed (cfg :: ms))) Framer.MSG_FRAMER_INITIALIZER raws f' p2 c)
    as (n & ss' & En); [done|done| |done|].
  { apply Forall_forall. intros raw Hin%list_elem_of_In.
    apply (in_map (ivpMsg_parse mem)) in Hin. rewrite Hm' in Hin.
    apply in_map_iff in Hin as (m' & Em & (m & <- & Hin)%in_map_iff).
    exists (arrived m). split; [done|]. rewrite Forall_forall in He. exact (He m (proj2 (list_elem_of_In _ _) Hin)). }
  apply (thread_steps_app mem _ n) in E2. rewrite En in E2.
  eexists _, f', _. split; [exact E2|].
  rewrite (fold_texts raws (map arrived (cfg :: ms))) by done. cbn [map fold_left].
  apply Forall_cons in He as [He1 He].
  destruct (received_connected (arrived cfg) p2) as (S1 & _ & F1 & _ & T1); [done|done|done|].
  destruct (fold_registered (map arrived ms) (ivp_onMessageReceived (arrived cfg) p2)) as [S3 T3];
    [done|by apply Forall_map|].
  cbn [state trace set_world]. split; [done|]. rewrite T3, T1. cbn [trace p2 p1 emit filter set_state set_socket world].
  rewrite Hw, map_map, <- !app_assoc. done.
Qed.

(** A client registers: from the disconnected state, with a core that accepts the
    connection and whose answer is a configuration message and then any messages that
    are no errors, the thread connects, sends its manifest, takes the configuration
    over, is registered, subscribes, and passes every further message on, once and in
    order, however the stream is cut into segments. *)
Theorem client_registers (p : IvpPlugin) (cfg : IvpMessage) (ms : list IvpMessage) (c : Z) (ss : list nat) :
  let answer := concat (map Wire.framed (cfg :: ms)) in
  state p = disconnected -> world p = mkScript c ss answer ->
  ivpConfig_isConfigMsg cfg = true -> Forall (fun m => ivpError_isErrMsg m = false) (cfg :: ms) ->
  Forall msg_ok (cfg :: ms) -> Forall Wire.fits (cfg :: ms) ->
  Forall (fun n => 0 < n)%nat ss -> (length answer <= length ss)%nat ->
  exists n framer p',
    thread_steps mem n (Outer, p) = Some (Inner framer, p') /\ state p' = registered /\
    trace p' = trace p ++
      [OnStateChange connected;
       Sent (Wire.framed (ivpRegister_createMsgFromJson c (jsonManifest p))) true] ++
      config_events (arrived cfg) ++
      [OnStateChange registered; Sent (Wire.framed (ivpSubscribe_createMsg c (filter p))) true] ++
      concat (map (fun m => message_events (arrived m)) ms).
Proof. apply client_registration. Qed.
End script.

(** * Samples *)
#[local] Existing Instance CJson.cJSON_text.
Definition sample_manifest : cJSON := cJSON_AddStringToObject cJSON_CreateObject "name" "SPAT".
Definition sample_world (l : list Z) : script := mkScript 1700000000000 (replicate 400 7%nat) l.
Definition sample_client (l : list Z) : IvpPlugin :=
  mkPlugin disconnected sample_manifest None None IVP_DEFAULT_IP IVP_DEFAULT_PORT 0 (sample_world l) [].
Definition sample_config : IvpMessage :=
  ivpConfig_createMsg 1700000000000 (ivpConfig_addItemToCollection None (Some "rate") (Some "9") None).
Definition sample_ordinary : IvpMessage :=
  mkMsg (Some "J2735") (Some "BSM") None 7 (Some "json") 1700000000000 0 None None.
Definition sample_answer : list Z := concat (map Wire.framed [sample_config; sample_ordinary]).
Definition after_one : IvpPlugin := snd (outer_round (sample_client [])).
Definition after_two : IvpPlugin :=
  ivp_broadcastMessage (ivpRegister_createMsgFromJson (now after_one) sample_manifest) after_one.

Definition sample_fatal : IvpMessage :=
  ivpError_createMsg 0 (ivpError_createError IvpLogLevel_fatal IvpError_pluginNoName 0).
Definition sample_ended : IvpPlugin :=
  fold_left (fun p c => perform c p) [SetStatus "ok"; Subscribe false None]
    (ivp_onMessageReceived sample_fatal after_two).

Lemma fatal_error_ends_client_witness :
  state sample_ended = failed /\
  (forall data ok, Sent data ok ∈ trace sample_ended -> Sent data ok ∈ trace after_two) /\
  exists n p', (n <= 3)%nat /\
    thread_steps (mkDsrc 0 0) n (Inner Framer.MSG_FRAMER_INITIALIZER, sample_ended) = Some (Returned, p') /\
    state p' = failed /\ trace p' = trace sample_ended.
Proof.
  apply (fatal_error_ends_client (mkDsrc 0 0) sample_fatal after_two (Inner Framer.MSG_FRAMER_INITIALIZER)
    [SetStatus "ok"; Subscribe false None]); [reflexivity|vm_compute; discriminate|vm_compute; discriminate].
Defined.

Lemma sample_config_ok : msg_ok sample_config.
Proof.
  split_and!; try (done || (cbn; lia)). intros ? [= <-].
  apply printable_array; (constructor; [|constructor]); [done|].
  change (printable (cJSON_AddStringToObject (cJSON_AddStringToObject cJSON_CreateObject "key" "rate") "value" "9")).
  apply pobj_printable, pobj_add_string; [done..|]. apply pobj_add_string; [done..|]. apply pobj_create.
Qed.

Lemma client_registers_witness :
  exists n framer p',
    thread_steps (mkDsrc 0 0) n (Outer, sample_client sample_answer) = Some (Inner framer, p') /\
    state p' = registered /\
    trace p' =
      [OnStateChange connected;
       Sent (Wire.framed (ivpRegister_createMsgFromJson 1700000000000 sample_manifest)) true] ++
      config_events (arrived sample_config) ++
      [OnStateChange registered; Sent (Wire.framed (ivpSubscribe_createMsg 1700000000000 None)) true] ++
      concat (map (fun m => message_events (arrived m)) [sample_ordinary]).
Proof.
  apply (client_registers (mkDsrc 0 0) (sample_client sample_answer) sample_config [sample_ordinary]
    1700000000000 (replicate 400 7%nat)).
  - reflexivity.
  - reflexivity.
  - reflexivity.
  - repeat constructor.
  - constructor; [exact sample_config_ok|]. constructor; [|constructor].
    split_and!; try (done || (cbn; lia)).
  - constructor; [|constructor; [|constructor]]; vm_compute; discriminate.
  - apply Forall_replicate. lia.
  - vm_compute. lia.
Defined.
End Client.
