(* ===== verification/ClientThreads.v ===== *)
(** The library of a plugin as the threads of the plugin run it
    ([src/src/tmx/TmxApi/tmx/IvpPlugin.c]): the functions of [Client] as programs whose
    steps are the reads and writes of the shared fields, the operations of the recursive
    lock, the calls of the system and the callbacks, in the order of the code. The thread
    that receives and any number of threads of the application take such steps in any
    order; a callback makes any calls of the library before it returns. What is shared is
    the client of [Client]. A read and a write of [plugin->state] are one step each, which
    C does not promise of variables that several threads use without a lock. *)
From S2P Require Import Prelude Framer Json JsonText IvpMessage Wire IvpApi Client.
Import Json IvpMsg IvpApi.
Open Scope Z_scope.

Module ClientThreads.
Import Client.

(** A thread is the one that receives or one of the application. *)
Inductive tid := Receiver | Api (n : nat).
#[export] Instance tid_eq_dec : EqDecision tid.
Proof. solve_decision. Defined.
(** What is observed: a value is written to the state, or an event of the client. *)
Inductive mark := Wrote (st : IvpPluginState) | Did (e : event).

Section threads.
Context {W : Type} {NW : Network W} {JT : JsonText}.
(** The memory [ivpMsg_parse] leaves uninitialised. *)
Variable mem : IvpDsrcMetadata.

(** * Programs *)
(** Steps on what is shared but the state: the filter with a number for its pointer, the
    configuration, the socket, and the system. *)
Inductive op : Type -> Type :=
| ReadFilter : op (nat * option cJSON)
| WriteFilter (f : option cJSON) : op unit
| ReadConfig : op (option cJSON)
| WriteConfig (c : option cJSON) : op unit
| ReadSocket : op Z
| WriteSocket (fd : Z) : op unit
| Now : op Z
| OpenSocket : op (Z + Z)
| Connect (fd : Z) : op (option Z)
| Recv (fd n : Z) : op received.
(** The head of the outer loop of [ivp_receive], of the inner loop, and of the loop that
    takes the messages out of the buffer. *)
Inductive label := OuterLoop | InnerLoop (fd : Z) (framer : Framer.MsgFramer) | Draining (fd : Z) (framer : Framer.MsgFramer).
Inductive prog :=
| Done
| Undefined
| Goto (l : label)
| Lock (k : prog)
| Unlock (k : prog)
| GetState (k : IvpPluginState -> prog)
| PutState (st : IvpPluginState) (k : prog)
| Report (e : event) (k : prog)
| SendFrame (fd : Z) (frame : list Z) (k : bool -> prog)
| Perform (A : Type) (o : op A) (k : A -> prog).
Arguments Perform {A} o k.

(** * The functions of the library, each with what follows it *)
Definition ivp_onError (err : IvpError) (k : prog) : prog :=
  if error err =? IvpError_none then k
  else if IvpLogLevel_fatal <=? level err then PutState failed (Report (OnError err) k)
  else Report (OnError err) k.
Definition ivp_onStateChange (st : IvpPluginState) (k : prog) : prog :=
  GetState (fun now => if bool_decide (now = st) then k else PutState st (Report (OnStateChange st) k)).
(** The state is read a second time when it is not connected. *)
Definition if_up (yes no : prog) : prog :=
  GetState (fun st => if bool_decide (st = connected) then yes
                      else GetState (fun st => if bool_decide (st = registered) then yes else no)).
Definition ivp_broadcastMessage (m : IvpMessage) (k : prog) : prog :=
  if_up (Lock (if_up (Perform ReadSocket (fun fd => SendFrame fd (Wire.framed m) (fun ok =>
                        if ok : bool then Unlock k else ivp_onStateChange disconnected (Unlock k))))
                     (Unlock k)))
        k.
Definition ivp_broadcastAndDestroyMessage (m : option IvpMessage) (k : prog) : prog :=
  match m with Some m => ivp_broadcastMessage m k | None => k end.

(** The end of [ivp_subscribe]. *)
Definition send_filter (k : prog) : prog :=
  Perform ReadFilter (fun '(_, f) => Perform Now (fun t =>
    ivp_broadcastAndDestroyMessage (Some (ivpSubscribe_createMsg t f)) (Unlock k))).
(** The application's call: [changed] is the test of the pointers. *)
Definition ivp_subscribe (changed : bool) (f : option cJSON) (k : prog) : prog :=
  Lock (if changed then Perform (WriteFilter (cJSON_Duplicate <$> f)) (fun _ => send_filter k) else send_filter k).
(** The call with the filter the receiving thread read before. When another call has
    replaced it, nothing is a filter like another, and one that was freed is copied. *)
Definition subscribe_own (own : nat * option cJSON) (k : prog) : prog :=
  Lock (Perform ReadFilter (fun '(pointer, _) =>
    if bool_decide (pointer = own.1) then send_filter k
    else match own.2 with
         | None => Perform (WriteFilter None) (fun _ => send_filter k)
         | Some _ => Undefined
         end)).

Definition ivp_setStatus (status : string) (k : prog) : prog :=
  Perform Now (fun t => ivp_broadcastAndDestroyMessage
    (Some (ivpPluginStatus_createMsg t (ivpPluginStatus_addStatusItem None None (Some status)))) k).
Definition ivp_setStatusItem (key value : string) (k : prog) : prog :=
  if String.eqb key "" then k
  else Perform Now (fun t => ivp_broadcastAndDestroyMessage
    (Some (ivpPluginStatus_createMsg t (ivpPluginStatus_addStatusItem None (Some key) (Some value)))) k).
Definition ivp_removeStatusItem (key : string) (k : prog) : prog :=
  if String.eqb key "" then k
  else Perform Now (fun t => ivp_broadcastAndDestroyMessage
    (Some (ivpPluginStatus_createMsg t (ivpPluginStatus_addStatusItem None (Some key) None))) k).
Definition ivp_addEventLog (lvl : Z) (description : string) (k : prog) : prog :=
  if String.eqb description "" then k
  else Perform Now (fun t => ivp_broadcastAndDestroyMessage (ivpEventLog_createMsg t lvl (Some description)) k).
Definition ivp_setConfigurationValue (key value : string) (k : prog) : prog :=
  if String.eqb key "" then k
  else Perform Now (fun t => ivp_broadcastAndDestroyMessage
    (Some (ivpConfig_createMsg t (ivpConfig_addItemToCollection None (Some key) (Some value) None))) k).
(** The value goes to the caller. *)
Definition ivp_getCopyOfConfigurationValue (key : string) (k : prog) : prog :=
  if String.eqb key "" then k
  else Perform ReadConfig (fun c =>
    match c with
    | None => ivp_onError (ivpError_createError IvpLogLevel_error IvpError_configKeyDoesntExist 0) k
    | Some _ => Lock (Perform ReadConfig (fun _ => Unlock k))
    end).
Definition perform (c : call) (k : prog) : prog :=
  match c with
  | Subscribe changed f => ivp_subscribe changed f k
  | SetStatus s => ivp_setStatus s k
  | SetStatusItem key v => ivp_setStatusItem key v k
  | RemoveStatusItem key => ivp_removeStatusItem key k
  | AddEventLog l d => ivp_addEventLog l d k
  | Broadcast m => ivp_broadcastMessage m k
  | SetConfigurationValue key v => ivp_setConfigurationValue key v k
  | GetConfigurationValue key => ivp_getCopyOfConfigurationValue key k
  end.

(** ** The thread that receives *)
Definition update_config (item : IvpConfigItem) (k : prog) : prog :=
  match key item, value item with
  | Some key, Some v => Perform ReadConfig (fun c =>
      let '(found, c) := ivpConfig_updateValueInCollection c (Some key) (Some v) in
      Perform (WriteConfig c) (fun _ => if found =? 0 then k else Report (OnConfigChanged key v) k))
  | _, _ => k
  end.
Definition ivp_onMessageReceived (m : IvpMessage) (k : prog) : prog :=
  if ivpError_isErrMsg m then ivp_onError (ivpError_getError m) k
  else if ivpConfig_isConfigMsg m then
    Lock (fold_right (fun item => update_config (ivpConfig_item item))
      (Unlock (GetState (fun st =>
         if bool_decide (st = connected)
         then ivp_onStateChange registered (Perform ReadFilter (fun own => subscribe_own own k))
         else k)))
      (items (payload m)))
  else Report (OnMsgReceived m) k.
Definition handle_text (rawmsg : list Z) (k : prog) : prog :=
  match ivpMsg_parse mem rawmsg with
  | Some m => ivp_onMessageReceived m k
  | None => ivp_onError (ivpError_createError IvpLogLevel_warn IvpError_messageParse 0) k
  end.
Definition receive_data (fd : Z) (framer : Framer.MsgFramer) : prog :=
  Perform (Recv fd (Framer.msgFramer_getBufLength framer)) (fun r =>
    match r with
    | RecvFailed errno =>
        ivp_onError (ivpError_createError IvpLogLevel_error IvpError_connectionDropped errno)
          (ivp_onStateChange disconnected (Goto (InnerLoop fd framer)))
    | RecvClosed => ivp_onStateChange disconnected (Goto (InnerLoop fd framer))
    | RecvData data => Goto (Draining fd (Framer.recv_bytes data framer))
    end).
Definition ivp_receive (manifest : cJSON) (l : label) : prog :=
  match l with
  | OuterLoop => GetState (fun st =>
      if bool_decide (st = failed) then Done
      else Perform OpenSocket (fun s =>
        match s with
        | inl errno => ivp_onError (ivpError_createError IvpLogLevel_error IvpError_connectFail errno) (Goto OuterLoop)
        | inr fd => Perform (Connect fd) (fun c =>
            match c with
            | Some errno => ivp_onError (ivpError_createError IvpLogLevel_error IvpError_connectFail errno) (Goto OuterLoop)
            | None => Perform (WriteSocket fd) (fun _ => ivp_onStateChange connected (Perform Now (fun t =>
                ivp_broadcastAndDestroyMessage (Some (ivpRegister_createMsgFromJson t manifest))
                  (Goto (InnerLoop fd Framer.MSG_FRAMER_INITIALIZER)))))
            end)
        end))
  | InnerLoop fd framer =>
      if_up (receive_data fd framer) (Perform (WriteSocket (-1)) (fun _ => Goto OuterLoop))
  | Draining fd framer =>
      match Framer.msgFramer_getNextMsg framer with
      | (Some rawmsg, framer) => handle_text rawmsg (Goto (Draining fd framer))
      | (None, framer) => Goto (InnerLoop fd framer)
      end
  end.

(** * The threads together *)
(** The client, the number of the pointer to its filter, who holds the lock and how often,
    and what has been observed. *)
Record Shared := mkShared {
  plugin : IvpPlugin (W := W); pointer : nat; lock : option (tid * nat); log : list (tid * mark) }.
Definition set_plugin (p : IvpPlugin) (s : Shared) : Shared := mkShared p (pointer s) (lock s) (log s).
Definition set_lock (l : option (tid * nat)) (s : Shared) : Shared := mkShared (plugin s) (pointer s) l (log s).
Definition observe (t : tid) (m : mark) (p : IvpPlugin) (s : Shared) : Shared :=
  mkShared (match m with Did e => emit e p | Wrote st => set_state st p end) (pointer s) (lock s) (log s ++ [(t, m)]).
Definition exec {A} (o : op A) (s : Shared) : A * Shared :=
  let p := plugin s in
  match o with
  | ReadFilter => ((pointer s, filter p), s)
  | WriteFilter f => (tt, mkShared (set_filter f p) (S (pointer s)) (lock s) (log s))
  | ReadConfig => (config p, s)
  | WriteConfig c => (tt, set_plugin (set_config c p) s)
  | ReadSocket => (socket p, s)
  | WriteSocket fd => (tt, set_plugin (set_socket fd p) s)
  | Now => (net_now (world p), s)
  | OpenSocket => let '(r, w) := net_socket (world p) in (r, set_plugin (set_world w p) s)
  | Connect fd => let '(r, w) := net_connect fd (coreIpAddr p) (corePortNumber p) (world p) in (r, set_plugin (set_world w p) s)
  | Recv fd n => let '(r, w) := net_recv fd n (world p) in (r, set_plugin (set_world w p) s)
  end.
(** The calls a callback makes, and then what follows it. *)
Definition calls (cs : list call) (k : prog) : prog := fold_right perform k cs.
(** One step of a thread; none when it waits for the lock, is done, or has no defined
    behaviour. *)
Definition advance (t : tid) (cs : list call) (p : prog) (s : Shared) : option (prog * Shared) :=
  match p with
  | Done | Undefined => None
  | Goto l => Some (ivp_receive (jsonManifest (plugin s)) l, s)
  | Lock k =>
      match lock s with
      | None => Some (k, set_lock (Some (t, 1%nat)) s)
      | Some (owner, n) => if bool_decide (owner = t) then Some (k, set_lock (Some (t, S n)) s) else None
      end
  | Unlock k =>
      match lock s with
      | Some (owner, S n) => Some (k, set_lock (match n with O => None | _ => Some (owner, n) end) s)
      | _ => None
      end
  | GetState k => Some (k (state (plugin s)), s)
  | PutState st k => Some (k, observe t (Wrote st) (plugin s) s)
  | Report e k => Some (calls cs k, observe t (Did e) (plugin s) s)
  | SendFrame fd frame k =>
      let '(ok, w) := net_send fd frame (world (plugin s)) in
      Some (k ok, observe t (Did (Sent frame ok)) (set_world w (plugin s)) s)
  | Perform o k => let '(a, s) := exec o s in Some (k a, s)
  end.
Definition System : Type := Shared * (tid -> prog).
Definition put_thread (t : tid) (p : prog) (ths : tid -> prog) : tid -> prog :=
  fun u => if decide (u = t) then p else ths u.
(** A thread of the application that is done makes its next call. *)
Inductive step : System -> System -> Prop :=
| step_thread t cs s ths p s' : advance t cs (ths t) s = Some (p, s') -> step (s, ths) (s', put_thread t p ths)
| step_call n c s ths : ths (Api n) = Done -> step (s, ths) (s, put_thread (Api n) (perform c Done) ths).
Definition start (p : IvpPlugin) : System :=
  (mkShared p 0 None [], fun t => match t with Receiver => Goto OuterLoop | Api _ => Done end).
End threads.
Arguments Perform {A} o k.

(** * The protocol under interleaving *)
(** What the observations come to: the state; whether a frame may still be sent after the
    state has left connected and registered; whether the last frame given to [send] failed;
    and what each thread has written without having reported it. *)
Record Monitor := mkMonitor {
  at_state : IvpPluginState; spare : bool; broken : bool; telling : tid -> option IvpPluginState }.
Definition put {A} (t : tid) (a : A) (f : tid -> A) : tid -> A := fun u => if decide (u = t) then a else f u.
(** Only the receiving thread connects, registers and fails. What is not a change of the
    protocol happens only after a frame could not be sent: then the state can become
    disconnected from any other, and registered from disconnected. *)
Definition may_write (m : Monitor) (t : tid) (st : IvpPluginState) : bool :=
  match st with
  | disconnected => is_up (at_state m) || broken m
  | connected => bool_decide (t = Receiver) && bool_decide (at_state m = disconnected)
  | registered => bool_decide (t = Receiver) &&
      (bool_decide (at_state m = connected) || bool_decide (at_state m = disconnected) && broken m)
  | failed => bool_decide (t = Receiver)
  end.
(** A thread that has written the state reports that, and nothing else before; the report
    of a fatal error is the error. *)
Definition tells (st : IvpPluginState) (e : event) : bool :=
  match e with
  | OnStateChange st' => bool_decide (st <> failed) && bool_decide (st' = st)
  | OnError err => bool_decide (st = failed) && (IvpLogLevel_fatal <=? level err)
  | _ => false
  end.
Definition plain (e : event) : bool :=
  match e with
  | Sent _ _ | OnStateChange _ => false
  | OnError err => negb (IvpLogLevel_fatal <=? level err)
  | OnConfigChanged _ _ | OnMsgReceived _ => true
  end.
Definition monitor (m : Monitor) (x : tid * mark) : option Monitor :=
  let '(t, mk) := x in
  match telling m t, mk with
  | Some st, Did e => if tells st e then Some (mkMonitor (at_state m) (spare m) (broken m) (put t None (telling m))) else None
  | Some _, Wrote _ => None
  | None, Wrote st =>
      if may_write m t st
      then Some (mkMonitor st (spare m || is_up (at_state m) && negb (is_up st)) (broken m) (put t (Some st) (telling m)))
      else None
  | None, Did (Sent _ ok) =>
      if is_up (at_state m) then Some (mkMonitor (at_state m) (spare m) (negb ok) (telling m))
      else if spare m then Some (mkMonitor (at_state m) false (negb ok) (telling m))
      else None
  | None, Did e => if plain e then Some m else None
  end.
Definition replay (m : Monitor) (l : list (tid * mark)) : option Monitor :=
  fold_left (fun o x => o ≫= fun m => monitor m x) l (Some m).
Definition monitor_new : Monitor := mkMonitor disconnected false false (fun _ => None).
Lemma replay_snoc m l x : replay m (l ++ [x]) = replay m l ≫= fun m => monitor m x.
Proof. unfold replay. by rewrite fold_left_app. Qed.
Lemma put_this {A} t (a : A) f : put t a f t = a.
Proof. unfold put. by rewrite decide_True. Qed.
Lemma put_other {A} t u (a : A) f : u <> t -> put t a f u = f u.
Proof. intros H. unfold put. by rewrite decide_False. Qed.

Section safe.
Context {JT : JsonText}.
Variable mem : IvpDsrcMetadata.

(** * What a thread may do next *)
(** How often the thread holds the lock; whether it has seen the client up since it holds
    it, and may send a frame; whether its frame failed, and it may disconnect; what the
    receiving thread knows of the state; and what it has to report. *)
Record ctx := Ctx {
  depth : nat; pass : bool; owes : bool; last : option IvpPluginState; tell : option IvpPluginState }.
Definition calm (d : nat) (l : option IvpPluginState) : ctx := Ctx d false false l None.
(** The receiving thread knows the state up to a disconnection by another thread. *)
Definition consistent (c : ctx) (st : IvpPluginState) : Prop :=
  match last c with Some l => st = l \/ st = disconnected | None => True end.
Record learns (c : ctx) (st : IvpPluginState) (c' : ctx) : Prop := {
  learns_depth : depth c' = depth c;
  learns_pass : pass c' = true -> pass c = true \/ is_up st = true /\ (0 < depth c)%nat;
  learns_owes : owes c' = true -> owes c = true;
  learns_last : last c' = last c \/ last c <> None /\ last c' = Some st;
  learns_tell : tell c' = tell c }.
Definition follows_from (l st : IvpPluginState) : Prop :=
  match st with
  | disconnected => is_up l = true
  | connected => l = disconnected
  | registered => l = connected
  | failed => True
  end.
Definition writes (c : ctx) (st : IvpPluginState) (c' : ctx) : Prop :=
  pass c = false /\ exists l', c' = Ctx (depth c) false false l' (Some st) /\
    (st = disconnected /\ owes c = true /\ l' = last c \/
     exists l, last c = Some l /\ follows_from l st /\ l' = Some st).
Definition at_head (c : ctx) (l : label) : Prop :=
  exists st, c = calm 0 (Some st) /\ match l with OuterLoop => is_up st = false | _ => True end.
Fixpoint safe (c : ctx) (p : prog) : Prop :=
  match p with
  | Done => c = calm 0 (last c)
  | Undefined => True
  | Goto l => at_head c l
  | Lock k => tell c = None /\ safe (Ctx (S (depth c)) (pass c) (owes c) (last c) None) k
  | Unlock k => exists d, c = calm (S d) (last c) /\ safe (calm d (last c)) k
  | GetState k => tell c = None /\ forall st, consistent c st -> exists c', learns c st c' /\ safe c' (k st)
  | PutState st k => tell c = None /\ exists c', writes c st c' /\ safe c' k
  | Report e k => pass c = false /\ owes c = false /\ match tell c with Some st => tells st e | None => plain e end = true /\
      safe (calm (depth c) (last c)) k
  | SendFrame _ _ k => pass c = true /\ tell c = None /\ forall ok, safe (Ctx (depth c) false (negb ok) (last c) None) (k ok)
  | Perform _ k => tell c = None /\ forall a, safe c (k a)
  end.

(** ** The functions of the library are *)
Lemma safe_read c k : tell c = None -> (forall st, consistent c st -> safe c (k st)) -> safe c (GetState k).
Proof. intros Ht H. split; [done|]. intros st Hs. exists c. split; [|by apply H]. constructor; auto. Qed.
Lemma safe_plain d l e k : plain e = true -> safe (calm d l) k -> safe (calm d l) (Report e k).
Proof. intros He H. by repeat split. Qed.
Lemma safe_error d l err k : level err < IvpLogLevel_fatal -> safe (calm d l) k -> safe (calm d l) (ivp_onError err k).
Proof.
  intros Hl H. unfold ivp_onError. case_if; [done|]. rewrite (proj2 (Z.leb_gt _ _)) by done.
  apply safe_plain; [|done]. cbn. by rewrite (proj2 (Z.leb_gt _ _)).
Qed.
Lemma safe_disconnect d l k : safe (calm d l) k -> safe (Ctx d false true l None) (ivp_onStateChange disconnected k).
Proof.
  intros H. split; [done|]. intros st Hs. case_bool_decide as E.
  - exists (calm d l). split; [by constructor; auto|done].
  - exists (Ctx d false true l None). split; [by constructor; auto|]. split; [done|].
    exists (Ctx d false false l (Some disconnected)). split; [|by repeat split].
    split; [done|]. exists l. split; [done|]. by left.
Qed.
(** The lock is held when the state is read for the second time. *)
Lemma safe_if_up_held d l yes no : (0 < d)%nat -> safe (Ctx d true false l None) yes -> safe (calm d l) no ->
  safe (calm d l) (if_up yes no).
Proof.
  intros Hd Hy Hn. split; [done|]. intros st Hs. case_bool_decide as E.
  - exists (Ctx d true false l None). split; [|done]. subst st. by constructor; auto.
  - exists (calm d l). split; [by constructor; auto|]. split; [done|]. intros st' Hs'. case_bool_decide as E'.
    + exists (Ctx d true false l None). split; [|done]. subst st'. by constructor; auto.
    + exists (calm d l). split; [by constructor; auto|done].
Qed.
Lemma safe_if_up d l yes no : safe (calm d l) yes -> safe (calm d l) no -> safe (calm d l) (if_up yes no).
Proof.
  intros Hy Hn. apply safe_read; [done|]. intros st _. case_bool_decide; [done|].
  apply safe_read; [done|]. intros st' _. by case_bool_decide.
Qed.
Lemma safe_unlock d l k : safe (calm d l) k -> safe (calm (S d) l) (Unlock k).
Proof. intros H. by exists d. Qed.
Lemma safe_broadcast d l m k : safe (calm d l) k -> safe (calm d l) (ivp_broadcastMessage m k).
Proof.
  intros H. apply safe_if_up; [|done]. split; [done|]. apply (safe_if_up_held (S d)); [lia| |by apply safe_unlock].
  split; [done|]. intros fd. split; [done|]. split; [done|]. intros []; cbn.
  - by apply safe_unlock.
  - by apply (safe_disconnect (S d)), safe_unlock.
Qed.
Lemma safe_broadcastAndDestroy d l m k : safe (calm d l) k -> safe (calm d l) (ivp_broadcastAndDestroyMessage m k).
Proof. destruct m; [apply safe_broadcast|done]. Qed.
Lemma safe_send_filter d l k : safe (calm d l) k -> safe (calm (S d) l) (send_filter k).
Proof. intros H. split; [done|]. intros [n f]. split; [done|]. intros t. by apply safe_broadcastAndDestroy, safe_unlock. Qed.
Lemma safe_subscribe d l changed f k : safe (calm d l) k -> safe (calm d l) (ivp_subscribe changed f k).
Proof.
  intros H. split; [done|]. destruct changed; [split; [done|]; intros _|]; by apply (safe_send_filter d l).
Qed.
Lemma safe_subscribe_own d l own k : safe (calm d l) k -> safe (calm d l) (subscribe_own own k).
Proof.
  intros H. split; [done|]. split; [done|]. intros [n f]. case_bool_decide; [by apply (safe_send_filter d l)|].
  destruct own.2; [done|]. split; [done|]. intros _. by apply (safe_send_filter d l).
Qed.
Lemma safe_perform d l c k : safe (calm d l) k -> safe (calm d l) (perform c k).
Proof.
  intros H. destruct c; cbn [perform]; unfold ivp_setStatus, ivp_setStatusItem, ivp_removeStatusItem, ivp_addEventLog,
    ivp_setConfigurationValue, ivp_getCopyOfConfigurationValue; try case_if; try done;
    first [by apply safe_subscribe | by apply safe_broadcast | idtac].
  all: split; [done|]; intros t; try by apply safe_broadcastAndDestroy.
  destruct t; [|by apply safe_error]. split; [done|]. split; [done|]. intros _. by apply safe_unlock.
Qed.
Lemma safe_calls d l cs k : safe (calm d l) k -> safe (calm d l) (calls cs k).
Proof. intros H. induction cs as [|c cs IH]; [done|]. by apply safe_perform. Qed.

(** ** The receiving thread *)
Definition receiver_safe (p : prog) : Prop := forall st, safe (calm 0 (Some st)) p.
Lemma safe_onError err k : receiver_safe k -> receiver_safe (ivp_onError err k).
Proof.
  intros H st. destruct (Z.leb_spec IvpLogLevel_fatal (level err)) as [Hf|Hf]; [|by apply safe_error].
  unfold ivp_onError. case_if; [apply H|]. rewrite (proj2 (Z.leb_le _ _)) by done.
  split; [done|]. eexists. split; [split; [done|]; exists (Some failed); split; [done|]; right; by exists st|].
  cbn. rewrite (proj2 (Z.leb_le _ _)) by done. repeat split. apply H.
Qed.
Lemma safe_change l st k : st <> failed -> follows_from l st -> receiver_safe k ->
  safe (calm 0 (Some l)) (ivp_onStateChange st k).
Proof.
  intros Hne Hf H. apply safe_read; [done|]. intros now _. case_bool_decide; [apply H|].
  split; [done|]. eexists. split; [split; [done|]; exists (Some st); split; [done|]; right; by exists l|].
  cbn. rewrite !bool_decide_true by done. repeat split. apply H.
Qed.
(** What is read of the state is known from then on. *)
Lemma safe_learn l k : (forall st, st = l \/ st = disconnected -> safe (calm 0 (Some st)) (k st)) -> safe (calm 0 (Some l)) (GetState k).
Proof. intros H. split; [done|]. intros st Hs. exists (calm 0 (Some st)). split; [by constructor; auto|by apply H]. Qed.
Lemma safe_update d l item k : safe (calm d l) k -> safe (calm d l) (update_config item k).
Proof.
  intros H. unfold update_config. destruct (key item), (value item); [|exact H..]. split; [done|]. intros c.
  destruct (ivpConfig_updateValueInCollection _ _ _) as [n c']. split; [done|]. intros _. case_if; [done|]. by apply safe_plain.
Qed.
Lemma safe_received m k : receiver_safe k -> receiver_safe (ivp_onMessageReceived m k).
Proof.
  intros H st. unfold ivp_onMessageReceived. case_if; [by apply safe_onError|]. case_if; [|by apply safe_plain].
  split; [done|]. induction (items (payload m)) as [|item l IH]; cbn [fold_right]; [|by apply safe_update].
  apply safe_unlock, safe_learn. intros st' _. case_bool_decide as Ec; [|apply H].
  apply safe_change; [done|by subst|]. intros st2. split; [done|]. intros own. by apply safe_subscribe_own.
Qed.
Lemma safe_text raw k : receiver_safe k -> receiver_safe (handle_text mem raw k).
Proof. intros H. unfold handle_text. destruct (ivpMsg_parse mem raw); [by apply safe_received|by apply safe_onError]. Qed.
Lemma safe_head l st : is_up st = false \/ l <> OuterLoop -> safe (calm 0 (Some st)) (Goto l).
Proof. intros H. exists st. split; [done|]. destruct l; [|done..]. by destruct H. Qed.
Lemma safe_loop manifest l c : at_head c l -> safe c (ivp_receive mem manifest l).
Proof.
  intros (st & -> & Hl). destruct l as [|fd framer|fd framer]; cbn [ivp_receive].
  - apply safe_learn. intros st' Hs. case_bool_decide; [done|].
    assert (st' = disconnected) as -> by (destruct st, st'; naive_solver).
    split; [done|]. intros [errno|fd]; [by apply safe_error, safe_head; auto|].
    split; [done|]. intros [errno|]; [by apply safe_error, safe_head; auto|]. split; [done|]. intros _.
    apply safe_change; [done..|]. intros st'. split; [done|]. intros t. apply safe_broadcastAndDestroy, safe_head. by right.
  - assert (forall st', is_up st' = true -> safe (calm 0 (Some st')) (receive_data fd framer)) as Hup.
    { intros st' Hu. assert (safe (calm 0 (Some st')) (ivp_onStateChange disconnected (Goto (InnerLoop fd framer)))) as Hd.
      { apply safe_change; [done..|]. intros st2. apply safe_head. by right. }
      split; [done|]. intros [errno| |data]; [by apply safe_error|exact Hd|]. apply safe_head. by right. }
    apply safe_learn. intros st1 _. case_bool_decide as E1; [by apply Hup; subst|].
    apply safe_learn. intros st2 Hs2. case_bool_decide as E2; [by apply Hup; subst|].
    split; [done|]. intros _. apply safe_head. left. destruct st1, st2; naive_solver.
  - destruct (Framer.msgFramer_getNextMsg framer) as [[raw|] f].
    + apply safe_text. intros st'. apply safe_head. by right.
    + apply safe_head. by right.
Qed.
End safe.

(** * What holds of all threads together *)
Record good (m : Monitor) (lk : option (tid * nat)) (c : tid -> ctx) : Prop := {
  good_depth t : depth (c t) = match lk with Some (o, n) => if decide (t = o) then n else O | None => O end;
  good_pass t : pass (c t) = true -> (0 < depth (c t))%nat /\ (is_up (at_state m) = true \/ spare m = true);
  good_owes t : owes (c t) = true -> (0 < depth (c t))%nat /\ broken m = true;
  good_tell t : tell (c t) = telling m t;
  good_known : exists l, last (c Receiver) = Some l /\
    (at_state m = l \/ at_state m = disconnected /\ broken m = true /\ forall t, pass (c t) = false);
  good_api n : last (c (Api n)) = None }.
Lemma good_holder m lk c t u : good m lk c -> (0 < depth (c t))%nat -> (0 < depth (c u))%nat -> t = u.
Proof.
  intros H Ht Hu. rewrite (good_depth _ _ _ H) in Ht, Hu. destruct lk as [[o n]|]; [|lia].
  destruct (decide (t = o)), (decide (u = o)); (congruence || lia).
Qed.
Lemma good_consistent m lk c t : good m lk c -> consistent (c t) (at_state m).
Proof.
  intros H. unfold consistent. destruct t as [|n]; [|by rewrite (good_api _ _ _ H)].
  destruct (good_known _ _ _ H) as (l & -> & [|[]]); auto.
Qed.
Ltac put_cases t u := destruct (decide (u = t)) as [->|?]; [rewrite !put_this|rewrite !put_other by done].
Ltac put_api t n := destruct (decide (Api n = t)) as [<-|?]; [rewrite !put_this|rewrite !put_other by done].
(** A thread that learns something changes only its own knowledge. *)
Lemma good_learns m lk c t c' : good m lk c -> learns (c t) (at_state m) c' -> good m lk (put t c' c).
Proof.
  intros H [Hd Hp Ho Hl Ht]. split.
  - intros u. put_cases t u; [rewrite Hd|]; apply (good_depth _ _ _ H).
  - intros u. put_cases t u; [|apply (good_pass _ _ _ H)]. intros [E|[E E']]%Hp; rewrite Hd; [by apply (good_pass _ _ _ H)|auto].
  - intros u. put_cases t u; [|apply (good_owes _ _ _ H)]. intros E%Ho. rewrite Hd. by apply (good_owes _ _ _ H).
  - intros u. put_cases t u; [rewrite Ht|]; apply (good_tell _ _ _ H).
  - destruct (good_known _ _ _ H) as (l & El & Hk). unfold put. destruct (decide (Receiver = t)) as [<-|Hne].
    + destruct Hl as [Hl|[_ Hl]]; rewrite Hl; [|eexists; split; [done|]; by left].
      exists l. split; [done|]. destruct Hk as [|(Es & Eb & Hnp)]; [by left|right]. split; [done|]. split; [done|].
      intros u. fold (put Receiver c' c u). put_cases Receiver u; [|done]. destruct (pass c') eqn:Ep; [|done].
      destruct (Hp eq_refl) as [E|[E _]]; [by rewrite Hnp in E|by rewrite Es in E].
    + exists l. split; [done|]. destruct Hk as [|(Es & Eb & Hnp)]; [by left|right]. split; [done|]. split; [done|].
      intros u. fold (put t c' c u). put_cases t u; [|done]. destruct (pass c') eqn:Ep; [|done].
      destruct (Hp eq_refl) as [E|[E _]]; [by rewrite Hnp in E|by rewrite Es in E].
  - intros n. put_api t n; [|apply (good_api _ _ _ H)].
    destruct Hl as [Hl|[Hl _]]; [rewrite Hl; apply (good_api _ _ _ H)|by destruct (Hl (good_api _ _ _ H n))].
Qed.
(** A write the thread may do, the protocol permits; the knowledge of the receiving thread
    stays true. *)
Lemma good_writes m lk c t st c' : good m lk c -> tell (c t) = None -> writes (c t) st c' ->
  exists m', monitor m (t, Wrote st) = Some m' /\ at_state m' = st /\ good m' lk (put t c' c).
Proof.
  intros H Ht (Hp & l' & -> & Hw). rewrite (good_tell _ _ _ H) in Ht. unfold monitor. rewrite Ht.
  destruct (good_known _ _ _ H) as (l & El & Hk).
  assert (may_write m t st = true) as Hmay.
  { destruct Hw as [(-> & Ho & _)|(l0 & E0 & Hf & _)].
    - cbn. rewrite (proj2 (good_owes _ _ _ H t Ho)). apply orb_true_r.
    - destruct t as [|n]; [|by rewrite (good_api _ _ _ H) in E0]. rewrite El in E0. injection E0 as <-.
      destruct st; cbn in *; try done.
      + destruct Hk as [->|(_ & -> & _)]; [by rewrite Hf|apply orb_true_r].
      + subst l. by destruct Hk as [->|(-> & _)].
      + subst l. by destruct Hk as [->|(-> & -> & _)]. }
  rewrite Hmay. eexists. split; [reflexivity|]. split; [done|].
  assert (forall u, u <> t -> pass (c u) = true -> (0 < depth (c u))%nat /\
    (is_up st = true \/ spare m || is_up (at_state m) && negb (is_up st) = true)) as Hpass.
  { intros u _ Hu. destruct (good_pass _ _ _ H u Hu) as [Hd Hs]. split; [done|]. destruct (is_up st); [by left|right].
    destruct Hs as [-> | ->]; [apply orb_true_r|done]. }
  split; cbn.
  - intros u. put_cases t u; apply (good_depth _ _ _ H).
  - intros u. put_cases t u; [done|by apply Hpass].
  - intros u. put_cases t u; [done|apply (good_owes _ _ _ H)].
  - intros u. unfold put. destruct (decide (u = t)); [done|apply (good_tell _ _ _ H)].
  - destruct Hw as [(-> & Ho & ->)|(l0 & E0 & _ & ->)].
    + exists l. destruct (good_owes _ _ _ H t Ho) as [Hd Hb]. split.
      { unfold put. by destruct (decide (Receiver = t)) as [<-|]. }
      right. split; [done|]. split; [done|]. intros u. put_cases t u; [done|].
      destruct (pass (c u)) eqn:Eu; [|done]. destruct (good_pass _ _ _ H u Eu) as [Hdu _]. by destruct (good_holder _ _ _ _ _ H Hd Hdu).
    + destruct t as [|n]; [|by rewrite (good_api _ _ _ H) in E0]. exists st. split; [done|]. by left.
  - intros n. put_api t n; [|apply (good_api _ _ _ H)]. destruct Hw as [(_ & _ & ->)|(l0 & E0 & _)]; [apply (good_api _ _ _ H)|].
    by rewrite (good_api _ _ _ H) in E0.
Qed.
Lemma good_sends m lk c t frame ok : good m lk c -> pass (c t) = true -> tell (c t) = None ->
  exists m', monitor m (t, Did (Sent frame ok)) = Some m' /\ at_state m' = at_state m /\
    good m' lk (put t (Ctx (depth (c t)) false (negb ok) (last (c t)) None) c).
Proof.
  intros H Hp Ht. destruct (good_pass _ _ _ H t Hp) as [Hd Hs]. rewrite (good_tell _ _ _ H) in Ht.
  assert (exists sp, monitor m (t, Did (Sent frame ok)) = Some (mkMonitor (at_state m) sp (negb ok) (telling m))) as [sp E].
  { unfold monitor. rewrite Ht. destruct (is_up (at_state m)); [by eexists|]. destruct Hs as [|Hs]; [done|]. rewrite Hs. by eexists. }
  rewrite E. eexists. split; [reflexivity|]. split; [done|].
  assert (forall u, u <> t -> depth (c u) = O) as Hz.
  { intros u Hu. destruct (depth (c u)) as [|n] eqn:Eu; [done|]. destruct Hu. eapply (good_holder m lk c); [done|lia|done]. }
  split; cbn.
  - intros u. put_cases t u; apply (good_depth _ _ _ H).
  - intros u. put_cases t u; [done|]. intros Hu. apply (good_pass _ _ _ H) in Hu as [Hu _]. rewrite Hz in Hu by done. lia.
  - intros u. put_cases t u; [by cbn|]. intros Hu. apply (good_owes _ _ _ H) in Hu as [Hu _]. rewrite Hz in Hu by done. lia.
  - intros u. put_cases t u; [done|]. apply (good_tell _ _ _ H).
  - destruct (good_known _ _ _ H) as (l & El & Hk). exists l. split; [unfold put; by destruct (decide (Receiver = t)) as [<-|]|].
    destruct Hk as [|(_ & _ & Hn)]; [by left|]. by rewrite Hn in Hp.
  - intros n. put_api t n; apply (good_api _ _ _ H).
Qed.
Lemma good_reports m lk c t e : good m lk c -> pass (c t) = false -> owes (c t) = false ->
  match tell (c t) with Some st => tells st e | None => plain e end = true ->
  exists m', monitor m (t, Did e) = Some m' /\ at_state m' = at_state m /\ good m' lk (put t (calm (depth (c t)) (last (c t))) c).
Proof.
  intros H Hp Ho Ht. pose proof (good_tell _ _ _ H t) as Et. rewrite Et in Ht.
  assert (exists m', monitor m (t, Did e) = Some m' /\ at_state m' = at_state m /\ spare m' = spare m /\ broken m' = broken m /\
    (forall u, telling m' u = if decide (u = t) then None else telling m u)) as (m' & E & Es & Esp & Eb & Etell).
  { unfold monitor. destruct (telling m t) as [st|] eqn:Em; [rewrite Ht; by eexists|].
    exists m. split; [destruct e; cbn in *; try done; by rewrite Ht|]. split_and!; try done. intros u. destruct (decide (u = t)); by subst. }
  rewrite E. exists m'. split; [done|]. split; [done|]. split.
  - intros u. put_cases t u; apply (good_depth _ _ _ H).
  - intros u. rewrite Es, Esp. put_cases t u; [done|]. apply (good_pass _ _ _ H).
  - intros u. rewrite Eb. put_cases t u; [done|]. apply (good_owes _ _ _ H).
  - intros u. rewrite Etell. unfold put. destruct (decide (u = t)); [done|]. apply (good_tell _ _ _ H).
  - rewrite Es, Eb. destruct (good_known _ _ _ H) as (l & El & Hk). exists l. split; [unfold put; by destruct (decide (Receiver = t)) as [<-|]|].
    destruct Hk as [|(? & ? & Hn)]; [by left|right]. split_and!; [done..|]. intros u. put_cases t u; [done|apply Hn].
  - intros n. put_api t n; apply (good_api _ _ _ H).
Qed.
(** Taking and giving back the lock. *)
Lemma good_locks m lk lk' c t d : good m lk c -> tell (c t) = None ->
  (forall u, u <> t -> depth (c u) = match lk' with Some (o, n) => if decide (u = o) then n else O | None => O end) ->
  d = match lk' with Some (o, n) => if decide (t = o) then n else O | None => O end ->
  (d = O -> pass (c t) = false /\ owes (c t) = false) ->
  good m lk' (put t (Ctx d (pass (c t)) (owes (c t)) (last (c t)) None) c).
Proof.
  intros H Ht Hu Hd Hz. split.
  - intros u. put_cases t u; [done|by apply Hu].
  - intros u. put_cases t u; [|apply (good_pass _ _ _ H)]. cbn. intros Hp. split; [|by apply (good_pass _ _ _ H t)].
    destruct d; [by rewrite (proj1 (Hz eq_refl)) in Hp|lia].
  - intros u. put_cases t u; [|apply (good_owes _ _ _ H)]. cbn. intros Hp. split; [|by apply (good_owes _ _ _ H t)].
    destruct d; [by rewrite (proj2 (Hz eq_refl)) in Hp|lia].
  - intros u. put_cases t u; [cbn; rewrite <-Ht|]; apply (good_tell _ _ _ H).
  - destruct (good_known _ _ _ H) as (l & El & Hk). exists l. split; [unfold put; by destruct (decide (Receiver = t)) as [<-|]|].
    destruct Hk as [|(? & ? & Hn)]; [by left|right]. split_and!; [done..|]. intros u. put_cases t u; apply Hn.
  - intros n. put_api t n; apply (good_api _ _ _ H).
Qed.

Section system.
Context {W : Type} {NW : Network W} {JT : JsonText}.
Variable mem : IvpDsrcMetadata.

(** Every thread is safe, with some knowledge that is good for the state and the lock. *)
Definition safe_system (x : System (W := W)) : Prop := exists m c,
  replay monitor_new (log (fst x)) = Some m /\ at_state m = state (plugin (fst x)) /\ good m (lock (fst x)) c /\
  forall t, safe (c t) (snd x t).
Lemma exec_same {A} (o : op A) (s : Shared (W := W)) a s' : exec o s = (a, s') ->
  log s' = log s /\ lock s' = lock s /\ state (plugin s') = state (plugin s).
Proof.
  destruct o; cbn; try (intros [= <- <-]; done).
  - destruct (net_socket _) as [r w]. by intros [= <- <-].
  - destruct (net_connect _ _ _ _) as [r w]. by intros [= <- <-].
  - destruct (net_recv _ _ _) as [r w]. by intros [= <- <-].
Qed.
Lemma safe_threads c t c' p (ths : tid -> prog) : (forall u, safe (c u) (ths u)) -> safe c' p ->
  forall u, safe (put t c' c u) (put_thread t p ths u).
Proof. intros H Hp u. unfold put, put_thread. by destruct (decide (u = t)). Qed.
(** The thread took a step that the monitor sees, or does not. *)
Lemma safe_observed t mk p q (s : Shared (W := W)) ths m c c' : replay monitor_new (log s) = Some m -> (forall u, safe (c u) (ths u)) ->
  (exists m', monitor m (t, mk) = Some m' /\
    at_state m' = match mk with Wrote st => st | Did _ => state q end /\ good m' (lock s) (put t c' c)) -> safe c' p ->
  safe_system (observe t mk q s, put_thread t p ths).
Proof.
  intros Hr Hs (m' & Em & Ea & Hg) Hp. exists m', (put t c' c). cbn [fst snd log lock plugin observe]. split; [by rewrite replay_snoc, Hr|].
  split; [rewrite Ea; by destruct mk|]. split; [done|]. by apply safe_threads.
Qed.
Lemma safe_silent t p (s s' : Shared (W := W)) ths m c c' : replay monitor_new (log s) = Some m -> at_state m = state (plugin s) ->
  (forall u, safe (c u) (ths u)) -> log s' = log s -> state (plugin s') = state (plugin s) ->
  good m (lock s') (put t c' c) -> safe c' p -> safe_system (s', put_thread t p ths).
Proof.
  intros Hr Ha Hs Hl Hst Hg Hp. exists m, (put t c' c). cbn [fst snd]. rewrite Hl, Hst. split_and!; try done. by apply safe_threads.
Qed.
Lemma put_same m lk c t c' : good m lk c -> c' = c t -> good m lk (put t c' c).
Proof. intros H ->. apply good_learns; [done|]. constructor; auto. Qed.

Lemma safe_advance t cs s ths p s' : safe_system (s, ths) -> advance mem t cs (ths t) s = Some (p, s') ->
  safe_system (s', put_thread t p ths).
Proof.
  intros (m & c & Hr & Ha & Hg & Hs) H. cbn [fst snd] in *. pose proof (Hs t) as Ht. destruct (ths t) as [| |l|k|k|k|st k|e k|fd frame k|A o k]; cbn in H.
  - done.
  - done.
  - injection H as <- <-. apply (safe_silent t _ s _ ths m c (c t) Hr Ha Hs); [done..|by apply put_same|]. apply (safe_loop mem). exact Ht.
  - destruct Ht as [Htell Hk]. assert (forall lk', (forall u, u <> t -> depth (c u) = match lk' with Some (o, n) => if decide (u = o) then n else O | None => O end) ->
      S (depth (c t)) = match lk' with Some (o, n) => if decide (t = o) then n else O | None => O end ->
      safe_system (set_lock lk' s, put_thread t k ths)) as Hlock.
    { intros lk' Hu Hd. eapply (safe_silent t _ s _ ths m c _ Hr Ha Hs); [done..| |exact Hk]. by apply (good_locks m (lock s)). }
    pose proof (good_depth _ _ _ Hg) as Hd. destruct (lock s) as [[o n]|].
    + case_bool_decide; [|done]. subst o. injection H as <- <-. apply Hlock.
      * intros u Hu. rewrite Hd. by rewrite !decide_False.
      * rewrite Hd. by rewrite !decide_True.
    + injection H as <- <-. apply Hlock; [intros u Hu|]; rewrite Hd; [by rewrite decide_False|by rewrite decide_True].
  - destruct Ht as (d & Ec & Hk). pose proof (good_depth _ _ _ Hg) as Hd. pose proof (Hd t) as Hdt. rewrite Ec in Hdt.
    cbn in Hdt. destruct (lock s) as [[o n]|] eqn:El; [|done]. destruct (decide (t = o)) as [<-|]; [|done]. subst n.
    injection H as <- <-. eapply (safe_silent t _ s _ ths m c _ Hr Ha Hs); [done..| |exact Hk]. cbn [lock set_lock].
    replace (calm d (last (c t))) with (Ctx d (pass (c t)) (owes (c t)) (last (c t)) None) by (by rewrite Ec).
    apply (good_locks m (Some (t, S d))); [done|by rewrite Ec| | |by rewrite Ec].
    + intros u Hu. rewrite Hd. rewrite decide_False by done. destruct d; [done|]. by rewrite decide_False.
    + destruct d; [done|]. by rewrite decide_True.
  - injection H as <- <-. destruct Ht as [Htell Hk]. rewrite <-Ha in *.
    destruct (Hk (at_state m)) as (c' & Hl & Hk'); [by eapply good_consistent|].
    apply (safe_silent t _ s _ ths m c c' Hr Ha Hs); [done..| |exact Hk']. by apply good_learns.
  - injection H as <- <-. destruct Ht as (Htell & c' & Hw & Hk). eapply safe_observed; [done..| |exact Hk].
    by apply good_writes.
  - injection H as <- <-. destruct Ht as (Hp & Ho & Htell & Hk). eapply safe_observed; [done..| |by apply safe_calls].
    destruct (good_reports _ _ _ t e Hg Hp Ho Htell) as (m' & E & Es & Hg'). exists m'. by rewrite Es.
  - destruct Ht as (Hp & Htell & Hk). destruct (net_send fd frame (world (plugin s))) as [ok w]. injection H as <- <-.
    eapply safe_observed; [done..| |apply Hk].
    destruct (good_sends _ _ _ t frame ok Hg Hp Htell) as (m' & E & Es & Hg'). exists m'. by rewrite Es.
  - destruct Ht as [Htell Hk]. destruct (exec o s) as [a s1] eqn:E. injection H as <- <-.
    apply exec_same in E as (El & Elk & Est). apply (safe_silent t _ s _ ths m c (c t) Hr Ha Hs); [done..|rewrite Elk; by apply put_same|]. apply Hk.
Qed.
Lemma safe_step x y : step mem x y -> safe_system x -> safe_system y.
Proof.
  intros [t cs s ths p s' H|n c s ths H] Hx; [by eapply safe_advance|].
  destruct Hx as (m & k & Hr & Ha & Hg & Hs). exists m, k. split_and!; try done. cbn [fst snd] in *.
  intros u. unfold put_thread. destruct (decide (u = Api n)) as [->|]; [|done].
  pose proof (Hs (Api n)) as Hu. rewrite H in Hu. cbn in Hu. rewrite Hu. cbn. by apply safe_perform.
Qed.
Lemma safe_steps x y : rtc (step mem) x y -> safe_system x -> safe_system y.
Proof. induction 1; eauto using safe_step. Qed.
Lemma safe_start p : state p = disconnected -> safe_system (start p).
Proof.
  intros Hp. exists monitor_new, (fun t => calm 0 match t with Receiver => Some disconnected | Api _ => None end).
  split; [done|]. split; [by cbn|]. split.
  - split; try done. exists disconnected. split; [done|]. by left.
  - intros [|n]; [|done]. by exists disconnected.
Qed.
End system.

(** * After a fatal error *)
Definition is_sent (x : tid * mark) : bool := match x.2 with Did (Sent _ _) => true | _ => false end.
Definition send_fails (x : tid * mark) : bool := match x.2 with Did (Sent _ ok) => negb ok | _ => false end.
(** Whether the last frame that was given to [send] failed. *)
Definition last_fails (l : list (tid * mark)) : bool :=
  fold_left (fun b x => if is_sent x then send_fails x else b) l false.
Definition is_write (x : tid * mark) : bool := match x.2 with Wrote st => bool_decide (st <> failed) | Did _ => false end.
Lemma monitor_broken m x m' : monitor m x = Some m' -> broken m' = if is_sent x then send_fails x else broken m.
Proof.
  destruct x as [t [st|e]]; cbn.
  - destruct (telling m t); [done|]. case_match; [|done]. by intros [= <-].
  - destruct (telling m t) as [st|].
    + destruct (tells st e) eqn:E; [|done]. destruct e; try done; intros [= <-]; done.
    + destruct e; cbn; repeat case_match; try done; intros [= <-]; done.
Qed.
Lemma replay_app m l1 l2 m' : replay m (l1 ++ l2) = Some m' -> exists m1, replay m l1 = Some m1 /\ replay m1 l2 = Some m'.
Proof.
  revert m'. induction l2 as [|x l2 IH] using rev_ind; intros m' H; [exists m'; by rewrite app_nil_r in H|].
  rewrite app_assoc, replay_snoc in H. apply bind_Some in H as (m2 & H2 & H). destruct (IH m2 H2) as (m1 & H1 & H12).
  exists m1. split; [done|]. by rewrite replay_snoc, H12.
Qed.
Lemma replay_broken l m : replay monitor_new l = Some m -> broken m = last_fails l.
Proof.
  revert m. induction l as [|x l IH] using rev_ind; intros m H; [by injection H as <-|].
  rewrite replay_snoc in H. apply bind_Some in H as (m1 & H1 & H). rewrite (monitor_broken _ _ _ H).
  unfold last_fails. rewrite fold_left_app. cbn. fold (last_fails l). by rewrite (IH m1 H1).
Qed.
(** While no frame fails, the state stays failed, and at most one frame is sent. *)
Lemma failed_stays l m m' : replay m l = Some m' -> at_state m = failed -> broken m = false ->
  Forall (fun x => send_fails x = false) l ->
  at_state m' = failed /\ Forall (fun x => is_write x = false) l /\
  (length (List.filter is_sent l) + (if spare m' then 1 else 0) <= if spare m then 1 else 0)%nat /\ broken m' = false.
Proof.
  revert m'. induction l as [|x l IH] using rev_ind; intros m' H Hf Hb Hok; [by injection H as <-|].
  rewrite replay_snoc in H. apply bind_Some in H as (m1 & H1 & H). apply Forall_app in Hok as [Hok Hx].
  rewrite Forall_singleton in Hx. destruct (IH m1 H1 Hf Hb Hok) as (Hf1 & Hw & Hn & Hb1).
  pose proof (monitor_broken _ _ _ H) as Hb'. rewrite Hx, Hb1 in Hb'.
  rewrite List.filter_app, length_app.
  assert (at_state m' = failed /\ is_write x = false /\
    ((if is_sent x then 1 else 0) + (if spare m' then 1 else 0) <= if spare m1 then 1 else 0)%nat) as (Ha & Hwx & Hnx).
  { destruct x as [t [st|e]]; cbn in H |- *.
    - destruct (telling m1 t); [done|]. destruct (may_write m1 t st) eqn:Em; [|done]. injection H as <-. cbn.
      unfold may_write in Em. rewrite Hf1, Hb1 in Em. rewrite Hf1. cbn in Em |- *.
      destruct st; cbn in Em; rewrite ?andb_false_r in Em; try done. cbn. rewrite orb_false_r. split; [done|]. split; [done|]. lia.
    - destruct (telling m1 t) as [st|].
      + destruct (tells st e) eqn:E; [|done]. destruct e; try done; injection H as <-; cbn; split_and!; try done; lia.
      + rewrite Hf1 in H. destruct e as [data ok| |err| |]; cbn in H |- *; try done; [|destruct (negb _) in H; [|done]|..].
        1: destruct (spare m1); [|done].
        all: injection H as <-; cbn; split_and!; (done || lia). }
  split; [done|]. split; [apply Forall_app; split; [done|by rewrite Forall_singleton]|]. split; [|by case_match].
  cbn [List.filter]. destruct (is_sent x); cbn [length] in *; lia.
Qed.

(** * The protocol of a client *)
Section protocol.
Context {W : Type} {NW : Network W} {JT : JsonText}.
Variable mem : IvpDsrcMetadata.
End protocol.

(** * A thread that is not interrupted *)
(** Run alone, with callbacks that make no calls, the programs do what the functions of
    [Client] do. *)
Section alone.
Context {W : Type} {NW : Network W} {JT : JsonText}.
Variable mem : IvpDsrcMetadata.
Variable t : tid.
Notation Shared := (Shared (W := W)).
Implicit Types (s : Shared) (q : IvpPlugin (W := W)).
Definition goes_on (x y : prog * Shared) : Prop := advance mem t [] (fst x) (snd x) = Some y.
Definition mine s : Prop := match lock s with Some (o, n) => o = t /\ n <> O | None => True end.
(** [p] comes to [k], with the client [q], and the lock as it was. *)
Definition ends (p : prog) s (k : prog) q : Prop :=
  exists s', rtc goes_on (p, s) (k, s') /\ plugin s' = q /\ lock s' = lock s.
Lemma ends_here k s : ends k s k (plugin s).
Proof. exists s. by split; [constructor|]. Qed.
Lemma ends_step p s p1 s1 k q : advance mem t [] p s = Some (p1, s1) -> lock s1 = lock s -> ends p1 s1 k q -> ends p s k q.
Proof. intros E El (s' & Hr & Hq & Hl). exists s'. split; [by eapply rtc_l|]. split; [done|congruence]. Qed.
Lemma ends_next p s k q k' q' : ends p s k q -> (forall s1, plugin s1 = q -> lock s1 = lock s -> ends k s1 k' q') -> ends p s k' q'.
Proof.
  intros (s1 & Hr & Hq & Hl) H. destruct (H s1 Hq Hl) as (s2 & Hr2 & Hq2 & Hl2). exists s2.
  split; [by etransitivity|]. split; [done|congruence].
Qed.
Lemma ends_lock p s k q : mine s -> (forall s1, plugin s1 = plugin s -> pointer s1 = pointer s -> mine s1 -> ends p s1 (Unlock k) q) -> ends (Lock p) s k q.
Proof.
  intros Hm H. set (lk := match lock s with Some (_, n) => Some (t, S n) | None => Some (t, 1%nat) end).
  assert (advance mem t [] (Lock p) s = Some (p, set_lock lk s)) as E1.
  { subst lk. unfold mine in Hm. cbn. destruct (lock s) as [[o n]|]; [|done]. destruct Hm as [-> Hn]. by rewrite bool_decide_true. }
  destruct (H (set_lock lk s)) as (s1 & Hr & Hq & Hl); [done|done|by subst lk; unfold mine; cbn; destruct (lock s) as [[]|]|].
  exists (set_lock (lock s) s1). split; [|done]. eapply rtc_l; [exact E1|]. etransitivity; [exact Hr|]. apply rtc_once.
  unfold goes_on. cbn. rewrite Hl. subst lk. cbn. unfold mine in Hm. destruct (lock s) as [[o n]|]; [|done].
  destruct Hm as [-> Hn]. by destruct n.
Qed.
Lemma ends_if_up yes no s k q : ends (if is_up (state (plugin s)) then yes else no) s k q -> ends (if_up yes no) s k q.
Proof.
  intros H. eapply ends_step; [reflexivity|done|]. destruct (state (plugin s)) eqn:E; [|exact H|..].
  all: (eapply ends_step; [reflexivity|done|]); rewrite E; exact H.
Qed.
Lemma ends_onError err s k : ends (ivp_onError err k) s k (Client.ivp_onError err (plugin s)).
Proof.
  unfold ivp_onError, Client.ivp_onError. case_if; [apply ends_here|]. case_if.
  - do 2 (eapply ends_step; [reflexivity|done|]). exact (ends_here _ (observe _ _ _ _)).
  - eapply ends_step; [reflexivity|done|]. exact (ends_here _ (observe _ _ _ _)).
Qed.
Lemma ends_onStateChange st s k : ends (ivp_onStateChange st k) s k (Client.ivp_onStateChange st (plugin s)).
Proof.
  unfold ivp_onStateChange, Client.ivp_onStateChange. eapply ends_step; [reflexivity|done|]. case_bool_decide; [apply ends_here|].
  do 2 (eapply ends_step; [reflexivity|done|]). exact (ends_here _ (observe _ _ _ _)).
Qed.
Lemma ends_broadcast m s k : mine s -> ends (ivp_broadcastMessage m k) s k (Client.ivp_broadcastMessage m (plugin s)).
Proof.
  intros Hm. unfold ivp_broadcastMessage, Client.ivp_broadcastMessage. apply ends_if_up.
  destruct (is_up (state (plugin s))) eqn:Eu; cbn [negb]; [|apply ends_here]. apply ends_lock; [done|].
  intros s1 E1 _ _. apply ends_if_up. rewrite E1, Eu. eapply ends_step; [reflexivity|done|].
  destruct (net_send (socket (plugin s)) (Wire.framed m) (world (plugin s))) as [ok w] eqn:En.
  eapply ends_step; [cbn [advance]; rewrite E1, En; reflexivity|done|].
  destruct ok; [exact (ends_here _ (observe _ _ _ _))|exact (ends_onStateChange disconnected (observe _ _ _ _) _)].
Qed.
Lemma ends_broadcastAndDestroy m s k : mine s ->
  ends (ivp_broadcastAndDestroyMessage m k) s k (Client.ivp_broadcastAndDestroyMessage m (plugin s)).
Proof. intros Hm. destruct m; [by apply ends_broadcast|apply ends_here]. Qed.
Lemma ends_now f s k : mine s ->
  ends (Perform Now (fun time => ivp_broadcastAndDestroyMessage (f time) k)) s k
    (Client.ivp_broadcastAndDestroyMessage (f (now (plugin s))) (plugin s)).
Proof. intros Hm. eapply ends_step; [reflexivity|done|]. by apply ends_broadcastAndDestroy. Qed.
(** The lock is given back at the end of [send_filter]. *)
Lemma ends_send_filter s k : mine s -> ends (send_filter k) s (Unlock k) (Client.ivp_subscribe false None (plugin s)).
Proof.
  intros Hm. eapply ends_step; [reflexivity|done|].
  by apply (ends_now (fun time => Some (ivpSubscribe_createMsg time (filter (plugin s)))) s).
Qed.
Lemma ends_subscribe changed f s k : mine s -> ends (ivp_subscribe changed f k) s k (Client.ivp_subscribe changed f (plugin s)).
Proof.
  intros Hm. apply ends_lock; [done|]. intros s1 E1 _ Hm1. rewrite <-E1. destruct changed; [|by apply ends_send_filter].
  eapply ends_step; [reflexivity|done|]. exact (ends_send_filter (mkShared _ _ _ _) k Hm1).
Qed.
Lemma ends_subscribe_own s k : mine s ->
  ends (Perform ReadFilter (fun own => subscribe_own own k)) s k (Client.ivp_subscribe false None (plugin s)).
Proof.
  intros Hm. eapply ends_step; [reflexivity|done|]. apply ends_lock; [done|]. intros s1 E1 Ep Hm1. rewrite <-E1.
  eapply ends_step; [reflexivity|done|]. cbn beta iota. rewrite bool_decide_true by done. by apply ends_send_filter.
Qed.
Lemma ends_perform c s k : mine s -> ends (perform c k) s k (Client.perform c (plugin s)).
Proof.
  intros Hm. destruct c as [changed f|st|key v|key|l d|m|key v|key]; cbn [perform Client.perform].
  - by apply ends_subscribe.
  - exact (ends_now (fun time => Some (ivpPluginStatus_createMsg time _)) s k Hm).
  - unfold ivp_setStatusItem, Client.ivp_setStatusItem. case_if; [apply ends_here|].
    exact (ends_now (fun time => Some (ivpPluginStatus_createMsg time _)) s k Hm).
  - unfold ivp_removeStatusItem, Client.ivp_removeStatusItem. case_if; [apply ends_here|].
    exact (ends_now (fun time => Some (ivpPluginStatus_createMsg time _)) s k Hm).
  - unfold ivp_addEventLog, Client.ivp_addEventLog. case_if; [apply ends_here|].
    exact (ends_now (fun time => ivpEventLog_createMsg time _ _) s k Hm).
  - by apply ends_broadcast.
  - unfold ivp_setConfigurationValue, Client.ivp_setConfigurationValue. case_if; [apply ends_here|].
    exact (ends_now (fun time => Some (ivpConfig_createMsg time _)) s k Hm).
  - unfold ivp_getCopyOfConfigurationValue, Client.ivp_getCopyOfConfigurationValue. case_if; [apply ends_here|].
    eapply ends_step; [reflexivity|done|]. destruct (config (plugin s)) as [cfg|]; [|apply ends_onError].
    apply ends_lock; [done|]. intros s1 <- _ _. eapply ends_step; [reflexivity|done|]. apply ends_here.
Qed.
Lemma ends_update item s k : ends (update_config item k) s k (Client.update_config item (plugin s)).
Proof.
  unfold update_config, Client.update_config. destruct (key item) as [key|], (value item) as [v|]; try apply ends_here.
  eapply ends_step; [reflexivity|done|]. destruct (ivpConfig_updateValueInCollection _ _ _) as [found c].
  eapply ends_step; [reflexivity|done|]. case_if; [exact (ends_here _ (set_plugin _ _))|].
  eapply ends_step; [reflexivity|done|]. exact (ends_here _ (observe _ _ _ (set_plugin _ _))).
Qed.
Lemma ends_received m s k : mine s -> ends (ivp_onMessageReceived m k) s k (Client.ivp_onMessageReceived m (plugin s)).
Proof.
  intros Hm. unfold ivp_onMessageReceived, Client.ivp_onMessageReceived. case_if; [apply ends_onError|].
  case_if; [|eapply ends_step; [reflexivity|done|]; exact (ends_here _ (observe _ _ _ _))].
  set (q := fold_left _ _ _). set (rest := GetState _).
  assert (ends (Lock (fold_right (fun item => update_config (ivpConfig_item item)) (Unlock rest) (items (payload m)))) s rest q) as H1.
  { apply ends_lock; [done|]. intros s1 E1 _ _. subst q. rewrite <-E1. clear E1. revert s1.
    induction (items (payload m)) as [|item l IH]; intros s1; [apply ends_here|]. cbn [fold_right fold_left].
    eapply ends_next; [apply ends_update|]. intros s2 <- _. apply IH. }
  eapply ends_next; [exact H1|]. intros s2 E2 El2. assert (mine s2) as Hm2 by (unfold mine; by rewrite El2).
  eapply ends_step; [reflexivity|done|]. rewrite E2. case_bool_decide; [|rewrite <-E2; apply ends_here].
  rewrite <-E2. eapply ends_next; [apply ends_onStateChange|]. intros s3 <- El3. apply ends_subscribe_own.
  unfold mine. by rewrite El3, El2.
Qed.
End alone.
(** * Samples *)
(** A run that is given by who takes the next step. *)
Inductive turn := Run (t : tid) (cs : list call) | Call (n : nat) (c : call).
Section schedule.
Context {W : Type} {NW : Network W} {JT : JsonText}.
Variable mem : IvpDsrcMetadata.
Definition take_turn (x : System (W := W)) (u : turn) : System (W := W) :=
  match u with
  | Run t cs => match advance mem t cs (snd x t) (fst x) with Some (p, s) => (s, put_thread t p (snd x)) | None => x end
  | Call n c => match snd x (Api n) with Done => (fst x, put_thread (Api n) (perform c Done) (snd x)) | _ => x end
  end.
Definition schedule (us : list turn) (x : System (W := W)) : System (W := W) := fold_left take_turn us x.
Lemma schedule_steps us x : rtc (step mem) x (schedule us x).
Proof.
  revert x. induction us as [|u us IH]; intros x; [constructor|]. etransitivity; [|apply IH].
  destruct x as [s ths], u as [t cs|n c]; cbn.
  - destruct (advance mem t cs (ths t) s) as [[p s']|] eqn:E; [|constructor]. by eapply rtc_once, step_thread.
  - destruct (ths (Api n)) eqn:E; try constructor. eapply rtc_l; [by apply step_call|constructor].
Qed.
End schedule.
#[local] Existing Instance CJson.cJSON_text.
Definition fatal_world : script := mkScript 1700000000000 [2000%nat] (Wire.framed sample_fatal).
Definition fatal_client : IvpPlugin :=
  mkPlugin disconnected sample_manifest None None IVP_DEFAULT_IP IVP_DEFAULT_PORT 0 fatal_world [].
(** A status is being sent when the fatal error comes. *)
Definition sample_turns : list turn :=
  replicate 17 (Run Receiver []) ++ Call 0 (SetStatus "ok") :: replicate 4 (Run (Api 0) []) ++
  replicate 12 (Run Receiver []) ++ replicate 6 (Run (Api 0) []).
Definition sample_run := schedule (mkDsrc 0 0) sample_turns (start fatal_client).
(** A network on which a given number of frames can still be sent. *)
#[local] Instance flaky_network : Network (nat * script) := {
  net_now w := clock (snd w);
  net_socket w := (inr 3, w);
  net_connect _ _ _ w := (None, w);
  net_send _ _ w := match fst w with O => (false, w) | S n => (true, (n, snd w)) end;
  net_recv fd n w := let '(r, v) := net_recv fd n (snd w) in (r, (fst w, v)) }.
Definition flaky_run : System (W := nat * script) := schedule (mkDsrc 0 0)
  (replicate 17 (Run Receiver []) ++ Call 0 (SetStatus "ok") :: replicate 4 (Run (Api 0) []) ++
   replicate 4 (Run Receiver []) ++ replicate 8 (Run (Api 0) []) ++ replicate 20 (Run Receiver []))
  (start (mkPlugin disconnected sample_manifest None None IVP_DEFAULT_IP IVP_DEFAULT_PORT 0 (1%nat, fatal_world) [])).
(** A frame that fails after the fatal error makes the client disconnected, and it connects
    again. *)
Lemma fatal_error_undone : omap (fun x => match snd x with Wrote st => Some st | Did _ => None end) (log (fst flaky_run)) =
  [connected; failed; disconnected; connected].
Proof. vm_compute. reflexivity. Qed.
End ClientThreads.
