(* ===== verification/Handshake.v ===== *)
(** The registration of a plugin, from both sides: the client of the plugin
    ([IvpPlugin.c]) and its connection in the core ([PluginConnection.cpp]), over
    the message and wire layers. *)
From S2P Require Import Prelude Framer Json JsonText IvpMessage Wire IvpApi OrdMap Router.
From S2P Require Import CorePlugin Connection Client.
Import Json IvpMsg Core CoreFacts Connection.
Open Scope Z_scope.

Module Handshake.
(** What [processRegistrationMessage] hands to [registerPlugin]. *)
Definition config_entry (item : IvpApi.IvpConfigItem) : ConfigEntry :=
  PluginConfigurationParameterEntry (default "" (IvpApi.key item)) (default "" (IvpApi.defaultValue item))
    (default "" (IvpApi.description item)).
Definition type_entry (e : IvpApi.IvpMessageTypeEntry) : MessageTypeEntry :=
  mkMessageType (default "" (IvpApi.entry_type e)) (default "" (IvpApi.entry_subtype e))
    (default "" (IvpApi.entry_description e)).
Definition registration_info (manifest : IvpApi.IvpManifest) : RegistrationInformation :=
  mkInfo (mkPluginEntry 0 (default "" (IvpApi.name manifest)) (default "" (IvpApi.manifest_description manifest))
            (default "" (IvpApi.version manifest)))
    (map config_entry (map IvpApi.ivpConfig_item (IvpApi.items (IvpApi.configuration manifest))))
    (map type_entry (map IvpApi.ivpMsgType_entry (IvpApi.items (IvpApi.messageTypes manifest)))).

Section core.
Context {DB : Type} {HDB : Database DB} (now : Z).
Local Open Scope core_scope.

Lemma map_each_ret {A B} (f : A -> M DB B) (g : A -> B) (l : list A) s :
  Forall (fun a => f a s = (inr (g a), s)) l -> map_each f l s = (inr (map g l), s).
Proof.
  induction 1 as [|a l Ha _ IH]; [done|]. cbn. unfold bind at 1. rewrite Ha. unfold bind. by rewrite IH.
Qed.

Lemma config_entries manifest (s : Core DB) :
  IvpApi.error (IvpApi.ivpRegister_validateManifest (Some manifest)) = IvpApi.IvpError_none ->
  map_each config_default_entry (map IvpApi.ivpConfig_item (IvpApi.items (IvpApi.configuration manifest))) s =
  (inr (configDefaultEntries (registration_info manifest)), s).
Proof.
  intros Hv%IvpApi.manifest_fields_valid. apply map_each_ret, Forall_map, Forall_forall.
  intros item Hin. destruct (IvpApi.configuration manifest) as [c|]; [|by apply elem_of_nil in Hin].
  destruct Hv as (_ & Hc & _). destruct (Hc c eq_refl) as (_ & Hf & _).
  rewrite Forall_forall in Hf. destruct (Hf item Hin) as ([k Hk] & [d Hd] & _).
  unfold config_default_entry, config_entry, std_string, bind. cbn. by rewrite Hk, Hd.
Qed.

Lemma type_entries manifest (s : Core DB) :
  IvpApi.error (IvpApi.ivpRegister_validateManifest (Some manifest)) = IvpApi.IvpError_none ->
  map_each message_type_entry (map IvpApi.ivpMsgType_entry (IvpApi.items (IvpApi.messageTypes manifest))) s =
  (inr (messageTypeEntries (registration_info manifest)), s).
Proof.
  intros Hv%IvpApi.manifest_fields_valid. apply map_each_ret, Forall_map, Forall_forall.
  intros item Hin. destruct (IvpApi.messageTypes manifest) as [c|]; [|by apply elem_of_nil in Hin].
  destruct Hv as (_ & _ & Hc). destruct (Hc c eq_refl) as (_ & Hf & _).
  rewrite Forall_forall in Hf. destruct (Hf item Hin) as ([k Hk] & [d Hd] & _).
  unfold message_type_entry, type_entry, std_string, bind. cbn. by rewrite Hk, Hd.
Qed.

(** A registration message with a valid manifest gets to [registerPlugin]. *)
Lemma processRegistration_valid q m manifest (s : Core DB) :
  IvpApi.ivpRegister_getManifest m = Some manifest ->
  IvpApi.error (IvpApi.ivpRegister_validateManifest (Some manifest)) = IvpApi.IvpError_none ->
  processRegistrationMessage now q m s =
  try_catch
    (registerPlugin now q (registration_info manifest) ;;
     let! values := getAllConfigValues q in
     onMessageReceived q (IvpApi.ivpConfig_createMsg now (changed_config values)))
    is_PluginException (send_error now q IvpApi.IvpLogLevel_fatal) s.
Proof.
  intros Hm Hv. unfold processRegistrationMessage. rewrite Hm, Hv, Z.eqb_refl.
  unfold bind at 1. rewrite config_entries by done. unfold bind at 1. rewrite type_entries by done. done.
Qed.

Lemma registration_has_manifest m manifest :
  IvpApi.ivpRegister_getManifest m = Some manifest -> IvpApi.ivpRegister_isRegistrationMsg m = true.
Proof. unfold IvpApi.ivpRegister_getManifest. by destruct (IvpApi.ivpRegister_isRegistrationMsg m). Qed.

(** The answer of the core to a registration it refuses. *)
Definition refusal : IvpMessage :=
  IvpApi.ivpError_createMsg now (IvpApi.mkError IvpApi.IvpLogLevel_fatal IvpApi.IvpError_none 0).

(** The answer to a registration it accepts. *)
Definition acceptance (q : Z) (s : Core DB) : IvpMessage :=
  IvpApi.ivpConfig_createMsg now (changed_config (mConfigValues (this q s))).

Lemma registration_refused q m manifest n (s : Core DB) :
  IvpApi.ivpRegister_getManifest m = Some manifest ->
  IvpApi.error (IvpApi.ivpRegister_validateManifest (Some manifest)) = IvpApi.IvpError_none ->
  IvpApi.name manifest = Some n -> n ∈ clientNames s ->
  processFast now q m s = (inr tt, add_sent [(q, refusal)] s).
Proof.
  intros Hm Hv Hn Hin. unfold processFast. rewrite (registration_has_manifest _ _ Hm).
  rewrite (processRegistration_valid _ _ _ _ Hm Hv). unfold try_catch, bind at 1, registerPlugin.
  cbn [pluginInfo registration_info name]. rewrite Hn. cbn [default from_option Datatypes.id].
  destruct (String.eqb n ""); [done|]. unfold bind, gets. by rewrite bool_decide_true.
Qed.

Lemma registration_accepted q m manifest (s s1 : Core DB) :
  IvpApi.ivpRegister_getManifest m = Some manifest ->
  IvpApi.error (IvpApi.ivpRegister_validateManifest (Some manifest)) = IvpApi.IvpError_none ->
  registerPlugin now q (registration_info manifest) s = (inr tt, s1) -> mRegistered (this q s1) = true ->
  processFast now q m s = (inr tt, add_sent [(q, acceptance q s1)] s1).
Proof.
  intros Hm Hv Hr Hreg. unfold processFast. rewrite (registration_has_manifest _ _ Hm).
  rewrite (processRegistration_valid _ _ _ _ Hm Hv). unfold try_catch, bind at 1. rewrite Hr.
  unfold getAllConfigValues, bind, require_registered, bind, gets. rewrite Hreg. done.
Qed.

(** A plugin never learns that its registration was refused: when a registration
    message with a valid manifest carries a name that is in use, the core answers with
    an error message of fatal level, but with no error number, and a client that
    receives that message, whatever its state, ignores it: it calls nothing back, sends
    nothing and stays connected. *)
Theorem refusal_unnoticed {W : Type} {NW : Network W} {JT : JsonText} (q : Z) (m : IvpMessage)
    (manifest : IvpApi.IvpManifest) (n : string) (s : Core DB) :
  IvpApi.ivpRegister_getManifest m = Some manifest ->
  IvpApi.error (IvpApi.ivpRegister_validateManifest (Some manifest)) = IvpApi.IvpError_none ->
  IvpApi.name manifest = Some n -> n ∈ clientNames s ->
  processFast now q m s = (inr tt, add_sent [(q, refusal)] s) /\
  forall p : Client.IvpPlugin (W := W), Client.ivp_onMessageReceived (IvpApi.arrived refusal) p = p.
Proof.
  intros Hm Hv Hn Hin. split; [by apply (registration_refused q m manifest n)|]. intros p.
  unfold Client.ivp_onMessageReceived. change (IvpApi.ivpError_isErrMsg _) with true. cbn iota.
  assert (IvpApi.ivpError_getError (IvpApi.arrived refusal) =
    IvpApi.mkError IvpApi.IvpLogLevel_fatal IvpApi.IvpError_none IvpApi.IvpError_none) as ->; [|done].
  apply IvpApi.error_roundtrip_loses_sysErrNo; [unfold IvpApi.IvpLogLevel_fatal|unfold IvpApi.IvpError_none]; lia.
Qed.
End core.

#[local] Existing Instance Client.script_network.
Section accepted.
Context {DB : Type} {HDB : Database DB} {JT : JsonText} (mem mem' : IvpDsrcMetadata).

(** C7: the two sides of a registration fit: a client that connects sends the frame
    of its manifest; the text the core finds in it parses to a registration message;
    when the core accepts it (its name is free and the database answers), it sends
    one configuration message, and the client that receives the frame of that message,
    cut in any way, is registered, has called back the changed values and has sent its
    subscription. *)
Theorem registration_end_to_end (now c q : Z) (p : Client.IvpPlugin (W := Client.script)) (ss : list nat)
    (s s1 : Core DB) :
  let request := IvpApi.ivpRegister_createMsgFromJson c (Client.jsonManifest p) in
  let manifest := IvpApi.ivpRegister_getManifestFromJson (reparse (Client.jsonManifest p)) in
  let answer := acceptance now q s1 in
  Client.state p = Client.disconnected -> Client.world p = Client.mkScript c ss (Wire.framed answer) ->
  msg_ok request -> msg_ok answer -> Wire.fits answer ->
  IvpApi.error (IvpApi.ivpRegister_validateManifest (Some manifest)) = IvpApi.IvpError_none ->
  registerPlugin now q (registration_info manifest) s = (inr tt, s1) -> mRegistered (this q s1) = true ->
  Forall (fun n => 0 < n)%nat ss -> (length (Wire.framed answer) <= length ss)%nat ->
  Wire.hop mem' false request = Some (IvpApi.arrived request) /\
  processFast now q (IvpApi.arrived request) s = (inr tt, add_sent [(q, answer)] s1) /\
  exists n framer p',
    Client.thread_steps mem n (Client.Outer, p) = Some (Client.Inner framer, p') /\
    Client.state p' = Client.registered /\
    Client.trace p' = Client.trace p ++
      [Client.OnStateChange Client.connected; Client.Sent (Wire.framed request) true] ++
      Client.config_events (IvpApi.arrived answer) ++
      [Client.OnStateChange Client.registered;
       Client.Sent (Wire.framed (IvpApi.ivpSubscribe_createMsg c (Client.filter p))) true].
Proof.
  cbn zeta. intros Hs Hw Hreq Hans Hfit Hv Hr Hreg Hss Hlen. split; [|split].
  - unfold Wire.hop. by rewrite parse_createJsonString.
  - apply registration_accepted with (2 := Hv); [|done|done].
    unfold IvpApi.ivpRegister_getManifest, IvpApi.arrived, IvpApi.ivpRegister_createMsgFromJson. cbn.
    by rewrite Duplicate_id.
  - assert (concat (map Wire.framed [acceptance now q s1]) = Wire.framed (acceptance now q s1)) as Ec.
    { cbn. by rewrite app_nil_r. }
    destruct (Client.client_registration mem p (acceptance now q s1) [] c ss) as (n & f & p' & E & S & T);
      rewrite ?Ec; try done; try (constructor; [done|constructor]).
    exists n, f, p'. split; [done|]. split; [done|]. by rewrite T.
Qed.
End accepted.

(** * Samples *)
#[local] Existing Instance CJson.cJSON_text.
Definition sample_manifest : IvpApi.IvpManifest :=
  IvpApi.ivpRegister_getManifestFromJson Client.sample_manifest.

Lemma refusal_unnoticed_witness :
  processFast 0 6 registration registered_core =
    (inr tt, add_sent [(6, refusal 0)] registered_core) /\
  forall p : Client.IvpPlugin (W := Client.script),
    Client.ivp_onMessageReceived (IvpApi.arrived (refusal 0)) p = p.
Proof.
  apply (refusal_unnoticed 0 6 registration sample_manifest "SPAT" registered_core);
    [reflexivity|reflexivity|reflexivity|]. vm_compute. set_solver.
Defined.

Definition sample_core : Core toy := connected 5 (empty_core example_db).
Definition sample_accepted : Core toy :=
  snd (registerPlugin 0 5 (registration_info sample_manifest) sample_core).
Definition sample_answer : IvpMessage := acceptance 0 5 sample_accepted.

Lemma sample_answer_ok : msg_ok sample_answer.
Proof.
  split_and!; try (done || (vm_compute; split; discriminate)). intros ? [= <-].
  change (printable (cJSON_AddItemToArray cJSON_CreateArray
    (cJSON_AddStringToObject (cJSON_AddStringToObject cJSON_CreateObject "key" "rate") "value" "9"))).
  apply printable_array; (constructor; [|constructor]); [done|].
  apply pobj_printable, pobj_add_string; [done..|]. apply pobj_add_string; [done..|]. apply pobj_create.
Qed.

Lemma registration_end_to_end_witness :
  let p := Client.sample_client (Wire.framed sample_answer) in
  let request := IvpApi.ivpRegister_createMsgFromJson 1700000000000 (Client.jsonManifest p) in
  Wire.hop (mkDsrc 0 0) false request = Some (IvpApi.arrived request) /\
  processFast 0 5 (IvpApi.arrived request) sample_core =
    (inr tt, add_sent [(5, sample_answer)] sample_accepted) /\
  exists n framer p',
    Client.thread_steps (mkDsrc 0 0) n (Client.Outer, p) = Some (Client.Inner framer, p') /\
    Client.state p' = Client.registered /\
    Client.trace p' =
      [Client.OnStateChange Client.connected; Client.Sent (Wire.framed request) true] ++
      Client.config_events (IvpApi.arrived sample_answer) ++
      [Client.OnStateChange Client.registered;
       Client.Sent (Wire.framed (IvpApi.ivpSubscribe_createMsg 1700000000000 None)) true].
Proof.
  apply (registration_end_to_end (mkDsrc 0 0) (mkDsrc 0 0) 0 1700000000000 5
    (Client.sample_client (Wire.framed sample_answer)) (replicate 400 7%nat) sample_core sample_accepted).
  - reflexivity.
  - reflexivity.
  - split_and!; try (done || (cbn; lia)). intros ? [= <-].
    change (printable (cJSON_AddStringToObject cJSON_CreateObject "name" "SPAT")).
    apply pobj_printable, pobj_add_string; [done..|]. apply pobj_create.
  - exact sample_answer_ok.
  - vm_compute. discriminate.
  - reflexivity.
  - vm_compute. reflexivity.
  - vm_compute. reflexivity.
  - apply Forall_replicate. lia.
  - vm_compute. lia.
Defined.
End Handshake.
