(* ===== verification/Monitor.v ===== *)
(** The plugin monitor, [src/src/tmx/TmxCore/src/PluginMonitor.cpp]: it notes
    which plugins send messages, stops the ones that are disabled or silent,
    and starts the enabled ones that are not running.

    The process table, the clock, the database and the process launcher are
    what one check observes ([World]); the calls with an effect outside
    ([kill], the event log, the database, the status) are recorded in order.
    A database error while disabling a plugin or setting its status is caught
    by the code and changes nothing here. *)
From stdpp Require Import pretty.
From Stdlib Require Import Ascii.
From S2P Require Import Prelude OrdMap CorePlugin.
Open Scope Z_scope.

(** * [StringUtils::tokenize] *)
Module Tokens.
(** [sep.find(c) != npos]. *)
Fixpoint is_sep (sep : string) (c : ascii) : bool :=
  match sep with
  | EmptyString => false
  | String d s => Ascii.eqb c d || is_sep s c
  end.

(** The first loop and the push after it; [cur] is the text from
    [startPosition] to [i]. *)
Fixpoint split (sep : string) (cur : string) (str : string) : list string :=
  match str with
  | EmptyString => match cur with EmptyString => [] | _ => [cur] end
  | String c s =>
      if is_sep sep c then cur :: split sep EmptyString s
      else split sep (cur +:+ String c EmptyString) s
  end.

(** The loop that removes the empty tokens; [i] is the index of [itr]. After
    an [erase] the iterator is set to the beginning and then incremented.
    [None] is a loop that is not over after [fuel] rounds. *)
Fixpoint remove_empty (fuel : nat) (i : nat) (results : list string) : option (list string) :=
  match fuel with
  | O => None
  | S f =>
      if (negb (Nat.eqb i (length results))) && (Nat.ltb 0 (length results)) then
        match results !! i with
        | Some EmptyString => remove_empty f 1 (delete i results)
        | Some _ => remove_empty f (S i) results
        | None => None
        end
      else Some results
  end.

Definition rounds (l : list string) : nat := S (length l * S (length l)).

Definition tokenize (str sep : string) (removeEmpty : bool) : option (list string) :=
  let results := split sep EmptyString str in
  if removeEmpty then remove_empty (rounds results) 0 results else Some results.

Definition nonempty (s : string) : bool := match s with EmptyString => false | _ => true end.

(** What the loop computes: every empty token goes, but for one at the front
    when the text starts with two separators. *)
Definition without_empty (l : list string) : list string :=
  match l with
  | EmptyString :: EmptyString :: l' => EmptyString :: List.filter nonempty l'
  | _ => List.filter nonempty l
  end.

Definition empties (l : list string) : nat := length (List.filter (fun s => negb (nonempty s)) l).

Lemma empties_le l : (empties l <= length l)%nat.
Proof. unfold empties. induction l as [|a l IH]; cbn; [lia|]. destruct (nonempty a); cbn; lia. Qed.

Lemma filter_all l : Forall (fun s => nonempty s = true) l -> List.filter nonempty l = l.
Proof. induction 1 as [|a l Ha _ IH]; cbn; [done|]. by rewrite Ha, IH. Qed.

Lemma filter_nonempty_Forall l : Forall (fun s => nonempty s = true) (List.filter nonempty l).
Proof. apply List.Forall_forall. intros x [_ H]%List.filter_In. done. Qed.

(** The loop past its first element. *)
Lemma remove_empty_tail fuel h pre post :
  Forall (fun s => nonempty s = true) pre ->
  (length post + empties post * (length pre + length post) < fuel)%nat ->
  remove_empty fuel (S (length pre)) (h :: pre ++ post) = Some (h :: pre ++ List.filter nonempty post).
Proof.
  revert pre post. induction fuel as [|fuel IH]; intros pre post Hpre Hf; [lia|].
  cbn -[delete lookup]. rewrite length_app.
  destruct post as [|s post].
  { cbn [length]. rewrite Nat.add_0_r, Nat.eqb_refl. by rewrite !app_nil_r. }
  replace (Nat.eqb (length pre) (length pre + length (s :: post))) with false
    by (symmetry; apply Nat.eqb_neq; cbn; lia).
  cbn -[delete lookup].
  change ((h :: pre ++ s :: post) !! S (length pre)) with ((pre ++ s :: post) !! length pre).
  rewrite list_lookup_middle by done.
  destruct s as [|c s].
  - change (delete (S (length pre)) (h :: pre ++ "" :: post))
      with (h :: delete (length pre) (pre ++ "" :: post)).
    rewrite delete_middle.
    cbn in Hf. fold (empties post) in Hf.
    specialize (IH [] (pre ++ post)). cbn [length app] in IH. rewrite IH; [|done|].
    + cbn. by rewrite List.filter_app, (filter_all pre Hpre).
    + unfold empties. rewrite List.filter_app, !length_app. cbn [length].
      assert (List.filter (fun s => negb (nonempty s)) pre = []) as ->.
      { clear -Hpre. induction Hpre as [|a l Ha _ IH]; cbn; [done|]. by rewrite Ha. }
      cbn [length]. fold (empties post). nia.
  - specialize (IH (pre ++ [String c s]) post).
    rewrite length_app in IH. cbn [length] in IH. rewrite Nat.add_1_r, <- app_assoc in IH.
    cbn [app] in IH. rewrite IH; [by rewrite <- app_assoc| |].
    + apply Forall_app; split; [done|]. by constructor.
    + cbn in Hf. fold (empties post) in Hf. cbn in *. nia.
Qed.

Lemma remove_empty_from_1 fuel h l :
  (length l + empties l * length l < fuel)%nat ->
  remove_empty fuel 1 (h :: l) = Some (h :: List.filter nonempty l).
Proof. intros Hf. apply (remove_empty_tail fuel h []); [done|]. cbn. lia. Qed.

Lemma remove_empty_first f a l :
  remove_empty (S f) 0 (a :: l) = remove_empty f 1 (if nonempty a then a :: l else l).
Proof. by destruct a. Qed.

Lemma remove_empty_spec l : remove_empty (rounds l) 0 l = Some (without_empty l).
Proof.
  destruct l as [|a l]; [done|].
  pose proof (empties_le l) as He.
  unfold rounds. rewrite remove_empty_first. destruct a as [|c a]; cbn [nonempty].
  - destruct l as [|b l]; [done|]. pose proof (empties_le l).
    rewrite remove_empty_from_1; [by destruct b|]. cbn [length]. nia.
  - rewrite remove_empty_from_1; [done|]. cbn [length]. nia.
Qed.

Lemma tokenize_total str sep b : exists l, tokenize str sep b = Some l.
Proof. destruct b; eexists; [apply remove_empty_spec|done]. Qed.

Lemma tokenize_remove str sep :
  tokenize str sep true = Some (without_empty (split sep EmptyString str)).
Proof. apply remove_empty_spec. Qed.
End Tokens.

(** * [strtoull(s, &tail, 10)] *)
Fixpoint digits (acc : Z) (s : string) : Z :=
  match s with
  | String c s' =>
      let n := N_of_ascii c in
      if ((48 <=? n) && (n <=? 57))%N then digits (acc * 10 + Z.of_N (n - 48)) s' else acc
  | EmptyString => acc
  end.
Definition strtoull (s : string) : Z :=
  let '(neg, t) := match skip_spaces s with
                   | String "-" t => (true, t)
                   | String "+" t => (false, t)
                   | t => (false, t)
                   end in
  let v := digits 0 t in
  if 2 ^ 64 <=? v then 2 ^ 64 - 1 else if neg then u64 (- v) else v.

Module Monitor.
Import Tokens.

(** * Data *)
Record InstalledPluginEntry := mkInstalled {
  i_id : Z; i_plugin : Core.PluginEntry; i_path : string; i_exeName : string;
  i_manifestName : string; i_enabled : bool; i_maxMessageInterval : Z }.

Inductive PluginKillState :=
| PluginKillState_alive
| PluginKillState_sigTermSent
| PluginKillState_sigIntSent
| PluginKillState_sigKillSent.

Record MessageData := mkMessageData { firstReceivedTime : Z; lastReceivedTime : Z }.
Record PluginMonitoringData := mkMonitoring {
  pid : Z; startTime : Z; lastReceived : Z; killStatus : PluginKillState }.
Definition set_lastReceived t d := mkMonitoring (pid d) (startTime d) t (killStatus d).
Definition set_killStatus k d := mkMonitoring (pid d) (startTime d) (lastReceived d) k.

(** The keys of [mRunningPlugins] are compared by [id] alone, so the map is
    keyed by it and each value carries the whole key object. *)
Record t := mkMonitor {
  mMessages : list (Z * MessageData);
  mRunningPlugins : list (Z * (InstalledPluginEntry * PluginMonitoringData)) }.

Inductive signal := SIGTERM | SIGINT | SIGKILL.
Inductive action :=
| Kill (p : Z) (sig : signal)
| EventLog (level : Z) (text : string)
| DisableInstalledPlugin (id : Z)
| SetPluginStatus (pluginId : Z) (status : string)
| SetStatusItem (key value : string).

Definition LogLevel_Fatal : Z := 4.
Definition IVP_STATUS_STARTED : string := "Started, waiting for connection...".

(** What one check sees of the outside: the enabled plugins in id order, or
    [None] for a [DbException]; whether [kill(pid, 0)] succeeds; the clock;
    the startup limit in the configuration; and the outcome of executing a
    file: the new process and its start time, or the text of the exception. *)
Record World := mkWorld {
  enabledPlugins : option (list InstalledPluginEntry);
  process_exists : Z -> bool;
  currentTime : Z;
  maxStartupTimeConfig : string;
  execute : InstalledPluginEntry -> string -> string -> string -> (Z * Z) + string }.

(** * Messages *)
Definition onMessageReceived (sourceId rxTime : Z) (s : t) : t :=
  if sourceId =? 0 then s
  else
    let m := match OrdMap.find sourceId (mMessages s) with
             | None => OrdMap.insert sourceId (mkMessageData rxTime rxTime) (mMessages s)
             | Some d => OrdMap.insert sourceId (mkMessageData (firstReceivedTime d) rxTime) (mMessages s)
             end in
    mkMonitor m (mRunningPlugins s).

Definition startup_text (e : InstalledPluginEntry) (ms : Z) : string :=
  "Plugin '" +:+ Core.name (i_plugin e) +:+ "' (id: " +:+ pretty (Core.id (i_plugin e)) +:+
  ") startup time: " +:+ pretty ms +:+ " milliseconds".

(** The inner loop: the first running plugin with the id of the message. *)
Fixpoint note_message (sourceId : Z) (md : MessageData)
    (running : list (Z * (InstalledPluginEntry * PluginMonitoringData)))
  : list (Z * (InstalledPluginEntry * PluginMonitoringData)) * list action :=
  match running with
  | [] => ([], [])
  | (k, (e, d)) :: rest =>
      if Core.id (i_plugin e) =? sourceId then
        ((k, (e, set_lastReceived (lastReceivedTime md) d)) :: rest,
         if lastReceived d =? 0
         then [EventLog Core.LogLevel_Info (startup_text e (u64 (firstReceivedTime md - startTime d)))]
         else [])
      else let '(rest', acts) := note_message sourceId md rest in ((k, (e, d)) :: rest', acts)
  end.

Fixpoint note_messages (ms : list (Z * MessageData))
    (running : list (Z * (InstalledPluginEntry * PluginMonitoringData)))
  : list (Z * (InstalledPluginEntry * PluginMonitoringData)) * list action :=
  match ms with
  | [] => (running, [])
  | (i, md) :: ms' =>
      let '(r1, a1) := note_message i md running in
      let '(r2, a2) := note_messages ms' r1 in
      (r2, a1 ++ a2)
  end.

(** * Stopping plugins *)
Definition remove_dead (exists_ : Z -> bool)
    (running : list (Z * (InstalledPluginEntry * PluginMonitoringData)))
  : list (Z * (InstalledPluginEntry * PluginMonitoringData)) :=
  let deadPlugins := List.filter (fun x => negb (exists_ (pid (snd (snd x))))) running in
  fold_left (fun m x => OrdMap.erase (fst x) m) deadPlugins running.

Definition find_installed (i : Z) (l : list InstalledPluginEntry) : option InstalledPluginEntry :=
  List.find (fun e => i_id e =? i) l.

Definition startup_exceeded_text (e : InstalledPluginEntry) : string :=
  "Plugin '" +:+ Core.name (i_plugin e) +:+ "' (id: " +:+ pretty (Core.id (i_plugin e)) +:+
  ") has exceeded the max allowed startup time. Now restarting the plugin.".
Definition interval_exceeded_text (e : InstalledPluginEntry) : string :=
  "Plugin '" +:+ Core.name (i_plugin e) +:+ "' (id: " +:+ pretty (Core.id (i_plugin e)) +:+
  ") has exceeded it's max message interval. Now restarting the plugin.".

(** The [default] case of the switch: whether to kill, and the log entry. *)
Definition kill_decision (enabled : list InstalledPluginEntry) (maxStartupTime now : Z)
    (e : InstalledPluginEntry) (d : PluginMonitoringData) : bool * list action :=
  match find_installed (i_id e) enabled with
  | None => (true, [])
  | Some cur =>
      if lastReceived d =? 0 then
        if u64 (startTime d + maxStartupTime) <=? now
        then (true, [EventLog Core.LogLevel_Warning (startup_exceeded_text e)])
        else (false, [])
      else if negb (i_maxMessageInterval e =? 0)
              && (u64 (i_maxMessageInterval cur + lastReceived d) <=? now)
      then (true, [EventLog Core.LogLevel_Warning (interval_exceeded_text e)])
      else (false, [])
  end.

Definition supervise (enabled : list InstalledPluginEntry) (maxStartupTime now : Z)
    (e : InstalledPluginEntry) (d : PluginMonitoringData) : PluginMonitoringData * list action :=
  match killStatus d with
  | PluginKillState_sigTermSent => (set_killStatus PluginKillState_sigIntSent d, [Kill (pid d) SIGINT])
  | PluginKillState_sigIntSent => (set_killStatus PluginKillState_sigKillSent d, [Kill (pid d) SIGKILL])
  | PluginKillState_sigKillSent => (d, [])
  | PluginKillState_alive =>
      let '(killIt, acts) := kill_decision enabled maxStartupTime now e d in
      if killIt then (set_killStatus PluginKillState_sigTermSent d, acts ++ [Kill (pid d) SIGTERM])
      else (d, acts)
  end.

Fixpoint supervise_all (enabled : list InstalledPluginEntry) (maxStartupTime now : Z)
    (running : list (Z * (InstalledPluginEntry * PluginMonitoringData)))
  : list (Z * (InstalledPluginEntry * PluginMonitoringData)) * list action :=
  match running with
  | [] => ([], [])
  | (k, (e, d)) :: rest =>
      let '(d', a1) := supervise enabled maxStartupTime now e d in
      let '(rest', a2) := supervise_all enabled maxStartupTime now rest in
      ((k, (e, d')) :: rest', a1 ++ a2)
  end.

(** * Starting plugins *)
Definition is_dot (s : string) : bool := String.eqb s ".".
Definition is_dotdot (s : string) : bool := String.eqb s "..".

Definition concat_path (start : string) (tokens : list string) : string :=
  fold_left (fun p tok => p +:+ "/" +:+ tok) tokens start.

(** One round of the loop over the tokens of the executable's name: the path
    so far, the depth and the flag [outOfRoot]. *)
Definition exe_token (st : string * Z * bool) (tok : string) : string * Z * bool :=
  let '(path, exeDepth, outOfRoot) := st in
  let '(path, exeDepth) :=
    if is_dot tok then (path, exeDepth)
    else (path +:+ "/" +:+ tok, if is_dotdot tok then exeDepth - 1 else exeDepth + 1) in
  (path, exeDepth, outOfRoot || (exeDepth <? 0)).

Inductive verdict :=
| EmptyName
| OutsideRoot
| Runnable (fullpath workingDirectory exeName : string).

Definition locate (e : InstalledPluginEntry) : option verdict :=
  match tokenize (i_exeName e) "/" true, tokenize (i_path e) "/" true with
  | Some tokenizedExeName, Some tokenizedPathName =>
      match last tokenizedExeName with
      | None => Some EmptyName
      | Some exeName =>
          let base := concat_path "" tokenizedPathName in
          let workingDirectory := if nonempty base then base else "/" in
          let '(fullpath, exeDepth, outOfRoot) := fold_left exe_token tokenizedExeName (base, 0, false) in
          if (exeDepth <? 1) || outOfRoot then Some OutsideRoot
          else Some (Runnable fullpath workingDirectory exeName)
      end
  | _, _ => None
  end.

Definition launch (w : World) (e : InstalledPluginEntry) : option PluginMonitoringData * list action :=
  match locate e with
  | None => (None, [])
  | Some EmptyName =>
      (None, [DisableInstalledPlugin (i_id e);
              EventLog LogLevel_Fatal "Unable to start plugin.  Executable name is empty."])
  | Some OutsideRoot =>
      (None, [DisableInstalledPlugin (i_id e);
              EventLog LogLevel_Fatal
                "Unable to start plugin. The executable path goes outside of the root of the plugins zip package."])
  | Some (Runnable fullpath workingDirectory exeName) =>
      match execute w e fullpath workingDirectory exeName with
      | inl (p, start) =>
          (Some (mkMonitoring p start 0 PluginKillState_alive),
           [SetPluginStatus (Core.id (i_plugin e)) IVP_STATUS_STARTED])
      | inr what =>
          (None, [DisableInstalledPlugin (i_id e);
                  EventLog LogLevel_Fatal ("Unable to start plugin. Error starting process [" +:+ what +:+ "]")])
      end
  end.

Fixpoint start_all (w : World) (enabled : list InstalledPluginEntry)
    (running : list (Z * (InstalledPluginEntry * PluginMonitoringData)))
  : list (Z * (InstalledPluginEntry * PluginMonitoringData)) * list action :=
  match enabled with
  | [] => (running, [])
  | e :: rest =>
      match OrdMap.find (i_id e) running with
      | Some _ => start_all w rest running
      | None =>
          let '(started, a1) := launch w e in
          let running' := match started with
                          | Some d => OrdMap.insert (i_id e) (e, d) running
                          | None => running
                          end in
          let '(r2, a2) := start_all w rest running' in
          (r2, a1 ++ a2)
      end
  end.

(** * One round of the monitor loop, after its sleep *)
Definition max_startup (w : World) : Z :=
  let v := strtoull (maxStartupTimeConfig w) in if v =? 0 then 15000 else v.

Definition check (w : World) (s : t) : t * list action :=
  let '(noted, a1) := note_messages (mMessages s) (mRunningPlugins s) in
  match enabledPlugins w with
  | None => (mkMonitor [] noted, a1)
  | Some enabled =>
      let live := remove_dead (process_exists w) noted in
      let '(supervised, a2) := supervise_all enabled (max_startup w) (currentTime w) live in
      let '(running, a3) := start_all w enabled supervised in
      (mkMonitor [] running,
       a1 ++ a2 ++ a3 ++
       [SetStatusItem "Number of Active Plugins" (pretty (Z.of_nat (length running)))])
  end.

(** The sleep before each round: whether it is over. *)
Definition wait_over (dflt startedAt now : Z) (config : string) : bool :=
  let sleepTime := strtoull config in
  negb (now <? u64 (startedAt + if sleepTime =? 0 then dflt else sleepTime)).

(** * What the loops keep *)
Section lemmas.
Implicit Types running : list (Z * (InstalledPluginEntry * PluginMonitoringData)).

Definition dpid (x : Z * (InstalledPluginEntry * PluginMonitoringData)) : Z := pid (snd (snd x)).

(** The signals sent to a process. *)
Definition signals (p : Z) (acts : list action) : list signal :=
  omap (fun a => match a with Kill q sig => if q =? p then Some sig else None | _ => None end) acts.

#[local] Arguments signals : simpl never.

Lemma signals_app p a b : signals p (a ++ b) = signals p a ++ signals p b.
Proof. apply omap_app. Qed.

(** Same key, same plugin, same process in the same kill state. *)
Definition same_process (x y : Z * (InstalledPluginEntry * PluginMonitoringData)) : Prop :=
  fst x = fst y /\ fst (snd x) = fst (snd y) /\ pid (snd (snd x)) = pid (snd (snd y))
  /\ startTime (snd (snd x)) = startTime (snd (snd y))
  /\ killStatus (snd (snd x)) = killStatus (snd (snd y)).

#[local] Instance same_process_refl : Reflexive same_process.
Proof. intros x. repeat split. Qed.
#[local] Instance same_process_trans : Transitive same_process.
Proof. unfold same_process. intros x y z ? ?. split_all; repeat split; congruence. Qed.

Lemma note_message_same i md running :
  Forall2 same_process running (fst (note_message i md running)).
Proof.
  induction running as [|[k [e d]] rest IH]; cbn [note_message]; [constructor|].
  destruct (_ =? _).
  - cbn. constructor; [repeat split|reflexivity].
  - destruct (note_message i md rest) as [r a]. cbn in *. constructor; [reflexivity|done].
Qed.

Lemma note_message_signals p i md running : signals p (snd (note_message i md running)) = [].
Proof.
  induction running as [|[k [e d]] rest IH]; cbn [note_message]; [done|].
  destruct (_ =? _); [by destruct (lastReceived d =? 0)|].
  by destruct (note_message i md rest).
Qed.

Lemma note_messages_same ms running :
  Forall2 same_process running (fst (note_messages ms running))
  /\ forall p, signals p (snd (note_messages ms running)) = [].
Proof.
  revert running. induction ms as [|[i md] ms IH]; intros running; cbn [note_messages].
  { split; [reflexivity|done]. }
  pose proof (note_message_same i md running) as H1.
  pose proof (fun p => note_message_signals p i md running) as H2.
  destruct (note_message i md running) as [r1 a1]. cbn in H1, H2.
  specialize (IH r1) as [H3 H4]. destruct (note_messages ms r1) as [r2 a2]. cbn in *.
  split; [by transitivity r1|]. intros p. by rewrite signals_app, H2, H4.
Qed.

Lemma same_keys l l' : Forall2 same_process l l' -> map fst l' = map fst l.
Proof. induction 1 as [|x y l l' [? _] _ IH]; cbn; congruence. Qed.

Lemma same_sorted l l' : Forall2 same_process l l' -> OrdMap.sorted l -> OrdMap.sorted l'.
Proof. intros H. unfold OrdMap.sorted. by rewrite (same_keys _ _ H). Qed.

Lemma same_find l l' k e d :
  Forall2 same_process l l' -> OrdMap.find k l = Some (e, d) ->
  exists d', OrdMap.find k l' = Some (e, d') /\ same_process (k, (e, d)) (k, (e, d')).
Proof.
  induction 1 as [|[k1 [e1 d1]] [k2 [e2 d2]] l l' Hs _ IH]; [done|]. cbn [OrdMap.find].
  pose proof Hs as (Hk & He & _). cbn in Hk, He. subst k2 e2.
  destruct (OrdMap.keqb k k1) eqn:E; [|done]. intros [= -> ->].
  apply OrdMap.keqb_spec in E as <-. eauto.
Qed.

(** The other entries run other processes. *)
Definition others_avoid (k p : Z) running : Prop :=
  Forall (fun x => fst x <> k -> dpid x <> p) running.

Lemma same_others k p l l' :
  Forall2 same_process l l' -> others_avoid k p l -> others_avoid k p l'.
Proof.
  intros H Ho. unfold others_avoid in *. induction H as [|x y l l' (Hk & _ & Hp & _) _ IH]; [constructor|].
  inversion Ho; subst. constructor; [|by apply IH]. unfold dpid in *. by rewrite <- Hk, <- Hp.
Qed.

(** ** [remove_dead] *)
Lemma fold_erase (dead : list (Z * (InstalledPluginEntry * PluginMonitoringData))) running :
  OrdMap.sorted running ->
  let m := fold_left (fun m x => OrdMap.erase (fst x) m) dead running in
  OrdMap.sorted m /\ sublist m running
  /\ forall k, OrdMap.find k m = if existsb (Z.eqb k) (map fst dead) then None else OrdMap.find k running.
Proof.
  revert running. induction dead as [|x dead IH]; intros running Hs; cbn.
  { repeat split; done. }
  destruct (IH (OrdMap.erase (fst x) running)) as (H1 & H2 & H3); [auto with ordmap|].
  split; [done|]. split; [etransitivity; [exact H2|apply OrdMap.erase_sublist]|].
  intros k. rewrite H3, OrdMap.find_erase by done. unfold OrdMap.keqb. cbn.
  destruct (Z.eqb_spec k (fst x)) as [->|Hne].
  - rewrite Z.ltb_irrefl. cbn. by destruct (existsb _ _).
  - assert (negb (k <? fst x) && negb (fst x <? k) = false) as ->; [|done].
    destruct (Z.ltb_spec k (fst x)), (Z.ltb_spec (fst x) k); cbn; try done. lia.
Qed.

Lemma find_sorted_unique running k v v' :
  OrdMap.sorted running -> (k, v) ∈ running -> (k, v') ∈ running -> v = v'.
Proof. intros Hs H1%OrdMap.find_elem H2%OrdMap.find_elem; [congruence|done|done]. Qed.

Lemma remove_dead_spec ex running :
  OrdMap.sorted running ->
  OrdMap.sorted (remove_dead ex running) /\ sublist (remove_dead ex running) running
  /\ forall k, OrdMap.find k (remove_dead ex running)
      = match OrdMap.find k running with
        | Some (e, d) => if ex (pid d) then Some (e, d) else None
        | None => None
        end.
Proof.
  intros Hs. unfold remove_dead.
  destruct (fold_erase (List.filter (fun x => negb (ex (pid (snd (snd x))))) running) running Hs)
    as (H1 & H2 & H3).
  split; [done|]. split; [done|]. intros k. rewrite H3. clear H1 H2 H3.
  destruct (existsb _ _) eqn:E.
  - apply existsb_exists in E as (k' & Hin & ->%Z.eqb_eq).
    apply in_map_iff in Hin as ([k1 [e d]] & <- & [Hin Hd]%List.filter_In). cbn in *.
    apply list_elem_of_In, OrdMap.find_elem in Hin; [|done]. rewrite Hin. by destruct (ex (pid d)).
  - destruct (OrdMap.find k running) as [[e d]|] eqn:Ef; [|done].
    destruct (ex (pid d)) eqn:Ex; [done|]. exfalso. apply OrdMap.find_elem in Ef; [|done].
    apply not_true_iff_false in E. apply E. apply existsb_exists. exists k. split; [|apply Z.eqb_refl].
    apply in_map_iff. exists (k, (e, d)). split; [done|]. apply List.filter_In.
    split; [by apply list_elem_of_In|]. cbn. by rewrite Ex.
Qed.

Lemma others_sublist k p l l' : sublist l' l -> others_avoid k p l -> others_avoid k p l'.
Proof.
  unfold others_avoid. rewrite !Forall_forall. intros Hs H x Hx. apply H. by apply (elem_of_sublist _ _ _ Hx Hs).
Qed.

(** ** [supervise_all] *)
Lemma supervise_all_keys en mx now running :
  map fst (fst (supervise_all en mx now running)) = map fst running.
Proof.
  induction running as [|[k [e d]] rest IH]; cbn [supervise_all]; [done|].
  destruct (supervise en mx now e d) as [d' a1]. destruct (supervise_all en mx now rest) as [r a2].
  cbn in *. by rewrite IH.
Qed.

Lemma supervise_pid en mx now e d :
  pid (fst (supervise en mx now e d)) = pid d
  /\ startTime (fst (supervise en mx now e d)) = startTime d.
Proof.
  unfold supervise. destruct (killStatus d); try done.
  destruct (kill_decision en mx now e d) as [[] acts]; done.
Qed.

Lemma supervise_all_find en mx now running k :
  OrdMap.find k (fst (supervise_all en mx now running))
  = match OrdMap.find k running with
    | Some (e, d) => Some (e, fst (supervise en mx now e d))
    | None => None
    end.
Proof.
  induction running as [|[k1 [e d]] rest IH]; cbn [supervise_all]; [done|].
  destruct (supervise en mx now e d) as [d' a1] eqn:Es.
  destruct (supervise_all en mx now rest) as [r a2]. cbn [fst OrdMap.find] in *.
  destruct (OrdMap.keqb k k1); [by rewrite Es|done].
Qed.

Lemma supervise_all_others en mx now k p running :
  others_avoid k p running -> others_avoid k p (fst (supervise_all en mx now running)).
Proof.
  induction running as [|[k1 [e d]] rest IH]; intros Ho; cbn [supervise_all]; [done|].
  inversion Ho; subst. specialize (IH ltac:(done)).
  pose proof (supervise_pid en mx now e d) as [Hp _].
  destruct (supervise en mx now e d) as [d' a1]. destruct (supervise_all en mx now rest) as [r a2].
  cbn in *. constructor; [|done]. unfold dpid in *. cbn in *. by rewrite Hp.
Qed.

Lemma kill_decision_signals p en mx now e d : signals p (snd (kill_decision en mx now e d)) = [].
Proof.
  unfold kill_decision. destruct (find_installed _ _); [|done].
  destruct (lastReceived d =? 0); [by destruct (_ <=? _)|]. by destruct (_ && _).
Qed.

(** The signal a kill state leads to. *)
Definition next_signal (kill : bool) (k : PluginKillState) : list signal :=
  match k with
  | PluginKillState_alive => if kill then [SIGTERM] else []
  | PluginKillState_sigTermSent => [SIGINT]
  | PluginKillState_sigIntSent => [SIGKILL]
  | PluginKillState_sigKillSent => []
  end.
Definition next_state (kill : bool) (k : PluginKillState) : PluginKillState :=
  match k with
  | PluginKillState_alive => if kill then PluginKillState_sigTermSent else PluginKillState_alive
  | PluginKillState_sigTermSent => PluginKillState_sigIntSent
  | _ => PluginKillState_sigKillSent
  end.

Lemma supervise_spec p en mx now e d :
  let kill := fst (kill_decision en mx now e d) in
  killStatus (fst (supervise en mx now e d)) = next_state kill (killStatus d)
  /\ lastReceived (fst (supervise en mx now e d)) = lastReceived d
  /\ signals p (snd (supervise en mx now e d))
     = if pid d =? p then next_signal kill (killStatus d) else [].
Proof.
  unfold supervise. pose proof (kill_decision_signals p en mx now e d) as Hs.
  destruct (kill_decision en mx now e d) as [kl acts]. cbn in *.
  destruct (killStatus d) eqn:Ek; [destruct kl|..]; cbn; rewrite ?signals_app, ?Hs, ?Ek;
    unfold signals; cbn; destruct (pid d =? p); done.
Qed.

Lemma supervise_all_signals_none p en mx now running :
  Forall (fun x => dpid x <> p) running -> signals p (snd (supervise_all en mx now running)) = [].
Proof.
  induction 1 as [|[k [e d]] rest Hp _ IH]; [done|]. cbn [supervise_all].
  pose proof (supervise_spec p en mx now e d) as (_ & _ & Hs).
  destruct (supervise en mx now e d) as [d' a1]. destruct (supervise_all en mx now rest) as [r a2].
  cbn [fst snd] in *. rewrite signals_app, IH, Hs. unfold dpid in Hp. cbn in Hp.
  destruct (Z.eqb_spec (pid d) p); done.
Qed.

Lemma supervise_all_signals en mx now running k e d :
  OrdMap.sorted running -> others_avoid k (pid d) running -> OrdMap.find k running = Some (e, d) ->
  signals (pid d) (snd (supervise_all en mx now running))
  = next_signal (fst (kill_decision en mx now e d)) (killStatus d).
Proof.
  induction running as [|[k1 [e1 d1]] rest IH]; intros Hs Ho; [done|].
  apply OrdMap.sorted_cons in Hs as [Hs Hlt]. inversion Ho as [|? ? Ho1 Ho2]; subst.
  cbn [OrdMap.find supervise_all].
  pose proof (supervise_spec (pid d) en mx now e1 d1) as (_ & _ & Hsig).
  destruct (OrdMap.keqb k k1) eqn:E.
  - intros [= -> ->]. apply OrdMap.keqb_spec in E as <-. rewrite Z.eqb_refl in Hsig.
    destruct (supervise en mx now e d) as [d' a1].
    pose proof (supervise_all_signals_none (pid d) en mx now rest) as Hn.
    destruct (supervise_all en mx now rest) as [r a2]. cbn [fst snd] in *.
    rewrite signals_app, Hsig, Hn; [by rewrite app_nil_r|].
    apply Forall_forall. intros x Hx. apply (proj1 (Forall_forall _ _) Ho2 x Hx).
    apply (list_elem_of_fmap_2 fst) in Hx. apply (proj1 (Forall_forall _ _) Hlt) in Hx. cbn in *. lia.
  - intros Hf. specialize (IH Hs Ho2 Hf). apply OrdMap.keqb_false in E.
    destruct (supervise en mx now e1 d1) as [d' a1]. destruct (supervise_all en mx now rest) as [r a2].
    cbn [fst snd] in *. rewrite signals_app, IH, Hsig. unfold dpid in Ho1. cbn in Ho1.
    destruct (Z.eqb_spec (pid d1) (pid d)); [|done]. exfalso. apply Ho1; congruence.
Qed.

(** ** [start_all] *)
Lemma launch_signals p w e : signals p (snd (launch w e)) = [].
Proof.
  unfold launch. destruct (locate e) as [[]|]; try done. by destruct (execute _ _ _ _ _) as [[]|].
Qed.

Lemma start_all_find w enabled running i :
  List.NoDup (map i_id enabled) ->
  OrdMap.find i (fst (start_all w enabled running))
  = match OrdMap.find i running with
    | Some x => Some x
    | None => match find_installed i enabled with
              | Some e => match fst (launch w e) with Some d => Some (e, d) | None => None end
              | None => None
              end
    end.
Proof.
  revert running. induction enabled as [|e rest IH]; intros running Hnd; cbn [start_all].
  { cbn. by destruct (OrdMap.find i running) as [[]|]. }
  inversion Hnd as [|? ? Hni Hnd']; subst. unfold find_installed in *. cbn [List.find].
  destruct (OrdMap.find (i_id e) running) eqn:Er.
  - rewrite (IH _ Hnd'). destruct (Z.eqb_spec (i_id e) i) as [<-|]; [by rewrite Er|done].
  - destruct (launch w e) as [[d|] a1] eqn:El; cbn [fst].
    + specialize (IH (OrdMap.insert (i_id e) (e, d) running) Hnd').
      destruct (start_all w rest _) as [r a2]. cbn [fst] in *. rewrite IH, OrdMap.find_insert.
      destruct (Z.eqb_spec (i_id e) i) as [<-|Hne].
      * by rewrite OrdMap.keqb_refl, Er, El.
      * by replace (OrdMap.keqb i (i_id e)) with false by (symmetry; apply OrdMap.keqb_false; congruence).
    + specialize (IH running Hnd'). destruct (start_all w rest running) as [r a2]. cbn [fst] in *.
      rewrite IH. destruct (Z.eqb_spec (i_id e) i) as [<-|Hne]; [|done]. rewrite Er, El; cbn [fst].
      destruct (List.find _ rest) eqn:Ef; [|done]. exfalso. apply List.find_some in Ef as [Hin Heq].
      apply Z.eqb_eq in Heq. apply Hni. rewrite <- Heq. by apply in_map.
Qed.

Lemma start_all_sorted w enabled running :
  OrdMap.sorted running -> OrdMap.sorted (fst (start_all w enabled running)).
Proof.
  revert running. induction enabled as [|e rest IH]; intros running Hs; cbn [start_all]; [done|].
  destruct (OrdMap.find _ _); [by apply IH|]. destruct (launch w e) as [[d|] a1].
  - specialize (IH (OrdMap.insert (i_id e) (e, d) running) ltac:(auto with ordmap)).
    by destruct (start_all w rest _).
  - specialize (IH running Hs). by destruct (start_all w rest _).
Qed.

Lemma start_all_signals p w enabled running : signals p (snd (start_all w enabled running)) = [].
Proof.
  revert running. induction enabled as [|e rest IH]; intros running; cbn [start_all]; [done|].
  destruct (OrdMap.find _ _); [apply IH|]. pose proof (launch_signals p w e) as Hl.
  destruct (launch w e) as [o a1]. cbn [snd] in *.
  match goal with |- context [start_all w rest ?r] =>
    specialize (IH r); destruct (start_all w rest r) as [r' a2] end.
  cbn [snd] in *. by rewrite signals_app, Hl, IH.
Qed.

Lemma launch_pid w e d :
  fst (launch w e) = Some d ->
  killStatus d = PluginKillState_alive /\ lastReceived d = 0
  /\ exists path dir exe start, locate e = Some (Runnable path dir exe)
     /\ execute w e path dir exe = inl (pid d, start).
Proof.
  unfold launch. destruct (locate e) as [[| |path dir exe]|]; try done.
  destruct (execute _ _ _ _ _) as [[p st]|] eqn:Ex; [|done]. cbn. intros [= <-]. eauto 8.
Qed.

Lemma start_all_others w enabled running k p :
  (forall e path dir exe p' st, execute w e path dir exe = inl (p', st) -> p' <> p) ->
  others_avoid k p running -> others_avoid k p (fst (start_all w enabled running)).
Proof.
  intros Hw. revert running. induction enabled as [|e rest IH]; intros running Ho; cbn [start_all]; [done|].
  destruct (OrdMap.find _ _); [by apply IH|]. destruct (launch w e) as [[d|] a1] eqn:El.
  - specialize (IH (OrdMap.insert (i_id e) (e, d) running)).
    destruct (start_all w rest _). apply IH. apply OrdMap.Forall_insert; [|done].
    intros _. unfold dpid. cbn. assert (fst (launch w e) = Some d) as Hd by by rewrite El.
    apply launch_pid in Hd as (_ & _ & path & dir & exe & st & _ & Hx). eauto.
  - specialize (IH running Ho). by destruct (start_all w rest _).
Qed.

(** ** [check] *)
Definition ids_distinct (w : World) : Prop :=
  match enabledPlugins w with Some l => List.NoDup (map i_id l) | None => True end.

(** A live process's identifier is not given to a new one. *)
Definition pid_not_reused (p : Z) (w : World) : Prop :=
  forall e path dir exe p' st, execute w e path dir exe = inl (p', st) -> p' <> p.

Lemma check_silent w s :
  enabledPlugins w = None ->
  Forall2 same_process (mRunningPlugins s) (mRunningPlugins (fst (check w s)))
  /\ forall p, signals p (snd (check w s)) = [].
Proof.
  intros Hen. unfold check. pose proof (note_messages_same (mMessages s) (mRunningPlugins s)) as [H1 H2].
  destruct (note_messages _ _) as [r a]. by rewrite Hen.
Qed.

Lemma check_sorted w s :
  OrdMap.sorted (mRunningPlugins s) -> OrdMap.sorted (mRunningPlugins (fst (check w s))).
Proof.
  intros Hs. unfold check.
  pose proof (note_messages_same (mMessages s) (mRunningPlugins s)) as [Hn _].
  destruct (note_messages _ _) as [noted a1]. cbn [fst] in Hn.
  destruct (enabledPlugins w) as [en|]; [|by eapply same_sorted].
  destruct (remove_dead_spec (process_exists w) noted) as (Hd1 & _ & _); [by eapply same_sorted|].
  pose proof (supervise_all_keys en (max_startup w) (currentTime w) (remove_dead (process_exists w) noted)) as Hk.
  destruct (supervise_all _ _ _ _) as [sup a2]. cbn [fst] in Hk.
  pose proof (start_all_sorted w en sup) as Hst. destruct (start_all w en sup) as [r a3].
  cbn in *. apply Hst. unfold OrdMap.sorted in *. by rewrite Hk.
Qed.

Lemma check_entry w s en k e d :
  OrdMap.sorted (mRunningPlugins s) -> enabledPlugins w = Some en -> ids_distinct w ->
  OrdMap.find k (mRunningPlugins s) = Some (e, d) -> process_exists w (pid d) = true ->
  exists d0, same_process (k, (e, d)) (k, (e, d0))
    /\ OrdMap.find k (mRunningPlugins (fst (check w s)))
       = Some (e, fst (supervise en (max_startup w) (currentTime w) e d0))
    /\ (others_avoid k (pid d) (mRunningPlugins s) -> pid_not_reused (pid d) w ->
        others_avoid k (pid d) (mRunningPlugins (fst (check w s)))
        /\ signals (pid d) (snd (check w s))
           = next_signal (fst (kill_decision en (max_startup w) (currentTime w) e d0)) (killStatus d)).
Proof.
  intros Hs Hen Hnd Hf Hex. unfold ids_distinct in Hnd. rewrite Hen in Hnd. unfold check. rewrite Hen.
  pose proof (note_messages_same (mMessages s) (mRunningPlugins s)) as [Hn Hns].
  destruct (note_messages _ _) as [noted a1]. cbn [fst snd] in Hn, Hns.
  destruct (same_find _ _ _ _ _ Hn Hf) as (d0 & Hf0 & Hsame).
  pose proof Hsame as (_ & _ & Hp & _ & Hk). cbn in Hp, Hk.
  destruct (remove_dead_spec (process_exists w) noted) as (Hd1 & Hd2 & Hd3); [by eapply same_sorted|].
  specialize (Hd3 k). rewrite Hf0, <- Hp, Hex in Hd3.
  set (L := remove_dead (process_exists w) noted) in *.
  pose proof (supervise_all_find en (max_startup w) (currentTime w) L k) as Hsf. rewrite Hd3 in Hsf.
  pose proof (supervise_all_others en (max_startup w) (currentTime w) k (pid d) L) as Hso.
  pose proof (supervise_all_signals en (max_startup w) (currentTime w) L k e d0 Hd1) as Hsg.
  destruct (supervise_all en _ _ L) as [sup a2]. cbn [fst snd] in *.
  pose proof (start_all_find w en sup k Hnd) as Hst. rewrite Hsf in Hst.
  pose proof (start_all_others w en sup k (pid d)) as Hsto.
  pose proof (start_all_signals (pid d) w en sup) as Hsts.
  destruct (start_all w en sup) as [r a3]. cbn [fst snd mRunningPlugins] in *.
  exists d0. split; [done|]. split; [done|]. intros Ho Hr.
  assert (others_avoid k (pid d) L) as HoL by (eapply others_sublist; [exact Hd2|by eapply same_others]).
  split; [by apply Hsto; [exact Hr|apply Hso]|].
  rewrite !signals_app, Hns, Hsts, Hp, Hsg; [|by rewrite <- Hp|done].
  rewrite Hk. by rewrite !app_nil_r.
Qed.

Lemma check_start w s en i :
  OrdMap.sorted (mRunningPlugins s) -> enabledPlugins w = Some en -> ids_distinct w ->
  (forall e d, OrdMap.find i (mRunningPlugins s) = Some (e, d) -> process_exists w (pid d) = false) ->
  OrdMap.find i (mRunningPlugins (fst (check w s)))
  = match find_installed i en with
    | Some e => match fst (launch w e) with Some d => Some (e, d) | None => None end
    | None => None
    end.
Proof.
  intros Hs Hen Hnd Hgone. unfold ids_distinct in Hnd. rewrite Hen in Hnd. unfold check. rewrite Hen.
  pose proof (note_messages_same (mMessages s) (mRunningPlugins s)) as [Hn _].
  destruct (note_messages _ _) as [noted a1]. cbn [fst] in Hn.
  destruct (remove_dead_spec (process_exists w) noted) as (_ & _ & Hd3); [by eapply same_sorted|].
  specialize (Hd3 i).
  assert (OrdMap.find i (remove_dead (process_exists w) noted) = None) as HL.
  { rewrite Hd3. destruct (OrdMap.find i noted) as [[e d]|] eqn:Ef; [|done].
    assert (Forall2 same_process noted (mRunningPlugins s)) as Hn'.
    { clear -Hn. induction Hn as [|x y l l' (?&?&?&?&?) _ IH]; constructor; [|done]. repeat split; congruence. }
    destruct (same_find _ _ _ _ _ Hn' Ef) as (d0 & Hf0 & _ & _ & Hp & _). cbn in Hp.
    by rewrite Hp, (Hgone _ _ Hf0). }
  pose proof (supervise_all_find en (max_startup w) (currentTime w) (remove_dead (process_exists w) noted) i) as Hsf.
  rewrite HL in Hsf. destruct (supervise_all en _ _ _) as [sup a2]. cbn [fst] in *.
  pose proof (start_all_find w en sup i Hnd) as Hst. rewrite Hsf in Hst.
  destruct (start_all w en sup) as [r a3]. done.
Qed.

End lemmas.

(** * The directory an executable is in

    How the kernel reads a path: the empty component and [.] stay, [..] goes
    up (and stays at the root), anything else goes down. The result is the
    list of the directories, innermost first. *)
Definition go (dir : list string) (tok : string) : list string :=
  if negb (nonempty tok) || is_dot tok then dir
  else if is_dotdot tok then tail dir else tok :: dir.
Definition resolve (path : string) : list string := fold_left go (split "/" "" path) [].

Fixpoint no_sep (s : string) : Prop :=
  match s with EmptyString => True | String c s' => is_sep "/" c = false /\ no_sep s' end.

Lemma app_string c (a b : string) : String c a +:+ b = String c (a +:+ b).
Proof. done. Qed.
Lemma app_empty_r (s : string) : s +:+ "" = s.
Proof. induction s as [|c s IH]; [done|]. by rewrite app_string, IH. Qed.
Lemma app_assoc_str (a b c : string) : (a +:+ b) +:+ c = a +:+ (b +:+ c).
Proof. induction a as [|x a IH]; [done|]. by rewrite !app_string, IH. Qed.

Lemma no_sep_app a b : no_sep a -> no_sep b -> no_sep (a +:+ b).
Proof.
  induction a as [|c a IH]; [done|]. rewrite app_string. intros [? ?] ?. split; [done|]. by apply IH.
Qed.

Lemma split_no_sep s : forall cur, no_sep cur -> Forall no_sep (split "/" cur s).
Proof.
  induction s as [|c s IH]; intros cur Hc; cbn [split].
  { destruct cur; [constructor|]. by constructor. }
  destruct (is_sep "/" c) eqn:E.
  - constructor; [done|]. by apply IH.
  - apply IH. apply no_sep_app; [done|]. by cbn.
Qed.

Lemma split_tok tok : forall cur, no_sep tok ->
  split "/" cur tok = match cur +:+ tok with EmptyString => [] | t => [t] end.
Proof.
  induction tok as [|c tok IH]; intros cur Hn; cbn [split].
  { rewrite app_empty_r. by destruct cur. }
  destruct Hn as [Hc Hn]. rewrite Hc, IH by done. by rewrite app_assoc_str.
Qed.

Lemma fold_go_tok tok dir : fold_left go (match tok with EmptyString => [] | t => [t] end) dir = go dir tok.
Proof. by destruct tok. Qed.

Lemma fold_go_join p tok : no_sep tok -> forall cur dir,
  fold_left go (split "/" cur (p +:+ "/" +:+ tok)) dir
  = go (fold_left go (split "/" cur p) dir) tok.
Proof.
  intros Hn. induction p as [|c p IH]; intros cur dir.
  - change ("" +:+ "/" +:+ tok) with (String "/" tok). cbn [split].
    change (is_sep "/" "/") with true. cbn iota. rewrite (split_tok tok "" Hn). cbn [fold_left].
    change ("" +:+ tok) with tok. by destruct cur, tok.
  - change (String c p +:+ "/" +:+ tok) with (String c (p +:+ "/" +:+ tok)). cbn [split].
    destruct (is_sep "/" c); [|apply IH]. cbn [fold_left]. apply IH.
Qed.

Lemma resolve_join p tok : no_sep tok -> resolve (p +:+ "/" +:+ tok) = go (resolve p) tok.
Proof. intros Hn. by apply fold_go_join. Qed.

Lemma resolve_concat toks : Forall no_sep toks -> forall p,
  resolve (concat_path p toks) = fold_left go toks (resolve p).
Proof.
  unfold concat_path. induction 1 as [|tok toks Ht _ IH]; intros p; cbn [fold_left]; [done|].
  by rewrite IH, resolve_join.
Qed.

Lemma go_empty dir : go dir "" = dir.
Proof. done. Qed.

Lemma fold_go_filter l : forall dir, fold_left go (List.filter nonempty l) dir = fold_left go l dir.
Proof.
  induction l as [|a l IH]; intros dir; cbn; [done|]. destruct a; cbn; [|apply IH].
  apply IH.
Qed.

Lemma fold_go_without_empty l dir : fold_left go (without_empty l) dir = fold_left go l dir.
Proof.
  destruct l as [|[|c a] [|[|c' b] l]]; cbn; by rewrite ?fold_go_filter.
Qed.

Lemma without_empty_no_sep l : Forall no_sep l -> Forall no_sep (without_empty l).
Proof.
  assert (forall l, Forall no_sep l -> Forall no_sep (List.filter nonempty l)) as Hf.
  { clear l. intros l. rewrite !List.Forall_forall. intros H x [Hx _]%List.filter_In. by apply H. }
  intros H. destruct l as [|[|c a] [|[|c' b] l]]; try (by apply Hf).
  inversion H as [|? ? ? H1]; subst. inversion H1; subst. constructor; [done|]. by apply Hf.
Qed.

(** The path of a directory, built again from its tokens, is that directory. *)
Lemma resolve_tokens path toks :
  tokenize path "/" true = Some toks -> resolve (concat_path "" toks) = resolve path.
Proof.
  rewrite tokenize_remove. intros [= <-].
  rewrite resolve_concat by (by apply without_empty_no_sep, split_no_sep).
  by rewrite fold_go_without_empty.
Qed.

Lemma exe_token_out toks : forall st p' d' o',
  fold_left exe_token toks st = (p', d', o') -> snd st = true -> o' = true.
Proof.
  induction toks as [|t toks IH]; intros st p' d' o'; cbn [fold_left].
  { intros ->. done. }
  intros Hf Hst. eapply IH; [exact Hf|]. destruct st as [[q e] b]. cbn in Hst |- *. subst b.
  by destruct (is_dot t).
Qed.

(** The loop over the tokens of the executable follows the path as long as no
    token is empty and the depth has not become negative. *)
Lemma exe_loop toks : Forall no_sep toks -> Forall (fun s => nonempty s = true) toks ->
  forall p depth out base top,
  resolve p = top ++ base -> depth = Z.of_nat (length top) ->
  let '(p', depth', out') := fold_left exe_token toks (p, depth, out) in
  out' = false ->
  out = false /\ exists top', resolve p' = top' ++ base /\ depth' = Z.of_nat (length top').
Proof.
  induction 1 as [|tok toks Hns _ IH]; intros Hne p depth out base top Hr Hd; cbn [fold_left].
  { intros ->. eauto. }
  inversion Hne as [|? ? Htok Hne']; subst. specialize (IH Hne').
  cbn [exe_token]. unfold go in *.
  destruct (is_dot tok) eqn:Edot.
  { specialize (IH p (Z.of_nat (length top)) (out || (Z.of_nat (length top) <? 0)) base top Hr eq_refl).
    destruct (fold_left exe_token toks _) as [[p' d'] o']. intros Ho.
    destruct (IH Ho) as [[-> _]%orb_false_elim ?]. eauto. }
  destruct (is_dotdot tok) eqn:Edd.
  - destruct top as [|a top].
    + destruct (fold_left exe_token toks _) as [[p' d'] o'] eqn:Ef. intros ->. exfalso.
      apply exe_token_out in Ef; [done|]. cbn. apply orb_true_r.
    + assert (resolve (p +:+ "/" +:+ tok) = top ++ base) as Hr'.
      { rewrite resolve_join by done. unfold go. by rewrite Htok, Edot, Edd, Hr. }
      specialize (IH _ (Z.of_nat (length (a :: top)) - 1) (out || (Z.of_nat (length (a :: top)) - 1 <? 0)) base top Hr').
      destruct (fold_left exe_token toks _) as [[p' d'] o']. intros Ho.
      destruct IH as [[-> _]%orb_false_elim ?]; [cbn [length]; lia|done|]. eauto.
  - assert (resolve (p +:+ "/" +:+ tok) = (tok :: top) ++ base) as Hr'.
    { rewrite resolve_join by done. unfold go. by rewrite Htok, Edot, Edd, Hr. }
    specialize (IH _ (Z.of_nat (length top) + 1) (out || (Z.of_nat (length top) + 1 <? 0)) base (tok :: top) Hr').
    destruct (fold_left exe_token toks _) as [[p' d'] o']. intros Ho.
    destruct IH as [[-> _]%orb_false_elim ?]; [cbn [length]; lia|done|]. eauto.
Qed.

(** Whether a text starts with two separators. *)
Definition starts_twice (s : string) : bool :=
  match s with String a (String b _) => is_sep "/" a && is_sep "/" b | _ => false end.

Lemma split_head s : forall c cur, exists t l,
  split "/" (String c cur) s = String c t :: l.
Proof.
  induction s as [|d s IH]; intros c cur; cbn [split]; [by eauto|].
  destruct (is_sep "/" d); [by eauto|]. rewrite app_string. apply IH.
Qed.

Lemma tokens_nonempty s :
  if starts_twice s
  then exists l, without_empty (split "/" "" s) = "" :: l
  else Forall (fun t => nonempty t = true) (without_empty (split "/" "" s)).
Proof.
  assert (forall l, (forall l', l <> "" :: "" :: l') ->
            Forall (fun t => nonempty t = true) (without_empty l)) as Hl.
  { intros l Hn. destruct l as [|[|c a] [|[|c' b] l]]; try apply filter_nonempty_Forall.
    by destruct (Hn l). }
  destruct s as [|a [|b s]]; cbn [starts_twice].
  - constructor.
  - apply Hl. cbn. by destruct (Ascii.eqb a "/" || false).
  - cbn [split]. destruct (is_sep "/" a) eqn:Ea; cbn [andb]; [destruct (is_sep "/" b) eqn:Eb|].
    + eauto.
    + apply Hl. intros l'. change ("" +:+ String b "") with (String b "").
      by destruct (split_head s b "") as (t & l & ->).
    + apply Hl. intros l'. change ("" +:+ String a "") with (String a "").
      destruct (is_sep "/" b); [done|]. change (String a "" +:+ String b "") with (String a (String b "")).
      by destruct (split_head s a (String b "")) as (t & l & ->).
Qed.

(** Removing the empty tokens always ends, keeps the other tokens in
    order, and leaves an empty token behind, at the front, exactly when the
    text starts with two separators. *)
Theorem tokenize_path s : exists toks,
  tokenize s "/" true = Some toks
  /\ List.filter nonempty toks = List.filter nonempty (split "/" "" s)
  /\ Forall no_sep toks
  /\ Forall (fun t => nonempty t = true) (tail toks)
  /\ (head toks = Some "" <-> starts_twice s = true).
Proof.
  exists (without_empty (split "/" "" s)). split; [apply tokenize_remove|].
  assert (forall l, List.filter nonempty (List.filter nonempty l) = List.filter nonempty l) as Hff.
  { intros l. apply filter_all, filter_nonempty_Forall. }
  split. { destruct (split "/" "" s) as [|[|c a] [|[|c' b] l]]; cbn; by rewrite ?Hff. }
  split; [by apply without_empty_no_sep, split_no_sep|].
  pose proof (tokens_nonempty s) as Hn. destruct (starts_twice s).
  - destruct Hn as [l Hl]. split; [|by rewrite Hl].
    destruct (split "/" "" s) as [|[|c a] [|[|c' b] l']]; cbn in *; try done;
      try apply filter_nonempty_Forall.
  - split; [by destruct Hn|]. split; [|done]. by destruct Hn as [|[] ? ?].
Qed.

(** C36: an executable the monitor runs lies below the plugin's directory, when
    its name in the database does not start with two separators. *)
Theorem exe_confined e full wd exe :
  locate e = Some (Runnable full wd exe) -> starts_twice (i_exeName e) = false ->
  resolve wd = resolve (i_path e) /\ exists top, top <> [] /\ resolve full = top ++ resolve wd.
Proof.
  unfold locate. intros Hl Hn.
  destruct (tokenize_total (i_path e) "/" true) as [pt Hpt]. rewrite Hpt in Hl.
  rewrite tokenize_remove in Hl.
  pose proof (tokens_nonempty (i_exeName e)) as Hne. rewrite Hn in Hne.
  assert (Forall no_sep (without_empty (split "/" "" (i_exeName e)))) as Hns
    by by apply without_empty_no_sep, split_no_sep.
  destruct (last _) as [x|]; [|done].
  set (base := concat_path "" pt) in *.
  assert (resolve base = resolve (i_path e)) as Hbase by by apply resolve_tokens.
  pose proof (exe_loop _ Hns Hne base 0 false (resolve base) [] eq_refl eq_refl) as Hloop.
  destruct (fold_left exe_token _ _) as [[p' d'] o'].
  destruct ((d' <? 1) || o') eqn:Ev; [done|]. apply orb_false_elim in Ev as [Hd%Z.ltb_ge ->].
  injection Hl as <- <- <-. destruct (Hloop eq_refl) as (_ & top & Ht & Hd').
  assert (resolve (if nonempty base then base else "/") = resolve base) as ->.
  { destruct base; done. }
  split; [done|]. exists top. split; [|done]. intros ->. cbn in Hd'. lia.
Qed.

(** With a name that starts with two separators the check on the depth is
    passed by a path that goes outside: the empty token counts as a directory,
    so [//../x] is run although it is next to the plugin's directory. *)
Theorem exe_escapes e x :
  i_exeName e = "//../" +:+ x -> no_sep x -> nonempty x = true -> is_dot x = false -> is_dotdot x = false ->
  exists full wd, locate e = Some (Runnable full wd x) /\ resolve wd = resolve (i_path e)
    /\ resolve full = x :: tail (resolve wd).
Proof.
  intros Hx Hns Hne Hd Hdd. unfold locate. rewrite Hx.
  destruct (tokenize_total (i_path e) "/" true) as [pt Hpt]. rewrite Hpt.
  assert (tokenize ("//../" +:+ x) "/" true = Some [""; ".."; x]) as ->.
  { rewrite tokenize_remove.
    change (split "/" "" ("//../" +:+ x)) with ("" :: "" :: ".." :: split "/" "" x).
    rewrite split_tok by done. by destruct x. }
  cbn [last]. set (base := concat_path "" pt).
  assert (resolve base = resolve (i_path e)) as Hbase by by apply resolve_tokens.
  assert (fold_left exe_token [""; ".."; x] (base, 0, false)
          = (((base +:+ "/" +:+ "") +:+ "/" +:+ "..") +:+ "/" +:+ x, 1, false)) as ->.
  { change (fold_left exe_token [""; ".."; x] (base, 0, false))
      with (exe_token ((base +:+ "/" +:+ "") +:+ "/" +:+ "..", 0, false) x).
    unfold exe_token. by rewrite Hd, Hdd. }
  exists ((((base +:+ "/" +:+ "") +:+ "/" +:+ "..") +:+ "/" +:+ x)), (if nonempty base then base else "/").
  split; [done|].
  assert (resolve (if nonempty base then base else "/") = resolve base) as -> by by destruct base.
  split; [done|]. rewrite !resolve_join by done.
  assert (forall dir, go dir x = x :: dir) as -> by (intros dir; unfold go; by rewrite Hne, Hd, Hdd). done.
Qed.

(** * Executions: messages and checks in any order *)
Inductive event :=
| Message (sourceId rxTime : Z)
| Round (w : World).

Definition step (ev : event) (s : t) : t * list action :=
  match ev with
  | Message i rx => (onMessageReceived i rx s, [])
  | Round w => check w s
  end.
Fixpoint run (evs : list event) (s : t) : t * list action :=
  match evs with
  | [] => (s, [])
  | ev :: evs' =>
      let '(s1, a1) := step ev s in
      let '(s2, a2) := run evs' s1 in
      (s2, a1 ++ a2)
  end.

(** The checks that see the database. *)
Definition checks (evs : list event) : nat :=
  length (List.filter (fun ev => match ev with
                                 | Round w => match enabledPlugins w with Some _ => true | None => false end
                                 | Message _ _ => false
                                 end) evs).
(** The process exists at every check and its identifier is not reused. *)
Definition stays (p : Z) (ev : event) : Prop :=
  match ev with
  | Round w => process_exists w p = true /\ pid_not_reused p w /\ ids_distinct w
  | Message _ _ => True
  end.

(** The signals still to come in a kill state. *)
Definition pending (k : PluginKillState) : list signal :=
  match k with
  | PluginKillState_alive => [SIGTERM; SIGINT; SIGKILL]
  | PluginKillState_sigTermSent => [SIGINT; SIGKILL]
  | PluginKillState_sigIntSent => [SIGKILL]
  | PluginKillState_sigKillSent => []
  end.
Definition is_alive (k : PluginKillState) : bool :=
  match k with PluginKillState_alive => true | _ => false end.

Lemma onMessageReceived_running i rx s :
  mRunningPlugins (onMessageReceived i rx s) = mRunningPlugins s.
Proof. unfold onMessageReceived. by destruct (i =? 0). Qed.

(** One event: what it sends to the process and what is pending after it. *)
Lemma step_entry ev evs s k e d :
  OrdMap.sorted (mRunningPlugins s) -> OrdMap.find k (mRunningPlugins s) = Some (e, d) ->
  others_avoid k (pid d) (mRunningPlugins s) -> stays (pid d) ev ->
  exists d' sig,
    OrdMap.sorted (mRunningPlugins (fst (step ev s)))
    /\ OrdMap.find k (mRunningPlugins (fst (step ev s))) = Some (e, d') /\ pid d' = pid d
    /\ others_avoid k (pid d) (mRunningPlugins (fst (step ev s)))
    /\ signals (pid d) (snd (step ev s)) = sig
    /\ exists n, pending (killStatus d) = sig ++ pending (killStatus d')
       /\ checks (ev :: evs) = (n + checks evs)%nat
       /\ (is_alive (killStatus d) = false ->
           is_alive (killStatus d') = false /\ sig = take n (pending (killStatus d))).
Proof.
  intros Hs Hf Ho Hev. destruct ev as [i rx|w]; cbn [step fst snd].
  - rewrite onMessageReceived_running. exists d, []. repeat (split; [done|]). by exists 0%nat.
  - destruct Hev as (Hex & Hr & Hnd). pose proof (check_sorted w s Hs) as Hs'.
    destruct (enabledPlugins w) as [en|] eqn:Hen.
    + destruct (check_entry w s en k e d Hs Hen Hnd Hf Hex) as (d0 & Hsame & Hf' & Hrest).
      destruct (Hrest Ho Hr) as [Ho' Hsg]. destruct Hsame as (_ & _ & Hp & _ & Hk). cbn in Hp, Hk.
      destruct (supervise_spec (pid d) en (max_startup w) (currentTime w) e d0) as (Hk' & _ & _).
      destruct (supervise_pid en (max_startup w) (currentTime w) e d0) as [Hp' _].
      eexists _, _. split; [done|]. split; [exact Hf'|]. split; [by rewrite Hp'|]. split; [done|].
      split; [exact Hsg|]. exists 1%nat. rewrite Hk', <- Hk. unfold checks. cbn. rewrite Hen. cbn.
      destruct (fst (kill_decision _ _ _ _ _)), (killStatus d); repeat split; try done.
    + destruct (check_silent w s Hen) as [Hsame Hsg].
      destruct (same_find _ _ _ _ _ Hsame Hf) as (d' & Hf' & _ & _ & Hp & _ & Hk). cbn in Hp, Hk.
      exists d', []. split; [done|]. split; [done|]. split; [done|].
      split; [by eapply same_others|]. split; [apply Hsg|]. exists 0%nat. rewrite <- Hk.
      unfold checks. cbn. by rewrite Hen.
Qed.

(** C23: a process that does not go away is sent SIGTERM, then SIGINT, then
    SIGKILL, each once, at successive checks: once it has been told to
    terminate, [n] more checks send the next [n] of these signals whatever its
    plugin does in the meantime (messages, being enabled again), and before
    that nothing but a prefix of the three can be sent. Its entry stays. *)
Theorem kill_escalation evs s k e d :
  OrdMap.sorted (mRunningPlugins s) -> OrdMap.find k (mRunningPlugins s) = Some (e, d) ->
  others_avoid k (pid d) (mRunningPlugins s) -> Forall (stays (pid d)) evs ->
  (exists d', OrdMap.find k (mRunningPlugins (fst (run evs s))) = Some (e, d') /\ pid d' = pid d)
  /\ signals (pid d) (snd (run evs s)) `prefix_of` pending (killStatus d)
  /\ (is_alive (killStatus d) = false ->
      signals (pid d) (snd (run evs s)) = take (checks evs) (pending (killStatus d))).
Proof.
  intros Hs Hf Ho Hst. revert s d Hs Hf Ho Hst.
  induction evs as [|ev evs IH]; intros s d Hs Hf Ho Hst.
  { cbn. split; [by exists d|]. split; [apply prefix_nil|done]. }
  inversion Hst as [|? ? Hev Hevs]; subst. cbn [run].
  pose proof (step_entry ev evs s k e d Hs Hf Ho Hev) as Hstep.
  destruct Hstep as (d' & sig & Hs' & Hf' & Hp & Ho' & Hsig & n & Hpend & Hck & Hal).
  destruct (step ev s) as [s1 a1]. cbn [fst snd] in *.
  rewrite <- Hp in Ho'. specialize (IH s1 d' Hs' Hf' Ho'). rewrite Hp in IH.
  destruct (IH Hevs) as ((d2 & Hf2 & Hp2) & Hpre & Htk). clear IH.
  destruct (run evs s1) as [s2 a2]. cbn [fst snd] in *.
  split; [by exists d2|]. rewrite signals_app, Hsig, Hpend.
  split; [by apply prefix_app|]. intros Hna. destruct (Hal Hna) as [Hna' Htake].
  rewrite (Htk Hna'), Hck. rewrite Hpend in Htake. clear Hpend Hck Htk.
  assert (length sig = n \/ pending (killStatus d') = []) as [<-|Hnil].
  { apply (f_equal length) in Htake. rewrite length_take, length_app in Htake. destruct (pending (killStatus d')); [by right|]. left. cbn in Htake. lia. }
  - by rewrite take_app_add.
  - rewrite Hnil, take_nil, !app_nil_r in *. symmetry. apply take_ge.
    apply (f_equal length) in Htake. rewrite length_take in Htake. lia.
Qed.

(** What a check leaves running: the plugins whose process exists are kept
    in their process, and any other enabled plugin is started anew and is
    running exactly when its executable is accepted and could be executed;
    nothing else runs. *)
Theorem check_running w s en i :
  OrdMap.sorted (mRunningPlugins s) -> enabledPlugins w = Some en -> ids_distinct w ->
  (forall e d, OrdMap.find i (mRunningPlugins s) = Some (e, d) -> process_exists w (pid d) = true ->
     exists d', OrdMap.find i (mRunningPlugins (fst (check w s))) = Some (e, d')
       /\ pid d' = pid d /\ startTime d' = startTime d)
  /\ ((forall e d, OrdMap.find i (mRunningPlugins s) = Some (e, d) -> process_exists w (pid d) = false) ->
      OrdMap.find i (mRunningPlugins (fst (check w s)))
      = match find_installed i en with
        | Some e => match fst (launch w e) with Some d => Some (e, d) | None => None end
        | None => None
        end).
Proof.
  intros Hs Hen Hnd. split; [|by apply check_start]. intros e d Hf Hex.
  destruct (check_entry w s en i e d Hs Hen Hnd Hf Hex) as (d0 & (_ & _ & Hp & Hst & _) & Hf' & _).
  destruct (supervise_pid en (max_startup w) (currentTime w) e d0) as [Hp' Hst']. cbn in Hp, Hst.
  eexists. split; [exact Hf'|]. rewrite Hp', Hst'. by split.
Qed.

(** A message interval that is set to zero, which switches the supervision
    off for plugins started afterwards, makes every check terminate a running
    plugin that was started with another interval, however recently it has
    sent a message: the guard tests the interval the plugin was started with
    and the comparison uses the current one. *)
Theorem zero_interval_kills en mx now e cur d :
  find_installed (i_id e) en = Some cur -> i_maxMessageInterval cur = 0 ->
  i_maxMessageInterval e <> 0 -> killStatus d = PluginKillState_alive ->
  0 < lastReceived d <= now -> now < 2 ^ 64 ->
  Kill (pid d) SIGTERM ∈ snd (supervise en mx now e d).
Proof.
  intros Hf Hc He Hk Hl Hn. unfold supervise. rewrite Hk. unfold kill_decision. rewrite Hf, Hc.
  rewrite (proj2 (Z.eqb_neq _ _)) by lia. rewrite (proj2 (Z.eqb_neq _ _)) by done.
  rewrite Z.add_0_l, u64_small by lia. rewrite (proj2 (Z.leb_le _ _)) by lia. cbn.
  right. left.
Qed.

(** * Witnesses *)
Definition sample (i interval : Z) (path exe : string) : InstalledPluginEntry :=
  mkInstalled i (Core.mkPluginEntry i "P" "" "1.0") path exe "manifest.json" true interval.
Definition sample_entry : InstalledPluginEntry := sample 7 3000 "/var/www/plugins/P" "bin/P".
Definition sample_state (k : PluginKillState) (last : Z) : t :=
  mkMonitor [] [(7, (sample_entry, mkMonitoring 42 90000 last k))].

(** A launcher that gives one identifier. *)
Definition fixed_world (en : list InstalledPluginEntry) : World :=
  mkWorld (Some en) (fun _ => true) 100000 "15000" (fun e _ _ _ => inl (500, 100001)).

Lemma kill_escalation_witness :
  let evs := [Round (fixed_world []); Message 7 99999; Round (fixed_world [sample_entry]);
              Round (fixed_world []); Round (fixed_world [])] in
  let s := sample_state PluginKillState_sigTermSent 99000 in
  signals 42 (snd (run evs s)) = [SIGINT; SIGKILL].
Proof.
  intros evs s.
  refine (proj2 (proj2 (kill_escalation evs s 7 sample_entry (mkMonitoring 42 90000 99000 PluginKillState_sigTermSent)
    _ _ _ _)) _).
  - repeat constructor.
  - reflexivity.
  - repeat constructor. done.
  - repeat constructor; cbn; try lia; try done; try (by intros ? ? ? ? ? ? [= <- _]).
  - reflexivity.
Defined.

Lemma check_running_witness :
  OrdMap.find 7 (mRunningPlugins (fst (check (fixed_world [sample_entry]) (mkMonitor [] []))))
  = Some (sample_entry, mkMonitoring 500 100001 0 PluginKillState_alive).
Proof.
  refine (proj2 (check_running (fixed_world [sample_entry]) (mkMonitor [] []) [sample_entry] 7 _ _ _) _).
  - constructor.
  - reflexivity.
  - repeat constructor. by intros [].
  - done.
Defined.

Lemma zero_interval_kills_witness :
  Kill 42 SIGTERM ∈ snd (supervise [sample 7 0 "/var/www/plugins/P" "bin/P"] 15000 100000 sample_entry
                          (mkMonitoring 42 90000 99999 PluginKillState_alive)).
Proof.
  apply (zero_interval_kills _ _ _ _ (sample 7 0 "/var/www/plugins/P" "bin/P")
           (mkMonitoring 42 90000 99999 PluginKillState_alive)); cbn; first [reflexivity | lia].
Defined.

Lemma exe_confined_witness :
  resolve "/var/www/plugins/P/bin/P" = ["P"; "bin"; "P"; "plugins"; "www"; "var"]
  /\ exists top, top <> [] /\ resolve "/var/www/plugins/P/bin/P" = top ++ resolve "/var/www/plugins/P".
Proof.
  split; [reflexivity|].
  refine (proj2 (exe_confined sample_entry "/var/www/plugins/P/bin/P" "/var/www/plugins/P" "P" _ _)).
  - vm_compute. reflexivity.
  - reflexivity.
Defined.

Lemma exe_escapes_witness :
  exists full wd, locate (sample 7 0 "/var/www/plugins/P" "//../Q") = Some (Runnable full wd "Q")
    /\ resolve wd = resolve "/var/www/plugins/P" /\ resolve full = "Q" :: tail (resolve wd).
Proof. apply (exe_escapes (sample 7 0 "/var/www/plugins/P" "//../Q") "Q"); cbn; done. Defined.
End Monitor.
