(* ===== verification/PriorityTable.v ===== *)
(** The priority request table of the priority plugin,
    [src/src/v2i-hub/PriorityPlugin/src/PriorityTypes.hpp] and
    [PriorityRequestProcessor.cpp]: the octet strings exchanged with a
    controller, the prioritization and the application of the states the
    controller reports. *)
From Stdlib Require Import Sorting.Permutation Sorting.Sorted.
From S2P Require Import Prelude.
Open Scope Z_scope.

(** * [std::sort]

    It promises a permutation in an order the comparison allows, and nothing
    about the order of equivalent elements. *)
Class StdSort := {
  std_sort : forall {A : Type}, (A -> A -> bool) -> list A -> list A;
  std_sort_Permutation : forall A (lt : A -> A -> bool) (l : list A), Permutation (std_sort lt l) l;
  std_sort_sorted : forall A (lt : A -> A -> bool) (l : list A),
    (forall x, lt x x = false) ->
    (forall x y z, lt x y = true -> lt y z = true -> lt x z = true) ->
    (forall x y z, lt x y = false -> lt y z = false -> lt x z = false) ->
    StronglySorted (fun a b => lt b a = false) (std_sort lt l)
}.

(** Insertion sort is one. *)
Section insertion.
Context {A : Type} (lt : A -> A -> bool).
Fixpoint insert_sorted (a : A) (l : list A) : list A :=
  match l with
  | [] => [a]
  | b :: l' => if lt b a then b :: insert_sorted a l' else a :: l
  end.
Definition insertion_sort (l : list A) : list A := foldr insert_sorted [] l.

Lemma insert_sorted_Permutation a l : Permutation (insert_sorted a l) (a :: l).
Proof.
  induction l as [|b l IH]; cbn; [done|]. destruct (lt b a); [|done]. rewrite IH. constructor.
Qed.

Lemma insertion_sort_Permutation l : Permutation (insertion_sort l) l.
Proof. induction l as [|a l IH]; cbn; [done|]. by rewrite insert_sorted_Permutation, IH. Qed.

Lemma insertion_sort_sorted l :
  (forall x, lt x x = false) ->
  (forall x y z, lt x y = true -> lt y z = true -> lt x z = true) ->
  (forall x y z, lt x y = false -> lt y z = false -> lt x z = false) ->
  StronglySorted (fun a b => lt b a = false) (insertion_sort l).
Proof.
  intros Hirr Htr Hneg. induction l as [|a l IH]; cbn; [constructor|].
  assert (forall k, StronglySorted (fun a b => lt b a = false) k ->
            StronglySorted (fun a b => lt b a = false) (insert_sorted a k)) as H; [|by apply H].
  clear IH. induction 1 as [|b k Hs IH Hb]; cbn; [by repeat constructor|].
  destruct (lt b a) eqn:E.
  - constructor; [done|].
    assert (lt a b = false) as Eab.
    { destruct (lt a b) eqn:E2; [|done]. pose proof (Htr _ _ _ E E2) as H. by rewrite Hirr in H. }
    apply Forall_forall. intros x Hx. rewrite insert_sorted_Permutation in Hx.
    apply elem_of_cons in Hx as [->|Hx]; [done|]. by apply (proj1 (Forall_forall _ _) Hb).
  - constructor; [by constructor|]. constructor; [done|]. eapply Forall_impl; [exact Hb|]. cbn.
    intros x Hx. by apply (Hneg x b a).
Qed.
End insertion.

Definition insertion_StdSort : StdSort.
Proof.
  refine {| std_sort := @insertion_sort |}; intros A lt l.
  - apply insertion_sort_Permutation.
  - apply insertion_sort_sorted.
Defined.

(** * Data *)
Module Priority.
Definition SERVICE_REQUEST_SIZE : nat := 110.
Definition MAX_SERVICE_REQUESTS : nat := 10.
Definition SERVICE_REQUEST_ROW_SIZE : nat := 10.
Definition SERVICE_REQUEST_BUSY_OFFSET : nat := MAX_SERVICE_REQUESTS * SERVICE_REQUEST_ROW_SIZE.
Definition PRIORITY_REQUEST_SIZE : nat := 29.
Definition PRIORITY_CANCEL_SIZE : nat := 21.
Definition VEHICLE_ID_FIELD_SIZE : nat := 17.

Inductive RequestStatus :=
| idleNotValid | readyQueued | readyOverridden | activeProcessing | activeCancel
| activeOverride | activeNotOverridden | closedCanceled | reserviceError
| closedTimeToLiveError | closedTimerError | closedStrategyError | closedCompleted
| activeAdjustNotNeeded | closedFlash.

#[export] Instance RequestStatus_eq_dec : EqDecision RequestStatus.
Proof. solve_decision. Defined.

Definition status_code (s : RequestStatus) : Z :=
  match s with
  | idleNotValid => 1 | readyQueued => 2 | readyOverridden => 3 | activeProcessing => 4
  | activeCancel => 5 | activeOverride => 6 | activeNotOverridden => 7 | closedCanceled => 8
  | reserviceError => 9 | closedTimeToLiveError => 10 | closedTimerError => 11
  | closedStrategyError => 12 | closedCompleted => 13 | activeAdjustNotNeeded => 14
  | closedFlash => 15
  end.
Definition all_status : list RequestStatus :=
  [idleNotValid; readyQueued; readyOverridden; activeProcessing; activeCancel; activeOverride;
   activeNotOverridden; closedCanceled; reserviceError; closedTimeToLiveError; closedTimerError;
   closedStrategyError; closedCompleted; activeAdjustNotNeeded; closedFlash].
(** [static_cast<RequestStatus>], on the codes of the enumeration. *)
Definition status_of_code (z : Z) : RequestStatus :=
  default idleNotValid (List.find (fun s => status_code s =? z) all_status).

Definition IsReadyX (s : RequestStatus) : bool :=
  match s with readyQueued | readyOverridden => true | _ => false end.
Definition IsActiveX (s : RequestStatus) : bool :=
  match s with
  | activeProcessing | activeCancel | activeOverride | activeNotOverridden | activeAdjustNotNeeded => true
  | _ => false
  end.
Definition IsClosedX (s : RequestStatus) : bool :=
  match s with
  | closedCanceled | closedTimeToLiveError | closedTimerError | closedStrategyError
  | closedCompleted | closedFlash => true
  | _ => false
  end.

Record PriorityRequestEntry := mkEntry {
  requestID : Z; vehicleID : list Z; vehicleClassType : Z; vehicleClassLevel : Z;
  serviceStrategyNumber : Z;
  timeOfServiceDesiredInPRS : Z; timeOfEstimatedDepartureInPRS : Z;
  timeOfMessage : Z; timeToLive : Z;
  statusInPRS : RequestStatus; statusInCO : RequestStatus;
  intersectionID : Z; sequenceNumber : Z; role : Z;
  ssmBroadcastCount : Z; ssmLastStatus : RequestStatus;
  inboundPresent : Z; inboundValue : Z }.
Definition entry0 : PriorityRequestEntry :=
  mkEntry 0 [] 10 1 0 0 0 0 0 idleNotValid idleNotValid 0 0 0 0 idleNotValid 0 0.

#[export] Instance PriorityRequestEntry_inhabited : Inhabited PriorityRequestEntry := populate entry0.

Definition set_statusInPRS (s : RequestStatus) (e : PriorityRequestEntry) : PriorityRequestEntry :=
  mkEntry (requestID e) (vehicleID e) (vehicleClassType e) (vehicleClassLevel e) (serviceStrategyNumber e)
    (timeOfServiceDesiredInPRS e) (timeOfEstimatedDepartureInPRS e) (timeOfMessage e) (timeToLive e)
    s (statusInCO e) (intersectionID e) (sequenceNumber e) (role e) (ssmBroadcastCount e)
    (ssmLastStatus e) (inboundPresent e) (inboundValue e).
Definition set_statusInCO (s : RequestStatus) (e : PriorityRequestEntry) : PriorityRequestEntry :=
  mkEntry (requestID e) (vehicleID e) (vehicleClassType e) (vehicleClassLevel e) (serviceStrategyNumber e)
    (timeOfServiceDesiredInPRS e) (timeOfEstimatedDepartureInPRS e) (timeOfMessage e) (timeToLive e)
    (statusInPRS e) s (intersectionID e) (sequenceNumber e) (role e) (ssmBroadcastCount e)
    (ssmLastStatus e) (inboundPresent e) (inboundValue e).

Record CoServiceResponseRow := mkRow {
  strategyRequested : Z; requestedTimeOfServiceDesired : Z;
  requestedTimeOfEstimatedDeparture : Z; requestStatusInCO : RequestStatus }.

(** The processor: the table of ten rows, the completion times of the ten
    vehicle classes and the strategies by intersection and lane. *)
Record Processor := mkProcessor {
  table : list PriorityRequestEntry;
  reserviceLastCompletedTime : list Z;
  laneStrategyMap : gmap (Z * Z) Z }.
Definition Processor_new : Processor :=
  mkProcessor (replicate MAX_SERVICE_REQUESTS entry0) (replicate 10 0) ∅.

Definition class_index (classType : Z) : nat :=
  if (1 <=? classType) && (classType <=? 10) then Z.to_nat (classType - 1) else 9%nat.
Definition ReserviceLastCompleted (p : Processor) (classType : Z) : Z :=
  reserviceLastCompletedTime p !!! class_index classType.
Definition LookupStrategy (p : Processor) (intersection lane : Z) : option Z :=
  if 0 <=? lane then laneStrategyMap p !! (intersection, lane) else None.
Definition ClearLaneStrategyMap (p : Processor) : Processor :=
  mkProcessor (table p) (reserviceLastCompletedTime p) ∅.
Definition SetLaneStrategy (intersection lane strategy : Z) (p : Processor) : Processor :=
  mkProcessor (table p) (reserviceLastCompletedTime p)
    (<[(intersection, lane) := strategy]> (laneStrategyMap p)).
Definition set_table (t : list PriorityRequestEntry) (p : Processor) : Processor :=
  mkProcessor t (reserviceLastCompletedTime p) (laneStrategyMap p).

(** * Octet strings *)
Definition byte_at (v shift : Z) : Z := u8 (Z.land (Z.shiftr v shift) 255).
Definition be16 (v : Z) : list Z := [byte_at v 8; byte_at v 0].
Definition be32 (v : Z) : list Z := [byte_at v 24; byte_at v 16; byte_at v 8; byte_at v 0].

(** The identifier right-aligned in its field; a longer one is cut. *)
Definition vehicle_field (vehicle : list Z) : list Z :=
  let copyLen := Nat.min (length vehicle) VEHICLE_ID_FIELD_SIZE in
  replicate (VEHICLE_ID_FIELD_SIZE - copyLen) 0 ++ take copyLen vehicle.

Definition EncodePriorityCancel (rid : Z) (vehicle : list Z) (classType classLevel strategyNum : Z) : list Z :=
  [rid] ++ vehicle_field vehicle ++ [classType; classLevel; strategyNum].
Definition EncodePriorityClear := EncodePriorityCancel.
Definition EncodePriorityRequest (rid : Z) (vehicle : list Z) (classType classLevel strategyNum
    timeOfService timeOfDepart timeOfRequest : Z) : list Z :=
  [rid] ++ vehicle_field vehicle ++ [classType; classLevel; strategyNum]
  ++ be16 timeOfService ++ be16 timeOfDepart ++ be32 timeOfRequest.
Definition EncodePriorityUpdate := EncodePriorityRequest.

Definition encode_row (e : PriorityRequestEntry) : list Z :=
  [serviceStrategyNumber e] ++ be32 (timeOfServiceDesiredInPRS e)
  ++ be32 (timeOfEstimatedDepartureInPRS e) ++ [status_code (statusInPRS e)].
Definition EncodeServiceRequest (t : list PriorityRequestEntry) (prsBusy : bool) : list Z :=
  concat (map encode_row t) ++ [if prsBusy then 1 else 0] ++ replicate 9 0.

Definition read32 (data : list Z) (o : nat) : Z :=
  Z.lor (Z.lor (Z.lor (u32 (Z.shiftl (data !!! o) 24)) (u32 (Z.shiftl (data !!! (o + 1)%nat) 16)))
               (u32 (Z.shiftl (data !!! (o + 2)%nat) 8)))
        (data !!! (o + 3)%nat).
Definition decode_status (statusByte : Z) : RequestStatus :=
  if (1 <=? statusByte) && (statusByte <=? 15) then status_of_code statusByte else idleNotValid.
Definition decode_row (data : list Z) (i : nat) : CoServiceResponseRow :=
  let offset := (i * SERVICE_REQUEST_ROW_SIZE)%nat in
  mkRow (data !!! offset) (read32 data (offset + 1)) (read32 data (offset + 5))
        (decode_status (data !!! (offset + 9)%nat)).
(** The rows and the busy flag, or nothing when the text is too short. *)
Definition DecodeCoServiceResponse (data : list Z) : option (list CoServiceResponseRow * bool) :=
  if Nat.ltb (length data) SERVICE_REQUEST_SIZE then None
  else Some (map (decode_row data) (seq 0 MAX_SERVICE_REQUESTS),
             negb (data !!! SERVICE_REQUEST_BUSY_OFFSET =? 0)).

(** * Prioritization *)
Definition higher_priority (a b : PriorityRequestEntry) : bool :=
  (vehicleClassType a <? vehicleClassType b)
  || ((vehicleClassType a =? vehicleClassType b) && (vehicleClassLevel a <? vehicleClassLevel b)).

(** The first entry active at the controller, by its index. *)
Fixpoint find_active (i : nat) (t : list PriorityRequestEntry) : option nat :=
  match t with
  | [] => None
  | e :: t' => if IsActiveX (statusInCO e) then Some i else find_active (S i) t'
  end.
(** The second loop of [CheckForOverride], which stops at the first queued
    entry other than the active one. *)
Fixpoint first_queued (skip i : nat) (t : list PriorityRequestEntry) : option PriorityRequestEntry :=
  match t with
  | [] => None
  | e :: t' =>
      if Nat.eqb i skip then first_queued skip (S i) t'
      else if bool_decide (statusInPRS e = readyQueued) then Some e
      else first_queued skip (S i) t'
  end.
Definition CheckForOverride (t : list PriorityRequestEntry) : list PriorityRequestEntry :=
  match find_active 0 t with
  | None => t
  | Some i =>
      let activeEntry := nth i t entry0 in
      let higherPriorityQueued :=
        match first_queued i 0 t with
        | Some e => higher_priority e activeEntry
        | None => false
        end in
      if higherPriorityQueued then <[i := set_statusInPRS activeOverride activeEntry]> t
      else if bool_decide (statusInPRS activeEntry = activeOverride)
      then <[i := set_statusInPRS readyQueued activeEntry]> t
      else t
  end.

(** Steps (a) and (b) for one entry. *)
Definition expire (now : Z) (e : PriorityRequestEntry) : PriorityRequestEntry :=
  if bool_decide (statusInPRS e = idleNotValid) then e
  else if (IsReadyX (statusInPRS e) || IsClosedX (statusInPRS e))
          && (0 <? timeToLive e) && (timeToLive e <=? now) then entry0
  else if negb (IsClosedX (statusInPRS e)) && (0 <? timeToLive e)
          && (timeToLive e <? timeOfServiceDesiredInPRS e)
  then set_statusInPRS closedTimeToLiveError e
  else e.

Record SortEntry := mkSort { idx : nat; classType : Z; classLevel : Z; tsd : Z }.
Definition sort_lt (a b : SortEntry) : bool :=
  if negb (classType a =? classType b) then classType a <? classType b
  else if negb (classLevel a =? classLevel b) then classLevel a <? classLevel b
  else tsd a <? tsd b.

Section run.
Context `{StdSort}.

(** The loops that collect the indices. *)
Fixpoint queued_from (i : nat) (t : list PriorityRequestEntry) : list SortEntry :=
  match t with
  | [] => []
  | e :: t' =>
      if bool_decide (statusInPRS e = readyQueued)
      then mkSort i (vehicleClassType e) (vehicleClassLevel e) (timeOfServiceDesiredInPRS e)
           :: queued_from (S i) t'
      else queued_from (S i) t'
  end.
Definition is_other (s : RequestStatus) : bool :=
  match s with readyQueued | readyOverridden | idleNotValid => false | _ => true end.
Fixpoint indices (p : RequestStatus -> bool) (i : nat) (t : list PriorityRequestEntry) : list nat :=
  match t with
  | [] => []
  | e :: t' => if p (statusInPRS e) then i :: indices p (S i) t' else indices p (S i) t'
  end.

(** The loops that fill the new table; [reordered] is its first [pos] rows. *)
Definition place (t reordered : list PriorityRequestEntry) (i : nat) : list PriorityRequestEntry :=
  if Nat.ltb (length reordered) MAX_SERVICE_REQUESTS then reordered ++ [nth i t entry0] else reordered.
Definition reorder (t : list PriorityRequestEntry) : list PriorityRequestEntry :=
  let queued := std_sort sort_lt (queued_from 0 t) in
  let order := map idx queued
               ++ indices (fun s => bool_decide (s = readyOverridden)) 0 t
               ++ indices is_other 0 t
               ++ indices (fun s => bool_decide (s = idleNotValid)) 0 t in
  let reordered := fold_left (place t) order [] in
  reordered ++ replicate (MAX_SERVICE_REQUESTS - length reordered) entry0.

Definition run_table (now : Z) (t : list PriorityRequestEntry) : list PriorityRequestEntry :=
  let t := map (expire now) t in
  if existsb (fun e => IsActiveX (statusInCO e)) t then CheckForOverride t else reorder t.
Definition RunPrioritizationProcessing (now : Z) (p : Processor) : Processor :=
  set_table (run_table now (table p)) p.
End run.

(** * The controller's states *)

(** The switch on the state the controller reports; the flag says whether the
    request was completed. *)
Definition co_transition (coStatus prs : RequestStatus) : RequestStatus * bool :=
  match coStatus with
  | closedTimerError => (if IsReadyX prs then closedTimerError else prs, false)
  | closedStrategyError => (if IsReadyX prs then closedStrategyError else prs, false)
  | closedFlash => (if IsReadyX prs then closedFlash else prs, false)
  | closedCanceled => (if IsReadyX prs then closedCanceled else prs, false)
  | closedCompleted =>
      if IsReadyX prs || bool_decide (prs = activeOverride) then (closedCompleted, true) else (prs, false)
  | readyOverridden => (if bool_decide (prs = activeOverride) then readyOverridden else prs, false)
  | readyQueued => (if bool_decide (prs = activeOverride) then readyQueued else prs, false)
  | _ => (prs, false)
  end.

Fixpoint apply_rows (coRows : list CoServiceResponseRow) (now : Z)
    (t : list PriorityRequestEntry) (completed : list Z) : list PriorityRequestEntry * list Z :=
  match t, coRows with
  | e :: t', row :: rows' =>
      if bool_decide (statusInPRS e = idleNotValid) then
        let '(t2, c2) := apply_rows rows' now t' completed in (e :: t2, c2)
      else
        let coStatus := requestStatusInCO row in
        let '(prs, done_) := co_transition coStatus (statusInPRS e) in
        let completed := if done_ then <[class_index (vehicleClassType e) := now]> completed else completed in
        let '(t2, c2) := apply_rows rows' now t' completed in
        (set_statusInPRS prs (set_statusInCO coStatus e) :: t2, c2)
  | _, _ => (t, completed)
  end.
Definition ApplyCoStatusUpdates (coRows : list CoServiceResponseRow) (now : Z) (p : Processor) : Processor :=
  let '(t, c) := apply_rows coRows now (table p) (reserviceLastCompletedTime p) in
  mkProcessor t c (laneStrategyMap p).

(** * Octets *)
Lemma byte_at_range v s : 0 <= byte_at v s < 256.
Proof. apply (wrapu_range 8). lia. Qed.

Lemma testbit_byte v s n : 0 <= s -> 0 <= n ->
  Z.testbit (byte_at v s) n = (n <? 8) && Z.testbit v (n + s).
Proof.
  intros Hs Hn. unfold byte_at, wrapu. change 255 with (Z.ones 8). rewrite Z.land_ones by lia.
  rewrite Z.mod_mod by lia.
  destruct (Z.ltb_spec n 8); cbn.
  - rewrite Z.mod_pow2_bits_low by lia. by rewrite Z.shiftr_spec.
  - by rewrite Z.mod_pow2_bits_high by lia.
Qed.

Lemma testbit_shifted v s n : 0 <= s -> s + 8 <= 32 -> 0 <= n ->
  Z.testbit (u32 (Z.shiftl (byte_at v s) s)) n = (s <=? n) && (n <? s + 8) && Z.testbit v n.
Proof.
  intros Hs Hs8 Hn. unfold wrapu.
  destruct (Z.ltb_spec n 32).
  - rewrite Z.mod_pow2_bits_low, Z.shiftl_spec by lia. destruct (Z.leb_spec s n).
    + rewrite testbit_byte by lia. replace (n - s + s) with n by lia.
      cbn. f_equal. destruct (Z.ltb_spec (n - s) 8), (Z.ltb_spec n (s + 8)); lia.
    + by rewrite Z.testbit_neg_r by lia.
  - rewrite Z.mod_pow2_bits_high by lia. destruct (Z.ltb_spec n (s + 8)); [lia|].
    by rewrite andb_false_r.
Qed.

Lemma testbit_above v w n : 0 <= v < 2 ^ w -> w <= n -> Z.testbit v n = false.
Proof.
  intros Hv Hn. destruct (Z.eq_dec v 0) as [->|]; [apply Z.bits_0|].
  apply Z.bits_above_log2; [lia|]. apply Z.log2_lt_pow2; [lia|].
  eapply Z.lt_le_trans; [apply Hv|]. apply Z.pow_le_mono_r; lia.
Qed.

Lemma be32_read v : 0 <= v < 2 ^ 32 ->
  Z.lor (Z.lor (Z.lor (u32 (Z.shiftl (byte_at v 24) 24)) (u32 (Z.shiftl (byte_at v 16) 16)))
               (u32 (Z.shiftl (byte_at v 8) 8))) (byte_at v 0) = v.
Proof.
  intros Hv. apply Z.bits_inj'. intros n Hn.
  rewrite !Z.lor_spec, !testbit_shifted, testbit_byte, Z.add_0_r by lia.
  destruct (Z.ltb_spec n 32); [|rewrite (testbit_above v 32 n) by lia; by rewrite !andb_false_r].
  destruct (Z.testbit v n); [|by rewrite !andb_false_r]. rewrite !andb_true_r.
  destruct (Z.leb_spec 24 n), (Z.ltb_spec n (24 + 8)), (Z.leb_spec 16 n), (Z.ltb_spec n (16 + 8)),
    (Z.leb_spec 8 n), (Z.ltb_spec n (8 + 8)), (Z.ltb_spec n 8); cbn; try done; lia.
Qed.

Lemma length_encode_row e : length (encode_row e) = 10%nat.
Proof. done. Qed.

Lemma lookup_rows (ls : list (list Z)) rest n i k :
  Forall (fun l => length l = n) ls -> (i < length ls)%nat -> (k < n)%nat ->
  (concat ls ++ rest) !!! (i * n + k)%nat = (ls !!! i) !!! k.
Proof.
  intros H. revert i. induction H as [|l ls Hl _ IH]; intros i Hi Hk; cbn [length concat] in *; [lia|].
  rewrite <- app_assoc. destruct i as [|i].
  - cbn [Nat.mul Nat.add]. rewrite lookup_total_app_l by lia. done.
  - replace (S i * n + k)%nat with (length l + (i * n + k))%nat by (cbn; lia).
    rewrite lookup_total_app_r by lia.
    replace (length l + (i * n + k) - length l)%nat with (i * n + k)%nat by lia.
    rewrite IH by lia. done.
Qed.

Lemma status_code_inj s : status_of_code (status_code s) = s.
Proof. by destruct s. Qed.
Lemma decode_status_code s : decode_status (status_code s) = s.
Proof. by destruct s. Qed.

(** What the controller reads of a row. *)
Definition row_of (e : PriorityRequestEntry) : CoServiceResponseRow :=
  mkRow (serviceStrategyNumber e) (timeOfServiceDesiredInPRS e) (timeOfEstimatedDepartureInPRS e)
    (statusInPRS e).
(** The times are 32-bit. *)
Definition times_ok (e : PriorityRequestEntry) : Prop :=
  0 <= timeOfServiceDesiredInPRS e < 2 ^ 32 /\ 0 <= timeOfEstimatedDepartureInPRS e < 2 ^ 32.

Lemma decode_encode_row t rest i :
  Forall times_ok t -> (i < length t)%nat ->
  decode_row (concat (map encode_row t) ++ rest) i = row_of (t !!! i).
Proof.
  intros Ht Hi. unfold decode_row, SERVICE_REQUEST_ROW_SIZE.
  assert (Forall (fun l => length l = 10%nat) (map encode_row t)) as Hl.
  { apply Forall_map, Forall_true. done. }
  assert (forall k, (k < 10)%nat ->
    (concat (map encode_row t) ++ rest) !!! (i * 10 + k)%nat = encode_row (t !!! i) !!! k) as Hk.
  { intros k Hk. rewrite (lookup_rows _ rest 10 i k Hl) by (rewrite ?length_map; lia). f_equal.
    destruct (lookup_lt_is_Some_2 t i Hi) as [e He].
    rewrite (list_lookup_total_correct (map encode_row t) i (encode_row e)) by (by rewrite list_lookup_fmap, He).
    by rewrite (list_lookup_total_correct t i e). }
  destruct (lookup_lt_is_Some_2 t i Hi) as [e He]. rewrite (list_lookup_total_correct t i e He) in *.
  destruct (proj1 (Forall_lookup _ _) Ht i e He) as [H1 H2].
  unfold read32. rewrite <- !Nat.add_assoc. cbn [Nat.add].
  rewrite !Hk by lia. pose proof (Hk 0%nat) as Hk0. rewrite Nat.add_0_r in Hk0. rewrite Hk0 by lia.
  unfold row_of. f_equal.
  - apply (be32_read _ H1).
  - apply (be32_read _ H2).
  - apply decode_status_code.
Qed.

(** What the controller decodes from the service request is, row by row,
    the strategy, the times and the state of the table, and the busy flag. *)
Theorem service_request_roundtrip t busy :
  length t = MAX_SERVICE_REQUESTS -> Forall times_ok t ->
  length (EncodeServiceRequest t busy) = SERVICE_REQUEST_SIZE
  /\ DecodeCoServiceResponse (EncodeServiceRequest t busy) = Some (map row_of t, busy).
Proof.
  intros Hl Ht.
  assert (length (concat (map encode_row t)) = 100%nat) as Hc.
  { rewrite length_concat, map_map. clear Ht. unfold MAX_SERVICE_REQUESTS in Hl.
    do 10 (destruct t as [|? t]; [done|]). by destruct t. }
  assert (length (EncodeServiceRequest t busy) = SERVICE_REQUEST_SIZE) as Hs.
  { unfold EncodeServiceRequest. rewrite !length_app, Hc. done. }
  split; [done|]. unfold DecodeCoServiceResponse. rewrite Hs, Nat.ltb_irrefl. do 2 f_equal.
  - unfold EncodeServiceRequest. rewrite <- Hl. apply list_eq. intros i.
    rewrite !list_lookup_fmap. destruct (decide (i < length t)%nat) as [Hi|Hi].
    + rewrite lookup_seq_lt by done. destruct (lookup_lt_is_Some_2 t i Hi) as [e He]. rewrite He. cbn [fmap option_fmap option_map].
      rewrite decode_encode_row by done. by rewrite (list_lookup_total_correct t i e He).
    + rewrite lookup_seq_ge, lookup_ge_None_2 by lia. done.
  - unfold EncodeServiceRequest, SERVICE_REQUEST_BUSY_OFFSET. rewrite lookup_total_app_r by (rewrite Hc; done).
    rewrite Hc. by destruct busy.
Qed.

(** * The order of the table *)
Section order.
Context `{StdSort}.

Definition key (i : nat) (e : PriorityRequestEntry) : SortEntry :=
  mkSort i (vehicleClassType e) (vehicleClassLevel e) (timeOfServiceDesiredInPRS e).
(** The part of the table an entry belongs in. *)
Definition rank (e : PriorityRequestEntry) : nat :=
  match statusInPRS e with
  | readyQueued => 0 | readyOverridden => 1 | idleNotValid => 3 | _ => 2
  end.
(** Class first, then level, then the desired time. *)
Definition before (a b : PriorityRequestEntry) : Prop :=
  vehicleClassType a < vehicleClassType b
  \/ vehicleClassType a = vehicleClassType b
     /\ (vehicleClassLevel a < vehicleClassLevel b
         \/ vehicleClassLevel a = vehicleClassLevel b
            /\ timeOfServiceDesiredInPRS a < timeOfServiceDesiredInPRS b).
(** [a] may stand before [b]. *)
Definition may_precede (a b : PriorityRequestEntry) : Prop :=
  (rank a < rank b)%nat \/ rank a = rank b /\ (rank a = 0%nat -> ~ before b a).

Lemma sort_lt_irrefl x : sort_lt x x = false.
Proof. unfold sort_lt. rewrite !Z.eqb_refl. cbn. apply Z.ltb_irrefl. Qed.

Ltac sort_cases :=
  unfold sort_lt;
  repeat match goal with
    | |- context [?a =? ?b] => destruct (Z.eqb_spec a b); cbn
    end; rewrite ?Z.ltb_lt, ?Z.ltb_ge; lia.

Lemma sort_lt_trans x y z : sort_lt x y = true -> sort_lt y z = true -> sort_lt x z = true.
Proof. sort_cases. Qed.
Lemma sort_lt_neg_trans x y z : sort_lt x y = false -> sort_lt y z = false -> sort_lt x z = false.
Proof. sort_cases. Qed.

Lemma sort_lt_before i j a b : sort_lt (key i b) (key j a) = false -> ~ before b a.
Proof. unfold before, sort_lt. cbn. sort_cases. Qed.

Lemma map_idx_queued t : forall i,
  map idx (queued_from i t) = indices (fun s => bool_decide (s = readyQueued)) i t.
Proof.
  induction t as [|e t IH]; intros i; cbn [queued_from indices]; [done|].
  destruct (bool_decide _); cbn; by rewrite IH.
Qed.

(** Every row is in one of the four lists. *)
Lemma indices_partition t : forall i,
  Permutation
    (indices (fun s => bool_decide (s = readyQueued)) i t
     ++ indices (fun s => bool_decide (s = readyOverridden)) i t
     ++ indices is_other i t
     ++ indices (fun s => bool_decide (s = idleNotValid)) i t)
    (seq i (length t)).
Proof.
  induction t as [|e t IH]; intros i; [done|]. cbn [indices length seq]. specialize (IH (S i)).
  destruct (statusInPRS e); cbn [is_other bool_decide]; repeat case_bool_decide; try done;
    rewrite <- IH; cbn [app]; rewrite <- ?Permutation_middle; try done;
    rewrite ?app_assoc; rewrite <- ?Permutation_middle; done.
Qed.

Lemma length_order t :
  length (map idx (std_sort sort_lt (queued_from 0 t))
          ++ indices (fun s => bool_decide (s = readyOverridden)) 0 t
          ++ indices is_other 0 t
          ++ indices (fun s => bool_decide (s = idleNotValid)) 0 t) = length t.
Proof.
  rewrite (std_sort_Permutation _ sort_lt (queued_from 0 t)), map_idx_queued.
  by rewrite (indices_partition t 0), length_seq.
Qed.

Lemma fold_place t order : forall acc,
  (length acc + length order <= MAX_SERVICE_REQUESTS)%nat ->
  fold_left (place t) order acc = acc ++ map (fun i => nth i t entry0) order.
Proof.
  induction order as [|i order IH]; intros acc Hl; cbn [fold_left map]; [by rewrite app_nil_r|].
  cbn [length] in Hl. unfold place at 2.
  rewrite (proj2 (Nat.ltb_lt (length acc) MAX_SERVICE_REQUESTS)) by lia.
  rewrite IH; [by rewrite <- app_assoc|]. rewrite length_app. cbn [length]. lia.
Qed.

Lemma reorder_eq t :
  length t = MAX_SERVICE_REQUESTS ->
  reorder t = map (fun i => nth i t entry0)
    (map idx (std_sort sort_lt (queued_from 0 t))
     ++ indices (fun s => bool_decide (s = readyOverridden)) 0 t
     ++ indices is_other 0 t
     ++ indices (fun s => bool_decide (s = idleNotValid)) 0 t).
Proof.
  intros Hl. unfold reorder. rewrite fold_place; [|rewrite length_order; cbn; lia]. cbn [app].
  rewrite length_map, length_order, Hl, Nat.sub_diag. cbn [replicate]. by rewrite app_nil_r.
Qed.

Lemma map_nth_seq (t : list PriorityRequestEntry) :
  map (fun i => nth i t entry0) (seq 0 (length t)) = t.
Proof.
  apply list_eq. intros i. rewrite list_lookup_fmap.
  destruct (decide (i < length t)%nat) as [Hi|Hi].
  - rewrite lookup_seq_lt by done. cbn. destruct (lookup_lt_is_Some_2 t i Hi) as [e He].
    rewrite He. by rewrite (nth_lookup_Some _ _ _ _ He).
  - rewrite lookup_seq_ge by lia. by rewrite lookup_ge_None_2 by lia.
Qed.

Lemma reorder_Permutation t : length t = MAX_SERVICE_REQUESTS -> Permutation (reorder t) t.
Proof.
  intros Hl. rewrite (reorder_eq t Hl), (std_sort_Permutation _ sort_lt (queued_from 0 t)), map_idx_queued.
  rewrite (indices_partition t 0). by rewrite map_nth_seq.
Qed.

Lemma indices_spec p t : forall i j, j ∈ indices p i t ->
  exists e, (i <= j)%nat /\ t !! (j - i)%nat = Some e /\ p (statusInPRS e) = true.
Proof.
  induction t as [|e t IH]; intros i j; cbn [indices]; [by intros ?%not_elem_of_nil|].
  assert (j ∈ indices p (S i) t -> exists e0, (i <= j)%nat
    /\ (e :: t) !! (j - i)%nat = Some e0 /\ p (statusInPRS e0) = true) as Hrec.
  { intros (e0 & Hle & Hl & Hp)%IH. exists e0. split; [lia|]. split; [|done].
    by replace (j - i)%nat with (S (j - S i)) by lia. }
  destruct (p (statusInPRS e)) eqn:E; [|done]. intros [->|?]%elem_of_cons; [|by apply Hrec].
  exists e. by rewrite Nat.sub_diag.
Qed.

Lemma queued_spec t : forall i q, q ∈ queued_from i t ->
  exists e, (i <= idx q)%nat /\ t !! (idx q - i)%nat = Some e /\ statusInPRS e = readyQueued
    /\ q = key (idx q) e.
Proof.
  induction t as [|e t IH]; intros i q; cbn [queued_from]; [by intros ?%not_elem_of_nil|].
  assert (q ∈ queued_from (S i) t -> exists e0, (i <= idx q)%nat
    /\ (e :: t) !! (idx q - i)%nat = Some e0 /\ statusInPRS e0 = readyQueued /\ q = key (idx q) e0) as Hrec.
  { intros (e0 & Hle & Hl & Hp)%IH. exists e0. split; [lia|]. split; [|done].
    by replace (idx q - i)%nat with (S (idx q - S i)) by lia. }
  case_bool_decide as E; [|done]. intros [->|?]%elem_of_cons; [|by apply Hrec].
  exists e. cbn. by rewrite Nat.sub_diag.
Qed.

Lemma StronglySorted_app_intro {A} (R : A -> A -> Prop) l1 l2 :
  StronglySorted R l1 -> StronglySorted R l2 ->
  (forall x y, x ∈ l1 -> y ∈ l2 -> R x y) -> StronglySorted R (l1 ++ l2).
Proof.
  induction 1 as [|a l1 Hs IH Ha]; intros H2 Hx; cbn; [done|]. constructor.
  - apply IH; [done|]. intros x y Hx1 Hy. apply Hx; [by right|done].
  - apply Forall_app. split; [done|]. apply Forall_forall. intros y Hy. apply Hx; [by left|done].
Qed.

Lemma rank_sorted (r : nat) (l : list PriorityRequestEntry) :
  r <> 0%nat -> Forall (fun e => rank e = r) l -> StronglySorted may_precede l.
Proof.
  intros Hr. induction 1 as [|e l He Hl IH]; constructor; [done|].
  eapply Forall_impl; [exact Hl|]. intros x Hx. right. cbn in *. split; [congruence|]. lia.
Qed.

Lemma nth_of t i e : t !! i = Some e -> nth i t entry0 = e.
Proof. apply nth_lookup_Some. Qed.

Lemma indices_rank p r t :
  (forall e, p (statusInPRS e) = true -> rank e = r) ->
  Forall (fun e => rank e = r) (map (fun i => nth i t entry0) (indices p 0 t)).
Proof.
  intros Hp. apply Forall_map, Forall_forall. intros j (e & _ & Hl & He)%indices_spec. cbn.
  rewrite Nat.sub_0_r in Hl. rewrite (nth_of _ _ _ Hl). by apply Hp.
Qed.

Lemma queued_sorted t :
  let l := map (fun i => nth i t entry0) (map idx (std_sort sort_lt (queued_from 0 t))) in
  Forall (fun e => rank e = 0%nat) l /\ StronglySorted may_precede l.
Proof.
  assert (forall q, q ∈ std_sort sort_lt (queued_from 0 t) ->
    exists e, nth (idx q) t entry0 = e /\ statusInPRS e = readyQueued /\ q = key (idx q) e) as Hq.
  { intros q. rewrite (std_sort_Permutation _ sort_lt (queued_from 0 t)).
    intros (e & _ & Hl & Hs & Hk)%queued_spec. rewrite Nat.sub_0_r in Hl. exists e.
    by rewrite (nth_of _ _ _ Hl). }
  pose proof (std_sort_sorted _ sort_lt (queued_from 0 t) sort_lt_irrefl sort_lt_trans sort_lt_neg_trans) as Hs.
  cbn. induction Hs as [|q l Hs IH Hall]; cbn [map]; [by split; constructor|].
  destruct IH as [H1 H2]. { intros q' Hq'. apply Hq. by right. }
  destruct (Hq q) as (e & Hn & He & Hk); [by left|].
  assert (rank (nth (idx q) t entry0) = 0%nat) as Hr by (unfold rank; by rewrite Hn, He).
  split; [by constructor|]. constructor; [done|]. apply Forall_map, Forall_forall. intros j Hj.
  apply list_elem_of_fmap in Hj as (q' & -> & Hq').
  destruct (Hq q') as (e' & Hn' & He' & Hk'); [by right|]. right.
  assert (rank (nth (idx q') t entry0) = 0%nat) as Hr' by (unfold rank; by rewrite Hn', He').
  cbn. split; [congruence|]. intros _. apply (proj1 (Forall_forall _ _) Hall) in Hq'.
  rewrite Hn, Hn'. rewrite Hk, Hk' in Hq'. by eapply sort_lt_before.
Qed.

Lemma reorder_sorted t : length t = MAX_SERVICE_REQUESTS -> StronglySorted may_precede (reorder t).
Proof.
  intros Hl. rewrite (reorder_eq t Hl), !map_app.
  destruct (queued_sorted t) as [Hq0 Hq].
  pose proof (indices_rank (fun s => bool_decide (s = readyOverridden)) 1 t) as H1.
  pose proof (indices_rank is_other 2 t) as H2.
  pose proof (indices_rank (fun s => bool_decide (s = idleNotValid)) 3 t) as H3.
  unfold rank in H1 at 1, H2 at 1, H3 at 1.
  specialize (H1 ltac:(intros e He%bool_decide_eq_true_1; by rewrite He)).
  specialize (H2 ltac:(intros e He; by destruct (statusInPRS e))).
  specialize (H3 ltac:(intros e He%bool_decide_eq_true_1; by rewrite He)).
  rewrite !Forall_forall in *.
  repeat apply StronglySorted_app_intro; try done;
    try (eapply rank_sorted; [|apply Forall_forall; eassumption]; lia);
    intros x y Hx; rewrite ?elem_of_app; intros Hy; left; destruct_or?;
    rewrite ?(Hq0 x), ?(H1 x), ?(H2 x), ?(H3 x), ?(H1 y), ?(H2 y), ?(H3 y) by done; lia.
Qed.
End order.

(** * Overriding *)
Lemma find_active_spec t : forall i j, find_active i t = Some j ->
  exists e, (i <= j)%nat /\ t !! (j - i)%nat = Some e /\ IsActiveX (statusInCO e) = true.
Proof.
  induction t as [|e t IH]; intros i j; cbn [find_active]; [done|].
  destruct (IsActiveX (statusInCO e)) eqn:E.
  - intros [= <-]. exists e. by rewrite Nat.sub_diag.
  - intros (e0 & Hle & Hl & Hp)%IH. exists e0. split; [lia|].
    by replace (j - i)%nat with (S (j - S i)) by lia.
Qed.

(** What the check changes: at most the state of the first active entry. *)
Lemma CheckForOverride_spec t :
  CheckForOverride t = t
  \/ exists i e s, t !! i = Some e /\ IsActiveX (statusInCO e) = true /\ (s = activeOverride \/ s = readyQueued)
     /\ CheckForOverride t = <[i := set_statusInPRS s e]> t.
Proof.
  unfold CheckForOverride. destruct (find_active 0 t) as [i|] eqn:Ef; [|by left].
  apply find_active_spec in Ef as (e & _ & Hl & Ha). rewrite Nat.sub_0_r in Hl.
  rewrite (nth_of _ _ _ Hl).
  destruct (match first_queued i 0 t with Some e0 => higher_priority e0 e | None => false end).
  - right. eauto 10.
  - case_bool_decide; [|by left]. right. eauto 10.
Qed.

Lemma CheckForOverride_keeps t e :
  e ∈ t -> IsActiveX (statusInCO e) = false -> e ∈ CheckForOverride t.
Proof.
  intros (j & Hj)%list_elem_of_lookup Ha.
  destruct (CheckForOverride_spec t) as [->|(i & e' & s & Hi & Ha' & _ & ->)].
  - by eapply list_elem_of_lookup_2.
  - apply (list_elem_of_lookup_2 _ j). rewrite list_lookup_insert_ne; [done|]. intros ->. congruence.
Qed.

Section exchange.
Context `{StdSort}.

(** C19: when nothing is active at the controller, a prioritization removes the
    expired requests, loses and invents no other, and leaves the table in
    order: the queued requests by class, level and desired time, then the
    overridden ones, then those in another state, then the free rows. *)
Theorem prioritization_orders now t :
  length t = MAX_SERVICE_REQUESTS ->
  existsb (fun e => IsActiveX (statusInCO e)) (map (expire now) t) = false ->
  Permutation (run_table now t) (map (expire now) t) /\ StronglySorted may_precede (run_table now t).
Proof.
  intros Hl Ha. unfold run_table. rewrite Ha.
  split; [apply reorder_Permutation|apply reorder_sorted]; by rewrite length_map.
Qed.

(** Whether the active request is overridden depends on one queued request
    only, the first one of the table other than the active one: when that one
    has no higher priority, a request of higher priority further down does not
    cause an override. *)
Theorem override_misses_higher t i q h :
  find_active 0 t = Some i -> first_queued i 0 t = Some q ->
  higher_priority q (nth i t entry0) = false -> statusInPRS (nth i t entry0) <> activeOverride ->
  h ∈ t -> statusInPRS h = readyQueued -> higher_priority h (nth i t entry0) = true ->
  CheckForOverride t = t
  /\ existsb (fun e => bool_decide (statusInPRS e = readyQueued) && higher_priority e (nth i t entry0)) t = true.
Proof.
  intros Hf Hq Hno Hs Hh Hst Hhi. split.
  - unfold CheckForOverride. rewrite Hf, Hq, Hno. by rewrite bool_decide_eq_false_2.
  - apply existsb_exists. exists h. split; [by apply list_elem_of_In|].
    by rewrite Hhi, bool_decide_eq_true_2.
Qed.

(** One exchange: the controller's rows are applied and the table is
    prioritized. *)
Definition exchange (p : Processor) (round : list CoServiceResponseRow * Z) : Processor :=
  RunPrioritizationProcessing (snd round) (ApplyCoStatusUpdates (fst round) (snd round) p).

Lemma apply_rows_table now t : forall rows c,
  Forall2 (fun e e' => e' = e \/ exists row, row ∈ rows /\ statusInPRS e <> idleNotValid
    /\ e' = set_statusInPRS (fst (co_transition (requestStatusInCO row) (statusInPRS e)))
              (set_statusInCO (requestStatusInCO row) e))
    t (fst (apply_rows rows now t c)).
Proof.
  assert (forall (t : list PriorityRequestEntry) (P : PriorityRequestEntry -> PriorityRequestEntry -> Prop),
            (forall e, P e e) -> Forall2 P t t) as Hrefl.
  { intros t0 P HP. induction t0; by constructor. }
  induction t as [|e t IH]; intros rows c; [by destruct rows; constructor|].
  destruct rows as [|row rows]; [apply Hrefl; by left|].
  assert (forall c', Forall2 (fun e e' => e' = e \/ exists r, r ∈ row :: rows /\ statusInPRS e <> idleNotValid
    /\ e' = set_statusInPRS (fst (co_transition (requestStatusInCO r) (statusInPRS e)))
              (set_statusInCO (requestStatusInCO r) e)) t (fst (apply_rows rows now t c'))) as IH'.
  { intros c'. eapply Forall2_impl; [apply IH|]. intros x y [->|(r & Hr & Hx)]; [by left|].
    right. exists r. split; [by right|done]. }
  cbn [apply_rows]. case_bool_decide as E.
  - specialize (IH' c). destruct (apply_rows rows now t c) as [t2 c2]. constructor; [by left|done].
  - destruct (co_transition (requestStatusInCO row) (statusInPRS e)) as [prs d] eqn:Et.
    match goal with |- context [apply_rows rows now t ?c'] =>
      specialize (IH' c'); destruct (apply_rows rows now t c') as [t2 c2] end.
    constructor; [|done]. right. exists row. rewrite Et. split; [by left|done].
Qed.

Lemma length_apply_rows now t rows c : length (fst (apply_rows rows now t c)) = length t.
Proof. symmetry. eapply Forall2_length, apply_rows_table. Qed.

Lemma length_CheckForOverride t : length (CheckForOverride t) = length t.
Proof.
  destruct (CheckForOverride_spec t) as [->|(i & e & s & _ & _ & _ & ->)]; [done|]. by rewrite length_insert.
Qed.

Lemma length_run_table now t :
  length t = MAX_SERVICE_REQUESTS -> length (run_table now t) = MAX_SERVICE_REQUESTS.
Proof.
  intros Hl. unfold run_table. destruct (existsb _ _).
  - by rewrite length_CheckForOverride, length_map.
  - by rewrite reorder_Permutation, length_map by (by rewrite length_map).
Qed.

Lemma exchange_table p round :
  table (exchange p round)
  = run_table (snd round) (fst (apply_rows (fst round) (snd round) (table p) (reserviceLastCompletedTime p))).
Proof. unfold exchange, ApplyCoStatusUpdates. by destruct (apply_rows _ _ _ _). Qed.

Lemma length_exchange p round :
  length (table p) = MAX_SERVICE_REQUESTS -> length (table (exchange p round)) = MAX_SERVICE_REQUESTS.
Proof. intros Hl. rewrite exchange_table. apply length_run_table. by rewrite length_apply_rows. Qed.

(** A request turned down by the reservice timer. *)
Definition turned_down (e : PriorityRequestEntry) : Prop :=
  statusInPRS e = reserviceError /\ timeOfServiceDesiredInPRS e <= timeToLive e
  /\ IsActiveX (statusInCO e) = false.

Lemma run_table_keeps now t e :
  length t = MAX_SERVICE_REQUESTS -> e ∈ t -> turned_down e -> e ∈ run_table now t.
Proof.
  intros Hl Hin (Hs & Ht & Ha).
  assert (e ∈ map (expire now) t) as Hin'.
  { apply list_elem_of_fmap. exists e. split; [|done]. unfold expire. rewrite Hs. cbn.
    rewrite bool_decide_eq_false_2 by done.
    destruct (Z.ltb_spec (timeToLive e) (timeOfServiceDesiredInPRS e)); [lia|]. by rewrite andb_false_r. }
  unfold run_table. destruct (existsb _ _).
  - by apply CheckForOverride_keeps.
  - by rewrite reorder_Permutation by (by rewrite length_map).
Qed.

(** A request the reservice timer has turned down never leaves the table,
    whatever time passes: its state is neither ready nor closed, so it does not
    expire, and no state the controller reports moves it, as long as none of
    them is an active one. *)
Theorem reservice_error_stuck rounds p e :
  length (table p) = MAX_SERVICE_REQUESTS -> e ∈ table p -> turned_down e ->
  Forall (fun r => Forall (fun row => IsActiveX (requestStatusInCO row) = false) (fst r)) rounds ->
  exists s, set_statusInCO s e ∈ table (fold_left exchange rounds p).
Proof.
  intros Hl Hin Hd Hr. revert p e Hl Hin Hd. induction Hr as [|[rows now] rounds Hrow _ IH];
    intros p e Hl Hin Hd; cbn [fold_left].
  { exists (statusInCO e). by destruct e. }
  pose proof (apply_rows_table now (table p) rows (reserviceLastCompletedTime p)) as Happ.
  apply list_elem_of_lookup in Hin as [j Hj].
  destruct (Forall2_lookup_l _ _ _ _ _ Happ Hj) as (e' & Hj' & Hcase).
  assert (exists s, e' = set_statusInCO s e /\ IsActiveX s = false) as (s & -> & Hact).
  { destruct Hcase as [->|(row & Hrin & _ & ->)].
    - exists (statusInCO e). split; [by destruct e|apply Hd].
    - exists (requestStatusInCO row). split; [|by apply (proj1 (Forall_forall _ _) Hrow)].
      destruct Hd as (Hs & _). rewrite Hs. destruct e. cbn in Hs. subst. by destruct (requestStatusInCO row). }
  destruct (IH (exchange p (rows, now)) (set_statusInCO s e)) as [s' Hs'].
  - by apply length_exchange.
  - rewrite exchange_table. apply run_table_keeps.
    + by rewrite length_apply_rows.
    + by eapply list_elem_of_lookup_2.
    + destruct Hd as (?&?&?). by split_all.
  - destruct Hd as (?&?&?). by split_all.
  - by exists s'.
Qed.
End exchange.

(** * Witnesses *)
Definition sample_entry (rid cls lvl tsd ttl : Z) (prs co : RequestStatus) : PriorityRequestEntry :=
  mkEntry rid [1; 2; 3; 4] cls lvl 5 tsd (tsd + 10) 1000 ttl prs co 9709 1 0 0 idleNotValid 1 8.

Definition sample_table (t : list PriorityRequestEntry) : list PriorityRequestEntry :=
  t ++ replicate (MAX_SERVICE_REQUESTS - length t) entry0.

Lemma service_request_roundtrip_witness :
  DecodeCoServiceResponse
    (EncodeServiceRequest (sample_table [sample_entry 1 3 1 4000000000 5000 readyQueued idleNotValid]) true)
  = Some (map row_of (sample_table [sample_entry 1 3 1 4000000000 5000 readyQueued idleNotValid]), true).
Proof.
  refine (proj2 (service_request_roundtrip _ true _ _)); [reflexivity|].
  repeat constructor; cbn; lia.
Defined.

Lemma prioritization_orders_witness :
  let t := sample_table [sample_entry 1 7 1 2000 9000 readyQueued idleNotValid;
                         sample_entry 2 1 1 2000 9000 closedCanceled idleNotValid;
                         sample_entry 3 3 2 2100 9000 readyQueued idleNotValid;
                         sample_entry 4 3 2 2050 9000 readyQueued idleNotValid;
                         sample_entry 5 3 2 2050 1500 readyQueued idleNotValid] in
  map requestID (run_table (H := insertion_StdSort) 1600 t) = [4; 3; 1; 2; 0; 0; 0; 0; 0; 0]
  /\ StronglySorted may_precede (run_table (H := insertion_StdSort) 1600 t).
Proof.
  split; [vm_compute; reflexivity|].
  refine (proj2 (@prioritization_orders insertion_StdSort 1600 _ _ _)); reflexivity.
Defined.

Lemma override_misses_higher_witness :
  let t := sample_table [sample_entry 1 5 1 2000 9000 readyQueued activeProcessing;
                         sample_entry 2 7 1 2000 9000 readyQueued idleNotValid;
                         sample_entry 3 1 1 2000 9000 readyQueued idleNotValid] in
  CheckForOverride t = t
  /\ existsb (fun e => bool_decide (statusInPRS e = readyQueued) && higher_priority e (nth 0 t entry0)) t = true.
Proof.
  intros t. apply (override_misses_higher t 0 (sample_entry 2 7 1 2000 9000 readyQueued idleNotValid)
    (sample_entry 3 1 1 2000 9000 readyQueued idleNotValid)); try reflexivity; try done.
  right. right. left.
Defined.

Lemma reservice_error_stuck_witness :
  let e := sample_entry 1 5 1 2000 2600 reserviceError idleNotValid in
  exists s, set_statusInCO s e ∈ table (fold_left (exchange (H := insertion_StdSort))
     [(replicate 10 (mkRow 0 0 0 idleNotValid), 3000); (replicate 10 (mkRow 0 0 0 idleNotValid), 4000000)]
     (mkProcessor (sample_table [e]) (replicate 10 0) ∅)).
Proof.
  intros e. apply (reservice_error_stuck (H := insertion_StdSort)).
  - reflexivity.
  - left.
  - by repeat constructor.
  - by repeat constructor.
Defined.
End Priority.
