(* ===== verification/PriorityRequests.v ===== *)
(** Requests and exchanges of the priority plugin: the conversion of a signal
    request into a row of the table or an outgoing octet string
    ([PriorityRequestBuilder.cpp], [PriorityPluginWorker.cpp]) and one exchange
    with a controller ([PrsServiceExchange.cpp]), over the table of
    [PriorityTable].

    The enumerators that come from the generated J2735 headers and the SNMP
    client are interfaces. *)
From stdpp Require Import pretty.
From S2P Require Import Prelude PriorityTable.
Import Priority.
Open Scope Z_scope.

(** The numbers of the generated enumerations the code compares with. *)
Class J2735 := {
  IntersectionAccessPoint_PR_lane : Z;
  IntersectionAccessPoint_PR_approach : Z;
  PriorityRequestType_priorityRequestUpdate : Z;
  PriorityRequestType_priorityCancellation : Z
}.

(** A controller behind an SNMP client, in a world with the run flag of the
    plugin and a clock in seconds. *)
Class Controller (W : Type) := {
  co_set : list Z -> W -> bool * W;
  co_get : W -> option (list Z) * W;
  co_sleep : Z -> W -> W;
  co_running : W -> bool;
  co_seconds : W -> Z
}.

Module Requests.
(** * Helpers *)
Definition YEAR_MS : Z := 525960 * 60 * 1000.
Definition ComputeEtaOffsetMs (etaMinuteOfYear etaMs currentMinuteOfYear currentMsInMinute : Z) : Z :=
  let etaTotalMs := etaMinuteOfYear * 60 * 1000 + etaMs in
  let nowTotalMs := currentMinuteOfYear * 60 * 1000 + currentMsInMinute in
  let etaOffsetMs := etaTotalMs - nowTotalMs in
  if etaOffsetMs <? Z.quot (- YEAR_MS) 2 then etaOffsetMs + YEAR_MS else etaOffsetMs.

Definition MapVehicleClass (role : Z) : Z * Z :=
  match role with
  | 6 => (1, 1) | 12 => (1, 2) | 13 => (1, 3) | 14 => (1, 4) | 5 => (1, 5) | 7 => (1, 6) | 11 => (1, 7)
  | 1 => (3, 1) | 16 => (3, 2) | 15 => (5, 1) | 4 => (5, 2) | 3 => (7, 1) | 2 => (7, 2) | 9 => (7, 3)
  | 17 => (7, 4) | 18 => (7, 5) | _ => (10, 1)
  end.

Inductive StaleTrackedAction := Keep | SendClearAndErase | Evict.
Definition ClassifyStaleTrackedRequest (isCanceled : bool) (ageSec timeToLiveSec : Z) : StaleTrackedAction :=
  if isCanceled && (2 <=? ageSec) then SendClearAndErase
  else if timeToLiveSec <=? ageSec then Evict
  else Keep.

(** The fields of a J2735 signal request package the code reads. *)
Record SignalRequestPackage := mkPackage {
  pkg_requestID : Z; pkg_intersection : Z; pkg_requestType : Z;
  pkg_present : Z; pkg_lane : Z; pkg_approach : Z;
  pkg_minute : option Z; pkg_second : option Z; pkg_duration : option Z }.

Record PrsPackageInput := mkPrsInput {
  in_vehicleID : list Z; in_classType : Z; in_classLevel : Z; in_newSeq : Z; in_role : Z;
  in_currentMinuteOfYear : Z; in_currentMsInMinute : Z; in_nowEpoch : Z;
  in_reserviceClassTime : list Z; in_timeToLiveSec : Z;
  in_estimatedArrivalTime : Z; in_estimatedDepartureTime : Z; in_prsBusy : bool }.

Inductive PrsAction := Updated | Inserted | Rejected | TableFull.
Record PrsPackageResult := mkPrsResult { action : PrsAction; slotIndex : nat; overrideTriggered : bool }.

Section requests.
Context `{J2735}.

Definition inbound_lane (pkg : SignalRequestPackage) : Z :=
  if pkg_present pkg =? IntersectionAccessPoint_PR_lane then pkg_lane pkg else -1.
Definition inbound_value (pkg : SignalRequestPackage) (dflt : Z) : Z :=
  if pkg_present pkg =? IntersectionAccessPoint_PR_lane then pkg_lane pkg
  else if pkg_present pkg =? IntersectionAccessPoint_PR_approach then pkg_approach pkg
  else dflt.

(** * A request at the server (PRS) *)
Definition global_times (pkg : SignalRequestPackage) (input : PrsPackageInput) : Z * Z :=
  match pkg_minute pkg with
  | Some minute =>
      let etaOffsetMs := ComputeEtaOffsetMs minute (default 0 (pkg_second pkg))
                           (in_currentMinuteOfYear input) (in_currentMsInMinute input) in
      let departOffsetMs := match pkg_duration pkg with Some d => etaOffsetMs + d | None => etaOffsetMs end in
      (u32 (u32 (in_nowEpoch input) + u32 (Z.quot etaOffsetMs 1000)),
       u32 (u32 (in_nowEpoch input) + u32 (Z.quot departOffsetMs 1000)))
  | None =>
      (u32 (u32 (in_nowEpoch input) + u32 (in_estimatedArrivalTime input)),
       u32 (u32 (in_nowEpoch input) + u32 (in_estimatedDepartureTime input)))
  end.

Definition same_request (rid : Z) (input : PrsPackageInput) (strategy : option Z)
    (e : PriorityRequestEntry) : bool :=
  negb (bool_decide (statusInPRS e = idleNotValid))
  && (requestID e =? rid) && bool_decide (vehicleID e = in_vehicleID input)
  && (vehicleClassType e =? in_classType input) && (vehicleClassLevel e =? in_classLevel input)
  && match strategy with Some s => serviceStrategyNumber e =? s | None => false end.
Definition is_idle (e : PriorityRequestEntry) : bool := bool_decide (statusInPRS e = idleNotValid).

(** [std::find_if], as an index. *)
Fixpoint find_if (p : PriorityRequestEntry -> bool) (t : list PriorityRequestEntry) : option nat :=
  match t with
  | [] => None
  | e :: t' => if p e then Some 0%nat else S <$> find_if p t'
  end.

Definition update_entry (globalTSD globalTED seq : Z) (e : PriorityRequestEntry) : PriorityRequestEntry :=
  mkEntry (requestID e) (vehicleID e) (vehicleClassType e) (vehicleClassLevel e) (serviceStrategyNumber e)
    globalTSD globalTED (timeOfMessage e) (timeToLive e)
    (statusInPRS e) (statusInCO e) (intersectionID e) seq (role e) (ssmBroadcastCount e)
    (ssmLastStatus e) (inboundPresent e) (inboundValue e).

Definition store_entry (pkg : SignalRequestPackage) (input : PrsPackageInput) (globalTSD globalTED : Z)
    (strategy : option Z) (status : RequestStatus) (e : PriorityRequestEntry) : PriorityRequestEntry :=
  mkEntry (u8 (pkg_requestID pkg)) (in_vehicleID input) (in_classType input) (in_classLevel input)
    (default (serviceStrategyNumber e) strategy)
    globalTSD globalTED (u32 (in_nowEpoch input)) (u32 (u32 (in_nowEpoch input) + in_timeToLiveSec input))
    status (statusInCO e) (pkg_intersection pkg) (in_newSeq input) (in_role input) (ssmBroadcastCount e)
    (ssmLastStatus e) (u8 (pkg_present pkg)) (inbound_value pkg (inboundValue e)).

Definition reservice_locked (p : Processor) (input : PrsPackageInput) : bool :=
  let reservicePeriod := in_reserviceClassTime input !!! class_index (in_classType input) in
  let lastCompleted := ReserviceLastCompleted p (in_classType input) in
  (0 <? reservicePeriod) && (0 <? lastCompleted)
  && (u32 (u32 (in_nowEpoch input) - lastCompleted) <? reservicePeriod).

(** The loop that marks the entries the new request overrides; [skip] is the
    new entry. *)
Definition overridden (input : PrsPackageInput) (other : PriorityRequestEntry) : bool :=
  let isActive := bool_decide (statusInCO other = activeProcessing)
                  || bool_decide (statusInCO other = activeAdjustNotNeeded) in
  let isLowerClass := (in_classType input <? vehicleClassType other)
                      || ((in_classType input =? vehicleClassType other)
                          && (in_classLevel input <? vehicleClassLevel other)) in
  isActive && isLowerClass.
Fixpoint mark_overridden (input : PrsPackageInput) (skip i : nat) (t : list PriorityRequestEntry)
  : list PriorityRequestEntry * bool :=
  match t with
  | [] => ([], false)
  | e :: t' =>
      let '(t2, b) := mark_overridden input skip (S i) t' in
      if negb (Nat.eqb i skip) && overridden input e
      then (set_statusInPRS activeOverride e :: t2, true)
      else (e :: t2, b)
  end.

Definition ApplyPrsPackage (p : Processor) (pkg : SignalRequestPackage) (input : PrsPackageInput)
  : PrsPackageResult * list PriorityRequestEntry :=
  let t := table p in
  let rid := u8 (pkg_requestID pkg) in
  let '(globalTSD, globalTED) := global_times pkg input in
  let strategy := LookupStrategy p (pkg_intersection pkg) (inbound_lane pkg) in
  match find_if (same_request rid input strategy) t with
  | Some i =>
      (mkPrsResult Updated i false, alter (update_entry globalTSD globalTED (in_newSeq input)) i t)
  | None =>
      match find_if is_idle t with
      | None => (mkPrsResult TableFull 0 false, t)
      | Some i =>
          let store := fun status => alter (store_entry pkg input globalTSD globalTED strategy status) i t in
          match strategy with
          | None => (mkPrsResult Rejected i false, store closedStrategyError)
          | Some _ =>
              if reservice_locked p input then (mkPrsResult Rejected i false, store reserviceError)
              else if negb (in_prsBusy input) then (mkPrsResult Inserted i false, store readyQueued)
              else let '(t', b) := mark_overridden input i 0 (store readyQueued) in
                   (mkPrsResult Inserted i b, t')
          end
      end
  end.

(** * A request at the generator (PRG) *)
Inductive PrgRequestState := sent | canceled.
#[export] Instance PrgRequestState_eq_dec : EqDecision PrgRequestState.
Proof. solve_decision. Defined.
Record PrgTrackedRequest := mkTracked {
  tr_requestID : Z; tr_intersectionID : Z; tr_vehicleID : list Z; tr_classType : Z; tr_classLevel : Z;
  tr_strategyNumber : Z; tr_sentTimeMs : Z; tr_state : PrgRequestState }.

Record SignalRequest := mkSignalRequest {
  sr_requestID : Z; sr_intersectionID : Z; sr_requestType : Z; sr_timeOfService : Z; sr_timeOfDepart : Z;
  sr_rejected : bool; sr_inboundPresent : Z; sr_inboundValue : Z;
  sr_etaMinute : Z; sr_etaSecond : Z; sr_duration : Z }.
Definition reject (r : SignalRequest) : SignalRequest :=
  mkSignalRequest (sr_requestID r) (sr_intersectionID r) (sr_requestType r) (sr_timeOfService r)
    (sr_timeOfDepart r) true (sr_inboundPresent r) (sr_inboundValue r) (sr_etaMinute r) (sr_etaSecond r)
    (sr_duration r).

Record PrgPackageInput := mkPrgInput {
  pin_vehicleID : list Z; pin_vehicleKey : string; pin_classType : Z; pin_classLevel : Z;
  pin_currentMinuteOfYear : Z; pin_currentMsInMinute : Z; pin_timeOfRequest : Z;
  pin_estimatedArrivalTime : Z; pin_estimatedDepartureTime : Z; pin_nowMs : Z }.

Definition PRIORITY_REQUEST_ABSOLUTE_OID : string := "1.3.6.1.4.1.1206.4.2.11.2.8.0".
Definition PRIORITY_UPDATE_ABSOLUTE_OID : string := "1.3.6.1.4.1.1206.4.2.11.2.9.0".
Definition PRIORITY_CANCEL_OID : string := "1.3.6.1.4.1.1206.4.2.11.2.5.0".

(** What is sent: the payload, its object identifier, whether it is a
    cancellation, the key and the entry for the tracker. *)
Record PrgSend := mkSend {
  encodedPayload : list Z; targetOID : string; isCancel : bool;
  trackerKey : string; trackerEntry : PrgTrackedRequest }.
Inductive PrgOutcome := Send (s : PrgSend) | NoStrategy | NoController | InvalidEta.
Record PrgPackageResult := mkPrgResult { outcome : PrgOutcome; signalRequest : SignalRequest }.

(** The times in seconds, or nothing when they leave the range of the field. *)
Definition prg_times (pkg : SignalRequestPackage) (input : PrgPackageInput) : option (Z * Z) :=
  match pkg_minute pkg with
  | Some minute =>
      let service := ComputeEtaOffsetMs minute (default 0 (pkg_second pkg))
                       (pin_currentMinuteOfYear input) (pin_currentMsInMinute input) in
      let depart := service + default 0 (pkg_duration pkg) in
      let s := Z.quot service 1000 in
      let d := Z.quot depart 1000 in
      if (s <? 1) || (65535 <? s) || (d <? 1) || (65535 <? d) then None else Some (s, d)
  | None => Some (pin_estimatedArrivalTime input, pin_estimatedDepartureTime input)
  end.

Definition tracker_key (input : PrgPackageInput) (rid intersection : Z) : string :=
  pin_vehicleKey input +:+ "|" +:+ pretty rid +:+ "|" +:+ pretty intersection.

(** The branches on the request type. *)
Definition prg_payload (tracked : gmap string PrgTrackedRequest) (key : string)
    (pkg : SignalRequestPackage) (input : PrgPackageInput) (strategy : Z) (times : Z * Z)
  : list Z * string * bool :=
  let rid := u8 (pkg_requestID pkg) in
  let new := (EncodePriorityRequest rid (pin_vehicleID input) (pin_classType input) (pin_classLevel input)
                strategy (fst times) (snd times) (pin_timeOfRequest input),
              PRIORITY_REQUEST_ABSOLUTE_OID, false) in
  let update := (EncodePriorityUpdate rid (pin_vehicleID input) (pin_classType input) (pin_classLevel input)
                   strategy (fst times) (snd times) (pin_timeOfRequest input),
                 PRIORITY_UPDATE_ABSOLUTE_OID, false) in
  if pkg_requestType pkg =? PriorityRequestType_priorityCancellation then
    (EncodePriorityCancel rid (pin_vehicleID input) (pin_classType input) (pin_classLevel input) strategy,
     PRIORITY_CANCEL_OID, true)
  else if pkg_requestType pkg =? PriorityRequestType_priorityRequestUpdate then
    match tracked !! key with None => new | Some _ => update end
  else
    match tracked !! key with
    | Some r => if bool_decide (tr_state r = sent) then update else new
    | None => new
    end.

Definition BuildPrgPackage (tracked : gmap string PrgTrackedRequest) (configured : gset Z) (p : Processor)
    (pkg : SignalRequestPackage) (input : PrgPackageInput) : PrgPackageResult :=
  let rid := u8 (pkg_requestID pkg) in
  let intersection := pkg_intersection pkg in
  let times := prg_times pkg input in
  let strategy := LookupStrategy p intersection (inbound_lane pkg) in
  let '(service, depart) := default (0, 0) times in
  let request := mkSignalRequest rid intersection (pkg_requestType pkg) service depart false
                   (u8 (pkg_present pkg)) (inbound_value pkg 0)
                   (default 0 (pkg_minute pkg)) (default 0 (pkg_second pkg)) (default 0 (pkg_duration pkg)) in
  match times with
  | None => mkPrgResult InvalidEta (reject request)
  | Some ts =>
      match strategy with
      | None => mkPrgResult NoStrategy (reject request)
      | Some s =>
          if negb (bool_decide (intersection ∈ configured)) then mkPrgResult NoController (reject request)
          else
            let key := tracker_key input rid intersection in
            let '(payload, oid, cancel) := prg_payload tracked key pkg input s ts in
            mkPrgResult
              (Send (mkSend payload oid cancel key
                 (mkTracked rid intersection (pin_vehicleID input) (pin_classType input) (pin_classLevel input)
                    s (pin_nowMs input) sent)))
              request
      end
  end.
End requests.

(** * One exchange with a controller *)
Record ServiceExchangeContext := mkContext {
  processor : Processor; lastSentServiceRequest : list Z; prsBusy : bool }.
Inductive ExchangeResult := Ok | SnmpSetFailed | CoError | CoStillBusy.

Section exchange.
Context {W : Type} `{Controller W} `{StdSort}.

(** The polling loop: whether there was an error, whether the controller is
    still busy, and the rows last decoded. *)
Fixpoint poll (maxRetries : nat) (coBusy : bool) (coRows : list CoServiceResponseRow) (w : W)
  : bool * bool * list CoServiceResponseRow * W :=
  match maxRetries with
  | O => (false, coBusy, coRows, w)
  | S n =>
      if coBusy && co_running w then
        match co_get w with
        | (None, w) => (true, coBusy, coRows, w)
        | (Some getData, w) =>
            match DecodeCoServiceResponse getData with
            | None => (true, coBusy, coRows, w)
            | Some (rows, busy) => poll n busy rows (if busy then co_sleep 10 w else w)
            end
        end
      else (false, coBusy, coRows, w)
  end.

Definition send_if_changed (data : list Z) (ctx : ServiceExchangeContext) (w : W)
  : bool * ServiceExchangeContext * W :=
  if bool_decide (data = lastSentServiceRequest ctx) then (true, ctx, w)
  else match co_set data w with
       | (false, w) => (false, ctx, w)
       | (true, w) => (true, mkContext (processor ctx) data (prsBusy ctx), w)
       end.

Definition DoOneServiceExchange (ctx : ServiceExchangeContext) (w : W)
  : ExchangeResult * ServiceExchangeContext * W :=
  let setData := EncodeServiceRequest (table (processor ctx)) (prsBusy ctx) in
  let '(setOk, ctx, w) := send_if_changed setData ctx w in
  if negb setOk then (SnmpSetFailed, ctx, w)
  else
    let '(coError, coBusy, coRows, w) := poll 3 true (replicate MAX_SERVICE_REQUESTS (mkRow 0 0 0 idleNotValid)) w in
    if coError then (CoError, ctx, w)
    else if coBusy then (CoStillBusy, ctx, w)
    else
      let now := u32 (co_seconds w) in
      let p := RunPrioritizationProcessing now (ApplyCoStatusUpdates coRows now (processor ctx)) in
      let ctx := mkContext p (lastSentServiceRequest ctx) false in
      let '(setOk, ctx, w) := send_if_changed (EncodeServiceRequest (table p) false) ctx w in
      (if setOk then Ok else SnmpSetFailed, ctx, w).
End exchange.

(** * The table as requests come and go

    Two facts hold of every table the code builds: a free row has the default
    contents, so that the fields a new request does not set are those of a
    fresh entry; and no two rows hold the same request. Rows with strategy 0,
    which is no strategy, are left out: a request rejected for want of a
    strategy is stored with it, and repeating it stores another. *)
Definition request_key (e : PriorityRequestEntry) : option (Z * list Z * Z * Z * Z) :=
  if is_idle e || (serviceStrategyNumber e =? 0) then None
  else Some (requestID e, vehicleID e, vehicleClassType e, vehicleClassLevel e, serviceStrategyNumber e).
Definition keys (t : list PriorityRequestEntry) : list (Z * list Z * Z * Z * Z) := omap request_key t.

Record table_ok (t : list PriorityRequestEntry) : Prop := {
  ok_length : length t = MAX_SERVICE_REQUESTS;
  ok_idle : Forall (fun e => is_idle e = true -> e = entry0) t;
  ok_keys : NoDup (keys t) }.

Lemma keys_Forall2 t t' :
  Forall2 (fun e e' => request_key e' = request_key e) t t' -> keys t' = keys t.
Proof.
  unfold keys. induction 1 as [|e e' t t' He _ IH]; [done|]. cbn. rewrite He. by destruct (request_key e); rewrite IH.
Qed.

Lemma keys_sublist t f :
  (forall e, e ∈ t -> request_key (f e) = request_key e \/ request_key (f e) = None) ->
  sublist (keys (map f t)) (keys t).
Proof.
  unfold keys. induction t as [|e t IH]; intros Hf; [constructor|]. cbn.
  specialize (IH ltac:(intros; apply Hf; by right)).
  destruct (Hf e ltac:(by left)) as [->| ->]; destruct (request_key e); by try constructor.
Qed.

Lemma keys_app t t' : keys (t ++ t') = keys t ++ keys t'.
Proof. apply omap_app. Qed.

Lemma insert_alter (f : PriorityRequestEntry -> PriorityRequestEntry) (i : nat) (t : list PriorityRequestEntry) e :
  t !! i = Some e -> <[i := f e]> t = alter f i t.
Proof. intros Hi. by rewrite alter_insert, Hi. Qed.

Lemma alter_middle (f : PriorityRequestEntry -> PriorityRequestEntry) (i : nat) (t : list PriorityRequestEntry) e :
  t !! i = Some e -> t = take i t ++ e :: drop (S i) t /\ alter f i t = take i t ++ f e :: drop (S i) t.
Proof.
  intros Hi. split; [by rewrite take_drop_middle|].
  rewrite <- (insert_alter f i t e Hi). apply insert_take_drop. by eapply lookup_lt_Some.
Qed.

Lemma keys_alter f (i : nat) t e :
  t !! i = Some e ->
  exists k1 k2, keys t = k1 ++ option_list (request_key e) ++ k2
    /\ keys (alter f i t) = k1 ++ option_list (request_key (f e)) ++ k2.
Proof.
  intros Hi. destruct (alter_middle f i t e Hi) as [Ht Ha].
  exists (keys (take i t)), (keys (drop (S i) t)). split; [rewrite Ht at 1|rewrite Ha];
    rewrite keys_app; f_equal; unfold keys; cbn; by destruct (request_key _).
Qed.

Lemma Forall_alter_elem (P : PriorityRequestEntry -> Prop) f (i : nat) (t : list PriorityRequestEntry) e :
  t !! i = Some e -> P (f e) -> Forall P t -> Forall P (alter f i t).
Proof.
  intros Hi Hf Ht. apply Forall_alter; [done|]. intros x Hx. congruence.
Qed.

(** Changing one entry. *)
Lemma table_ok_alter f (i : nat) t e :
  table_ok t -> t !! i = Some e -> is_idle (f e) = false ->
  (request_key (f e) = request_key e \/ request_key e = None /\ forall k, request_key (f e) = Some k -> k ∉ keys t) ->
  table_ok (alter f i t).
Proof.
  intros [Hl Hidle Hk] Hi Hn Hkey. split.
  - by rewrite length_alter.
  - eapply Forall_alter_elem; [exact Hi| |done]. congruence.
  - destruct (keys_alter f i t e Hi) as (k1 & k2 & E1 & E2). rewrite E2.
    destruct Hkey as [->|[Hnone Hnew]]; [by rewrite <- E1|]. rewrite Hnone in E1. cbn in E1.
    destruct (request_key (f e)) as [k|]; cbn; [|by rewrite <- E1].
    specialize (Hnew k eq_refl). rewrite E1 in Hnew, Hk.
    rewrite <- Permutation_middle. by constructor.
Qed.

(** ** The operations of the table *)
Lemma request_key_PRS s e :
  is_idle e = false -> s <> idleNotValid -> request_key (set_statusInPRS s e) = request_key e.
Proof.
  intros He Hs. unfold request_key. rewrite He. unfold is_idle. cbn. by rewrite bool_decide_eq_false_2.
Qed.

Lemma is_idle_PRS s e : s <> idleNotValid -> is_idle (set_statusInPRS s e) = false.
Proof. intros Hs. unfold is_idle. cbn. by apply bool_decide_eq_false_2. Qed.

Lemma active_not_idle t e :
  table_ok t -> e ∈ t -> IsActiveX (statusInCO e) = true -> is_idle e = false.
Proof.
  intros [_ Hidle _] Hin Ha. destruct (is_idle e) eqn:E; [|done].
  rewrite (proj1 (Forall_forall _ _) Hidle e Hin E) in Ha. done.
Qed.

Lemma table_ok_override t : table_ok t -> table_ok (CheckForOverride t).
Proof.
  intros Hok. destruct (CheckForOverride_spec t) as [->|(i & e & s & Hi & Ha & Hs & ->)]; [done|].
  pose proof (active_not_idle t e Hok (list_elem_of_lookup_2 _ _ _ Hi) Ha) as Hn.
  assert (s <> idleNotValid) as Hs' by (destruct Hs; by subst).
  rewrite (insert_alter (set_statusInPRS s) i t e Hi).
  eapply table_ok_alter; [done|exact Hi|by apply is_idle_PRS|]. left. by apply request_key_PRS.
Qed.

Lemma expire_key now e :
  request_key (expire now e) = request_key e \/ request_key (expire now e) = None.
Proof.
  unfold expire. case_bool_decide as E; [by left|]. case_if; [by right|].
  case_if; [|by left]. left. apply request_key_PRS; [|done]. unfold is_idle. by apply bool_decide_eq_false_2.
Qed.

Lemma expire_idle now e : (is_idle e = true -> e = entry0) -> is_idle (expire now e) = true -> expire now e = entry0.
Proof.
  unfold expire. case_bool_decide as E; [done|]. intros _. case_if; [done|].
  case_if; [done|]. intros He%bool_decide_eq_true_1. done.
Qed.

Lemma table_ok_run `{StdSort} now t : table_ok t -> table_ok (run_table now t).
Proof.
  intros [Hl Hidle Hk].
  assert (table_ok (map (expire now) t)) as Hok.
  { split.
    - by rewrite length_map.
    - apply Forall_map. eapply Forall_impl; [exact Hidle|]. intros e. apply expire_idle.
    - eapply sublist_NoDup; [exact Hk|]. apply keys_sublist. intros e _. apply expire_key. }
  unfold run_table. destruct (existsb _ _); [by apply table_ok_override|].
  destruct Hok as [Hl' Hidle' Hk']. pose proof (reorder_Permutation _ Hl') as Hp. split.
  - by rewrite Hp.
  - by rewrite Hp.
  - unfold keys. by rewrite Hp.
Qed.

Lemma co_transition_not_idle co prs : prs <> idleNotValid -> fst (co_transition co prs) <> idleNotValid.
Proof. by destruct co, prs. Qed.

Lemma table_ok_co rows now t c : table_ok t -> table_ok (fst (apply_rows rows now t c)).
Proof.
  intros [Hl Hidle Hk]. pose proof (apply_rows_table now t rows c) as Happ. split.
  - by rewrite length_apply_rows.
  - clear Hl Hk. induction Happ as [|e e' t t' Hee _ IH]; [constructor|].
    inversion Hidle; subst. constructor; [|by apply IH].
    destruct Hee as [->|(row & _ & Hs & ->)]; [done|]. intros Hi%bool_decide_eq_true_1. cbn in Hi.
    by apply co_transition_not_idle in Hi.
  - rewrite (keys_Forall2 t); [done|]. eapply Forall2_impl; [exact Happ|].
    intros e e' [->|(row & _ & Hs & ->)]; [done|]. unfold request_key, is_idle. cbn.
    rewrite !bool_decide_eq_false_2; [done|done|]. by apply co_transition_not_idle.
Qed.

Lemma table_ok_exchange `{StdSort} p round : table_ok (table p) -> table_ok (table (exchange p round)).
Proof. intros Hok. rewrite exchange_table. by apply table_ok_run, table_ok_co. Qed.

(** ** New requests *)
Section new_requests.
Context `{J2735}.

Lemma find_if_spec P t i : find_if P t = Some i -> exists e, t !! i = Some e /\ P e = true.
Proof.
  revert i. induction t as [|e t IH]; intros i; cbn [find_if]; [done|].
  destruct (P e) eqn:E; [intros [= <-]; by exists e|].
  destruct (find_if P t) as [j|]; [|done]. cbn. intros [= <-]. by apply (IH j).
Qed.
Lemma find_if_None P t : find_if P t = None -> Forall (fun e => P e = false) t.
Proof.
  induction t as [|e t IH]; cbn [find_if]; [constructor|]. destruct (P e) eqn:E; [done|].
  destruct (find_if P t); [done|]. constructor; [done|]. by apply IH.
Qed.

Lemma same_request_key rid input s e :
  s <> 0 -> same_request rid input (Some s) e = true <->
  request_key e = Some (rid, in_vehicleID input, in_classType input, in_classLevel input, s).
Proof.
  intros Hs. unfold same_request, request_key, is_idle.
  rewrite !andb_true_iff, negb_true_iff, !Z.eqb_eq, bool_decide_eq_true.
  case_bool_decide; cbn; [split; [intros; split_all; done|done]|].
  destruct (Z.eqb_spec (serviceStrategyNumber e) 0) as [E|]; split; try done.
  - intros. split_all. congruence.
  - intros. split_all. congruence.
  - intros [= ? ? ? ? ?]. by split_all.
Qed.

Lemma new_key_fresh rid input s t :
  s <> 0 -> find_if (same_request rid input (Some s)) t = None ->
  (rid, in_vehicleID input, in_classType input, in_classLevel input, s) ∉ keys t.
Proof.
  intros Hs Hf%find_if_None. unfold keys. rewrite list_elem_of_omap. intros (e & Hin & Hk).
  apply same_request_key in Hk; [|done]. apply (proj1 (Forall_forall _ _) Hf) in Hin. congruence.
Qed.

Lemma mark_overridden_spec input skip t : forall i,
  Forall2 (fun e e' => e' = e \/ overridden input e = true /\ e' = set_statusInPRS activeOverride e)
    t (fst (mark_overridden input skip i t)).
Proof.
  induction t as [|e t IH]; intros i; cbn [mark_overridden]; [constructor|].
  specialize (IH (S i)). destruct (mark_overridden input skip (S i) t) as [t2 b].
  destruct (negb (Nat.eqb i skip) && overridden input e) eqn:E; constructor; try done; [|by left].
  right. by apply andb_prop in E as [_ ?].
Qed.

Lemma overridden_active input e : overridden input e = true -> IsActiveX (statusInCO e) = true.
Proof.
  unfold overridden. rewrite andb_true_iff, orb_true_iff, !bool_decide_eq_true.
  by intros [[-> | ->] _].
Qed.

Lemma table_ok_mark input skip i t : table_ok t -> table_ok (fst (mark_overridden input skip i t)).
Proof.
  intros Hok. pose proof (mark_overridden_spec input skip t i) as Hm.
  assert (Forall (fun e => IsActiveX (statusInCO e) = true -> is_idle e = false) t) as Ha.
  { apply Forall_forall. intros e Hin. by apply (active_not_idle t). }
  destruct Hok as [Hl Hidle Hk]. split.
  - by rewrite <- (Forall2_length _ _ _ Hm).
  - clear Hl Hk. induction Hm as [|e e' t t' Hee _ IH]; [constructor|].
    inversion Hidle; inversion Ha; subst. constructor; [|by apply IH].
    destruct Hee as [->|[_ ->]]; [done|]. by rewrite is_idle_PRS.
  - rewrite (keys_Forall2 t); [done|]. clear Hl Hk Hidle. induction Hm as [|e e' t t' Hee _ IH]; [constructor|].
    inversion Ha; subst. constructor; [|by apply IH].
    destruct Hee as [->|[Ho ->]]; [done|]. apply request_key_PRS; [|done].
    eapply overridden_active in Ho. auto.
Qed.

Lemma table_ok_store p pkg input tsd ted strategy status i :
  table_ok (table p) -> status <> idleNotValid ->
  (forall s, strategy = Some s -> s <> 0 /\ find_if (same_request (u8 (pkg_requestID pkg)) input strategy) (table p) = None) ->
  find_if is_idle (table p) = Some i ->
  table_ok (alter (store_entry pkg input tsd ted strategy status) i (table p)).
Proof.
  intros Hok Hst Hs Hi. apply find_if_spec in Hi as (e & Hi & He).
  pose proof (ok_idle _ Hok) as Hidle.
  pose proof (proj1 (Forall_forall _ _) Hidle e (list_elem_of_lookup_2 _ _ _ Hi) He) as ->.
  eapply table_ok_alter; [done|exact Hi|unfold is_idle; cbn; by apply bool_decide_eq_false_2|].
  right. split; [done|]. intros k. unfold request_key, is_idle. cbn [statusInPRS store_entry].
  rewrite bool_decide_eq_false_2 by done. cbn. destruct strategy as [s|]; cbn; [|done].
  destruct (Hs s eq_refl) as [Hs0 Hf]. rewrite (proj2 (Z.eqb_neq s 0)) by done.
  intros [= <-]. by apply new_key_fresh.
Qed.

(** A request without a strategy is not found again: it takes a free row every time,
    however often it is repeated. *)
Definition free_rows (t : list PriorityRequestEntry) : nat := length (filter (fun e => is_idle e = true) t).
Lemma refused_again p pkg input :
  LookupStrategy p (pkg_intersection pkg) (inbound_lane pkg) = None ->
  let r := fst (ApplyPrsPackage p pkg input) in
  let t := snd (ApplyPrsPackage p pkg input) in
  match free_rows (table p) with
  | O => action r = TableFull /\ t = table p
  | S n => action r = Rejected /\ free_rows t = n
  end.
Proof.
  intros Hs. unfold ApplyPrsPackage. destruct (global_times pkg input) as [tsd ted]. rewrite Hs.
  assert (forall rid t, find_if (same_request rid input None) t = None) as Hnone.
  { induction t as [|e t IH]; [done|]. cbn. unfold same_request at 1. by rewrite andb_false_r, IH. }
  rewrite Hnone. destruct (find_if is_idle (table p)) as [i|] eqn:Ei; cbn [fst snd action].
  - apply find_if_spec in Ei as (e & Hi & He).
    destruct (list_elem_of_split_length (table p) i e Hi) as (l1 & l2 & -> & ->).
    rewrite alter_app_r_alt by lia. rewrite Nat.sub_diag. cbn. unfold free_rows.
    rewrite !filter_app, !filter_cons. rewrite decide_True by done.
    rewrite decide_False by by unfold is_idle; cbn; rewrite bool_decide_eq_false_2.
    rewrite !length_app. cbn. by rewrite Nat.add_succ_r.
  - apply find_if_None in Ei. unfold free_rows.
    assert (filter (fun e => is_idle e = true) (table p) = []) as ->; [|done].
    induction Ei as [|e t He _ IH]; [done|]. rewrite filter_cons, decide_False; [done|]. by rewrite He.
Qed.

Definition strategies_ok (p : Processor) : Prop :=
  map_Forall (fun _ s => s <> 0) (laneStrategyMap p).

Lemma table_ok_package p pkg input :
  table_ok (table p) -> strategies_ok p -> table_ok (snd (ApplyPrsPackage p pkg input)).
Proof.
  intros Hok Hst. unfold ApplyPrsPackage. destruct (global_times pkg input) as [tsd ted].
  set (strategy := LookupStrategy p (pkg_intersection pkg) (inbound_lane pkg)).
  assert (forall s, strategy = Some s -> s <> 0) as Hs0.
  { subst strategy. unfold LookupStrategy. intros s. destruct (0 <=? _); [|done]. apply Hst. }
  destruct (find_if (same_request _ input strategy) (table p)) as [i|] eqn:Ef.
  { apply find_if_spec in Ef as (e & Hi & Hsame). cbn [snd].
    eapply table_ok_alter; [done|exact Hi| |by left].
    unfold same_request in Hsame. unfold is_idle. cbn. by destruct (bool_decide _). }
  destruct (find_if is_idle (table p)) as [i|] eqn:Ei; [|done].
  assert (forall status, status <> idleNotValid ->
    table_ok (alter (store_entry pkg input tsd ted strategy status) i (table p))) as Hstore.
  { intros status Hne. apply table_ok_store; try done. intros s E. by split; [apply Hs0|]. }
  destruct strategy as [s|]; [|by apply Hstore].
  destruct (reservice_locked p input); [by apply Hstore|]. destruct (negb (in_prsBusy input)); [by apply Hstore|].
  pose proof (table_ok_mark input i 0 _ (Hstore readyQueued ltac:(done))) as Hm.
  by destruct (mark_overridden input i 0 _).
Qed.

(** * The server as a transition system *)
Inductive step `{StdSort} : Processor -> Processor -> Prop :=
| step_package p pkg input : step p (set_table (snd (ApplyPrsPackage p pkg input)) p)
| step_exchange p rows now : step p (exchange p (rows, now))
| step_clear p : step p (ClearLaneStrategyMap p)
| step_lane p i l s : s <> 0 -> step p (SetLaneStrategy i l s p).

Definition processor_ok (p : Processor) : Prop := table_ok (table p) /\ strategies_ok p.

Lemma processor_ok_new : processor_ok Processor_new.
Proof. split; [|done]. split; [done| |constructor]. by apply Forall_replicate. Qed.

Lemma step_ok `{StdSort} p q : step p q -> processor_ok p -> processor_ok q.
Proof.
  intros Hs [Hok Hst]. destruct Hs as [p pkg input|p rows now|p|p i l s Hs].
  - split; [by apply table_ok_package|done].
  - split; [by apply table_ok_exchange|]. unfold exchange, ApplyCoStatusUpdates, strategies_ok.
    by destruct (apply_rows _ _ _ _).
  - by split.
  - split; [done|]. by apply map_Forall_insert_2.
Qed.

(** In every table the server can reach, through requests, exchanges and
    changes of the strategies in any order, there are ten rows, a free row has
    the default contents, and no two rows hold the same request. *)
Theorem table_invariant `{StdSort} p : rtc step Processor_new p -> table_ok (table p).
Proof.
  intros Hr. enough (processor_ok p) as [? _] by done. pose proof processor_ok_new as H0'.
  induction Hr as [|p q r Hs _ IH]; [done|]. apply IH. by eapply step_ok.
Qed.

Lemma mark_overridden_skip input skip t : forall i j,
  (i + j = skip)%nat -> fst (mark_overridden input skip i t) !! j = t !! j.
Proof.
  induction t as [|e t IH]; intros i j Hij; cbn [mark_overridden]; [done|].
  pose proof (IH (S i)) as IH'. destruct (mark_overridden input skip (S i) t) as [t2 b].
  destruct j as [|j].
  - rewrite Nat.add_0_r in Hij. subst i. rewrite Nat.eqb_refl. done.
  - replace (Nat.eqb i skip) with false by (symmetry; apply Nat.eqb_neq; lia). cbn.
    specialize (IH' j ltac:(lia)). by destruct (overridden input e).
Qed.

(** A request for a lane with a strategy is refused only when the table
    has neither a free row nor a row with the same request, and then nothing
    changes; otherwise the row the result names holds the request with the new
    times and sequence number, queued if it is new and not within the
    reservice period. *)
Theorem request_outcome p pkg input s tsd ted :
  LookupStrategy p (pkg_intersection pkg) (inbound_lane pkg) = Some s ->
  global_times pkg input = (tsd, ted) ->
  let rid := u8 (pkg_requestID pkg) in
  let r := fst (ApplyPrsPackage p pkg input) in
  let t := snd (ApplyPrsPackage p pkg input) in
  match action r with
  | TableFull => t = table p
      /\ Forall (fun e => is_idle e = false /\ same_request rid input (Some s) e = false) (table p)
  | act => exists e, t !! slotIndex r = Some e /\ same_request rid input (Some s) e = true
      /\ timeOfServiceDesiredInPRS e = tsd /\ timeOfEstimatedDepartureInPRS e = ted
      /\ sequenceNumber e = in_newSeq input
      /\ match act with
         | Inserted => statusInPRS e = readyQueued /\ reservice_locked p input = false
         | Rejected => statusInPRS e = reserviceError /\ reservice_locked p input = true
         | _ => True
         end
  end.
Proof.
  intros Hs Ht rid r t. subst r t. unfold ApplyPrsPackage. rewrite Ht, Hs. fold rid.
  destruct (find_if (same_request rid input (Some s)) (table p)) as [i|] eqn:Ef.
  { apply find_if_spec in Ef as (e & Hi & Hsame). cbn [fst snd action slotIndex].
    exists (update_entry tsd ted (in_newSeq input) e). split; [by rewrite list_lookup_alter_eq, Hi|]. by split_all. }
  destruct (find_if is_idle (table p)) as [i|] eqn:Ei.
  2: { cbn. split; [done|]. apply find_if_None in Ef, Ei. rewrite !Forall_forall in *. auto. }
  apply find_if_spec in Ei as (e & Hi & _).
  assert (forall status, status <> idleNotValid -> exists e',
    alter (store_entry pkg input tsd ted (Some s) status) i (table p) !! i = Some e'
    /\ same_request rid input (Some s) e' = true /\ timeOfServiceDesiredInPRS e' = tsd
    /\ timeOfEstimatedDepartureInPRS e' = ted /\ sequenceNumber e' = in_newSeq input
    /\ statusInPRS e' = status) as Hstore.
  { intros status Hne. exists (store_entry pkg input tsd ted (Some s) status e).
    split; [by rewrite list_lookup_alter_eq, Hi|]. split; [|by split_all].
    unfold same_request. cbn. rewrite bool_decide_eq_false_2 by done.
    by rewrite !Z.eqb_refl, bool_decide_eq_true_2. }
  destruct (reservice_locked p input).
  { destruct (Hstore reserviceError) as (e' & ?); [done|]. exists e'. cbn [fst snd action slotIndex]. by split_all. }
  destruct (Hstore readyQueued) as (e' & He' & Hrest); [done|].
  destruct (negb (in_prsBusy input)).
  { exists e'. cbn [fst snd action slotIndex]. by split_all. }
  pose proof (mark_overridden_skip input i (alter (store_entry pkg input tsd ted (Some s) readyQueued) i (table p)) 0 i eq_refl) as Hm.
  destruct (mark_overridden input i 0 _) as [t' b]. cbn [fst snd action slotIndex] in *.
  exists e'. rewrite Hm. by split_all.
Qed.

(** Across the end of the year the estimated time of arrival is off: the
    offset wraps by a mean year of 525960 minutes, whereas a year has 525600 or
    527040, so the request lies six hours too late or eighteen hours too
    early. *)
Theorem eta_year_end minutes_of_year eta_min eta_ms now_min now_ms :
  (minutes_of_year = 525600 \/ minutes_of_year = 527040) ->
  let true_offset := (minutes_of_year + eta_min) * 60000 + eta_ms - (now_min * 60000 + now_ms) in
  0 <= true_offset < 15000000000 ->
  ComputeEtaOffsetMs eta_min eta_ms now_min now_ms
  = true_offset + (if minutes_of_year =? 525600 then 6 * 3600000 else - (18 * 3600000)).
Proof.
  intros Hy true_offset Ht. unfold ComputeEtaOffsetMs, YEAR_MS.
  change (Z.quot (- (525960 * 60 * 1000)) 2) with (- 15778800000). subst true_offset.
  destruct Hy as [-> | ->]; cbn [Z.eqb Pos.eqb];
    match goal with |- context [?a <? ?b] => destruct (Z.ltb_spec a b) end; lia.
Qed.

Lemma length_vehicle_field v : length (vehicle_field v) = VEHICLE_ID_FIELD_SIZE.
Proof.
  unfold vehicle_field. rewrite length_app, length_replicate, length_take.
  unfold VEHICLE_ID_FIELD_SIZE. lia.
Qed.
Lemma length_EncodePriorityRequest a b c d e f g h :
  length (EncodePriorityRequest a b c d e f g h) = PRIORITY_REQUEST_SIZE.
Proof. unfold EncodePriorityRequest. by rewrite !length_app, length_vehicle_field. Qed.
Lemma length_EncodePriorityCancel a b c d e :
  length (EncodePriorityCancel a b c d e) = PRIORITY_CANCEL_SIZE.
Proof. unfold EncodePriorityCancel. by rewrite !length_app, length_vehicle_field. Qed.

(** A request is forwarded to a controller exactly when its times fit the
    16-bit seconds of the message, its lane has a strategy and the
    intersection has a controller; then a cancellation goes out as one, an
    update goes out only for a request that is tracked, and a request that is
    neither goes out as an update exactly while the tracked one is not
    canceled. *)
Theorem prg_package tracked configured p pkg input :
  let key := tracker_key input (u8 (pkg_requestID pkg)) (pkg_intersection pkg) in
  match outcome (BuildPrgPackage tracked configured p pkg input) with
  | Send snd_ =>
      (exists times s, prg_times pkg input = Some times
        /\ LookupStrategy p (pkg_intersection pkg) (inbound_lane pkg) = Some s
        /\ tr_strategyNumber (trackerEntry snd_) = s)
      /\ pkg_intersection pkg ∈ configured
      /\ sr_rejected (signalRequest (BuildPrgPackage tracked configured p pkg input)) = false
      /\ trackerKey snd_ = key
      /\ (isCancel snd_ = true <-> pkg_requestType pkg = PriorityRequestType_priorityCancellation)
      /\ length (encodedPayload snd_) = (if isCancel snd_ then PRIORITY_CANCEL_SIZE else PRIORITY_REQUEST_SIZE)
      /\ (targetOID snd_ = PRIORITY_UPDATE_ABSOLUTE_OID <->
          isCancel snd_ = false /\ exists r, tracked !! key = Some r
            /\ (pkg_requestType pkg = PriorityRequestType_priorityRequestUpdate \/ tr_state r = sent))
  | _ => sr_rejected (signalRequest (BuildPrgPackage tracked configured p pkg input)) = true
      /\ (prg_times pkg input = None
          \/ LookupStrategy p (pkg_intersection pkg) (inbound_lane pkg) = None
          \/ pkg_intersection pkg ∉ configured)
  end.
Proof.
  intros key. unfold BuildPrgPackage. fold key.
  destruct (prg_times pkg input) as [[service depart]|]; cbn [default id]; [|by split; [|left]].
  destruct (LookupStrategy p _ _) as [s|]; [|by split; [|right; left]].
  case_bool_decide as Hc; cbn [negb]; [|by split; [|right; right]].
  unfold prg_payload. destruct (Z.eqb_spec (pkg_requestType pkg) PriorityRequestType_priorityCancellation) as [Ec|Ec];
    [|destruct (Z.eqb_spec (pkg_requestType pkg) PriorityRequestType_priorityRequestUpdate) as [Eu|Eu]];
    cbn [outcome trackerEntry tr_strategyNumber signalRequest sr_rejected trackerKey isCancel encodedPayload targetOID].
  - rewrite length_EncodePriorityCancel. split; [by eauto|]. do 3 (split; [done|]). split; [by split|]. split; [done|]. split; [done|]. by intros [? _].
  - destruct (tracked !! key) as [r|];
      cbn [outcome trackerEntry tr_strategyNumber signalRequest sr_rejected trackerKey isCancel encodedPayload targetOID];
      unfold EncodePriorityUpdate; rewrite length_EncodePriorityRequest; (split; [by eauto|]); do 3 (split; [done|]); (split; [by split|]); (split; [done|]); split; try done.
    + intros _. split; [done|]. exists r. by split; [|left].
    + by intros [_ (r & ? & _)].
  - destruct (tracked !! key) as [r|]; [case_bool_decide as Es|];
      cbn [outcome trackerEntry tr_strategyNumber signalRequest sr_rejected trackerKey isCancel encodedPayload targetOID];
      unfold EncodePriorityUpdate; rewrite length_EncodePriorityRequest; (split; [by eauto|]); do 3 (split; [done|]); (split; [by split|]); (split; [done|]); split; try done.
    + intros _. split; [done|]. exists r. by split; [|right].
    + intros [_ (r' & [= <-] & [?|?])]; done.
    + by intros [_ (r & ? & _)].
Qed.
End new_requests.

(** * Exchanges *)
Section exchange_facts.
Context {W : Type} `{Controller W} `{StdSort}.

Lemma send_if_changed_spec data ctx w :
  let '(ok, ctx', w') := send_if_changed data ctx w in
  processor ctx' = processor ctx /\ prsBusy ctx' = prsBusy ctx
  /\ (ok = true -> lastSentServiceRequest ctx' = data)
  /\ (ok = false -> ctx' = ctx /\ data <> lastSentServiceRequest ctx).
Proof.
  unfold send_if_changed. case_bool_decide as E; [by subst|].
  by destruct (co_set data w) as [[] w'].
Qed.

Lemma poll_rows n : forall busy rows w,
  let '(err, busy', rows', w') := poll n busy rows w in
  err = false -> busy = true -> busy' = false ->
  exists data w1, co_get w1 = (Some data, w') /\ DecodeCoServiceResponse data = Some (rows', false).
Proof.
  induction n as [|n IH]; intros busy rows w; cbn [poll]; [by intros _ -> |].
  destruct busy; cbn [andb]; [|done]. destruct (co_running w); [|done].
  destruct (co_get w) as [[data|] w1] eqn:Eg; [|done].
  destruct (DecodeCoServiceResponse data) as [[rows1 busy1]|] eqn:Ed; [|done].
  specialize (IH busy1 rows1 (if busy1 then co_sleep 10 w1 else w1)).
  destruct busy1.
  - destruct (poll n true rows1 (co_sleep 10 w1)) as [[[err busy'] rows'] w']. auto.
  - destruct n as [|n]; cbn [poll andb] in *; eauto.
Qed.

(** An exchange that fails before the controller has answered leaves the
    table as it is; one that gets an answer applies the controller's rows and
    prioritizes; and after a successful one the controller has been sent
    exactly the table that results. *)
Theorem exchange_outcome ctx w :
  let '(res, ctx', w') := DoOneServiceExchange ctx w in
  (processor ctx' = processor ctx /\ res <> Ok
   \/ exists w1 w2 data rows now, co_get w1 = (Some data, w2)
      /\ DecodeCoServiceResponse data = Some (rows, false)
      /\ processor ctx' = exchange (processor ctx) (rows, now) /\ prsBusy ctx' = false
      /\ (res = Ok \/ res = SnmpSetFailed
            /\ EncodeServiceRequest (table (processor ctx')) false <> lastSentServiceRequest ctx'))
  /\ (res = Ok -> lastSentServiceRequest ctx' = EncodeServiceRequest (table (processor ctx')) false)
  /\ (res = CoError \/ res = CoStillBusy ->
      lastSentServiceRequest ctx' = EncodeServiceRequest (table (processor ctx')) (prsBusy ctx')).
Proof.
  unfold DoOneServiceExchange.
  pose proof (send_if_changed_spec (EncodeServiceRequest (table (processor ctx)) (prsBusy ctx)) ctx w) as H1.
  destruct (send_if_changed _ ctx w) as [[ok ctx1] w1]. destruct H1 as (Hp & Hb & Hok & Hno).
  destruct ok; cbn [negb].
  2: { destruct (Hno eq_refl) as [-> _]. split; [by left|]. split; [done|]. by intros [|]. }
  specialize (Hok eq_refl).
  pose proof (poll_rows 3 true (replicate MAX_SERVICE_REQUESTS (mkRow 0 0 0 idleNotValid)) w1) as Hpoll.
  destruct (poll 3 true _ w1) as [[[err busy] rows] w2].
  destruct err; [split; [by left|]; split; [done|]; by rewrite Hok, Hp, Hb|].
  destruct busy; [split; [by left|]; split; [done|]; by rewrite Hok, Hp, Hb|].
  destruct Hpoll as (data & w3 & Hget & Hdec); [done..|].
  set (now := u32 (co_seconds w2)).
  set (p := RunPrioritizationProcessing now (ApplyCoStatusUpdates rows now (processor ctx1))).
  pose proof (send_if_changed_spec (EncodeServiceRequest (table p) false)
                (mkContext p (lastSentServiceRequest ctx1) false) w2) as H2.
  destruct (send_if_changed _ _ w2) as [[ok2 ctx2] w4]. destruct H2 as (Hp2 & Hb2 & Hok2 & Hno2).
  cbn [processor] in Hp2. split; [right; exists w3, w2, data, rows, now|].
  - rewrite Hp2, <- Hp. repeat (split; [done|]). destruct ok2; [by left|right].
    destruct (Hno2 eq_refl) as [-> ?]. done.
  - rewrite Hp2. destruct ok2; [|by split; [|intros [|]]]. split; [|by intros [|]]. auto.
Qed.

Lemma DoOneServiceExchange_processor ctx w :
  let ctx' := snd (fst (DoOneServiceExchange ctx w)) in
  processor ctx' = processor ctx \/ exists rows now, processor ctx' = exchange (processor ctx) (rows, now).
Proof.
  unfold DoOneServiceExchange.
  pose proof (send_if_changed_spec (EncodeServiceRequest (table (processor ctx)) (prsBusy ctx)) ctx w) as H1.
  destruct (send_if_changed _ ctx w) as [[ok ctx1] w1]. destruct H1 as (Hp & _).
  destruct ok; cbn [negb]; [|by left]. destruct (poll 3 true _ w1) as [[[err busy] rows] w2].
  destruct err; [by left|]. destruct busy; [by left|].
  set (p := RunPrioritizationProcessing _ _).
  pose proof (send_if_changed_spec (EncodeServiceRequest (table p) false)
                (mkContext p (lastSentServiceRequest ctx1) false) w2) as H2.
  destruct (send_if_changed _ _ w2) as [[ok2 ctx2] w4]. destruct H2 as (Hp2 & _).
  right. exists rows, (u32 (co_seconds w2)). cbn [fst snd]. rewrite Hp2. cbn [processor]. subst p. by rewrite Hp.
Qed.
End exchange_facts.

(** * Witnesses *)
Definition sample_J2735 : J2735 := {|
  IntersectionAccessPoint_PR_lane := 1; IntersectionAccessPoint_PR_approach := 2;
  PriorityRequestType_priorityRequestUpdate := 2; PriorityRequestType_priorityCancellation := 3 |}.
Definition sample_processor : Processor := SetLaneStrategy 9709 8 5 Processor_new.
Definition sample_package : SignalRequestPackage := mkPackage 7 9709 1 1 8 0 (Some 101) (Some 0) None.
Definition sample_input : PrsPackageInput :=
  mkPrsInput [1; 2; 3; 4] 3 1 12 1 100 0 1700000000 (replicate 10 0) 600 30 45 false.

Lemma table_invariant_witness :
  table_ok (snd (@ApplyPrsPackage sample_J2735 sample_processor sample_package sample_input)).
Proof.
  apply (@table_invariant sample_J2735 insertion_StdSort
    (set_table (snd (@ApplyPrsPackage sample_J2735 sample_processor sample_package sample_input)) sample_processor)).
  eapply rtc_l; [apply step_lane|apply rtc_once, step_package]. done.
Defined.

Lemma request_outcome_witness :
  let r := @ApplyPrsPackage sample_J2735 sample_processor sample_package sample_input in
  exists e, snd r !! 0%nat = Some e /\ timeOfServiceDesiredInPRS e = 1700000060 /\ statusInPRS e = readyQueued.
Proof.
  destruct (@request_outcome sample_J2735 sample_processor sample_package sample_input 5 1700000060 1700000060
              eq_refl eq_refl) as (e & He & _ & Ht & _ & _ & Hs & _).
  exists e. split; [exact He|]. by split.
Defined.

Lemma eta_year_end_witness :
  ComputeEtaOffsetMs 1 0 525599 0 = 120000 + 6 * 3600000.
Proof. apply (eta_year_end 525600 1 0 525599 0); [by left|vm_compute; by split]. Defined.
End Requests.
