(* ===== verification/Ssm.v ===== *)
(** The signal status messages of the priority plugin,
    [src/src/v2i-hub/PriorityPlugin/src/SsmBuilder.cpp]: which rows of the
    priority request table are reported, how the reports are grouped and
    numbered, and what a report says. The generated J2735 structures are
    records with the fields the code sets; a null pointer is [None]. *)
From stdpp Require Import pretty.
From Stdlib Require Import Ascii Sorting.Permutation Sorting.Sorted.
From S2P Require Import Prelude Text OrdMap PriorityTable PriorityRequests.
Import Priority Requests.
Open Scope Z_scope.

(** The numbers of the generated enumeration, and the size of [StationID_t]. *)
Class SsmNumbers := {
  PrioritizationResponseStatus_unknown : Z;
  PrioritizationResponseStatus_requested : Z;
  PrioritizationResponseStatus_processing : Z;
  PrioritizationResponseStatus_watchOtherTraffic : Z;
  PrioritizationResponseStatus_granted : Z;
  PrioritizationResponseStatus_rejected : Z;
  PrioritizationResponseStatus_maxPresence : Z;
  PrioritizationResponseStatus_reserviceLocked : Z;
  sizeof_StationID : nat
}.

Module Ssm.
(** * Data *)
Inductive VehicleID := VehicleID_nothing | VehicleID_stationID (v : Z) | VehicleID_entityID (buf : list Z).

Record SignalRequesterInfo := mkRequester {
  ri_id : VehicleID; ri_request : Z; ri_sequenceNumber : Z; ri_role : Z }.
Record SignalStatusPackage := mkStatusPackage {
  sp_requester : SignalRequesterInfo;
  sp_inboundPresent : Z; sp_inboundChoice : Z;
  sp_minute : option Z; sp_second : option Z; sp_duration : option Z; sp_status : Z }.
Record SignalStatus := mkSignalStatus {
  ss_id : Z; ss_sequenceNumber : Z; ss_sigStatus : list SignalStatusPackage }.
Record SignalStatusMessage := mkSsm {
  ssm_timeStamp : Z; ssm_second : Z; ssm_sequenceNumber : Z; ssm_status : list SignalStatus }.

Record SsmBroadcastState := mkState {
  ssmSequenceCounter : Z;
  signalStatusSeqByIntersection : gmap Z Z;
  lastSignalStatusKey : gmap Z string }.

(** * Vehicle identifiers *)
(** The bytes of a number in memory, least significant first. *)
Fixpoint le_bytes (n : nat) (v : Z) : list Z :=
  match n with O => [] | S n => u8 v :: le_bytes n (Z.shiftr v 8) end.
Fixpoint le_value (l : list Z) : Z :=
  match l with [] => 0 | b :: l => b + 256 * le_value l end.

Section builder.
Context {NW : SsmNumbers} {NJ : J2735}.

Definition ExtractVehicleID (id : VehicleID) : list Z :=
  match id with
  | VehicleID_entityID buf => buf
  | VehicleID_stationID v => le_bytes sizeof_StationID v
  | VehicleID_nothing => []
  end.
Definition SetRequesterVehicleID (vehicleID : list Z) : VehicleID :=
  if Nat.eqb (length vehicleID) sizeof_StationID then VehicleID_stationID (le_value vehicleID)
  else match vehicleID with
       | [] => VehicleID_nothing
       | _ => VehicleID_entityID vehicleID
       end.

(** * One report *)
Definition EffectiveStatus (e : PriorityRequestEntry) : RequestStatus :=
  if IsActiveX (statusInCO e) then statusInCO e else statusInPRS e.

Definition MapNTCIPstatusToSSM (status : RequestStatus) : Z :=
  match status with
  | readyQueued => PrioritizationResponseStatus_requested
  | readyOverridden | activeOverride => PrioritizationResponseStatus_processing
  | activeProcessing | activeAdjustNotNeeded | activeNotOverridden | closedCompleted =>
      PrioritizationResponseStatus_granted
  | activeCancel | closedCanceled => PrioritizationResponseStatus_watchOtherTraffic
  | closedTimerError | closedStrategyError | closedFlash => PrioritizationResponseStatus_rejected
  | closedTimeToLiveError => PrioritizationResponseStatus_maxPresence
  | reserviceError => PrioritizationResponseStatus_reserviceLocked
  | _ => PrioritizationResponseStatus_unknown
  end.

(** The member of the union [inboundOn.choice] that is set. *)
Definition inbound_choice (present value : Z) : Z :=
  if present =? IntersectionAccessPoint_PR_lane then value
  else if present =? IntersectionAccessPoint_PR_approach then value
  else 0.

Definition MakeStatusPackage (requestID srmSequenceNumber : Z) (vehicleID : list Z) (role : Z)
    : SignalRequesterInfo :=
  mkRequester (SetRequesterVehicleID vehicleID) requestID srmSequenceNumber role.

Definition table_package (entry : PriorityRequestEntry) : SignalStatusPackage :=
  let tsd := timeOfServiceDesiredInPRS entry in
  let ted := timeOfEstimatedDepartureInPRS entry in
  mkStatusPackage
    (MakeStatusPackage (requestID entry) (sequenceNumber entry) (vehicleID entry) (role entry))
    (inboundPresent entry) (inbound_choice (inboundPresent entry) (inboundValue entry))
    (if 0 <? tsd then Some (minute_of_year tsd) else None)
    (if 0 <? tsd then Some (tm_sec tsd * 1000) else None)
    (if tsd <? ted then Some (u32 ((ted - tsd) * 1000)) else None)
    (MapNTCIPstatusToSSM (EffectiveStatus entry)).

(** * Groups and their numbers *)
(** [byIntersection[key(a)].push_back(a)] for every element in turn. *)
Definition group_by {A : Type} (key : A -> Z) (l : list A) : list (Z * list A) :=
  fold_left (fun m a => OrdMap.insert (key a) (default [] (OrdMap.find (key a) m) ++ [a]) m) l [].

(** The number of the next status of an intersection: a new one when the key of
    the contents has changed. *)
Definition next_number (intID : Z) (currentSeqKey : string) (s : SsmBroadcastState)
    : Z * SsmBroadcastState :=
  let '(seqs, keys) :=
    if bool_decide (lastSignalStatusKey s !! intID = Some currentSeqKey)
    then (signalStatusSeqByIntersection s, lastSignalStatusKey s)
    else (<[intID := u8 (default 0 (signalStatusSeqByIntersection s !! intID) + 1)]>
            (signalStatusSeqByIntersection s),
          <[intID := currentSeqKey]> (lastSignalStatusKey s)) in
  let number := default 0 (seqs !! intID) in
  (number, mkState (ssmSequenceCounter s) (<[intID := number]> seqs) keys).

Fixpoint build_statuses {A : Type} (key_of : list A -> string) (package_of : A -> SignalStatusPackage)
    (groups : list (Z * list A)) (s : SsmBroadcastState) : list SignalStatus * SsmBroadcastState :=
  match groups with
  | [] => ([], s)
  | (intID, entries) :: groups =>
      let '(number, s) := next_number intID (key_of entries) s in
      let '(rest, s) := build_statuses key_of package_of groups s in
      (mkSignalStatus intID number (map package_of entries) :: rest, s)
  end.

(** The fields of one element of a key, as the stream writes them. *)
Definition key_text (id b c d e f g : Z) : string :=
  pretty id +:+ "," +:+ pretty b +:+ "," +:+ pretty c +:+ "," +:+ pretty d +:+ ","
    +:+ pretty e +:+ "," +:+ pretty f +:+ "," +:+ pretty g +:+ ";".
Definition entry_key (entry : PriorityRequestEntry) : string :=
  key_text (requestID entry) (status_code (EffectiveStatus entry)) (sequenceNumber entry)
    (timeOfServiceDesiredInPRS entry) (timeOfEstimatedDepartureInPRS entry)
    (inboundPresent entry) (inboundValue entry).
Definition concat_text (l : list string) : string := foldr String.append "" l.

(** Counting a message. *)
Definition count_ssm (s : SsmBroadcastState) : SsmBroadcastState :=
  mkState (u8 (ssmSequenceCounter s + 1)) (signalStatusSeqByIntersection s) (lastSignalStatusKey s).

(** * From the table *)
Definition set_ssm (count : Z) (status : RequestStatus) (e : PriorityRequestEntry) : PriorityRequestEntry :=
  mkEntry (requestID e) (vehicleID e) (vehicleClassType e) (vehicleClassLevel e) (serviceStrategyNumber e)
    (timeOfServiceDesiredInPRS e) (timeOfEstimatedDepartureInPRS e) (timeOfMessage e) (timeToLive e)
    (statusInPRS e) (statusInCO e) (intersectionID e) (sequenceNumber e) (role e) count
    status (inboundPresent e) (inboundValue e).

(** The entry after the first loop, and whether it is reported. *)
Definition count_entry (maxBroadcastsPerStatus : Z) (entry : PriorityRequestEntry)
    : PriorityRequestEntry * bool :=
  if bool_decide (statusInPRS entry = idleNotValid) then (entry, false)
  else
    let effStatus := EffectiveStatus entry in
    let entry := if bool_decide (effStatus = ssmLastStatus entry) then entry
                 else set_ssm 0 effStatus entry in
    if maxBroadcastsPerStatus <=? ssmBroadcastCount entry then (entry, false)
    else (set_ssm (u8 (ssmBroadcastCount entry + 1)) (ssmLastStatus entry) entry, true).

Definition counted (cap : Z) (t : list PriorityRequestEntry) : list PriorityRequestEntry :=
  map (fun e => fst (count_entry cap e)) t.
Definition reported (cap : Z) (t : list PriorityRequestEntry) : list PriorityRequestEntry :=
  omap (fun e => let '(e', b) := count_entry cap e in if b : bool then Some e' else None) t.

Definition BuildSsmFromTable (t : list PriorityRequestEntry) (maxBroadcastsPerStatus nowEpoch : Z)
    (s : SsmBroadcastState)
    : option SignalStatusMessage * list PriorityRequestEntry * SsmBroadcastState :=
  let t' := counted maxBroadcastsPerStatus t in
  match group_by intersectionID (reported maxBroadcastsPerStatus t) with
  | [] => (None, t', s)
  | byIntersection =>
      let s := count_ssm s in
      let number := ssmSequenceCounter s in
      let '(statuses, s) :=
        build_statuses (fun es => concat_text (map entry_key es)) table_package byIntersection s in
      (Some (mkSsm (minute_of_year nowEpoch) (tm_sec nowEpoch * 1000) number statuses), t', s)
  end.

(** * From the requests of one vehicle *)
Record RequestorState := mkRequestor {
  rs_vehicleID : list Z; rs_classType : Z; rs_sequenceNumber : Z; rs_timeOfRequest : Z;
  rs_requests : list SignalRequest; rs_role : Z }.

Definition srm_request_key (state : RequestorState) (req : SignalRequest) : string :=
  key_text (sr_requestID req) (if sr_rejected req then 1 else 0) (rs_sequenceNumber state)
    (sr_timeOfService req) (sr_timeOfDepart req) (sr_inboundPresent req) (sr_inboundValue req).

Definition request_package (state : RequestorState) (nowEpoch estimatedArrivalTime estimatedDepartureTime : Z)
    (req : SignalRequest) : SignalStatusPackage :=
  let fallbackEta := nowEpoch + estimatedArrivalTime in
  mkStatusPackage
    (MakeStatusPackage (sr_requestID req) (rs_sequenceNumber state) (rs_vehicleID state) (rs_role state))
    (sr_inboundPresent req) (inbound_choice (sr_inboundPresent req) (sr_inboundValue req))
    (Some (if 0 <? sr_etaMinute req then sr_etaMinute req else minute_of_year fallbackEta))
    (Some (if 0 <? sr_etaSecond req then sr_etaSecond req else tm_sec fallbackEta * 1000))
    (Some (if 0 <? sr_duration req then sr_duration req
           else (if estimatedArrivalTime <? estimatedDepartureTime
                 then estimatedDepartureTime - estimatedArrivalTime
                 else estimatedDepartureTime) * 1000))
    (if sr_rejected req then PrioritizationResponseStatus_rejected
     else if sr_requestType req =? PriorityRequestType_priorityCancellation
     then PrioritizationResponseStatus_watchOtherTraffic
     else PrioritizationResponseStatus_processing).

Definition BuildSsmFromRequestor (state : RequestorState) (nowMs : Z)
    (estimatedArrivalTime estimatedDepartureTime : Z) (s : SsmBroadcastState)
    : option SignalStatusMessage * SsmBroadcastState :=
  match rs_requests state with
  | [] => (None, s)
  | requests =>
      let nowEpoch := nowMs / 1000 in
      let s := count_ssm s in
      let number := ssmSequenceCounter s in
      let '(statuses, s) :=
        build_statuses (fun rs => concat_text (map (srm_request_key state) rs))
          (request_package state nowEpoch estimatedArrivalTime estimatedDepartureTime)
          (group_by sr_intersectionID requests) s in
      (Some (mkSsm (minute_of_year nowEpoch) (tm_sec nowEpoch * 1000 + nowMs mod 1000) number statuses), s)
  end.

(** * Vehicle identifiers, there and back *)
Lemma le_bytes_value n v : 0 <= v < 2 ^ (8 * Z.of_nat n) -> le_value (le_bytes n v) = v.
Proof.
  revert v. induction n as [|n IH]; intros v Hv; cbn [le_bytes le_value]; [cbn in Hv; lia|].
  rewrite Nat2Z.inj_succ, Z.mul_succ_r, Z.pow_add_r in Hv by lia. change (2 ^ 8) with 256 in Hv.
  rewrite IH; rewrite Z.shiftr_div_pow2 by lia; change (2 ^ 8) with 256.
  - unfold wrapu. change (2 ^ 8) with 256. pose proof (Z.div_mod v 256). lia.
  - split; [apply Z.div_pos; lia|]. apply Z.div_lt_upper_bound; lia.
Qed.

Lemma length_le_bytes n v : length (le_bytes n v) = n.
Proof. revert v. induction n as [|n IH]; intros v; cbn; [done|]. by rewrite IH. Qed.

(** * Groups *)
Section groups.
Context {A : Type} (key : A -> Z).
Definition of_key (k : Z) (l : list A) : list A := filter (fun a => key a = k) l.

Lemma group_by_snoc l a :
  group_by key (l ++ [a]) =
  OrdMap.insert (key a) (default [] (OrdMap.find (key a) (group_by key l)) ++ [a]) (group_by key l).
Proof. unfold group_by. by rewrite fold_left_app. Qed.

Lemma group_by_spec l :
  OrdMap.sorted (group_by key l)
  /\ forall k, OrdMap.find k (group_by key l)
       = match of_key k l with [] => None | es => Some es end.
Proof.
  induction l as [|a l [IHs IHf]] using rev_ind; [by split; [constructor|]|].
  rewrite group_by_snoc. split; [by apply OrdMap.sorted_insert|].
  intros k. rewrite OrdMap.find_insert, !IHf. unfold of_key. rewrite filter_app, filter_cons, filter_nil.
  destruct (OrdMap.keqb k (key a)) eqn:Ek.
  - apply OrdMap.keqb_spec in Ek as ->. rewrite decide_True by done.
    by destruct (filter (fun b => key b = key a) l).
  - apply OrdMap.keqb_false in Ek. rewrite decide_False by congruence. by rewrite app_nil_r.
Qed.

Lemma group_by_elem l k es :
  (k, es) ∈ group_by key l <-> es = of_key k l /\ es <> [].
Proof.
  destruct (group_by_spec l) as [Hs Hf]. rewrite <- (OrdMap.find_elem _ _ _ Hs), Hf.
  destruct (of_key k l); naive_solver.
Qed.

Lemma group_by_nil l : group_by key l = [] <-> l = [].
Proof.
  split; [|by intros ->]. intros H. destruct l as [|a l]; [done|].
  assert ((key a, of_key (key a) (a :: l)) ∈ group_by key (a :: l)) as Hin.
  { apply group_by_elem. split; [done|]. unfold of_key. by rewrite filter_cons, decide_True. }
  rewrite H in Hin. by apply elem_of_nil in Hin.
Qed.

(** ** Numbers *)
Context (key_of : list A -> string) (package_of : A -> SignalStatusPackage).

Lemma next_number_spec id k s :
  let '(number, s') := next_number id k s in
  number = match lastSignalStatusKey s !! id with
           | Some k' => if String.eqb k' k then default 0 (signalStatusSeqByIntersection s !! id)
                        else u8 (default 0 (signalStatusSeqByIntersection s !! id) + 1)
           | None => u8 (default 0 (signalStatusSeqByIntersection s !! id) + 1)
           end
  /\ lastSignalStatusKey s' !! id = Some k
  /\ signalStatusSeqByIntersection s' !! id = Some number
  /\ ssmSequenceCounter s' = ssmSequenceCounter s
  /\ forall j, j <> id -> lastSignalStatusKey s' !! j = lastSignalStatusKey s !! j
       /\ signalStatusSeqByIntersection s' !! j = signalStatusSeqByIntersection s !! j.
Proof.
  unfold next_number. case_bool_decide as E.
  - rewrite E, String.eqb_refl. cbn. split_all; try done; [by rewrite lookup_insert_eq|].
    intros j Hj. by rewrite lookup_insert_ne.
  - cbn. rewrite !lookup_insert_eq. cbn. split_all; try done.
    + destruct (lastSignalStatusKey s !! id) as [k'|]; [|done].
      destruct (String.eqb_spec k' k) as [->|]; done.
    + intros j Hj. by rewrite !lookup_insert_ne.
Qed.

Lemma build_statuses_spec groups : forall s,
  NoDup (map fst groups) ->
  let '(sts, s') := build_statuses key_of package_of groups s in
  Forall2 (fun g st => ss_id st = fst g /\ ss_sigStatus st = map package_of (snd g)
    /\ ss_sequenceNumber st = fst (next_number (fst g) (key_of (snd g)) s)
    /\ lastSignalStatusKey s' !! fst g = Some (key_of (snd g))
    /\ signalStatusSeqByIntersection s' !! fst g = Some (ss_sequenceNumber st)) groups sts
  /\ ssmSequenceCounter s' = ssmSequenceCounter s
  /\ forall j, j ∉ map fst groups -> lastSignalStatusKey s' !! j = lastSignalStatusKey s !! j
       /\ signalStatusSeqByIntersection s' !! j = signalStatusSeqByIntersection s !! j.
Proof.
  induction groups as [|[id es] groups IH]; intros s Hnd; cbn [build_statuses].
  { split_all; [constructor|done|done]. }
  inversion Hnd as [|? ? Hid Hnd']; subst. pose proof (next_number_spec id (key_of es) s) as Hn.
  destruct (next_number id (key_of es) s) as [number s1] eqn:En.
  destruct Hn as (_ & Hk & Hq & Hc & Ho). specialize (IH s1 Hnd').
  destruct (build_statuses key_of package_of groups s1) as [sts s2]. destruct IH as (Hf & Hc2 & Ho2).
  split; [|split; [congruence|]].
  - constructor.
    + cbn. rewrite En. destruct (Ho2 id Hid) as [-> ->]. by split_all.
    + rewrite Forall2_lookup in Hf |- *. intros i. specialize (Hf i).
      destruct (groups !! i) as [[id' es']|] eqn:Hg, (sts !! i) as [st|];
        inversion Hf as [? ? (Hi & Hp & Hnum & Hrest)|]; subst; constructor. cbn in *.
      split_all; try done. rewrite Hnum. pose proof (next_number_spec id' (key_of es') s1) as N1.
      pose proof (next_number_spec id' (key_of es') s) as N2.
      destruct (next_number id' (key_of es') s1), (next_number id' (key_of es') s).
      destruct N1 as [-> _], N2 as [-> _]. destruct (Ho id') as [-> ->]; [|done].
      intros E. apply Hid. rewrite <- E. apply (list_elem_of_fmap_2' fst _ (id', es')); [|done].
      by eapply list_elem_of_lookup_2.
  - intros j Hj. cbn in Hj. rewrite not_elem_of_cons in Hj. destruct Hj as [Hj1 Hj2].
    destruct (Ho2 j Hj2) as [-> ->]. by apply Ho.
Qed.
End groups.

(** ** Keys *)
Lemma key_text_inj id b c d e f g id' b' c' d' e' f' g' r r' :
  key_text id b c d e f g +:+ r = key_text id' b' c' d' e' f' g' +:+ r' ->
  (id, b, c, d, e, f, g) = (id', b', c', d', e', f', g') /\ r = r'.
Proof.
  unfold key_text. rewrite !string_app_assoc. intros H.
  do 7 (apply pretty_separator_inj in H as [-> H]; [|done]). by rewrite H.
Qed.

Lemma key_text_nonempty id b c d e f g r : key_text id b c d e f g +:+ r <> "".
Proof.
  unfold key_text. rewrite string_app_assoc. pose proof (proj2 (pretty_number id)).
  by destruct (pretty id).
Qed.

(** What the key of an entry holds; the vehicle is not part of it. *)
Definition contents (e : PriorityRequestEntry) : Z * RequestStatus * Z * Z * Z * Z * Z :=
  (requestID e, EffectiveStatus e, sequenceNumber e, timeOfServiceDesiredInPRS e,
   timeOfEstimatedDepartureInPRS e, inboundPresent e, inboundValue e).
Definition entries_key (es : list PriorityRequestEntry) : string := concat_text (map entry_key es).

Lemma entries_key_cons e es : entries_key (e :: es) = entry_key e +:+ entries_key es.
Proof. done. Qed.

Lemma entries_key_inj es es' : entries_key es = entries_key es' <-> map contents es = map contents es'.
Proof.
  revert es'. induction es as [|e es IH]; intros [|e' es']; rewrite ?entries_key_cons.
  - done.
  - split; [|done]. intros H. by apply symmetry, key_text_nonempty in H.
  - split; [|done]. intros H. by apply key_text_nonempty in H.
  - cbn [map]. split.
    + intros H. apply key_text_inj in H as [H Ht]. apply IH in Ht. rewrite Ht. f_equal.
      unfold contents. injection H as -> Hs -> -> -> -> ->. apply (f_equal status_of_code) in Hs. rewrite !status_code_inj in Hs. by rewrite Hs.
    + intros H. injection H as E1 E2 E3 E4 E5 E6 E7 Ht. apply IH in Ht. rewrite Ht. f_equal.
      unfold entry_key. by rewrite E1, E2, E3, E4, E5, E6, E7.
Qed.

(** ** The rows that are due *)
Definition due_row (cap : Z) (e : PriorityRequestEntry) : bool :=
  negb (bool_decide (statusInPRS e = idleNotValid))
  && ((if bool_decide (EffectiveStatus e = ssmLastStatus e) then ssmBroadcastCount e else 0) <? cap).
Definition due_at (cap id : Z) (t : list PriorityRequestEntry) : list PriorityRequestEntry :=
  filter (fun e => due_row cap e = true /\ intersectionID e = id) t.

Lemma count_entry_spec cap e :
  let '(e', b) := count_entry cap e in
  b = due_row cap e /\ contents e' = contents e /\ table_package e' = table_package e
  /\ intersectionID e' = intersectionID e /\ is_idle e' = is_idle e /\ (is_idle e = true -> e' = e)
  /\ Requests.request_key e' = Requests.request_key e.
Proof.
  unfold count_entry, due_row. case_bool_decide as Hi; cbn [negb andb].
  { by split_all. }
  assert (is_idle e = false) as He by by apply bool_decide_eq_false_2.
  case_bool_decide as Hs; rewrite Z.leb_antisym; cbn [ssmBroadcastCount set_ssm];
    destruct (_ <? cap); cbn [negb]; rewrite He; by split_all.
Qed.

Lemma reported_cons cap e t :
  reported cap (e :: t) = (if due_row cap e then [fst (count_entry cap e)] else []) ++ reported cap t.
Proof.
  unfold reported. cbn. pose proof (count_entry_spec cap e) as Hc.
  destruct (count_entry cap e) as [e' b]. destruct Hc as (-> & _). by destruct (due_row cap e).
Qed.

Lemma reported_due {B} (f : PriorityRequestEntry -> B) cap id t :
  (forall e, f (fst (count_entry cap e)) = f e) ->
  map f (of_key intersectionID id (reported cap t)) = map f (due_at cap id t).
Proof.
  intros Hf. induction t as [|e t IH]; [done|]. rewrite reported_cons.
  unfold of_key, due_at in *. rewrite filter_app, filter_cons, map_app, IH.
  pose proof (count_entry_spec cap e) as Hc. specialize (Hf e).
  destruct (count_entry cap e) as [e' b]. destruct Hc as (_ & _ & _ & Hid & _).
  destruct (due_row cap e); [|by rewrite decide_False by naive_solver]. cbn [fst] in *.
  rewrite filter_cons, filter_nil, Hid.
  destruct (decide (intersectionID e = id)).
  - rewrite decide_True by done. cbn. by rewrite Hf.
  - by rewrite decide_False by naive_solver.
Qed.

Lemma reported_nil cap t : reported cap t = [] <-> Forall (fun e => due_row cap e = false) t.
Proof.
  induction t as [|e t IH]; [by split|]. rewrite reported_cons, Forall_cons, <- IH.
  destruct (due_row cap e); naive_solver.
Qed.

Lemma BuildSsmFromTable_spec t cap now s :
  let '(m, t', s') := BuildSsmFromTable t cap now s in
  t' = counted cap t /\
  match m with
  | None => reported cap t = [] /\ s' = s
  | Some ssm =>
      reported cap t <> [] /\ ssm_sequenceNumber ssm = u8 (ssmSequenceCounter s + 1)
      /\ Forall2 (fun g st => ss_id st = fst g /\ ss_sigStatus st = map table_package (snd g)
           /\ ss_sequenceNumber st = fst (next_number (fst g) (entries_key (snd g)) (count_ssm s))
           /\ lastSignalStatusKey s' !! fst g = Some (entries_key (snd g))
           /\ signalStatusSeqByIntersection s' !! fst g = Some (ss_sequenceNumber st))
         (group_by intersectionID (reported cap t)) (ssm_status ssm)
      /\ ssmSequenceCounter s' = u8 (ssmSequenceCounter s + 1)
  end.
Proof.
  unfold BuildSsmFromTable. pose proof (group_by_nil intersectionID (reported cap t)) as Hn.
  destruct (group_by_spec intersectionID (reported cap t)) as [Hs _].
  pose proof (build_statuses_spec (fun es => concat_text (map entry_key es)) table_package
    (group_by intersectionID (reported cap t)) (count_ssm s) (OrdMap.sorted_NoDup _ Hs)) as Hb.
  destruct (group_by intersectionID (reported cap t)) as [|g groups]; [split; [done|]; split; [by apply Hn|done]|].
  destruct (build_statuses _ _ (g :: groups) (count_ssm s)) as [sts s']. destruct Hb as (Hf & Hc & _).
  split; [done|]. split; [intros E; by apply Hn in E|]. by split_all.
Qed.

Lemma Forall2_map_l {X Y Z'} (f : X -> Z') (g : Y -> Z') (P : X -> Y -> Prop) l k :
  (forall x y, P x y -> g y = f x) -> Forall2 P l k -> map g k = map f l.
Proof. intros HP. induction 1 as [|x y l k Hxy _ IH]; cbn; [done|]. by rewrite IH, (HP x y). Qed.


(** The sequence number of an intersection's status is incremented exactly
    when what is reported has changed since the last report of the
    intersection: the request, its status, its sequence number, its times or
    its lane, for any of the rows; it wraps at 256. *)
Theorem ssm_number_tracks_contents t cap now s before ssm t' s' st :
  BuildSsmFromTable t cap now s = (Some ssm, t', s') ->
  st ∈ ssm_status ssm ->
  lastSignalStatusKey s !! ss_id st = Some (entries_key before) ->
  let old := default 0 (signalStatusSeqByIntersection s !! ss_id st) in
  let es := due_at cap (ss_id st) t in
  ss_sequenceNumber st = (if bool_decide (map contents es = map contents before) then old else u8 (old + 1))
  /\ signalStatusSeqByIntersection s' !! ss_id st = Some (ss_sequenceNumber st)
  /\ lastSignalStatusKey s' !! ss_id st = Some (entries_key es).
Proof.
  intros E Hin Hlast old es. pose proof (BuildSsmFromTable_spec t cap now s) as Hb. rewrite E in Hb.
  destruct Hb as (_ & _ & _ & Hf & _). apply list_elem_of_lookup in Hin as [i Hi].
  destruct (Forall2_lookup_r _ _ _ _ _ Hf Hi) as ([k es'] & Hk & Hid & _ & Hnum & Hkey & Hseq). cbn [fst snd] in *. subst k.
  apply list_elem_of_lookup_2, group_by_elem in Hk as [-> _].
  assert (map contents (of_key intersectionID (ss_id st) (reported cap t)) = map contents es) as Hc.
  { apply reported_due. intros e. pose proof (count_entry_spec cap e) as H. destruct (count_entry cap e). apply H. }
  apply entries_key_inj in Hc as Hc'. rewrite Hc' in Hkey, Hnum. split; [|by split].
  pose proof (next_number_spec (ss_id st) (entries_key es) (count_ssm s)) as Hn.
  destruct (next_number _ _ _) as [number s1]. destruct Hn as [Hn _]. cbn [fst lastSignalStatusKey signalStatusSeqByIntersection count_ssm] in *. rewrite Hlast in Hn.
  rewrite Hnum, Hn. destruct (String.eqb_spec (entries_key before) (entries_key es)) as [Ek|Ek].
  - apply entries_key_inj in Ek. by rewrite bool_decide_eq_true_2.
  - rewrite bool_decide_eq_false_2; [done|]. intros Ec. apply Ek. by apply entries_key_inj.
Qed.

(** ** Successive messages *)
(** The reports of one row in successive messages: [gs] is the row at each
    message, whose counter and last status are those the message before left. *)
Fixpoint report_rounds (cap : Z) (gs : list PriorityRequestEntry) (count : Z) (last : RequestStatus)
    : list bool :=
  match gs with
  | [] => []
  | g :: gs =>
      let '(e, b) := count_entry cap (set_ssm count last g) in
      b :: report_rounds cap gs (ssmBroadcastCount e) (ssmLastStatus e)
  end.

Lemma report_rounds_same cap st : forall gs count,
  Forall (fun g => statusInPRS g <> idleNotValid /\ EffectiveStatus g = st) gs ->
  0 <= count -> cap <= 255 ->
  let k := Z.to_nat (cap - count) in
  report_rounds cap gs count st
  = replicate (Nat.min (length gs) k) true ++ replicate (length gs - k) false.
Proof.
  induction gs as [|g gs IH]; intros count Hgs Hc Hcap k; [done|].
  apply Forall_cons in Hgs as [[Hn He] Hgs]. cbn [report_rounds].
  unfold count_entry. cbn [statusInPRS set_ssm]. rewrite bool_decide_eq_false_2 by done.
  assert (EffectiveStatus (set_ssm count st g) = st) as E by done.
  rewrite E. cbn [ssmLastStatus set_ssm]. rewrite bool_decide_eq_true_2 by done.
  cbn [ssmBroadcastCount set_ssm length]. destruct (Z.leb_spec cap count).
  - assert (k = 0%nat) as -> by (subst k; lia). cbn [ssmLastStatus ssmBroadcastCount set_ssm].
    rewrite IH by done. replace (Z.to_nat (cap - count)) with 0%nat by lia.
    rewrite !Nat.min_0_r, !Nat.sub_0_r. done.
  - cbn [ssmLastStatus ssmBroadcastCount set_ssm]. rewrite u8_small by lia. rewrite IH by (done || lia).
    replace k with (S (Z.to_nat (cap - (count + 1)))) by (subst k; lia). done.
Qed.

(** As long as its status does not change, a row is reported in the next
    messages until the limit is reached and in none after that, whatever else
    of the row changes; a new status starts the count anew. *)
Theorem report_limit cap gs count last st :
  Forall (fun g => statusInPRS g <> idleNotValid /\ EffectiveStatus g = st) gs ->
  0 <= count -> 0 <= cap <= 255 ->
  let k := Z.to_nat (cap - if bool_decide (last = st) then count else 0) in
  report_rounds cap gs count last
  = replicate (Nat.min (length gs) k) true ++ replicate (length gs - k) false.
Proof.
  intros Hgs Hc Hcap. case_bool_decide as Hl; [subst; apply report_rounds_same; done || lia|].
  intros k. subst k. destruct gs as [|g gs]; [done|].
  rewrite <- (report_rounds_same cap st (g :: gs) 0 Hgs) by lia. cbn [report_rounds].
  apply Forall_cons in Hgs as [[Hn He] Hgs]. unfold count_entry. cbn [statusInPRS set_ssm].
  rewrite bool_decide_eq_false_2 by done.
  assert (forall c l, EffectiveStatus (set_ssm c l g) = st) as E by done.
  rewrite !E. cbn [ssmLastStatus set_ssm].
  by rewrite (bool_decide_eq_false_2 (st = last)) by congruence; rewrite (bool_decide_eq_true_2 (st = st)).
Qed.

(** ** The identity of the requester *)
(** The vehicle a report is addressed to is the vehicle that sent the
    request, for both forms of identifier; an entity identifier as long as a
    station number would be taken for one. *)
Theorem requester_roundtrip id :
  match id with
  | VehicleID_entityID buf => buf <> [] /\ length buf <> sizeof_StationID
  | VehicleID_stationID v => (0 < sizeof_StationID)%nat /\ 0 <= v < 2 ^ (8 * Z.of_nat sizeof_StationID)
  | VehicleID_nothing => (0 < sizeof_StationID)%nat
  end ->
  SetRequesterVehicleID (ExtractVehicleID id) = id.
Proof.
  unfold SetRequesterVehicleID. destruct id as [|v|buf]; cbn [ExtractVehicleID].
  - intros H. destruct (Nat.eqb_spec (length (A := Z) []) sizeof_StationID); cbn in *; [lia|done].
  - intros [_ Hv]. by rewrite length_le_bytes, Nat.eqb_refl, le_bytes_value.
  - intros [Hn Hl]. destruct (Nat.eqb_spec (length buf) sizeof_StationID); [done|]. by destruct buf.
Qed.

(** The rows of the table keep what the table's invariant speaks of. *)
Lemma table_ok_counted cap t : table_ok t -> table_ok (counted cap t).
Proof.
  intros [Hl Hi Hk]. unfold counted. split.
  - by rewrite length_map.
  - apply Forall_map. eapply Forall_impl; [exact Hi|]. intros e He Hidle.
    pose proof (count_entry_spec cap e) as H. cbn in *. destruct (count_entry cap e) as [e' b].
    cbn in *. destruct H as (_ & _ & _ & _ & Hidle' & Hsame & _). rewrite Hidle' in Hidle.
    rewrite Hsame by done. auto.
  - rewrite (keys_Forall2 t); [done|]. clear - NJ NW. induction t as [|e t IH]; cbn; constructor; [|done].
    pose proof (count_entry_spec cap e) as H. destruct (count_entry cap e). apply H.
Qed.
End builder.

(** * Witnesses *)
Definition sample_numbers : SsmNumbers := Build_SsmNumbers 0 1 2 3 4 5 6 7 8.
Definition sample_row : PriorityRequestEntry :=
  set_statusInPRS readyQueued
    (mkEntry 7 [1; 2; 3; 4] 3 1 5 1700000060 1700000075 1700000000 1700000600
       idleNotValid idleNotValid 9709 12 1 0 idleNotValid 1 8).
Definition sample_ssm_state : SsmBroadcastState :=
  mkState 4 {[ 9709 := 3 ]} {[ 9709 := entries_key [sample_row] ]}.

Lemma report_limit_witness :
  report_rounds 2 (replicate 5 sample_row) 1 idleNotValid = [true; true; false; false; false].
Proof.
  rewrite (report_limit 2 (replicate 5 sample_row) 1 idleNotValid readyQueued); [reflexivity| |lia|lia].
  by apply Forall_replicate.
Defined.

Definition sample_build := @BuildSsmFromTable sample_numbers sample_J2735 [entry0; sample_row] 2 1700000001 sample_ssm_state.
Lemma ssm_number_tracks_contents_witness :
  exists ssm t' s' st, sample_build = (Some ssm, t', s') /\ ssm_status ssm = [st] /\ ss_sequenceNumber st = 3.
Proof.
  destruct sample_build as [[[ssm|] t'] s'] eqn:E; [|by vm_compute in E].
  exists ssm, t', s'.
  assert (exists st, ssm_status ssm = [st] /\ ss_id st = 9709) as (st & Hst & Hid).
  { injection E as <- _ _. eexists. by split. }
  exists st. split; [done|]. split; [done|].
  destruct (@ssm_number_tracks_contents sample_numbers sample_J2735 [entry0; sample_row] 2 1700000001 sample_ssm_state
    [sample_row] ssm t' s' st) as (Hn & _); [exact E|rewrite Hst; by left|by rewrite Hid|].
  rewrite Hid in Hn. rewrite Hn. reflexivity.
Defined.

Lemma requester_roundtrip_witness :
  @SetRequesterVehicleID sample_numbers (@ExtractVehicleID sample_numbers (VehicleID_stationID 305419896))
  = VehicleID_stationID 305419896.
Proof. apply (@requester_roundtrip sample_numbers (VehicleID_stationID 305419896)). cbn. lia. Defined.
End Ssm.
