(* ===== verification/PriorityPlugin.v ===== *)
(** The priority plugin, [src/src/v2i-hub/PriorityPlugin/src]: its
    configuration ([PriorityConfiguration.cpp]) and the handlers that tie the
    table, the requests, the exchanges and the status messages together
    ([PriorityPlugin.cpp]).

    The configuration of the plugin client, boost's property trees, the SNMP
    clients, the clock, the codec of the status messages and the iteration
    order of [std::unordered_map] are interfaces. *)
From stdpp Require Import pretty.
From Stdlib Require Import Ascii Sorting.Permutation.
From S2P Require Import Prelude Text PriorityTable PriorityRequests Ssm.
Import Priority Requests Ssm.
Open Scope Z_scope.

(** The configuration: the value of a key as text or as a number of so many
    bits, nothing when it is not set or not of the type. *)
Class PluginConfig (C : Type) := {
  config_string : C -> string -> option string;
  config_unsigned : C -> Z -> string -> option Z;
  config_unsigned_range : forall c w key v, config_unsigned c w key = Some v -> 0 <= v < 2 ^ w
}.

(** [boost::property_tree]: the children of the root of a JSON text, and the
    fields of a node, nothing where the library throws. *)
Class PropertyTree (node : Type) := {
  read_json : string -> option (list node);
  get_long : node -> string -> option Z;
  get_int : node -> string -> option Z;
  get_uint16 : node -> string -> option Z;
  get_text : node -> string -> option string
}.

Module PriorityConfig.
Definition StrategyMin : Z := 1.
Definition StrategyMax : Z := 255.
Definition ReserviceClassTimesSize : nat := 10.

Inductive PluginRole := PRS | PRG.
#[export] Instance PluginRole_eq_dec : EqDecision PluginRole.
Proof. solve_decision. Defined.

(** The exceptions: of the configuration, of the JSON parser, of a node. *)
Inductive config_error := PriorityConfigurationException | json_parser_error | ptree_error.

Record ControllerConfig := mkController { ctl_intersectionID : Z; ctl_ip : string; ctl_port : Z }.
Record LaneStrategyEntry := mkLane { lane_intersectionID : Z; lane_lane : Z; lane_strategy : Z }.

Definition parsePluginRole (role : string) : config_error + PluginRole :=
  if String.eqb role "PRS" then inr PRS
  else if String.eqb role "PRG" then inr PRG
  else inl PriorityConfigurationException.

Section json.
Context {node : Type} {PT : PropertyTree node}.

Fixpoint controllers_of (nodes : list node) : config_error + list ControllerConfig :=
  match nodes with
  | [] => inr []
  | n :: nodes =>
      match get_long n "IntersectionID", get_text n "IP", get_uint16 n "Port" with
      | Some id, Some ip, Some port =>
          match controllers_of nodes with
          | inr cs => inr (mkController id ip port :: cs)
          | inl e => inl e
          end
      | _, _, _ => inl ptree_error
      end
  end.
Definition parseTscConfigurationList (json : string) : config_error + list ControllerConfig :=
  if String.eqb json "" then inl PriorityConfigurationException
  else match read_json json with
       | None => inl json_parser_error
       | Some nodes => controllers_of nodes
       end.

(** An entry whose strategy is out of range is left out. *)
Fixpoint lanes_of (nodes : list node) : config_error + list LaneStrategyEntry :=
  match nodes with
  | [] => inr []
  | n :: nodes =>
      match get_long n "IntersectionID", get_long n "Lane", get_int n "Strategy" with
      | Some id, Some lane, Some strategy =>
          match lanes_of nodes with
          | inr ls =>
              inr (if (strategy <? StrategyMin) || (StrategyMax <? strategy) then ls
                   else mkLane id lane (u8 strategy) :: ls)
          | inl e => inl e
          end
      | _, _, _ => inl ptree_error
      end
  end.
Definition parseLaneStrategyMapping (json : string) : config_error + list LaneStrategyEntry :=
  if String.eqb json "" then inl PriorityConfigurationException
  else match read_json json with
       | None => inl json_parser_error
       | Some nodes => lanes_of nodes
       end.
End json.

(** The loop over the tokens; [idx] is the index of the first of them. *)
Fixpoint read_times (toks : list string) (idx : nat) (result : list Z) : list Z :=
  match toks with
  | [] => result
  | tok :: toks =>
      if Nat.ltb idx ReserviceClassTimesSize then
        read_times toks (S idx)
          (match stoul tok with inr v => <[idx := u32 v]> result | inl _ => result end)
      else result
  end.
Definition parseReserviceClassTimes (reserviceStr : string) : config_error + list Z :=
  if String.eqb reserviceStr "" then inl PriorityConfigurationException
  else inr (read_times (getlines "," reserviceStr) 0 (replicate ReserviceClassTimesSize 0)).

(** ** Times *)
Fixpoint join_times (ts : list Z) : string :=
  match ts with
  | [] => ""
  | [t] => pretty t
  | t :: ts => pretty t +:+ "," +:+ join_times ts
  end.

Lemma getlines_join ts : getlines "," (join_times ts) = map pretty ts.
Proof.
  induction ts as [|t ts IH]; [done|]. cbn [join_times]. destruct ts as [|t' ts].
  - rewrite getlines_last; [done|by apply pretty_free|apply pretty_number].
  - change ("," +:+ join_times (t' :: ts)) with (String "," (join_times (t' :: ts))).
    rewrite getlines_separator by by apply pretty_free. by rewrite IH.
Qed.

Lemma read_times_pretty ts : forall idx result,
  length result = ReserviceClassTimesSize -> (idx <= ReserviceClassTimesSize)%nat ->
  Forall (fun t => 0 <= t < 2 ^ 32) ts ->
  read_times (map pretty ts) idx result
  = take idx result ++ take (ReserviceClassTimesSize - idx) ts ++ drop (idx + length ts) result.
Proof.
  induction ts as [|t ts IH]; intros idx result Hl Hi Hts; cbn [map read_times length].
  { rewrite take_nil, Nat.add_0_r. by rewrite app_nil_l, take_drop. }
  apply Forall_cons in Hts as [Ht Hts]. destruct (Nat.ltb_spec idx ReserviceClassTimesSize).
  - rewrite stoul_pretty by lia. rewrite u32_small by lia.
    rewrite IH by (rewrite ?length_insert; done || lia).
    destruct (ReserviceClassTimesSize - idx)%nat as [|k] eqn:Ek; [lia|].
    replace (ReserviceClassTimesSize - S idx)%nat with k by lia. cbn [take].
    rewrite drop_insert_lt by lia. rewrite (take_S_r _ idx t) by (apply list_lookup_insert_eq; lia).
    rewrite take_insert_ge by lia. rewrite <- app_assoc.
    by replace (S idx + length ts)%nat with (idx + S (length ts))%nat by lia.
  - assert (idx = ReserviceClassTimesSize) as -> by lia. rewrite Nat.sub_diag. cbn [take].
    rewrite drop_ge by lia. rewrite take_ge by lia. by rewrite app_nil_r.
Qed.

(** Reservice times written as a list with commas are read back, the ones
    that are missing as zero and any beyond the tenth left out. *)
Theorem reservice_times_roundtrip ts :
  ts <> [] -> Forall (fun t => 0 <= t < 2 ^ 32) ts ->
  parseReserviceClassTimes (join_times ts)
  = inr (take ReserviceClassTimesSize (ts ++ replicate ReserviceClassTimesSize 0)).
Proof.
  intros Hne Hts. unfold parseReserviceClassTimes.
  assert (join_times ts <> "") as Hj.
  { pose proof (getlines_join ts) as H. intros E. rewrite E in H. by destruct ts. }
  destruct (String.eqb_spec (join_times ts) ""); [done|]. f_equal.
  rewrite getlines_join, read_times_pretty by (done || unfold ReserviceClassTimesSize; lia).
  cbn [take app Nat.add]. rewrite Nat.sub_0_r, take_app, drop_replicate, !take_replicate.
  by rewrite (Nat.min_l (_ - _)) by lia.
Qed.

Lemma reservice_times_roundtrip_witness :
  parseReserviceClassTimes "5,15,25" = inr [5; 15; 25; 0; 0; 0; 0; 0; 0; 0].
Proof. apply (reservice_times_roundtrip [5; 15; 25]); [done|]. repeat constructor; lia. Defined.

Section lanes.
Context {node : Type} {PT : PropertyTree node}.
Lemma lanes_of_range nodes ls :
  lanes_of nodes = inr ls -> Forall (fun l => 1 <= lane_strategy l <= 255) ls.
Proof.
  revert ls. induction nodes as [|n nodes IH]; intros ls; cbn [lanes_of]; [intros [= <-]; constructor|].
  destruct (get_long n "IntersectionID"), (get_long n "Lane"), (get_int n "Strategy") as [st|]; try done.
  destruct (lanes_of nodes) as [|ls']; [done|]. intros [= <-]. unfold StrategyMin, StrategyMax.
  destruct (Z.ltb_spec st 1), (Z.ltb_spec 255 st); cbn [orb]; try by apply IH.
  constructor; [|by apply IH]. cbn. rewrite u8_small; lia.
Qed.
End lanes.
End PriorityConfig.

Module PriorityPlugin.
Import PriorityConfig.

Record ControllerInfo := mkInfo { ci_intersectionID : Z; ci_ip : string; ci_port : Z }.

(** The SNMP clients, by address, and the clock. A client sets an object, or is
    the controller of an exchange; creating one can throw, with a text. *)
Class PriorityWorld (W : Type) := {
  pw_new_client : string -> Z -> W -> option string * W;
  pw_set : ControllerInfo -> string -> list Z -> W -> bool * W;
  pw_controller : ControllerInfo -> Controller W;
  pw_seconds : W -> Z * W;
  pw_milliseconds : W -> Z * W;
  pw_sleep : Z -> W -> W
}.

(** The orders in which unordered maps are walked. *)
Class UnorderedMaps := {
  iteration : gmap string PrgTrackedRequest -> list (string * PrgTrackedRequest);
  iteration_Permutation : forall m, Permutation (iteration m) (map_to_list m);
  first_controller : gmap Z ControllerInfo -> option ControllerInfo;
  first_controller_spec : forall m,
    match first_controller m with Some i => exists k, m !! k = Some i | None => m = ∅ end
}.

(** The encoder of a status message, which can throw. *)
Class SsmCodec := { encode_ssm : SignalStatusMessage -> option (list Z) }.

(** * State *)
Record Config := mkConfig {
  pluginRole : PluginRole; estimatedArrivalTime : Z; estimatedDepartureTime : Z;
  pollIntervalMs : Z; timeToLiveSec : Z; maxSsmBroadcastsPerStatus : Z; reserviceClassTime : list Z }.

Record PluginState := mkPlugin {
  config : Config;
  controllers : gmap Z ControllerInfo;
  requestorStates : gmap string RequestorState;
  prgTrackedRequests : gmap string PrgTrackedRequest;
  prsLastSeqByVehicle : gmap string Z;
  server : ServiceExchangeContext;
  running : bool;
  ssmState : SsmBroadcastState;
  priorityRequestsSent : Z;
  skippedMessages : Z;
  serviceExchanges : Z;
  status : gmap string string;
  outbox : list (list Z);
  eventLog : list string }.

Definition store_config (v : Config) (p : PluginState) : PluginState :=
  mkPlugin v (controllers p) (requestorStates p) (prgTrackedRequests p) (prsLastSeqByVehicle p)
    (server p) (running p) (ssmState p) (priorityRequestsSent p) (skippedMessages p) (serviceExchanges
    p) (status p) (outbox p) (eventLog p).
Definition set_controllers (v : gmap Z ControllerInfo) (p : PluginState) : PluginState :=
  mkPlugin (config p) v (requestorStates p) (prgTrackedRequests p) (prsLastSeqByVehicle p) (server
    p) (running p) (ssmState p) (priorityRequestsSent p) (skippedMessages p) (serviceExchanges p)
    (status p) (outbox p) (eventLog p).
Definition set_requestorStates (v : gmap string RequestorState) (p : PluginState) : PluginState :=
  mkPlugin (config p) (controllers p) v (prgTrackedRequests p) (prsLastSeqByVehicle p) (server p)
    (running p) (ssmState p) (priorityRequestsSent p) (skippedMessages p) (serviceExchanges p) (status
    p) (outbox p) (eventLog p).
Definition set_prgTrackedRequests (v : gmap string PrgTrackedRequest) (p : PluginState) : PluginState :=
  mkPlugin (config p) (controllers p) (requestorStates p) v (prsLastSeqByVehicle p) (server p)
    (running p) (ssmState p) (priorityRequestsSent p) (skippedMessages p) (serviceExchanges p) (status
    p) (outbox p) (eventLog p).
Definition set_prsLastSeqByVehicle (v : gmap string Z) (p : PluginState) : PluginState :=
  mkPlugin (config p) (controllers p) (requestorStates p) (prgTrackedRequests p) v (server p)
    (running p) (ssmState p) (priorityRequestsSent p) (skippedMessages p) (serviceExchanges p) (status
    p) (outbox p) (eventLog p).
Definition set_server (v : ServiceExchangeContext) (p : PluginState) : PluginState :=
  mkPlugin (config p) (controllers p) (requestorStates p) (prgTrackedRequests p)
    (prsLastSeqByVehicle p) v (running p) (ssmState p) (priorityRequestsSent p) (skippedMessages p)
    (serviceExchanges p) (status p) (outbox p) (eventLog p).
Definition set_running (v : bool) (p : PluginState) : PluginState :=
  mkPlugin (config p) (controllers p) (requestorStates p) (prgTrackedRequests p)
    (prsLastSeqByVehicle p) (server p) v (ssmState p) (priorityRequestsSent p) (skippedMessages p)
    (serviceExchanges p) (status p) (outbox p) (eventLog p).
Definition set_ssmState (v : SsmBroadcastState) (p : PluginState) : PluginState :=
  mkPlugin (config p) (controllers p) (requestorStates p) (prgTrackedRequests p)
    (prsLastSeqByVehicle p) (server p) (running p) v (priorityRequestsSent p) (skippedMessages p)
    (serviceExchanges p) (status p) (outbox p) (eventLog p).
Definition set_priorityRequestsSent (v : Z) (p : PluginState) : PluginState :=
  mkPlugin (config p) (controllers p) (requestorStates p) (prgTrackedRequests p)
    (prsLastSeqByVehicle p) (server p) (running p) (ssmState p) v (skippedMessages p)
    (serviceExchanges p) (status p) (outbox p) (eventLog p).
Definition set_skippedMessages (v : Z) (p : PluginState) : PluginState :=
  mkPlugin (config p) (controllers p) (requestorStates p) (prgTrackedRequests p)
    (prsLastSeqByVehicle p) (server p) (running p) (ssmState p) (priorityRequestsSent p) v
    (serviceExchanges p) (status p) (outbox p) (eventLog p).
Definition set_serviceExchanges (v : Z) (p : PluginState) : PluginState :=
  mkPlugin (config p) (controllers p) (requestorStates p) (prgTrackedRequests p)
    (prsLastSeqByVehicle p) (server p) (running p) (ssmState p) (priorityRequestsSent p)
    (skippedMessages p) v (status p) (outbox p) (eventLog p).
Definition set_status (v : gmap string string) (p : PluginState) : PluginState :=
  mkPlugin (config p) (controllers p) (requestorStates p) (prgTrackedRequests p)
    (prsLastSeqByVehicle p) (server p) (running p) (ssmState p) (priorityRequestsSent p)
    (skippedMessages p) (serviceExchanges p) v (outbox p) (eventLog p).
Definition set_outbox (v : list (list Z)) (p : PluginState) : PluginState :=
  mkPlugin (config p) (controllers p) (requestorStates p) (prgTrackedRequests p)
    (prsLastSeqByVehicle p) (server p) (running p) (ssmState p) (priorityRequestsSent p)
    (skippedMessages p) (serviceExchanges p) (status p) v (eventLog p).
Definition set_eventLog (v : list string) (p : PluginState) : PluginState :=
  mkPlugin (config p) (controllers p) (requestorStates p) (prgTrackedRequests p)
    (prsLastSeqByVehicle p) (server p) (running p) (ssmState p) (priorityRequestsSent p)
    (skippedMessages p) (serviceExchanges p) (status p) (outbox p) v.

(** The plugin as constructed; the times are not initialized. *)
Definition PluginState_new (arrival departure poll ttl : Z) : PluginState :=
  mkPlugin (mkConfig PRS arrival departure poll ttl 2 (replicate ReserviceClassTimesSize 0))
    ∅ ∅ ∅ ∅ (mkContext Processor_new [] false) false (mkState 0 ∅ ∅) 0 0 0 ∅ [] [].

Definition skip_message (p : PluginState) : PluginState :=
  let n := u64 (skippedMessages p + 1) in
  set_status (<["Skipped Messages" := pretty n]> (status p)) (set_skippedMessages n p).
Definition set_processor (q : Processor) (p : PluginState) : PluginState :=
  set_server (mkContext q (lastSentServiceRequest (server p)) (prsBusy (server p))) p.

(** The fields of a decoded request message the code reads. *)
Record SignalRequestMessage := mkSrm {
  srm_requestor : VehicleID; srm_role : option Z; srm_sequenceNumber : option Z;
  srm_requests : list (option SignalRequestPackage) }.

(** Bytes as the text of a [std::string]. *)
Definition vehicle_key (vehicleID : list Z) : string :=
  foldr (fun b s => String (ascii_of_N (Z.to_N b)) s) "" vehicleID.

Definition PRIORITY_CLEAR_OID : string := "1.3.6.1.4.1.1206.4.2.11.2.6.0".

Section plugin.
Context {C node W : Type} {PC : PluginConfig C} {PT : PropertyTree node} {PW : PriorityWorld W}.
Context {UM : UnorderedMaps} {SC : SsmCodec} {NW : SsmNumbers} {NJ : J2735} {SS : StdSort}.

(** * Status messages *)
Definition EncodeAndBroadcastSSM (ssm : SignalStatusMessage) (p : PluginState) : PluginState :=
  match encode_ssm ssm with
  | Some bytes => set_outbox (outbox p ++ [bytes]) p
  | None => p
  end.
Definition broadcast_ssm (m : option SignalStatusMessage) (p : PluginState) : PluginState :=
  match m with Some ssm => EncodeAndBroadcastSSM ssm p | None => p end.

Definition BroadcastSSMFromTable (p : PluginState) (w : W) : PluginState * W :=
  let '(now, w) := pw_seconds w in
  let '(m, t, s) := BuildSsmFromTable (table (processor (server p)))
                      (maxSsmBroadcastsPerStatus (config p)) now (ssmState p) in
  let p := set_ssmState s (set_processor (set_table t (processor (server p))) p) in
  (broadcast_ssm m p, w).

Definition BuildSSM (state : RequestorState) (p : PluginState) (w : W) : PluginState * W :=
  let '(nowMs, w) := pw_milliseconds w in
  let '(m, s) := BuildSsmFromRequestor state nowMs (estimatedArrivalTime (config p))
                   (estimatedDepartureTime (config p)) (ssmState p) in
  (broadcast_ssm m (set_ssmState s p), w).

(** * Requests *)
Definition ProcessPrsPackage (input : PrsPackageInput) (p : PluginState) (pkg : SignalRequestPackage) : PluginState :=
  let '(result, t) := ApplyPrsPackage (processor (server p)) pkg input in
  let p := set_processor (set_table t (processor (server p))) p in
  match action result with TableFull => skip_message p | _ => p end.

Definition push_request (r : SignalRequest) (s : RequestorState) : RequestorState :=
  mkRequestor (rs_vehicleID s) (rs_classType s) (rs_sequenceNumber s) (rs_timeOfRequest s)
    (rs_requests s ++ [r]) (rs_role s).
Definition cancel_tracked (nowMs : Z) (r : PrgTrackedRequest) : PrgTrackedRequest :=
  mkTracked (tr_requestID r) (tr_intersectionID r) (tr_vehicleID r) (tr_classType r) (tr_classLevel r)
    (tr_strategyNumber r) nowMs canceled.
(** The tracker after a successful SET. *)
Definition track_sent (s : PrgSend) (nowMs : Z) (m : gmap string PrgTrackedRequest)
    : gmap string PrgTrackedRequest :=
  if isCancel s then
    match m !! trackerKey s with
    | Some r => <[trackerKey s := cancel_tracked nowMs r]> m
    | None => m
    end
  else <[trackerKey s := trackerEntry s]> m.

Definition ProcessPrgPackage (input : PrgPackageInput) (acc : PluginState * RequestorState * W)
    (pkg : SignalRequestPackage) : PluginState * RequestorState * W :=
  let '(p, state, w) := acc in
  let result := BuildPrgPackage (prgTrackedRequests p) (dom (controllers p)) (processor (server p)) pkg input in
  match outcome result with
  | Send s =>
      match controllers p !! pkg_intersection pkg with
      | None => (skip_message p, push_request (reject (signalRequest result)) state, w)
      | Some ctrl =>
          let '(ok, w) := pw_set ctrl (targetOID s) (encodedPayload s) w in
          if ok : bool then
            let n := u64 (priorityRequestsSent p + 1) in
            let p := set_status (<["Priority Requests Sent" := pretty n]> (status p))
                       (set_priorityRequestsSent n p) in
            (set_prgTrackedRequests (track_sent s (pin_nowMs input) (prgTrackedRequests p)) p,
             push_request (signalRequest result) state, w)
          else (p, push_request (reject (signalRequest result)) state, w)
      end
  | _ => (skip_message p, push_request (signalRequest result) state, w)
  end.

(** One tracked request in the sweep; the tracker is the one being swept. *)
Definition sweep_one (nowMs : Z) (acc : PluginState * W) (kv : string * PrgTrackedRequest) : PluginState * W :=
  let '(p, w) := acc in
  let '(key, tracked) := kv in
  let ageSec := u64 (nowMs - tr_sentTimeMs tracked) / 1000 in
  let isCanceled := bool_decide (tr_state tracked = canceled) in
  let erased := set_prgTrackedRequests (delete key (prgTrackedRequests p)) p in
  match ClassifyStaleTrackedRequest isCanceled ageSec (timeToLiveSec (config p)) with
  | SendClearAndErase =>
      match controllers p !! tr_intersectionID tracked with
      | Some ctrl =>
          (erased, snd (pw_set ctrl PRIORITY_CLEAR_OID
             (EncodePriorityClear (tr_requestID tracked) (tr_vehicleID tracked) (tr_classType tracked)
                (tr_classLevel tracked) (tr_strategyNumber tracked)) w))
      | None => (erased, w)
      end
  | Evict => (erased, w)
  | Keep => (p, w)
  end.
Definition SweepStaleTrackedRequests (nowMs : Z) (p : PluginState) (w : W) : PluginState * W :=
  fold_left (sweep_one nowMs) (iteration (prgTrackedRequests p)) (p, w).

(** The rounds of the loop [for (i = 0; i < n; i++) BuildSSM(state)]. *)
Fixpoint repeat_ssm (n : nat) (state : RequestorState) (p : PluginState) (w : W) : PluginState * W :=
  match n with
  | O => (p, w)
  | S n => let '(p, w) := BuildSSM state p w in repeat_ssm n state p w
  end.

Definition packages (srm : SignalRequestMessage) : list SignalRequestPackage := omap id (srm_requests srm).

Definition HandleSRM_PRS (srm : SignalRequestMessage) (vehicleID : list Z) (now newSeq role : Z)
    (p : PluginState) : PluginState :=
  let key := vehicle_key vehicleID in
  if bool_decide (prsLastSeqByVehicle p !! key = Some newSeq) then p
  else
    let p := set_prsLastSeqByVehicle (<[key := newSeq]> (prsLastSeqByVehicle p)) p in
    let c := config p in
    let input := mkPrsInput vehicleID (fst (MapVehicleClass role)) (snd (MapVehicleClass role)) newSeq role
                   (minute_of_year now) (tm_sec now * 1000) now
                   (reserviceClassTime c) (timeToLiveSec c)
                   (estimatedArrivalTime c) (estimatedDepartureTime c) (prsBusy (server p)) in
    fold_left (ProcessPrsPackage input) (packages srm) p.

Definition HandleSRM_PRG (srm : SignalRequestMessage) (vehicleID : list Z) (now newSeq role : Z)
    (p : PluginState) (w : W) : PluginState * W :=
  let key := vehicle_key vehicleID in
  if match requestorStates p !! key with Some s => rs_sequenceNumber s =? newSeq | None => false end
  then (p, w)
  else
    let '(nowMs, w) := pw_milliseconds w in
    let '(p, w) := SweepStaleTrackedRequests nowMs p w in
    let c := config p in
    let state := mkRequestor vehicleID (fst (MapVehicleClass role)) newSeq (u32 now) [] role in
    let '(nowMs, w) := pw_milliseconds w in
    let input := mkPrgInput vehicleID key (fst (MapVehicleClass role)) (snd (MapVehicleClass role))
                   (minute_of_year now) (tm_sec now * 1000) (u32 now)
                   (estimatedArrivalTime c) (estimatedDepartureTime c) nowMs in
    let '(p, state, w) := fold_left (ProcessPrgPackage input) (packages srm) (p, state, w) in
    let p := set_requestorStates (<[key := state]> (requestorStates p)) p in
    repeat_ssm (Z.to_nat (maxSsmBroadcastsPerStatus (config p))) state p w.

(** [None] is a message that could not be decoded. *)
Definition HandleSRM (decoded : option SignalRequestMessage) (p : PluginState) (w : W) : PluginState * W :=
  match decoded with
  | None => (skip_message p, w)
  | Some srm =>
      match srm_requests srm with
      | [] => (skip_message p, w)
      | _ =>
          let vehicleID := ExtractVehicleID (srm_requestor srm) in
          let '(now, w) := pw_seconds w in
          let role := default 0 (srm_role srm) in
          let newSeq := u8 (default 0 (srm_sequenceNumber srm)) in
          match pluginRole (config p) with
          | PRS => (HandleSRM_PRS srm vehicleID now newSeq role p, w)
          | PRG => HandleSRM_PRG srm vehicleID now newSeq role p w
          end
      end
  end.

(** * One round of the exchange loop *)
Definition target_controller (p : PluginState) : option ControllerInfo :=
  match omap (fun e => if is_idle e then None else controllers p !! intersectionID e)
             (table (processor (server p))) with
  | info :: _ => Some info
  | [] => first_controller (controllers p)
  end.
Definition ServiceExchangeRound (p : PluginState) (w : W) : PluginState * W :=
  let poll := pollIntervalMs (config p) in
  match target_controller p with
  | None => (p, pw_sleep poll w)
  | Some info =>
      let '(_, ctx, w) := @DoOneServiceExchange W (pw_controller info) SS (server p) w in
      let n := u64 (serviceExchanges p + 1) in
      let p := set_serviceExchanges n (set_server ctx p) in
      let p := if n mod 10 =? 0
               then set_status (<["Service Exchanges" := pretty n]> (status p)) p else p in
      let '(p, w) := BroadcastSSMFromTable p w in
      (p, pw_sleep poll w)
  end.

(** * Configuration *)
Definition set_lane (p : PluginState) (l : LaneStrategyEntry) : PluginState :=
  set_processor (SetLaneStrategy (lane_intersectionID l) (lane_lane l) (lane_strategy l)
                   (processor (server p))) p.

Definition client_failure (cfg : ControllerConfig) (what : string) : string :=
  "Failed to create SNMP client for IntersectionID=" +:+ pretty (ctl_intersectionID cfg) +:+ " ("
    +:+ ctl_ip cfg +:+ ":" +:+ pretty (ctl_port cfg) +:+ "): " +:+ what.
Definition add_controller (acc : PluginState * W) (cfg : ControllerConfig) : PluginState * W :=
  let '(p, w) := acc in
  match pw_new_client (ctl_ip cfg) (ctl_port cfg) w with
  | (Some what, w) =>
      (set_eventLog (eventLog p ++ [client_failure cfg what])
         (set_status (<["Controller " +:+ pretty (ctl_intersectionID cfg) := "Disconnected"]> (status p)) p), w)
  | (None, w) =>
      (set_controllers (<[ctl_intersectionID cfg := mkInfo (ctl_intersectionID cfg) (ctl_ip cfg) (ctl_port cfg)]>
                          (controllers p)) p, w)
  end.

(** The settings that are numbers, the role and the reservice times. *)
Definition read_settings (c : C) (old : Config) : Config :=
  let number := fun w key dflt => default dflt (config_unsigned c w key) in
  mkConfig
    (match parsePluginRole (default "" (config_string c "PluginRole")) with
     | inr r => r | inl _ => pluginRole old end)
    (Z.max 1 (number 16 "EstimatedTimeofArrival" (estimatedArrivalTime old)))
    (Z.max 1 (number 16 "EstimatedDepartureTime" (estimatedDepartureTime old)))
    (number 32 "PollIntervalMs" (pollIntervalMs old))
    (number 32 "TimeToLiveSec" (timeToLiveSec old))
    (Z.max 1 (Z.min 255 (number 32 "MaxSsmBroadcastsPerStatus" (maxSsmBroadcastsPerStatus old))))
    (match parseReserviceClassTimes (default "" (config_string c "ReserviceClassTimes")) with
     | inr ts => ts | inl _ => replicate ReserviceClassTimesSize 0 end).

Definition UpdateConfigSettings (c : C) (p : PluginState) (w : W) : PluginState * W :=
  let p := store_config (read_settings c (config p)) p in
  let p := set_processor (ClearLaneStrategyMap (processor (server p))) p in
  let p := match parseLaneStrategyMapping (default "" (config_string c "LaneStrategyMapping")) with
           | inr entries => fold_left set_lane entries p
           | inl _ => p
           end in
  let p := set_controllers ∅ p in
  match parseTscConfigurationList (default "" (config_string c "TSC_Configuration_List")) with
  | inr cfgs => fold_left add_controller cfgs (p, w)
  | inl _ => (p, w)
  end.

(** On registration the exchange loop is started, for a server. *)
Definition OnStateChange_registered (c : C) (p : PluginState) (w : W) : PluginState * W :=
  let '(p, w) := UpdateConfigSettings c p w in
  (if bool_decide (pluginRole (config p) = PRS) && negb (running p) then set_running true p else p, w).
Definition OnConfigChanged (c : C) (p : PluginState) (w : W) : PluginState * W := UpdateConfigSettings c p w.

(** * The invariant *)
Definition tracked_key (r : PrgTrackedRequest) : string :=
  vehicle_key (tr_vehicleID r) +:+ "|" +:+ pretty (tr_requestID r) +:+ "|" +:+ pretty (tr_intersectionID r).
Record config_ok (c : Config) : Prop := {
  ok_limit : 1 <= maxSsmBroadcastsPerStatus c <= 255;
  ok_times : length (reserviceClassTime c) = ReserviceClassTimesSize }.
Definition tracked_ok (m : gmap string PrgTrackedRequest) : Prop := map_Forall (fun k r => k = tracked_key r) m.
Definition controllers_ok (m : gmap Z ControllerInfo) : Prop := map_Forall (fun k i => ci_intersectionID i = k) m.
Definition plugin_ok (p : PluginState) : Prop :=
  processor_ok (processor (server p)) /\ config_ok (config p)
  /\ tracked_ok (prgTrackedRequests p) /\ controllers_ok (controllers p).

Lemma broadcast_ok m p : plugin_ok p -> plugin_ok (broadcast_ssm m p).
Proof. intros H. destruct m as [ssm|]; [|done]. cbn. unfold EncodeAndBroadcastSSM. by destruct (encode_ssm ssm). Qed.

Lemma BuildSSM_ok state p w : plugin_ok p -> plugin_ok (fst (BuildSSM state p w)).
Proof.
  intros H. unfold BuildSSM. destruct (pw_milliseconds w) as [now w1].
  destruct (BuildSsmFromRequestor state now _ _ _) as [m s]. by apply broadcast_ok.
Qed.

Lemma repeat_ssm_ok state n : forall p w, plugin_ok p -> plugin_ok (fst (repeat_ssm n state p w)).
Proof.
  induction n as [|n IH]; intros p w H; [done|]. cbn [repeat_ssm].
  pose proof (BuildSSM_ok state p w H). destruct (BuildSSM state p w). by apply IH.
Qed.

Lemma BroadcastSSMFromTable_ok p w : plugin_ok p -> plugin_ok (fst (BroadcastSSMFromTable p w)).
Proof.
  intros (Hp & Hc & Ht & Hk). unfold BroadcastSSMFromTable. destruct (pw_seconds w) as [now w1].
  pose proof (BuildSsmFromTable_spec (table (processor (server p))) (maxSsmBroadcastsPerStatus (config p)) now (ssmState p)) as Hb.
  destruct (BuildSsmFromTable _ _ _ _) as [[m t] s]. destruct Hb as [-> _]. apply broadcast_ok.
  split; [|by split_all]. destruct Hp as [Htab Hst]. split; [by apply table_ok_counted|done].
Qed.

Lemma ProcessPrsPackage_ok input p pkg : plugin_ok p -> plugin_ok (ProcessPrsPackage input p pkg).
Proof.
  intros (Hp & Hrest). unfold ProcessPrsPackage.
  pose proof (step_ok _ _ (step_package (processor (server p)) pkg input) Hp) as Hp'.
  destruct (ApplyPrsPackage (processor (server p)) pkg input) as [r t]. by destruct (action r).
Qed.

Lemma BuildPrgPackage_send tracked configured q pkg input s :
  outcome (BuildPrgPackage tracked configured q pkg input) = Send s ->
  pin_vehicleKey input = vehicle_key (pin_vehicleID input) ->
  trackerKey s = tracked_key (trackerEntry s).
Proof.
  intros H Hk. unfold BuildPrgPackage in H. destruct (prg_times pkg input) as [[ts td]|]; [|done]. cbn in H.
  destruct (LookupStrategy q _ _); [|done]. destruct (bool_decide _); [|done]. cbn in H.
  destruct (prg_payload _ _ _ _ _ _) as [[payload oid] cancel]. injection H as <-. cbn.
  unfold tracker_key, tracked_key. cbn. by rewrite Hk.
Qed.

Lemma track_sent_ok s now m :
  trackerKey s = tracked_key (trackerEntry s) -> tracked_ok m -> tracked_ok (track_sent s now m).
Proof.
  intros Hs Hm. unfold track_sent. destruct (isCancel s); [|by apply map_Forall_insert_2].
  destruct (m !! trackerKey s) as [r|] eqn:E; [|done]. apply map_Forall_insert_2; [|done].
  apply (Hm _ _ E).
Qed.

Lemma ProcessPrgPackage_ok input acc pkg :
  pin_vehicleKey input = vehicle_key (pin_vehicleID input) ->
  plugin_ok (fst (fst acc)) -> plugin_ok (fst (fst (ProcessPrgPackage input acc pkg))).
Proof.
  destruct acc as [[p state] w]. intros Hk H. unfold ProcessPrgPackage.
  destruct (outcome _) as [s| | |] eqn:Eo; try exact H. apply BuildPrgPackage_send in Eo; [|done].
  destruct (controllers p !! pkg_intersection pkg) as [ctrl|]; [|exact H].
  destruct (pw_set ctrl (targetOID s) (encodedPayload s) w) as [[] w']; [|exact H].
  destruct H as (Hp & Hc & Ht & Hctl). split; [done|]. split; [done|]. split; [|done]. by apply track_sent_ok.
Qed.

Lemma fold_ok {X A} (P : A -> Prop) (f : A -> X -> A) l : forall a,
  (forall a x, P a -> P (f a x)) -> P a -> P (fold_left f l a).
Proof. induction l as [|x l IH]; intros a Hf Ha; cbn; auto. Qed.

Lemma sweep_one_frame now acc kv :
  let p := fst acc in let p' := fst (sweep_one now acc kv) in
  p' = set_prgTrackedRequests (prgTrackedRequests p') p
  /\ prgTrackedRequests p'
     = match ClassifyStaleTrackedRequest (bool_decide (tr_state (snd kv) = canceled))
               (u64 (now - tr_sentTimeMs (snd kv)) / 1000) (timeToLiveSec (config p)) with
       | Keep => prgTrackedRequests p
       | _ => delete (fst kv) (prgTrackedRequests p)
       end.
Proof.
  destruct acc as [p w], kv as [k r]. cbn [fst snd sweep_one].
  destruct (ClassifyStaleTrackedRequest _ _ _); [by destruct p| |done].
  by destruct (controllers p !! tr_intersectionID r).
Qed.

(** ** The sweep *)
Definition kept_tracked (now ttl : Z) (r : PrgTrackedRequest) : Prop :=
  ClassifyStaleTrackedRequest (bool_decide (tr_state r = canceled)) (u64 (now - tr_sentTimeMs r) / 1000) ttl = Keep.

Lemma sweep_list now l : forall acc,
  let p := fst acc in let p' := fst (fold_left (sweep_one now) l acc) in
  p' = set_prgTrackedRequests (prgTrackedRequests p') p
  /\ forall k r, prgTrackedRequests p' !! k = Some r
       <-> prgTrackedRequests p !! k = Some r
           /\ forall r', (k, r') ∈ l -> kept_tracked now (timeToLiveSec (config p)) r'.
Proof.
  induction l as [|kv l IH]; intros acc.
  { split; [by destruct acc as [[] ?]|]. intros k r. cbn. setoid_rewrite elem_of_nil. tauto. }
  cbn [fold_left]. specialize (IH (sweep_one now acc kv)). cbn zeta in IH.
  destruct (sweep_one_frame now acc kv) as [Hf Ht]. destruct IH as [IHf IHt].
  destruct kv as [k0 r0]. cbn [fst snd] in *. split.
  { rewrite IHf. rewrite Hf. by destruct (fst acc). }
  assert (config (fst (sweep_one now acc (k0, r0))) = config (fst acc)) as Hc by by rewrite Hf.
  intros k r. rewrite IHt, Hc, Ht. setoid_rewrite elem_of_cons. fold (kept_tracked now (timeToLiveSec (config (fst acc))) r0).
  destruct (ClassifyStaleTrackedRequest _ _ _) eqn:E.
  1: { split; [|naive_solver]. intros [H1 H2]. split; [done|]. intros r' [[= -> ->]|H]; [done|auto]. }
  all: assert (~ kept_tracked now (timeToLiveSec (config (fst acc))) r0) as Hn by (unfold kept_tracked; by rewrite E).
  all: rewrite lookup_delete_Some; split;
    [intros [[H0 H1] H2]; split; [done|]; intros r' [[= -> ->]|H]; [done|auto]|].
  all: intros [H1 H2]; split; [split; [|done]|auto]; intros ->; by apply Hn, H2; left.
Qed.

Lemma sweep_spec now p w :
  let p' := fst (SweepStaleTrackedRequests now p w) in
  p' = set_prgTrackedRequests (prgTrackedRequests p') p
  /\ forall k r, prgTrackedRequests p' !! k = Some r
       <-> prgTrackedRequests p !! k = Some r /\ kept_tracked now (timeToLiveSec (config p)) r.
Proof.
  unfold SweepStaleTrackedRequests.
  destruct (sweep_list now (iteration (prgTrackedRequests p)) (p, w)) as [Hf Ht]. cbn [fst] in *.
  split; [done|]. intros k r. rewrite Ht. split.
  - intros [Hk Hl]. split; [done|]. apply Hl. rewrite (iteration_Permutation (prgTrackedRequests p)).
    by apply elem_of_map_to_list.
  - intros [Hk Hkept]. split; [done|]. intros r' Hin. rewrite (iteration_Permutation (prgTrackedRequests p)) in Hin.
    apply elem_of_map_to_list in Hin. rewrite Hk in Hin. by injection Hin as <-.
Qed.

(** The sweep of the request generator removes exactly the requests that
    were canceled at least two seconds ago or sent at least as long ago as
    requests live, and changes nothing else of the plugin. *)
Theorem sweep_exact now p w :
  let p' := fst (SweepStaleTrackedRequests now p w) in
  p' = set_prgTrackedRequests (prgTrackedRequests p') p
  /\ forall k r, prgTrackedRequests p' !! k = Some r
       <-> prgTrackedRequests p !! k = Some r
           /\ let age := u64 (now - tr_sentTimeMs r) / 1000 in
              age < timeToLiveSec (config p) /\ (tr_state r = canceled -> age < 2).
Proof.
  intros p'. destruct (sweep_spec now p w) as [Hf Ht]. split; [done|]. intros k r. subst p'. rewrite Ht.
  unfold kept_tracked, ClassifyStaleTrackedRequest. cbn zeta. set (age := u64 (now - tr_sentTimeMs r) / 1000).
  case_bool_decide as Hs; cbn [andb]; destruct (Z.leb_spec 2 age), (Z.leb_spec (timeToLiveSec (config p)) age);
    split; intros [? H']; (split; [done|]); try done; try lia; try (split; [lia|]; intros; try done; lia);
    destruct H' as [? Hc]; try lia; specialize (Hc Hs); lia.
Qed.

Lemma sweep_ok now p w : plugin_ok p -> plugin_ok (fst (SweepStaleTrackedRequests now p w)).
Proof.
  intros (Hp & Hc & Ht & Hk). destruct (sweep_spec now p w) as [Hf Hs].
  set (p' := fst (SweepStaleTrackedRequests now p w)) in *. rewrite Hf.
  split; [done|]. split; [done|]. split; [|done]. intros k r Hr. apply Hs in Hr as [Hr _]. by apply Ht.
Qed.

(** ** The handlers *)
Lemma HandleSRM_ok d p w : plugin_ok p -> plugin_ok (fst (HandleSRM d p w)).
Proof.
  intros H. destruct d as [srm|]; [|exact H]. unfold HandleSRM. destruct (srm_requests srm); [exact H|].
  destruct (pw_seconds w) as [now w1]. destruct (pluginRole (config p)).
  - cbn [fst]. unfold HandleSRM_PRS. case_bool_decide; [done|]. apply fold_ok; [|exact H].
    intros. by apply ProcessPrsPackage_ok.
  - unfold HandleSRM_PRG. destruct (match _ with Some _ => _ | None => _ end); [done|].
    destruct (pw_milliseconds w1) as [ms w2]. pose proof (sweep_ok ms p w2 H) as Hs.
    destruct (SweepStaleTrackedRequests ms p w2) as [p1 w3]. destruct (pw_milliseconds w3) as [ms2 w4].
    match goal with |- context [fold_left ?f ?l ?a] =>
      pose proof (fold_ok (fun acc => plugin_ok (fst (fst acc))) f l a) as Hfold; destruct (fold_left f l a) as [[p2 st] w5]
    end.
    apply repeat_ssm_ok, Hfold; [|done]. intros. by apply ProcessPrgPackage_ok.
Qed.

Lemma ServiceExchangeRound_ok p w : plugin_ok p -> plugin_ok (fst (ServiceExchangeRound p w)).
Proof.
  intros H. unfold ServiceExchangeRound. destruct (target_controller p) as [info|]; [|done].
  pose proof (@DoOneServiceExchange_processor W (pw_controller info) SS (server p) w) as Hx.
  destruct (DoOneServiceExchange (server p) w) as [[res ctx] w1]. cbn [fst snd] in Hx.
  match goal with |- context [BroadcastSSMFromTable ?q w1] =>
    pose proof (BroadcastSSMFromTable_ok q w1) as Hb; destruct (BroadcastSSMFromTable q w1) as [p2 w2] end.
  apply Hb. destruct H as (Hp & Hrest).
  assert (processor_ok (processor ctx)) as Hp'.
  { destruct Hx as [->|(rows & now & ->)]; [done|]. by eapply step_ok; [apply step_exchange|]. }
  by destruct (_ =? 0).
Qed.

Lemma read_times_length toks : forall idx result, length (read_times toks idx result) = length result.
Proof.
  induction toks as [|tok toks IH]; intros idx result; cbn [read_times]; [done|].
  destruct (Nat.ltb _ _); [|done]. rewrite IH. destruct (stoul tok); [done|]. by rewrite length_insert.
Qed.

Lemma read_settings_ok c old : config_ok (read_settings c old).
Proof.
  split; [cbn; lia|]. cbn [reserviceClassTime read_settings]. unfold parseReserviceClassTimes.
  destruct (String.eqb _ _); [done|]. by rewrite read_times_length.
Qed.

Lemma set_lanes_ok ls : forall p,
  Forall (fun l => 1 <= lane_strategy l <= 255) ls -> plugin_ok p -> plugin_ok (fold_left set_lane ls p).
Proof.
  induction ls as [|l ls IH]; intros p Hls H; [done|]. apply Forall_cons in Hls as [Hl Hls].
  apply IH; [done|]. destruct H as (Hp & Hrest). split; [|done].
  eapply step_ok; [apply step_lane; lia|done].
Qed.

Lemma add_controller_ok acc cfg : plugin_ok (fst acc) -> plugin_ok (fst (add_controller acc cfg)).
Proof.
  destruct acc as [p w]. intros (Hp & Hc & Ht & Hk). unfold add_controller.
  destruct (pw_new_client _ _ _) as [[what|] w']; [by split_all|].
  split; [done|]. split; [done|]. split; [done|]. by apply map_Forall_insert_2.
Qed.

Lemma UpdateConfigSettings_ok c p w : plugin_ok p -> plugin_ok (fst (UpdateConfigSettings c p w)).
Proof.
  intros (Hp & Hc & Ht & Hk). unfold UpdateConfigSettings.
  set (p1 := store_config _ p). set (p2 := set_processor _ p1).
  assert (plugin_ok p2) as H2.
  { split; [eapply step_ok; [apply step_clear|done]|]. split; [apply read_settings_ok|]. by split. }
  set (p3 := match parseLaneStrategyMapping _ with inr _ => _ | inl _ => _ end).
  assert (plugin_ok p3) as H3.
  { subst p3. unfold parseLaneStrategyMapping. destruct (String.eqb _ _); [done|].
    destruct (read_json _) as [nodes|]; [|done]. destruct (lanes_of nodes) as [|ls] eqn:E; [done|].
    apply set_lanes_ok; [by eapply lanes_of_range|done]. }
  assert (plugin_ok (set_controllers ∅ p3)) as H4.
  { destruct H3 as (? & ? & ? & _). by split_all. }
  destruct (parseTscConfigurationList _) as [|cfgs]; [done|].
  apply (fold_ok (fun acc => plugin_ok (fst acc))); [|done]. intros. by apply add_controller_ok.
Qed.

(** The plugin as a transition system: the handlers, with the world and the
    configuration of the moment. The thread of the exchanges holds the lock of the table
    only while it applies the rows it got from the controller and while it collects the
    messages about the table, so requests are handled between these parts, too; they
    read the flag for a busy server without the lock, and may find it either way. *)
Definition set_prsBusy (busy : bool) (p : PluginState) : PluginState :=
  set_server (mkContext (processor (server p)) (lastSentServiceRequest (server p)) busy) p.
Definition set_lastSent (sent : list Z) (p : PluginState) : PluginState :=
  set_server (mkContext (processor (server p)) sent (prsBusy (server p))) p.
Inductive pstep : PluginState -> PluginState -> Prop :=
| pstep_srm d p w : pstep p (fst (HandleSRM d p w))
| pstep_srm_flag busy d p w : pstep p (set_prsBusy (prsBusy (server p)) (fst (HandleSRM d (set_prsBusy busy p) w)))
| pstep_round p w : pstep p (fst (ServiceExchangeRound p w))
| pstep_sent sent p : pstep p (set_lastSent sent p)
| pstep_apply rows now p : pstep p (set_processor (exchange (processor (server p)) (rows, now)) p)
| pstep_report p w : pstep p (fst (BroadcastSSMFromTable p w))
| pstep_config (c : C) p w : pstep p (fst (OnConfigChanged c p w))
| pstep_registered (c : C) p w : pstep p (fst (OnStateChange_registered c p w)).

Lemma set_prsBusy_ok busy p : plugin_ok p -> plugin_ok (set_prsBusy busy p).
Proof. done. Qed.

(** C20: whatever requests, exchanges and changes of the configuration the
    plugin goes through, the requests handled between the parts of an exchange as well,
    no two rows of its table hold the same request with a service strategy, the free rows
    have the default contents, its limits are in range, a tracked request is
    stored under the key of its own vehicle, number and intersection, and a
    controller under its own intersection. A request that is refused for want of a
    strategy has none: every repetition of it takes another row ([refused_again]). *)
Theorem plugin_invariant arrival departure poll ttl p :
  rtc pstep (PluginState_new arrival departure poll ttl) p -> plugin_ok p.
Proof.
  intros Hr. remember (PluginState_new arrival departure poll ttl) as p0 eqn:E0.
  assert (plugin_ok p0) as H0.
  { subst p0. split; [apply processor_ok_new|]. split; [split; cbn; lia || done|].
    split; apply map_Forall_empty. }
  clear E0. induction Hr as [|p q r Hs _ IH]; [done|]. apply IH. clear IH.
  destruct Hs as [d p w|busy d p w|p w|sent p|rows now p|p w|c p w|c p w].
  - by apply HandleSRM_ok.
  - by apply set_prsBusy_ok, HandleSRM_ok, set_prsBusy_ok.
  - by apply ServiceExchangeRound_ok.
  - done.
  - destruct H0 as (Hp & Hrest). split; [|done]. by eapply step_ok; [apply step_exchange|].
  - by apply BroadcastSSMFromTable_ok.
  - by apply UpdateConfigSettings_ok.
  - unfold OnStateChange_registered. pose proof (UpdateConfigSettings_ok c p w H0) as H.
    destruct (UpdateConfigSettings c p w) as [p1 w1]. cbn [fst] in *. by case_if.
Qed.

(** ** Repeated requests *)
Definition same_identity (p q : PluginState) : Prop :=
  config p = config q /\ requestorStates p = requestorStates q /\ prsLastSeqByVehicle p = prsLastSeqByVehicle q.

Lemma same_identity_trans p q r : same_identity p q -> same_identity q r -> same_identity p r.
Proof. unfold same_identity. intros (-> & -> & ->). done. Qed.

Lemma fold_same {X A} (proj : A -> PluginState) (f : A -> X -> A) l : forall a,
  (forall a x, same_identity (proj (f a x)) (proj a)) -> same_identity (proj (fold_left f l a)) (proj a).
Proof.
  induction l as [|x l IH]; intros a Hf; cbn; [by split_all|].
  eapply same_identity_trans; [by apply IH|apply Hf].
Qed.

Lemma ProcessPrsPackage_same input p pkg : same_identity (ProcessPrsPackage input p pkg) p.
Proof. unfold ProcessPrsPackage. destruct (ApplyPrsPackage _ _ _) as [r t]. by destruct (action r). Qed.

Lemma ProcessPrgPackage_same input acc pkg :
  same_identity (fst (fst (ProcessPrgPackage input acc pkg))) (fst (fst acc))
  /\ rs_sequenceNumber (snd (fst (ProcessPrgPackage input acc pkg))) = rs_sequenceNumber (snd (fst acc)).
Proof.
  destruct acc as [[p state] w]. unfold ProcessPrgPackage. destruct (outcome _) as [s| | |]; try done.
  destruct (controllers p !! _) as [ctrl|]; [|done]. by destruct (pw_set _ _ _ _) as [[] w'].
Qed.

Lemma repeat_ssm_same n state : forall p w, same_identity (fst (repeat_ssm n state p w)) p.
Proof.
  induction n as [|n IH]; intros p w; [done|]. cbn [repeat_ssm].
  assert (same_identity (fst (BuildSSM state p w)) p) as H.
  { unfold BuildSSM. destruct (pw_milliseconds w) as [now w1]. destruct (BuildSsmFromRequestor _ _ _ _ _) as [[ssm|] s]; [|done].
    cbn. unfold EncodeAndBroadcastSSM. by destruct (encode_ssm ssm). }
  destruct (BuildSSM state p w) as [p1 w1]. eapply same_identity_trans; [apply IH|done].
Qed.

Lemma HandleSRM_PRS_again srm v now now' seq r p :
  let p' := HandleSRM_PRS srm v now seq r p in
  config p' = config p /\ HandleSRM_PRS srm v now' seq r p' = p'.
Proof.
  unfold HandleSRM_PRS at 1. set (key := vehicle_key v). cbn zeta. case_bool_decide as E.
  - split; [done|]. unfold HandleSRM_PRS. by rewrite bool_decide_eq_true_2.
  - match goal with |- context [fold_left ?f ?l ?a] =>
      destruct (fold_same id f l a (ProcessPrsPackage_same _)) as (Hc & _ & Hs); set (q := fold_left f l a) in *
    end.
    split; [done|]. unfold HandleSRM_PRS. rewrite bool_decide_eq_true_2; [done|].
    cbn [id] in Hs. rewrite Hs. cbn. apply lookup_insert_eq.
Qed.

Lemma HandleSRM_PRG_again srm v now now' seq r p w w' :
  let p' := fst (HandleSRM_PRG srm v now seq r p w) in
  config p' = config p /\ fst (HandleSRM_PRG srm v now' seq r p' w') = p'.
Proof.
  unfold HandleSRM_PRG at 1. set (key := vehicle_key v).
  destruct (match requestorStates p !! key with Some s => rs_sequenceNumber s =? seq | None => false end) eqn:E.
  { cbn [fst]. split; [done|]. unfold HandleSRM_PRG. fold key. by rewrite E. }
  destruct (pw_milliseconds w) as [ms w2]. destruct (sweep_spec ms p w2) as [Hf _].
  destruct (SweepStaleTrackedRequests ms p w2) as [p1 w3]. cbn [fst] in Hf.
  destruct (pw_milliseconds w3) as [ms2 w4].
  match goal with |- context [fold_left ?f ?l ?a0] =>
    pose proof (fold_same (fun acc => fst (fst acc)) f l a0 (fun a x => proj1 (ProcessPrgPackage_same _ a x))) as Hs;
    pose proof (fold_ok (fun acc => rs_sequenceNumber (snd (fst acc)) = seq) f l a0) as Hq;
    destruct (fold_left f l a0) as [[p2 st] w5]
  end.
  cbn [fst snd] in *. destruct Hs as (Hc & _ & _).
  assert (rs_sequenceNumber st = seq) as Hst.
  { apply Hq; [|done]. intros a x <-. apply ProcessPrgPackage_same. }
  set (p3 := set_requestorStates _ p2).
  destruct (repeat_ssm_same (Z.to_nat (maxSsmBroadcastsPerStatus (config p3))) st p3 w5) as (Hc4 & Hr4 & _).
  destruct (repeat_ssm _ st p3 w5) as [p4 w6]. cbn [fst] in *. cbn zeta. split.
  - rewrite Hc4. cbn. rewrite Hc, Hf. done.
  - unfold HandleSRM_PRG. rewrite Hr4. cbn. rewrite lookup_insert_eq, Hst, Z.eqb_refl. done.
Qed.

(** C22: a request message that arrives again, from the same vehicle with the
    same sequence number, has no effect at all, in either role: neither the
    table nor what is tracked changes, and nothing is broadcast. *)
Theorem srm_idempotent srm p w w' :
  srm_requests srm <> [] ->
  let p' := fst (HandleSRM (Some srm) p w) in
  fst (HandleSRM (Some srm) p' w') = p'.
Proof.
  intros Hne p'. subst p'. unfold HandleSRM. destruct (srm_requests srm) as [|r rs]; [done|].
  destruct (pw_seconds w) as [now w1], (pw_seconds w') as [now' w1'].
  set (v := ExtractVehicleID _). set (seq := u8 _). set (role := default 0 _).
  destruct (pluginRole (config p)) eqn:Er.
  - destruct (HandleSRM_PRS_again srm v now now' seq role p) as [Hc Ha]. cbn [fst]. by rewrite Hc, Er.
  - destruct (HandleSRM_PRG_again srm v now now' seq role p w1 w1') as [Hc Ha].
    destruct (HandleSRM_PRG srm v now seq role p w1) as [q wq]. cbn [fst] in *. by rewrite Hc, Er.
Qed.

(** ** What a change of the configuration leaves *)
Definition same_exchange (p q : PluginState) : Prop :=
  running p = running q /\ table (processor (server p)) = table (processor (server q))
  /\ lastSentServiceRequest (server p) = lastSentServiceRequest (server q)
  /\ prsBusy (server p) = prsBusy (server q).

Lemma set_lanes_frame ls : forall p,
  same_exchange (fold_left set_lane ls p) p /\ config (fold_left set_lane ls p) = config p.
Proof.
  induction ls as [|l ls IH]; intros p; [by split_all|]. cbn [fold_left].
  unfold same_exchange in *. by destruct (IH (set_lane p l)) as [(-> & -> & -> & ->) ->].
Qed.

Lemma add_controllers_frame cfgs : forall acc,
  same_exchange (fst (fold_left add_controller cfgs acc)) (fst acc)
  /\ config (fst (fold_left add_controller cfgs acc)) = config (fst acc).
Proof.
  induction cfgs as [|cfg cfgs IH]; intros [p w]; [by split_all|]. cbn [fold_left].
  unfold same_exchange in *. destruct (IH (add_controller (p, w) cfg)) as [(-> & -> & -> & ->) ->]. unfold add_controller.
  by destruct (pw_new_client _ _ _) as [[what|] w'].
Qed.

Lemma UpdateConfigSettings_frame c p w :
  let p' := fst (UpdateConfigSettings c p w) in
  same_exchange p' p /\ config p' = read_settings c (config p).
Proof.
  unfold UpdateConfigSettings, same_exchange. set (p1 := set_processor _ _).
  set (p2 := match parseLaneStrategyMapping _ with inr _ => _ | inl _ => _ end).
  assert (same_exchange p2 p /\ config p2 = read_settings c (config p)) as [H2 C2].
  { subst p2. unfold same_exchange. destruct (parseLaneStrategyMapping _) as [|ls]; [by split_all|].
    destruct (set_lanes_frame ls p1) as [(-> & -> & -> & ->) ->]. by split_all. }
  destruct (parseTscConfigurationList _) as [|cfgs]; [done|].
  destruct (add_controllers_frame cfgs (set_controllers ∅ p2, w)) as [(-> & -> & -> & ->) ->]. done.
Qed.

(** A plugin that is made a server by a change of its configuration does
    not start to exchange: it takes requests into its table from then on, but
    the loop that would send them to a controller is only started on
    registration. *)
Theorem server_not_started c p w :
  running p = false -> config_string c "PluginRole" = Some "PRS" ->
  let p' := fst (OnConfigChanged c p w) in
  pluginRole (config p') = PRS /\ running p' = false.
Proof.
  intros Hr Hrole. unfold OnConfigChanged. destruct (UpdateConfigSettings_frame c p w) as [(-> & _) ->].
  cbn. by rewrite Hrole.
Qed.

(** A controller that replaces another is not sent the table while the table is
    the one the other was sent last. *)
Theorem new_controller_not_told c p w {ctl : Controller W} w1 :
  let data := fun q => EncodeServiceRequest (table (processor (server q))) (prsBusy (server q)) in
  lastSentServiceRequest (server p) = data p ->
  let p' := fst (OnConfigChanged c p w) in
  send_if_changed (data p') (server p') w1 = (true, server p', w1).
Proof.
  intros data Hl p'. subst p'. unfold OnConfigChanged, data in *.
  destruct (UpdateConfigSettings_frame c p w) as [(_ & -> & Hl' & ->) _].
  unfold send_if_changed. rewrite Hl', <- Hl. by rewrite bool_decide_eq_true_2.
Qed.

(** The limit of broadcasts the plugin's manifest documents,
    "MaxBroadcastsPerStatus", has no effect: configurations that differ in it
    only leave the plugin in the same state. *)
Theorem documented_limit_ignored c c' p w :
  (forall key, key <> "MaxBroadcastsPerStatus" ->
     config_string c key = config_string c' key
     /\ forall bits, config_unsigned c bits key = config_unsigned c' bits key) ->
  OnConfigChanged c p w = OnConfigChanged c' p w.
Proof.
  intros H.
  assert (forall key, String.eqb key "MaxBroadcastsPerStatus" = false ->
    config_string c key = config_string c' key) as Hs.
  { intros key E. apply H. by apply String.eqb_neq. }
  assert (forall bits key, String.eqb key "MaxBroadcastsPerStatus" = false ->
    config_unsigned c bits key = config_unsigned c' bits key) as Hu.
  { intros bits key E. apply H. by apply String.eqb_neq. }
  unfold OnConfigChanged, UpdateConfigSettings, read_settings.
  rewrite (Hs "PluginRole"), (Hs "ReserviceClassTimes"), (Hs "LaneStrategyMapping"), (Hs "TSC_Configuration_List") by done.
  by rewrite (Hu 16 "EstimatedTimeofArrival"), (Hu 16 "EstimatedDepartureTime"), (Hu 32 "PollIntervalMs"),
    (Hu 32 "TimeToLiveSec"), (Hu 32 "MaxSsmBroadcastsPerStatus") by done.
Qed.
End plugin.

(** * Witnesses *)
(** Configurations are association lists of keys with texts and numbers; a JSON
    text has no entries; the world is a clock. *)
#[local] Instance sample_config : PluginConfig (list (string * (string * Z))).
Proof.
  refine {| config_string := fun c key => fst <$> (snd <$> List.find (fun e => String.eqb (fst e) key) c);
            config_unsigned := fun c w key =>
              n ← snd <$> (snd <$> List.find (fun e => String.eqb (fst e) key) c);
              if (0 <=? n) && (n <? 2 ^ w) then Some n else None |}.
  intros c w key v H. destruct (snd <$> (snd <$> List.find _ c)) as [n|]; [|done]. cbn in H.
  destruct (Z.leb_spec 0 n), (Z.ltb_spec n (2 ^ w)); try done. by injection H as <-.
Defined.
#[local] Instance sample_tree : PropertyTree unit := {|
  read_json := fun _ => Some []; get_long := fun _ _ => None; get_int := fun _ _ => None;
  get_uint16 := fun _ _ => None; get_text := fun _ _ => None |}.
#[local] Instance sample_controller : Controller Z := {|
  co_set := fun _ w => (true, w); co_get := fun w => (None, w); co_sleep := fun ms w => w + ms;
  co_running := fun _ => true; co_seconds := fun w => w / 1000 |}.
#[local] Instance sample_world : PriorityWorld Z := {|
  pw_new_client := fun _ _ w => (None, w); pw_set := fun _ _ _ w => (true, w);
  pw_controller := fun _ => sample_controller; pw_seconds := fun w => (w / 1000, w);
  pw_milliseconds := fun w => (w, w); pw_sleep := fun ms w => w + ms |}.
#[local] Instance sample_maps : UnorderedMaps.
Proof.
  refine {| iteration := map_to_list; first_controller := fun m => snd <$> head (map_to_list m) |}; [done|].
  intros m. destruct (map_to_list m) as [|[k i] l] eqn:E; cbn.
  - by apply map_to_list_empty_iff.
  - exists k. apply elem_of_map_to_list. rewrite E. by left.
Defined.
#[local] Instance sample_codec : SsmCodec := {| encode_ssm := fun m => Some [ssm_sequenceNumber m] |}.

Definition sample_priority : PluginState :=
  set_processor (SetLaneStrategy 9709 8 5 Processor_new) (PluginState_new 5 3 1000 30).
Definition sample_srm : SignalRequestMessage :=
  mkSrm (VehicleID_entityID [1; 2; 3; 4]) (Some 6) (Some 12) [Some sample_package].

#[local] Existing Instances sample_numbers sample_J2735 insertion_StdSort.

(** A request while the server is busy, between the answer of the controller and the
    part of the exchange that applies it. *)
Definition sample_interleaved : PluginState :=
  set_prsBusy false (fst (HandleSRM (Some sample_srm) (set_prsBusy true (PluginState_new 5 3 1000 30)) 1700000000000)).
Definition sample_applied : PluginState :=
  set_processor (exchange (processor (server sample_interleaved)) (replicate MAX_SERVICE_REQUESTS (mkRow 0 0 0 idleNotValid), 1700000001))
    sample_interleaved.
Lemma plugin_invariant_witness : plugin_ok sample_applied.
Proof.
  apply (plugin_invariant (C := list (string * (string * Z))) (node := unit) (W := Z) 5 3 1000 30).
  eapply rtc_l; [apply (pstep_srm_flag true (Some sample_srm) _ 1700000000000)|].
  apply rtc_once, pstep_apply.
Defined.

Lemma srm_idempotent_witness :
  fst (HandleSRM (Some sample_srm) (fst (HandleSRM (Some sample_srm) sample_priority 1700000000000)) 1700000000050)
  = fst (HandleSRM (Some sample_srm) sample_priority 1700000000000).
Proof. by apply srm_idempotent. Defined.

Lemma server_not_started_witness :
  running (fst (OnConfigChanged [("PluginRole", ("PRS", 0))] sample_priority 0)) = false.
Proof. by apply (server_not_started [("PluginRole", ("PRS", 0))] sample_priority 0). Defined.

Lemma documented_limit_ignored_witness :
  OnConfigChanged [("MaxBroadcastsPerStatus", ("9", 9))] sample_priority 0 = OnConfigChanged [] sample_priority 0.
Proof.
  apply documented_limit_ignored. intros key Hk. cbn [config_string config_unsigned sample_config List.find fst].
  destruct (String.eqb_spec "MaxBroadcastsPerStatus" key); [congruence|done].
Defined.
End PriorityPlugin.
