(* ===== verification/Spat.v ===== *)
(** The signal controller message of the SPaT plugin,
    [src/src/v2i-hub/SpatPlugin/src/NTCIP1202.cpp]: the packed structure as its
    bytes, the getters, and the conversion to a J2735 SPAT message.

    A computation with undefined behaviour (a shift by a negative amount or by
    32 and more, an index beyond the array) is [None]. The structures the code
    fills are records; their encoding is generated code. *)
From Stdlib Require Import Ascii.
From S2P Require Import Prelude OrdMap Text.
Open Scope Z_scope.

Module Spat.
(** * The structure [Ntcip1202Ext], packed *)
Definition PHASE_TIME_SIZE : nat := 13.
Definition struct_size : nat := 245.

Record SignalGroupMapping := mkMapping { SignalGroupId : Z; PhaseId : Z; Type_ : string }.
Record t := mkSpat {
  ntcip1202Data : list Z;
  phaseToIndexMapping : list (Z * Z);
  signalGroupMappingList : list SignalGroupMapping }.

Definition byte_of (c : t) (o : nat) : Z := nth o (ntcip1202Data c) 0.
(** [ntohs] of the field at an offset. *)
Definition ntohs_at (c : t) (o : nat) : Z := byte_of c o * 256 + byte_of c (S o).

Definition phase_offset (i : nat) : nat := 2 + i * PHASE_TIME_SIZE.
Definition phaseNumber (c : t) (i : nat) : Z := byte_of c (phase_offset i).
Definition phaseStatusGroupReds := 210%nat.
Definition phaseStatusGroupYellows := 212%nat.
Definition phaseStatusGroupGreens := 214%nat.
Definition phaseStatusGroupDontWalks := 216%nat.
Definition phaseStatusGroupPedClears := 218%nat.
Definition phaseStatusGroupWalks := 220%nat.
Definition overlapStatusGroupReds := 222%nat.
Definition overlapStatusGroupYellows := 224%nat.
Definition overlapStatusGroupGreens := 226%nat.
Definition flashingOutputPhaseStatus := 228%nat.
Definition flashingOutputOverlapStatus := 230%nat.
Definition spatIntersectionStatus := 232%nat.
Definition spatPedestrianCall := 241%nat.
Definition spatPedestrianDetect := 243%nat.

(** * Receiving *)
Inductive copy_error := EmptyPayload | PayloadTooLarge.

(** The index of every phase with a number; a later entry with the same number
    replaces an earlier one. *)
Fixpoint index_phases (c : t) (n : nat) : list (Z * Z) :=
  match n with
  | O => []
  | S i =>
      let m := index_phases c i in
      if 0 <? phaseNumber c i then OrdMap.insert (phaseNumber c i) (Z.of_nat i) m else m
  end.
Definition copyBytesIntoNtcip1202 (buff : option (list Z)) (numBytes : Z) (c : t) : copy_error + t :=
  match buff with
  | None => inl EmptyPayload
  | Some b =>
      if numBytes <=? 0 then inl EmptyPayload
      else if Z.of_nat struct_size <? numBytes then inl PayloadTooLarge
      else
        let n := Z.to_nat numBytes in
        let c1 := mkSpat (take n b ++ replicate (struct_size - n) 0) [] (signalGroupMappingList c) in
        inr (mkSpat (ntcip1202Data c1) (index_phases c1 16) (signalGroupMappingList c1))
  end.

(** * Getters *)

(** [_phaseToIndexMapping[phaseNumber]]: a phase without an entry gets 0. *)
Definition phase_index (c : t) (phase : Z) : nat :=
  Z.to_nat (default 0 (OrdMap.find (u8 phase) (phaseToIndexMapping c))).
Definition time_field (c : t) (k : nat) (phase : Z) : Z :=
  ntohs_at c (phase_offset (phase_index c phase) + k).
Definition getVehicleMinTime (c : t) := time_field c 1.
Definition getVehicleMaxTime (c : t) := time_field c 3.
Definition getPedMinTime (c : t) := time_field c 5.
Definition getPedMaxTime (c : t) := time_field c 7.
Definition getOverlapMinTime (c : t) := time_field c 9.
Definition getOverlapMaxTime (c : t) := time_field c 11.

(** [(ntohs(field) >> (phaseNumber - 1)) & 0x01]. *)
Definition status_bit (c : t) (field : nat) (phase : Z) : option bool :=
  if (0 <=? phase - 1) && (phase - 1 <? 32)
  then Some (negb (Z.land (Z.shiftr (ntohs_at c field) (phase - 1)) 1 =? 0))
  else None.
Definition getPhaseFlashingStatus (c : t) := status_bit c flashingOutputPhaseStatus.
Definition getOverlapFlashingStatus (c : t) := status_bit c flashingOutputOverlapStatus.
Definition getPhaseRedStatus (c : t) := status_bit c phaseStatusGroupReds.
Definition getPhaseYellowStatus (c : t) := status_bit c phaseStatusGroupYellows.
Definition getPhaseGreensStatus (c : t) := status_bit c phaseStatusGroupGreens.
Definition getPhaseDontWalkStatus (c : t) := status_bit c phaseStatusGroupDontWalks.
Definition getPhasePedClearsStatus (c : t) := status_bit c phaseStatusGroupPedClears.
Definition getPhaseWalkStatus (c : t) := status_bit c phaseStatusGroupWalks.
Definition getOverlapRedStatus (c : t) := status_bit c overlapStatusGroupReds.
Definition getOverlapYellowStatus (c : t) := status_bit c overlapStatusGroupYellows.
Definition getOverlapGreenStatus (c : t) := status_bit c overlapStatusGroupGreens.
Definition getSpatPedestrianDetect (c : t) := status_bit c spatPedestrianDetect.
Definition getSpatPedestrianCall (c : t) := status_bit c spatPedestrianCall.
(** [ntohs] of a one-byte field, which moves it to the high byte. *)
Definition isFlashingStatus (c : t) : bool :=
  negb (Z.shiftr (byte_of c spatIntersectionStatus * 256) 7 =? 0).
Definition isPhaseFlashing (c : t) : bool := negb (ntohs_at c flashingOutputPhaseStatus =? 0).

Fixpoint signal_group (l : list SignalGroupMapping) (phase : Z) (kind : string) (found : Z) : Z :=
  match l with
  | [] => found
  | it :: l' =>
      signal_group l' phase kind
        (if (PhaseId it =? phase) && iequals (Type_ it) kind then SignalGroupId it else found)
  end.
Definition getVehicleSignalGroupForPhase (c : t) (phase : Z) : Z :=
  signal_group (signalGroupMappingList c) phase "vehicle" (-1).
Definition getPedestrianSignalGroupForPhase (c : t) (phase : Z) : Z :=
  signal_group (signalGroupMappingList c) phase "pedestrian" (-1).

(** * Time *)

(** The J2735 time mark. *)
Definition getAdjustedTime (offset_tenthofSec msEpoch : Z) : Z :=
  let epochMs := u64 (msEpoch + u32 (offset_tenthofSec * 100)) in
  let epochSec := epochMs / 1000 in
  tm_min epochSec * 600 + tm_sec epochSec * 10 + (epochMs `mod` 1000) / 100.

(** * The SPAT message *)
Inductive MovementPhaseState :=
| dark | stop_Then_Proceed | stop_And_Remain | permissive_Movement_Allowed
| protected_Movement_Allowed | protected_clearance | caution_Conflicting_Traffic.
Record MovementEvent := mkEvent {
  eventState : MovementPhaseState; minEndTime : Z; maxEndTime : option Z }.
Record MovementState := mkMovement {
  signalGroup : Z; state_time_speed : MovementEvent; pedBicycleDetect : bool }.
Record IntersectionState := mkIntersection {
  name : string; id : Z; revision : Z; moy : Z; timeStamp : Z; status : list Z;
  states : list MovementState }.

Definition max_mark (time ms : Z) : option Z :=
  if 0 <? time then Some (getAdjustedTime time ms) else None.

Definition populateVehicleSignalGroup (c : t) (phase ms : Z) : option MovementEvent :=
  isFlashing ← getPhaseFlashingStatus c phase;
  red ← getPhaseRedStatus c phase;
  state ←
    (if red : bool then Some (if isFlashing : bool then stop_Then_Proceed else stop_And_Remain)
     else
       yellow ← getPhaseYellowStatus c phase;
       if yellow : bool then Some (if isFlashing : bool then caution_Conflicting_Traffic else protected_clearance)
       else
         green ← getPhaseGreensStatus c phase;
         Some (if green : bool then protected_Movement_Allowed else dark));
  Some (mkEvent state (getAdjustedTime (getVehicleMinTime c phase) ms) (max_mark (getVehicleMaxTime c phase) ms)).

(** The test for a maximum reads the array at the phase number. *)
Definition ped_max_present (c : t) (phase : Z) : option bool :=
  if (0 <=? phase) && (phase <? 16)
  then Some (negb (ntohs_at c (phase_offset (Z.to_nat phase) + 7) =? 0))
  else None.

Definition populatePedestrianSignalGroup (c : t) (phase ms : Z) : option (MovementEvent * bool) :=
  dontWalk ← getPhaseDontWalkStatus c phase;
  state ←
    (if dontWalk : bool then Some stop_And_Remain
     else
       clears ← getPhasePedClearsStatus c phase;
       if clears : bool then Some protected_clearance
       else
         walk ← getPhaseWalkStatus c phase;
         Some (if walk : bool then permissive_Movement_Allowed else dark));
  present ← ped_max_present c phase;
  detect ← getSpatPedestrianDetect c phase;
  Some (mkEvent state (getAdjustedTime (getPedMinTime c phase) ms)
          (if present : bool then Some (getAdjustedTime (getPedMaxTime c phase) ms) else None), detect).

Definition populateOverlapSignalGroup (c : t) (phase ms : Z) : option MovementEvent :=
  isFlashing ← getOverlapFlashingStatus c phase;
  red ← getOverlapRedStatus c phase;
  state ←
    (if red : bool then Some (if isFlashing : bool then stop_Then_Proceed else stop_And_Remain)
     else
       yellow ← getOverlapYellowStatus c phase;
       if yellow : bool then Some (if isFlashing : bool then caution_Conflicting_Traffic else protected_clearance)
       else
         green ← getOverlapGreenStatus c phase;
         Some (if green : bool then permissive_Movement_Allowed else dark));
  Some (mkEvent state (getAdjustedTime (getOverlapMinTime c phase) ms) (max_mark (getOverlapMaxTime c phase) ms)).

(** One of the loops over the mapping: the entries of a kind for a phase that
    have a signal group. *)
Fixpoint movements_of (populate : Z -> Z -> option (MovementEvent * bool)) (kind : string) (phase ms : Z)
    (l : list SignalGroupMapping) : option (list MovementState) :=
  match l with
  | [] => Some []
  | it :: l' =>
      if (PhaseId it =? phase) && iequals (Type_ it) kind then
        if 0 <? SignalGroupId it then
          e ← populate phase ms;
          rest ← movements_of populate kind phase ms l';
          Some (mkMovement (SignalGroupId it) (fst e) (snd e) :: rest)
        else movements_of populate kind phase ms l'
      else movements_of populate kind phase ms l'
  end.

Definition no_detect (populate : Z -> Z -> option MovementEvent) (phase ms : Z) : option (MovementEvent * bool) :=
  e ← populate phase ms; Some (e, false).

Fixpoint movements (c : t) (ms : Z) (entries : list nat) : option (list MovementState) :=
  match entries with
  | [] => Some []
  | m :: rest =>
      let phase := phaseNumber c m in
      v ← movements_of (no_detect (populateVehicleSignalGroup c)) "vehicle" phase ms (signalGroupMappingList c);
      p ← movements_of (populatePedestrianSignalGroup c) "pedestrian" phase ms (signalGroupMappingList c);
      o ← movements_of (no_detect (populateOverlapSignalGroup c)) "overlap" phase ms (signalGroupMappingList c);
      l ← movements c ms rest;
      Some (v ++ p ++ o ++ l)
  end.

Definition ToJ2735SPAT (c : t) (msEpoch : Z) (intersectionName : string) (intersectionId : Z)
  : option IntersectionState :=
  let epochSec := msEpoch / 1000 in
  let minOfYear := tm_min epochSec + tm_hour epochSec * 60 + tm_yday epochSec * 24 * 60 in
  let msOfMin := 1000 * (epochSec `mod` 60) + msEpoch `mod` 1000 in
  let statusIntersection := byte_of c spatIntersectionStatus in
  l ← movements c msEpoch (seq 0 16);
  Some (mkIntersection intersectionName intersectionId 1 minOfYear msOfMin
          [u8 (Z.shiftr statusIntersection 8); u8 statusIntersection] l).

(** * Facts *)

(** The time mark is the tenth of a second of the hour in which the phase
    changes. *)
Theorem time_mark offset ms :
  0 <= offset <= 65535 -> 0 <= ms < 2 ^ 63 ->
  getAdjustedTime offset ms = ((ms + offset * 100) / 100) `mod` 36000
  /\ 0 <= getAdjustedTime offset ms < 36000.
Proof.
  intros Ho Hm. unfold getAdjustedTime, tm_min, tm_sec.
  rewrite (u32_small (offset * 100)), u64_small by lia.
  Z.to_euclidean_division_equations. lia.
Qed.

Lemma status_bit_spec c field phase :
  1 <= phase <= 32 -> status_bit c field phase = Some (Z.testbit (ntohs_at c field) (phase - 1)).
Proof.
  intros Hp. unfold status_bit. rewrite (proj2 (Z.leb_le 0 (phase - 1))), (proj2 (Z.ltb_lt _ _)) by lia. cbn. f_equal.
  change 1 with (Z.ones 1) at 2. rewrite Z.land_ones by lia. change (2 ^ 1) with 2.
  rewrite Zmod_odd, <- Z.bit0_odd, Z.shiftr_spec, Z.add_0_l by lia. by destruct (Z.testbit _ _).
Qed.

(** The bit of a phase in a status field. *)
Definition bit (c : t) (field : nat) (phase : Z) : bool := Z.testbit (ntohs_at c field) (phase - 1).

Definition traffic_state (flash red yellow green : bool) (go : MovementPhaseState) : MovementPhaseState :=
  if red then (if flash then stop_Then_Proceed else stop_And_Remain)
  else if yellow then (if flash then caution_Conflicting_Traffic else protected_clearance)
  else if green then go else dark.
Definition pedestrian_state (dontWalk clears walk : bool) : MovementPhaseState :=
  if dontWalk then stop_And_Remain else if clears then protected_clearance
  else if walk then permissive_Movement_Allowed else dark.

(** The time field [k] of entry [m]. *)
Definition entry_time (c : t) (m k : nat) : Z := ntohs_at c (phase_offset m + k).

(** ** What the message should say of entry [m] *)
Definition vehicle_event (c : t) (ms : Z) (m : nat) : MovementEvent * bool :=
  let p := phaseNumber c m in
  (mkEvent (traffic_state (bit c flashingOutputPhaseStatus p) (bit c phaseStatusGroupReds p)
              (bit c phaseStatusGroupYellows p) (bit c phaseStatusGroupGreens p) protected_Movement_Allowed)
     (getAdjustedTime (entry_time c m 1) ms) (max_mark (entry_time c m 3) ms), false).
Definition overlap_event (c : t) (ms : Z) (m : nat) : MovementEvent * bool :=
  let p := phaseNumber c m in
  (mkEvent (traffic_state (bit c flashingOutputOverlapStatus p) (bit c overlapStatusGroupReds p)
              (bit c overlapStatusGroupYellows p) (bit c overlapStatusGroupGreens p) permissive_Movement_Allowed)
     (getAdjustedTime (entry_time c m 9) ms) (max_mark (entry_time c m 11) ms), false).
(** The maximum of a pedestrian movement is there when the entry at the index
    of the phase number has one. *)
Definition pedestrian_event (c : t) (ms : Z) (m : nat) : MovementEvent * bool :=
  let p := phaseNumber c m in
  (mkEvent (pedestrian_state (bit c phaseStatusGroupDontWalks p) (bit c phaseStatusGroupPedClears p)
              (bit c phaseStatusGroupWalks p))
     (getAdjustedTime (entry_time c m 5) ms)
     (if entry_time c (Z.to_nat p) 7 =? 0 then None else Some (getAdjustedTime (entry_time c m 7) ms)),
   bit c spatPedestrianDetect p).

Definition matches (kind : string) (phase : Z) (it : SignalGroupMapping) : bool :=
  (PhaseId it =? phase) && iequals (Type_ it) kind && (0 <? SignalGroupId it).
Definition movements_for (c : t) (kind : string) (e : MovementEvent * bool) (m : nat) : list MovementState :=
  map (fun it => mkMovement (SignalGroupId it) (fst e) (snd e))
    (List.filter (matches kind (phaseNumber c m)) (signalGroupMappingList c)).
Definition entry_movements (c : t) (ms : Z) (m : nat) : list MovementState :=
  movements_for c "vehicle" (vehicle_event c ms m) m
  ++ movements_for c "pedestrian" (pedestrian_event c ms m) m
  ++ movements_for c "overlap" (overlap_event c ms m) m.

(** ** Assumptions on the message and the mapping *)

(** The numbered entries have different numbers. *)
Definition numbers_distinct (c : t) : Prop :=
  forall i j, (i < 16)%nat -> (j < 16)%nat -> 0 < phaseNumber c i -> phaseNumber c i = phaseNumber c j -> i = j.
(** A group that is sent belongs to a phase the fields have. *)
Definition mapping_ok (it : SignalGroupMapping) : Prop :=
  0 < SignalGroupId it ->
  1 <= PhaseId it <= 32 /\ (iequals (Type_ it) "pedestrian" = true -> PhaseId it <= 15).

Lemma index_phases_find c n i :
  numbers_distinct c -> (n <= 16)%nat -> (i < n)%nat -> 0 < phaseNumber c i ->
  OrdMap.find (phaseNumber c i) (index_phases c n) = Some (Z.of_nat i).
Proof.
  intros Hd. induction n as [|n IH]; intros Hn Hi Hp; [lia|]. cbn [index_phases].
  destruct (decide (i = n)) as [->|Hne].
  - rewrite (proj2 (Z.ltb_lt _ _)) by done. by rewrite OrdMap.find_insert, OrdMap.keqb_refl.
  - specialize (IH ltac:(lia) ltac:(lia) Hp). destruct (0 <? phaseNumber c n); [|done].
    rewrite OrdMap.find_insert. destruct (OrdMap.keqb _ _) eqn:E; [|done].
    apply OrdMap.keqb_spec in E. exfalso. apply Hne. apply Hd; lia || done.
Qed.

Lemma movements_of_spec populate kind phase ms e l :
  (existsb (matches kind phase) l = true -> populate phase ms = Some e) ->
  movements_of populate kind phase ms l
  = Some (map (fun it => mkMovement (SignalGroupId it) (fst e) (snd e)) (List.filter (matches kind phase) l)).
Proof.
  induction l as [|it l IH]; intros He; cbn [movements_of List.filter existsb] in *; [done|].
  change (matches kind phase it)
    with ((PhaseId it =? phase) && iequals (Type_ it) kind && (0 <? SignalGroupId it)) in *.
  destruct ((PhaseId it =? phase) && iequals (Type_ it) kind); cbn in *; [|by apply IH].
  destruct (0 <? SignalGroupId it); cbn in *; [|by apply IH].
  rewrite He by done. cbn. rewrite IH by (intros; by apply He). done.
Qed.

Lemma matches_phase c kind phase l :
  signalGroupMappingList c = l -> Forall mapping_ok l -> existsb (matches kind phase) l = true ->
  1 <= phase <= 32 /\ (kind = "pedestrian"%string -> phase <= 15).
Proof.
  intros _ Hok (it & Hin & Hm)%existsb_exists. unfold matches in Hm.
  apply andb_prop in Hm as [[Hph Hk]%andb_prop Hs%Z.ltb_lt]. apply Z.eqb_eq in Hph. subst phase.
  apply list_elem_of_In in Hin. destruct (proj1 (Forall_forall _ _) Hok it Hin Hs) as [H1 H2].
  split; [done|]. intros ->. by apply H2.
Qed.

(** A message that has been received. *)
Definition received (c : t) : Prop :=
  phaseToIndexMapping c = index_phases c 16 /\ Forall (fun b => 0 <= b < 256) (ntcip1202Data c).

Lemma byte_range c o : received c -> 0 <= byte_of c o < 256.
Proof.
  intros [_ Hb]. unfold byte_of. destruct (decide (o < length (ntcip1202Data c))%nat) as [Hl|Hl].
  - apply (proj1 (List.Forall_forall _ _) Hb). by apply nth_In.
  - rewrite nth_overflow by lia. lia.
Qed.

Lemma phase_index_spec c m :
  received c -> numbers_distinct c -> (m < 16)%nat -> 0 < phaseNumber c m ->
  phase_index c (phaseNumber c m) = m.
Proof.
  intros Hr Hd Hm Hp. unfold phase_index. pose proof (byte_range c (phase_offset m) Hr) as Hb.
  rewrite u8_small by exact Hb. destruct Hr as [-> _]. rewrite index_phases_find by done. cbn. lia.
Qed.

#[local] Arguments phase_offset : simpl never.

Section entry.
Context (c : t) (ms : Z) (Hr : received c) (Hd : numbers_distinct c).
Context (m : nat) (Hm : (m < 16)%nat) (Hp : 1 <= phaseNumber c m <= 32).

Lemma populate_vehicle : no_detect (populateVehicleSignalGroup c) (phaseNumber c m) ms = Some (vehicle_event c ms m).
Proof.
  unfold no_detect, populateVehicleSignalGroup, getPhaseFlashingStatus, getPhaseRedStatus, getPhaseYellowStatus,
    getPhaseGreensStatus, getVehicleMinTime, getVehicleMaxTime, time_field.
  rewrite !status_bit_spec by done. cbn. rewrite !phase_index_spec by (done || lia).
  unfold vehicle_event, traffic_state, bit, entry_time.
  by repeat match goal with |- context [if ?b then _ else _] => destruct b end.
Qed.

Lemma populate_overlap : no_detect (populateOverlapSignalGroup c) (phaseNumber c m) ms = Some (overlap_event c ms m).
Proof.
  unfold no_detect, populateOverlapSignalGroup, getOverlapFlashingStatus, getOverlapRedStatus, getOverlapYellowStatus,
    getOverlapGreenStatus, getOverlapMinTime, getOverlapMaxTime, time_field.
  rewrite !status_bit_spec by done. cbn. rewrite !phase_index_spec by (done || lia).
  unfold overlap_event, traffic_state, bit, entry_time.
  by repeat match goal with |- context [if ?b then _ else _] => destruct b end.
Qed.

Lemma populate_pedestrian :
  phaseNumber c m <= 15 -> populatePedestrianSignalGroup c (phaseNumber c m) ms = Some (pedestrian_event c ms m).
Proof.
  intros H15. unfold populatePedestrianSignalGroup, getPhaseDontWalkStatus, getPhasePedClearsStatus,
    getPhaseWalkStatus, getSpatPedestrianDetect, getPedMinTime, getPedMaxTime, time_field, ped_max_present.
  rewrite !status_bit_spec by done. rewrite (proj2 (Z.leb_le 0 _)), (proj2 (Z.ltb_lt _ 16)) by lia. cbn.
  rewrite !phase_index_spec by (done || lia).
  unfold pedestrian_event, pedestrian_state, bit, entry_time.
  destruct (ntohs_at c (phase_offset (Z.to_nat (phaseNumber c m)) + 7) =? 0); cbn [negb];
    by repeat match goal with |- context [if ?b then _ else _] => destruct b end.
Qed.
End entry.

Lemma movements_spec c ms ms_entries :
  received c -> numbers_distinct c -> Forall mapping_ok (signalGroupMappingList c) ->
  Forall (fun m => (m < 16)%nat) ms_entries ->
  movements c ms ms_entries = Some (concat (map (entry_movements c ms) ms_entries)).
Proof.
  intros Hr Hd Hok. induction 1 as [|m l Hm _ IH]; cbn [movements map concat]; [done|].
  assert (forall kind, existsb (matches kind (phaseNumber c m)) (signalGroupMappingList c) = true ->
    1 <= phaseNumber c m <= 32 /\ (kind = "pedestrian"%string -> phaseNumber c m <= 15)) as Hph.
  { intros kind. by apply (matches_phase c). }
  rewrite (movements_of_spec _ "vehicle" _ ms (vehicle_event c ms m)).
  2: { intros Hx. apply populate_vehicle; try done. by apply (Hph "vehicle"%string). }
  rewrite (movements_of_spec _ "pedestrian" _ ms (pedestrian_event c ms m)).
  2: { intros Hx. apply populate_pedestrian; try done; by apply (Hph "pedestrian"%string). }
  rewrite (movements_of_spec _ "overlap" _ ms (overlap_event c ms m)).
  2: { intros Hx. apply populate_overlap; try done. by apply (Hph "overlap"%string). }
  cbn. rewrite IH. cbn. unfold entry_movements, movements_for. by rewrite <- !app_assoc.
Qed.

Lemma index_phases_ext c c' n :
  ntcip1202Data c = ntcip1202Data c' -> index_phases c n = index_phases c' n.
Proof.
  intros E. induction n as [|n IH]; cbn [index_phases]; [done|]. rewrite IH.
  unfold phaseNumber, byte_of. by rewrite E.
Qed.

Lemma copy_received buff n c0 c :
  copyBytesIntoNtcip1202 (Some buff) n c0 = inr c -> Forall (fun b => 0 <= b < 256) buff ->
  received c /\ signalGroupMappingList c = signalGroupMappingList c0.
Proof.
  unfold copyBytesIntoNtcip1202. destruct (n <=? 0); [done|]. destruct (_ <? n); [done|].
  intros E%(inj inr) Hb. rewrite <- E. split; [|done]. unfold received. split.
  - unfold phaseToIndexMapping at 1. by apply index_phases_ext.
  - apply Forall_app. split; [by apply Forall_take|]. by apply Forall_replicate.
Qed.

(** For a received message whose numbered entries differ and a mapping
    whose groups belong to existing phases, the SPAT message is produced
    without undefined behaviour and holds, entry by entry, one movement for
    each signal group of the entry's phase, with the state the status fields
    give that phase and the times of that very entry. *)
Theorem spat_movements buff n c0 c ms nm i :
  copyBytesIntoNtcip1202 (Some buff) n c0 = inr c -> Forall (fun b => 0 <= b < 256) buff ->
  numbers_distinct c -> Forall mapping_ok (signalGroupMappingList c0) ->
  exists st, ToJ2735SPAT c ms nm i = Some st
    /\ states st = concat (map (entry_movements c ms) (seq 0 16)).
Proof.
  intros Hc Hb Hd Hok. destruct (copy_received _ _ _ _ Hc Hb) as [Hr Hl]. unfold ToJ2735SPAT.
  rewrite movements_spec; [cbn; eauto|done|done|by rewrite Hl|].
  apply Forall_forall. intros m Hin%elem_of_seq. lia.
Qed.

(** When entry [m] holds phase [m + 1], as controllers send it, whether a
    pedestrian movement gets a maximum end time depends on the pedestrian
    maximum of the next phase: without one of its own it gets the present
    time mark. *)
Theorem pedestrian_max_of_next_phase buff n c0 c ms m :
  copyBytesIntoNtcip1202 (Some buff) n c0 = inr c -> Forall (fun b => 0 <= b < 256) buff ->
  (forall j, (j < 16)%nat -> phaseNumber c j = Z.of_nat j + 1) -> (m < 15)%nat ->
  entry_time c m 7 = 0 -> entry_time c (S m) 7 <> 0 ->
  exists e d, populatePedestrianSignalGroup c (Z.of_nat m + 1) ms = Some (e, d)
    /\ maxEndTime e = Some (getAdjustedTime 0 ms).
Proof.
  intros Hc Hb Hn Hm H0 H1. destruct (copy_received _ _ _ _ Hc Hb) as [Hr _].
  assert (numbers_distinct c) as Hd.
  { intros i j Hi Hj _. rewrite !Hn by done. lia. }
  pose proof (populate_pedestrian c ms Hr Hd m ltac:(lia)) as Hpop. rewrite Hn in Hpop by lia.
  rewrite Hpop by lia. eexists _, _. split; [done|]. cbn [maxEndTime]. rewrite Hn by lia.
  replace (Z.to_nat (Z.of_nat m + 1)) with (S m) by lia. rewrite (proj2 (Z.eqb_neq _ 0)) by done. by rewrite H0.
Qed.

(** * Witnesses *)
Definition sample_mapping : t :=
  mkSpat [] [] [mkMapping 2 2 "vehicle"; mkMapping 12 2 "Pedestrian"; mkMapping 0 5 "vehicle"].
(** Phases 1 to 16; phase 2 has vehicle times 50 and 70, phase 3 a pedestrian
    maximum; phase 2 is green and has [don't walk]. *)
Definition sample_bytes : list Z := Eval vm_compute in
  let entry i := [Z.of_nat i + 1; 0; (if Nat.eqb i 1 then 50 else 0); 0; (if Nat.eqb i 1 then 70 else 0);
                  0; 0; 0; (if Nat.eqb i 2 then 30 else 0); 0; 0; 0; 0] in
  [205; 16] ++ concat (map entry (seq 0 16)) ++ [255; 253; 0; 0; 0; 2; 0; 2] ++ replicate 27 0.
Definition sample_received : t := Eval vm_compute in
  match copyBytesIntoNtcip1202 (Some sample_bytes) 245 sample_mapping with inr c => c | inl _ => sample_mapping end.

Lemma sample_numbers j : (j < 16)%nat -> phaseNumber sample_received j = Z.of_nat j + 1.
Proof. intros Hj. do 16 (destruct j as [|j]; [reflexivity|]). lia. Qed.

Lemma time_mark_witness : getAdjustedTime 50 1700003590000 = 7950.
Proof.
  rewrite (proj1 (time_mark 50 1700003590000 ltac:(lia) ltac:(lia))). reflexivity.
Defined.

Lemma spat_movements_witness :
  exists st, ToJ2735SPAT sample_received 1700003590000 "I" 9012 = Some st
    /\ states st = [mkMovement 2 (mkEvent protected_Movement_Allowed 7950 (Some 7970)) false;
                    mkMovement 12 (mkEvent stop_And_Remain 7900 (Some 7900)) false].
Proof.
  destruct (spat_movements sample_bytes 245 sample_mapping sample_received 1700003590000 "I" 9012)
    as (st & H1 & H2).
  - reflexivity.
  - repeat constructor; lia.
  - intros i j Hi Hj _. rewrite !sample_numbers by done. lia.
  - repeat constructor; cbn in *; try lia; done.
  - exists st. split; [exact H1|]. rewrite H2. vm_compute. reflexivity.
Defined.

Lemma pedestrian_max_of_next_phase_witness :
  exists e d, populatePedestrianSignalGroup sample_received (Z.of_nat 1 + 1) 1700003590000 = Some (e, d)
    /\ maxEndTime e = Some (getAdjustedTime 0 1700003590000).
Proof.
  apply (pedestrian_max_of_next_phase sample_bytes 245 sample_mapping sample_received 1700003590000 1).
  - reflexivity.
  - repeat constructor; lia.
  - exact sample_numbers.
  - lia.
  - reflexivity.
  - vm_compute. lia.
Defined.
End Spat.
