(* ===== verification/Interval.v ===== *)
(** The broadcast rate check of the intersection validation plugin,
    [src/src/v2i-hub/IntersectionValidationPlugin/src/MessageIntervalValidator.cpp]:
    the interval between two messages, the aggregation window and the text of
    the event. The exception of the code is a result of its own; [gmtime_r] and
    [strftime] are the civil calendar of the standard library. *)
From Stdlib Require Import Ascii.
From stdpp Require Import pretty.
From S2P Require Import Prelude.
Open Scope Z_scope.

Module Interval.
Definition SPAT_INTERVAL_MAX_MS : Z := 125.
Definition MAP_INTERVAL_MAX_MS : Z := 1025.

Record IntervalCheck := mkCheck { intervalMs : Z; violation : bool }.

Definition earlier_text (last now : Z) : string :=
  "Message timestamp " +:+ pretty now +:+ " ms is earlier than the last received message timestamp "
    +:+ pretty last +:+ " ms".

(** [inl] is the text of the exception. *)
Definition evaluateMessageInterval (lastTimestampMs currentTimestampMs thresholdMs : Z)
    : string + IntervalCheck :=
  if lastTimestampMs =? 0 then inr (mkCheck 0 false)
  else if currentTimestampMs <? lastTimestampMs
  then inl (earlier_text lastTimestampMs currentTimestampMs)
  else
    let interval := u64 (currentTimestampMs - lastTimestampMs) in
    inr (mkCheck interval (thresholdMs <? interval)).

Record IntervalWindowResult := mkResult {
  windowStartMs : Z; windowEndMs : Z; violationCount : Z; messageCount : Z;
  intersectionId : Z; intersectionIdMismatch : bool }.

(** The validator; the fields of the open window stand together. *)
Record t := mkValidator {
  thresholdMs : Z; lastTimestampMs : Z; lastIntervalMs : Z;
  windowOpen : bool; window : IntervalWindowResult; totalViolations : Z }.

Definition no_window : IntervalWindowResult := mkResult 0 0 0 0 (-1) false.
Definition validator (requiredThresholdMs : Z) : t :=
  mkValidator requiredThresholdMs 0 0 false no_window 0.

Definition closeWindow (s : t) : IntervalWindowResult * t :=
  (window s,
   mkValidator (thresholdMs s) (lastTimestampMs s) (lastIntervalMs s) false no_window
     (totalViolations s)).

(** A message counted in the open window. *)
Definition count_message (violating : bool) (id : Z) (w : IntervalWindowResult)
    : IntervalWindowResult :=
  mkResult (windowStartMs w) (windowEndMs w)
    (if violating then u32 (violationCount w + 1) else violationCount w)
    (u32 (messageCount w + 1)) (intersectionId w)
    (if violating && negb (id =? intersectionId w) then true else intersectionIdMismatch w).

Definition open_window (now duration id : Z) : IntervalWindowResult :=
  mkResult now (u64 (now + duration)) 1 1 id false.

Definition recordMessage (now duration id : Z) (s : t)
    : t * (string + option IntervalWindowResult) :=
  match evaluateMessageInterval (lastTimestampMs s) now (thresholdMs s) with
  | inl e =>
      (mkValidator (thresholdMs s) now 0 (windowOpen s) (window s) (totalViolations s), inl e)
  | inr check =>
      let s1 := mkValidator (thresholdMs s) (lastTimestampMs s) (intervalMs check)
                  (windowOpen s) (window s) (totalViolations s) in
      let '(closed, s2) :=
        if windowOpen s1 && (windowEndMs (window s1) <=? now)
        then let '(r, s2) := closeWindow s1 in (Some r, s2) else (None, s1) in
      let w :=
        if windowOpen s2 then count_message (violation check) id (window s2)
        else if violation check then open_window now duration id
        else window s2 in
      let total := if violation check then u32 (totalViolations s2 + 1) else totalViolations s2 in
      (mkValidator (thresholdMs s2) now (lastIntervalMs s2) (windowOpen s2 || violation check) w total,
       inr closed)
  end.

(** * The text of an event *)
(** The civil date of a number of days since 1970-01-01. *)
Definition civil_of_days (days : Z) : Z * Z * Z :=
  let z := days + 719468 in
  let era := z / 146097 in
  let doe := z mod 146097 in
  let yoe := (doe - doe / 1460 + doe / 36524 - doe / 146096) / 365 in
  let doy := doe - (365 * yoe + yoe / 4 - yoe / 100) in
  let mp := (5 * doy + 2) / 153 in
  let d := doy - (153 * mp + 2) / 5 + 1 in
  let m := if mp <? 10 then mp + 3 else mp - 9 in
  (yoe + era * 400 + (if m <=? 2 then 1 else 0), m, d).

Fixpoint zeros (n : nat) : string :=
  match n with O => "" | S n => "0" +:+ zeros n end.
(** A number padded on the left with zeros. *)
Definition padded (width : nat) (n : Z) : string :=
  let s := pretty n in zeros (width - String.length s) +:+ s.

Definition formatIso8601Utc (epochMs : Z) : string :=
  let secs := epochMs / 1000 in
  let millis := epochMs mod 1000 in
  let '(y, m, d) := civil_of_days (secs / 86400) in
  let s := secs mod 86400 in
  pretty y +:+ "-" +:+ padded 2 m +:+ "-" +:+ padded 2 d +:+ "T" +:+
  padded 2 (s / 3600) +:+ ":" +:+ padded 2 (s / 60 mod 60) +:+ ":" +:+ padded 2 (s mod 60) +:+
  "." +:+ padded 3 millis +:+ "Z".

Definition formatBroadcastRateDescription (messageType : string) (count start stop : Z) : string :=
  "There has been " +:+ pretty count +:+ " BroadcastRateEvents for " +:+ messageType +:+
  " messages between " +:+ formatIso8601Utc start +:+ " and " +:+ formatIso8601Utc stop.

Example iso_example : formatIso8601Utc 1709210096007 = "2024-02-29T12:34:56.007Z".
Proof. vm_compute. reflexivity. Qed.

(** * A sequence of messages *)
Definition closed_of (r : string + option IntervalWindowResult) : list IntervalWindowResult :=
  match r with inr (Some w) => [w] | _ => [] end.
(** The messages are pairs of a time and an intersection; the windows closed on
    the way are listed. *)
Fixpoint run (duration : Z) (ms : list (Z * Z)) (s : t) : t * list IntervalWindowResult :=
  match ms with
  | [] => (s, [])
  | (now, id) :: ms =>
      let '(s1, r) := recordMessage now duration id s in
      let '(s2, rs) := run duration ms s1 in
      (s2, closed_of r ++ rs)
  end.

(** The reference: each message with the verdict on the gap before it. A message
    that is earlier than its predecessor is left out, and the first has no gap. *)
Record judged := mkJudged { at_ : Z; of_ : Z; late : bool }.
Definition judge_one (threshold last now id : Z) : list judged :=
  if last =? 0 then [mkJudged now id false]
  else if now <? last then [] else [mkJudged now id (threshold <? now - last)].
Fixpoint judge (threshold : Z) (last : Z) (ms : list (Z * Z)) : list judged :=
  match ms with
  | [] => []
  | (now, id) :: ms =>
      judge_one threshold last now id ++ judge threshold now ms
  end.

Definition lates (l : list judged) : Z := Z.of_nat (length (List.filter late l)).
Definition other_id (id : Z) (m : judged) : bool := late m && negb (of_ m =? id).

(** The window of a run of messages: opened by a late one, and holding the
    messages up to its end. *)
Definition window_of (duration : Z) (seg : list judged) (r : IntervalWindowResult) : Prop :=
  match seg with
  | [] => False
  | m :: rest =>
      late m = true /\ Forall (fun m' => at_ m' < u64 (at_ m + duration)) rest /\
      r = mkResult (at_ m) (u64 (at_ m + duration)) (u32 (lates seg)) (u32 (Z.of_nat (length seg)))
            (of_ m) (existsb (other_id (of_ m)) rest)
  end.
Definition on_time (l : list judged) : Prop := Forall (fun m => late m = false) l.

(** A window with the messages on time before it. *)
Definition part_of (duration : Z) (p : list judged * list judged) (r : IntervalWindowResult) : Prop :=
  on_time (fst p) /\ window_of duration (snd p) r.
Definition part (p : list judged * list judged) : list judged := fst p ++ snd p.

(** The messages after the closed windows, with the open window. *)
Definition tail_of (duration : Z) (open : bool) (w : IntervalWindowResult) (l : list judged) : Prop :=
  if open then exists p, l = part p /\ part_of duration p w
  else on_time l /\ w = no_window.

(** A window is closed by the first message at or after its end. *)
Definition overdue (w : IntervalWindowResult) (l : list judged) : Prop :=
  match l with [] => False | m :: _ => windowEndMs w <= at_ m end.

(** The closed windows, in order, partition the messages before the open one. *)
Inductive accounts (duration : Z) :
    list judged -> list IntervalWindowResult -> bool -> IntervalWindowResult -> Prop :=
| accounts_open l open w : tail_of duration open w l -> accounts duration l [] open w
| accounts_closed p r l rs open w :
    part_of duration p r -> overdue r l -> accounts duration l rs open w ->
    accounts duration (part p ++ l) (r :: rs) open w.

Lemma u32_succ x : u32 (u32 x + 1) = u32 (x + 1).
Proof. unfold wrapu. by rewrite Zplus_mod_idemp_l. Qed.

Lemma lates_snoc l m : lates (l ++ [m]) = lates l + (if late m then 1 else 0).
Proof. unfold lates. rewrite List.filter_app, length_app. cbn. destruct (late m); cbn; lia. Qed.

Lemma accounts_snoc duration l rs open w open' w' m :
  accounts duration l rs open w ->
  (forall tl, tail_of duration open w tl -> tail_of duration open' w' (tl ++ [m])) ->
  accounts duration (l ++ [m]) rs open' w'.
Proof.
  induction 1 as [l open w Ht|p r l rs open w Hp Ho _ IH]; intros H.
  - by apply accounts_open, H.
  - rewrite <- app_assoc. apply accounts_closed; [done| |by apply IH].
    by destruct l.
Qed.

Lemma accounts_close duration l rs w m open' w' :
  accounts duration l rs true w -> windowEndMs w <= at_ m ->
  tail_of duration open' w' [m] ->
  accounts duration (l ++ [m]) (rs ++ [w]) open' w'.
Proof.
  remember true as open eqn:Eo. intros H. revert Eo.
  induction H as [l open w Ht|p r l rs open w Hp Ho _ IH]; intros -> He Hm.
  - destruct Ht as (p & -> & Hp). apply accounts_closed; [done|done|by apply accounts_open].
  - rewrite <- app_assoc. apply accounts_closed; [done| |by apply IH].
    by destruct l.
Qed.

Lemma window_of_snoc duration seg w m :
  window_of duration seg w -> at_ m < windowEndMs w ->
  window_of duration (seg ++ [m]) (count_message (late m) (of_ m) w).
Proof.
  destruct seg as [|m0 rest]; [done|]. cbn [window_of app].
  intros (Hl & Hr & ->) Hm. cbn in Hm. split; [done|]. split.
  { apply Forall_app. split; [done|]. by constructor. }
  unfold count_message. cbn [windowStartMs windowEndMs violationCount messageCount intersectionId
    intersectionIdMismatch].
  assert (forall b : bool, u32 (lates (m0 :: rest) + (if b then 1 else 0)) =
    (if b then u32 (u32 (lates (m0 :: rest)) + 1) else u32 (lates (m0 :: rest)))) as E.
  { intros []; [by rewrite u32_succ|by rewrite Z.add_0_r]. }
  change (m0 :: rest ++ [m]) with ((m0 :: rest) ++ [m]).
  rewrite lates_snoc, E, length_app, Nat2Z.inj_add.
  change (Z.of_nat (length [m])) with 1.
  enough (existsb (other_id (of_ m0)) (rest ++ [m]) =
    (if late m && negb (of_ m =? of_ m0) then true else existsb (other_id (of_ m0)) rest)) as ->
    by (by rewrite !u32_succ).
  rewrite existsb_app. cbn. unfold other_id. rewrite orb_false_r.
  destruct (late m && negb (of_ m =? of_ m0)); [by rewrite orb_true_r|by rewrite orb_false_r].
Qed.

Lemma window_of_open duration m :
  late m = true -> window_of duration [m] (open_window (at_ m) duration (of_ m)).
Proof. intros H. cbn. split; [done|]. split; [constructor|]. unfold lates. cbn. by rewrite H. Qed.

(** A message in the state of the validator after the closing of a window. *)
Lemma tail_first duration m :
  tail_of duration (late m) (if late m then open_window (at_ m) duration (of_ m) else no_window) [m].
Proof.
  destruct (late m) eqn:E; cbn.
  - exists ([], [m]). split; [done|]. split; [constructor|by apply window_of_open].
  - split; [by constructor|done].
Qed.

Lemma tail_idle duration tl m :
  tail_of duration false no_window tl ->
  tail_of duration (late m) (if late m then open_window (at_ m) duration (of_ m) else no_window)
    (tl ++ [m]).
Proof.
  intros [Ht _]. destruct (late m) eqn:E; cbn.
  - exists (tl, [m]). split; [done|]. split; [done|by apply window_of_open].
  - split; [|done]. apply Forall_app. split; [done|by constructor].
Qed.

Lemma tail_in_window duration tl w m :
  tail_of duration true w tl -> at_ m < windowEndMs w ->
  tail_of duration true (count_message (late m) (of_ m) w) (tl ++ [m]).
Proof.
  intros ([g seg] & -> & Hg & Hs) Hm. cbn in Hg, Hs. exists (g, seg ++ [m]).
  split; [by unfold part; cbn; rewrite app_assoc|]. split; [done|]. by apply window_of_snoc.
Qed.

(** What the validator keeps about the judged messages so far. *)
Record kept (duration : Z) (s : t) (l : list judged) (rs : list IntervalWindowResult) : Prop := {
  kept_windows : accounts duration l rs (windowOpen s) (window s);
  kept_idle : windowOpen s = false -> window s = no_window;
  kept_total : totalViolations s = u32 (lates l) }.


Definition u64_time (x : Z) : Prop := 0 <= x < 2 ^ 64.

Lemma evaluate_spec last now threshold :
  u64_time last -> u64_time now ->
  match evaluateMessageInterval last now threshold with
  | inl _ => judge_one threshold last now 0 = [] /\ last <> 0 /\ now < last
  | inr c => forall id, 0 <= threshold ->
      judge_one threshold last now id = [mkJudged now id (violation c)]
  end.
Proof.
  unfold u64_time, evaluateMessageInterval, judge_one. intros Hl Hn.
  case_if; [done|]. case_if; [done|]. cbn. intros id Ht. rewrite u64_small by lia. done.
Qed.

Lemma recordMessage_kept duration now id s l rs :
  u64_time (lastTimestampMs s) -> u64_time now -> 0 <= thresholdMs s ->
  kept duration s l rs ->
  let r := recordMessage now duration id s in
  kept duration (fst r) (l ++ judge_one (thresholdMs s) (lastTimestampMs s) now id)
    (rs ++ closed_of (snd r)) /\
  lastTimestampMs (fst r) = now /\ thresholdMs (fst r) = thresholdMs s.
Proof.
  intros Hl Hn Ht [Hw Hi Hv]. pose proof (evaluate_spec (lastTimestampMs s) now (thresholdMs s) Hl Hn) as E.
  unfold recordMessage.
  destruct (evaluateMessageInterval (lastTimestampMs s) now (thresholdMs s)) as [e|[iv b]].
  - destruct E as (_ & Hne & Hlt). unfold judge_one.
    rewrite (proj2 (Z.eqb_neq _ _) Hne), (proj2 (Z.ltb_lt _ _) Hlt). cbn.
    rewrite !app_nil_r. done.
  - specialize (E id Ht). cbn in E. rewrite E. cbn [intervalMs violation windowOpen window].
    set (m := mkJudged now id b).
    assert (u32 (lates (l ++ [m])) = if b then u32 (totalViolations s + 1) else totalViolations s) as Hv'.
    { rewrite lates_snoc, Hv. cbn. destruct b; [by rewrite u32_succ|by rewrite Z.add_0_r]. }
    destruct (windowOpen s) eqn:Eo; cbn [andb].
    + case_if; cbn; (split; [|done]).
      * split; cbn; [|by destruct b|done].
        apply (accounts_close duration l rs (window s) m); [done|done|apply (tail_first duration m)].
      * rewrite app_nil_r. split; cbn; [|done|done].
        eapply accounts_snoc; [exact Hw|]. intros tl Htl. by apply (tail_in_window duration tl _ m).
    + cbn. split; [|done]. rewrite app_nil_r. specialize (Hi eq_refl).
      split; cbn; [|by destruct b|done].
      eapply accounts_snoc; [exact Hw|]. intros tl. rewrite Hi. apply (tail_idle duration tl m).
Qed.

Lemma run_kept duration ms s l rs :
  Forall (fun x => u64_time (fst x)) ms -> u64_time (lastTimestampMs s) -> 0 <= thresholdMs s ->
  kept duration s l rs ->
  let r := run duration ms s in
  kept duration (fst r) (l ++ judge (thresholdMs s) (lastTimestampMs s) ms) (rs ++ snd r).
Proof.
  revert s l rs. induction ms as [|[now id] ms IH]; cbn; intros s l rs Hm Hl Ht Hk.
  - by rewrite !app_nil_r.
  - apply Forall_cons in Hm as [Hn Hm]. cbn in Hn.
    destruct (recordMessage_kept duration now id s l rs Hl Hn Ht Hk) as (Hk' & El & Et).
    destruct (recordMessage now duration id s) as [s1 r1]. cbn in Hk', El, Et.
    specialize (IH s1 _ _ Hm ltac:(by rewrite El) ltac:(by rewrite Et) Hk').
    rewrite El, Et in IH. destruct (run duration ms s1) as [s2 rs2]. cbn in IH |- *.
    by rewrite !app_assoc.
Qed.

(** Over any sequence of messages the aggregation windows are exactly a
    partition of the messages by the reference judgement of the gaps: each closed
    window was opened by a message that came late, holds the messages before its
    end with their number and the number of the late ones, and was closed by the
    first message at or after its end; between windows no message is late, and the
    total counts every late message once (modulo 2^32). *)
Theorem windows_account_for_violations (threshold duration : Z) (ms : list (Z * Z)) :
  0 <= threshold -> Forall (fun x => u64_time (fst x)) ms ->
  let r := run duration ms (validator threshold) in
  let l := judge threshold 0 ms in
  accounts duration l (snd r) (windowOpen (fst r)) (window (fst r)) /\
  totalViolations (fst r) = u32 (lates l).
Proof.
  intros Ht Hm. destruct (run_kept duration ms (validator threshold) [] [] Hm) as [Hw _ Hv].
  - split; cbn; lia.
  - done.
  - split; cbn; [|done|done]. apply accounts_open. split; [constructor|done].
  - done.
Qed.

Definition sample_times : list (Z * Z) := [(1000, 7); (1100, 7); (1400, 7); (1450, 8); (1700, 8); (2500, 7)].

Lemma windows_account_for_violations_witness :
  0 <= 125 /\ Forall (fun x => u64_time (fst x)) sample_times /\
  accounts 500 (judge 125 0 sample_times) [mkResult 1400 1900 2 3 7 true] true (mkResult 2500 3000 1 1 7 false) /\
  totalViolations (fst (run 500 sample_times (validator 125))) = u32 3.
Proof.
  assert (Forall (fun x => u64_time (fst x)) sample_times) as H.
  { repeat constructor; cbn; lia. }
  split; [lia|]. split; [done|].
  exact (windows_account_for_violations 125 500 sample_times ltac:(lia) H).
Defined.
End Interval.
