(* ===== verification/Schema.v ===== *)
(** The minimum data check of the intersection validation plugin,
    [src/src/v2i-hub/IntersectionValidationPlugin/src/FieldValidation.cpp].

    A rapidjson value is a tree (module [Rapid]); the parser, the writer, the
    pointers, the schema validator and [RemoveMember] of that library are the class
    [RapidJSON]. An operation called outside its documented precondition
    (a member of a value that is no object, [GetInt] of a value that is no
    [int]) is [None]: an assertion fails there. *)
From Stdlib Require Import Ascii.
From stdpp Require Import pretty.
From S2P Require Import Prelude Text.
Open Scope Z_scope.

Module Rapid.
(** A number is an integer or the 64 bits of a double, which no code here reads. *)
Inductive Value : Type :=
| Null
| Bool (b : bool)
| Int (n : Z)
| Double (bits : Z)
| Str (s : string)
| Array (l : list Value)
| Object (ms : list (string * Value)).

(** A C string ends at the first zero character: [GetString] read as [const char *]. *)
Fixpoint c_str (s : string) : string :=
  match s with
  | EmptyString => EmptyString
  | String c s => if Ascii.eqb c zero then EmptyString else String c (c_str s)
  end.

Definition IsObject (v : Value) : bool := match v with Object _ => true | _ => false end.
Definition IsArray (v : Value) : bool := match v with Array _ => true | _ => false end.
Definition IsString (v : Value) : bool := match v with Str _ => true | _ => false end.

(** The first member of a name. *)
Fixpoint find_member (ms : list (string * Value)) (name : string) : option Value :=
  match ms with
  | [] => None
  | (k, v) :: ms => if String.eqb k name then Some v else find_member ms name
  end.

(** The outer [option] is the precondition. *)
Definition FindMember (v : Value) (name : string) : option (option Value) :=
  match v with Object ms => Some (find_member ms name) | _ => None end.
Definition HasMember (v : Value) (name : string) : option bool :=
  r ← FindMember v name; mret (bool_decide (is_Some r)).
(** [v[name]] of a member that exists. *)
Definition member (v : Value) (name : string) : option Value := mjoin (FindMember v name).
Definition GetInt (v : Value) : option Z :=
  match v with
  | Int n => if (- 2 ^ 31 <=? n) && (n <? 2 ^ 31) then Some n else None
  | _ => None
  end.

(** Induction with the hypothesis for each element and each member. *)
Section induction.
Variable P : Value -> Prop.
Hypothesis HNull : P Null.
Hypothesis HBool : forall b, P (Bool b).
Hypothesis HInt : forall n, P (Int n).
Hypothesis HDouble : forall d, P (Double d).
Hypothesis HStr : forall s, P (Str s).
Hypothesis HArray : forall l, Forall P l -> P (Array l).
Hypothesis HObject : forall ms, Forall (fun kv => P (snd kv)) ms -> P (Object ms).
Fixpoint Value_rect' (v : Value) : P v :=
  match v with
  | Null => HNull
  | Bool b => HBool b
  | Int n => HInt n
  | Double d => HDouble d
  | Str s => HStr s
  | Array l =>
      HArray l ((fix go l : Forall P l :=
        match l with [] => Forall_nil_2 _ | x :: l => Forall_cons_2 _ x l (Value_rect' x) (go l) end) l)
  | Object ms =>
      HObject ms ((fix go ms : Forall (fun kv => P (snd kv)) ms :=
        match ms with
        | [] => Forall_nil_2 _
        | kv :: ms => Forall_cons_2 _ kv ms (Value_rect' (snd kv)) (go ms)
        end) ms)
  end.
End induction.

Lemma find_member_in ms name v : find_member ms name = Some v -> (name, v) ∈ ms.
Proof.
  induction ms as [|[k w] ms IH]; cbn; [done|].
  destruct (String.eqb_spec k name) as [->|]; [intros [= ->]; left|right; auto].
Qed.
End Rapid.
Export (hints) Rapid.

(** What the program uses of rapidjson. *)
Class RapidJSON := {
  Parse : string -> option Rapid.Value;
  Write : Rapid.Value -> string;
  (** [Pointer(text).Get(root)] *)
  PointerGet : string -> Rapid.Value -> option Rapid.Value;
  (** The keyword, the document pointer and the schema pointer of a failed
      validation; the schema is the first argument. *)
  Validate : Rapid.Value -> Rapid.Value -> option (option string * string * string);
  (** [RemoveMember] of a member that is present does not keep the order. *)
  RemoveMember : string -> list (string * Rapid.Value) -> list (string * Rapid.Value) }.

Module Schema.
Import Rapid.
Section schema.
Context {R : RapidJSON}.

(** * Preparing a document *)
Fixpoint removeEmptyStrings (value : Value) : Value :=
  match value with
  | Object ms =>
      Object (omap (fun '(k, v) =>
        match v with
        | Str EmptyString => None
        | Object _ | Array _ => Some (k, removeEmptyStrings v)
        | _ => Some (k, v)
        end) ms)
  | _ => value
  end.

Fixpoint type_names (l : list Value) (typeName : string) : bool :=
  match l with
  | [] => false
  | Str s :: l => if String.eqb (c_str s) typeName then true else type_names l typeName
  | _ :: l => type_names l typeName
  end.
Definition schemaHasType (schema : Value) (typeName : string) : bool :=
  match schema with
  | Object ms =>
      match find_member ms "type" with
      | Some (Str s) => String.eqb (c_str s) typeName
      | Some (Array l) => type_names l typeName
      | _ => false
      end
  | _ => false
  end.

Definition tryConvertToBool (value : Value) : Value :=
  match value with
  | Str s =>
      if String.eqb (c_str s) "true" then Bool true
      else if String.eqb (c_str s) "false" then Bool false else value
  | _ => value
  end.

(** [strtoll(str, &end, 10)]: the value and whether the whole text was a number. *)
Definition saturate (v : Z) : Z := Z.max (- 2 ^ 63) (Z.min (2 ^ 63 - 1) v).
Definition strtoll (str : string) : option Z :=
  let '(neg, s) := sign (skip_spaces str) in
  match s with
  | String c _ =>
      if is_digit c then
        let '(v, rest) := digits 0 s in
        match rest with
        | EmptyString => Some (saturate (if neg then - v else v))
        | _ => None
        end
      else None
  | EmptyString => None
  end.

Definition tryConvertToInt (value : Value) : Value :=
  match value with
  | Str s => match strtoll (c_str s) with Some n => Int n | None => value end
  | _ => value
  end.

(** The first result of a search. *)
Definition first_some {A B} (f : A -> option B) : list A -> option B :=
  fix go l := match l with [] => None | x :: l => match f x with Some y => Some y | None => go l end end.
(** A function at the first member of a name. *)
Definition at_member {B} (f : Value -> option B) (name : string) : list (string * Value) -> option B :=
  fix go ms :=
    match ms with [] => None | (k, v) :: ms => if String.eqb k name then f v else go ms end.

Fixpoint getPropertySchema (schema : Value) (key : string) : option Value :=
  match schema with
  | Object ms =>
      match (match find_member ms "properties" with
             | Some (Object ps) => find_member ps key
             | _ => None
             end) with
      | Some v => Some v
      | None =>
          first_some (fun combiner =>
            at_member (fun v =>
              match v with
              | Array l => first_some (fun branch => getPropertySchema branch key) l
              | _ => None
              end) combiner ms) ["oneOf"; "anyOf"; "allOf"]
      end
  | _ => None
  end.

Definition getItemsSchema (schema : Value) : option Value :=
  match schema with
  | Object ms => match find_member ms "items" with Some (Object its) => Some (Object its) | _ => None end
  | _ => None
  end.

Definition convert_as (schema value : Value) (otherwise : Value) : Value :=
  if schemaHasType schema "integer" then tryConvertToInt value
  else if schemaHasType schema "boolean" then tryConvertToBool value
  else otherwise.

Fixpoint convertNumericStrings (value schema : Value) {struct value} : Value :=
  match value with
  | Str _ => convert_as schema value value
  | Object ms =>
      Object (map (fun '(k, v) =>
        (k, match getPropertySchema schema (c_str k) with
            | None => v
            | Some propSchema => convert_as propSchema v (convertNumericStrings v propSchema)
            end)) ms)
  | Array l =>
      match getItemsSchema schema with
      | Some itemsSchema => Array (map (fun v => convertNumericStrings v itemsSchema) l)
      | None => value
      end
  | _ => value
  end.

(** * Missing required properties *)
Definition MAX_SCHEMA_DEPTH : nat := 64.

(** The outer [option] is the precondition of [FindMember]. *)
Definition resolveRef (node schemaRoot : Value) : option (option Value) :=
  ref ← FindMember node "$ref";
  match ref with
  | Some (Str s) =>
      match c_str s with
      | String "#" EmptyString => Some (Some schemaRoot)
      | String "#" pointer => Some (PointerGet pointer schemaRoot)
      | _ => Some None
      end
  | _ => Some (Some node)
  end.

Definition refOr (node : Value) (fallback : string) : string :=
  match node with
  | Object ms => match find_member ms "$ref" with Some (Str s) => c_str s | _ => fallback end
  | _ => fallback
  end.

Definition propertySchemaRef (schema : list (string * Value)) (name fallback : string) : string :=
  match find_member schema "properties" with
  | Some (Object ps) =>
      match find_member ps name with Some propSchema => refOr propSchema fallback | None => fallback end
  | _ => fallback
  end.

(** The results of a loop, appended; the loop stops where one step fails. *)
Fixpoint collect {A} (f : nat -> A -> option (list string)) (i : nat) (l : list A)
    : option (list string) :=
  match l with
  | [] => Some []
  | x :: l => a ← f i x; b ← collect f (S i) l; Some (a ++ b)
  end.

Definition elements (v : option Value) : list Value :=
  match v with Some (Array l) => l | _ => [] end.
Definition members (v : option Value) : list (string * Value) :=
  match v with Some (Object ms) => ms | _ => [] end.

Definition missing_text (schema : list (string * Value)) (jsonPath resolved name : string) : string :=
  jsonPath +:+ "." +:+ name +:+ " is missing (" +:+
  propertySchemaRef schema name (resolved +:+ "/properties/" +:+ name) +:+ ")".

Definition check_required (schema ims : list (string * Value)) (jsonPath resolved : string)
    (name : Value) : list string :=
  match name with
  | Str s =>
      match find_member ims (c_str s) with
      | Some _ => []
      | None => [missing_text schema jsonPath resolved (c_str s)]
      end
  | _ => []
  end.

Section descend.
(** The recursive call on a schema, an instance and their two paths. *)
Variable rec : Value -> Value -> string -> string -> option (list string).

Definition handleObject (schema : list (string * Value)) (instance : Value)
    (jsonPath resolved : string) : option (list string) :=
  match instance with
  | Object ims =>
      let missing :=
        concat (map (check_required schema ims jsonPath resolved)
                  (elements (find_member schema "required"))) in
      below ← collect (fun _ '(k, sub) =>
                match find_member ims k with
                | Some child =>
                    rec sub child (jsonPath +:+ "." +:+ c_str k)
                      (resolved +:+ "/properties/" +:+ c_str k)
                | None => Some []
                end) 0 (members (find_member schema "properties"));
      Some (missing ++ below)
  | _ => Some []
  end.

Definition handle_items (schema : list (string * Value)) (instance : Value)
    (jsonPath resolved : string) : option (list string) :=
  match instance, find_member schema "items" with
  | Array l, Some (Object its) =>
      collect (fun i element =>
        rec (Object its) element (jsonPath +:+ "[" +:+ pretty (Z.of_nat i) +:+ "]")
          (resolved +:+ "/items")) 0 l
  | _, _ => Some []
  end.

Definition handle_allOf (schema : list (string * Value)) (instance : Value)
    (jsonPath resolved : string) : option (list string) :=
  collect (fun i sub => rec sub instance jsonPath (resolved +:+ "/allOf/" +:+ pretty (Z.of_nat i)))
    0 (elements (find_member schema "allOf")).
End descend.

(** [fuel] is the number of levels left, [MAX_SCHEMA_DEPTH - depth + 1]. *)
Fixpoint collectMissingRequired (fuel : nat) (schemaRoot schemaNode instance : Value)
    (jsonPath schemaPath : string) : option (list string) :=
  match fuel with
  | O => Some []
  | S fuel =>
      let resolved := refOr schemaNode schemaPath in
      schema ← resolveRef schemaNode schemaRoot;
      match schema with
      | Some (Object sms) =>
          let rec := collectMissingRequired fuel schemaRoot in
          a ← handleObject rec sms instance jsonPath resolved;
          b ← handle_items rec sms instance jsonPath resolved;
          c ← handle_allOf rec sms instance jsonPath resolved;
          Some (a ++ b ++ c)
      | _ => Some []
      end
  end.

Definition collectMissingRequiredFields (schema doc : Value) : option (list string) :=
  collectMissingRequired (S MAX_SCHEMA_DEPTH) schema schema doc "$" "#".

(** * Validating a text *)
Record FieldValidation := mkValidation { valid : bool; errors : list string }.

Definition validateJsonAgainstSchema (jsonStr schemaStr : string) : FieldValidation :=
  match Parse (c_str schemaStr), Parse (c_str jsonStr) with
  | None, _ => mkValidation false ["Failed to parse JSON schema"]
  | Some _, None => mkValidation false ["Failed to parse input JSON"]
  | Some schemaDoc, Some doc =>
      match Validate schemaDoc (convertNumericStrings (removeEmptyStrings doc) schemaDoc) with
      | None => mkValidation true []
      | Some (keyword, documentPath, schemaPath) =>
          mkValidation false
            ["Schema validation failed: keyword = " +:+ default "unknown" keyword +:+
             ", document_path =  " +:+ documentPath +:+ ", schema_path = " +:+ schemaPath]
      end
  end.

(** A file that cannot be opened is [None]. *)
Definition validateJsonAgainstSchemaFile (loadFileContents : string -> option string)
    (jsonStr schemaFilePath : string) : FieldValidation :=
  match loadFileContents schemaFilePath with
  | Some schemaStr => validateJsonAgainstSchema jsonStr schemaStr
  | None => mkValidation false ["Failed to open file: " +:+ schemaFilePath]
  end.

(** * Empty strings *)
(** No member of the object, or of the objects that are its members and so on,
    is an empty string. Arrays are not looked into. *)
Fixpoint clean (v : Value) : bool :=
  match v with
  | Object ms =>
      forallb (fun '(_, v) =>
        match v with Str EmptyString => false | Object _ => clean v | _ => true end) ms
  | _ => true
  end.

Lemma removeEmptyStrings_clean v : clean (removeEmptyStrings v) = true.
Proof.
  induction v as [| | | | | |ms IH] using Value_rect'; try done.
  cbn. apply forallb_forall. intros [k w] Hin.
  apply list_elem_of_In, list_elem_of_omap in Hin as ([k' v] & Hin & E).
  rewrite Forall_forall in IH. specialize (IH _ Hin). cbn in IH.
  destruct v as [| | | |[|c s]| |]; simplify_eq/=; done.
Qed.

Lemma clean_removeEmptyStrings v : clean v = true -> removeEmptyStrings v = v.
Proof.
  induction v as [| | | | | |ms IH] using Value_rect'; try done.
  cbn [clean removeEmptyStrings]. rewrite forallb_forall. intros H. f_equal.
  induction ms as [|[k v] ms IHms]; [done|]. apply Forall_cons in IH as [IHv IHt].
  assert (omap (fun '(k, v) =>
        match v with
        | Str EmptyString => None
        | Object _ | Array _ => Some (k, removeEmptyStrings v)
        | _ => Some (k, v)
        end) ms = ms) as E.
  { apply IHms; [done|]. intros x Hx. apply H. by right. }
  specialize (H (k, v) (or_introl eq_refl)). cbn in H, IHv.
  cbn. rewrite E. destruct v as [| | | |[|c s]| |]; cbn in *; try done. by rewrite IHv.
Qed.

(** * Numeric strings *)
Definition convertible (schema value : Value) : bool :=
  match value with
  | Str s =>
      if schemaHasType schema "integer" then bool_decide (is_Some (strtoll (c_str s)))
      else if schemaHasType schema "boolean"
      then String.eqb (c_str s) "true" || String.eqb (c_str s) "false"
      else false
  | _ => false
  end.

(** No string of the value stands where the schema has a number or a truth value
    that the string denotes. *)
Fixpoint settled (value schema : Value) {struct value} : bool :=
  match value with
  | Str _ => negb (convertible schema value)
  | Object ms =>
      forallb (fun '(k, v) =>
        match getPropertySchema schema (c_str k) with
        | None => true
        | Some p =>
            if schemaHasType p "integer" || schemaHasType p "boolean"
            then negb (convertible p v) else settled v p
        end) ms
  | Array l =>
      match getItemsSchema schema with
      | Some its => forallb (fun v => settled v its) l
      | None => true
      end
  | _ => true
  end.

Lemma convert_as_settled schema v w :
  schemaHasType schema "integer" || schemaHasType schema "boolean" = true ->
  convertible schema (convert_as schema v w) = false.
Proof.
  intros H. unfold convert_as. destruct (schemaHasType schema "integer") eqn:Ei.
  - destruct v as [| | | |s| |]; cbn; try done.
    destruct (strtoll (c_str s)) eqn:E; cbn; [done|]. by rewrite Ei, E.
  - cbn in H. rewrite H. destruct v as [| | | |s| |]; cbn; try done.
    destruct (String.eqb (c_str s) "true") eqn:E1; [done|].
    destruct (String.eqb (c_str s) "false") eqn:E2; [done|].
    cbn. by rewrite Ei, H, E1, E2.
Qed.

Lemma convert_as_fixed schema v w :
  convertible schema v = false -> schemaHasType schema "integer" || schemaHasType schema "boolean" = true ->
  convert_as schema v w = v.
Proof.
  unfold convert_as, convertible. intros H.
  destruct (schemaHasType schema "integer").
  - intros _. destruct v as [| | | |s| |]; try done. cbn. by destruct (strtoll (c_str s)).
  - cbn. intros Hb. rewrite Hb in *. destruct v as [| | | |s| |]; try done.
    cbn. by destruct (String.eqb (c_str s) "true"), (String.eqb (c_str s) "false").
Qed.

Lemma convert_as_otherwise schema v w :
  schemaHasType schema "integer" || schemaHasType schema "boolean" = false -> convert_as schema v w = w.
Proof. unfold convert_as. by destruct (schemaHasType schema "integer"), (schemaHasType schema "boolean"). Qed.

Lemma convert_str_settled schema s : settled (convert_as schema (Str s) (Str s)) schema = true.
Proof.
  unfold convert_as. cbn [tryConvertToInt tryConvertToBool].
  destruct (schemaHasType schema "integer") eqn:Ei.
  - destruct (strtoll (c_str s)) eqn:E; [done|]. cbn. by rewrite Ei, E.
  - destruct (schemaHasType schema "boolean") eqn:Eb; [|cbn; by rewrite Ei, Eb].
    destruct (String.eqb (c_str s) "true") eqn:E1; [done|].
    destruct (String.eqb (c_str s) "false") eqn:E2; [done|]. cbn. by rewrite Ei, Eb, E1, E2.
Qed.

Lemma convert_settled v schema : settled (convertNumericStrings v schema) schema = true.
Proof.
  revert schema. induction v as [| | | |s|l IH|ms IH] using Value_rect'; intros schema; try done.
  - apply convert_str_settled.
  - cbn. destruct (getItemsSchema schema) as [its|] eqn:E; cbn; rewrite E; [|done].
    apply forallb_forall. intros w [v [<- Hv]]%in_map_iff.
    rewrite Forall_forall in IH. by apply IH, list_elem_of_In.
  - cbn. apply forallb_forall. intros w [[k v] [<- Hv]]%in_map_iff.
    destruct (getPropertySchema schema (c_str k)) as [p|]; [|done].
    destruct (schemaHasType p "integer" || schemaHasType p "boolean") eqn:E.
    + by rewrite convert_as_settled.
    + rewrite convert_as_otherwise by done.
      rewrite Forall_forall in IH. by apply (IH (k, v)), list_elem_of_In.
Qed.

Lemma settled_fixed v schema : settled v schema = true -> convertNumericStrings v schema = v.
Proof.
  revert schema. induction v as [| | | |s|l IH|ms IH] using Value_rect'; intros schema; try done.
  - cbn [settled convertNumericStrings]. intros H%negb_true_iff.
    destruct (schemaHasType schema "integer" || schemaHasType schema "boolean") eqn:E.
    + by apply convert_as_fixed.
    + by apply convert_as_otherwise.
  - cbn. destruct (getItemsSchema schema) as [its|] eqn:E; [|done].
    rewrite forallb_forall. intros H. f_equal. rewrite <- (map_id l) at 2.
    apply map_ext_in. intros v Hv. rewrite Forall_forall in IH.
    apply IH; [by apply list_elem_of_In|by apply H].
  - cbn. rewrite forallb_forall. intros H. f_equal. rewrite <- (map_id ms) at 2.
    apply map_ext_in. intros [k v] Hv. specialize (H _ Hv). cbn in H.
    destruct (getPropertySchema schema (c_str k)) as [p|]; [|done]. cbn. f_equal.
    destruct (schemaHasType p "integer" || schemaHasType p "boolean") eqn:E.
    + apply convert_as_fixed; [by apply negb_true_iff|done].
    + rewrite convert_as_otherwise by done. rewrite Forall_forall in IH.
      by apply (IH (k, v)); [apply list_elem_of_In|].
Qed.

(** * Missing properties, by reachability *)
(** A schema node, the value it is compared with and their two paths. *)
Record place := mkPlace { node : Value; value : Value; json_path : string; schema_path : string }.

Section missing.
Variable root : Value.

(** From an object schema to the schema of a property that is present, to the
    schema of an array element, and to each part of [allOf]. *)
Inductive edge : place -> place -> Prop :=
| edge_property n ims jp sp sms k sub child :
    resolveRef n root = Some (Some (Object sms)) ->
    (k, sub) ∈ members (find_member sms "properties") -> find_member ims k = Some child ->
    edge (mkPlace n (Object ims) jp sp)
      (mkPlace sub child (jp +:+ "." +:+ c_str k) (refOr n sp +:+ "/properties/" +:+ c_str k))
| edge_item n l jp sp sms its (i : nat) element :
    resolveRef n root = Some (Some (Object sms)) ->
    find_member sms "items" = Some (Object its) -> l !! i = Some element ->
    edge (mkPlace n (Array l) jp sp)
      (mkPlace (Object its) element (jp +:+ "[" +:+ pretty (Z.of_nat i) +:+ "]") (refOr n sp +:+ "/items"))
| edge_allOf n v jp sp sms (i : nat) sub :
    resolveRef n root = Some (Some (Object sms)) ->
    elements (find_member sms "allOf") !! i = Some sub ->
    edge (mkPlace n v jp sp)
      (mkPlace sub v jp (refOr n sp +:+ "/allOf/" +:+ pretty (Z.of_nat i))).

(** A place reports each required name its object does not have. *)
Inductive reports : place -> string -> Prop :=
| reports_missing n ims jp sp sms s :
    resolveRef n root = Some (Some (Object sms)) ->
    Str s ∈ elements (find_member sms "required") -> find_member ims (c_str s) = None ->
    reports (mkPlace n (Object ims) jp sp) (missing_text sms jp (refOr n sp) (c_str s)).

Lemma collect_elem {A} (f : nat -> A -> option (list string)) (P : nat -> A -> Prop) s
    (i : nat) (l : list A) out :
  collect f i l = Some out ->
  (forall (j : nat) x a, f (i + j)%nat x = Some a -> s ∈ a <-> P j x) ->
  s ∈ out <-> exists (j : nat) x, l !! j = Some x /\ P j x.
Proof.
  revert i out P. induction l as [|x l IH]; intros i out P; cbn.
  - intros [= <-] _. split; [by intros ?%elem_of_nil|by intros (j & y & H & _)].
  - intros (a & Ea & (b & Eb & [= <-])%bind_Some)%bind_Some HP.
    rewrite elem_of_app, (IH _ _ (fun j => P (S j)) Eb).
    + rewrite (HP 0%nat x a) by by rewrite Nat.add_0_r. split.
      * intros [H|(j & y & Hj & H)]; [by exists 0%nat, x|by exists (S j), y].
      * intros ([|j] & y & Hj & H); cbn in Hj; [left; by simplify_eq|right; by exists j, y].
    + intros j y c Hc. apply HP. by rewrite <- Nat.add_succ_comm.
Qed.

Lemma collect_total {A} (f : nat -> A -> option (list string)) (i : nat) (l : list A) :
  (forall (j : nat) x, l !! j = Some x -> is_Some (f (i + j)%nat x)) -> is_Some (collect f i l).
Proof.
  revert i. induction l as [|x l IH]; intros i H; cbn; [by eexists|].
  destruct (H 0%nat x eq_refl) as [a Ha]. rewrite Nat.add_0_r in Ha. rewrite Ha. cbn.
  destruct (IH (S i)) as [b ->]; [|by eexists].
  intros j y Hy. rewrite Nat.add_succ_comm. by apply (H (S j)).
Qed.

Lemma check_required_elem sms ims jp r l s :
  s ∈ concat (map (check_required sms ims jp r) l) <->
  exists name, Str name ∈ l /\ find_member ims (c_str name) = None /\
    s = missing_text sms jp r (c_str name).
Proof.
  rewrite list_elem_of_In, in_concat. split.
  - intros (x & (n & <- & Hn)%in_map_iff & Hx). apply list_elem_of_In in Hn.
    destruct n as [| | | |name| |]; try done. cbn in Hx.
    destruct (find_member ims (c_str name)) eqn:E; [done|]. destruct Hx as [<-|[]]. by exists name.
  - intros (name & Hn & E & ->). exists [missing_text sms jp r (c_str name)].
    split; [|by left]. apply in_map_iff. exists (Str name). split; [|by apply list_elem_of_In].
    cbn. by rewrite E.
Qed.
End missing.

Section elements.
(** What a recursive call reports is a property of its arguments. *)
Variable rec : Value -> Value -> string -> string -> option (list string).
Variable s : string.
Variable Q : place -> Prop.
Hypothesis rec_elem : forall n v jp sp out, rec n v jp sp = Some out -> s ∈ out <-> Q (mkPlace n v jp sp).

Lemma handleObject_elem sms v jp r out :
  handleObject rec sms v jp r = Some out ->
  s ∈ out <-> exists ims, v = Object ims /\
    ((exists name, Str name ∈ elements (find_member sms "required") /\
       find_member ims (c_str name) = None /\ s = missing_text sms jp r (c_str name)) \/
     (exists k sub child, (k, sub) ∈ members (find_member sms "properties") /\
       find_member ims k = Some child /\
       Q (mkPlace sub child (jp +:+ "." +:+ c_str k) (r +:+ "/properties/" +:+ c_str k)))).
Proof.
  intros H. destruct v as [| | | | |l|ims];
    try (injection H as <-; split; [by intros ?%elem_of_nil|by intros (? & ? & _)]).
  apply bind_Some in H as (below & Hb & [= <-]).
  rewrite elem_of_app, check_required_elem.
  rewrite (collect_elem _ (fun _ ks => exists child, find_member ims (fst ks) = Some child /\
    Q (mkPlace (snd ks) child (jp +:+ "." +:+ c_str (fst ks))
         (r +:+ "/properties/" +:+ c_str (fst ks)))) _ _ _ _ Hb).
  - split.
    + intros [H|(j & [k sub] & Hj & child & Ec & H)]; exists ims; (split; [done|]); [by left|right].
      exists k, sub, child. split; [by apply list_elem_of_lookup_2 in Hj|done].
    + intros (? & [= <-] & [H|(k & sub & child & Hk & Ec & H)]); [by left|right].
      apply list_elem_of_lookup in Hk as [j Hj]. exists j, (k, sub). split; [done|by exists child].
  - intros j [k sub] a Ha. cbn in *. destruct (find_member ims k) as [child|].
    + rewrite (rec_elem _ _ _ _ _ Ha). naive_solver.
    + injection Ha as <-. split; [by intros ?%elem_of_nil|naive_solver].
Qed.

Lemma handle_items_elem sms v jp r out :
  handle_items rec sms v jp r = Some out ->
  s ∈ out <-> exists l its (i : nat) element, v = Array l /\
    find_member sms "items" = Some (Object its) /\ l !! i = Some element /\
    Q (mkPlace (Object its) element (jp +:+ "[" +:+ pretty (Z.of_nat i) +:+ "]") (r +:+ "/items")).
Proof.
  unfold handle_items. intros H.
  destruct v as [| | | | |l|]; try (injection H as <-; split; [by intros ?%elem_of_nil|naive_solver]).
  destruct (find_member sms "items") as [[| | | | | |its]|];
    try (injection H as <-; split; [by intros ?%elem_of_nil|naive_solver]).
  rewrite (collect_elem _ _ _ _ _ _ H (fun j x a => rec_elem _ _ _ _ _)). split.
  - intros (j & x & Hj & Hq). by exists l, its, j, x.
  - intros (? & ? & j & x & [= <-] & [= <-] & Hj & Hq). by exists j, x.
Qed.

Lemma handle_allOf_elem sms v jp r out :
  handle_allOf rec sms v jp r = Some out ->
  s ∈ out <-> exists (i : nat) sub, elements (find_member sms "allOf") !! i = Some sub /\
    Q (mkPlace sub v jp (r +:+ "/allOf/" +:+ pretty (Z.of_nat i))).
Proof. intros H. apply (collect_elem _ _ _ _ _ _ H (fun j x a => rec_elem _ _ _ _ _)). Qed.
End elements.

(** The texts of the places within a number of levels. *)
Definition reached (root : Value) (fuel : nat) (p : place) (s : string) : Prop :=
  exists n q, (n < fuel)%nat /\ nsteps (edge root) n p q /\ reports root q s.

Lemma reached_S root fuel p s :
  reached root (S fuel) p s <->
  reports root p s \/ exists q, edge root p q /\ reached root fuel q s.
Proof.
  split.
  - intros ([|n] & q & Hn & Hs & Hr).
    + inversion Hs; subst. by left.
    + inversion Hs as [|? ? p' ? He Hs']; subst. right. exists p'. split; [done|].
      exists n, q. split; [lia|done].
  - intros [Hr|(q & He & n & q' & Hn & Hs & Hr)].
    + exists 0%nat, p. split; [lia|]. split; [constructor|done].
    + exists (S n), q'. split; [lia|]. split; [by econstructor|done].
Qed.

Lemma collectMissingRequired_iff fuel root n v jp sp out s :
  collectMissingRequired fuel root n v jp sp = Some out ->
  s ∈ out <-> reached root fuel (mkPlace n v jp sp) s.
Proof.
  revert n v jp sp out. induction fuel as [|fuel IH]; intros n v jp sp out.
  { cbn. intros [= <-]. split; [by intros ?%elem_of_nil|]. intros (? & ? & ? & _). lia. }
  cbn [collectMissingRequired]. rewrite reached_S. intros (schema & Er & H)%bind_Some.
  destruct schema as [[| | | | | |sms]|];
    try (injection H as <-; split; [by intros ?%elem_of_nil|];
         intros [Hr|(q & He & _)]; [inversion Hr|inversion He]; congruence).
  apply bind_Some in H as (a & Ea & (b & Eb & (c & Ec & [= <-])%bind_Some)%bind_Some).
  set (Q := fun q => reached root fuel q s).
  rewrite !elem_of_app, (handleObject_elem _ s Q IH _ _ _ _ _ Ea),
    (handle_items_elem _ s Q IH _ _ _ _ _ Eb), (handle_allOf_elem _ s Q IH _ _ _ _ _ Ec). split.
  - intros [(ims & -> & [(name & Hn & Hf & ->)|(k & sub & child & Hk & Hf & Hq)])|
            [(l & its & i & e & -> & Hi & Hl & Hq)|(i & sub & Hi & Hq)]].
    + left. by econstructor.
    + right. eexists. split; [by eapply edge_property|done].
    + right. eexists. split; [by eapply edge_item|done].
    + right. eexists. split; [by eapply edge_allOf|done].
  - intros [Hr|(q & He & Hq)]; [|inversion He]; try (inversion Hr); simplify_eq; eauto 15.
Qed.

Lemma resolveRef_object node root : IsObject node = true -> is_Some (resolveRef node root).
Proof.
  destruct node as [| | | | | |ms]; try done. intros _. unfold resolveRef. cbn.
  destruct (find_member ms "$ref") as [[| | | |s| |]|]; try by eexists.
  destruct (c_str s) as [|c r]; [by eexists|].
  destruct c as [[] [] [] [] [] [] [] []]; destruct r; by eexists.
Qed.

(** The check does not fail where every schema node it gets to is an object. *)
Lemma collectMissingRequired_total fuel root n v jp sp :
  (forall m q, (m < fuel)%nat -> nsteps (edge root) m (mkPlace n v jp sp) q -> IsObject (node q) = true) ->
  is_Some (collectMissingRequired fuel root n v jp sp).
Proof.
  revert n v jp sp. induction fuel as [|fuel IH]; intros n v jp sp H; [by eexists|].
  assert (forall q, edge root (mkPlace n v jp sp) q ->
    is_Some (collectMissingRequired fuel root (node q) (value q) (json_path q) (schema_path q))) as Hrec.
  { intros q He. apply IH. intros m q' Hm Hq. apply (H (S m)); [lia|].
    destruct q. by econstructor. }
  destruct (resolveRef_object n root) as [schema Er].
  { apply (H 0%nat (mkPlace n v jp sp)); [lia|constructor]. }
  cbn [collectMissingRequired]. rewrite Er. cbn [mbind option_bind].
  destruct schema as [[| | | | | |sms]|]; try by eexists.
  assert (is_Some (handleObject (collectMissingRequired fuel root) sms v jp (refOr n sp))) as [a ->].
  { destruct v as [| | | | | |ims]; try by eexists. cbn.
    destruct (collect_total (fun (_ : nat) '(k, sub) =>
      match find_member ims k with
      | Some child => collectMissingRequired fuel root sub child (jp +:+ "." +:+ c_str k)
                        (refOr n sp +:+ "/properties/" +:+ c_str k)
      | None => Some []
      end) 0 (members (find_member sms "properties"))) as [below ->]; [|by eexists].
    intros j [k sub] Hj. destruct (find_member ims k) as [child|] eqn:Ec; [|by eexists].
    apply list_elem_of_lookup_2 in Hj.
    apply (Hrec (mkPlace sub child _ _)). by eapply edge_property. }
  assert (is_Some (handle_items (collectMissingRequired fuel root) sms v jp (refOr n sp))) as [b ->].
  { unfold handle_items. destruct v as [| | | | |l|]; try by eexists.
    destruct (find_member sms "items") as [[| | | | | |its]|] eqn:Ei; try by eexists.
    apply collect_total. intros j x Hj. apply (Hrec (mkPlace (Object its) x _ _)). by eapply edge_item. }
  assert (is_Some (handle_allOf (collectMissingRequired fuel root) sms v jp (refOr n sp))) as [c ->].
  { apply collect_total. intros j x Hj. apply (Hrec (mkPlace x v _ _)). by eapply edge_allOf. }
  by eexists.
Qed.

(** * Properties *)
(** The preparation of a document is idempotent and does what it is for: no
    member reached through objects is an empty string, and no string is left where
    the schema has an integer or a boolean that the string denotes; a document that
    is so already is not changed. *)
Theorem document_prepared (doc schema : Value) :
  clean (removeEmptyStrings doc) = true /\
  removeEmptyStrings (removeEmptyStrings doc) = removeEmptyStrings doc /\
  settled (convertNumericStrings doc schema) schema = true /\
  convertNumericStrings (convertNumericStrings doc schema) schema = convertNumericStrings doc schema.
Proof.
  split_and!; [apply removeEmptyStrings_clean|..|apply convert_settled|].
  - apply clean_removeEmptyStrings, removeEmptyStrings_clean.
  - apply settled_fixed, convert_settled.
Qed.

(** An array keeps the empty strings of its elements: the loop of
    [removeEmptyStrings] over an array stands after the return for a value that is
    no object. The intersections of a SPaT or MAP message are such an array. *)
Theorem empty_strings_in_arrays_stay (ms : list (string * Value)) (k : string) (l : list Value) :
  (k, Array l) ∈ ms ->
  exists ms', removeEmptyStrings (Object ms) = Object ms' /\ (k, Array l) ∈ ms'.
Proof.
  intros H. eexists. split; [reflexivity|]. apply list_elem_of_omap. by exists (k, Array l).
Qed.

Lemma empty_strings_in_arrays_stay_witness :
  exists ms', removeEmptyStrings (Object [("intersections", Array [Object [("name", Str "")]])])
              = Object ms' /\ ("intersections", Array [Object [("name", Str "")]]) ∈ ms'.
Proof.
  apply (empty_strings_in_arrays_stay [("intersections", Array [Object [("name", Str "")]])]).
  left.
Defined.

(** The minimum data check is complete and exact: where every schema node it
    gets to is an object it returns, also for cyclic references, and it reports a
    text exactly when a required property is missing from an object of the document
    that is reached, in at most 64 steps, along the properties that are present, the
    elements of arrays and the parts of [allOf], with references resolved. *)
Theorem missing_required_reported (schema doc : Value) :
  (forall m q, (m <= MAX_SCHEMA_DEPTH)%nat ->
     nsteps (edge schema) m (mkPlace schema doc "$" "#") q -> IsObject (node q) = true) ->
  exists out, collectMissingRequiredFields schema doc = Some out /\
    forall s, s ∈ out <->
      exists m q, (m <= MAX_SCHEMA_DEPTH)%nat /\
        nsteps (edge schema) m (mkPlace schema doc "$" "#") q /\ reports schema q s.
Proof.
  intros H.
  destruct (collectMissingRequired_total (S MAX_SCHEMA_DEPTH) schema schema doc "$" "#") as [out Eo].
  { intros m q Hm. apply H. lia. }
  exists out. split; [exact Eo|]. intros s. rewrite (collectMissingRequired_iff _ _ _ _ _ _ _ s Eo).
  split; intros (m & q & Hm & Hq); exists m, q; (split; [lia|done]).
Qed.
End schema.

(** * A sample *)
Definition sample_pointer (text : string) (root : Value) : option Value :=
  if String.eqb text "/definitions/Phase" then
    match member root "definitions" with Some d => member d "Phase" | None => None end
  else None.
Definition sample_RapidJSON : RapidJSON := {|
  Parse _ := None; Write _ := ""; PointerGet := sample_pointer; Validate _ _ := None;
  RemoveMember k ms := List.filter (fun kv => negb (String.eqb (fst kv) k)) ms |}.

Definition sample_phase : Value :=
  Object [("type", Str "object"); ("required", Array [Str "id"; Str "state"])].
Definition sample_schema : Value :=
  Object [("definitions", Object [("Phase", sample_phase)]);
          ("required", Array [Str "phase"; Str "name"]);
          ("properties", Object [("phase", Object [("$ref", Str "#/definitions/Phase")])])].
Definition sample_doc : Value := Object [("phase", Object [("id", Int 3)])].

Example sample_missing :
  collectMissingRequiredFields (R := sample_RapidJSON) sample_schema sample_doc =
  Some ["$.name is missing (#/properties/name)";
        "$.phase.state is missing (#/definitions/Phase/properties/state)"].
Proof. vm_compute. reflexivity. Qed.

Lemma sample_edge (q : place) :
  edge (R := sample_RapidJSON) sample_schema (mkPlace sample_schema sample_doc "$" "#") q ->
  node q = Object [("$ref", Str "#/definitions/Phase")] /\ value q = Object [("id", Int 3)].
Proof.
  inversion 1 as [? ? ? ? ? k sub child Hr Hk Hf|? ? ? ? ? ? ? ? Hr|? ? ? ? ? i sub Hr Hi]; subst.
  - cbn in Hr. injection Hr as <-. cbn in Hk. apply list_elem_of_singleton in Hk as [= -> ->].
    cbn in Hf. injection Hf as <-. done.
  - cbn in Hr. injection Hr as <-. done.
Qed.

Lemma sample_edge2 (p q : place) :
  node p = Object [("$ref", Str "#/definitions/Phase")] ->
  ~ edge (R := sample_RapidJSON) sample_schema p q.
Proof.
  intros Hn H. inversion H as [? ? ? ? ? k sub child Hr Hk Hf|? ? ? ? ? ? ? ? Hr Hk|? ? ? ? ? i sub Hr Hi]; subst;
    cbn in Hn; subst; cbn in Hr; injection Hr as <-; cbn in *; try done.
  by apply elem_of_nil in Hk.
Qed.

Lemma missing_required_reported_witness :
  (forall m q, (m <= MAX_SCHEMA_DEPTH)%nat ->
     nsteps (edge (R := sample_RapidJSON) sample_schema) m (mkPlace sample_schema sample_doc "$" "#") q ->
     IsObject (node q) = true) /\
  exists out, collectMissingRequiredFields (R := sample_RapidJSON) sample_schema sample_doc = Some out /\
    forall s, s ∈ out <->
      exists m q, (m <= MAX_SCHEMA_DEPTH)%nat /\
        nsteps (edge (R := sample_RapidJSON) sample_schema) m (mkPlace sample_schema sample_doc "$" "#") q /\
        reports (R := sample_RapidJSON) sample_schema q s.
Proof.
  assert (forall m q, (m <= MAX_SCHEMA_DEPTH)%nat ->
     nsteps (edge (R := sample_RapidJSON) sample_schema) m (mkPlace sample_schema sample_doc "$" "#") q ->
     IsObject (node q) = true) as H.
  { intros m q _ Hq. destruct m as [|m]; inversion Hq as [|? ? p ? He Hq']; subst; [done|].
    apply sample_edge in He as [Hn _].
    destruct m as [|m]; inversion Hq' as [|? ? p' ? He' ?]; subst; [by rewrite Hn|].
    by apply (sample_edge2 p p') in He'. }
  split; [exact H|].
  exact (missing_required_reported (R := sample_RapidJSON) sample_schema sample_doc H).
Defined.
End Schema.
