(* ===== verification/Revision.v ===== *)
(** The revision counter check of the intersection validation plugin,
    [src/src/v2i-hub/IntersectionValidationPlugin/src/RevisionCounterValidator.cpp]
    and [ODEForwarding.cpp]: what is kept of each intersection, the comparison of a
    message with it, and the decision to forward. A document that failed to parse
    is [None]; a result [None] is a call of rapidjson outside its precondition. *)
From stdpp Require Import pretty.
From S2P Require Import Prelude Schema.
Open Scope Z_scope.

Module Revision.
Import Rapid.

Record IntersectionChangeInfo := mkChange {
  id : Z; contentChanged : bool; revisionChanged : bool; currentRevision : Z;
  timestampA : string; timestampB : string;
  progressionViolation : bool; progressionCountA : Z; progressionCountB : Z }.

Record MsgProgressionCtx := mkCtx {
  mapStyle : bool; hasMsgPrev : bool; prevMsgRevision : Z; currentMsgRevision : Z }.
Definition spatCtx : MsgProgressionCtx := mkCtx false false (-1) (-1).

Record RevisionCounterResult := mkResult {
  valid : bool; comparisonPerformed : bool; violations : list string;
  intersectionChanges : list IntersectionChangeInfo;
  resultMsgRevision : Z; msgRevisionChanged : bool; hasMsgRevision : bool }.
Definition result0 : RevisionCounterResult := mkResult true false [] [] (-1) false false.

Definition add_violation (text : string) (r : RevisionCounterResult) : RevisionCounterResult :=
  mkResult false (comparisonPerformed r) (violations r ++ [text]) (intersectionChanges r)
    (resultMsgRevision r) (msgRevisionChanged r) (hasMsgRevision r).
Definition set_compared (r : RevisionCounterResult) : RevisionCounterResult :=
  mkResult (valid r) true (violations r) (intersectionChanges r)
    (resultMsgRevision r) (msgRevisionChanged r) (hasMsgRevision r).
Definition add_change (c : IntersectionChangeInfo) (r : RevisionCounterResult) : RevisionCounterResult :=
  mkResult (valid r) (comparisonPerformed r) (violations r) (intersectionChanges r ++ [c])
    (resultMsgRevision r) (msgRevisionChanged r) (hasMsgRevision r).

Record IntersectionState := mkState { revision : Z; contentHash : string; timestamp : string }.

(** The validator. *)
Record t := mkValidator {
  prevSpatIntersections : gmap Z IntersectionState;
  prevMapIntersections : gmap Z IntersectionState;
  prevMapRevision : Z; hasMapPrevious : bool }.
Definition validator : t := mkValidator ∅ ∅ (-1) false.

(** * The progression of a counter *)
(** [%] truncates. The sum overflows an [int] only for a counter of [INT_MAX], which is
    none the J2735 messages have (they are from 0 to 127); C++ leaves the result open
    there, and it is wrapped here. *)
Definition next_count (prev : Z) : Z := Z.rem (s32 (prev + 1)) 128.

Definition violate (a b : Z) (c : IntersectionChangeInfo) : IntersectionChangeInfo :=
  mkChange (id c) (contentChanged c) (revisionChanged c) (currentRevision c) (timestampA c)
    (timestampB c) true a b.

Definition evaluateProgression (c : IntersectionChangeInfo) (prevRevision : Z)
    (ctx : MsgProgressionCtx) : IntersectionChangeInfo :=
  let revisionProperIncrement := next_count prevRevision =? currentRevision c in
  if mapStyle ctx then
    let revisionBad := contentChanged c && negb revisionProperIncrement in
    let msgRevisionBad := contentChanged c && hasMsgPrev ctx &&
      negb (next_count (prevMsgRevision ctx) =? currentMsgRevision ctx) in
    if negb revisionBad && negb msgRevisionBad then c
    else if revisionBad then violate prevRevision (currentRevision c) c
    else violate (prevMsgRevision ctx) (currentMsgRevision ctx) c
  else
    let noChange := negb (contentChanged c) && negb (revisionChanged c) in
    let validIncrement := contentChanged c && revisionProperIncrement in
    if noChange || validIncrement then c else violate prevRevision (currentRevision c) c.

Section validator.
Context {R : RapidJSON}.

(** * The content of an intersection *)
Fixpoint stripTimestamps (value : Value) : Value :=
  match value with
  | Object ms =>
      Object (omap (fun '(k, v) =>
        if String.eqb (c_str k) "timeStamp" then None else Some (k, stripTimestamps v)) ms)
  | Array l => Array (map stripTimestamps l)
  | _ => value
  end.

Definition toJSONString (value : Value) : string := c_str (Write value).

Definition createContentHash (intersection : Value) : option string :=
  match stripTimestamps intersection with
  | Object ms =>
      Some (toJSONString (Object
        (match find_member ms "revision" with Some _ => RemoveMember "revision" ms | None => ms end)))
  | _ => None
  end.

Definition stuck_text (messageType : string) (intersectionId rev : Z) : string :=
  messageType +:+ " intersection " +:+ pretty intersectionId +:+
  " content changed but revision counter did not increment (revision=" +:+ pretty rev +:+ ")".
Definition moved_text (messageType : string) (intersectionId prev rev : Z) : string :=
  messageType +:+ " intersection " +:+ pretty intersectionId +:+
  " content unchanged but revision counter incremented (prev=" +:+ pretty prev +:+
  ", current=" +:+ pretty rev +:+ ")".

Definition checkRevisionViolation (intersectionId rev : Z) (hash : string) (prevState : IntersectionState)
    (messageType : string) (r : RevisionCounterResult) : bool * RevisionCounterResult :=
  let r := set_compared r in
  let changed := negb (String.eqb hash (contentHash prevState)) in
  let revChanged := negb (rev =? revision prevState) in
  (changed,
   if changed && negb revChanged then add_violation (stuck_text messageType intersectionId rev) r
   else if negb changed && revChanged
   then add_violation (moved_text messageType intersectionId (revision prevState) rev) r
   else r).

(** What is read of an element of the array: nothing where it has no id. *)
Definition read_intersection (intersection : Value) : option (option (Z * Z * string)) :=
  i ← FindMember intersection "id";
  match i with
  | None => Some None
  | Some i =>
      i ← FindMember i "id";
      match i with
      | None => Some None
      | Some i =>
          intersectionId ← GetInt i;
          rev ← FindMember intersection "revision";
          rev ← match rev with Some v => GetInt v | None => Some (-1) end;
          hash ← createContentHash intersection;
          Some (Some (intersectionId, rev, hash))
      end
  end.

(** One intersection of a message: the states, the result and whether any content
    changed. *)
Definition process_intersection (messageType now : string) (ctx : MsgProgressionCtx)
    (item : Z * Z * string) (acc : gmap Z IntersectionState * RevisionCounterResult * bool)
    : gmap Z IntersectionState * RevisionCounterResult * bool :=
  let '(intersectionId, rev, hash) := item in
  let '(prevStates, r, anyChanged) := acc in
  let '(change, r, anyChanged) :=
    match prevStates !! intersectionId with
    | None => (mkChange intersectionId true false rev "" now false 0 0, r, true)
    | Some p =>
        let '(changed, r) := checkRevisionViolation intersectionId rev hash p messageType r in
        let change := mkChange intersectionId changed (negb (rev =? revision p)) rev
                        (timestamp p) now false 0 0 in
        (evaluateProgression change (revision p) ctx, r, anyChanged || changed)
    end in
  (<[intersectionId := mkState rev hash now]> prevStates, add_change change r, anyChanged).

Fixpoint processIntersectionArray (intersections : list Value) (messageType now : string)
    (ctx : MsgProgressionCtx) (acc : gmap Z IntersectionState * RevisionCounterResult * bool)
    : option (gmap Z IntersectionState * RevisionCounterResult * bool) :=
  match intersections with
  | [] => Some acc
  | v :: intersections =>
      item ← read_intersection v;
      processIntersectionArray intersections messageType now ctx
        (match item with
         | None => acc
         | Some item => process_intersection messageType now ctx item acc
         end)
  end.

(** * Messages *)
(** A member of a value that has to be an object, then of that member, and so on. *)
Fixpoint path (v : Value) (names : list string) : option (option Value) :=
  match names with
  | [] => Some (Some v)
  | n :: names =>
      m ← FindMember v n;
      match m with Some v => path v names | None => Some None end
  end.

Definition validateSpatRevision (doc : option Value) (now : string) (s : t)
    : option (t * RevisionCounterResult) :=
  match doc with
  | None => Some (s, add_violation "Failed to parse SPaT JSON" result0)
  | Some doc =>
      found ← path doc ["value"; "SPAT"; "intersections"];
      match found with
      | Some (Array l) =>
          '(states, r, _) ← processIntersectionArray l "SPaT" now spatCtx
                              (prevSpatIntersections s, result0, false);
          Some (mkValidator states (prevMapIntersections s) (prevMapRevision s) (hasMapPrevious s), r)
      | _ => Some (s, result0)
      end
  end.

Definition map_stuck_text (rev : Z) : string :=
  "MAP content changed but msgIssueRevision did not increment (msgIssueRevision=" +:+ pretty rev +:+ ")".
Definition map_moved_text (prev rev : Z) : string :=
  "MAP content unchanged but msgIssueRevision incremented (prev=" +:+ pretty prev +:+
  ", current=" +:+ pretty rev +:+ ")".

Definition validateMsgIssueRevision (rev : Z) (anyChanged : bool) (s : t) (r : RevisionCounterResult)
    : RevisionCounterResult :=
  if hasMapPrevious s then
    let r := set_compared r in
    let revChanged := negb (rev =? prevMapRevision s) in
    if anyChanged && negb revChanged then add_violation (map_stuck_text rev) r
    else if negb anyChanged && revChanged
    then add_violation (map_moved_text (prevMapRevision s) rev) r
    else r
  else r.

Definition validateMapIntersections (l : list Value) (r : RevisionCounterResult) (now : string)
    (rev : Z) (s : t) : option (gmap Z IntersectionState * RevisionCounterResult * bool) :=
  processIntersectionArray l "MAP" now (mkCtx true (hasMapPrevious s) (prevMapRevision s) rev)
    (prevMapIntersections s, r, false).

Definition validateMapRevision (doc : option Value) (now : string) (s : t)
    : option (t * RevisionCounterResult) :=
  match doc with
  | None => Some (s, add_violation "Failed to parse MAP JSON" result0)
  | Some doc =>
      found ← path doc ["value"; "MapData"];
      match found with
      | None => Some (s, result0)
      | Some mapData =>
          rev ← FindMember mapData "msgIssueRevision";
          rev ← match rev with Some v => GetInt v | None => Some (-1) end;
          its ← FindMember mapData "intersections";
          '(states, r, anyChanged) ←
            match its with
            | Some (Array l) => validateMapIntersections l result0 now rev s
            | _ => Some (prevMapIntersections s, result0, false)
            end;
          let r := validateMsgIssueRevision rev anyChanged s r in
          let r := mkResult (valid r) (comparisonPerformed r) (violations r) (intersectionChanges r)
                     rev (hasMapPrevious s && negb (rev =? prevMapRevision s)) (hasMapPrevious s) in
          Some (mkValidator (prevSpatIntersections s) states rev true, r)
      end
  end.
End validator.

(** * Forwarding *)
Definition planForwarding (r : RevisionCounterResult) : bool :=
  if comparisonPerformed r then existsb contentChanged (intersectionChanges r) else true.

(** * The history of the intersections *)
(** An intersection of a message with the time of the message. *)
Record occurrence := mkOcc { o_id : Z; o_rev : Z; o_hash : string; o_time : string }.
Definition state_of (o : occurrence) : IntersectionState := mkState (o_rev o) (o_hash o) (o_time o).
Definition occ (now : string) (item : Z * Z * string) : occurrence :=
  let '(i, rev, hash) := item in mkOcc i rev hash now.

Definition latest (i : Z) (h : list occurrence) : option IntersectionState :=
  state_of <$> last (List.filter (fun o => o_id o =? i) h).

(** The verdicts on an occurrence after a history. *)
Definition judge (ctx : MsgProgressionCtx) (h : list occurrence) (o : occurrence)
    : IntersectionChangeInfo :=
  match latest (o_id o) h with
  | None => mkChange (o_id o) true false (o_rev o) "" (o_time o) false 0 0
  | Some p =>
      evaluateProgression
        (mkChange (o_id o) (negb (String.eqb (o_hash o) (contentHash p)))
           (negb (o_rev o =? revision p)) (o_rev o) (timestamp p) (o_time o) false 0 0)
        (revision p) ctx
  end.
Definition consistent (h : list occurrence) (o : occurrence) : bool :=
  match latest (o_id o) h with
  | None => true
  | Some p => Bool.eqb (String.eqb (o_hash o) (contentHash p)) (o_rev o =? revision p)
  end.
Definition seen (h : list occurrence) (o : occurrence) : bool := bool_decide (is_Some (latest (o_id o) h)).

(** A verdict for each occurrence, after the ones before it. *)
Fixpoint along {A} (f : list occurrence -> occurrence -> A) (h os : list occurrence) : list A :=
  match os with [] => [] | o :: os => f h o :: along f (h ++ [o]) os end.

Lemma along_app {A} (f : list occurrence -> occurrence -> A) h os os' :
  along f h (os ++ os') = along f h os ++ along f (h ++ os) os'.
Proof.
  revert h. induction os as [|o os IH]; intros h; cbn; [by rewrite app_nil_r|].
  by rewrite IH, <- app_assoc.
Qed.

Lemma latest_snoc i h o :
  latest i (h ++ [o]) = if o_id o =? i then Some (state_of o) else latest i h.
Proof.
  unfold latest. rewrite List.filter_app. cbn. destruct (o_id o =? i).
  - by rewrite last_snoc.
  - by rewrite app_nil_r.
Qed.

Lemma evaluateProgression_fields c p ctx :
  contentChanged (evaluateProgression c p ctx) = contentChanged c /\
  revisionChanged (evaluateProgression c p ctx) = revisionChanged c /\
  id (evaluateProgression c p ctx) = id c.
Proof. unfold evaluateProgression. by repeat case_match. Qed.

Definition remembers (states : gmap Z IntersectionState) (h : list occurrence) : Prop :=
  forall i, states !! i = latest i h.

Section history.
Context {R : RapidJSON}.

Lemma process_intersection_spec mt now ctx item states r any h :
  remembers states h ->
  let o := occ now item in
  exists states' r',
    process_intersection mt now ctx item (states, r, any) =
      (states', r', any || contentChanged (judge ctx h o)) /\
    remembers states' (h ++ [o]) /\
    valid r' = valid r && consistent h o /\
    comparisonPerformed r' = comparisonPerformed r || seen h o /\
    intersectionChanges r' = intersectionChanges r ++ [judge ctx h o].
Proof.
  intros Hs. destruct item as [[i rev] hash]. cbn [occ].
  assert (remembers (<[i:=mkState rev hash now]> states) (h ++ [mkOcc i rev hash now])) as Hs'.
  { intros j. rewrite latest_snoc. cbn. case_if.
    - subst. by rewrite lookup_insert_eq.
    - by rewrite lookup_insert_ne. }
  unfold process_intersection, judge, consistent, seen. cbn [o_id o_rev o_hash o_time].
  rewrite (Hs i). destruct (latest i h) as [p|] eqn:El.
  - unfold checkRevisionViolation. cbn [bool_decide].
    destruct (evaluateProgression_fields (mkChange i (negb (String.eqb hash (contentHash p)))
      (negb (rev =? revision p)) rev (timestamp p) now false 0 0) (revision p) ctx) as (Ec & _ & _).
    do 2 eexists. split; [rewrite Ec; reflexivity|]. split; [exact Hs'|].
    destruct (String.eqb hash (contentHash p)), (rev =? revision p); cbn;
      rewrite ?andb_true_r, ?andb_false_r, ?orb_true_r; by cbn.
  - do 2 eexists. split; [rewrite orb_true_r; reflexivity|]. split; [exact Hs'|]. cbn.
    by rewrite andb_true_r, orb_false_r.
Qed.

Definition process_all (mt now : string) ctx (items : list (Z * Z * string)) acc :=
  fold_left (fun acc item => process_intersection mt now ctx item acc) items acc.

Lemma process_all_spec mt now ctx items states r any h :
  remembers states h ->
  let os := map (occ now) items in
  exists states' r',
    process_all mt now ctx items (states, r, any) =
      (states', r', any || existsb contentChanged (along (judge ctx) h os)) /\
    remembers states' (h ++ os) /\
    valid r' = valid r && forallb Datatypes.id (along consistent h os) /\
    comparisonPerformed r' = comparisonPerformed r || existsb Datatypes.id (along seen h os) /\
    intersectionChanges r' = intersectionChanges r ++ along (judge ctx) h os.
Proof.
  revert states r any h. induction items as [|item items IH]; intros states r any h Hs.
  - exists states, r. cbn. rewrite !orb_false_r, !app_nil_r, andb_true_r. done.
  - destruct (process_intersection_spec mt now ctx item states r any h Hs)
      as (states1 & r1 & E1 & Hs1 & Hv1 & Hc1 & Hi1).
    destruct (IH states1 r1 (any || contentChanged (judge ctx h (occ now item))) _ Hs1)
      as (states2 & r2 & E2 & Hs2 & Hv2 & Hc2 & Hi2).
    exists states2, r2. cbn [process_all fold_left map along]. rewrite E1.
    unfold process_all in E2. rewrite E2. cbn. rewrite Hv2, Hv1, Hc2, Hc1, Hi2, Hi1.
    rewrite <- !orb_assoc, <- andb_assoc, <- !app_assoc in *. cbn in *. done.
Qed.

Lemma processIntersectionArray_items l mt now ctx items acc :
  mapM read_intersection l = Some items ->
  processIntersectionArray l mt now ctx acc = Some (process_all mt now ctx (omap Datatypes.id items) acc).
Proof.
  revert items acc. induction l as [|v l IH]; intros items acc; cbn.
  - by intros [= <-].
  - intros (item & Ev & (its & El & [= <-])%bind_Some)%bind_Some. rewrite Ev. cbn.
    rewrite (IH its) by done. by destruct item.
Qed.

(** * Sequences of SPaT messages *)
(** The intersections a document names; [None] where its reading fails. *)
Definition spat_items (doc : Value) : option (list (Z * Z * string)) :=
  found ← path doc ["value"; "SPAT"; "intersections"];
  match found with
  | Some (Array l) => items ← mapM read_intersection l; Some (omap Datatypes.id items)
  | _ => Some []
  end.

Fixpoint spat_occurrences (docs : list (Value * string)) : option (list occurrence) :=
  match docs with
  | [] => Some []
  | (doc, now) :: docs =>
      items ← spat_items doc; os ← spat_occurrences docs; Some (map (occ now) items ++ os)
  end.

Fixpoint run_spat (docs : list (Value * string)) (s : t) : option (t * list RevisionCounterResult) :=
  match docs with
  | [] => Some (s, [])
  | (doc, now) :: docs =>
      '(s, r) ← validateSpatRevision (Some doc) now s;
      '(s, rs) ← run_spat docs s;
      Some (s, r :: rs)
  end.

Lemma validateSpatRevision_spec doc now s h items :
  spat_items doc = Some items -> remembers (prevSpatIntersections s) h ->
  let os := map (occ now) items in
  exists s' r, validateSpatRevision (Some doc) now s = Some (s', r) /\
    remembers (prevSpatIntersections s') (h ++ os) /\
    valid r = forallb Datatypes.id (along consistent h os) /\
    comparisonPerformed r = existsb Datatypes.id (along seen h os) /\
    intersectionChanges r = along (judge spatCtx) h os.
Proof.
  unfold spat_items, validateSpatRevision. intros Hi Hs.
  destruct (path doc _) as [found|]; cbn in Hi |- *; [|done].
  destruct found as [[| | | | |l|]|];
    try (injection Hi as <-; exists s, result0; cbn; by rewrite app_nil_r).
  apply bind_Some in Hi as (its & Em & [= <-]).
  rewrite (processIntersectionArray_items _ _ _ _ _ _ Em).
  destruct (process_all_spec "SPaT" now spatCtx (omap Datatypes.id its) _ result0 false h Hs)
    as (states & r & E & H). rewrite E. cbn. by exists (mkValidator states (prevMapIntersections s)
      (prevMapRevision s) (hasMapPrevious s)), r.
Qed.

(** * The rule of CTI 4501 *)
(** The counter is kept with the content, and goes one up (modulo 128) with a new
    content. *)
Definition obeys (h : list occurrence) (o : occurrence) : bool :=
  match latest (o_id o) h with
  | None => true
  | Some p =>
      if String.eqb (o_hash o) (contentHash p) then o_rev o =? revision p
      else Z.rem (revision p + 1) 128 =? o_rev o
  end.

(** The overflow of the addition does not show in the remainder. *)
Lemma next_count_rem p : - 2 ^ 31 <= p < 2 ^ 31 -> next_count p = Z.rem (p + 1) 128.
Proof.
  intros Hp. unfold next_count. destruct (decide (p = 2 ^ 31 - 1)) as [->|]; [done|].
  by rewrite s32_small by lia.
Qed.

Lemma next_count_moves p : - 2 ^ 31 <= p < 2 ^ 31 -> next_count p <> p.
Proof.
  intros Hp H. unfold next_count in H.
  assert (- 128 < p < 128) as Hb.
  { rewrite <- H. pose proof (Z.rem_bound_abs (s32 (p + 1)) 128 ltac:(lia)). lia. }
  rewrite s32_small in H by lia.
  destruct (decide (p = 127)) as [->|]; [done|]. 
  destruct (decide (0 <= p + 1)).
  - rewrite Z.rem_small in H by lia. lia.
  - rewrite <- (Z.opp_involutive (p + 1)), Z.rem_opp_l, Z.rem_small in H by lia. lia.
Qed.

Definition int_revision (o : occurrence) : Prop := - 2 ^ 31 <= o_rev o < 2 ^ 31.

Lemma latest_int i h p : Forall int_revision h -> latest i h = Some p -> - 2 ^ 31 <= revision p < 2 ^ 31.
Proof.
  unfold latest. intros Hh (o & Ho & ->)%fmap_Some.
  assert (o ∈ h) as Hin.
  { apply list_elem_of_In. apply last_Some in Ho as [l' E].
    assert (In o (List.filter (fun o => o_id o =? i) h)) as H by (rewrite E; apply in_or_app; right; by left).
    by apply filter_In in H as [? _]. }
  rewrite Forall_forall in Hh. by apply Hh.
Qed.

Lemma judge_spat h o :
  Forall int_revision h -> progressionViolation (judge spatCtx h o) = negb (obeys h o).
Proof.
  intros Hh. unfold judge, obeys. destruct (latest (o_id o) h) as [p|] eqn:El; [|done].
  apply (latest_int _ _ _ Hh) in El. unfold evaluateProgression. cbn.
  rewrite (next_count_rem _ El). destruct (String.eqb (o_hash o) (contentHash p)); cbn.
  - by destruct (o_rev o =? revision p).
  - by destruct (Z.rem (revision p + 1) 128 =? o_rev o).
Qed.

Lemma obeys_consistent h o : Forall int_revision h -> obeys h o = true -> consistent h o = true.
Proof.
  unfold obeys, consistent. intros Hh. destruct (latest (o_id o) h) as [p|] eqn:El; [|done].
  apply (latest_int _ _ _ Hh) in El.
  destruct (String.eqb (o_hash o) (contentHash p)).
  - by intros ->.
  - intros E%Z.eqb_eq. pose proof (next_count_moves _ El). rewrite next_count_rem in * by done. apply Bool.eqb_true_iff.
    symmetry. apply Z.eqb_neq. congruence.
Qed.

Lemma along_forall {A} (f : list occurrence -> occurrence -> A) (P : A -> Prop) h os :
  Forall P (along f h os) <-> forall k o t, os = k ++ o :: t -> P (f (h ++ k) o).
Proof.
  revert h. induction os as [|o os IH]; intros h; cbn.
  - split; [intros _ [|] ? ? E; discriminate|constructor].
  - rewrite Forall_cons, IH. split.
    + intros [Ho H] [|o' k] o2 t E; cbn in E; injection E as -> E.
      * by rewrite app_nil_r.
      * specialize (H _ _ _ E). by rewrite <- app_assoc in H.
    + intros H. split.
      * specialize (H [] o os eq_refl). by rewrite app_nil_r in H.
      * intros k o2 t ->. rewrite <- app_assoc. by apply (H (o :: k) o2 t).
Qed.

Lemma read_intersection_int v i rev hash :
  read_intersection v = Some (Some (i, rev, hash)) -> - 2 ^ 31 <= rev < 2 ^ 31.
Proof.
  assert (forall x n, GetInt x = Some n -> - 2 ^ 31 <= n < 2 ^ 31) as HG.
  { intros x n. unfold GetInt. destruct x; try done. case_if; [|done]. intros [= <-]. lia. }
  unfold read_intersection. intros H.
  apply bind_Some in H as ([j|] & _ & H); [|done].
  apply bind_Some in H as ([j'|] & _ & H); [|done].
  apply bind_Some in H as (n & _ & (r & _ & (rv & Hr & (hs & _ & [= <- <- <-])%bind_Some)%bind_Some)%bind_Some).
  destruct r as [v'|]; [by apply (HG v')|]. injection Hr as <-. lia.
Qed.

Lemma spat_items_int doc now items : spat_items doc = Some items -> Forall int_revision (map (occ now) items).
Proof.
  unfold spat_items. intros ([[| | | | |l|]|] & _ & H)%bind_Some; try (by injection H as <-; constructor).
  apply bind_Some in H as (its & Em & [= <-]).
  revert its Em. induction l as [|v l IH]; intros its; cbn; [by intros [= <-]; constructor|].
  intros (item & Ev & (its' & El & [= <-])%bind_Some)%bind_Some.
  destruct item as [[[i rev] hash]|]; cbn; [|by apply IH].
  constructor; [by apply (read_intersection_int v i rev hash)|by apply IH].
Qed.

Lemma spat_occurrences_int docs os : spat_occurrences docs = Some os -> Forall int_revision os.
Proof.
  revert os. induction docs as [|[doc now] docs IH]; intros os; cbn; [by intros [= <-]; constructor|].
  intros (items & Ei & (os' & Eo & [= <-])%bind_Some)%bind_Some.
  apply Forall_app. split; [by eapply spat_items_int|by apply IH].
Qed.

(** No event and no violation. *)
Definition quiet (r : RevisionCounterResult) : Prop :=
  valid r = true /\ Forall (fun c => progressionViolation c = false) (intersectionChanges r).

Lemma quiet_iff h os r :
  Forall int_revision (h ++ os) ->
  valid r = forallb Datatypes.id (along consistent h os) ->
  intersectionChanges r = along (judge spatCtx) h os ->
  quiet r <-> Forall (eq true) (along obeys h os).
Proof.
  intros Hint Hv Hi. unfold quiet. rewrite Hv, Hi. rewrite along_forall, along_forall. split.
  - intros [_ H] k o t ->. specialize (H k o t eq_refl).
    rewrite judge_spat in H; [by destruct (obeys (h ++ k) o)|].
    rewrite app_assoc in Hint. by apply Forall_app in Hint as [? _].
  - intros H. split.
    + apply forallb_forall. intros b Hb. apply list_elem_of_In in Hb.
      assert (Forall (eq true) (along consistent h os)) as Hf.
      { apply along_forall. intros k o t ->. symmetry. apply obeys_consistent.
        - rewrite app_assoc in Hint. by apply Forall_app in Hint as [? _].
        - symmetry. by eapply H. }
      rewrite Forall_forall in Hf. by rewrite <- (Hf b Hb).
    + intros k o t ->. specialize (H k o t eq_refl).
      rewrite judge_spat, <- H; [done|]. rewrite app_assoc in Hint. by apply Forall_app in Hint as [? _].
Qed.

Lemma run_spat_spec docs s h os :
  spat_occurrences docs = Some os -> remembers (prevSpatIntersections s) h -> Forall int_revision h ->
  exists s' rs, run_spat docs s = Some (s', rs) /\
    remembers (prevSpatIntersections s') (h ++ os) /\
    concat (map intersectionChanges rs) = along (judge spatCtx) h os /\
    (Forall quiet rs <-> Forall (eq true) (along obeys h os)).
Proof.
  revert s h os. induction docs as [|[doc now] docs IH]; intros s h os; cbn [spat_occurrences run_spat].
  - intros [= <-] Hs _. exists s, []. rewrite app_nil_r. done.
  - intros (items & Ei & (os' & Eo & [= <-])%bind_Some)%bind_Some Hs Hh.
    destruct (validateSpatRevision_spec doc now s h items Ei Hs) as (s1 & r & E & Hs1 & Hv & _ & Hi).
    assert (Forall int_revision (h ++ map (occ now) items)) as Hh1.
    { apply Forall_app. split; [done|by eapply spat_items_int]. }
    destruct (IH s1 _ _ Eo Hs1 Hh1) as (s2 & rs & E2 & Hs2 & Hi2 & Hq).
    exists s2, (r :: rs). rewrite E. cbn [mbind option_bind]. rewrite E2. split; [done|].
    cbn [map concat].
    rewrite app_assoc. split; [done|]. rewrite !along_app. split; [by rewrite Hi, Hi2|].
    rewrite Forall_cons, Forall_app, Hq. by rewrite (quiet_iff h (map (occ now) items) r).
Qed.

(** C40: over any sequence of SPaT messages that can be read, from a new validator,
    the checks return, every intersection is compared with its own last appearance,
    and the messages raise neither a violation nor a progression event exactly when
    the sender obeys the rule: an intersection keeps its counter while its content
    stays and takes the next one, modulo 128, when the content is new. *)
Theorem spat_rule_checked (docs : list (Value * string)) (os : list occurrence) :
  spat_occurrences docs = Some os ->
  exists s rs, run_spat docs validator = Some (s, rs) /\
    (forall i, prevSpatIntersections s !! i = latest i os) /\
    concat (map intersectionChanges rs) = along (judge spatCtx) [] os /\
    (Forall quiet rs <-> forall k o t, os = k ++ o :: t -> obeys k o = true).
Proof.
  intros Ho. destruct (run_spat_spec docs validator [] os Ho) as (s & rs & E & Hs & Hi & Hq).
  - done.
  - constructor.
  - exists s, rs. split; [done|]. split; [done|]. split; [done|].
    rewrite Hq, along_forall. split; intros H k o t Et; [symmetry|symmetry]; by apply (H k o t).
Qed.

(** A SPaT message is held back by the forwarding plan exactly when it names an
    intersection and each intersection it names has appeared before with the content
    it had last. *)
Theorem held_back_iff_repeated (doc : Value) (now : string) (s : t) (h : list occurrence)
    (items : list (Z * Z * string)) :
  spat_items doc = Some items -> (forall i, prevSpatIntersections s !! i = latest i h) ->
  exists s' r, validateSpatRevision (Some doc) now s = Some (s', r) /\
    (planForwarding r = false <->
       items <> [] /\ forall k o t, map (occ now) items = k ++ o :: t ->
         exists p, latest (o_id o) (h ++ k) = Some p /\ o_hash o = contentHash p).
Proof.
  intros Ei Hs. destruct (validateSpatRevision_spec doc now s h items Ei Hs) as (s' & r & E & _ & _ & Hc & Hi).
  exists s', r. split; [done|]. unfold planForwarding. rewrite Hc, Hi.
  set (os := map (occ now) items).
  assert (forall k o, contentChanged (judge spatCtx (h ++ k) o) = false <->
    exists p, latest (o_id o) (h ++ k) = Some p /\ o_hash o = contentHash p) as Hj.
  { intros k o. unfold judge. destruct (latest (o_id o) (h ++ k)) as [p|].
    - destruct (evaluateProgression_fields (mkChange (o_id o) (negb (String.eqb (o_hash o) (contentHash p)))
        (negb (o_rev o =? revision p)) (o_rev o) (timestamp p) (o_time o) false 0 0)
        (revision p) spatCtx) as (-> & _ & _). cbn.
      destruct (String.eqb_spec (o_hash o) (contentHash p)); cbn; naive_solver.
    - cbn. naive_solver. }
  assert (existsb contentChanged (along (judge spatCtx) h os) = false <->
    forall k o t, os = k ++ o :: t -> contentChanged (judge spatCtx (h ++ k) o) = false) as He.
  { rewrite <- (along_forall (judge spatCtx) (fun c => contentChanged c = false)).
    induction (along (judge spatCtx) h os) as [|c cs IH]; cbn; [by split; [constructor|]|].
    rewrite Forall_cons, <- IH. by rewrite orb_false_iff. }
  destruct items as [|item items].
  - cbn. naive_solver.
  - destruct (existsb Datatypes.id (along seen h os)) eqn:Eseen.
    + rewrite He. split.
      * intros H. split; [done|]. intros k o t Et. by apply Hj, (H k o t).
      * intros [_ H] k o t Et. by apply Hj, (H k o t).
    + split; [done|]. intros [_ H]. subst os. cbn in Eseen. apply orb_false_iff in Eseen as [Ef _].
      destruct (H [] (occ now item) (map (occ now) items) eq_refl) as (p & Hp & _).
      rewrite app_nil_r in Hp. unfold seen, Datatypes.id in Ef.
      apply bool_decide_eq_false in Ef. destruct Ef. by eexists.
Qed.
End history.

(** * Samples *)
Definition sample_RapidJSON : RapidJSON := {|
  Parse _ := None;
  Write v := match v with
             | Object ms => String.concat "," (map (fun kv => fst kv +:+ "=" +:+
                 match snd kv with Str s => s | Int n => pretty n | _ => "" end) ms)
             | _ => ""
             end;
  PointerGet _ _ := None; Validate _ _ := None;
  RemoveMember k ms := List.filter (fun kv => negb (String.eqb (fst kv) k)) ms |}.
Definition sample_spat (intersection rev : Z) (state : string) (minute : Z) : Value :=
  Object [("value", Object [("SPAT", Object [("intersections", Array
    [Object [("id", Object [("id", Int intersection)]); ("revision", Int rev);
             ("timeStamp", Int minute); ("state", Str state)]])])])].
Definition sample_docs : list (Value * string) :=
  [(sample_spat 9001 127 "red" 1, "t1"); (sample_spat 9001 127 "red" 2, "t2");
   (sample_spat 9001 0 "green" 3, "t3"); (sample_spat 9001 2 "red" 4, "t4")].

Definition sample_occurrences : list occurrence :=
  [mkOcc 9001 127 "id=,state=red" "t1"; mkOcc 9001 127 "id=,state=red" "t2";
   mkOcc 9001 0 "id=,state=green" "t3"; mkOcc 9001 2 "id=,state=red" "t4"].

Lemma spat_rule_checked_witness :
  spat_occurrences (R := sample_RapidJSON) sample_docs = Some sample_occurrences /\
  exists s rs, run_spat (R := sample_RapidJSON) sample_docs validator = Some (s, rs) /\
    (forall i, prevSpatIntersections s !! i = latest i sample_occurrences) /\
    concat (map intersectionChanges rs) = along (judge spatCtx) [] sample_occurrences /\
    (Forall quiet rs <-> forall k o t, sample_occurrences = k ++ o :: t -> obeys k o = true).
Proof.
  split; [reflexivity|].
  apply (spat_rule_checked (R := sample_RapidJSON) sample_docs sample_occurrences). reflexivity.
Defined.

Lemma held_back_iff_repeated_witness :
  spat_items (R := sample_RapidJSON) (sample_spat 9001 127 "red" 1) = Some [(9001, 127, "id=,state=red")] /\
  exists s' r,
    validateSpatRevision (R := sample_RapidJSON) (Some (sample_spat 9001 127 "red" 1)) "t1" validator = Some (s', r) /\
    (planForwarding r = false <->
       [(9001, 127, "id=,state=red")] <> [] /\
       forall k o t, map (occ "t1") [(9001, 127, "id=,state=red")] = k ++ o :: t ->
         exists p, latest (o_id o) ([] ++ k) = Some p /\ o_hash o = contentHash p).
Proof.
  split; [reflexivity|].
  apply (held_back_iff_repeated (R := sample_RapidJSON) (sample_spat 9001 127 "red" 1) "t1" validator []
    [(9001, 127, "id=,state=red")]); [reflexivity|]. intros i. reflexivity.
Defined.
End Revision.
