(* ===== verification/Intersection.v ===== *)
(** The handlers of the intersection validation plugin,
    [src/src/v2i-hub/IntersectionValidationPlugin/src/IntersectionValidationPlugin.cpp],
    over the interval, schema and revision checks.

    The state of the plugin is passed through the handlers with the list of what
    they send. Each reading of the clock is a field of its own, the files are a
    function, the decoding of the J2735 message and its JSON text are inputs, and
    the text of an event message is a parameter. The two handlers are the same code
    at the two message types. *)
From stdpp Require Import pretty.
From S2P Require Import Prelude Interval Schema Revision.
Open Scope Z_scope.

Module Intersection.
Import Rapid.

Definition IvpMsgFlags_Validated : Z := 2.

(** [CTI4501ValidationMessage] with its defaults. *)
Record Event := mkEvent {
  eventGeneratedAt : Z; eventType : string; intersectionID : Z; roadRegulatorID : Z;
  source : string; timePeriod : option (Z * Z); missingDataElements : list string;
  timestampA : string; timestampB : string; messageCountA : Z; messageCountB : Z;
  topicName : string; numberOfMessages : Z; messageType : string }.

Inductive output :=
| Status (key value : string)
| BroadcastEvent (e : Event)
| EventLogWarn (text : string)
| EventLogError (text : string)
| BroadcastValidated.

Inductive kind := SPaT | MAP.
#[export] Instance kind_eq_dec : EqDecision kind.
Proof. solve_decision. Defined.
Definition name_of (k : kind) : string := match k with SPaT => "SPaT" | MAP => "MAP" end.
Definition rate_event_type (k : kind) : string :=
  match k with SPaT => "SpatBroadcastRate" | MAP => "MapBroadcastRate" end.
Definition field_event_type (k : kind) : string :=
  match k with SPaT => "SpatMinimumData" | MAP => "MapMinimumData" end.
Definition revision_event_type (k : kind) : string :=
  match k with SPaT => "SpatMessageCountProgression" | MAP => "MapMessageCountProgression" end.
Definition input_topic (k : kind) : string :=
  match k with SPaT => "topic.ProcessedSpat" | MAP => "topic.ProcessedMap" end.

(** What the plugin keeps for each message type; the maps of the code keyed by
    the name of the type are the last three fields. *)
Record stream := mkStream {
  intervalValidator : Interval.t; schemaPath : string;
  fieldValidationErrors : Z; validationPassed : Z; revisionPassed : Z; revisionFailed : Z;
  lastBroadcastMessageTime : Z;
  lastContentValidationMessage : option Event;
  lastRevisionValidationMessage : option Event }.

Record t := mkPlugin {
  spat : stream; map_ : stream; rsuSource : string;
  BroadcastRateTimeWindow : Z; ContentValidationTimeWindow : Z; ContentUnchangedTimeWindow : Z;
  revisionValidator : Revision.t }.

Definition get (k : kind) (s : t) : stream := match k with SPaT => spat s | MAP => map_ s end.
Definition put (k : kind) (st : stream) (s : t) : t :=
  mkPlugin (match k with SPaT => st | MAP => spat s end) (match k with SPaT => map_ s | MAP => st end)
    (rsuSource s) (BroadcastRateTimeWindow s) (ContentValidationTimeWindow s)
    (ContentUnchangedTimeWindow s) (revisionValidator s).
Definition put_revision (rv : Revision.t) (s : t) : t :=
  mkPlugin (spat s) (map_ s) (rsuSource s) (BroadcastRateTimeWindow s) (ContentValidationTimeWindow s)
    (ContentUnchangedTimeWindow s) rv.

Definition set_interval (v : Interval.t) (st : stream) : stream :=
  mkStream v (schemaPath st) (fieldValidationErrors st) (validationPassed st) (revisionPassed st)
    (revisionFailed st) (lastBroadcastMessageTime st) (lastContentValidationMessage st)
    (lastRevisionValidationMessage st).
Definition count_fields (ok : bool) (st : stream) : stream :=
  mkStream (intervalValidator st) (schemaPath st)
    (if ok then fieldValidationErrors st else u32 (fieldValidationErrors st + 1))
    (if ok then u32 (validationPassed st + 1) else validationPassed st)
    (revisionPassed st) (revisionFailed st) (lastBroadcastMessageTime st)
    (lastContentValidationMessage st) (lastRevisionValidationMessage st).
Definition count_revision (r : Revision.RevisionCounterResult) (st : stream) : stream :=
  mkStream (intervalValidator st) (schemaPath st) (fieldValidationErrors st) (validationPassed st)
    (if Revision.valid r && Revision.comparisonPerformed r then u32 (revisionPassed st + 1)
     else revisionPassed st)
    (if Revision.valid r then revisionFailed st else u32 (revisionFailed st + 1))
    (lastBroadcastMessageTime st) (lastContentValidationMessage st) (lastRevisionValidationMessage st).
Definition set_broadcast (now : Z) (st : stream) : stream :=
  mkStream (intervalValidator st) (schemaPath st) (fieldValidationErrors st) (validationPassed st)
    (revisionPassed st) (revisionFailed st) now (lastContentValidationMessage st)
    (lastRevisionValidationMessage st).
Definition set_content (e : Event) (st : stream) : stream :=
  mkStream (intervalValidator st) (schemaPath st) (fieldValidationErrors st) (validationPassed st)
    (revisionPassed st) (revisionFailed st) (lastBroadcastMessageTime st) (Some e)
    (lastRevisionValidationMessage st).
Definition set_progression (e : Event) (st : stream) : stream :=
  mkStream (intervalValidator st) (schemaPath st) (fieldValidationErrors st) (validationPassed st)
    (revisionPassed st) (revisionFailed st) (lastBroadcastMessageTime st)
    (lastContentValidationMessage st) (Some e).

(** * The broadcast rate *)
Definition rate_event (k : kind) (source : string) (now : Z) (r : Interval.IntervalWindowResult) : Event :=
  mkEvent now (rate_event_type k) (Interval.intersectionId r) (-1) source
    (Some (s64 (Interval.windowStartMs r), s64 (Interval.windowEndMs r))) [] "" "" 0 0
    (input_topic k) (s32 (Interval.messageCount r)) "".

Definition publishBroadcastRateEvent (k : kind) (now : Z) (r : Interval.IntervalWindowResult) (s : t)
    : list output :=
  [BroadcastEvent (rate_event k (rsuSource s) (s64 now) r);
   EventLogWarn (Interval.formatBroadcastRateDescription (name_of k) (Interval.violationCount r)
                   (Interval.windowStartMs r) (Interval.windowEndMs r))].

(** The clock is read when the message is recorded and when an event is made. *)
Definition measureMessageInterval (k : kind) (now nowEvent id : Z) (s : t) : t * list output :=
  let '(v, r) := Interval.recordMessage now (BroadcastRateTimeWindow s) id (intervalValidator (get k s)) in
  let s := put k (set_interval v (get k s)) s in
  match r with
  | inl _ => (s, [])
  | inr closed =>
      (s, Status (name_of k +:+ " Message Interval (ms)") (pretty (Interval.lastIntervalMs v)) ::
          match closed with
          | Some w => publishBroadcastRateEvent k nowEvent w s
          | None => []
          end)
  end.

(** * The comparison of events *)
Definition compareMissingDataElements (a b : list string) : bool := bool_decide (a = b).
Definition compareRevisionValidationMessages (a b : Event) : bool :=
  if negb (messageCountA a =? messageCountA b) then false
  else if negb (messageCountB a =? messageCountB b) then false
  else (messageCountA a =? 0) && (messageCountA b =? 0) && (messageCountB a =? 0) && (messageCountB b =? 0).

(** Whether an event is sent again: there was none, it differs, or it is old. *)
Definition due (same : Event -> bool) (now window : Z) (last : option Event) : bool :=
  match last with
  | None => true
  | Some e => negb (same e) || (window <? u64 (now - eventGeneratedAt e))
  end.

Section plugin.
Context {R : RapidJSON}.
(** The file system; a file that cannot be opened is [None]. *)
Variable loadFileContents : string -> option string.
(** [message::to_string]. *)
Variable to_string : Event -> string.

(** * Revision counters *)
Definition progression_event (k : kind) (source : string) (now : Z) (c : Revision.IntersectionChangeInfo)
    : Event :=
  mkEvent (s64 now) (revision_event_type k) (Revision.id c) (-1) source None []
    (Revision.timestampA c) (Revision.timestampB c) (Revision.progressionCountA c)
    (Revision.progressionCountB c) "" 0 (name_of k).
Definition progression_text (k : kind) (c : Revision.IntersectionChangeInfo) : string :=
  name_of k +:+ " intersection " +:+ pretty (Revision.id c) +:+
  " message count did not progress per CTI 4501 (countA=" +:+ pretty (Revision.progressionCountA c) +:+
  ", countB=" +:+ pretty (Revision.progressionCountB c) +:+ ")".

Fixpoint send_progressions (k : kind) (now : Z) (cs : list Revision.IntersectionChangeInfo) (s : t)
    : t * list output :=
  match cs with
  | [] => (s, [])
  | c :: cs =>
      let e := progression_event k (rsuSource s) now c in
      if Revision.progressionViolation c &&
         due (compareRevisionValidationMessages e) now (ContentValidationTimeWindow s)
           (lastRevisionValidationMessage (get k s))
      then
        let '(s', out) := send_progressions k now cs (put k (set_progression e (get k s)) s) in
        (s', BroadcastEvent e :: EventLogError (progression_text k c) :: out)
      else send_progressions k now cs s
  end.

Definition revision_status (k : kind) (s : t) : list output :=
  [Status (name_of k +:+ " Revision Validation Passed") (pretty (s32 (revisionPassed (get k s))));
   Status (name_of k +:+ " Revision Validation Failed") (pretty (s32 (revisionFailed (get k s))))].

Definition validateRevisionCounters (k : kind) (doc : Value) (now nowEvent : Z) (s : t)
    : option (t * list output * Revision.RevisionCounterResult) :=
  let validate := match k with
                  | SPaT => Revision.validateSpatRevision
                  | MAP => Revision.validateMapRevision
                  end in
  '(rv, r) ← validate (Some doc) (Interval.formatIso8601Utc now) (revisionValidator s);
  let '(s, out) := send_progressions k nowEvent (Revision.intersectionChanges r) (put_revision rv s) in
  let s := put k (count_revision r (get k s)) s in
  Some (s, out ++ revision_status k s, r).

(** * Minimum data *)
Definition field_status (k : kind) (s : t) : list output :=
  let configured := Status (name_of k +:+ " Schema Path configured") "Yes" in
  let counts :=
    [Status (name_of k +:+ " Field Validation Passed") (pretty (s32 (validationPassed (get k s))));
     Status (name_of k +:+ " Field Validation Failed") (pretty (s32 (fieldValidationErrors (get k s))))] in
  match k with SPaT => configured :: counts | MAP => counts ++ [configured] end.

Definition content_event (k : kind) (source : string) (id beginMs endMs : Z) (missing : list string) : Event :=
  mkEvent (s64 endMs) (field_event_type k) id (-1) source (Some (s64 beginMs, s64 endMs)) missing
    "" "" 0 0 "" 0 "".

(** The missing properties, or the failure of the validator where there are none. *)
Definition missing_elements (schemaDoc doc : Value) (failure : option string * string * string)
    : option (list string) :=
  missing ← Schema.collectMissingRequiredFields schemaDoc doc;
  let '(keyword, documentPointer, schemaPointer) := failure in
  Some (match missing with
        | [] => [documentPointer +:+ " failed " +:+ default "validation" keyword +:+ " (" +:+
                 schemaPointer +:+ ")"]
        | _ => missing
        end).

Definition report_content (k : kind) (doc schemaDoc : Value) (failure : option string * string * string)
    (id beginMs endMs : Z) (s : t) : option (t * list output) :=
  missing ← missing_elements schemaDoc doc failure;
  let e := content_event k (rsuSource s) id beginMs endMs missing in
  if due (fun last => compareMissingDataElements missing (missingDataElements last)) endMs
       (ContentValidationTimeWindow s) (lastContentValidationMessage (get k s))
  then Some (put k (set_content e (get k s)) s,
             [BroadcastEvent e;
              EventLogError (name_of k +:+ " encountered CTI 4501 MinimumDataEvent: " +:+ to_string e)])
  else Some (s, []).

Definition validateMessageFields (k : kind) (doc schemaDoc : Value) (id beginMs endMs : Z)
    (contentChanged : bool) (s : t) : option (t * list output) :=
  '(s, out) ←
    match Validate schemaDoc doc with
    | Some failure =>
        let s := put k (count_fields false (get k s)) s in
        if contentChanged then report_content k doc schemaDoc failure id beginMs endMs s
        else Some (s, [])
    | None => Some (put k (count_fields true (get k s)) s, [])
    end;
  Some (s, out ++ field_status k s).

(** * A message *)
(** The readings of the clock, in the order of the code. *)
Record Clock := mkClock {
  atBegin : Z; atMeasure : Z; atRateEvent : Z; atRevision : Z; atRevisionEvent : Z; atContentEvent : Z }.

(** [inl] is the exception of a file that cannot be opened. *)
Definition validateMessage (k : kind) (jsonStr : string) (id : Z) (c : Clock) (s : t)
    : option (t * list output * (string + Revision.RevisionCounterResult)) :=
  match Parse (c_str jsonStr) with
  | None => Some (s, [], inr Revision.result0)
  | Some doc =>
      match loadFileContents (schemaPath (get k s)) with
      | None => Some (s, [], inl ("Failed to open file: " +:+ schemaPath (get k s)))
      | Some schemaStr =>
          match Parse (c_str schemaStr) with
          | None => Some (s, [], inr Revision.result0)
          | Some schemaDoc =>
              let doc := Schema.convertNumericStrings (Schema.removeEmptyStrings doc) schemaDoc in
              '(s, out1, r) ← validateRevisionCounters k doc (atRevision c) (atRevisionEvent c) s;
              '(s, out2) ← validateMessageFields k doc schemaDoc id (atBegin c) (atContentEvent c)
                             (Revision.planForwarding r) s;
              Some (s, out1 ++ out2, inr r)
          end
      end
  end.

(** A received message: its flags and, unless its decoding throws, the identifiers
    of its intersections and, unless the conversion throws, its JSON text. *)
Record Input := mkInput { flags : Z; decoded : option (list Z * option string) }.

Definition forward_due (k : kind) (r : Revision.RevisionCounterResult) (beginMs : Z) (s : t) : bool :=
  Revision.planForwarding r ||
  (ContentUnchangedTimeWindow s <? u64 (beginMs - lastBroadcastMessageTime (get k s))).

Definition HandleMessage (k : kind) (msg : Input) (c : Clock) (s : t) : option (t * list output) :=
  if negb (Z.land (flags msg) IvpMsgFlags_Validated =? 0) then Some (s, [])
  else if String.eqb (schemaPath (get k s)) ""
  then Some (s, [Status (name_of k +:+ " Schema Path configured") "No"])
  else
    match decoded msg with
    | None => Some (s, [])
    | Some (ids, json) =>
        let id := match ids with [] => -1 | i :: _ => s32 i end in
        let '(s, out1) := measureMessageInterval k (atMeasure c) (atRateEvent c) id s in
        match json with
        | None => Some (s, out1)
        | Some jsonStr =>
            '(s, out2, r) ← validateMessage k jsonStr id c s;
            match r with
            | inl _ => Some (s, out1 ++ out2)
            | inr r =>
                if forward_due k r (atBegin c) s
                then Some (put k (set_broadcast (atBegin c) (get k s)) s, out1 ++ out2 ++ [BroadcastValidated])
                else Some (s, out1 ++ out2)
            end
        end
    end.

(** * What the checks leave alone *)
Lemma get_put k st s : get k (put k st s) = st.
Proof. by destruct k. Qed.
Lemma get_put_ne k k' st s : k' <> k -> get k' (put k st s) = get k' s.
Proof. by destruct k, k'. Qed.
Lemma get_put_revision k rv s : get k (put_revision rv s) = get k s.
Proof. by destruct k. Qed.

(** The configuration, the other stream and the time of the last forwarding. *)
Record keeps (k : kind) (s s' : t) : Prop := {
  keeps_other k' : k' <> k -> get k' s' = get k' s;
  keeps_path : schemaPath (get k s') = schemaPath (get k s);
  keeps_forwarded : lastBroadcastMessageTime (get k s') = lastBroadcastMessageTime (get k s);
  keeps_content_window : ContentValidationTimeWindow s' = ContentValidationTimeWindow s;
  keeps_unchanged_window : ContentUnchangedTimeWindow s' = ContentUnchangedTimeWindow s }.

#[local] Instance keeps_refl k : Reflexive (keeps k).
Proof. intros s. by split. Qed.
#[local] Instance keeps_trans k : Transitive (keeps k).
Proof.
  intros s1 s2 s3 [A1 B1 C1 D1 E1] [A2 B2 C2 D2 E2]. split; try congruence.
  intros k' Hk. by rewrite A2, A1.
Qed.

Lemma keeps_put k st s :
  schemaPath st = schemaPath (get k s) ->
  lastBroadcastMessageTime st = lastBroadcastMessageTime (get k s) -> keeps k s (put k st s).
Proof. intros. split; rewrite ?get_put; try done. intros. by apply get_put_ne. Qed.

Lemma keeps_put_revision k rv s : keeps k s (put_revision rv s).
Proof. by split; rewrite ?get_put_revision. Qed.

Lemma bind_prod_Some {A B C} (m : option (A * B)) (f : A * B -> option C) y :
  m ≫= f = Some y -> exists a b, m = Some (a, b) /\ f (a, b) = Some y.
Proof. intros ([a b] & H & H')%bind_Some. eauto. Qed.

Definition no_forward (out : list output) : Prop := BroadcastValidated ∉ out.

(** The minimum data events of a message type. *)
Definition content_events (k : kind) (out : list output) : list Event :=
  omap (fun o => match o with
                 | BroadcastEvent e => if String.eqb (eventType e) (field_event_type k) then Some e else None
                 | _ => None
                 end) out.

Lemma content_events_app k o1 o2 : content_events k (o1 ++ o2) = content_events k o1 ++ content_events k o2.
Proof. apply omap_app. Qed.

Lemma no_forward_app o1 o2 : no_forward o1 -> no_forward o2 -> no_forward (o1 ++ o2).
Proof. unfold no_forward. rewrite elem_of_app. tauto. Qed.

(** A step that sends no minimum data event. *)
Record other_step (k : kind) (s s' : t) (out : list output) : Prop := {
  other_keeps : keeps k s s';
  other_content : lastContentValidationMessage (get k s') = lastContentValidationMessage (get k s);
  other_no_forward : no_forward out;
  other_events k' : content_events k' out = [] }.

Ltac not_forward := unfold no_forward; set_solver.

Lemma measure_step k now nowEvent id s :
  other_step k s (fst (measureMessageInterval k now nowEvent id s))
    (snd (measureMessageInterval k now nowEvent id s)).
Proof.
  unfold measureMessageInterval.
  destruct (Interval.recordMessage _ _ _ _) as [v [e|[w|]]]; cbn [fst snd];
    (split; [by apply keeps_put|by rewrite get_put|not_forward|by destruct k, k']).
Qed.

Lemma send_progressions_step k now cs s :
  other_step k s (fst (send_progressions k now cs s)) (snd (send_progressions k now cs s)).
Proof.
  revert s. induction cs as [|c cs IH]; intros s; cbn [send_progressions].
  { split; [done|done|not_forward|done]. }
  case_if; [|apply IH].
  set (e := progression_event k (rsuSource s) now c).
  specialize (IH (put k (set_progression e (get k s)) s)).
  destruct (send_progressions k now cs _) as [s' out]. cbn [fst snd] in *.
  destruct IH as [K C F E']. split.
  - etrans; [|exact K]. by apply keeps_put.
  - rewrite C. by rewrite get_put.
  - unfold no_forward in *. set_solver.
  - intros k'. specialize (E' k'). cbn. unfold content_events in E'. by destruct k, k'.
Qed.

Lemma revision_step k doc now nowEvent s s' out r :
  validateRevisionCounters k doc now nowEvent s = Some (s', out, r) -> other_step k s s' out.
Proof.
  unfold validateRevisionCounters. intros (rv & r0 & _ & H)%bind_prod_Some.
  pose proof (send_progressions_step k nowEvent (Revision.intersectionChanges r0) (put_revision rv s)) as [K C F E'].
  destruct (send_progressions k nowEvent _ _) as [s1 out1]. injection H as <- <- <-. cbn [fst snd] in *.
  split.
  - etrans; [apply (keeps_put_revision k rv)|]. etrans; [exact K|]. by apply keeps_put.
  - rewrite get_put. cbn. by rewrite C, get_put_revision.
  - apply no_forward_app; [done|]. unfold revision_status. not_forward.
  - intros k'. by rewrite content_events_app, E'.
Qed.

(** The minimum data check sends at most one event, and only when it is due. *)
Lemma fields_step k doc schemaDoc id beginMs endMs changed s s' out :
  validateMessageFields k doc schemaDoc id beginMs endMs changed s = Some (s', out) ->
  keeps k s s' /\ no_forward out /\
  ((lastContentValidationMessage (get k s') = lastContentValidationMessage (get k s) /\
    forall k', content_events k' out = []) \/
   exists missing,
     let e := content_event k (rsuSource s) id beginMs endMs missing in
     due (fun last => compareMissingDataElements missing (missingDataElements last)) endMs
       (ContentValidationTimeWindow s) (lastContentValidationMessage (get k s)) = true /\
     lastContentValidationMessage (get k s') = Some e /\
     content_events k out = [e] /\ forall k', k' <> k -> content_events k' out = []).
Proof.
  unfold validateMessageFields. intros (s1 & o1 & H1 & [= <- <-])%bind_prod_Some.
  assert (no_forward (field_status k s1) /\ forall k', content_events k' (field_status k s1) = []) as [Fs Es].
  { split; [unfold no_forward; destruct k; set_solver|by intros []; destruct k]. }
  destruct (Validate schemaDoc doc) as [failure|].
  - destruct changed.
    + unfold report_content in H1. apply bind_Some in H1 as (missing & _ & H1).
      rewrite get_put in H1. cbn [rsuSource ContentValidationTimeWindow put] in H1.
      destruct (due _ _ _ _) eqn:Edue in H1; injection H1 as <- <-.
      * split; [|split].
        -- etrans; [by apply (keeps_put k (count_fields false (get k s)))|]. apply keeps_put; by rewrite get_put.
        -- apply no_forward_app; [not_forward|done].
        -- right. exists missing. split; [done|]. rewrite get_put. split; [done|].
           setoid_rewrite content_events_app. setoid_rewrite Es. cbn.
           split; [by destruct k|intros k' ?; by destruct k, k'].
      * split; [by apply keeps_put|]. split; [done|]. left. by rewrite get_put.
    + injection H1 as <- <-. split; [by apply keeps_put|]. split; [done|]. left. by rewrite get_put.
  - injection H1 as <- <-. split; [by apply keeps_put|]. split; [done|]. left. by rewrite get_put.
Qed.

(** * A message *)
Lemma u64_s64 a b : u64 (s64 a - b) = u64 (a - b).
Proof.
  unfold wrapu, wraps. rewrite <- (Zminus_mod_idemp_l (_ - _)), <- (Zminus_mod_idemp_l a). f_equal. f_equal.
  rewrite Zminus_mod_idemp_l. f_equal. lia.
Qed.

(** A minimum data event after another one: different, or late enough. *)
Definition spaced (window : Z) (e1 e2 : Event) : Prop :=
  missingDataElements e2 <> missingDataElements e1 \/
  window < u64 (eventGeneratedAt e2 - eventGeneratedAt e1).

Definition content_step (k : kind) (s s' : t) (out : list output) : Prop :=
  (lastContentValidationMessage (get k s') = lastContentValidationMessage (get k s) /\
   forall k', content_events k' out = []) \/
  exists e, lastContentValidationMessage (get k s') = Some e /\ content_events k out = [e] /\
    (forall k', k' <> k -> content_events k' out = []) /\
    forall last, lastContentValidationMessage (get k s) = Some last ->
      spaced (ContentValidationTimeWindow s) last e.

Lemma due_spaced k source id beginMs endMs missing window last :
  due (fun l => compareMissingDataElements missing (missingDataElements l)) endMs window (Some last) = true ->
  spaced window last (content_event k source id beginMs endMs missing).
Proof.
  unfold spaced. cbn [due missingDataElements eventGeneratedAt content_event].
  intros [H|H]%orb_prop.
  - left. apply negb_true_iff, bool_decide_eq_false in H. done.
  - right. rewrite u64_s64. by apply Z.ltb_lt.
Qed.

(** The message gets to the decision to forward it. *)
Definition readable (k : kind) (msg : Input) (s : t) : Prop :=
  Z.land (flags msg) IvpMsgFlags_Validated = 0 /\ schemaPath (get k s) <> "" /\
  is_Some (loadFileContents (schemaPath (get k s))) /\
  exists ids json, decoded msg = Some (ids, Some json).

Definition forward_step (k : kind) (beginMs : Z) (s s' : t) (out : list output) (decided : Prop) : Prop :=
  (BroadcastValidated ∈ out /\ lastBroadcastMessageTime (get k s') = beginMs) \/
  (no_forward out /\ lastBroadcastMessageTime (get k s') = lastBroadcastMessageTime (get k s) /\
   (decided -> u64 (beginMs - lastBroadcastMessageTime (get k s)) <= ContentUnchangedTimeWindow s)).

(** The configuration and the other stream. *)
Record serves (k : kind) (s s' : t) : Prop := {
  serves_other k' : k' <> k -> get k' s' = get k' s;
  serves_path : schemaPath (get k s') = schemaPath (get k s);
  serves_content_window : ContentValidationTimeWindow s' = ContentValidationTimeWindow s;
  serves_unchanged_window : ContentUnchangedTimeWindow s' = ContentUnchangedTimeWindow s }.

Lemma keeps_serves k s s' : keeps k s s' -> serves k s s'.
Proof. by intros [? ? ? ? ?]. Qed.

(** The checks of a message without the decision. *)
Definition checks_step (k : kind) (s s' : t) (out : list output) : Prop :=
  keeps k s s' /\ no_forward out /\ content_step k s s' out.

Lemma other_checks k s s1 s2 o1 o2 :
  other_step k s s1 o1 -> checks_step k s1 s2 o2 -> checks_step k s s2 (o1 ++ o2).
Proof.
  intros [K1 C1 F1 E1] (K2 & F2 & H). split; [by etrans|]. split; [by apply no_forward_app|].
  unfold content_step in *. setoid_rewrite content_events_app. setoid_rewrite E1. cbn.
  rewrite <- C1, <- (keeps_content_window _ _ _ K1). done.
Qed.

Lemma nothing_checks k s : checks_step k s s [].
Proof. split; [done|]. split; [not_forward|]. by left. Qed.

Lemma other_only k s s' out : other_step k s s' out -> checks_step k s s' out.
Proof. intros H. rewrite <- (app_nil_r out). eapply other_checks; [exact H|apply nothing_checks]. Qed.

Lemma validateMessage_step k json id c s s' out r :
  validateMessage k json id c s = Some (s', out, r) ->
  checks_step k s s' out /\
  (is_Some (loadFileContents (schemaPath (get k s))) -> exists r', r = inr r').
Proof.
  unfold validateMessage.
  destruct (Parse (c_str json)) as [doc|]; [|intros [= <- <- <-]; split; [apply nothing_checks|eauto]].
  destruct (loadFileContents _) as [text|];
    [|intros [= <- <- <-]; split; [apply nothing_checks|by intros []]].
  destruct (Parse (c_str text)) as [schemaDoc|];
    [|intros [= <- <- <-]; split; [apply nothing_checks|eauto]].
  intros ([[s1 o1] r1] & H1 & (s2 & o2 & H2 & [= <- <- <-])%bind_prod_Some)%bind_Some.
  split; [|eauto]. apply (other_checks k s s1); [by apply revision_step in H1|].
  apply fields_step in H2 as (K & F & [H|(missing & Hd & Hl & He & Ho)]).
  - split; [done|]. split; [done|]. by left.
  - split; [done|]. split; [done|]. right. eexists. do 3 (split; [done|]).
    intros last El. rewrite El in Hd. by apply due_spaced.
Qed.

Lemma HandleMessage_step k msg c s s' out :
  HandleMessage k msg c s = Some (s', out) ->
  serves k s s' /\ content_step k s s' out /\ forward_step k (atBegin c) s s' out (readable k msg s).
Proof.
  assert (forall s' out, checks_step k s s' out -> ~ readable k msg s ->
    serves k s s' /\ content_step k s s' out /\ forward_step k (atBegin c) s s' out (readable k msg s)) as Hstop.
  { intros s2 o (K & F & C) Hr. split; [by apply keeps_serves|]. split; [done|]. right.
    split; [done|]. split; [apply K|done]. }
  assert (checks_step k s s [Status (name_of k +:+ " Schema Path configured") "No"]) as Hno.
  { apply other_only. split; [done|done|not_forward|done]. }
  unfold HandleMessage, readable in *.
  destruct (negb _) eqn:Ef.
  { intros [= <- <-]. apply Hstop; [apply nothing_checks|]. intros (H & _). by rewrite H in Ef. }
  destruct (String.eqb_spec (schemaPath (get k s)) "").
  { intros [= <- <-]. apply Hstop; [done|]. tauto. }
  destruct (decoded msg) as [[ids json]|];
    [|intros [= <- <-]; apply Hstop; [apply nothing_checks|naive_solver]].
  set (id := match ids with [] => -1 | i :: _ => s32 i end).
  pose proof (measure_step k (atMeasure c) (atRateEvent c) id s) as Hm.
  destruct (measureMessageInterval _ _ _ _ _) as [s1 o1]. cbn [fst snd] in Hm.
  destruct json as [json|];
    [|intros [= <- <-]; apply Hstop; [by apply other_only|naive_solver]].
  intros ([[s2 o2] r] & H2 & H)%bind_Some.
  apply validateMessage_step in H2 as [H2 Hr].
  pose proof (other_checks _ _ _ _ _ _ Hm H2) as Hc.
  rewrite (keeps_path _ _ _ (other_keeps _ _ _ _ Hm)) in Hr.
  destruct r as [e|r].
  { injection H as <- <-. apply Hstop; [done|]. intros (_ & _ & Hl & _). by destruct (Hr Hl). }
  destruct Hc as (K & F & C).
  destruct (forward_due k r (atBegin c) s2) eqn:Ed; injection H as <- <-.
  - split; [|split].
    + apply keeps_serves in K as [A B D E]. split; rewrite ?get_put; try done.
      intros k' Hk. rewrite get_put_ne by done. by apply A.
    + rewrite app_assoc. unfold content_step in *. setoid_rewrite content_events_app.
      rewrite get_put. cbn [content_events omap list_omap]. setoid_rewrite app_nil_r. done.
    + left. rewrite get_put. split; [set_solver|done].
  - split; [by apply keeps_serves|]. split; [done|]. right. split; [done|]. split; [apply K|]. intros _.
    apply orb_false_iff in Ed as [_ Ed]. apply Z.ltb_ge in Ed.
    by rewrite (keeps_forwarded _ _ _ K), (keeps_unchanged_window _ _ _ K) in Ed.
Qed.

(** * A sequence of messages *)
Fixpoint run (ms : list (kind * Input * Clock)) (s : t) : option (t * list (list output)) :=
  match ms with
  | [] => Some (s, [])
  | (k, msg, c) :: ms =>
      '(s, out) ← HandleMessage k msg c s;
      '(s, outs) ← run ms s;
      Some (s, out :: outs)
  end.

Fixpoint chain (window : Z) (last : option Event) (l : list Event) : Prop :=
  match l with
  | [] => True
  | e :: l => (forall p, last = Some p -> spaced window p e) /\ chain window (Some e) l
  end.

Lemma chain_lookup window last l (i : nat) e1 e2 :
  chain window last l -> l !! i = Some e1 -> l !! S i = Some e2 -> spaced window e1 e2.
Proof.
  revert last i. induction l as [|e l IH]; intros last i; [done|]. intros [_ H] H1 H2.
  destruct i as [|i]; cbn in H1, H2; [|by eapply IH].
  injection H1 as ->. destruct l as [|e' l]; [done|]. injection H2 as ->. by apply H.
Qed.

Lemma run_chain k ms s s' outs :
  run ms s = Some (s', outs) ->
  chain (ContentValidationTimeWindow s) (lastContentValidationMessage (get k s))
    (content_events k (concat outs)).
Proof.
  revert s outs. induction ms as [|[[k0 msg] c] ms IH]; intros s outs; cbn [run].
  - by intros [= <- <-].
  - intros (s1 & out & H1 & (s2 & outs' & H2 & [= <- <-])%bind_prod_Some)%bind_prod_Some.
    apply HandleMessage_step in H1 as ([A _ C _] & Hc & _). apply IH in H2. rewrite C in H2.
    cbn [concat]. rewrite content_events_app.
    destruct (decide (k = k0)) as [<-|Hk].
    + destruct Hc as [[E ->]|(e & E & -> & _ & Hs)]; rewrite E in H2; [done|]. by split.
    + rewrite A in H2 by done. destruct Hc as [[_ ->]|(e & _ & _ & -> & _)]; done.
Qed.

(** Duplicate events are throttled: in any sequence of handled messages, two
    successive minimum data events of a message type list different missing
    elements, or are more than the content validation window apart. *)
Theorem content_events_throttled (k : kind) (ms : list (kind * Input * Clock)) (s s' : t)
    (outs : list (list output)) (i : nat) (e1 e2 : Event) :
  run ms s = Some (s', outs) ->
  content_events k (concat outs) !! i = Some e1 ->
  content_events k (concat outs) !! S i = Some e2 ->
  spaced (ContentValidationTimeWindow s) e1 e2.
Proof. intros H. by apply (chain_lookup _ _ _ _ _ _ (run_chain k ms s s' outs H)). Qed.

Definition forwards (o : option (list output)) : Prop := exists out, o = Some out /\ BroadcastValidated ∈ out.

Lemma run_fresh ms s s' outs :
  0 <= ContentUnchangedTimeWindow s -> run ms s = Some (s', outs) ->
  forall (i : nat) k msg c, ms !! i = Some (k, msg, c) -> readable k msg s ->
  exists last,
    (last = lastBroadcastMessageTime (get k s) \/
     exists (j : nat) msg' c', (j <= i)%nat /\ ms !! j = Some (k, msg', c') /\ forwards (outs !! j) /\
       last = atBegin c') /\
    u64 (atBegin c - last) <= ContentUnchangedTimeWindow s.
Proof.
  intros Hw. revert s Hw outs. induction ms as [|[[k0 msg0] c0] ms IH]; intros s Hw outs; cbn [run]; [done|].
  intros (s1 & out & H1 & (s2 & outs' & H2 & [= <- <-])%bind_prod_Some)%bind_prod_Some i k msg c Hi Hr.
  apply HandleMessage_step in H1 as ([A B C D] & _ & Hf).
  destruct i as [|i]; cbn in Hi.
  - injection Hi as -> -> ->. destruct Hf as [[Hin Hl]|(_ & _ & Hd)].
    + exists (atBegin c). split; [|rewrite Z.sub_diag; exact Hw]. right. exists 0%nat, msg, c.
      split; [lia|]. split; [done|]. split; [by exists out|done].
    + exists (lastBroadcastMessageTime (get k s)). split; [by left|by apply Hd].
  - assert (schemaPath (get k s1) = schemaPath (get k s)) as Ep.
    { destruct (decide (k = k0)) as [->|Hk]; [done|by rewrite A]. }
    destruct (IH s1 ltac:(by rewrite D) outs' H2 i k msg c Hi) as (last & Hl & Hu).
    { destruct Hr as (R1 & R2 & R3 & R4). rewrite <- Ep in R2, R3. done. }
    rewrite D in Hu. exists last. split; [|done].
    destruct Hl as [->|(j & msg' & c' & Hj & Hm & Hfw & ->)].
    + destruct (decide (k = k0)) as [->|Hk]; [|left; by rewrite A].
      destruct Hf as [[Hin ->]|(_ & -> & _)]; [|by left].
      right. exists 0%nat, msg0, c0. split; [lia|]. split; [done|]. split; [by exists out|done].
    + right. exists (S j), msg', c'. split; [lia|done].
Qed.

(** Receivers are kept supplied: when a message that can be read is handled, a
    message of its type was forwarded (itself, an earlier one of the sequence, or the
    last one before the sequence) that began at most the unchanged content window
    earlier, however the content repeats. *)
Theorem receivers_refreshed (ms : list (kind * Input * Clock)) (s s' : t) (outs : list (list output))
    (i : nat) (k : kind) (msg : Input) (c : Clock) :
  0 <= ContentUnchangedTimeWindow s -> run ms s = Some (s', outs) ->
  ms !! i = Some (k, msg, c) -> readable k msg s ->
  exists last,
    (last = lastBroadcastMessageTime (get k s) \/
     exists (j : nat) msg' c', (j <= i)%nat /\ ms !! j = Some (k, msg', c') /\ forwards (outs !! j) /\
       last = atBegin c') /\
    u64 (atBegin c - last) <= ContentUnchangedTimeWindow s.
Proof. intros Hw H Hi Hr. exact (run_fresh ms s s' outs Hw H i k msg c Hi Hr). Qed.

(** A message that could not be checked is forwarded with the mark of a checked
    one: when its JSON text or the schema does not parse, the empty result of
    [validateMessage] asks for forwarding, while no check has run and no counter and
    no stored state of the checks has moved. *)
Theorem unchecked_marked_validated (k : kind) (msg : Input) (c : Clock) (s : t) (ids : list Z)
    (json text : string) :
  Z.land (flags msg) IvpMsgFlags_Validated = 0 -> schemaPath (get k s) <> "" ->
  decoded msg = Some (ids, Some json) ->
  loadFileContents (schemaPath (get k s)) = Some text ->
  Parse (c_str json) = None \/ Parse (c_str text) = None ->
  exists s' out, HandleMessage k msg c s = Some (s', out ++ [BroadcastValidated]) /\
    revisionValidator s' = revisionValidator s /\
    validationPassed (get k s') = validationPassed (get k s) /\
    fieldValidationErrors (get k s') = fieldValidationErrors (get k s) /\
    revisionPassed (get k s') = revisionPassed (get k s) /\
    revisionFailed (get k s') = revisionFailed (get k s).
Proof.
  intros Hf Hp Hd Hl Hparse. unfold HandleMessage. rewrite Hf. cbn [Z.eqb negb].
  destruct (String.eqb_spec (schemaPath (get k s)) ""); [done|]. rewrite Hd.
  pose proof (measure_step k (atMeasure c) (atRateEvent c)
    (match ids with [] => -1 | i :: _ => s32 i end) s) as [K _ _ _].
  assert (forall s1, revisionValidator (put k s1 s) = revisionValidator s) as Hrv by (by destruct k).
  unfold measureMessageInterval in *.
  destruct (Interval.recordMessage _ _ _ _) as [v r].
  assert (forall out, validateMessage k json (match ids with [] => -1 | i :: _ => s32 i end) c
    (put k (set_interval v (get k s)) s) = out ->
    out = Some (put k (set_interval v (get k s)) s, [], inr Revision.result0)) as Hv.
  { intros ? <-; unfold validateMessage. rewrite get_put. cbn [schemaPath set_interval]. rewrite Hl.
    destruct Hparse as [E|E]; rewrite E; [done|]. by destruct (Parse (c_str json)). }
  destruct r as [e|w]; rewrite (Hv _ eq_refl); cbn [mbind option_bind];
    (unfold forward_due; cbn [Revision.planForwarding Revision.result0 Revision.comparisonPerformed orb];
     eexists _, _; split; [rewrite app_nil_l; reflexivity|]; rewrite !get_put; done).
Qed.
End plugin.

(** * Samples *)
Definition sample_schema : Value := Object [("required", Array [Str "name"])].
Definition sample_RapidJSON : RapidJSON := {|
  Parse text :=
    if String.eqb text "schema" then Some sample_schema
    else if String.eqb text "first" then Some (Revision.sample_spat 9001 1 "red" 1)
    else if String.eqb text "second" then Some (Revision.sample_spat 9001 2 "green" 2)
    else None;
  Write := @Write Revision.sample_RapidJSON;
  PointerGet _ _ := None; Validate _ _ := Some (Some "required", "#", "#");
  RemoveMember := @RemoveMember Revision.sample_RapidJSON |}.
Definition sample_files (path : string) : option string :=
  if String.eqb path "spat.schema.json" then Some "schema" else None.
Definition sample_text (e : Event) : string := eventType e.
Definition sample_stream : stream :=
  mkStream (Interval.validator 125) "spat.schema.json" 0 0 0 0 0 None None.
Definition sample_plugin : t :=
  mkPlugin sample_stream sample_stream "10.0.0.1" 60000 60000 60000 Revision.validator.
Definition sample_clock (ms : Z) : Clock := mkClock ms ms ms ms ms ms.
Definition sample_input (text : string) : Input := mkInput 0 (Some ([9001], Some text)).
Definition sample_messages : list (kind * Input * Clock) :=
  [(SPaT, sample_input "first", sample_clock 1000); (SPaT, sample_input "second", sample_clock 2000);
   (SPaT, sample_input "first", sample_clock 90000)].
Definition sample_run : option (t * list (list output)) :=
  @run sample_RapidJSON sample_files sample_text sample_messages sample_plugin.
Definition sample_outs : list (list output) :=
  match sample_run with Some (_, outs) => outs | None => [] end.
Definition sample_after : t := match sample_run with Some (s, _) => s | None => sample_plugin end.
Definition sample_missing : list string := ["$.name is missing (#/properties/name)"].
Definition sample_event (ms : Z) : Event :=
  content_event SPaT "10.0.0.1" 9001 ms ms sample_missing.

Lemma sample_run_ok : sample_run = Some (sample_after, sample_outs).
Proof. vm_compute. reflexivity. Qed.

Lemma content_events_throttled_witness :
  content_events SPaT (concat sample_outs) = [sample_event 1000; sample_event 90000] /\
  spaced 60000 (sample_event 1000) (sample_event 90000).
Proof.
  split; [vm_compute; reflexivity|].
  apply (@content_events_throttled sample_RapidJSON sample_files sample_text SPaT sample_messages
    sample_plugin sample_after sample_outs 0);
    [exact sample_run_ok|vm_compute; reflexivity|vm_compute; reflexivity].
Defined.

Lemma receivers_refreshed_witness :
  exists last,
    (last = 0 \/
     exists (j : nat) msg' c', (j <= 2)%nat /\ sample_messages !! j = Some (SPaT, msg', c') /\
       forwards (sample_outs !! j) /\ last = atBegin c') /\
    u64 (90000 - last) <= 60000.
Proof.
  apply (@receivers_refreshed sample_RapidJSON sample_files sample_text sample_messages
    sample_plugin sample_after sample_outs 2 SPaT (sample_input "first") (sample_clock 90000)).
  - cbn. lia.
  - exact sample_run_ok.
  - reflexivity.
  - split; [reflexivity|]. split; [done|]. split; [by exists "schema"|]. by exists [9001], "first".
Defined.

Lemma unchecked_marked_validated_witness :
  exists s' out,
    @HandleMessage sample_RapidJSON sample_files sample_text SPaT (sample_input "garbled")
      (sample_clock 1000) sample_plugin = Some (s', out ++ [BroadcastValidated]) /\
    revisionValidator s' = revisionValidator sample_plugin /\
    validationPassed (get SPaT s') = 0 /\ fieldValidationErrors (get SPaT s') = 0 /\
    revisionPassed (get SPaT s') = 0 /\ revisionFailed (get SPaT s') = 0.
Proof.
  apply (@unchecked_marked_validated sample_RapidJSON sample_files sample_text SPaT
    (sample_input "garbled") (sample_clock 1000) sample_plugin [9001] "garbled" "schema");
    [reflexivity|done|reflexivity|reflexivity|by left].
Defined.
End Intersection.
