(* ===== verification/Threads.v ===== *)
(** The worker threads of a message manager,
    [src/src/tmx/TmxUtils/src/LockFreeThread.h], [ThreadGroup.h] and
    [TmxMessageManager.cpp]: the queues of a worker, the assignment of sources to
    workers, and the manager as a transition system of the thread that takes
    messages in, the workers and the output thread. The decoding of messages and
    the handlers of the plugin are interfaces. *)
From Stdlib Require Import Ascii.
From S2P Require Import Prelude Text.
Open Scope Z_scope.

(** What a worker makes of a message, and what the plugin's handler does with
    it: the messages it gives to [OutgoingMessage]. *)
Class MessageHandler (I R : Type) := {
  NewMessage : list Z -> option R;
  bytes_message : list Z -> option string -> R;
  json_message : list Z -> string -> R;
  string_message : list Z -> string -> R;
  ivp_message : I -> R;
  set_timestamp : Z -> R -> R;
  handle_message : R -> list R
}.

Module Threads.
(** * A worker *)
Definition source : Type := Z * Z.
Inductive RawMessage (I : Type) :=
| type_RawBytes (bytes : list Z) (encoding : option string)
| type_IvpMessage (msg : I).
Arguments type_RawBytes {I}.
Arguments type_IvpMessage {I}.

Record rawIncomingMessage (I : Type) := mkIn {
  in_source : source; in_timestamp : Z; in_message : RawMessage I }.
Arguments mkIn {I}.
Arguments in_source {I}.
Arguments in_timestamp {I}.
Arguments in_message {I}.
Record rawOutgoingMessage (R : Type) := mkOut { out_source : source; out_msg : option R }.
Arguments mkOut {R}.
Arguments out_source {R}.
Arguments out_msg {R}.

(** [started] counts the threads of the operating system that run [process] on
    the queues; [working] is the message in [doWork]. *)
Record LockFreeThread (I R : Type) := mkThread {
  started : nat;
  inQ : list (rawIncomingMessage I);
  working : option (rawIncomingMessage I);
  outQ : list (rawOutgoingMessage R) }.
Arguments mkThread {I R}.
Arguments started {I R}.
Arguments inQ {I R}.
Arguments working {I R}.
Arguments outQ {I R}.

(** The capacity of the lock-free queues. *)
Definition capacity : Z := 20480.

Section worker.
Context {I R : Type}.
Implicit Types th : LockFreeThread I R.

Definition new_thread : LockFreeThread I R := mkThread 0 [] None [].
Definition start th : LockFreeThread I R := mkThread (S (started th)) (inQ th) (working th) (outQ th).
(** A message that does not fit is lost; the caller does not look at the result. *)
Definition push (m : rawIncomingMessage I) th : LockFreeThread I R :=
  if Z.of_nat (length (inQ th)) <? capacity
  then mkThread (started th) (inQ th ++ [m]) (working th) (outQ th) else th.
Definition push_out (o : rawOutgoingMessage R) th : LockFreeThread I R :=
  if Z.of_nat (length (outQ th)) <? capacity
  then mkThread (started th) (inQ th) (working th) (outQ th ++ [o]) else th.
Definition pop th : option (rawOutgoingMessage R) * LockFreeThread I R :=
  match outQ th with
  | [] => (None, th)
  | o :: q => (Some o, mkThread (started th) (inQ th) (working th) q)
  end.
(** The size is decremented after [doWork], so it counts the message at work. *)
Definition inQueueSize th : Z :=
  Z.of_nat (length (inQ th) + match working th with Some _ => 1 | None => 0 end).
Definition outQueueSize th : Z := Z.of_nat (length (outQ th)).

(** The first half of a round of [process]. *)
Definition take_item th : option (LockFreeThread I R) :=
  match working th, inQ th with
  | None, m :: q => Some (mkThread (started th) q (Some m) (outQ th))
  | _, _ => None
  end.
Definition finish th : LockFreeThread I R := mkThread (started th) (inQ th) None (outQ th).

(** * Work on a message *)
Definition hexstring : string := "hexstring".
Fixpoint prefix_of (p s : string) : bool :=
  match p, s with
  | EmptyString, _ => true
  | String a p, String b s => Ascii.eqb a b && prefix_of p s
  | _, _ => false
  end.
(** [std::string::find], with [npos] for nothing found. *)
Fixpoint find_from (p s : string) (i : Z) : Z :=
  if prefix_of p s then i
  else match s with
       | EmptyString => 2 ^ 64 - 1
       | String _ s => find_from p s (i + 1)
       end.
Definition IsByteHexEncoded (encoding : option string) : bool :=
  match encoding with
  | None => false
  | Some enc =>
      find_from hexstring enc 0
      =? u64 (Z.of_nat (String.length enc) - Z.of_nat (String.length hexstring))
  end.

Context {MH : MessageHandler I R}.
Definition routeable_of (m : RawMessage I) : R :=
  match m with
  | type_RawBytes bytes encoding =>
      if IsByteHexEncoded encoding then
        match NewMessage bytes with
        | Some r => r
        | None => bytes_message bytes encoding
        end
      else
        let enc := default "string" encoding in
        if prefix_of "json" enc then json_message bytes enc else string_message bytes enc
  | type_IvpMessage msg => ivp_message msg
  end.

(** The end of [doWork]: the handler runs, its messages are queued under no
    source, then the source's own entry for the clean-up. *)
Definition work_outputs (m : rawIncomingMessage I) : list (rawOutgoingMessage R) :=
  let r := routeable_of (in_message m) in
  let r := if 0 <? in_timestamp m then set_timestamp (in_timestamp m) r else r in
  map (fun o => mkOut (0, 0) (Some o)) (handle_message r) ++ [mkOut (in_source m) None].
Definition overflowing (overflow : Z) th : bool :=
  (0 <? overflow) && (overflow <? inQueueSize th).
Definition doWork (overflow : Z) (m : rawIncomingMessage I) th : LockFreeThread I R :=
  if overflowing overflow th then th
  else fold_left (fun th o => push_out o th) (work_outputs m) th.
End worker.

(** * A group of workers *)

(** [strategy_END] is only the number of strategies. *)
Inductive Strategy := strategy_RoundRobin | strategy_Random | strategy_ShortestQueue.

(** The assignment of a source: the count of its messages, a 64-bit number, and
    the worker, -1 for none. *)
Record ThreadGroup (I R : Type) := mkGroup {
  threads : list (LockFreeThread I R);
  assignments : gmap source (Z * Z);
  next : Z;
  strategy : Strategy }.
Arguments mkGroup {I R}.
Arguments threads {I R}.
Arguments assignments {I R}.
Arguments next {I R}.
Arguments strategy {I R}.

Section group.
Context {I R : Type}.
Implicit Types g : ThreadGroup I R.

Definition group_new : ThreadGroup I R := mkGroup [] ∅ 0 strategy_RoundRobin.
Definition assignment g (s : source) : Z * Z := default (0, -1) (assignments g !! s).
Definition count_of g s : Z := fst (assignment g s).
Definition thread_of g s : Z := snd (assignment g s).
Definition set_threads (ts : list (LockFreeThread I R)) g : ThreadGroup I R :=
  mkGroup ts (assignments g) (next g) (strategy g).
Definition set_count (s : source) (n : Z) g : ThreadGroup I R :=
  mkGroup (threads g) (<[s := (n, thread_of g s)]> (assignments g)) (next g) (strategy g).
Definition set_thread (s : source) (t : Z) g : ThreadGroup I R :=
  mkGroup (threads g) (<[s := (count_of g s, t)]> (assignments g)) (next g) (strategy g).

(** The loop of [set_size]: [i] is its counter. *)
Fixpoint grow (k i : nat) (ts : list (LockFreeThread I R)) : list (LockFreeThread I R) :=
  match k with
  | O => ts
  | S k => grow k (S i) (alter start i (ts ++ [new_thread]))
  end.
Definition set_size (size : nat) g : ThreadGroup I R :=
  set_threads (grow (size - length (threads g)) 0 (threads g)) g.

(** The first worker with the shortest queue. *)
Fixpoint shortest (i : nat) (best : nat) (bestSize : Z) (ts : list (LockFreeThread I R)) : nat :=
  match ts with
  | [] => best
  | th :: ts =>
      if inQueueSize th <? bestSize then shortest (S i) i (inQueueSize th) ts
      else shortest (S i) best bestSize ts
  end.
(** The worker the strategy chooses, and the next one of the round; [rnd] is
    what the distribution yields. *)
Definition choose (rnd : nat) g : nat * Z :=
  match strategy g with
  | strategy_Random => (rnd, next g)
  | strategy_ShortestQueue =>
      (match threads g with th :: ts => shortest 1 0 (inQueueSize th) ts | [] => 0%nat end, next g)
  | strategy_RoundRobin =>
      let n := u32 (next g + 1) in
      (Z.to_nat (next g), if Z.of_nat (length (threads g)) <=? n then 0 else n)
  end.
Definition ignore_assignment (s : source) : bool := (fst s =? 0) && (snd s =? 0).
Definition needs_choice (s : source) (tId : Z) : bool := (tId <? 0) || ignore_assignment s.

(** The steps of [assign] on the shared data, and [assign] without anything in
    between. *)
Definition assign_count (s : source) g : ThreadGroup I R := set_count s (u64 (count_of g s + 1)) g.
Definition assign_choose (rnd : nat) (s : source) g : nat * ThreadGroup I R :=
  let '(t, n) := choose rnd g in
  (t, set_thread s (Z.of_nat t) (mkGroup (threads g) (assignments g) n (strategy g))).
Definition assign_push (t : nat) (m : rawIncomingMessage I) g : ThreadGroup I R :=
  set_threads (alter (push m) t (threads g)) g.
Definition assign (rnd : nat) (m : rawIncomingMessage I) g : ThreadGroup I R :=
  match threads g with
  | [] => g
  | _ =>
      let s := in_source m in
      let g := assign_count s g in
      let tId := thread_of g s in
      let '(t, g) := if needs_choice s tId then assign_choose rnd s g else (Z.to_nat tId, g) in
      assign_push t m g
  end.

(** The two steps of [unassign]: the decrement, with its result, and the reset. *)
Definition unassign_count (s : source) g : Z * ThreadGroup I R :=
  let n := u64 (count_of g s - 1) in (n, set_count s n g).
Definition unassign (s : source) g : ThreadGroup I R :=
  let '(n, g) := unassign_count s g in
  if n =? 0 then set_thread s (-1) g else g.

(** [stop] takes the workers away and leaves the assignments. *)
Definition stop g : ThreadGroup I R := set_threads [] g.

(** ** Strategies by name *)
(** The vector of names is constructed with [strategy_END] empty strings, so
    that [empty()] is false and the names are not filled in. *)
Definition allStrategies : list string :=
  let constructed := replicate 3 "" in
  match constructed with
  | [] => ["RoundRobin"; "Random"; "ShortestQueue"]
  | _ => constructed
  end.
Definition strategy_number (i : nat) : Strategy :=
  match i with 0%nat => strategy_RoundRobin | 1%nat => strategy_Random | _ => strategy_ShortestQueue end.
Fixpoint find_strategy (i : nat) (names : list string) (str : string) : option Strategy :=
  match names with
  | [] => None
  | name :: names => if iequals name str then Some (strategy_number i) else find_strategy (S i) names str
  end.
Definition get_strategy g (str : string) : Strategy :=
  default (strategy g) (find_strategy 0 allStrategies str).
Definition set_strategy (str : string) g : ThreadGroup I R :=
  mkGroup (threads g) (assignments g) (next g) (get_strategy g str).

(** ** The size of a group *)
Definition started_at (j : nat) (ts : list (LockFreeThread I R)) : nat :=
  match ts !! j with Some th => started th | None => 0 end.

Lemma length_grow k : forall i ts, length (grow k i ts) = (length ts + k)%nat.
Proof.
  induction k as [|k IH]; intros i ts; cbn [grow]; [lia|].
  rewrite IH, length_alter, length_app. cbn. lia.
Qed.

Lemma grow_started k : forall i ts j, (i <= length ts)%nat ->
  started_at j (grow k i ts) = (started_at j ts + if Nat.leb i j && Nat.ltb j (i + k) then 1 else 0)%nat.
Proof.
  induction k as [|k IH]; intros i ts j Hi; cbn [grow].
  { destruct (Nat.leb_spec i j), (Nat.ltb_spec j (i + 0)); cbn; lia. }
  rewrite IH by (rewrite length_alter, length_app; cbn; lia).
  assert (started_at j (alter start i (ts ++ [new_thread]))
          = started_at j ts + if Nat.eqb i j then 1 else 0)%nat as ->.
  { unfold started_at. destruct (Nat.eqb_spec i j) as [<-|Hj].
    - rewrite list_lookup_alter_eq. destruct (decide (i < length ts)%nat).
      + rewrite lookup_app_l by done. destruct (lookup_lt_is_Some_2 ts i) as [th Hth]; [done|].
        rewrite Hth. cbn. lia.
      + replace i with (length ts) by lia. rewrite lookup_app_r, Nat.sub_diag by lia.
        by rewrite (lookup_ge_None_2 ts (length ts)) by lia.
    - rewrite list_lookup_alter_ne by done. destruct (decide (j < length ts)%nat).
      + rewrite lookup_app_l by done. lia.
      + rewrite lookup_app_r by lia. rewrite (lookup_ge_None_2 ts j) by lia.
        destruct (j - length ts)%nat as [|d]; [done|]. rewrite lookup_cons, lookup_nil. done. }
  destruct (Nat.eqb_spec i j), (Nat.leb_spec (S i) j), (Nat.leb_spec i j), (Nat.ltb_spec j (S i + k)),
    (Nat.ltb_spec j (i + S k)); cbn; lia.
Qed.

Lemma set_size_started g n j :
  started_at j (threads (set_size n g))
  = (started_at j (threads g) + if Nat.ltb j (n - length (threads g)) then 1 else 0)%nat.
Proof. unfold set_size. cbn [threads set_threads]. by rewrite grow_started by lia. Qed.

(** The first growth of a group starts every worker once; any later growth
    starts workers from the beginning of the group again, as many as are added,
    instead of those that are added: when fewer are added than there are, none
    of the new ones runs and the old ones run twice on queues for one reader. *)
Theorem growth_starts_first_workers m n j :
  (m <= n)%nat ->
  let first := set_size m group_new in
  let g := set_size n first in
  length (threads g) = n
  /\ started_at j (threads first) = (if Nat.ltb j m then 1 else 0)%nat
  /\ started_at j (threads g)
     = ((if Nat.ltb j m then 1 else 0) + (if Nat.ltb j (n - m) then 1 else 0))%nat.
Proof.
  intros Hmn first g.
  assert (length (threads first) = m) as Hl by (cbn; rewrite length_grow; cbn; lia).
  assert (forall j, started_at j (threads first) = if Nat.ltb j m then 1 else 0)%nat as Hf.
  { intros k. subst first. rewrite set_size_started. cbn. by rewrite Nat.sub_0_r. }
  split_all; [|done|].
  - subst g. unfold set_size at 1. cbn [threads set_threads]. rewrite length_grow, Hl. lia.
  - subst g. by rewrite set_size_started, Hf, Hl.
Qed.

(** A strategy is never found under its name: every name that is not empty
    leaves the strategy as it is, and the empty name selects the round robin. *)
Theorem strategy_names_unknown g str :
  get_strategy g str = (if String.eqb str "" then strategy_RoundRobin else strategy g).
Proof. by destruct str. Qed.
End group.

(** * The manager as a transition system

    One thread takes messages in ([IncomingMessage], which is [assign] step by
    step), the workers run, and the output thread broadcasts and unassigns. The
    workers are started once each; the size of the group does not change. *)
Inductive assign_pc (I : Type) :=
| a_idle
| a_read (m : rawIncomingMessage I)
| a_choose (m : rawIncomingMessage I)
| a_push (m : rawIncomingMessage I) (t : nat).
Arguments a_idle {I}.
Arguments a_read {I}.
Arguments a_choose {I}.
Arguments a_push {I}.
Inductive output_pc := o_idle | o_dec (s : source) | o_clear (s : source).

(** The last three fields are what was taken in, handled and broadcast so far. *)
Record Manager (I R : Type) := mkManager {
  workers : ThreadGroup I R;
  apc : assign_pc I;
  opc : output_pc;
  submitted : list (rawIncomingMessage I);
  handled : list (rawIncomingMessage I);
  sent : list R }.
Arguments mkManager {I R}.
Arguments workers {I R}.
Arguments apc {I R}.
Arguments opc {I R}.
Arguments submitted {I R}.
Arguments handled {I R}.
Arguments sent {I R}.

Section manager.
Context {I R : Type} {MH : MessageHandler I R}.
Implicit Types st : Manager I R.
Implicit Types g : ThreadGroup I R.

Definition set_worker (i : nat) (th : LockFreeThread I R) (g : ThreadGroup I R) : ThreadGroup I R :=
  set_threads (<[i := th]> (threads g)) g.

Inductive step : Manager I R -> Manager I R -> Prop :=
| m_submit m g o sub h b :
    threads g <> [] ->
    step (mkManager g a_idle o sub h b)
         (mkManager (assign_count (in_source m) g) (a_read m) o (sub ++ [m]) h b)
| m_read m g o sub h b :
    step (mkManager g (a_read m) o sub h b)
         (mkManager g
            (let tId := thread_of g (in_source m) in
             if needs_choice (in_source m) tId then a_choose m else a_push m (Z.to_nat tId)) o sub h b)
| m_choose m rnd t g g' o sub h b :
    assign_choose rnd (in_source m) g = (t, g') -> (t < length (threads g))%nat ->
    step (mkManager g (a_choose m) o sub h b) (mkManager g' (a_push m t) o sub h b)
| m_push m t g o sub h b :
    step (mkManager g (a_push m t) o sub h b) (mkManager (assign_push t m g) a_idle o sub h b)
| m_take i th th' g a o sub h b :
    threads g !! i = Some th -> take_item th = Some th' ->
    step (mkManager g a o sub h b) (mkManager (set_worker i th' g) a o sub h b)
| m_work i th m overflow g a o sub h b :
    threads g !! i = Some th -> working th = Some m ->
    step (mkManager g a o sub h b)
         (mkManager (set_worker i (finish (doWork overflow m th)) g) a o sub
            (if overflowing overflow th then h else h ++ [m]) b)
| m_outgoing i th r g a o sub h b :
    threads g !! i = Some th ->
    step (mkManager g a o sub h b) (mkManager (set_worker i (push_out (mkOut (0, 0) (Some r)) th) g) a o sub h b)
| m_pop i th th' out g a sub h b :
    threads g !! i = Some th -> pop th = (Some out, th') ->
    step (mkManager g a o_idle sub h b)
         (mkManager (set_worker i th' g) a (o_dec (out_source out)) sub h (b ++ option_list (out_msg out)))
| m_strategy str g a o sub h b :
    step (mkManager g a o sub h b) (mkManager (set_strategy str g) a o sub h b).

(** All steps: [unassign] decrements the count and clears the assignment in two. *)
Inductive fine_step : Manager I R -> Manager I R -> Prop :=
| fi_step st st' : step st st' -> fine_step st st'
| fi_count s n g g' a sub h b :
    unassign_count s g = (n, g') ->
    fine_step (mkManager g a (o_dec s) sub h b)
              (mkManager g' a (if n =? 0 then o_clear s else o_idle) sub h b)
| fi_clear s g a sub h b :
    fine_step (mkManager g a (o_clear s) sub h b) (mkManager (set_thread s (-1) g) a o_idle sub h b).

(** A step with which no message of a source comes in while its assignment is about to
    be cleared. *)
Definition of_source (s : source) (l : list (rawIncomingMessage I)) : list (rawIncomingMessage I) :=
  filter (fun m => in_source m = s) l.
Definition quiet_step (s : source) st st' : Prop :=
  fine_step st st' /\ (opc st = o_clear s -> of_source s (submitted st') = of_source s (submitted st)).

(** With nothing in between they are [unassign]. *)
Lemma unassign_steps s g a sub h b :
  rtc fine_step (mkManager g a (o_dec s) sub h b) (mkManager (unassign s g) a o_idle sub h b).
Proof.
  unfold unassign. destruct (unassign_count s g) as [n g'] eqn:E. eapply rtc_l; [by eapply fi_count|].
  destruct (n =? 0); [|done]. apply rtc_once, fi_clear.
Qed.

(** A group of workers, each started once, and nothing done yet. *)
Definition manager_new (n : nat) (st : Strategy) : Manager I R :=
  mkManager (mkGroup (threads (set_size n group_new)) ∅ 0 st) a_idle o_idle [] [] [].

(** * The order of messages *)
Definition pending (th : LockFreeThread I R) : list (rawIncomingMessage I) :=
  option_list (working th) ++ inQ th.
Definition cleanups (s : source) (th : LockFreeThread I R) : list (rawOutgoingMessage R) :=
  filter (fun o => out_source o = s) (outQ th).
Definition load (s : source) (th : LockFreeThread I R) : nat :=
  (length (of_source s (pending th)) + length (cleanups s th))%nat.
Definition apc_items (a : assign_pc I) : list (rawIncomingMessage I) :=
  match a with a_idle => [] | a_read m | a_choose m | a_push m _ => [m] end.
Definition opc_load (s : source) (o : output_pc) : nat :=
  match o with o_dec s' => if bool_decide (s' = s) then 1 else 0 | _ => 0 end%nat.
Definition inflight (s : source) st : nat :=
  (sum_list_with (load s) (threads (workers st)) + length (of_source s (apc_items (apc st)))
   + opc_load s (opc st))%nat.

(** What holds of a source other than none: the count covers what is under way,
    its messages are with the worker it is assigned to, and what is handled,
    pending with a worker and about to be pushed is in the order of arrival. *)
Record source_ok (s : source) st : Prop := {
  ok_count : Z.of_nat (inflight s st) <= count_of (workers st) s
             <= Z.of_nat (length (of_source s (submitted st)));
  ok_place : forall i th m, threads (workers st) !! i = Some th -> m ∈ pending th -> in_source m = s ->
             thread_of (workers st) s = Z.of_nat i;
  ok_pc : match apc st with
          | a_choose m => in_source m = s -> thread_of (workers st) s < 0
          | a_push m t => in_source m = s -> thread_of (workers st) s = Z.of_nat t
          | _ => True
          end;
  ok_order : forall i th, threads (workers st) !! i = Some th ->
             sublist (of_source s (handled st) ++ of_source s (pending th) ++ of_source s (apc_items (apc st)))
                     (of_source s (submitted st));
  ok_order0 : sublist (of_source s (handled st) ++ of_source s (apc_items (apc st)))
                      (of_source s (submitted st)) }.

Lemma sum_insert {A} (f : A -> nat) l (i : nat) x y :
  l !! i = Some x -> (sum_list_with f (<[i := y]> l) + f x = sum_list_with f l + f y)%nat.
Proof.
  intros Hi. destruct (list_elem_of_split_length l i x Hi) as (l1 & l2 & -> & ->).
  rewrite insert_app_r_alt by lia. rewrite Nat.sub_diag, !sum_list_with_app. cbn. lia.
Qed.

Lemma sum_le {A} (f : A -> nat) l (i : nat) x : l !! i = Some x -> (f x <= sum_list_with f l)%nat.
Proof. intros Hi. apply sum_list_with_in. by eapply list_elem_of_lookup_2. Qed.

Lemma assignment_insert g s a s' :
  default (0, -1) (<[s := a]> (assignments g) !! s') = if bool_decide (s = s') then a else assignment g s'.
Proof. case_bool_decide as E; [subst; by rewrite lookup_insert_eq|]. by rewrite lookup_insert_ne. Qed.

Lemma count_set_count s n g s' : count_of (set_count s n g) s' = if bool_decide (s = s') then n else count_of g s'.
Proof. unfold count_of, assignment, set_count. cbn. rewrite assignment_insert. by case_bool_decide. Qed.
Lemma thread_set_count s n g s' : thread_of (set_count s n g) s' = thread_of g s'.
Proof.
  unfold thread_of at 1, assignment, set_count. cbn. rewrite assignment_insert.
  case_bool_decide as E; [by subst|done].
Qed.
Lemma count_set_thread s t g s' : count_of (set_thread s t g) s' = count_of g s'.
Proof.
  unfold count_of at 1, assignment, set_thread. cbn. rewrite assignment_insert.
  case_bool_decide as E; [by subst|done].
Qed.
Lemma thread_set_thread s t g s' : thread_of (set_thread s t g) s' = if bool_decide (s = s') then t else thread_of g s'.
Proof. unfold thread_of, assignment, set_thread. cbn. rewrite assignment_insert. by case_bool_decide. Qed.

Lemma of_source_app s l k : of_source s (l ++ k) = of_source s l ++ of_source s k.
Proof. apply filter_app. Qed.
Lemma of_source_one s m : of_source s [m] = if bool_decide (in_source m = s) then [m] else [].
Proof. unfold of_source. rewrite filter_cons, filter_nil. by repeat case_decide || case_bool_decide. Qed.
Lemma of_source_empty s l : (forall m, m ∈ l -> in_source m = s -> False) -> of_source s l = [].
Proof.
  intros H. unfold of_source. induction l as [|m l IH]; [done|]. rewrite filter_cons, decide_False by (intros E; apply (H m); [by left|done]).
  apply IH. intros m' Hm'. apply H. by right.
Qed.

Section preservation.
Context (s : source) (Hs : s <> (0, 0)).

(** A worker that loses messages from its front, or moves one to the handled
    ones, and does not gain more for the output thread than it lost. *)
Lemma source_ok_worker st i th th' o' h' b' :
  threads (workers st) !! i = Some th ->
  (forall m, m ∈ pending th' -> m ∈ pending th) ->
  (load s th' + opc_load s o' <= load s th + opc_load s (opc st))%nat ->
  sublist (of_source s h' ++ of_source s (pending th')) (of_source s (handled st) ++ of_source s (pending th)) ->
  (of_source s h' = of_source s (handled st) \/ exists m, m ∈ pending th /\ in_source m = s) ->
  source_ok s st ->
  source_ok s (mkManager (set_worker i th' (workers st)) (apc st) o' (submitted st) h' b').
Proof.
  intros Hi Hin Hload Hsub Hh [Hc Hp Hpc Ho Ho0].
  assert (forall x, sublist (of_source s h' ++ of_source s (pending th') ++ x)
                            (of_source s (handled st) ++ of_source s (pending th) ++ x)) as Hsub'.
  { intros x. rewrite !(app_assoc (of_source _ _)). by apply sublist_app. }
  assert (i < length (threads (workers st)))%nat as Hlt by by eapply lookup_lt_Some.
  split; cbn [workers apc opc submitted handled threads set_worker set_threads].
  - unfold inflight in *. cbn [workers apc opc threads set_worker set_threads].
    pose proof (sum_insert (load s) _ i th th' Hi).
    change (count_of (set_worker i th' (workers st)) s) with (count_of (workers st) s). lia.
  - intros j thj m Hj Hm Hms. change (thread_of (set_worker i th' (workers st)) s) with (thread_of (workers st) s).
    destruct (decide (i = j)) as [<-|Hne].
    + rewrite list_lookup_insert_eq in Hj by done. injection Hj as <-. eapply Hp; eauto.
    + rewrite list_lookup_insert_ne in Hj by done. eauto.
  - exact Hpc.
  - intros j thj Hj. destruct (decide (i = j)) as [<-|Hne].
    + rewrite list_lookup_insert_eq in Hj by done. injection Hj as <-. etrans; [apply Hsub'|by apply (Ho i)].
    + rewrite list_lookup_insert_ne in Hj by done. destruct Hh as [->|(m & Hm & Hms)]; [by apply (Ho j)|].
      rewrite (of_source_empty s (pending thj)).
      * cbn. etrans; [|apply (Ho i th Hi)]. etrans; [|apply Hsub']. apply sublist_app; [done|].
        by apply sublist_inserts_l.
      * intros m' Hm' Hms'. pose proof (Hp _ _ _ Hi Hm Hms). pose proof (Hp _ _ _ Hj Hm' Hms'). lia.
  - destruct Hh as [->|_]; [done|]. etrans; [|apply (Ho i th Hi)]. etrans; [|apply Hsub'].
    apply sublist_app; [done|]. by apply sublist_inserts_l.
Qed.

Lemma pending_push_out o th : pending (push_out o th) = pending th.
Proof. unfold push_out. by destruct (_ <? _). Qed.
Lemma cleanups_push_out o th :
  (length (cleanups s (push_out o th)) <= length (cleanups s th) + if bool_decide (out_source o = s) then 1 else 0)%nat.
Proof.
  unfold push_out, cleanups. destruct (_ <? _); [|case_bool_decide; lia]. cbn [outQ].
  rewrite filter_app, filter_cons, filter_nil, length_app. case_bool_decide; case_decide; cbn; try done; lia.
Qed.

Lemma pushes_out (l : list (rawOutgoingMessage R)) : forall th,
  pending (fold_left (fun th o => push_out o th) l th) = pending th
  /\ (length (cleanups s (fold_left (fun th o => push_out o th) l th))
      <= length (cleanups s th) + length (filter (fun o => out_source o = s) l))%nat.
Proof.
  induction l as [|o l IH]; intros th; cbn [fold_left]; [by split; [|lia]|].
  destruct (IH (push_out o th)) as [-> Hc]. rewrite pending_push_out. split; [done|].
  pose proof (cleanups_push_out o th). rewrite filter_cons. case_bool_decide; case_decide; cbn; try done; lia.
Qed.

Lemma work_outputs_source m :
  length (filter (fun o => out_source o = s) (work_outputs m)) = if bool_decide (in_source m = s) then 1%nat else 0%nat.
Proof.
  unfold work_outputs. rewrite filter_app, length_app.
  assert (forall l : list R, filter (fun o => out_source o = s) (map (fun o => mkOut (0, 0) (Some o)) l) = []) as ->.
  { induction l as [|r l IH]; [done|]. cbn [map]. rewrite filter_cons, decide_False; [done|]. cbn. congruence. }
  rewrite filter_cons, filter_nil. cbn [out_source]. by case_bool_decide; case_decide.
Qed.

Lemma source_ok_submit m g o sub h b :
  Z.of_nat (length (sub ++ [m])) < 2 ^ 64 ->
  source_ok s (mkManager g a_idle o sub h b) ->
  source_ok s (mkManager (assign_count (in_source m) g) (a_read m) o (sub ++ [m]) h b).
Proof.
  intros Hb [Hc Hp _ Ho Ho0]. cbn [workers apc opc submitted handled apc_items] in *.
  assert (length (of_source s sub) <= length sub)%nat by apply length_filter.
  rewrite length_app in Hb. cbn [length] in Hb.
  split; cbn [workers apc opc submitted handled apc_items]; unfold inflight, assign_count in *;
    cbn [workers apc opc apc_items threads set_count] in *.
  - rewrite count_set_count, of_source_app, length_app, of_source_one. cbn [of_source] in Hc.
    case_bool_decide as E; [rewrite E|]; cbn in *; [|lia]. rewrite u64_small by lia. lia.
  - intros i th m' Hi Hm Hs'. rewrite thread_set_count. eauto.
  - done.
  - intros i th Hi. rewrite of_source_app, app_assoc. apply sublist_app; [|done].
    specialize (Ho i th Hi). by rewrite app_nil_r in Ho.
  - rewrite of_source_app. apply sublist_app; [|done]. by rewrite app_nil_r in Ho0.
Qed.

Lemma source_ok_read m g o sub h b :
  source_ok s (mkManager g (a_read m) o sub h b) ->
  source_ok s (mkManager g
    (if needs_choice (in_source m) (thread_of g (in_source m)) then a_choose m
     else a_push m (Z.to_nat (thread_of g (in_source m)))) o sub h b).
Proof.
  intros [Hc Hp _ Ho Ho0]. cbn [workers apc opc submitted handled] in *.
  assert (forall p, apc_items p = [m] ->
    match p with
    | a_choose m => in_source m = s -> thread_of g s < 0
    | a_push m t => in_source m = s -> thread_of g s = Z.of_nat t
    | _ => True
    end -> source_ok s (mkManager g p o sub h b)) as H.
  { intros p E Hpc. split; cbn [workers apc opc submitted handled]; rewrite ?E; try done.
    unfold inflight in *. cbn [workers apc opc] in *. by rewrite E. }
  apply H; [by destruct (needs_choice _ _)|].
  destruct (needs_choice (in_source m) (thread_of g (in_source m))) eqn:En; intros E; rewrite E in En; unfold needs_choice in En.
  - apply orb_true_iff in En as [En|En]; [by apply Z.ltb_lt|]. exfalso. apply Hs.
    unfold ignore_assignment in En. rewrite andb_true_iff, !Z.eqb_eq in En. destruct s. naive_solver.
  - apply orb_false_iff in En as [En _]. apply Z.ltb_ge in En. rewrite E. by rewrite Z2Nat.id.
Qed.

Lemma source_ok_choose m rnd t g g' o sub h b :
  assign_choose rnd (in_source m) g = (t, g') ->
  source_ok s (mkManager g (a_choose m) o sub h b) ->
  source_ok s (mkManager g' (a_push m t) o sub h b).
Proof.
  intros E [Hc Hp Hpc Ho Ho0]. cbn [workers apc opc submitted handled apc_items] in *.
  unfold assign_choose in E. destruct (choose rnd g) as [t' n]. injection E as -> <-.
  split; cbn [workers apc opc submitted handled apc_items]; unfold inflight in *;
    cbn [workers apc opc apc_items threads set_thread] in *.
  - rewrite count_set_thread. exact Hc.
  - intros i th m' Hi Hm Hs'. rewrite thread_set_thread. pose proof (Hp i th m' Hi Hm Hs') as Ht.
    case_bool_decide as E; [|exact Ht]. specialize (Hpc E). lia.
  - intros E. rewrite thread_set_thread. by rewrite bool_decide_eq_true_2.
  - exact Ho.
  - exact Ho0.
Qed.

Lemma pending_push m th : exists l, pending (push m th) = pending th ++ l /\ (l = [m] \/ l = []).
Proof.
  unfold push, pending. destruct (_ <? _); cbn [working inQ].
  - exists [m]. rewrite app_assoc. auto.
  - exists []. rewrite app_nil_r. auto.
Qed.
Lemma load_push m th : (load s (push m th) <= load s th + length (of_source s [m]))%nat.
Proof.
  unfold load. destruct (pending_push m th) as (l & -> & [-> | ->]); rewrite of_source_app, length_app;
    unfold push; destruct (_ <? _); cbn [cleanups outQ length of_source]; unfold cleanups; cbn [outQ]; cbn; lia.
Qed.

Lemma source_ok_push m t g o sub h b :
  source_ok s (mkManager g (a_push m t) o sub h b) ->
  source_ok s (mkManager (assign_push t m g) a_idle o sub h b).
Proof.
  intros [Hc Hp Hpc Ho Ho0]. cbn [workers apc opc submitted handled apc_items] in *.
  unfold assign_push. rewrite alter_insert. destruct (threads g !! t) as [th|] eqn:Et.
  2: { split; cbn [workers apc opc submitted handled apc_items threads set_threads]; try done.
       - unfold inflight in *. cbn [workers apc opc threads set_threads apc_items of_source length] in *.
         change (count_of (set_threads _ g) s) with (count_of g s). cbn. lia.
       - intros i th Hi. etrans; [|by apply (Ho i)]. rewrite app_nil_r, app_assoc. by apply sublist_inserts_r.
       - etrans; [|exact Ho0]. rewrite app_nil_r. by apply sublist_inserts_r. }
  assert (t < length (threads g))%nat as Hlt by by eapply lookup_lt_Some.
  split; cbn [workers apc opc submitted handled apc_items]; unfold inflight in *;
    cbn [workers apc opc apc_items threads set_threads] in *;
    change (count_of (set_threads (<[t := push m th]> (threads g)) g) s) with (count_of g s);
    change (thread_of (set_threads (<[t := push m th]> (threads g)) g) s) with (thread_of g s).
  - pose proof (sum_insert (load s) _ t th (push m th) Et). pose proof (load_push m th). cbn [of_source length] in *.
    cbn. lia.
  - intros i thi m' Hi Hm Hs'. destruct (decide (t = i)) as [<-|Hne].
    + rewrite list_lookup_insert_eq in Hi by done. injection Hi as <-.
      destruct (pending_push m th) as (l & El & Hl). rewrite El in Hm. apply elem_of_app in Hm as [Hm|Hm]; [eauto|].
      destruct Hl as [-> | ->]; [|by apply elem_of_nil in Hm]. apply list_elem_of_singleton in Hm as ->. auto.
    + rewrite list_lookup_insert_ne in Hi by done. eauto.
  - done.
  - intros i thi Hi. rewrite app_nil_r. destruct (decide (t = i)) as [<-|Hne].
    + rewrite list_lookup_insert_eq in Hi by done. injection Hi as <-. etrans; [|by apply (Ho t)].
      apply sublist_app; [done|]. destruct (pending_push m th) as (l & -> & Hl). rewrite of_source_app.
      apply sublist_app; [done|]. destruct Hl as [-> | ->]; [done|]. apply sublist_nil_l.
    + rewrite list_lookup_insert_ne in Hi by done. etrans; [|by apply (Ho i)]. rewrite app_assoc.
      by apply sublist_inserts_r.
  - rewrite app_nil_r. etrans; [|exact Ho0]. by apply sublist_inserts_r.
Qed.

Lemma take_item_spec th th' : take_item th = Some th' -> pending th' = pending th /\ outQ th' = outQ th.
Proof.
  unfold take_item, pending. destruct (working th), (inQ th); try done. by intros [= <-].
Qed.

Lemma source_ok_work i th m overflow g a o sub h b :
  threads g !! i = Some th -> working th = Some m ->
  source_ok s (mkManager g a o sub h b) ->
  source_ok s (mkManager (set_worker i (finish (doWork overflow m th)) g) a o sub
                 (if overflowing overflow th then h else h ++ [m]) b).
Proof.
  intros Hi Hw Hok.
  assert (pending th = m :: inQ th) as Hpend by (unfold pending; by rewrite Hw).
  assert (pending (finish (doWork overflow m th)) = inQ th
          /\ (length (cleanups s (finish (doWork overflow m th)))
              <= length (cleanups s th) + if bool_decide (in_source m = s) then 1 else 0)%nat) as [Hp Hcl].
  { unfold doWork. destruct (overflowing overflow th); [split; [done|]; unfold cleanups, finish; cbn; lia|].
    destruct (pushes_out (work_outputs m) th) as [Hp Hcl]. rewrite work_outputs_source in Hcl.
    set (th' := fold_left _ _ th) in *. split; [|exact Hcl].
    assert (inQ th' = inQ th) as Hq; [|by unfold pending, finish; cbn].
    subst th'. generalize (work_outputs m) as l. clear. intros l. revert th.
    induction l as [|x l IH]; intros th; cbn [fold_left]; [done|]. rewrite IH. unfold push_out. by destruct (_ <? _). }
  pose proof (source_ok_worker (mkManager g a o sub h b) i th (finish (doWork overflow m th)) o
    (if overflowing overflow th then h else h ++ [m]) b Hi) as H. cbn [workers apc opc submitted handled] in H.
  apply H; clear H; [| | | |done].
  - rewrite Hp, Hpend. intros m' Hm'. by right.
  - unfold load. rewrite Hp, Hpend. change (m :: inQ th) with ([m] ++ inQ th).
    rewrite of_source_app, length_app, of_source_one. revert Hcl. case_bool_decide; cbn [length opc]; lia.
  - rewrite Hp, Hpend. change (m :: inQ th) with ([m] ++ inQ th). destruct (overflowing overflow th).
    + rewrite of_source_app. apply sublist_app; [done|]. by apply sublist_inserts_l.
    + by rewrite !of_source_app, <- app_assoc.
  - destruct (decide (in_source m = s)) as [E|E]; [right; exists m; split; [rewrite Hpend; by left|done]|left].
    destruct (overflowing overflow th); [done|]. rewrite of_source_app, of_source_one, bool_decide_eq_false_2 by done.
    by rewrite app_nil_r.
Qed.

Lemma source_ok_take i th th' g a o sub h b :
  threads g !! i = Some th -> take_item th = Some th' ->
  source_ok s (mkManager g a o sub h b) -> source_ok s (mkManager (set_worker i th' g) a o sub h b).
Proof.
  intros Hi Ht. apply take_item_spec in Ht as [Hp Hq].
  apply (source_ok_worker (mkManager g a o sub h b) i th th' o h b Hi); cbn [opc handled].
  - by rewrite Hp.
  - unfold load, cleanups. by rewrite Hp, Hq.
  - by rewrite Hp.
  - by left.
Qed.

Lemma source_ok_outgoing i th r g a o sub h b :
  threads g !! i = Some th ->
  source_ok s (mkManager g a o sub h b) ->
  source_ok s (mkManager (set_worker i (push_out (mkOut (0, 0) (Some r)) th) g) a o sub h b).
Proof.
  intros Hi. apply (source_ok_worker (mkManager g a o sub h b) i th _ o h b Hi); cbn [opc handled];
    rewrite ?pending_push_out; [done| |done|by left].
  unfold load. rewrite pending_push_out. pose proof (cleanups_push_out (mkOut (0, 0) (Some r)) th) as H.
  cbn [out_source] in H. rewrite bool_decide_eq_false_2 in H by congruence. lia.
Qed.

Lemma source_ok_pop i th th' out g a sub h b b' :
  threads g !! i = Some th -> pop th = (Some out, th') ->
  source_ok s (mkManager g a o_idle sub h b) ->
  source_ok s (mkManager (set_worker i th' g) a (o_dec (out_source out)) sub h b').
Proof.
  intros Hi Ht. unfold pop in Ht. destruct (outQ th) as [|x q] eqn:Eq; [done|]. injection Ht as -> <-.
  apply (source_ok_worker (mkManager g a o_idle sub h b) i th _ (o_dec (out_source out)) h b' Hi);
    cbn [opc handled]; [done| |done|by left].
  unfold load, cleanups. rewrite Eq. cbn [outQ pending working inQ opc_load]. rewrite filter_cons.
  case_bool_decide; case_decide; try done; cbn [length]; unfold pending; cbn [working inQ]; lia.
Qed.

Lemma source_ok_step st st' :
  step st st' -> Z.of_nat (length (submitted st')) < 2 ^ 64 -> source_ok s st -> source_ok s st'.
Proof.
  intros Hstep Hb Hok. destruct Hstep.
  - by apply source_ok_submit.
  - by apply source_ok_read.
  - by eapply source_ok_choose.
  - by apply source_ok_push.
  - by eapply source_ok_take.
  - by apply source_ok_work.
  - by apply source_ok_outgoing.
  - by eapply source_ok_pop.
  - by destruct Hok.
Qed.

Lemma count_unassign s' g n g' :
  unassign_count s' g = (n, g') ->
  n = u64 (count_of g s' - 1) /\ threads g' = threads g
  /\ (forall x, count_of g' x = if bool_decide (s' = x) then n else count_of g x)
  /\ forall x, thread_of g' x = thread_of g x.
Proof.
  intros [= <- <-]. split_all; [done|done| |]; intros x; [apply count_set_count|apply thread_set_count].
Qed.

Lemma inflight_none st : inflight s st = 0%nat ->
  (forall i th m, threads (workers st) !! i = Some th -> m ∈ pending th -> in_source m = s -> False)
  /\ of_source s (apc_items (apc st)) = [].
Proof.
  unfold inflight. intros H. split.
  - intros i th m Hi Hm Hms. pose proof (sum_le (load s) _ i th Hi) as Hl. unfold load in Hl at 1.
    assert (m ∈ of_source s (pending th)) as Hin by by apply list_elem_of_filter.
    destruct (of_source s (pending th)); [by apply elem_of_nil in Hin|]. cbn in Hl. lia.
  - destruct (of_source s (apc_items (apc st))); [done|]. cbn in H. lia.
Qed.

Lemma source_ok_count s' n g g' a sub h b :
  Z.of_nat (length sub) < 2 ^ 64 -> unassign_count s' g = (n, g') ->
  source_ok s (mkManager g a (o_dec s') sub h b) ->
  source_ok s (mkManager g' a (if n =? 0 then o_clear s' else o_idle) sub h b) /\
  (n = 0 -> s' = s -> count_of g' s = 0).
Proof.
  intros Hb Eu [Hc Hp Hpc Ho Ho0]. cbn [workers apc opc submitted handled apc_items] in *.
  apply count_unassign in Eu as (Hn & Ht & Hcnt & Hthr).
  assert (length (of_source s sub) <= length sub)%nat by apply length_filter.
  unfold inflight in Hc. cbn [workers apc opc opc_load] in Hc.
  split.
  - split; cbn [workers apc opc submitted handled]; rewrite ?Ht; try done.
    + rewrite Hcnt. unfold inflight. cbn [workers apc opc]. rewrite Ht.
      replace (opc_load s (if n =? 0 then o_clear s' else o_idle)) with 0%nat by by destruct (n =? 0).
      case_bool_decide as E; [|lia]. subst s'. rewrite Hn, u64_small by lia. lia.
    + intros i th m Hi. rewrite Hthr. eauto.
    + destruct a; rewrite ?Hthr; auto.
  - intros E <-. by rewrite Hcnt, bool_decide_eq_true_2.
Qed.

Lemma source_ok_clear s' g a sub h b :
  (s' = s -> count_of g s = 0) ->
  source_ok s (mkManager g a (o_clear s') sub h b) ->
  source_ok s (mkManager (set_thread s' (-1) g) a o_idle sub h b).
Proof.
  intros Hz Hok. pose proof Hok as [Hc Hp Hpc Ho Ho0]. cbn [workers apc opc submitted handled apc_items] in *.
  split; cbn [workers apc opc submitted handled]; try done.
  - rewrite count_set_thread. exact Hc.
  - intros i th m Hi Hm Hms. rewrite thread_set_thread. case_bool_decide as E; [|eauto]. exfalso.
    specialize (Hz E). destruct (inflight_none (mkManager g a (o_clear s') sub h b)) as [Hno _]; [lia|].
    by eapply Hno.
  - destruct a as [|m|m|m t]; try done; intros Em; rewrite thread_set_thread; case_bool_decide as E; auto; [lia|].
    exfalso. specialize (Hz E). destruct (inflight_none (mkManager g (a_push m t) (o_clear s') sub h b)) as [_ Hno]; [lia|].
    cbn [apc apc_items] in Hno. by rewrite of_source_one, bool_decide_eq_true_2 in Hno.
Qed.

(** While the assignment is about to be cleared, nothing is counted. *)
Definition clear_ok st : Prop := opc st = o_clear s -> count_of (workers st) s = 0.
Lemma of_source_submit m sub : of_source s (sub ++ [m]) = of_source s sub -> in_source m <> s.
Proof.
  rewrite of_source_app, of_source_one. case_bool_decide; [|done].
  intros E%(f_equal length). rewrite length_app in E. cbn in E. lia.
Qed.
Lemma count_set_worker i th g : count_of (set_worker i th g) s = count_of g s.
Proof. done. Qed.
Lemma clear_ok_step st st' : step st st' ->
  (opc st = o_clear s -> of_source s (submitted st') = of_source s (submitted st)) -> clear_ok st -> clear_ok st'.
Proof.
  unfold clear_ok. intros Hstep Hq Hz Ec. destruct Hstep; cbn [opc workers submitted] in *;
    try (by apply Hz); try done.
  - unfold assign_count. rewrite count_set_count. specialize (Hq Ec). apply of_source_submit in Hq.
    rewrite bool_decide_eq_false_2 by done. by apply Hz.
  - unfold assign_choose in H. destruct (choose rnd g). injection H as <- <-. rewrite count_set_thread. by apply Hz.
Qed.

Lemma submitted_grows st st' : fine_step st st' -> (length (submitted st) <= length (submitted st'))%nat.
Proof. destruct 1 as [st st' H| |]; [|done..]. destruct H; cbn; rewrite ?length_app; lia. Qed.

Lemma threads_new n strat : threads (workers (manager_new n strat)) = grow n 0 [].
Proof. cbn. by rewrite Nat.sub_0_r. Qed.

Lemma grow_idle k : forall i (ts : list (LockFreeThread I R)),
  Forall (fun th => pending th = [] /\ outQ th = []) ts ->
  Forall (fun th => pending th = [] /\ outQ th = []) (grow k i ts).
Proof.
  induction k as [|k IH]; intros i ts H; cbn [grow]; [done|]. apply IH.
  apply Forall_alter; [|by intros x _ Hx]. apply Forall_app. split; [done|]. by repeat constructor.
Qed.

Lemma source_ok_new n strat : source_ok s (manager_new n strat).
Proof.
  pose proof (grow_idle n 0 [] ltac:(constructor)) as Hg.
  split; rewrite ?threads_new; cbn [apc opc submitted handled manager_new].
  - unfold inflight. rewrite threads_new. cbn [apc opc manager_new opc_load apc_items of_source].
    assert (sum_list_with (load s) (@grow I R n 0 []) = 0%nat) as ->.
    { revert Hg. generalize (@grow I R n 0 []). induction 1 as [|th ts [Hp Ho] _ IH]; [done|].
      cbn. unfold load at 1, cleanups. by rewrite Hp, Ho, IH. }
    unfold count_of, assignment. cbn [workers manager_new assignments]. rewrite lookup_empty. cbn. lia.
  - intros i th m Hi Hm _.
    apply (Forall_lookup_1 _ _ _ _ Hg) in Hi as [Hp _]. rewrite Hp in Hm. by apply elem_of_nil in Hm.
  - done.
  - intros i th Hi. by apply (Forall_lookup_1 _ _ _ _ Hg) in Hi as [-> _].
  - done.
Qed.

Lemma quiet_preserves st st' : quiet_step s st st' -> Z.of_nat (length (submitted st')) < 2 ^ 64 ->
  source_ok s st /\ clear_ok st -> source_ok s st' /\ clear_ok st'.
Proof.
  intros [Hstep Hq] Hb [Hok Hz]. destruct Hstep as [st st' H|s' n g g' a sub h b Eu|s' g a sub h b].
  - split; [by eapply source_ok_step|by eapply clear_ok_step].
  - destruct (source_ok_count s' n g g' a sub h b Hb Eu Hok) as [Hok' Hz']. split; [done|].
    unfold clear_ok. cbn [opc workers]. destruct (Z.eqb_spec n 0); [|done]. intros [= ->]. by apply Hz'.
  - split; [|done]. apply source_ok_clear; [|done]. intros ->. by apply Hz.
Qed.
Lemma source_ok_reachable n strat st :
  rtc (quiet_step s) (manager_new n strat) st -> Z.of_nat (length (submitted st)) < 2 ^ 64 -> source_ok s st.
Proof.
  intros Hr Hb. enough (source_ok s st /\ clear_ok st) by tauto. revert st Hr Hb.
  apply (rtc_ind_r (fun st => Z.of_nat (length (submitted st)) < 2 ^ 64 -> source_ok s st /\ clear_ok st)).
  - intros _. split; [apply source_ok_new|done].
  - intros st st' _ Hstep IH Hb. pose proof (submitted_grows _ _ (proj1 Hstep)).
    apply (quiet_preserves st st'); [done|done|]. apply IH. lia.
Qed.
End preservation.

(** ** What each worker does *)
(** The handled messages are divided into what each worker has handled: with what is
    pending, that is in the order of arrival, and no message is anywhere twice. *)
Record accounted (parts : list (list (rawIncomingMessage I))) st : Prop := {
  acc_length : length parts = length (threads (workers st));
  acc_handled : handled st ≡ₚ concat parts;
  acc_order : forall i part th, parts !! i = Some part -> threads (workers st) !! i = Some th ->
    sublist (part ++ pending th ++ apc_items (apc st)) (submitted st);
  acc_once : concat parts ++ concat (map pending (threads (workers st))) ++ apc_items (apc st) ⊆+ submitted st }.

Lemma concat_insert {A} (l : list (list A)) (i : nat) x y : l !! i = Some x ->
  concat (<[i := x ++ y]> l) ≡ₚ concat l ++ y.
Proof.
  intros Hi. destruct (list_elem_of_split_length l i x Hi) as (l1 & l2 & -> & ->).
  rewrite insert_app_r_alt by lia. rewrite Nat.sub_diag. cbn. rewrite !concat_app. cbn.
  rewrite <-!app_assoc. do 2 f_equiv. apply Permutation_app_comm.
Qed.
Lemma concat_lose (f : LockFreeThread I R -> list (rawIncomingMessage I)) l (i : nat) th th' x : l !! i = Some th ->
  sublist (x ++ f th') (f th) -> x ++ concat (map f (<[i := th']> l)) ⊆+ concat (map f l).
Proof.
  intros Hi Hs. destruct (list_elem_of_split_length l i th Hi) as (l1 & l2 & -> & ->).
  rewrite insert_app_r_alt by lia. rewrite Nat.sub_diag. cbn. rewrite !map_app, !concat_app. cbn.
  rewrite (Permutation_app_swap_app x). apply submseteq_skips_l. rewrite app_assoc.
  apply submseteq_skips_r. by apply sublist_submseteq.
Qed.

(** A worker that loses messages from its front, and handles those of [x]. *)
Lemma accounted_worker parts st i th th' part x o' b' :
  threads (workers st) !! i = Some th -> parts !! i = Some part ->
  sublist (x ++ pending th') (pending th) -> accounted parts st ->
  accounted (<[i := part ++ x]> parts)
    (mkManager (set_worker i th' (workers st)) (apc st) o' (submitted st) (handled st ++ x) b').
Proof.
  intros Hi Hpart Hs [Hl Hh Ho Hn]. assert (i < length (threads (workers st)))%nat by by eapply lookup_lt_Some.
  split; cbn [workers apc opc submitted handled threads set_worker set_threads].
  - by rewrite !length_insert.
  - by rewrite concat_insert, Hh.
  - intros j partj thj. destruct (decide (i = j)) as [<-|Hne].
    + rewrite !list_lookup_insert_eq by (rewrite ?Hl; done). intros [= <-] [= <-].
      etrans; [|by apply (Ho i)]. rewrite <-app_assoc. apply sublist_app; [done|]. rewrite app_assoc. by apply sublist_app.
    + rewrite !list_lookup_insert_ne by done. apply Ho.
  - etrans; [|exact Hn]. rewrite concat_insert by done. rewrite <-!app_assoc. apply submseteq_skips_l.
    rewrite app_assoc. apply submseteq_skips_r. by apply (concat_lose pending _ i th).
Qed.
Lemma accounted_part parts st i th : threads (workers st) !! i = Some th -> accounted parts st ->
  exists part, parts !! i = Some part.
Proof. intros Hi H. apply lookup_lt_is_Some_2. rewrite (acc_length _ _ H). by eapply lookup_lt_Some. Qed.
(** A worker that handles nothing, and has nothing more to do than before. *)
Lemma accounted_idle parts st i th th' o' b' :
  threads (workers st) !! i = Some th -> sublist (pending th') (pending th) -> accounted parts st ->
  accounted parts (mkManager (set_worker i th' (workers st)) (apc st) o' (submitted st) (handled st) b').
Proof.
  intros Hi Hs Hacc. destruct (accounted_part _ _ _ _ Hi Hacc) as [part Hpart].
  pose proof (accounted_worker parts st i th th' part [] o' b' Hi Hpart Hs Hacc) as H.
  by rewrite !app_nil_r, list_insert_id in H.
Qed.
(** Other changes leave the workers and what is taken in alone. *)
Lemma accounted_same parts g g' a a' o o' sub h b : threads g' = threads g -> apc_items a' = apc_items a ->
  accounted parts (mkManager g a o sub h b) -> accounted parts (mkManager g' a' o' sub h b).
Proof. intros Et Ea [Hl Hh Ho Hn]. split; cbn [workers apc submitted handled] in *; by rewrite ?Et, ?Ea. Qed.

Lemma accounted_push parts m t g o sub h b :
  accounted parts (mkManager g (a_push m t) o sub h b) -> accounted parts (mkManager (assign_push t m g) a_idle o sub h b).
Proof.
  intros [Hl Hh Ho Hn]. cbn [workers apc submitted handled apc_items] in *. unfold assign_push. rewrite alter_insert.
  assert (forall i part th, parts !! i = Some part -> threads g !! i = Some th ->
    sublist (part ++ pending th ++ []) sub) as Ho'.
  { intros i part th Hp Hi. etrans; [|by apply (Ho i)]. apply sublist_app; [done|]. apply sublist_app; [done|apply sublist_nil_l]. }
  destruct (threads g !! t) as [th|] eqn:Et; split; cbn [workers apc submitted handled apc_items threads set_threads];
    rewrite ?length_insert; try done.
  - intros i part thi Hp. destruct (decide (t = i)) as [<-|Hne]; [|rewrite list_lookup_insert_ne by done; by apply Ho'].
    rewrite list_lookup_insert_eq by by eapply lookup_lt_Some. intros [= <-].
    destruct (pending_push m th) as (l & -> & [-> | ->]); rewrite app_nil_r; [by apply (Ho t)|].
    specialize (Ho' t part th Hp Et). by rewrite app_nil_r in *.
  - etrans; [|exact Hn]. apply submseteq_skips_l. rewrite app_nil_r.
    destruct (list_elem_of_split_length _ t th Et) as (l1 & l2 & -> & ->).
    rewrite insert_app_r_alt by lia. rewrite Nat.sub_diag. cbn. rewrite !map_app, !concat_app. cbn.
    rewrite <-!app_assoc. apply submseteq_skips_l. destruct (pending_push m th) as (l & -> & Hm).
    rewrite <-app_assoc. apply submseteq_skips_l. rewrite (Permutation_app_comm l). apply submseteq_skips_l.
    destruct Hm as [-> | ->]; [done|apply submseteq_nil_l].
  - etrans; [|exact Hn]. apply submseteq_skips_l. rewrite app_nil_r. by apply submseteq_inserts_r.
Qed.

Lemma accounted_step parts st st' : fine_step st st' -> accounted parts st -> exists parts', accounted parts' st'.
Proof.
  intros Hstep Hacc. destruct Hstep as [st st' Hs|s' n g g' a sub h b Eu|s' g a sub h b].
  2: { exists parts. apply count_unassign in Eu as (_ & Ht & _). by apply (accounted_same parts g _ a a (o_dec s') _ sub h b). }
  2: { exists parts. by apply (accounted_same parts g _ a a (o_clear s') _ sub h b). }
  destruct Hs as [m g o sub h b Hg|m g o sub h b|m rnd t g g' o sub h b E|m t g o sub h b|i th th' g a o sub h b Hi Ht
    |i th m overflow g a o sub h b Hi Hw|i th r g a o sub h b Hi|i th th' out g a sub h b Hi Ht|str g a o sub h b].
  - exists parts. destruct Hacc as [Hl Hh Ho Hn]. cbn [workers apc submitted handled apc_items] in *.
    split; cbn [workers apc submitted handled apc_items]; try done.
    + intros i part th Hp Hi. rewrite app_assoc. apply sublist_app; [|done]. specialize (Ho i part th Hp Hi).
      by rewrite app_nil_r in Ho.
    + change (threads (assign_count (in_source m) g)) with (threads g). rewrite app_assoc.
      apply submseteq_app; [|done]. by rewrite app_nil_r in Hn.
  - exists parts. apply (accounted_same parts g g (a_read m) _ o o sub h b); [done| |done]. cbn zeta. by destruct (needs_choice _ _).
  - exists parts. unfold assign_choose in E. destruct (choose rnd g). injection E as <- <-. by apply (accounted_same parts g _ (a_choose m) _ o o sub h b).
  - exists parts. by apply accounted_push.
  - exists parts. apply take_item_spec in Ht as [Hp _].
    apply (accounted_idle parts (mkManager g a o sub h b) i th); [done|by rewrite Hp|done].
  - destruct (accounted_part parts (mkManager g a o sub h b) i th Hi Hacc) as [part Hpart]. unfold doWork.
    assert (pending th = m :: inQ th) as Hpend by (unfold pending; by rewrite Hw).
    destruct (overflowing overflow th).
    + exists parts. apply (accounted_idle parts (mkManager g a o sub h b) i th); [done|rewrite Hpend|done].
      by apply sublist_cons.
    + eexists. apply (accounted_worker parts (mkManager g a o sub h b) i th _ part [m]); [done|done|rewrite Hpend|done].
      destruct (pushes_out (0, 0) (work_outputs m) th) as [Hp _]. cbn. apply sublist_skip.
      unfold finish, pending. cbn [working inQ]. cbn. clear Hp. generalize (work_outputs m) as l. intros l.
      assert (inQ (fold_left (fun th o => push_out o th) l th) = inQ th) as ->; [|done].
      clear. revert th. induction l as [|x l IH]; intros th; cbn [fold_left]; [done|]. rewrite IH.
      unfold push_out. by destruct (_ <? _).
  - exists parts. apply (accounted_idle parts (mkManager g a o sub h b) i th); [done|by rewrite pending_push_out|done].
  - exists parts. unfold pop in Ht. destruct (outQ th) as [|y q]; [done|]. injection Ht as _ <-.
    by apply (accounted_idle parts (mkManager g a o_idle sub h b) i th).
  - exists parts. by apply (accounted_same parts g _ a a o o sub h b).
Qed.
Lemma accounted_new n strat : accounted (replicate n []) (manager_new n strat).
Proof.
  assert (concat (replicate n (@nil (rawIncomingMessage I))) = []) as Hc by (induction n; cbn; auto).
  pose proof (grow_idle n 0 [] ltac:(constructor)) as Hg.
  split; rewrite ?threads_new, ?Hc; cbn [apc submitted handled manager_new apc_items].
  - rewrite length_grow, length_replicate. cbn. lia.
  - done.
  - intros i part th [-> _]%lookup_replicate Hi. by apply (Forall_lookup_1 _ _ _ _ Hg) in Hi as [-> _].
  - revert Hg. generalize (@grow I R n 0 []). induction 1 as [|th ts [Hp _] _ IH]; [done|]. cbn. by rewrite Hp.
Qed.
Lemma accounted_reachable n strat st : rtc fine_step (manager_new n strat) st ->
  length (threads (workers st)) = n /\ exists parts, accounted parts st.
Proof.
  revert st. apply rtc_ind_r; [split; [by rewrite threads_new, length_grow|eexists; apply accounted_new]|].
  intros st st' _ Hstep [Hn [parts Hacc]]. split; [|by eapply accounted_step].
  rewrite <-Hn. clear Hn Hacc. destruct Hstep as [st st' Hs|s' n' g g' a sub h b Eu|]; [|injection Eu as _ <-; done|done].
  destruct Hs; cbn [workers set_worker set_threads threads]; rewrite ?length_insert; try done.
  - unfold assign_choose in H. destruct (choose rnd g). by injection H as <- <-.
  - unfold assign_push. cbn. by rewrite length_alter.
Qed.

End manager.

(** * The race *)
#[local] Instance sample_handler : MessageHandler unit unit := {|
  NewMessage := fun _ => None; bytes_message := fun _ _ => tt; json_message := fun _ _ => tt;
  string_message := fun _ _ => tt; ivp_message := fun _ => tt; set_timestamp := fun _ _ => tt;
  handle_message := fun _ => [] |}.
Definition sample_message (k : Z) : rawIncomingMessage unit := mkIn (1, 1) k (type_IvpMessage tt).

(** With [unassign] as it is, two messages of a source can be handled in
    the wrong order: between the decrement that finds no message left and the
    reset of the assignment, one message is still assigned to the old worker,
    and the next one, after the reset, to another. *)
Theorem unassign_race :
  exists st, rtc fine_step (manager_new 2 strategy_RoundRobin) st
    /\ submitted st = map sample_message [1; 2; 3] /\ handled st = map sample_message [1; 3; 2].
Proof.
  eexists. split.
  - eapply rtc_l; [apply fi_step, (m_submit (sample_message 1)); done|].
    eapply rtc_l; [apply fi_step, m_read|].
    eapply rtc_l; [apply fi_step; eapply (m_choose _ 0); [reflexivity|vm_compute; lia]|].
    eapply rtc_l; [apply fi_step, m_push|].
    eapply rtc_l; [apply fi_step; eapply (m_take 0); reflexivity|].
    eapply rtc_l; [apply fi_step; eapply (m_work 0 _ _ 0); reflexivity|].
    eapply rtc_l; [apply fi_step; eapply (m_pop 0); reflexivity|].
    eapply rtc_l; [eapply fi_count; reflexivity|].
    eapply rtc_l; [apply fi_step, (m_submit (sample_message 2)); done|].
    eapply rtc_l; [apply fi_step, m_read|].
    eapply rtc_l; [apply fi_step, m_push|].
    eapply rtc_l; [apply fi_clear|].
    eapply rtc_l; [apply fi_step, (m_submit (sample_message 3)); done|].
    eapply rtc_l; [apply fi_step, m_read|].
    eapply rtc_l; [apply fi_step; eapply (m_choose _ 0); [reflexivity|vm_compute; lia]|].
    eapply rtc_l; [apply fi_step, m_push|].
    eapply rtc_l; [apply fi_step; eapply (m_take 1); reflexivity|].
    eapply rtc_l; [apply fi_step; eapply (m_work 1 _ _ 0); reflexivity|].
    eapply rtc_l; [apply fi_step; eapply (m_take 0); reflexivity|].
    eapply rtc_l; [apply fi_step; eapply (m_work 0 _ _ 0); reflexivity|].
    apply rtc_refl.
  - split; reflexivity.
Qed.

(** * Witnesses *)
Lemma growth_starts_first_workers_witness :
  started <$> threads (set_size 5 (set_size 3 (@group_new unit unit))) = [2; 2; 1; 0; 0]%nat
  /\ started_at 4 (threads (set_size 5 (set_size 3 (@group_new unit unit)))) = 0%nat.
Proof. split; [reflexivity|]. by apply (growth_starts_first_workers 3 5 4); lia. Defined.


Lemma prefix_of_length p : forall s, prefix_of p s = true -> (String.length p <= String.length s)%nat.
Proof.
  induction p as [|a p IH]; intros [|b s]; cbn; try done; try lia.
  rewrite andb_true_iff. intros [_ H]. apply IH in H. lia.
Qed.

Lemma find_from_short p s : forall i,
  (String.length s < String.length p)%nat -> find_from p s i = 2 ^ 64 - 1.
Proof.
  induction s as [|c s IH]; intros i Hl; cbn [find_from];
    (destruct (prefix_of p _) eqn:E; [apply prefix_of_length in E; lia|]); [done|].
  apply IH. cbn in Hl. lia.
Qed.

(** An encoding of eight characters is taken for hexadecimal text: what
    [find] returns for nothing is the difference of the lengths. *)
Theorem eight_characters_hex enc : String.length enc = 8%nat -> IsByteHexEncoded (Some enc) = true.
Proof.
  intros H. unfold IsByteHexEncoded. rewrite find_from_short by (rewrite H; cbn; lia). by rewrite H.
Qed.
End Threads.
