(* ===== verification/Utilities.v ===== *)
(** Two utilities of the plugins: the frequency throttle
    ([src/src/tmx/TmxUtils/src/FrequencyThrottle.h]) and the base 64 text of
    binary data ([src/src/tmx/TmxUtils/src/Base64.cpp]). *)
From Stdlib Require Import Ascii.
From S2P Require Import Prelude Text OrdMap.
Open Scope Z_scope.

(** * The throttle

    Times are nanoseconds of the system clock, durations milliseconds. *)
Module Throttle.
Section throttle.
Context {K : Type} `{KeyOrder K}.

Record FrequencyThrottle := mkThrottle {
  frequency : Z; staleDuration : Z; mapLastTime : list (K * Z) }.

Definition set_Frequency (f : Z) (s : FrequencyThrottle) : FrequencyThrottle :=
  mkThrottle f (f + 5000) (mapLastTime s).
Definition FrequencyThrottle_new (f : Z) : FrequencyThrottle := set_Frequency f (mkThrottle 0 0 []).
(** [duration_cast] to milliseconds truncates. *)
Definition duration_ms (ns : Z) : Z := Z.quot ns 1000000.

Definition set_map (m : list (K * Z)) (s : FrequencyThrottle) : FrequencyThrottle :=
  mkThrottle (frequency s) (staleDuration s) m.
Definition Monitor (key : K) (now : Z) (s : FrequencyThrottle) : bool * FrequencyThrottle :=
  match OrdMap.find key (mapLastTime s) with
  | None => (true, set_map (OrdMap.insert key now (mapLastTime s)) s)
  | Some last =>
      if frequency s <=? duration_ms (now - last)
      then (true, set_map (OrdMap.insert key now (mapLastTime s)) s)
      else (false, s)
  end.
Definition RemoveStaleKeys (now : Z) (s : FrequencyThrottle) : FrequencyThrottle :=
  set_map (filter (fun kt => ~ staleDuration s <= duration_ms (now - snd kt)) (mapLastTime s)) s.
Definition Touch (key : K) (now : Z) (s : FrequencyThrottle) : FrequencyThrottle :=
  match OrdMap.find key (mapLastTime s) with
  | None => s
  | Some _ => set_map (OrdMap.insert key now (mapLastTime s)) s
  end.

(** ** Calls in sequence *)
Inductive call := c_monitor (key : K) (now : Z) | c_stale (now : Z) | c_touch (key : K) (now : Z).
Definition call_time (c : call) : Z :=
  match c with c_monitor _ now | c_stale now | c_touch _ now => now end.
(** The state after the calls, and the calls of [Monitor] that returned true. *)
Fixpoint run (cs : list call) (s : FrequencyThrottle) : FrequencyThrottle * list (K * Z) :=
  match cs with
  | [] => (s, [])
  | c_monitor key now :: cs =>
      let '(b, s) := Monitor key now s in
      let '(s, passed) := run cs s in
      (s, if b : bool then (key, now) :: passed else passed)
  | c_stale now :: cs => run cs (RemoveStaleKeys now s)
  | c_touch key now :: cs => run cs (Touch key now s)
  end.

Fixpoint ascending (t : Z) (cs : list call) : Prop :=
  match cs with [] => True | c :: cs => t <= call_time c /\ ascending (call_time c) cs end.

(** For a key that passed at [t]: it is remembered with a later time, or so much
    time has passed that it may pass again. *)
Definition remembers (key : K) (t now : Z) (s : FrequencyThrottle) : Prop :=
  t <= now /\
  ((exists last, OrdMap.find key (mapLastTime s) = Some last /\ t <= last <= now)
   \/ frequency s <= duration_ms (now - t)).

Lemma duration_mono a b : a <= b -> duration_ms a <= duration_ms b.
Proof. intros. apply Z.quot_le_mono; lia. Qed.

Lemma find_filter (P : K * Z -> Prop) `{forall x, Decision (P x)} key m :
  OrdMap.sorted m ->
  OrdMap.find key (filter P m) = match OrdMap.find key m with Some v => if decide (P (key, v)) then Some v else None | None => None end.
Proof.
  intros Hs. induction m as [|[k v] m IH]; [done|]. apply OrdMap.sorted_cons in Hs as [Hs Hf].
  rewrite filter_cons. cbn [OrdMap.find]. destruct (OrdMap.keqb key k) eqn:E.
  - apply OrdMap.keqb_spec in E as ->. case_decide; cbn [OrdMap.find]; [by rewrite OrdMap.keqb_refl|].
    rewrite IH by done. by rewrite OrdMap.find_None_below.
  - case_decide; cbn [OrdMap.find]; rewrite ?E; by apply IH.
Qed.

Definition throttle_ok (s : FrequencyThrottle) : Prop :=
  OrdMap.sorted (mapLastTime s) /\ staleDuration s = frequency s + 5000.
Definition step (c : call) (s : FrequencyThrottle) : FrequencyThrottle :=
  match c with
  | c_monitor key now => snd (Monitor key now s)
  | c_stale now => RemoveStaleKeys now s
  | c_touch key now => Touch key now s
  end.

Lemma sorted_filter (P : K * Z -> Prop) `{forall x, Decision (P x)} m :
  OrdMap.sorted m -> OrdMap.sorted (filter P m).
Proof.
  induction m as [|[k v] m IH]; intros Hs; [done|]. apply OrdMap.sorted_cons in Hs as [Hs Hf].
  rewrite filter_cons. case_decide; [|by apply IH]. apply OrdMap.sorted_cons. split; [by apply IH|].
  rewrite Forall_forall in Hf |- *. intros x Hx. apply Hf. apply list_elem_of_fmap in Hx as (y & -> & Hy).
  apply list_elem_of_filter in Hy as [_ Hy]. by apply list_elem_of_fmap_2.
Qed.

Lemma throttle_step_ok c s : throttle_ok s -> throttle_ok (step c s) /\ frequency (step c s) = frequency s.
Proof.
  intros [Hs Hd]. destruct c as [key now|now|key now]; cbn [step].
  - unfold Monitor. destruct (OrdMap.find _ _); [destruct (_ <=? _)|]; cbn; try (split; [split|]; done);
      (split; [split|]; [by apply OrdMap.sorted_insert|done|done]).
  - split; [split|]; [by apply sorted_filter|done|done].
  - unfold Touch. destruct (OrdMap.find _ _); [|done]. split; [split|]; [by apply OrdMap.sorted_insert|done|done].
Qed.

Lemma find_insert_time key key' now (m : list (K * Z)) t last :
  OrdMap.find key m = Some last -> t <= last <= now ->
  exists last', OrdMap.find key (OrdMap.insert key' now m) = Some last' /\ t <= last' <= now.
Proof.
  intros Hf Ht. rewrite OrdMap.find_insert. destruct (OrdMap.keqb key key'); eauto with lia.
Qed.

Lemma remembers_step c key t now s :
  throttle_ok s -> remembers key t now s -> now <= call_time c -> remembers key t (call_time c) (step c s).
Proof.
  intros Hok [Htn Hr] Hc. pose proof (throttle_step_ok c s Hok) as [_ Hfreq]. split; [lia|]. rewrite Hfreq.
  destruct Hr as [(last & Hf & Hl)|Hr].
  2: { right. etrans; [exact Hr|]. apply duration_mono. lia. }
  destruct Hok as [Hs Hd]. destruct c as [key' now'|now'|key' now']; cbn [step call_time] in *.
  - left. unfold Monitor. destruct (OrdMap.find key' (mapLastTime s)) as [l'|];
      [destruct (_ <=? _)|]; cbn; try (eapply find_insert_time; [exact Hf|lia]). eauto with lia.
  - cbn. rewrite find_filter, Hf by done. cbn [snd]. case_decide as Hd'; [left; eauto with lia|right].
    assert (staleDuration s <= duration_ms (now' - last)) as Hdur by lia. rewrite Hd in Hdur.
    pose proof (duration_mono (now' - last) (now' - t)). lia.
  - left. unfold Touch. destruct (OrdMap.find key' (mapLastTime s)) as [l'|]; [|eauto with lia].
    eapply find_insert_time; [exact Hf|lia].
Qed.

Lemma monitor_passes key t now now' s :
  remembers key t now s -> now <= now' -> fst (Monitor key now' s) = true ->
  frequency s <= duration_ms (now' - t).
Proof.
  intros [Htn [(last & Hf & Hl)|Hr]] Hn Hm.
  - unfold Monitor in Hm. rewrite Hf in Hm. destruct (Z.leb_spec (frequency s) (duration_ms (now' - last))); [|done].
    pose proof (duration_mono (now' - last) (now' - t)). lia.
  - etrans; [exact Hr|]. apply duration_mono. lia.
Qed.

(** After a call that passed, the key is remembered. *)
Lemma monitor_remembers key now s :
  fst (Monitor key now s) = true -> remembers key now now (snd (Monitor key now s)).
Proof.
  intros Hm. split; [lia|]. left. exists now. split; [|lia]. unfold Monitor in *.
  destruct (OrdMap.find key (mapLastTime s)); [destruct (_ <=? _)|]; try done;
    cbn; by rewrite OrdMap.find_insert, OrdMap.keqb_refl.
Qed.

Lemma run_spacing cs : forall s now key t,
  throttle_ok s -> ascending now cs -> remembers key t now s ->
  Forall (fun p => fst p = key -> frequency s <= duration_ms (snd p - t)) (snd (run cs s)).
Proof.
  induction cs as [|c cs IH]; intros s now key t Hok Hasc Hr; [constructor|]. destruct Hasc as [Hn Hasc].
  pose proof (remembers_step c key t now s Hok Hr Hn) as Hr'. destruct (throttle_step_ok c s Hok) as [Hok' Hfreq].
  specialize (IH (step c s) (call_time c) key t Hok' Hasc Hr'). rewrite Hfreq in IH.
  destruct c as [key' now'|now'|key' now']; cbn [step call_time run] in *; [|exact IH|exact IH].
  pose proof (monitor_passes key t now now' s Hr Hn) as Hp.
  destruct (Monitor key' now' s) as [b s'] eqn:Em. cbn [snd] in IH. destruct (run cs s') as [s2 passed].
  destruct b; [|exact IH]. constructor; [|exact IH]. cbn. intros ->. apply Hp. by rewrite Em.
Qed.

(** Whatever keys come in between, are touched or are removed as stale, two
    calls that return true for the same key are at least the throttle's
    interval apart, as long as the clock does not go back. *)
Theorem throttle_spacing f cs now :
  ascending now cs ->
  ForallOrdPairs (fun p q => fst p = fst q -> f <= duration_ms (snd q - snd p))
    (snd (run cs (FrequencyThrottle_new f))).
Proof.
  enough (forall s, throttle_ok s -> ascending now cs ->
    ForallOrdPairs (fun p q => fst p = fst q -> frequency s <= duration_ms (snd q - snd p)) (snd (run cs s))) as Hgen.
  { intros Ha. apply (Hgen (FrequencyThrottle_new f)); [|done]. split; [apply OrdMap.sorted_nil|done]. }
  revert now. induction cs as [|c cs IH]; intros now s Hok Ha; [constructor|]. destruct Ha as [Hn Hasc].
  destruct (throttle_step_ok c s Hok) as [Hok' Hfreq]. specialize (IH (call_time c) (step c s) Hok' Hasc). rewrite Hfreq in IH.
  destruct c as [key now'|now'|key now']; cbn [step call_time run] in *; [|exact IH|exact IH].
  pose proof (monitor_remembers key now' s) as Hm.
  pose proof (fun Hr => run_spacing cs (snd (Monitor key now' s)) now' key now' Hok' Hasc Hr) as Hsp.
  rewrite Hfreq in Hsp. destruct (Monitor key now' s) as [b s']. cbn [fst snd] in *.
  destruct (run cs s') as [s2 passed]. destruct b; [|exact IH]. constructor; [|exact IH].
  eapply Forall_impl; [by apply Hsp, Hm|]. cbn. intros p Hp Hk. by apply Hp.
Qed.
End throttle.

Lemma throttle_spacing_witness :
  snd (run (K := Z) [c_monitor 1 0; c_monitor 2 5000000; c_monitor 1 50000000; c_monitor 1 100000000]
         (FrequencyThrottle_new 100)) = [(1, 0); (2, 5000000); (1, 100000000)]
  /\ ForallOrdPairs (fun p q => fst p = fst q -> 100 <= duration_ms (snd q - snd p))
       (snd (run (K := Z) [c_monitor 1 0; c_monitor 1 50000000; c_monitor 1 100000000] (FrequencyThrottle_new 100))).
Proof. split; [reflexivity|]. apply (throttle_spacing 100 _ 0). cbn. lia. Defined.
End Throttle.

(** * Base 64

    Bytes and characters are numbers; a text is the list of its characters. *)
Module Base64.
Fixpoint codes (s : string) : list Z :=
  match s with EmptyString => [] | String c s => Z.of_N (N_of_ascii c) :: codes s end.
Definition base64_chars : list Z :=
  codes "ABCDEFGHIJKLMNOPQRSTUVWXYZabcdefghijklmnopqrstuvwxyz0123456789+/".
Definition equals_sign : Z := 61.

Definition IsBase64 (c : Z) : bool :=
  ((65 <=? c) && (c <=? 90)) || ((97 <=? c) && (c <=? 122)) || ((48 <=? c) && (c <=? 57))
  || (c =? 43) || (c =? 47).
Definition char_at (i : Z) : Z := base64_chars !!! Z.to_nat i.
Fixpoint index_from (i : Z) (c : Z) (l : list Z) : Z :=
  match l with [] => -1 | x :: l => if x =? c then i else index_from (i + 1) c l end.
(** [find], as an unsigned character. *)
Definition find (c : Z) : Z := u8 (index_from 0 c base64_chars).

Definition encode3 (a b c : Z) : list Z :=
  [Z.shiftr (Z.land a 252) 2;
   Z.shiftl (Z.land a 3) 4 + Z.shiftr (Z.land b 240) 4;
   Z.shiftl (Z.land b 15) 2 + Z.shiftr (Z.land c 192) 6;
   Z.land c 63].
(** What is left over: one or two bytes, padded with zeros. *)
Definition encode_rest (buf : list Z) : list Z :=
  match buf with
  | [a] => map char_at (take 2 (encode3 a 0 0)) ++ [equals_sign; equals_sign]
  | [a; b] => map char_at (take 3 (encode3 a b 0)) ++ [equals_sign]
  | _ => []
  end.
(** [buf] is the bytes collected so far. *)
Fixpoint encode_loop (buf : list Z) (bytes : list Z) : list Z :=
  match bytes with
  | [] => encode_rest buf
  | c :: bytes =>
      match buf with
      | [a; b] => map char_at (encode3 a b c) ++ encode_loop [] bytes
      | _ => encode_loop (buf ++ [c]) bytes
      end
  end.
Definition Encode (bytes : list Z) : list Z := encode_loop [] bytes.

Definition decode0 (a b : Z) : Z := u8 (Z.shiftl a 2 + Z.shiftr (Z.land b 48) 4).
Definition decode1 (b c : Z) : Z := u8 (Z.shiftl (Z.land b 15) 4 + Z.shiftr (Z.land c 60) 2).
Definition decode2 (c d : Z) : Z := u8 (Z.shiftl (Z.land c 3) 6 + d).
Definition decode_rest (buf : list Z) : list Z :=
  match buf with
  | [a; b] => [decode0 (find a) (find b)]
  | [a; b; c] => [decode0 (find a) (find b); decode1 (find b) (find c)]
  | _ => []
  end.
Fixpoint decode_loop (buf : list Z) (text : list Z) : list Z :=
  match text with
  | [] => decode_rest buf
  | d :: text =>
      if (d =? equals_sign) || negb (IsBase64 d) then decode_rest buf
      else match buf with
           | [a; b; c] =>
               [decode0 (find a) (find b); decode1 (find b) (find c); decode2 (find c) (find d)]
               ++ decode_loop [] text
           | _ => decode_loop (buf ++ [d]) text
           end
  end.
Definition Decode (text : list Z) : list Z := decode_loop [] text.

(** ** The round trip *)
Definition is_byte (v : Z) : Prop := 0 <= v < 256.

Lemma by_enumeration (n : nat) (f g : Z -> Z) :
  forallb (fun i => f (Z.of_nat i) =? g (Z.of_nat i)) (seq 0 n) = true ->
  forall v, 0 <= v < Z.of_nat n -> f v = g v.
Proof.
  intros H v Hv. rewrite forallb_forall in H. specialize (H (Z.to_nat v)).
  rewrite Z2Nat.id in H by lia. apply Z.eqb_eq, H, in_seq. lia.
Qed.

Ltac enumerate n v :=
  pattern v; match goal with |- (fun x => @?f x = @?g x) v => apply (by_enumeration n f g) end;
  [vm_compute; reflexivity|unfold is_byte in *; lia].

Lemma encode3_arith a b c : is_byte a -> is_byte b -> is_byte c ->
  encode3 a b c = [a / 4; a mod 4 * 16 + b / 16; b mod 16 * 4 + c / 64; c mod 64].
Proof.
  intros Ha Hb Hc. unfold encode3.
  assert (Z.shiftr (Z.land a 252) 2 = a / 4) as -> by enumerate 256%nat a.
  assert (Z.shiftl (Z.land a 3) 4 = a mod 4 * 16) as -> by enumerate 256%nat a.
  assert (Z.shiftr (Z.land b 240) 4 = b / 16) as -> by enumerate 256%nat b.
  assert (Z.shiftl (Z.land b 15) 2 = b mod 16 * 4) as -> by enumerate 256%nat b.
  assert (Z.shiftr (Z.land c 192) 6 = c / 64) as -> by enumerate 256%nat c.
  by assert (Z.land c 63 = c mod 64) as -> by enumerate 256%nat c.
Qed.

Lemma char_at_spec v : 0 <= v < 64 ->
  find (char_at v) = v /\ ((char_at v =? equals_sign) || negb (IsBase64 (char_at v))) = false.
Proof.
  intros Hv. split; [enumerate 64%nat v|].
  assert ((if (char_at v =? equals_sign) || negb (IsBase64 (char_at v)) then 1 else 0) = 0) as H by enumerate 64%nat v.
  by destruct (_ || _).
Qed.

Lemma find_char v : 0 <= v < 64 -> find (char_at v) = v.
Proof. intros Hv. by apply char_at_spec. Qed.
Lemma char_valid v : 0 <= v < 64 -> ((char_at v =? equals_sign) || negb (IsBase64 (char_at v))) = false.
Proof. intros Hv. by apply char_at_spec. Qed.

Lemma decode0_arith v w : 0 <= v < 64 -> 0 <= w < 64 -> decode0 v w = v * 4 + w / 16.
Proof.
  intros Hv Hw. unfold decode0. rewrite Z.shiftl_mul_pow2 by lia.
  assert (Z.shiftr (Z.land w 48) 4 = w / 16) as -> by enumerate 64%nat w.
  apply u8_small. pose proof (Z.div_lt_upper_bound w 16 4). pose proof (Z.div_pos w 16). lia.
Qed.
Lemma decode1_arith v w : 0 <= v < 64 -> 0 <= w < 64 -> decode1 v w = v mod 16 * 16 + w / 4.
Proof.
  intros Hv Hw. unfold decode1.
  assert (Z.shiftl (Z.land v 15) 4 = v mod 16 * 16) as -> by enumerate 64%nat v.
  assert (Z.shiftr (Z.land w 60) 2 = w / 4) as -> by enumerate 64%nat w.
  apply u8_small. pose proof (Z.mod_pos_bound v 16). pose proof (Z.div_lt_upper_bound w 4 16).
  pose proof (Z.div_pos w 4). lia.
Qed.
Lemma decode2_arith v w : 0 <= v < 64 -> 0 <= w < 64 -> decode2 v w = v mod 4 * 64 + w.
Proof.
  intros Hv Hw. unfold decode2.
  assert (Z.shiftl (Z.land v 3) 6 = v mod 4 * 64) as -> by enumerate 64%nat v.
  apply u8_small. pose proof (Z.mod_pos_bound v 4). lia.
Qed.

(** The four numbers of three bytes. *)
Lemma sextets a b c : is_byte a -> is_byte b -> is_byte c ->
  exists v0 v1 v2 v3, encode3 a b c = [v0; v1; v2; v3]
  /\ (0 <= v0 < 64 /\ 0 <= v1 < 64 /\ 0 <= v2 < 64 /\ 0 <= v3 < 64)
  /\ decode0 v0 v1 = a /\ decode1 v1 v2 = b /\ decode2 v2 v3 = c.
Proof.
  intros Ha Hb Hc. rewrite encode3_arith by done. unfold is_byte in *.
  do 4 eexists. split; [reflexivity|].
  assert (0 <= a / 4 < 64 /\ 0 <= a mod 4 * 16 + b / 16 < 64 /\ 0 <= b mod 16 * 4 + c / 64 < 64 /\ 0 <= c mod 64 < 64)
    as (H0 & H1 & H2 & H3) by (Z.div_mod_to_equations; lia).
  split; [done|]. rewrite decode0_arith, decode1_arith, decode2_arith by done.
  clear -Ha Hb Hc. Z.div_mod_to_equations. lia.
Qed.

Lemma decode_step v buf text : 0 <= v < 64 -> length buf <> 3%nat ->
  decode_loop buf (char_at v :: text) = decode_loop (buf ++ [char_at v]) text.
Proof.
  intros Hv Hb. cbn [decode_loop]. destruct (char_at_spec v Hv) as [_ ->].
  destruct buf as [|? [|? [|? [|? buf]]]]; try done.
Qed.

Lemma equals_ends buf text : decode_loop buf (equals_sign :: text) = decode_rest buf.
Proof. done. Qed.

(** Decoding what was encoded gives the bytes back, whatever their number. *)
Theorem base64_roundtrip bytes : Forall is_byte bytes -> Decode (Encode bytes) = bytes.
Proof.
  unfold Decode, Encode. remember (length bytes) as n eqn:En. revert bytes En.
  induction n as [n IH] using lt_wf_ind. intros bytes En Hb.
  assert (is_byte 0) as H0 by by split.
  destruct bytes as [|a [|b [|c bytes]]]; cbn [length] in En.
  - done.
  - inversion Hb as [|? ? Ha _]; subst. destruct (sextets a 0 0 Ha H0 H0) as (v0 & v1 & v2 & v3 & E & (?&?&?&?) & D0 & _).
    cbn [encode_loop app encode_rest]. rewrite E. cbn [take map app]. rewrite !decode_step by (done || lia). cbn [app].
    rewrite equals_ends. cbn [decode_rest]. by rewrite !find_char, D0 by lia.
  - inversion Hb as [|? ? Ha Hb']; subst. inversion Hb' as [|? ? Hb2 _]; subst.
    destruct (sextets a b 0 Ha Hb2 H0) as (v0 & v1 & v2 & v3 & E & (?&?&?&?) & D0 & D1 & _).
    cbn [encode_loop app encode_rest]. rewrite E. cbn [take map app]. rewrite !decode_step by (done || lia). cbn [app].
    rewrite equals_ends. cbn [decode_rest]. by rewrite !find_char, D0, D1 by lia.
  - rewrite !Forall_cons in Hb. destruct Hb as (Ha & Hb & Hc & Hbs).
    destruct (sextets a b c Ha Hb Hc) as (v0 & v1 & v2 & v3 & E & (?&?&?&?) & D0 & D1 & D2).
    cbn [encode_loop app]. rewrite E. cbn [map app]. rewrite !decode_step by (done || lia). cbn [app decode_loop].
    rewrite char_valid by lia. rewrite !find_char, D0, D1, D2 by lia.
    cbn [app]. by rewrite (IH (length bytes)) by (done || lia).
Qed.

Lemma base64_roundtrip_witness : Encode [77; 97] = codes "TWE=" /\ Decode (Encode [77; 97]) = [77; 97].
Proof. split; [reflexivity|]. apply base64_roundtrip. repeat (constructor; [by split|]). constructor. Defined.
End Base64.
