(* ===== verification/RtcmData.v ===== *)
(** The bit fields and words of RTCM messages
    ([src/src/tmx/Messages/include/rtcm/RtcmTypes.h] and [RtcmDataManager.h]). The
    templates over a number of bits are functions of it; a list of attributes is a
    list of their types, or of types and values. *)
From S2P Require Import Prelude.
Open Scope Z_scope.

Module RtcmTypes.

(** [traits<Size, T>]: the number of bits and whether the container is signed. *)
Record traits := mkTraits { size : Z; is_signed : bool }.
Definition uint (n : Z) : traits := mkTraits n false.
Definition int (n : Z) : traits := mkTraits n true.
(** The bits of the integer that stores [n] bits. *)
Definition int_container (n : Z) : Z := if n <? 17 then 16 else if n <? 33 then 32 else 64.
(** Conversion to the [data_type]. *)
Definition to_data (t : traits) (v : Z) : Z :=
  if is_signed t then wraps (int_container (size t)) v else wrapu (int_container (size t)) v.
Definition bitmask (t : traits) : Z := to_data t (Z.ones (size t)).

Definition addSign (t : traits) (value : Z) : Z :=
  if is_signed t then
    if value <? 0 then to_data t (value `mod` 2 ^ size t)
    else if negb (Z.shiftr value (size t - 1) =? 0)
    then to_data t (-1 * Z.land (Z.lnot value + 1) (bitmask t))
    else value
  else value.

(** The bits of a byte in the reverse order. *)
Definition rollByte (t : traits) (byte : Z) : Z :=
  foldr (fun i val =>
    let shift := size t - i - 1 in
    if Z.land byte (Z.shiftl 1 shift) =? Z.shiftl 1 shift then Z.lor val (Z.shiftl 1 i) else val)
    0 (seqZ 0 (size t)).

(** [bits] is the width of the type of [value]. *)
Definition combineWord (bits : Z) (t : traits) (word value : Z) : Z :=
  Z.lor (if 0 <? value then wrapu bits (Z.shiftl value (size t)) else value) (Z.land word (bitmask t)).
Definition splitWord (t : traits) (value pos : Z) : Z :=
  Z.land (Z.shiftr value (size t * pos)) (bitmask t).

Definition get_Bit (t : traits) (n : Z) (word : Z) : Z := Z.land (Z.shiftr word (size t - n)) 1.
Fixpoint xor_bits (t : traits) (bits : list Z) (word : Z) : Z :=
  match bits with
  | [] => 0
  | [bit] => get_Bit t bit word
  | bit :: OtherBits => Z.lxor (get_Bit t bit word) (xor_bits t OtherBits word)
  end.

(** ** Lemmas *)
Lemma land_shiftl_low n a b : 0 <= n -> 0 <= a < 2 ^ n -> Z.land (Z.shiftl b n) a = 0.
Proof.
  intros Hn Ha. apply Z.bits_inj'. intros i Hi. rewrite Z.land_spec, Z.bits_0.
  destruct (Z.lt_ge_cases i n).
  - by rewrite Z.shiftl_spec_low.
  - rewrite <-(Z.mod_small a (2 ^ n)), Z.mod_pow2_bits_high by lia. apply andb_false_r.
Qed.
Lemma lxor_shiftl_add n a b : 0 <= n -> 0 <= a < 2 ^ n -> Z.lxor (Z.shiftl b n) a = b * 2 ^ n + a.
Proof.
  intros. rewrite <-Z.add_nocarry_lxor by by apply land_shiftl_low. by rewrite Z.shiftl_mul_pow2 by lia.
Qed.
Lemma lor_shiftl_add n a b : 0 <= n -> 0 <= a < 2 ^ n -> Z.lor (Z.shiftl b n) a = b * 2 ^ n + a.
Proof. intros. rewrite <-Z.lxor_lor by by apply land_shiftl_low. by apply lxor_shiftl_add. Qed.
Lemma shiftr_pack n a b : 0 <= n -> 0 <= a < 2 ^ n -> Z.shiftr (b * 2 ^ n + a) n = b.
Proof. intros. rewrite Z.shiftr_div_pow2, Z.div_add_l, Z.div_small by lia. lia. Qed.

Lemma pack_bound a b n s : 0 <= n -> 0 <= s -> 0 <= a < 2 ^ s -> 0 <= b < 2 ^ n -> 0 <= a * 2 ^ n + b < 2 ^ (s + n).
Proof.
  intros. rewrite Z.pow_add_r by lia.
  assert ((a + 1) * 2 ^ n <= 2 ^ s * 2 ^ n) by (apply Z.mul_le_mono_nonneg_r; lia). nia.
Qed.

(** The bits that stand for a value, and the values a type can carry. The signed
    types that fill their container are left out: see [addSign_full]. *)
Definition raw (t : traits) (v : Z) : Z := if is_signed t then v `mod` 2 ^ size t else v.
Definition fits (t : traits) (v : Z) : Prop :=
  0 < size t <= 40 /\
  if is_signed t then size t <> 16 /\ size t <> 32 /\ - 2 ^ (size t - 1) <= v < 2 ^ (size t - 1)
  else 0 <= v < 2 ^ size t.

Lemma size_pow t : 0 < size t -> 2 ^ size t = 2 * 2 ^ (size t - 1).
Proof. intros. rewrite <-Z.pow_succ_r by lia. f_equal. lia. Qed.
Lemma raw_range t v : fits t v -> 0 <= raw t v < 2 ^ size t.
Proof.
  intros [Hs Hv]. unfold raw. destruct (is_signed t); [|done]. apply Z.mod_pos_bound. lia.
Qed.
Lemma to_data_small t v : fits t v -> 0 <= raw t v < 2 ^ size t -> to_data t (raw t v) = raw t v.
Proof.
  intros [Hs Hv] Hr. unfold to_data.
  assert (2 ^ size t <= 2 ^ (int_container (size t) - if is_signed t then 1 else 0)) as Hle.
  { apply Z.pow_le_mono_r; [lia|]. unfold int_container. repeat case_if; destruct (is_signed t); lia. }
  destruct (is_signed t).
  - apply wraps_small; [unfold int_container; repeat case_if; lia|]. lia.
  - apply wrapu_small. rewrite Z.sub_0_r in Hle. lia.
Qed.
Lemma bitmask_ones t v : fits t v -> bitmask t = Z.ones (size t).
Proof.
  intros [Hs Hv]. unfold bitmask.
  assert (fits t (if is_signed t then -1 else Z.ones (size t)) /\
          raw t (if is_signed t then -1 else Z.ones (size t)) = Z.ones (size t)) as [F E].
  { unfold fits, raw. rewrite Z.ones_equiv.
    assert (0 < 2 ^ (size t - 1)) by (apply Z.pow_pos_nonneg; lia). rewrite size_pow by lia.
    destruct (is_signed t); split_all; try lia.
    symmetry. apply (Z.mod_unique _ _ (-1)); lia. }
  rewrite <-E at 1. rewrite to_data_small; [done..|by apply raw_range].
Qed.

Lemma signed_raw n v : 0 < n -> - 2 ^ (n - 1) <= v < 2 ^ (n - 1) ->
  v `mod` 2 ^ n = if v <? 0 then v + 2 ^ n else v.
Proof.
  intros Hn Hv. pose proof (size_pow (uint n) Hn) as E. cbn [size uint] in E.
  case_if; symmetry; [apply (Z.mod_unique _ _ (-1))|apply (Z.mod_unique _ _ 0)]; lia.
Qed.
Lemma addSign_raw t v : fits t v -> u64 (addSign t v) = raw t v.
Proof.
  intros Hf. pose proof (raw_range t v Hf) as Hr. pose proof (to_data_small t v Hf Hr) as Hd.
  destruct Hf as [Hs Hv]. unfold addSign, raw in *.
  assert (2 ^ size t <= 2 ^ 40) by (apply Z.pow_le_mono_r; lia).
  destruct (is_signed t).
  - destruct Hv as (_ & _ & Hv). pose proof (signed_raw _ _ (proj1 Hs) Hv) as E.
    assert (Z.shiftr v (size t - 1) =? 0 = true \/ v < 0) as Hshift.
    { destruct (Z.lt_ge_cases v 0); [by right|left].
      rewrite Z.shiftr_div_pow2, Z.div_small by lia. done. }
    case_if; [rewrite Hd|destruct Hshift as [->|]; [cbn|lia]; rewrite E in *];
      (apply u64_small; lia).
  - apply u64_small. lia.
Qed.
Lemma addSign_id t v : fits t v -> addSign t (to_data t (raw t v)) = v.
Proof.
  intros Hf. pose proof (raw_range t v Hf) as Hr. rewrite to_data_small by done.
  pose proof (bitmask_ones t v Hf) as Hm. destruct Hf as [Hs Hv]. unfold addSign, raw in *.
  destruct (is_signed t) eqn:Hsg; [|done]. destruct Hv as (H16 & H32 & Hv).
  pose proof (signed_raw _ _ (proj1 Hs) Hv) as E. pose proof (size_pow t (proj1 Hs)) as Hp.
  assert (v `mod` 2 ^ size t <? 0 = false) as -> by (apply Z.ltb_ge; lia).
  rewrite Z.shiftr_div_pow2 by lia. rewrite E in *. destruct (Z.ltb_spec v 0).
  - assert ((v + 2 ^ size t) `div` 2 ^ (size t - 1) = 1) as -> by (symmetry; apply (Z.div_unique _ _ _ (v + 2 ^ (size t - 1))); lia).
    cbn [Z.eqb negb]. rewrite Hm, Z.land_ones by lia.
    replace (Z.lnot (v + 2 ^ size t) + 1) with (- v + (-1) * 2 ^ size t) by (unfold Z.lnot; lia).
    rewrite Z.mod_add, Z.mod_small by lia.
    replace (-1 * - v) with v by lia. unfold to_data. rewrite Hsg. apply wraps_small.
    + unfold int_container. repeat case_if; lia.
    + assert (2 ^ (size t - 1) <= 2 ^ (int_container (size t) - 1)); [|lia].
      apply Z.pow_le_mono_r; [lia|]. unfold int_container. repeat case_if; lia.
  - rewrite Z.div_small by lia. done.
Qed.
End RtcmTypes.

Module RtcmDataManager.
Import RtcmTypes.

(** The template arguments and the roll mask of a manager. Its state, the buffer of
    words, is the argument [data] of the operations. *)
Record manager := mkManager { rtcm_word : traits; Byte : traits; mask : Z }.

Section manager.
Context (m : manager).

Definition wordSize : Z := size (rtcm_word m) `div` size (Byte m).
Definition countBits (ts : list traits) : Z := foldr (fun t n => size t + n) 0 ts.
Definition countWords (ts : list traits) : Z := countBits ts `div` (size (Byte m) * wordSize).
Definition data_bits : Z := int_container (size (rtcm_word m)).

Definition getData (word : Z) (data : list Z) : Z := default 0 (data !! Z.to_nat word).
Definition replaceData (word value : Z) (data : list Z) : list Z := <[Z.to_nat word := value]> data.
Definition eraseData (num : Z) (data : list Z) : list Z := drop (Z.to_nat num) data.
Definition loadWord (word : Z) (data : list Z) : list Z := data ++ [word].

(** ** Words and bytes *)
Definition roll (byte : Z) : Z := Z.lor (rollByte (Byte m) byte) (mask m).
Definition writeWord (word : Z) (bytes : list Z) : list Z :=
  let written := map (fun i => splitWord (Byte m) word (wordSize - i - 1)) (seqZ 0 wordSize) in
  bytes ++ (if 0 <? mask m then map roll written else written).
Definition unroll (byte : Z) : Z :=
  if (0 <? mask m) && (Z.land byte (mask m) =? mask m) then rollByte (Byte m) byte else byte.
Definition readWord (bytes : list Z) (pos : Z) : Z :=
  foldl (fun val byte => combineWord data_bits (Byte m) (unroll byte) val) 0
    (take (Z.to_nat wordSize) (drop (Z.to_nat pos) bytes)).
(** [None] is the exception of [checkAvailableWords]. *)
Definition retrieveData (numWords : Z) (data : list Z) : option (list Z) :=
  if Z.of_nat (length data) <? numWords then None
  else Some (foldl (fun bytes w => writeWord (getData w data) bytes) [] (seqZ 0 numWords)).
Definition loadData (bytes : list Z) (numWords : Z) (data : list Z) : list Z :=
  foldl (fun data i => loadWord (readWord bytes (i * wordSize)) data) data (seqZ 0 numWords).

(** ** Attributes *)
Fixpoint extractFrom (value bitCount : Z) (attrs : list (traits * Z)) : Z :=
  match attrs with
  | [] => value
  | (t, v) :: attrs =>
      let bitCount := bitCount - size t in
      extractFrom (Z.lor value (u64 (Z.shiftl (u64 (addSign t v)) bitCount))) bitCount attrs
  end.
Fixpoint assignFrom (value bitCount : Z) (ts : list traits) : list Z :=
  match ts with
  | [] => []
  | t :: ts =>
      let bitCount := bitCount - size t in
      addSign t (to_data t (Z.land (Z.shiftr value bitCount) (bitmask t))) :: assignFrom value bitCount ts
  end.

Definition extractWords (attrs : list (traits * Z)) : list Z :=
  let ts := map fst attrs in
  let numWords := countWords ts in
  let value := extractFrom 0 (countBits ts) attrs in
  map (fun w => splitWord (rtcm_word m) value (numWords - w - 1)) (seqZ 0 numWords).
Definition extractData (attrs : list (traits * Z)) : list Z :=
  foldl (fun bytes word => writeWord word bytes) [] (extractWords attrs).
Definition extractAllData (numWords : Z) (attrs : list (traits * Z)) (data : list Z) : option (list Z) :=
  let attrData := extractData attrs in
  match retrieveData numWords data with
  | None => None
  | Some wordData => Some (attrData ++ wordData)
  end.

(** The values of the attributes and the rest of the buffer. *)
Definition assignData (ts : list traits) (data : list Z) : option (list Z * list Z) :=
  let numWords := countWords ts in
  if Z.of_nat (length data) <? numWords then None
  else
    let value := foldl (fun value word => combineWord 64 (rtcm_word m) word value) 0
                   (take (Z.to_nat numWords) data) in
    Some (assignFrom value (countBits ts) ts, drop (Z.to_nat numWords) data).
Definition assignData_bytes (bytes : list Z) (ts : list traits) (data : list Z) : option (list Z * list Z) :=
  assignData ts (loadData bytes (countWords ts) data).

(** ** Lemmas *)
Definition values (attrs : list (traits * Z)) : list Z := map snd attrs.
Definition all_fit (attrs : list (traits * Z)) : Prop := Forall (fun a => fits a.1 a.2) attrs.
(** The bits of the attributes one after the other. *)
Fixpoint pack (attrs : list (traits * Z)) : Z :=
  match attrs with
  | [] => 0
  | (t, v) :: attrs => raw t v * 2 ^ countBits (map fst attrs) + pack attrs
  end.

Lemma countBits_nonneg attrs : all_fit attrs -> 0 <= countBits (map fst attrs).
Proof. unfold countBits. induction 1 as [|[t v] attrs [Hs _] _ IH]; cbn in *; lia. Qed.
Lemma pack_range attrs : all_fit attrs -> 0 <= pack attrs < 2 ^ countBits (map fst attrs).
Proof.
  induction 1 as [|[t v] attrs Hf Ha IH]; cbn [pack map fst countBits foldr] in *; [lia|].
  pose proof (raw_range t v Hf). pose proof (countBits_nonneg attrs Ha) as Hn. unfold countBits in Hn.
  destruct Hf as [Hs _]. by apply pack_bound; [lia..| |].
Qed.

Lemma extractFrom_pack attrs : all_fit attrs -> forall h,
  countBits (map fst attrs) <= 64 -> 
  extractFrom (h * 2 ^ countBits (map fst attrs)) (countBits (map fst attrs)) attrs
  = h * 2 ^ countBits (map fst attrs) + pack attrs.
Proof.
  induction 1 as [|[t v] attrs Hf Ha IH]; intros h Hn; cbn [extractFrom pack map fst countBits foldr] in *; [lia|].
  change (foldr _ 0 (map fst attrs)) with (countBits (map fst attrs)) in *.
  set (n := countBits (map fst attrs)) in *.
  pose proof (raw_range t v Hf) as Hr. pose proof (countBits_nonneg attrs Ha) as Hn0. fold n in Hn0.
  rewrite (addSign_raw t v Hf). destruct Hf as [Hsz _].
  replace (size t + n - size t) with n by lia. rewrite Z.shiftl_mul_pow2 by lia.
  assert (0 < 2 ^ n) by (apply Z.pow_pos_nonneg; lia).
  assert (0 <= raw t v * 2 ^ n + 0 < 2 ^ (size t + n)) as Hlt by (by apply pack_bound; lia).
  assert (2 ^ (size t + n) <= 2 ^ 64) by (apply Z.pow_le_mono_r; lia).
  rewrite u64_small by lia. rewrite <-(Z.shiftl_mul_pow2 h) by lia.
  rewrite lor_shiftl_add by lia. rewrite Z.pow_add_r by lia.
  replace (h * (2 ^ size t * 2 ^ n) + raw t v * 2 ^ n) with ((h * 2 ^ size t + raw t v) * 2 ^ n) by lia.
  rewrite IH by lia. rewrite Z.shiftl_mul_pow2, Z.pow_add_r by lia. lia.
Qed.

Lemma assignFrom_pack attrs : all_fit attrs -> forall h,
  assignFrom (h * 2 ^ countBits (map fst attrs) + pack attrs) (countBits (map fst attrs)) (map fst attrs)
  = values attrs.
Proof.
  induction 1 as [|[t v] attrs Hf Ha IH]; intros h; [done|].
  cbn [assignFrom pack map fst countBits foldr].
  change (foldr _ 0 (map fst attrs)) with (countBits (map fst attrs)) in *.
  set (n := countBits (map fst attrs)) in *.
  pose proof (raw_range t v Hf) as Hr. pose proof (pack_range attrs Ha) as Hp. fold n in Hp.
  pose proof (countBits_nonneg attrs Ha) as Hn0. fold n in Hn0.
  pose proof (addSign_id t v Hf) as Hid. pose proof (bitmask_ones t v Hf) as Hm. destruct Hf as [Hsz _]. cbn [fst] in Hsz.
  replace (size t + n - size t) with n by lia.
  replace (h * 2 ^ (size t + n) + (raw t v * 2 ^ n + pack attrs)) with ((h * 2 ^ size t + raw t v) * 2 ^ n + pack attrs)
    by (rewrite (Z.pow_add_r 2 (size t) n) by lia; lia).
  rewrite IH, shiftr_pack, Hm, Z.land_ones by lia.
  rewrite Z.add_comm, Z.mod_add, Z.mod_small, Hid by lia. done.
Qed.

End manager.

(** *** Values as lists of words *)
Lemma bitmask_unsigned t : is_signed t = false -> 0 < size t <= 40 -> bitmask t = Z.ones (size t).
Proof. intros Hs Ht. apply (bitmask_ones t 0). split; [done|]. rewrite Hs. split; [lia|]. apply Z.pow_pos_nonneg; lia. Qed.
Lemma splitWord_spec t value pos : is_signed t = false -> 0 < size t <= 40 -> 0 <= pos ->
  splitWord t value pos = (value `div` 2 ^ (size t * pos)) `mod` 2 ^ size t.
Proof.
  intros. unfold splitWord. rewrite bitmask_unsigned by done.
  by rewrite Z.land_ones, Z.shiftr_div_pow2 by nia.
Qed.
Lemma combineWord_spec bits t word value : is_signed t = false -> 0 < size t <= 40 ->
  0 <= value -> value * 2 ^ size t < 2 ^ bits -> 0 <= word < 2 ^ size t ->
  combineWord bits t word value = value * 2 ^ size t + word.
Proof.
  intros Hs Ht Hv Hb Hw. unfold combineWord. rewrite bitmask_unsigned, Z.land_ones, Z.mod_small by done || lia.
  case_if.
  - assert (Z.shiftl value (size t) = value * 2 ^ size t) as E' by (apply Z.shiftl_mul_pow2; lia).
    rewrite wrapu_small by lia. apply lor_shiftl_add; lia.
  - replace value with 0 by lia. rewrite Z.lor_0_l. lia.
Qed.

(** The words of a value, most significant first, and back. *)
Definition split_list (t : traits) (n : nat) (value : Z) : list Z :=
  map (fun w => splitWord t value (Z.of_nat n - w - 1)) (seqZ 0 (Z.of_nat n)).
Definition combine_list (bits : Z) (t : traits) (words : list Z) : Z :=
  foldl (fun value word => combineWord bits t word value) 0 words.

Lemma length_split_list t n value : length (split_list t n value) = n.
Proof. unfold split_list. rewrite length_map, length_seqZ. lia. Qed.
Lemma split_list_S t n value : is_signed t = false -> 0 < size t <= 40 ->
  split_list t (S n) value = split_list t n (value `div` 2 ^ size t) ++ [value `mod` 2 ^ size t].
Proof.
  intros Hs Ht. unfold split_list. rewrite seqZ_S, map_app. f_equal.
  - apply map_ext_in. intros w Hw. apply list_elem_of_In, elem_of_seqZ in Hw.
    rewrite !splitWord_spec by (done || lia).
    assert (0 < 2 ^ size t) by (apply Z.pow_pos_nonneg; lia).
    assert (0 < 2 ^ (size t * (Z.of_nat n - w - 1))) by (apply Z.pow_pos_nonneg; nia).
    rewrite Z.div_div, <-Z.pow_add_r by nia. do 3 f_equal. lia.
  - cbn. f_equal. rewrite splitWord_spec by (done || lia).
    replace (size t * _) with 0 by lia. by rewrite Z.pow_0_r, Z.div_1_r.
Qed.
Lemma split_list_range t n value : is_signed t = false -> 0 < size t <= 40 ->
  Forall (fun w => 0 <= w < 2 ^ size t) (split_list t n value).
Proof.
  intros Hs Ht. revert value. induction n as [|n IH]; intros value; [constructor|].
  rewrite split_list_S by done. apply Forall_app. split; [apply IH|].
  repeat constructor; apply Z.mod_pos_bound; lia.
Qed.
Lemma combine_list_snoc bits t words word :
  combine_list bits t (words ++ [word]) = combineWord bits t word (combine_list bits t words).
Proof. unfold combine_list. by rewrite foldl_app. Qed.

Lemma combine_split bits t n value : is_signed t = false -> 0 < size t <= 40 ->
  0 <= value < 2 ^ (size t * Z.of_nat n) -> 2 ^ (size t * Z.of_nat n) <= 2 ^ bits ->
  combine_list bits t (split_list t n value) = value.
Proof.
  intros Hs Ht. revert value. induction n as [|n IH]; intros value Hv Hb.
  - rewrite Z.mul_0_r in Hv. change (0 = value). lia.
  - replace (size t * Z.of_nat (S n)) with (size t * Z.of_nat n + size t) in * by lia.
    rewrite Z.pow_add_r in * by nia.
    assert (0 < 2 ^ size t) by (apply Z.pow_pos_nonneg; lia).
    assert (0 <= value `div` 2 ^ size t < 2 ^ (size t * Z.of_nat n)).
    { split; [apply Z.div_pos; lia|]. apply Z.div_lt_upper_bound; lia. }
    rewrite split_list_S, combine_list_snoc, IH by (done || nia).
    pose proof (Z.div_mod value (2 ^ size t) ltac:(lia)).
    pose proof (Z.mod_pos_bound value (2 ^ size t) ltac:(lia)).
    rewrite combineWord_spec by (done || lia). lia.
Qed.

Lemma countBits_app a b : countBits (a ++ b) = countBits a + countBits b.
Proof. unfold countBits. induction a as [|t a IH]; cbn in *; lia. Qed.
Lemma pack_app a b : all_fit a -> all_fit b -> pack (a ++ b) = pack a * 2 ^ countBits (map fst b) + pack b.
Proof.
  intros Ha Hb. induction Ha as [|[t v] a Hf Ha IH]; [done|]. cbn [app pack]. rewrite IH, map_app, countBits_app.
  rewrite Z.pow_add_r by (by apply countBits_nonneg). lia.
Qed.
Lemma split_list_app t n k x y : is_signed t = false -> 0 < size t <= 40 -> 0 <= y < 2 ^ (size t * Z.of_nat k) ->
  split_list t (n + k) (x * 2 ^ (size t * Z.of_nat k) + y) = split_list t n x ++ split_list t k y.
Proof.
  intros Hs Ht. revert y. induction k as [|k IH]; intros y Hy.
  - rewrite Nat.add_0_r, app_nil_r. rewrite Z.mul_0_r in *. f_equal. lia.
  - rewrite Nat.add_succ_r, !split_list_S by done. assert (0 < 2 ^ size t) by (apply Z.pow_pos_nonneg; lia).
    replace (size t * Z.of_nat (S k)) with (size t * Z.of_nat k + size t) in * by lia.
    rewrite Z.pow_add_r in * by nia. rewrite Z.mul_assoc, Z.div_add_l, (Z.add_comm _ y), Z.mod_add by lia.
    rewrite IH, app_assoc; [done|]. split; [apply Z.div_pos; lia|apply Z.div_lt_upper_bound; lia].
Qed.

(** *** Words

    From here on the widths are those of a real manager: a word is a whole number of
    bytes and fits 64 bits, both are unsigned, and rolling is inverted by reading. *)
Definition code (m : manager) (byte : Z) : Z := if 0 <? mask m then roll m byte else byte.
Class Codec (m : manager) : Prop := {
  word_unsigned : is_signed (rtcm_word m) = false;
  byte_unsigned : is_signed (Byte m) = false;
  word_size : size (rtcm_word m) = size (Byte m) * wordSize m;
  byte_size : 0 < size (Byte m) <= 8;
  word_small : 0 < size (rtcm_word m) <= 40;
  unroll_code b : 0 <= b < 2 ^ size (Byte m) -> unroll m (code m b) = b }.

Section codec.
Context (m : manager) {C : Codec m}.
Let Hwu := word_unsigned.
Let Hbu := byte_unsigned.
Let Hws := word_size.
Let Hbs := byte_size.
Let Hsm := word_small.

(** *** The bytes of a word *)
Definition is_word (w : Z) : Prop := 0 <= w < 2 ^ size (rtcm_word m).
Definition word_bytes (word : Z) : list Z := map (code m) (split_list (Byte m) (Z.to_nat (wordSize m)) word).

Lemma wordSize_pos : 0 < wordSize m.
Proof. nia. Qed.
Lemma writeWord_eq word bytes : writeWord m word bytes = bytes ++ word_bytes word.
Proof.
  pose proof wordSize_pos. unfold writeWord, word_bytes, split_list. f_equal. rewrite Z2Nat.id by lia.
  unfold code. destruct (0 <? mask m); [done|]. by rewrite map_id.
Qed.
Lemma length_word_bytes word : length (word_bytes word) = Z.to_nat (wordSize m).
Proof. unfold word_bytes. by rewrite length_map, length_split_list. Qed.

Lemma readWord_word_bytes pre word rest : is_word word ->
  readWord m (pre ++ word_bytes word ++ rest) (Z.of_nat (length pre)) = word.
Proof.
  intros Hw. pose proof wordSize_pos. unfold readWord. rewrite Nat2Z.id, drop_app_length.
  rewrite <-(length_word_bytes word), take_app_length. unfold word_bytes.
  assert (Forall (fun b => 0 <= b < 2 ^ size (Byte m)) (split_list (Byte m) (Z.to_nat (wordSize m)) word)) as Hr
    by (apply split_list_range; [done|lia]).
  rewrite <-(combine_split (data_bits m) (Byte m) (Z.to_nat (wordSize m)) word) at 2.
  - unfold combine_list. generalize 0. induction Hr as [|b l Hb Hl IH]; intros v; [done|].
    cbn [map foldl]. by rewrite unroll_code, IH.
  - done.
  - lia.
  - rewrite Z2Nat.id, <-word_size by lia. done.
  - rewrite Z2Nat.id, <-word_size by lia. apply Z.pow_le_mono_r; [lia|].
    unfold data_bits, int_container. repeat case_if; lia.
Qed.

Lemma foldl_writeWord words bytes :
  foldl (fun bytes word => writeWord m word bytes) bytes words = bytes ++ (words ≫= word_bytes).
Proof.
  revert bytes. induction words as [|w words IH]; intros bytes; cbn; [by rewrite app_nil_r|].
  by rewrite IH, writeWord_eq, app_assoc.
Qed.
Lemma length_words_bytes words : Z.of_nat (length (words ≫= word_bytes)) = wordSize m * Z.of_nat (length words).
Proof.
  pose proof wordSize_pos. induction words as [|w words IH]; cbn; [lia|].
  rewrite length_app, length_word_bytes. lia.
Qed.

(** Loading what was written. *)
Lemma loadData_written words rest data : Forall is_word words ->
  loadData m ((words ≫= word_bytes) ++ rest) (Z.of_nat (length words)) data = data ++ words.
Proof.
  intros Hw. unfold loadData.
  assert (forall n, (n <= length words)%nat ->
    foldl (fun data i => loadWord (readWord m ((words ≫= word_bytes) ++ rest) (i * wordSize m)) data) data (seqZ 0 (Z.of_nat n))
    = data ++ take n words) as H; [|by rewrite H, take_ge].
  induction n as [|n IH]; intros Hn; [by rewrite app_nil_r|].
  rewrite seqZ_S, foldl_app, IH by lia. cbn [foldl]. unfold loadWord.
  destruct (lookup_lt_is_Some_2 words n Hn) as [w Hl]. rewrite (take_S_r _ _ w) by done.
  rewrite app_assoc. do 2 f_equal. 
  rewrite <-(take_drop_middle words n w Hl) at 1. rewrite bind_app. cbn [mbind list_bind].
  rewrite <-!app_assoc.
  replace (0 + Z.of_nat n) with (Z.of_nat (length (take n words))) by (rewrite length_take; lia).
  rewrite Z.mul_comm, <-length_words_bytes. apply readWord_word_bytes.
  by eapply Forall_lookup_1.
Qed.
Lemma retrieveData_all data : retrieveData m (Z.of_nat (length data)) data = Some (data ≫= word_bytes).
Proof.
  unfold retrieveData. rewrite Z.ltb_irrefl. f_equal.
  trans (foldl (fun bytes w => writeWord m w bytes) [] ((fun w => getData w data) <$> seqZ 0 (Z.of_nat (length data))));
    [by rewrite foldl_fmap|].
  rewrite foldl_writeWord. cbn. f_equal. apply list_eq. intros i. rewrite list_lookup_fmap.
  destruct (decide (i < length data)%nat).
  - rewrite lookup_seqZ_lt by lia. cbn. unfold getData.
    replace (Z.to_nat (0 + Z.of_nat i)) with i by lia.
    destruct (lookup_lt_is_Some_2 data i) as [x ->]; done.
  - rewrite lookup_seqZ_ge by lia. cbn. by rewrite lookup_ge_None_2 by lia.
Qed.

(** Assigning what was extracted. *)
Definition whole_words (ts : list traits) : Prop :=
  countBits ts <= 64 /\ countBits ts = size (rtcm_word m) * countWords m ts /\ 0 <= countWords m ts.
Lemma extractWords_eq attrs : all_fit attrs -> whole_words (map fst attrs) ->
  extractWords m attrs = split_list (rtcm_word m) (Z.to_nat (countWords m (map fst attrs))) (pack attrs).
Proof.
  intros Hf (H64 & Hw & Hn). unfold extractWords, split_list. rewrite Z2Nat.id by lia.
  pose proof (extractFrom_pack attrs Hf 0 H64) as E. rewrite Z.mul_0_l, Z.add_0_l in E. by rewrite E.
Qed.
Lemma assign_extracted attrs rest : all_fit attrs -> whole_words (map fst attrs) ->
  assignData m (map fst attrs) (extractWords m attrs ++ rest) = Some (values attrs, rest).
Proof.
  intros Hf Hwhole. rewrite extractWords_eq by done. destruct Hwhole as (H64 & Hw & Hn).
  unfold assignData. set (l := split_list _ _ _).
  assert (length l = Z.to_nat (countWords m (map fst attrs))) as Hl by apply length_split_list.
  rewrite length_app. case_if; [lia|]. rewrite <-Hl, take_app_length, drop_app_length.
  fold (combine_list 64 (rtcm_word m) l). unfold l.
  pose proof (pack_range attrs Hf) as Hp.
  rewrite combine_split; [|done|lia|rewrite Z2Nat.id, <-Hw by lia; done|rewrite Z2Nat.id, <-Hw by lia; apply Z.pow_le_mono_r; lia].
  pose proof (assignFrom_pack attrs Hf 0) as E'. rewrite Z.mul_0_l, Z.add_0_l in E'. by rewrite E'.
Qed.
Lemma extractWords_words attrs : all_fit attrs -> whole_words (map fst attrs) -> Forall is_word (extractWords m attrs).
Proof. intros. rewrite extractWords_eq by done. apply split_list_range; done. Qed.
Lemma extractData_eq attrs : extractData m attrs = extractWords m attrs ≫= word_bytes.
Proof. unfold extractData. by rewrite foldl_writeWord. Qed.
Lemma length_extractWords attrs : length (extractWords m attrs) = Z.to_nat (countWords m (map fst attrs)).
Proof. unfold extractWords. by rewrite length_map, length_seqZ. Qed.
Lemma extractData_app a b : all_fit a -> all_fit b -> whole_words (map fst a) -> whole_words (map fst b) ->
  countBits (map fst a ++ map fst b) <= 64 ->
  extractData m (a ++ b) = extractData m a ++ extractData m b.
Proof.
  intros Ha Hb Hwa Hwb H64. rewrite !extractData_eq, <-bind_app. f_equal.
  assert (countWords m (map fst (a ++ b)) = countWords m (map fst a) + countWords m (map fst b)) as Hn.
  { destruct Hwa as (_ & Ea & _), Hwb as (_ & Eb & _). unfold countWords in *.
    rewrite map_app, countBits_app, Ea, Eb, <-Hws, <-Z.mul_add_distr_l, !(Z.mul_comm (size (rtcm_word m))), !Z.div_mul by lia.
    done. }
  rewrite !extractWords_eq; [|done..|by apply Forall_app|].
  - destruct Hwa as (_ & Ea & Ha0), Hwb as (_ & Eb & Hb0). rewrite Hn, Z2Nat.inj_add, pack_app by done.
    pose proof (pack_range b Hb) as Hr. rewrite Eb in *.
    destruct (Z_of_nat_complete _ Hb0) as [nb Enb]. rewrite Enb in *. rewrite Nat2Z.id. by apply split_list_app.
  - destruct Hwa as (_ & Ea & Ha0), Hwb as (_ & Eb & Hb0). split; [by rewrite map_app|].
    rewrite Hn. rewrite map_app, countBits_app. lia.
Qed.
Lemma assign_written attrs rest data : all_fit attrs -> whole_words (map fst attrs) -> data = [] ->
  assignData_bytes m (extractData m attrs ++ rest) (map fst attrs) data = Some (values attrs, []).
Proof.
  intros Hf Hw ->. unfold assignData_bytes. rewrite extractData_eq.
  destruct (Hw) as (_ & _ & Hn).
  replace (countWords m (map fst attrs)) with (Z.of_nat (length (extractWords m attrs))) by (rewrite length_extractWords; lia).
  rewrite loadData_written by (by apply extractWords_words). rewrite <-(app_nil_r ([] ++ _)).
  by apply assign_extracted.
Qed.
End codec.

(** A signed type that fills its container is not extracted by [addSign]: the sign
    goes over the attributes before it. No message of the repository has one. *)
Lemma addSign_full : extractFrom 0 24 [(uint 8, 0); (int 16, -1)] = 2 ^ 64 - 1.
Proof. reflexivity. Qed.
End RtcmDataManager.
