(* ===== verification/Rtcm3.v ===== *)
(** RTCM 3 messages ([src/src/tmx/Messages/include/rtcm/RTCM3.h]): the CRC-24Q and
    what it detects, and the frame of a message read from and written to bytes. *)
From S2P Require Import Prelude RtcmData.
Open Scope Z_scope.

(** * The checksum *)
Module Crc24q.
Import RtcmTypes.

Definition crc24q : list Z :=
  [0x00000000; 0x01864cfb; 0x028ad50d; 0x030c99f6; 0x0493e6e1; 0x0515aa1a;
   0x061933ec; 0x079f7f17; 0x08a18139; 0x0927cdc2; 0x0a2b5434; 0x0bad18cf;
   0x0c3267d8; 0x0db42b23; 0x0eb8b2d5; 0x0f3efe2e; 0x10c54e89; 0x11430272;
   0x124f9b84; 0x13c9d77f; 0x1456a868; 0x15d0e493; 0x16dc7d65; 0x175a319e;
   0x1864cfb0; 0x19e2834b; 0x1aee1abd; 0x1b685646; 0x1cf72951; 0x1d7165aa;
   0x1e7dfc5c; 0x1ffbb0a7; 0x200cd1e9; 0x218a9d12; 0x228604e4; 0x2300481f;
   0x249f3708; 0x25197bf3; 0x2615e205; 0x2793aefe; 0x28ad50d0; 0x292b1c2b;
   0x2a2785dd; 0x2ba1c926; 0x2c3eb631; 0x2db8faca; 0x2eb4633c; 0x2f322fc7;
   0x30c99f60; 0x314fd39b; 0x32434a6d; 0x33c50696; 0x345a7981; 0x35dc357a;
   0x36d0ac8c; 0x3756e077; 0x38681e59; 0x39ee52a2; 0x3ae2cb54; 0x3b6487af;
   0x3cfbf8b8; 0x3d7db443; 0x3e712db5; 0x3ff7614e; 0x4019a3d2; 0x419fef29;
   0x429376df; 0x43153a24; 0x448a4533; 0x450c09c8; 0x4600903e; 0x4786dcc5;
   0x48b822eb; 0x493e6e10; 0x4a32f7e6; 0x4bb4bb1d; 0x4c2bc40a; 0x4dad88f1;
   0x4ea11107; 0x4f275dfc; 0x50dced5b; 0x515aa1a0; 0x52563856; 0x53d074ad;
   0x544f0bba; 0x55c94741; 0x56c5deb7; 0x5743924c; 0x587d6c62; 0x59fb2099;
   0x5af7b96f; 0x5b71f594; 0x5cee8a83; 0x5d68c678; 0x5e645f8e; 0x5fe21375;
   0x6015723b; 0x61933ec0; 0x629fa736; 0x6319ebcd; 0x648694da; 0x6500d821;
   0x660c41d7; 0x678a0d2c; 0x68b4f302; 0x6932bff9; 0x6a3e260f; 0x6bb86af4;
   0x6c2715e3; 0x6da15918; 0x6eadc0ee; 0x6f2b8c15; 0x70d03cb2; 0x71567049;
   0x725ae9bf; 0x73dca544; 0x7443da53; 0x75c596a8; 0x76c90f5e; 0x774f43a5;
   0x7871bd8b; 0x79f7f170; 0x7afb6886; 0x7b7d247d; 0x7ce25b6a; 0x7d641791;
   0x7e688e67; 0x7feec29c; 0x803347a4; 0x81b50b5f; 0x82b992a9; 0x833fde52;
   0x84a0a145; 0x8526edbe; 0x862a7448; 0x87ac38b3; 0x8892c69d; 0x89148a66;
   0x8a181390; 0x8b9e5f6b; 0x8c01207c; 0x8d876c87; 0x8e8bf571; 0x8f0db98a;
   0x90f6092d; 0x917045d6; 0x927cdc20; 0x93fa90db; 0x9465efcc; 0x95e3a337;
   0x96ef3ac1; 0x9769763a; 0x98578814; 0x99d1c4ef; 0x9add5d19; 0x9b5b11e2;
   0x9cc46ef5; 0x9d42220e; 0x9e4ebbf8; 0x9fc8f703; 0xa03f964d; 0xa1b9dab6;
   0xa2b54340; 0xa3330fbb; 0xa4ac70ac; 0xa52a3c57; 0xa626a5a1; 0xa7a0e95a;
   0xa89e1774; 0xa9185b8f; 0xaa14c279; 0xab928e82; 0xac0df195; 0xad8bbd6e;
   0xae872498; 0xaf016863; 0xb0fad8c4; 0xb17c943f; 0xb2700dc9; 0xb3f64132;
   0xb4693e25; 0xb5ef72de; 0xb6e3eb28; 0xb765a7d3; 0xb85b59fd; 0xb9dd1506;
   0xbad18cf0; 0xbb57c00b; 0xbcc8bf1c; 0xbd4ef3e7; 0xbe426a11; 0xbfc426ea;
   0xc02ae476; 0xc1aca88d; 0xc2a0317b; 0xc3267d80; 0xc4b90297; 0xc53f4e6c;
   0xc633d79a; 0xc7b59b61; 0xc88b654f; 0xc90d29b4; 0xca01b042; 0xcb87fcb9;
   0xcc1883ae; 0xcd9ecf55; 0xce9256a3; 0xcf141a58; 0xd0efaaff; 0xd169e604;
   0xd2657ff2; 0xd3e33309; 0xd47c4c1e; 0xd5fa00e5; 0xd6f69913; 0xd770d5e8;
   0xd84e2bc6; 0xd9c8673d; 0xdac4fecb; 0xdb42b230; 0xdcddcd27; 0xdd5b81dc;
   0xde57182a; 0xdfd154d1; 0xe026359f; 0xe1a07964; 0xe2ace092; 0xe32aac69;
   0xe4b5d37e; 0xe5339f85; 0xe63f0673; 0xe7b94a88; 0xe887b4a6; 0xe901f85d;
   0xea0d61ab; 0xeb8b2d50; 0xec145247; 0xed921ebc; 0xee9e874a; 0xef18cbb1;
   0xf0e37b16; 0xf16537ed; 0xf269ae1b; 0xf3efe2e0; 0xf4709df7; 0xf5f6d10c;
   0xf6fa48fa; 0xf77c0401; 0xf842fa2f; 0xf9c4b6d4; 0xfac82f22; 0xfb4e63d9;
   0xfcd11cce; 0xfd575035; 0xfe5bc9c3; 0xffdd8538].
Definition get_HashVal (n : Z) : Z := crc24q !!! Z.to_nat n.
Definition crc_step (crc byte : Z) : Z :=
  Z.lxor (u32 (Z.shiftl crc 8)) (get_HashVal (Z.lxor byte (u8 (Z.shiftr crc 16)))).
Definition crc24q_hash (data : list Z) (len : Z) : Z :=
  Z.land (foldl crc_step 0 (take (Z.to_nat len) data)) 0xffffff.

(** ** Reference definition

    The remainder, bit by bit, of the division by the polynomial of the header
    ([CRCPOLY]). *)
Definition CRCPOLY : Z := 0x1864CFB.
Definition shift (c : Z) : Z :=
  let d := Z.shiftl c 1 in if Z.testbit d 24 then Z.lxor d CRCPOLY else d.
Definition bit_step (c : Z) (bit : bool) : Z := shift (Z.lxor c (if bit then 2 ^ 23 else 0)).
Definition remainder (c : Z) (bits : list bool) : Z := foldl bit_step c bits.
Definition byte_bits (b : Z) : list bool := map (Z.testbit b) [7; 6; 5; 4; 3; 2; 1; 0].
Definition bits_of (bytes : list Z) : list bool := bytes ≫= byte_bits.
Definition is_byte (b : Z) : Prop := 0 <= b < 256.

(** ** The register as a linear map *)
Definition reg (c : Z) : Prop := 0 <= c < 2 ^ 24.

Lemma lxor_range n a b : 0 <= n -> 0 <= a < 2 ^ n -> 0 <= b < 2 ^ n -> 0 <= Z.lxor a b < 2 ^ n.
Proof.
  intros Hn Ha Hb. split; [by apply Z.lxor_nonneg; lia|].
  assert (Z.lxor a b = Z.lxor a b `mod` 2 ^ n) as ->; [|apply Z.mod_pos_bound; lia].
  apply Z.bits_inj'. intros i Hi. destruct (Z.lt_ge_cases i n).
  - by rewrite Z.mod_pow2_bits_low.
  - rewrite Z.mod_pow2_bits_high, Z.lxor_spec by lia.
    rewrite <-(Z.mod_small a (2 ^ n)), <-(Z.mod_small b (2 ^ n)), !Z.mod_pow2_bits_high by lia. done.
Qed.
Lemma testbit_top n a : 0 <= n -> 0 <= a < 2 ^ (n + 1) -> Z.testbit a n = (2 ^ n <=? a).
Proof.
  intros Hn Ha. rewrite Z.testbit_odd, Z.shiftr_div_pow2 by lia.
  rewrite Z.pow_add_r in Ha by lia. destruct (Z.leb_spec (2 ^ n) a).
  - by replace (a `div` 2 ^ n) with 1 by (apply (Z.div_unique _ _ _ (a - 2 ^ n)); lia).
  - by rewrite Z.div_small by lia.
Qed.

Lemma shift_low c : 0 <= c < 2 ^ 23 -> shift c = Z.shiftl c 1.
Proof.
  intros Hc. unfold shift. rewrite Z.shiftl_spec, testbit_top by lia. case_if; [lia|done].
Qed.
Lemma shift_reg c : reg c -> reg (shift c).
Proof.
  intros Hc. unfold shift, reg in *. rewrite Z.shiftl_mul_pow2 by lia.
  rewrite testbit_top by lia. case_if; [|lia].
  assert (0 <= Z.lxor (c * 2 ^ 1) CRCPOLY < 2 ^ (24 + 1)) as Hr by (apply lxor_range; unfold CRCPOLY; lia).
  assert (Z.testbit (Z.lxor (c * 2 ^ 1) CRCPOLY) 24 = false) as Hb.
  { rewrite Z.lxor_spec, testbit_top by lia. apply Z.leb_le in E. by rewrite E. }
  rewrite testbit_top in Hb by lia. reflect_bools. lia.
Qed.
Lemma shift_lxor a b : shift (Z.lxor a b) = Z.lxor (shift a) (shift b).
Proof.
  unfold shift. rewrite Z.shiftl_lxor, Z.lxor_spec.
  set (x := Z.shiftl a 1). set (y := Z.shiftl b 1).
  destruct (Z.testbit x 24), (Z.testbit y 24); cbn [xorb]; apply Z.bits_inj'; intros i Hi;
    rewrite !Z.lxor_spec; destruct (Z.testbit x i), (Z.testbit y i), (Z.testbit CRCPOLY i); done.
Qed.
Lemma shift_0_inv c : reg c -> shift c = 0 -> c = 0.
Proof.
  intros Hc. unfold shift, reg in *. case_if.
  - intros H. assert (Z.testbit (Z.lxor (Z.shiftl c 1) CRCPOLY) 0 = false) as Hb by by rewrite H, Z.bits_0.
    rewrite Z.lxor_spec, Z.shiftl_spec_low in Hb by lia. done.
  - rewrite Z.shiftl_mul_pow2 by lia. lia.
Qed.

(** [shifts k c] is [k] shifts of the register. *)
Definition shifts (k : nat) (c : Z) : Z := Nat.iter k shift c.
Lemma shifts_S k c : shifts (S k) c = shifts k (shift c).
Proof. unfold shifts. induction k as [|k IH]; [done|]. cbn in *. by rewrite IH. Qed.
Lemma shifts_reg k c : reg c -> reg (shifts k c).
Proof. induction k as [|k IH]; intros Hc; [done|]. cbn. by apply shift_reg, IH. Qed.
Lemma shifts_lxor k a b : shifts k (Z.lxor a b) = Z.lxor (shifts k a) (shifts k b).
Proof.
  induction k as [|k IH]; [done|]. unfold shifts in *. rewrite !Nat.iter_succ.
  by rewrite IH, shift_lxor.
Qed.
Lemma shifts_0_inv k c : reg c -> shifts k c = 0 -> c = 0.
Proof.
  intros Hc. induction k as [|k IH]; [done|]. cbn. intros H. by apply IH, shift_0_inv, H; apply shifts_reg.
Qed.
Lemma shifts_low k c : 0 <= c < 2 ^ (24 - Z.of_nat k) -> shifts k c = Z.shiftl c (Z.of_nat k).
Proof.
  revert c. induction k as [|k IH]; intros c Hc; [by rewrite Z.shiftl_0_r|].
  assert (Z.of_nat k < 24) by (destruct (Z.lt_ge_cases (Z.of_nat k) 24); [done|]; rewrite Z.pow_neg_r in Hc by lia; lia).
  assert (2 ^ (24 - Z.of_nat k) = 2 * 2 ^ (24 - Z.of_nat (S k))) as E by (rewrite <-Z.pow_succ_r by lia; f_equal; lia).
  assert (2 ^ (24 - Z.of_nat k) <= 2 ^ 24) by (apply Z.pow_le_mono_r; lia).
  rewrite shifts_S, shift_low, IH, Z.shiftl_shiftl by (rewrite ?Z.shiftl_mul_pow2; lia). f_equal. lia.
Qed.

(** A run of at most 24 bits enters the register as if it had been there before. *)
Fixpoint bits_value (bits : list bool) : Z :=
  match bits with
  | [] => 0
  | b :: bits => Z.b2z b * 2 ^ Z.of_nat (length bits) + bits_value bits
  end.
Lemma bits_value_range bits : 0 <= bits_value bits < 2 ^ Z.of_nat (length bits).
Proof.
  induction bits as [|b bits IH]; cbn [bits_value length]; [done|].
  rewrite Nat2Z.inj_succ, Z.pow_succ_r by lia. destruct b; cbn [Z.b2z]; lia.
Qed.
Lemma remainder_short bits : (length bits <= 24)%nat -> forall c,
  remainder c bits = shifts (length bits) (Z.lxor c (Z.shiftl (bits_value bits) (24 - Z.of_nat (length bits)))).
Proof.
  induction bits as [|b bits IH]; intros Hl c; [cbn; by rewrite Z.lxor_0_r|].
  cbn [length] in Hl. pose proof (bits_value_range bits) as Hv. 
  cbn [length bits_value remainder foldl]. fold (remainder (bit_step c b) bits). rewrite IH by lia.
  rewrite shifts_S. f_equal. unfold bit_step.
  set (k := Z.of_nat (length bits)) in *. rewrite Nat2Z.inj_succ. fold k.
  assert (0 <= Z.shiftl (bits_value bits) (23 - k) < 2 ^ 23) as [? Hlt].
  { rewrite Z.shiftl_mul_pow2 by lia.
    replace (2 ^ 23) with (2 ^ k * 2 ^ (23 - k)) by (rewrite <-Z.pow_add_r by lia; f_equal; lia). nia. }
  assert (Z.shiftl (Z.b2z b * 2 ^ k + bits_value bits) (24 - Z.succ k)
          = Z.lxor (if b then 2 ^ 23 else 0) (Z.shiftl (bits_value bits) (23 - k))) as ->.
  { replace (24 - Z.succ k) with (23 - k) by lia. rewrite Z.shiftl_mul_pow2, Z.mul_add_distr_r by lia.
    rewrite <-Z.mul_assoc, <-Z.pow_add_r by lia. replace (k + (23 - k)) with 23 by lia.
    rewrite <-(Z.shiftl_mul_pow2 (bits_value bits)), <-lxor_shiftl_add by lia. by destruct b. }
  rewrite <-Z.lxor_assoc, (shift_lxor (Z.lxor _ _)). f_equal.
  rewrite shift_low by done. rewrite Z.shiftl_shiftl by lia. f_equal. lia.
Qed.

(** ** The table computes the remainder *)
Definition low24 (c : Z) : Z := Z.land c 0xffffff.
Lemma low24_mod c : low24 c = c `mod` 2 ^ 24.
Proof. unfold low24. by rewrite <-Z.land_ones. Qed.
Lemma low24_lxor a b : low24 (Z.lxor a b) = Z.lxor (low24 a) (low24 b).
Proof.
  unfold low24. apply Z.bits_inj'. intros i Hi. rewrite Z.lxor_spec, !Z.land_spec, Z.lxor_spec.
  by destruct (Z.testbit a i), (Z.testbit b i), (Z.testbit 16777215 i).
Qed.
Lemma bytes_ind (P : Z -> bool) : forallb P (seqZ 0 256) = true -> forall b, is_byte b -> P b = true.
Proof. intros H b Hb. by apply (below_ind 256). Qed.
Lemma table_entry n : is_byte n -> low24 (get_HashVal n) = shifts 8 (Z.shiftl n 16).
Proof.
  intros Hn. apply Z.eqb_eq. 
  apply (bytes_ind (fun n => low24 (get_HashVal n) =? shifts 8 (Z.shiftl n 16))); [vm_compute; reflexivity|done].
Qed.
Lemma byte_value b : is_byte b -> bits_value (byte_bits b) = b.
Proof.
  intros Hb. apply Z.eqb_eq. by apply (bytes_ind (fun b => bits_value (byte_bits b) =? b)); [vm_compute; reflexivity|].
Qed.

Lemma crc_step_low crc b : is_byte b -> low24 (crc_step crc b) = remainder (low24 crc) (byte_bits b).
Proof.
  intros Hb. rewrite remainder_short by (cbn; lia). rewrite byte_value by done. cbn [length byte_bits map].
  set (hi := u8 (Z.shiftr crc 16)). set (lo := crc `mod` 2 ^ 16).
  assert (0 <= hi < 2 ^ 8) as Hhi by (by apply wrapu_range). assert (0 <= lo < 2 ^ 16) as Hlo by (by apply Z.mod_pos_bound).
  assert (low24 crc = Z.lxor (Z.shiftl hi 16) lo) as ->.
  { rewrite low24_mod. unfold hi, wrapu. rewrite Z.shiftr_div_pow2 by lia.
    replace (2 ^ 24) with (2 ^ 16 * 2 ^ 8) by done. rewrite Z.rem_mul_r by lia. fold lo.
    rewrite lxor_shiftl_add by done. lia. }
  unfold crc_step. fold hi. rewrite low24_lxor, table_entry by (apply (lxor_range 8); [lia|done..]).
  rewrite Z.lxor_assoc, (Z.lxor_comm lo), <-Z.lxor_assoc, <-Z.shiftl_lxor.
  change (24 - Z.of_nat 8) with 16. rewrite shifts_lxor, (Z.lxor_comm b), Z.lxor_comm. f_equal.
  rewrite (shifts_low 8) by (cbn; lia). rewrite low24_mod. unfold wrapu. rewrite !Z.shiftl_mul_pow2 by lia.
  replace (2 ^ 32) with (2 ^ 24 * 2 ^ 8) by done. rewrite Z.mul_mod_distr_r by lia.
  replace (2 ^ 24) with (2 ^ 16 * 2 ^ 8) by done. rewrite Z.mul_mod_distr_r, Z.rem_mul_r by lia.
  by rewrite (Z.mul_comm (2 ^ 16)), Z.mod_add, Z.mod_mod by lia.
Qed.

Lemma foldl_crc_step data : Forall is_byte data -> forall crc,
  low24 (foldl crc_step crc data) = remainder (low24 crc) (bits_of data).
Proof.
  induction 1 as [|b data Hb Hd IH]; intros crc; [done|]. cbn [foldl]. rewrite IH, crc_step_low by done.
  unfold remainder, bits_of. cbn [mbind list_bind]. by rewrite foldl_app.
Qed.
Lemma hash_remainder data : Forall is_byte data ->
  crc24q_hash data (Z.of_nat (length data)) = remainder 0 (bits_of data).
Proof.
  intros Hd. unfold crc24q_hash. rewrite Nat2Z.id, take_ge by lia. apply (foldl_crc_step data Hd 0).
Qed.

(** ** Errors *)
Lemma remainder_app c l k : remainder c (l ++ k) = remainder (remainder c l) k.
Proof. apply foldl_app. Qed.
Lemma bit_step_reg c b : reg c -> reg (bit_step c b).
Proof. intros Hc. apply shift_reg, lxor_range; [lia|done|]. by destruct b. Qed.
Lemma remainder_reg l : forall c, reg c -> reg (remainder c l).
Proof. induction l as [|b l IH]; intros c Hc; [done|]. by apply (IH (bit_step c b)), bit_step_reg. Qed.
Lemma remainder_lxor l : forall k c d, length l = length k ->
  remainder (Z.lxor c d) (zip_with xorb l k) = Z.lxor (remainder c l) (remainder d k).
Proof.
  induction l as [|b l IH]; intros [|b' k] c d Hl; try done. injection Hl as Hl.
  unfold remainder in *. cbn. rewrite <-IH by done. f_equal. unfold bit_step. rewrite <-shift_lxor. f_equal.
  apply Z.bits_inj'. intros i Hi. rewrite !Z.lxor_spec.
  destruct b, b'; cbn; rewrite ?Z.bits_0; destruct (Z.testbit c i), (Z.testbit d i), (Z.testbit (2 ^ 23) i); done.
Qed.
Lemma remainder_zeros n : remainder 0 (replicate n false) = 0.
Proof. by induction n. Qed.
Lemma remainder_zeros_inv n : forall c, reg c -> remainder c (replicate n false) = 0 -> c = 0.
Proof.
  induction n as [|n IH]; intros c Hc H; [done|].
  apply shift_0_inv; [done|]. rewrite <-(Z.lxor_0_r c). apply (IH (bit_step c false)); [by apply bit_step_reg|done].
Qed.
Lemma bits_value_0 bits : bits_value bits = 0 -> Forall (fun b => b = false) bits.
Proof.
  induction bits as [|b bits IH]; intros H; [done|]. cbn in H. pose proof (bits_value_range bits).
  assert (0 < 2 ^ Z.of_nat (length bits)) by (apply Z.pow_pos_nonneg; lia).
  constructor; [destruct b; cbn in H; [lia|done]|]. apply IH. destruct b; cbn in H; lia.
Qed.
Lemma burst_remainder a burst b : (length burst <= 24)%nat -> true ∈ burst ->
  remainder 0 (replicate a false ++ burst ++ replicate b false) <> 0.
Proof.
  intros Hl Hin H. rewrite !remainder_app, remainder_zeros in H.
  apply remainder_zeros_inv in H; [|by apply remainder_reg; unfold reg].
  rewrite remainder_short, Z.lxor_0_l in H by done. pose proof (bits_value_range burst) as Hv.
  set (k := Z.of_nat (length burst)) in *. 
  assert (Z.shiftl (bits_value burst) (24 - k) = 0) as H0.
  { apply (shifts_0_inv (length burst)); [|done]. unfold reg. rewrite Z.shiftl_mul_pow2 by lia.
    replace (2 ^ 24) with (2 ^ k * 2 ^ (24 - k)) by (rewrite <-Z.pow_add_r by lia; f_equal; lia). nia. }
  apply Z.shiftl_eq_0_iff in H0; [|lia]. apply bits_value_0 in H0.
  rewrite Forall_forall in H0. by specialize (H0 true Hin).
Qed.

Lemma length_bits_of l : length (bits_of l) = (8 * length l)%nat.
Proof. induction l as [|b l IH]; [done|]. unfold bits_of in *. cbn [mbind list_bind]. rewrite length_app, IH. cbn. lia. Qed.
Lemma bits_of_inj l : forall k, Forall is_byte l -> Forall is_byte k -> bits_of l = bits_of k -> l = k.
Proof.
  induction l as [|x l IH]; intros [|y k] Hl Hk H; try done.
  apply Forall_cons in Hl as [Hx Hl]. apply Forall_cons in Hk as [Hy Hk].
  apply app_inj_1 in H as [H1 H2]; [|done]. f_equal; [|by apply IH].
  by rewrite <-(byte_value x), <-(byte_value y), H1.
Qed.
Lemma zip_with_false l n : n = length l -> zip_with xorb l (replicate n false) = l.
Proof. intros ->. induction l as [|b l IH]; [done|]. cbn. by rewrite IH, xorb_false_r. Qed.

(** ** A checksum at the end of its data *)
Lemma crc24q_hash_prefix d rest : Forall is_byte d ->
  crc24q_hash (d ++ rest) (Z.of_nat (length d)) = remainder 0 (bits_of d).
Proof.
  intros Hd. rewrite <-hash_remainder by done. unfold crc24q_hash. by rewrite Nat2Z.id, take_app_length, firstn_all.
Qed.
Lemma bits_value_app l k : bits_value (l ++ k) = bits_value l * 2 ^ Z.of_nat (length k) + bits_value k.
Proof.
  induction l as [|b l IH]; [done|]. cbn [app bits_value]. rewrite IH, length_app, Nat2Z.inj_add, Z.pow_add_r by lia. lia.
Qed.
Lemma bytes3_value a b c : is_byte a -> is_byte b -> is_byte c ->
  bits_value (bits_of [a; b; c]) = a * 2 ^ 16 + b * 2 ^ 8 + c.
Proof.
  intros Ha Hb Hc. unfold bits_of. cbn [mbind list_bind]. rewrite app_nil_r, !bits_value_app, !byte_value by done.
  cbn [length app byte_bits map]. lia.
Qed.
Lemma bits_of_app l k : bits_of (l ++ k) = bits_of l ++ bits_of k.
Proof. apply bind_app. Qed.
Lemma sealed c a b d : reg c -> is_byte a -> is_byte b -> is_byte d ->
  (a * 2 ^ 16 + b * 2 ^ 8 + d =? c) = (remainder c (bits_of [a; b; d]) =? 0).
Proof.
  intros Hc Ha Hb Hd. rewrite remainder_short, <-bytes3_value by (done || (cbn; lia)).
  set (v := bits_value _). assert (reg v) as Hv by apply (bits_value_range (bits_of [a; b; d])).
  change (length (bits_of [a; b; d])) with 24%nat. rewrite Z.shiftl_0_r. apply eq_true_iff_eq. rewrite !Z.eqb_eq. split.
  - intros ->. by rewrite Z.lxor_nilpotent.
  - intros H. apply shifts_0_inv in H; [|by apply lxor_range; [lia|..]]. symmetry. by apply Z.lxor_eq.
Qed.
End Crc24q.

(** * The message *)
Module Rtcm3.
Import RtcmTypes RtcmDataManager Crc24q.

(** The attributes, the words of the data manager [mgr], and the bytes and the
    flag of the base class [TmxRtcmMessage]. *)
Record RTCM3Message := mkMessage {
  Preamble : Z; Reserved : Z; MessageLength : Z; MessageNumber : Z; ReferenceStationID : Z; CRC : Z;
  data : list Z; bytes : list Z; valid : bool }.
Definition RTCM3Message_new : RTCM3Message := mkMessage 0xD3 0 0 0 0 0 [] [] true.
Definition mgr : manager := mkManager (uint 8) (uint 8) 0.

Definition header_types : list traits := [uint 8; uint 6; uint 10].
Definition number_types : list traits := [uint 12; uint 12].
Definition headerBytes : Z := countBits header_types `div` 8.
Definition crcBytes : Z := countBits [uint 24] `div` 8.
Definition attrBytes : Z := countBits number_types `div` 8.

Definition set_bytes (b : list Z) (m : RTCM3Message) : RTCM3Message :=
  mkMessage (Preamble m) (Reserved m) (MessageLength m) (MessageNumber m) (ReferenceStationID m) (CRC m)
    (data m) b (valid m).
Definition set_data (d : list Z) (m : RTCM3Message) : RTCM3Message :=
  mkMessage (Preamble m) (Reserved m) (MessageLength m) (MessageNumber m) (ReferenceStationID m) (CRC m)
    d (bytes m) (valid m).
Definition set_header (p r l : Z) (m : RTCM3Message) : RTCM3Message :=
  mkMessage p r l (MessageNumber m) (ReferenceStationID m) (CRC m) (data m) (bytes m) (valid m).
Definition set_numbers (n s : Z) (m : RTCM3Message) : RTCM3Message :=
  mkMessage (Preamble m) (Reserved m) (MessageLength m) n s (CRC m) (data m) (bytes m) (valid m).
Definition set_CRC (c : Z) (m : RTCM3Message) : RTCM3Message :=
  mkMessage (Preamble m) (Reserved m) (MessageLength m) (MessageNumber m) (ReferenceStationID m) c
    (data m) (bytes m) (valid m).
Definition invalidate (m : RTCM3Message) : RTCM3Message :=
  mkMessage (Preamble m) (Reserved m) (MessageLength m) (MessageNumber m) (ReferenceStationID m) (CRC m)
    (data m) (bytes m) false.

Definition get_MessageType (m : RTCM3Message) : Z := MessageNumber m.
Definition size (m : RTCM3Message) : Z := headerBytes + crcBytes + MessageLength m.
Definition get_Parity (b : list Z) (m : RTCM3Message) : Z :=
  crc24q_hash b (if size m <=? Z.of_nat (length b) then size m - crcBytes else Z.of_nat (length b)).
Definition check_Parity (b : list Z) (m : RTCM3Message) : bool :=
  if Z.of_nat (length b) <? size m then false else CRC m =? get_Parity b m.

(** ** Reading *)
Fixpoint skip_to_preamble (b : list Z) : list Z :=
  match b with
  | [] => []
  | x :: b' => if negb (x =? 0xD3) then skip_to_preamble b' else b
  end.
(** One round of the loop: a frame with the right checksum, another round, or the
    end of the attempts. *)
Inductive outcome := Found (m : RTCM3Message) | Retry (m : RTCM3Message) | Invalid (m : RTCM3Message).
Definition try_frame (m : RTCM3Message) : outcome :=
  let m := set_bytes (skip_to_preamble (bytes m)) m in
  let len := Z.of_nat (length (bytes m)) in
  if len <? headerBytes then Invalid (invalidate m)
  else match assignData_bytes mgr (bytes m) header_types (data m) with
  | Some ([p; r; l], d) =>
      let m := set_data d (set_header p r l m) in
      let consumed := countWords mgr header_types * wordSize mgr in
      if len <? MessageLength m + consumed + crcBytes then Invalid (invalidate m)
      else
        let start := Z.to_nat (consumed + MessageLength m) in
        let crc := take (Z.to_nat crcBytes) (drop start (bytes m)) in
        match assignData_bytes mgr crc [uint 24] (data m) with
        | Some ([c], d) =>
            let m := set_data d (set_CRC c m) in
            if (Preamble m =? 0xD3) && check_Parity (bytes m) m then Found m
            else Retry (set_bytes (tail (take start (bytes m) ++ crc ++ drop start (bytes m))) m)
        | _ => Invalid (invalidate m)
        end
  | _ => Invalid (invalidate m)
  end.
(** What follows the loop: the words of the message and its numbers. *)
Definition load_message (m : RTCM3Message) : RTCM3Message :=
  let m := set_bytes (drop (Z.to_nat headerBytes) (bytes m)) m in
  let m := set_data (loadData mgr (bytes m) (MessageLength m) (data m)) m in
  match assignData mgr number_types (data m) with
  | Some ([n; s], d) => set_data d (set_numbers n s m)
  | _ => invalidate m
  end.
(** [None]: the loop has not ended after [fuel] rounds. *)
Fixpoint read_loop (fuel : nat) (m : RTCM3Message) : option RTCM3Message :=
  match fuel with
  | O => None
  | S fuel =>
      match try_frame m with
      | Found m => Some (load_message m)
      | Retry m => read_loop fuel m
      | Invalid m => Some m
      end
  end.
Definition set_contents (fuel : nat) (input : list Z) (m : RTCM3Message) : option RTCM3Message :=
  read_loop fuel (set_bytes input m).

(** ** Writing *)
Definition header_attrs (m : RTCM3Message) : list (traits * Z) :=
  [(uint 8, Preamble m); (uint 6, Reserved m); (uint 10, MessageLength m)].
Definition number_attrs (m : RTCM3Message) : list (traits * Z) :=
  [(uint 12, MessageNumber m); (uint 12, ReferenceStationID m)].
(** [None] is the exception of the data manager. *)
Definition get_contents (m : RTCM3Message) : option (list Z) :=
  match extractAllData mgr (u64 (MessageLength m - attrBytes)) (header_attrs m ++ number_attrs m) (data m) with
  | None => None
  | Some b => Some (b ++ extractData mgr [(uint 24, CRC m)])
  end.
Definition is_Valid (m : RTCM3Message) : bool :=
  if negb (valid m) then false
  else match get_contents m with
       | None => false
       | Some b => (Preamble m =? 0xD3) && check_Parity b m
       end.
Definition Validate (m : RTCM3Message) : option RTCM3Message :=
  match get_contents m with
  | None => None
  | Some b => Some (set_CRC (get_Parity b m) m)
  end.

(** The list of contents of the J2735 message, and its count. *)
Definition get_RtcmMessage (m : RTCM3Message) : option (list (list Z) * Z) :=
  match get_contents m with None => None | Some b => Some ([b], 0) end.

(** ** The data manager of bytes *)
#[export] Instance mgr_codec : Codec mgr.
Proof. by split; cbn; try lia. Qed.
Lemma word_bytes_mgr w : is_byte w -> word_bytes mgr w = [w].
Proof.
  intros Hw. change (word_bytes mgr w) with [splitWord (uint 8) w 0]. unfold splitWord.
  change (bitmask (uint 8)) with (Z.ones 8). rewrite Z.shiftr_0_r, Z.land_ones, Z.mod_small by (done || lia). done.
Qed.
Lemma words_bytes_mgr ws : Forall is_byte ws -> ws ≫= word_bytes mgr = ws.
Proof. induction 1 as [|w ws Hw Hws IH]; [done|]. cbn [mbind list_bind]. by rewrite word_bytes_mgr, IH. Qed.
Lemma loadData_bytes l rest d : Forall is_byte l ->
  loadData mgr (l ++ rest) (Z.of_nat (length l)) d = d ++ l.
Proof. intros Hl. rewrite <-(words_bytes_mgr l Hl) at 1. by apply (loadData_written mgr). Qed.

(** The attributes of a message are in the range of their types, the preamble is its
    constant, and the length is that of the numbers and the data. Nothing but the reader
    sets the length. *)
Definition well_formed (m : RTCM3Message) : Prop :=
  Preamble m = 0xD3 /\ 0 <= Reserved m < 64 /\ 0 <= MessageNumber m < 4096 /\
  0 <= ReferenceStationID m < 4096 /\ 0 <= CRC m < 2 ^ 24 /\
  Forall is_byte (data m) /\ MessageLength m = attrBytes + Z.of_nat (length (data m)) /\ MessageLength m < 1024.

Lemma attrs_fit m : well_formed m ->
  all_fit (header_attrs m ++ number_attrs m) /\ all_fit [(uint 24, CRC m)].
Proof.
  intros (Hp & Hr & Hn & Hs & Hc & Hd & Hl & Hlt). change attrBytes with 3 in Hl.
  split; repeat (apply Forall_cons; split; [split; cbn; lia|]); done.
Qed.
Lemma whole_header m : whole_words mgr (map fst (header_attrs m)) /\ whole_words mgr (map fst (number_attrs m)) /\
  whole_words mgr (map fst (header_attrs m ++ number_attrs m)) /\ whole_words mgr [uint 24].
Proof. repeat split; vm_compute; congruence. Qed.

(** Three bytes, as header or checksum, and back. *)
Lemma split_bytes3 a b c : is_byte a -> is_byte b -> is_byte c ->
  split_list (uint 8) 3 (a * 2 ^ 16 + b * 2 ^ 8 + c) = [a; b; c].
Proof.
  intros Ha Hb Hc. unfold is_byte in *. rewrite !(split_list_S (uint 8)) by (done || (cbn; lia)). cbn [RtcmTypes.size uint app split_list map seqZ].
  replace (a * 2 ^ 16 + b * 2 ^ 8 + c) with ((a * 2 ^ 8 + b) * 2 ^ 8 + c) by lia.
  rewrite Z.div_add_l, (Z.div_small c), Z.add_0_r by lia. rewrite Z.div_add_l, (Z.div_small b), Z.add_0_r by lia.
  rewrite !(Z.add_comm (_ * 2 ^ 8)), !Z.mod_add, !Z.mod_small by lia. done.
Qed.
Lemma assign3 attrs a b c rest d : all_fit attrs -> whole_words mgr (map fst attrs) ->
  countBits (map fst attrs) = 24 -> is_byte a -> is_byte b -> is_byte c ->
  pack attrs = a * 2 ^ 16 + b * 2 ^ 8 + c -> d = [] ->
  assignData_bytes mgr ([a; b; c] ++ rest) (map fst attrs) d = Some (values attrs, []).
Proof.
  intros Hf Hw Hc Ha Hb Hc' Hp ->. unfold assignData_bytes.
  assert (countWords mgr (map fst attrs) = Z.of_nat (length [a; b; c])) as Hn by (unfold countWords; by rewrite Hc).
  rewrite Hn, (loadData_bytes [a; b; c]) by by repeat apply Forall_cons_2.
  replace ([] ++ [a; b; c]) with (extractWords mgr attrs ++ []); [by apply (assign_extracted mgr)|].
  rewrite app_nil_r, (extractWords_eq mgr) by done. rewrite Hn, Hp. by apply split_bytes3.
Qed.

(** The fields of an updated message. *)
Ltac fields :=
  cbn [Preamble Reserved MessageLength MessageNumber ReferenceStationID CRC data bytes valid
       set_bytes set_data set_header set_numbers set_CRC invalidate].

Lemma message_eq m m' :
  Preamble m = Preamble m' -> Reserved m = Reserved m' -> MessageLength m = MessageLength m' ->
  MessageNumber m = MessageNumber m' -> ReferenceStationID m = ReferenceStationID m' -> CRC m = CRC m' ->
  data m = data m' -> bytes m = bytes m' -> valid m = valid m' -> m = m'.
Proof. destruct m, m'. cbn. by intros -> -> -> -> -> -> -> -> ->. Qed.

(** One round at a frame: what is found, or that it is not. *)
Definition found (h1 h2 c : Z) (m : RTCM3Message) : RTCM3Message :=
  set_data [] (set_CRC c (set_header 0xD3 (h1 `div` 4) (h1 `mod` 4 * 256 + h2)
    (set_bytes (skip_to_preamble (bytes m)) m))).
Lemma try_frame_at m h1 h2 body a b c rest :
  data m = [] -> skip_to_preamble (bytes m) = [0xD3; h1; h2] ++ body ++ [a; b; c] ++ rest ->
  Forall is_byte ([0xD3; h1; h2] ++ body ++ [a; b; c]) ->
  Z.of_nat (length body) = h1 `mod` 4 * 256 + h2 ->
  if remainder 0 (bits_of ([0xD3; h1; h2] ++ body ++ [a; b; c])) =? 0
  then try_frame m = Found (found h1 h2 (a * 2 ^ 16 + b * 2 ^ 8 + c) m)
  else exists m', try_frame m = Retry m' /\ data m' = [] /\
    bytes m' = [h1; h2] ++ body ++ [a; b; c] ++ [a; b; c] ++ rest.
Proof.
  intros Hd Hs Hb Hl.
  apply Forall_app in Hb as [Hh Hb]. apply Forall_app in Hb as [Hbody Hcrc].
  inversion Hh as [|? ? H0 Hh']; subst. inversion Hh' as [|? ? H1 Hh'']; subst. inversion Hh'' as [|? ? H2 _]; subst.
  inversion Hcrc as [|? ? Ha Hcrc']; subst. inversion Hcrc' as [|? ? Hb' Hcrc'']; subst. inversion Hcrc'' as [|? ? Hc _]; subst.
  pose proof (Z.div_mod h1 4 ltac:(lia)) as Hdm. pose proof (Z.mod_pos_bound h1 4 ltac:(lia)) as Hmod.
  unfold is_byte in H1, H2.
  set (attrs := [(uint 8, 0xD3); (uint 6, h1 `div` 4); (uint 10, h1 `mod` 4 * 256 + h2)]).
  assert (all_fit attrs) as Hf by (repeat (apply Forall_cons; split; [split; cbn; lia|]); done).
  pose proof (bits_of_app ([0xD3; h1; h2] ++ body) [a; b; c]) as Hbits. rewrite <-app_assoc in Hbits.
  rewrite Hbits, remainder_app, <-sealed; [|by apply remainder_reg; unfold reg|done..].
  set (ok := (_ =? remainder 0 _)). set (crc := a * 2 ^ 16 + b * 2 ^ 8 + c) in *.
  assert (try_frame m = if ok then Found (found h1 h2 crc m) else Retry
    (set_bytes (tail (([0xD3; h1; h2] ++ body) ++ [a; b; c] ++ [a; b; c] ++ rest)) (found h1 h2 crc m))) as ->;
    [|destruct ok; [done|by eexists]].
  unfold try_frame, found. rewrite Hs. fields. rewrite Hd.
  change headerBytes with 3. rewrite (proj2 (Z.ltb_ge _ 3)) by (rewrite !length_app; cbn; lia).
  change header_types with (map fst attrs).
  rewrite (assign3 attrs 0xD3 h1 h2); [|done|by apply (whole_header (set_header 0 0 0 m))|done..|by cbn; lia|done].
  cbn [values map snd attrs]. fields.
  change (countWords mgr _ * wordSize mgr) with 3. change crcBytes with 3.
  rewrite (proj2 (Z.ltb_ge _ _)) by (rewrite !length_app; cbn; lia).
  replace (Z.to_nat (3 + (h1 `mod` 4 * 256 + h2))) with (length ([0xD3; h1; h2] ++ body)) by (rewrite length_app; cbn; lia).
  rewrite (app_assoc [0xD3; h1; h2] body), drop_app_length, take_app_length.
  change (take (Z.to_nat 3) ([a; b; c] ++ rest)) with ([a; b; c] ++ []).
  change [uint 24] with (map fst [(uint 24, crc)]).
  unfold is_byte in Ha, Hb', Hc.
  rewrite (assign3 _ a b c);
    [|by apply Forall_cons; split; [split; cbn; lia|]|apply (whole_header m)|done..|by cbn; lia|done].
  cbn [values map snd]. fields. rewrite Z.eqb_refl. cbn [andb].
  unfold check_Parity, get_Parity, size. fields. change headerBytes with 3. change crcBytes with 3.
  rewrite (proj2 (Z.ltb_ge _ _)) by (rewrite !length_app; cbn; lia).
  rewrite (proj2 (Z.leb_le _ _)) by (rewrite !length_app; cbn; lia).
  replace (3 + 3 + _ - 3) with (Z.of_nat (length ([0xD3; h1; h2] ++ body))) by (rewrite length_app; cbn; lia).
  rewrite crc24q_hash_prefix by by apply Forall_app.
  fold ok. done.
Qed.

(** The bytes of a message, without and with the checksum. *)
Definition unsealed (m : RTCM3Message) : list Z :=
  (extractData mgr (header_attrs m) ++ extractData mgr (number_attrs m)) ++ data m.
Definition frame (m : RTCM3Message) : list Z := unsealed m ++ extractData mgr [(uint 24, CRC m)].
Lemma get_contents_frame m : well_formed m -> get_contents m = Some (frame m).
Proof.
  intros Hm. unfold get_contents, extractAllData. pose proof (attrs_fit m Hm) as [Hf _].
  destruct Hm as (Hp & Hr & Hn & Hs & Hc & Hd & Hl & Hlt). change attrBytes with 3 in Hl |- *.
  rewrite u64_small by lia. replace (MessageLength m - 3) with (Z.of_nat (length (data m))) by lia.
  rewrite retrieveData_all, words_bytes_mgr by done. f_equal. unfold frame, unsealed. do 2 f_equal.
  apply Forall_app in Hf as [Hh Hn']. apply extractData_app; [done..|apply (whole_header m)|apply (whole_header m)|cbn; lia].
Qed.

(** The three parts of a frame as bytes. *)
Lemma extract3 attrs : all_fit attrs -> whole_words mgr (map fst attrs) -> countBits (map fst attrs) = 24 ->
  exists a b c, extractData mgr attrs = [a; b; c] /\ Forall is_byte [a; b; c] /\
    extractWords mgr attrs = [a; b; c] /\ pack attrs = a * 2 ^ 16 + b * 2 ^ 8 + c.
Proof.
  intros Hf Hw Hc. pose proof (pack_range attrs Hf) as Hr. rewrite Hc in Hr. set (v := pack attrs) in *.
  assert (v = v `div` 2 ^ 16 * 2 ^ 16 + (v `div` 2 ^ 8) `mod` 2 ^ 8 * 2 ^ 8 + v `mod` 2 ^ 8) as Hv by (Z.div_mod_to_equations; lia).
  assert (is_byte (v `div` 2 ^ 16) /\ is_byte ((v `div` 2 ^ 8) `mod` 2 ^ 8) /\ is_byte (v `mod` 2 ^ 8)) as (Ha & Hb & Hc').
  { unfold is_byte. Z.div_mod_to_equations; lia. }
  assert (extractWords mgr attrs = [v `div` 2 ^ 16; (v `div` 2 ^ 8) `mod` 2 ^ 8; v `mod` 2 ^ 8]) as He.
  { rewrite (extractWords_eq mgr) by done. fold v. unfold countWords. rewrite Hc. rewrite Hv at 1. by apply split_bytes3. }
  exists (v `div` 2 ^ 16), ((v `div` 2 ^ 8) `mod` 2 ^ 8), (v `mod` 2 ^ 8).
  split; [|split; [by repeat apply Forall_cons_2|done]].
  rewrite (extractData_eq mgr), He. apply words_bytes_mgr. by repeat apply Forall_cons_2.
Qed.
Lemma unsealed_shape m : well_formed m -> exists h1 h2 body,
  unsealed m = [0xD3; h1; h2] ++ body /\ Forall is_byte (unsealed m) /\
  h1 `div` 4 = Reserved m /\ h1 `mod` 4 * 256 + h2 = MessageLength m /\
  Z.of_nat (length body) = MessageLength m /\ body = extractWords mgr (number_attrs m) ++ data m.
Proof.
  intros Hm. pose proof (attrs_fit m Hm) as [Hf _]. apply Forall_app in Hf as [Hh Hn].
  destruct (whole_header m) as (Wh & Wn & _ & _).
  destruct (extract3 _ Hh Wh eq_refl) as (h0 & h1 & h2 & Eh & Bh & _ & Ph).
  destruct (extract3 _ Hn Wn eq_refl) as (n0 & n1 & n2 & En & Bn & Ewn & _).
  destruct Hm as (Hp & Hr & Hnum & Hs & HC & Hd & Hl & Hlt). change attrBytes with 3 in Hl.
  unfold pack, header_attrs, raw in Ph. cbn -[Z.mul Z.add Z.pow] in Ph.
  apply Forall_cons in Bh as Bh'. destruct Bh' as [B0 Bh']. apply Forall_cons in Bh' as [B1 Bh']. apply Forall_cons in Bh' as [B2 _].
  unfold is_byte in B0, B1, B2. rewrite Hp in Ph.
  assert (h0 = 0xD3 /\ h1 = Reserved m * 4 + MessageLength m `div` 256 /\ h2 = MessageLength m `mod` 256) as (-> & E1 & E2).
  { Z.div_mod_to_equations. lia. }
  exists h1, h2, ([n0; n1; n2] ++ data m). unfold unsealed. rewrite Eh, En, Ewn, <-app_assoc.
  repeat split; try done.
  - by repeat apply Forall_app_2.
  - rewrite E1. Z.div_mod_to_equations. lia.
  - rewrite E1, E2. Z.div_mod_to_equations. lia.
  - rewrite length_app. cbn. lia.
Qed.
Lemma checksum_shape c : reg c -> exists a b d,
  extractData mgr [(uint 24, c)] = [a; b; d] /\ Forall is_byte [a; b; d] /\ a * 2 ^ 16 + b * 2 ^ 8 + d = c.
Proof.
  intros Hc. destruct (extract3 [(uint 24, c)]) as (a & b & d & E & B & _ & P); [|apply (whole_header RTCM3Message_new)|done|].
  - apply Forall_cons; split; [split; cbn; [lia|apply Hc]|done].
  - exists a, b, d. unfold pack, raw in P. cbn -[Z.mul Z.add Z.pow] in P. repeat split; try done. lia.
Qed.

Lemma skip_junk junk b : Forall (fun x => x <> 0xD3) junk -> skip_to_preamble (junk ++ 0xD3 :: b) = 0xD3 :: b.
Proof. induction 1 as [|x junk Hx Hj IH]; [done|]. cbn. apply Z.eqb_neq in Hx. by rewrite Hx. Qed.
Lemma length_unsealed m : well_formed m -> Z.of_nat (length (unsealed m)) = size m - crcBytes.
Proof.
  intros Hm. destruct (unsealed_shape m Hm) as (h1 & h2 & body & -> & _ & _ & _ & Hl & _).
  unfold size. change headerBytes with 3. rewrite length_app. cbn [length]. lia.
Qed.
Lemma size_frame m : well_formed m -> Z.of_nat (length (frame m)) = size m.
Proof.
  intros Hm. unfold frame. rewrite length_app, Nat2Z.inj_add, length_unsealed by done.
  destruct (checksum_shape (CRC m)) as (a & b & d & -> & _); [apply Hm|]. change crcBytes with 3. cbn [length]. lia.
Qed.
Lemma get_Parity_frame m : well_formed m -> get_Parity (frame m) m = remainder 0 (bits_of (unsealed m)).
Proof.
  intros Hm. unfold get_Parity. rewrite size_frame, Z.leb_refl, <-length_unsealed by done.
  apply crc24q_hash_prefix. by destruct (unsealed_shape m Hm) as (h1 & h2 & body & _ & Hb & _).
Qed.
Lemma check_frame m : well_formed m -> check_Parity (frame m) m = (remainder 0 (bits_of (frame m)) =? 0).
Proof.
  intros Hm. unfold check_Parity. rewrite size_frame, Z.ltb_irrefl, get_Parity_frame by done.
  destruct (checksum_shape (CRC m)) as (a & b & d & E & B & <-); [apply Hm|]. unfold frame. rewrite E.
  rewrite !Forall_cons in B. rewrite bits_of_app, remainder_app. apply sealed; try apply B. by apply remainder_reg.
Qed.
(** The checksum field closes the frame. *)
Lemma Validate_frame m : well_formed m -> exists v, Validate m = Some v /\ well_formed v /\ valid v = valid m /\
  get_contents v = Some (frame v) /\ check_Parity (frame v) v = true /\ v = set_CRC (CRC v) m.
Proof.
  intros Hm. unfold Validate. rewrite get_contents_frame by done. eexists. split; [done|].
  rewrite get_Parity_frame by done. set (v := set_CRC _ m).
  assert (well_formed v) as Hv.
  { pose proof (remainder_reg (bits_of (unsealed m)) 0 ltac:(by unfold reg)). unfold well_formed, reg in *. by split_all. }
  split_all; try done; [by apply get_contents_frame|].
  unfold check_Parity. rewrite size_frame, Z.ltb_irrefl, get_Parity_frame by done. apply Z.eqb_refl.
Qed.

(** Reading a frame gives the message that wrote it. *)
Lemma read_frame v junk rest m0 n :
  well_formed v -> check_Parity (frame v) v = true -> data m0 = [] -> valid m0 = valid v ->
  Forall (fun x => x <> 0xD3) junk ->
  set_contents (S n) (junk ++ frame v ++ rest) m0 = Some (set_bytes (drop 3 (frame v) ++ rest) v).
Proof.
  intros Hv Hpar Hd0 Hv0 Hj.
  destruct (unsealed_shape v Hv) as (h1 & h2 & body & Hu & Hb & Hh1 & Hh2 & Hl & Hbody).
  destruct (checksum_shape (CRC v)) as (a & b & d & Hc & Hcb & Hcv); [apply Hv|].
  assert (frame v = [0xD3; h1; h2] ++ body ++ [a; b; d]) as Hf by (unfold frame; by rewrite Hu, Hc, <-app_assoc).
  assert (skip_to_preamble (junk ++ frame v ++ rest) = [0xD3; h1; h2] ++ body ++ [a; b; d] ++ rest) as Hskip
    by (rewrite Hf, <-!app_assoc; by apply skip_junk).
  pose proof (try_frame_at (set_bytes (junk ++ frame v ++ rest) m0) h1 h2 body a b d rest) as Ht.
  rewrite check_frame in Hpar by done. rewrite <-Hf, Hpar in Ht.
  unfold set_contents. cbn [read_loop]. rewrite Ht; clear Ht; [|done|done| |lia].
  - f_equal. unfold load_message, found. fields. rewrite Hskip, Hf.
    change (drop (Z.to_nat headerBytes) ([211; h1; h2] ++ ?x)) with x.
    replace (h1 `mod` 4 * 256 + h2) with (Z.of_nat (length body)) by lia.
    rewrite loadData_bytes by (rewrite Hu in Hb; by apply Forall_app in Hb as [_ ?]).
    rewrite app_nil_l, Hbody. change number_types with (map fst (number_attrs v)).
    rewrite (assign_extracted mgr);
      [|pose proof (attrs_fit v Hv) as [Hfit _]; by apply Forall_app in Hfit as [_ ?]|apply (whole_header v)].
    cbn [number_attrs values map snd]. fields.
    rewrite <-Hbody, Hl, Hh1, Hcv. apply message_eq; fields; try done.
    + by destruct Hv as [-> _].
    + change (drop 3 ([211; h1; h2] ++ ?x)) with x. by rewrite <-app_assoc.
  - rewrite Hf in *. unfold frame in Hf. rewrite <-Hf, Hc. by apply Forall_app_2.
Qed.

(** The message of the bytes of a frame. *)
Lemma extract3_bytes attrs a b c : all_fit attrs -> whole_words mgr (map fst attrs) -> countBits (map fst attrs) = 24 ->
  is_byte a -> is_byte b -> is_byte c -> pack attrs = a * 2 ^ 16 + b * 2 ^ 8 + c -> extractData mgr attrs = [a; b; c].
Proof.
  intros Hf Hw Hc Ha Hb Hd Hp. rewrite (extractData_eq mgr), (extractWords_eq mgr) by done. unfold countWords. rewrite Hc, Hp.
  change (Z.to_nat ((24 + _ - 1) / _)) with 3%nat. rewrite split_bytes3 by done. apply words_bytes_mgr. by repeat apply Forall_cons_2.
Qed.
Definition message_of (h1 h2 n0 n1 n2 : Z) (d : list Z) (a b c : Z) : RTCM3Message :=
  mkMessage 0xD3 (h1 `div` 4) (h1 `mod` 4 * 256 + h2) (n0 * 16 + n1 `div` 16) (n1 `mod` 16 * 256 + n2)
    (a * 2 ^ 16 + b * 2 ^ 8 + c) d [] true.
Lemma frame_message_of h1 h2 n0 n1 n2 d a b c : let f := [0xD3; h1; h2] ++ ([n0; n1; n2] ++ d) ++ [a; b; c] in
  Forall is_byte f -> h1 `mod` 4 * 256 + h2 = 3 + Z.of_nat (length d) ->
  well_formed (message_of h1 h2 n0 n1 n2 d a b c) /\ frame (message_of h1 h2 n0 n1 n2 d a b c) = f.
Proof.
  cbv zeta. intros Hb Hl. rewrite !Forall_app, !Forall_cons in Hb. unfold is_byte in Hb. destruct Hb as ((_ & H1 & H2 & _) & ((N0 & N1 & N2 & _) & Hd) & (A & B & C & _)).
  set (m := message_of h1 h2 n0 n1 n2 d a b c).
  assert (well_formed m) as Hm.
  { unfold well_formed, m, message_of. fields. change attrBytes with 3. split_all; try done; Z.div_mod_to_equations; lia. }
  split; [done|]. unfold frame, unsealed. pose proof (attrs_fit m Hm) as [Hf Hc]. apply Forall_app in Hf as [Hh Hn].
  destruct (whole_header m) as (Wh & Wn & _ & Wc).
  rewrite (extract3_bytes (header_attrs m) 0xD3 h1 h2), (extract3_bytes (number_attrs m) n0 n1 n2),
    (extract3_bytes [(uint 24, CRC m)] a b c); try done; unfold m, message_of, header_attrs, number_attrs, pack, raw; fields;
    cbn -[Z.mul Z.add Z.pow Z.div Z.modulo]; rewrite <-?app_assoc; try done; Z.div_mod_to_equations; lia.
Qed.
Lemma short_refused m : 0 <= MessageLength m < attrBytes -> Z.of_nat (length (data m)) < 2 ^ 63 -> get_contents m = None.
Proof.
  intros Hm Hd. change attrBytes with 3 in Hm. unfold get_contents, extractAllData, retrieveData. change attrBytes with 3.
  assert (u64 (MessageLength m - 3) = 2 ^ 64 + (MessageLength m - 3)) as ->.
  { unfold wrapu. rewrite <-(Z.mod_small (2 ^ 64 + (MessageLength m - 3)) (2 ^ 64)) by lia.
    rewrite <-(Z_mod_plus_full (MessageLength m - 3) 1 (2 ^ 64)). f_equal. lia. }
  rewrite (proj2 (Z.ltb_lt _ _)) by lia. done.
Qed.
(** C37: Frames are read and written back. A frame is the preamble, a length of at least
    3, as many bytes, and the checksum of all that; read into a new message, between bytes
    that are no preamble and any others, it gives a valid message that is well formed and
    writes the same frame. Well formed is a message with the preamble, attributes in the
    range of their types, and a length that counts its number and its data: one that is
    valid gets its checksum from [Validate], writes a frame, and is what is read from it.
    But a message whose length was not set, which nothing but reading does, writes nothing:
    the data manager throws. *)
Theorem rtcm3_roundtrip junk rest m0 n :
  data m0 = [] -> valid m0 = true -> Forall (fun x => x <> 0xD3) junk ->
  (forall h1 h2 body a b c, let f := [0xD3; h1; h2] ++ body ++ [a; b; c] in
     Forall is_byte f -> Z.of_nat (length body) = h1 `mod` 4 * 256 + h2 -> (3 <= length body)%nat -> remainder 0 (bits_of f) = 0 ->
     exists m, set_contents (S n) (junk ++ f ++ rest) m0 = Some m /\ well_formed m /\ is_Valid m = true /\ get_contents m = Some f) /\
  (forall m, well_formed m -> valid m = true -> exists v f, Validate m = Some v /\ v = set_CRC (CRC v) m /\ get_contents v = Some f /\
     set_contents (S n) (junk ++ f ++ rest) m0 = Some (set_bytes (drop 3 f ++ rest) v)) /\
  (forall m, MessageLength m = 0 -> Z.of_nat (length (data m)) < 2 ^ 63 -> get_contents m = None).
Proof.
  intros Hd0 Hv0 Hj. split; [|split].
  - intros h1 h2 body a b c f Hb Hl H3 Hr. destruct body as [|n0 [|n1 [|n2 d]]]; try (cbn in H3; lia).
    destruct (frame_message_of h1 h2 n0 n1 n2 d a b c) as [Hm Hf]; [done|cbn in Hl; lia|].
    set (v := message_of h1 h2 n0 n1 n2 d a b c) in *. change (frame v = f) in Hf.
    exists (set_bytes (drop 3 (frame v) ++ rest) v).
    assert (check_Parity (frame v) v = true) as Hpar by (rewrite check_frame, Hf, Hr by done; done).
    pose proof (get_contents_frame v Hm) as Hg. split_all; [|done| |by rewrite <-Hf].
    + rewrite <-Hf. by apply read_frame.
    + unfold is_Valid. fields. change (get_contents (set_bytes _ v)) with (get_contents v). rewrite Hg.
      change (check_Parity (frame v) (set_bytes _ v)) with (check_Parity (frame v) v). by rewrite Hpar.
  - intros m Hm Hval. destruct (Validate_frame m Hm) as (v & HV & Hv & Hvv & Hget & Hpar & Hset).
    exists v, (frame v). split_all; try done. apply read_frame; try done. by rewrite Hv0, Hvv.
  - intros m Hz Hl. apply short_refused; [rewrite Hz; vm_compute; done|done].
Qed.

(** The frame of a message, taken apart. *)
Lemma frame_of_message m v f : well_formed m -> Validate m = Some v -> get_contents v = Some f ->
  exists h1 h2 body a b d, f = [0xD3; h1; h2] ++ body ++ [a; b; d] /\ Forall is_byte f /\
    Z.of_nat (length body) = h1 `mod` 4 * 256 + h2 /\ remainder 0 (bits_of f) = 0.
Proof.
  intros Hm HV Hf. destruct (Validate_frame m Hm) as (v' & HV' & Hv & _ & Hget & Hpar & _).
  rewrite HV in HV'. injection HV' as <-. rewrite Hget in Hf. injection Hf as <-.
  rewrite check_frame in Hpar by done. apply Z.eqb_eq in Hpar.
  destruct (unsealed_shape v Hv) as (h1 & h2 & body & Hu & Hb & Hh1 & Hh2 & Hl & _).
  destruct (checksum_shape (CRC v)) as (a & b & d & Hc & Hcb & Hcv); [apply Hv|].
  exists h1, h2, body, a, b, d. split_all; [| |lia|done].
  - unfold frame. by rewrite Hu, Hc, <-app_assoc.
  - unfold frame. rewrite Hc. by apply Forall_app_2.
Qed.
Lemma three_parts (f : list Z) n : length f = (6 + n)%nat -> exists x0 x1 x2 body y1 y2 y3,
  f = [x0; x1; x2] ++ body ++ [y1; y2; y3] /\ length body = n.
Proof.
  intros Hl. destruct f as [|x0 [|x1 [|x2 t]]]; try (cbn in Hl; lia).
  destruct (drop n t) as [|y1 [|y2 [|y3 [|]]]] eqn:Hd; apply (f_equal length) in Hd as Hd';
    rewrite length_drop in Hd'; cbn in Hl, Hd'; try lia.
  exists x0, x1, x2, (take n t), y1, y2, y3. rewrite <-Hd, take_drop, length_take. split; [done|lia].
Qed.

(** C38: bursts are detected. If the bytes [f'] differ from the frame [f] of a message,
    after the header, in a burst of at most 24 bits with at least one of them changed,
    then no round of the reader at [f'] finds a message, whatever follows. *)
Theorem rtcm3_burst_detected m v f f' a burst b m0 rest :
  well_formed m -> Validate m = Some v -> get_contents v = Some f -> Forall is_byte f' -> 
  (24 <= a)%nat -> (length burst <= 24)%nat -> true ∈ burst ->
  length (bits_of f) = length (replicate a false ++ burst ++ replicate b false) ->
  bits_of f' = zip_with xorb (bits_of f) (replicate a false ++ burst ++ replicate b false) ->
  data m0 = [] -> forall m', try_frame (set_bytes (f' ++ rest) m0) <> Found m'.
Proof.
  intros Hm HV Hf Hb' Ha Hl Ht Hlen Hbits Hd m' Hfound.
  destruct (frame_of_message m v f Hm HV Hf) as (h1 & h2 & body & c1 & c2 & c3 & -> & Hb & Hn & Hrem).
  assert (length f' = (6 + length body)%nat) as Hlf.
  { apply (f_equal length) in Hbits. rewrite length_zip_with_l_eq in Hbits by (rewrite Hlen; lia).
    rewrite !length_bits_of, !length_app in Hbits. cbn [length] in Hbits. lia. }
  destruct (three_parts f' (length body) Hlf) as (x0 & x1 & x2 & body' & y1 & y2 & y3 & -> & Hlb).
  assert ([x0; x1; x2] = [0xD3; h1; h2]) as [= -> -> ->].
  { replace a with (24 + (a - 24))%nat in Hbits by lia. rewrite replicate_add, <-app_assoc, !bits_of_app in Hbits.
    apply Forall_app in Hb as [Hb _]. apply Forall_app in Hb' as [Hb' _].
    rewrite zip_with_app, zip_with_false in Hbits by done. apply app_inj_1 in Hbits as [Hbits _]; [|done].
    by apply bits_of_inj. }
  pose proof (try_frame_at (set_bytes (([0xD3; h1; h2] ++ body' ++ [y1; y2; y3]) ++ rest) m0) h1 h2 body' y1 y2 y3 rest) as Hat.
  rewrite Hbits, <-(Z.lxor_0_l 0), remainder_lxor, Hrem, Z.lxor_0_l in Hat by done.
  rewrite (proj2 (Z.eqb_neq _ 0)) in Hat by by apply burst_remainder.
  destruct Hat as (m'' & Hr & _); [done|by rewrite <-!app_assoc|done|by rewrite Hlb|]. by rewrite Hr in Hfound.
Qed.

(** A false start hangs the reader. From the first preamble on, the bytes
    D3 00 00 D3 00 00 are a frame without contents whose checksum is wrong. After the
    failure the loop inserts the checksum once more before it drops the first byte,
    so that it sees the same bytes again: it never ends, whatever follows. *)
Lemma false_start_hangs m junk rest fuel :
  data m = [] -> Forall (fun x => x <> 0xD3) junk ->
  set_contents fuel (junk ++ [0xD3; 0; 0; 0xD3; 0; 0] ++ rest) m = None.
Proof.
  intros Hd Hj. unfold set_contents.
  assert (remainder 0 (bits_of ([0xD3; 0; 0] ++ [] ++ [0xD3; 0; 0])) =? 0 = false) as Hwrong by (vm_compute; reflexivity).
  assert (Forall is_byte ([0xD3; 0; 0] ++ [] ++ [0xD3; 0; 0])) as Hbytes
    by (cbn [app]; repeat (apply Forall_cons; split; [unfold is_byte; lia|]); constructor).
  assert (skip_to_preamble (bytes (set_bytes (junk ++ [0xD3; 0; 0; 0xD3; 0; 0] ++ rest) m))
          = [0xD3; 0; 0] ++ [] ++ [0xD3; 0; 0] ++ rest) as Hs by by apply skip_junk.
  revert Hd Hs. change (data m) with (data (set_bytes (junk ++ [0xD3; 0; 0; 0xD3; 0; 0] ++ rest) m)).
  generalize (set_bytes (junk ++ [0xD3; 0; 0; 0xD3; 0; 0] ++ rest) m). clear Hj junk m.
  induction fuel as [|fuel IH]; intros m Hd Hs; [done|]. cbn [read_loop].
  pose proof (try_frame_at m 0 0 [] 0xD3 0 0 rest Hd Hs Hbytes eq_refl) as Ht.
  rewrite Hwrong in Ht. destruct Ht as (m' & -> & Hd' & Hb').
  apply IH; [done|]. by rewrite Hb'.
Qed.

(** ** Antenna descriptors

    The message of type 1007, with its descriptor as bytes. Reading can throw, and it
    can erase more words than there are, which has no defined behaviour. *)
Record Antenna := mkAntenna {
  base : RTCM3Message; DescriptorCounter : Z; AntennaDescriptor : list Z; SetupID : Z }.
Inductive read_result := Read (a : Antenna) | Exception | Undefined | Unfinished.
Definition antenna_set_contents (fuel : nat) (input : list Z) (t : Antenna) : read_result :=
  match set_contents fuel input (base t) with
  | None => Unfinished
  | Some m =>
      match assignData mgr [uint 8] (data m) with
      | Some ([n], d) =>
          let antDesc := map (fun i => getData i d) (seqZ 0 n) in
          if Z.of_nat (length d) <? n then Undefined
          else match assignData mgr [uint 8] (eraseData n d) with
               | Some ([s], d) => Read (mkAntenna (set_data d m) n antDesc s)
               | _ => Exception
               end
      | _ => Exception
      end
  end.
Definition antenna_get_contents (t : Antenna) : option (list Z) * Antenna :=
  let d := loadData mgr (extractData mgr [(uint 8, DescriptorCounter t)]) 1 (data (base t)) in
  let b := AntennaDescriptor t ++ extractData mgr [(uint 8, SetupID t)] in
  let d := loadData mgr b (Z.of_nat (length b)) d in
  let m := set_data d (base t) in
  (get_contents m, mkAntenna m (DescriptorCounter t) (AntennaDescriptor t) (SetupID t)).

Lemma assign_byte x d : is_byte x -> assignData mgr [uint 8] (x :: d) = Some ([x], d).
Proof.
  intros Hx. unfold is_byte in Hx. assert (all_fit [(uint 8, x)]) as Hf by (apply Forall_cons; split; [split; cbn; lia|done]).
  assert (whole_words mgr [uint 8]) as Hw by (repeat split; vm_compute; congruence).
  pose proof (assign_extracted mgr [(uint 8, x)] d Hf Hw) as E.
  rewrite (extractWords_eq mgr) in E by done. unfold pack, raw in E. cbn [is_signed uint] in E.
  change (Z.to_nat (countWords mgr (map fst [(uint 8, x)]))) with 1%nat in E.
  rewrite split_list_S in E by (done || (cbn; lia)). cbn -[assignData Z.modulo] in E.
  rewrite Z.mod_small in E by lia. replace (x * 2 ^ 0 + 0) with x in E by lia. exact E.
Qed.
(** A descriptor survives the wire. *)
Lemma antenna_roundtrip m n desc s v junk rest m0 k :
  data m = n :: desc ++ [s] -> n = Z.of_nat (length desc) ->
  well_formed m -> valid m = true -> Validate m = Some v ->
  data m0 = [] -> valid m0 = true -> Forall (fun x => x <> 0xD3) junk ->
  antenna_set_contents (S k) (junk ++ frame v ++ rest) (mkAntenna m0 0 [] 0)
  = Read (mkAntenna (set_data [] (set_bytes (drop 3 (frame v) ++ rest) v)) n desc s).
Proof.
  intros Hd Hn Hm Hval HV Hd0 Hv0 Hj.
  destruct (Validate_frame m Hm) as (v' & HV' & Hv & Hvv & Hget & Hpar & Hset).
  rewrite HV in HV'. injection HV' as <-.
  assert (Forall is_byte (data m)) as Hb by apply Hm. rewrite Hd in Hb.
  apply Forall_cons in Hb as [Hbn Hb]. apply Forall_app in Hb as [_ Hbs]. apply Forall_cons in Hbs as [Hbs _].
  unfold antenna_set_contents. cbn [base]. rewrite read_frame by (done || (by rewrite Hv0, Hvv)).
  assert (data v = data m) as Hdv by exact (f_equal data Hset). fields. rewrite Hdv, Hd, assign_byte by done.
  rewrite (proj2 (Z.ltb_ge _ _)) by (rewrite length_app; cbn; lia).
  unfold eraseData. rewrite Hn, Nat2Z.id, drop_app_length, assign_byte by done. do 2 f_equal.
  apply list_eq. intros i. rewrite list_lookup_fmap. destruct (decide (i < length desc)%nat).
  - rewrite lookup_seqZ_lt by lia. cbn. unfold getData. replace (Z.to_nat (0 + Z.of_nat i)) with i by lia.
    rewrite lookup_app_l by done. destruct (lookup_lt_is_Some_2 desc i) as [x ->]; done.
  - rewrite lookup_seqZ_ge by lia. cbn. by rewrite lookup_ge_None_2 by lia.
Qed.
(** The length of a descriptor is not checked. A frame with a correct checksum
    whose first word counts more words than follow makes the reader erase words
    beyond the end of the buffer. *)
Theorem antenna_length_unchecked m n d v junk rest m0 k :
  data m = n :: d -> Z.of_nat (length d) < n ->
  well_formed m -> valid m = true -> Validate m = Some v ->
  data m0 = [] -> valid m0 = true -> Forall (fun x => x <> 0xD3) junk ->
  antenna_set_contents (S k) (junk ++ frame v ++ rest) (mkAntenna m0 0 [] 0) = Undefined.
Proof.
  intros Hd Hn Hm Hval HV Hd0 Hv0 Hj.
  destruct (Validate_frame m Hm) as (v' & HV' & Hv & Hvv & Hget & Hpar & Hset).
  rewrite HV in HV'. injection HV' as <-.
  assert (Forall is_byte (data m)) as Hb by apply Hm. rewrite Hd in Hb. apply Forall_cons in Hb as [Hbn Hb].
  unfold antenna_set_contents. cbn [base]. rewrite read_frame by (done || (by rewrite Hv0, Hvv)).
  assert (data v = data m) as Hdv by exact (f_equal data Hset). fields. rewrite Hdv, Hd, assign_byte by done. by rewrite (proj2 (Z.ltb_lt _ _)).
Qed.

(** ** Witnesses *)
Definition sample : RTCM3Message := mkMessage 0xD3 0 6 1005 17 0 [1; 2; 3] [] true.
Definition sample_frame : list Z := [0xD3; 0; 6; 62; 208; 17; 1; 2; 3; 235; 218; 78].
Definition bad_antenna : RTCM3Message := mkMessage 0xD3 0 5 1007 17 0 [200; 65] [] true.
Ltac bytes_ok := repeat (apply Forall_cons; split; [unfold is_byte; lia|]); constructor.
Ltac well_formed_ok := unfold well_formed; cbn; split_all; try lia; try bytes_ok.

Lemma rtcm3_roundtrip_witness :
  (exists m, set_contents 1 ([9; 9] ++ sample_frame ++ [5]) RTCM3Message_new = Some m /\ well_formed m /\ is_Valid m = true /\
     get_contents m = Some sample_frame) /\
  (exists v, Validate sample = Some v /\ v = set_CRC 15456846 sample) /\ get_contents RTCM3Message_new = None.
Proof.
  destruct (rtcm3_roundtrip [9; 9] [5] RTCM3Message_new 0) as (Hr & Hw & Hn); [reflexivity..| |].
  - repeat (apply Forall_cons; split; [lia|]); constructor.
  - split_all.
    + apply (Hr 0 6 [62; 208; 17; 1; 2; 3] 235 218 78); [bytes_ok|reflexivity|cbn; lia|vm_compute; reflexivity].
    + destruct (Hw sample) as (v & f & Hv & E & _); [well_formed_ok|reflexivity|]. exists v. split; [done|]. vm_compute in Hv. by injection Hv as <-.
    + apply Hn; [reflexivity|cbn; lia].
Defined.
Lemma rtcm3_burst_detected_witness : Validate sample = Some (set_CRC 15456846 sample) /\ forall m',
  try_frame (set_bytes ([0xD3; 0; 6; 62; 209; 19; 1; 2; 3; 235; 218; 78] ++ [7]) RTCM3Message_new) <> Found m'.
Proof.
  split; [vm_compute; reflexivity|].
  apply (rtcm3_burst_detected sample (set_CRC 15456846 sample) sample_frame _ 39 [true; false; false; false; false; false; false; true] 49);
    try (vm_compute; reflexivity); [well_formed_ok|bytes_ok|lia|cbn; lia|constructor].
Defined.
Lemma antenna_length_unchecked_witness : exists v, Validate bad_antenna = Some v /\
  antenna_set_contents 1 ([] ++ frame v ++ []) (mkAntenna RTCM3Message_new 0 [] 0) = Undefined.
Proof.
  eexists. split; [vm_compute; reflexivity|].
  apply (antenna_length_unchecked bad_antenna 200 [65] _ [] [] RTCM3Message_new 0);
    [reflexivity|cbn; lia|well_formed_ok|reflexivity|vm_compute; reflexivity|reflexivity|reflexivity|constructor].
Defined.
End Rtcm3.
