(* ===== verification/Rtcm2.v ===== *)
(** RTCM 2 messages ([src/src/tmx/Messages/include/rtcm/RTCM2.h]): the parity of the
    thirty bit words, the header and data words read from and written to the six bit
    bytes of the wire, and the text message. *)
From Stdlib Require Import Btauto.
From S2P Require Import Prelude RtcmData.
Open Scope Z_scope.

(** * Parity *)
Module Parity.
Import RtcmTypes.

Definition rtcm_word : traits := uint 30.
Definition set_bit (w i v : Z) : Z := if v =? 0 then Z.clearbit w i else Z.setbit w i.
(** The six assignments of [add_Parity]: the bit of the word, the bit of the previous
    word, and the data bits. *)
Definition equations : list (Z * Z * list Z) :=
  [(5, 29, [1; 2; 3; 5; 6; 10; 11; 12; 13; 14; 17; 18; 20; 23]);
   (4, 30, [2; 3; 4; 6; 7; 11; 12; 13; 14; 15; 18; 19; 21; 24]);
   (3, 29, [1; 3; 4; 5; 7; 8; 12; 13; 14; 15; 16; 19; 20; 22]);
   (2, 30, [2; 4; 5; 6; 8; 9; 13; 14; 15; 16; 17; 20; 21; 23]);
   (1, 30, [1; 3; 5; 6; 7; 9; 10; 14; 15; 16; 17; 18; 21; 22; 24]);
   (0, 29, [3; 5; 6; 8; 9; 10; 11; 13; 15; 19; 22; 23; 24])].
Definition add_Parity (word prevWord : Z) : Z :=
  foldl (fun w '(i, d, bits) =>
      set_bit w i (Z.lxor (get_Bit rtcm_word d prevWord) (xor_bits rtcm_word bits word)))
    (word `mod` 2 ^ 30) equations.
Definition check_Parity (word prevWord : Z) : bool := word =? add_Parity word prevWord.

(** ** The parity as a linear map *)
Definition is_word (w : Z) : Prop := 0 <= w < 2 ^ 30.
Definition xors (bits : list Z) (w : Z) : bool := foldr (fun n => xorb (Z.testbit w (30 - n))) false bits.
(** The bits of a word that its equations compare with the previous word. *)
Definition syndrome (w : Z) : list bool :=
  map (fun '(i, d, bits) => xorb (Z.testbit w i) (xors bits w)) equations.
Definition previous (p : Z) : list bool := map (fun '(i, d, bits) => Z.testbit p (30 - d)) equations.

Lemma get_Bit_b2z n w : 0 <= 30 - n -> get_Bit rtcm_word n w = Z.b2z (Z.testbit w (30 - n)).
Proof.
  intros Hn. unfold get_Bit. cbn [size rtcm_word uint]. change 1 with (Z.ones 1).
  by rewrite Z.land_ones, Z.shiftr_div_pow2, Z.testbit_spec' by lia.
Qed.
Lemma lxor_b2z a b : Z.lxor (Z.b2z a) (Z.b2z b) = Z.b2z (xorb a b).
Proof. by destruct a, b. Qed.
Lemma xor_bits_b2z bits w : Forall (fun n => 0 <= 30 - n) bits -> xor_bits rtcm_word bits w = Z.b2z (xors bits w).
Proof.
  induction 1 as [|n bits Hn Hb IH]; [done|]. cbn [xor_bits xors foldr]. rewrite get_Bit_b2z by done.
  destruct bits as [|n' bits]; [by rewrite xorb_false_r|]. by rewrite IH, lxor_b2z.
Qed.
Lemma xors_lxor bits a b : xors bits (Z.lxor a b) = xorb (xors bits a) (xors bits b).
Proof.
  induction bits as [|n bits IH]; [done|]. unfold xors in *. cbn [foldr]. rewrite Z.lxor_spec, IH. btauto.
Qed.
Lemma syndrome_lxor a b : syndrome (Z.lxor a b) = zip_with xorb (syndrome a) (syndrome b).
Proof.
  unfold syndrome. induction equations as [|[[i d] bits] l IH]; [done|]. cbn [map zip_with]. rewrite IH. f_equal.
  rewrite Z.lxor_spec, xors_lxor. btauto.
Qed.

Lemma set_bit_spec w i b j : 0 <= i -> 0 <= j ->
  Z.testbit (set_bit w i (Z.b2z b)) j = if j =? i then b else Z.testbit w j.
Proof.
  intros Hi Hj. unfold set_bit. destruct b; cbn [Z.b2z Z.eqb].
  - rewrite Z.setbit_eqb by lia. rewrite Z.eqb_sym. by destruct (j =? i).
  - rewrite Z.clearbit_eqb. rewrite Z.eqb_sym. destruct (j =? i); cbn; by rewrite ?andb_false_r, ?andb_true_r.
Qed.
Definition set_bits (w : Z) (l : list (Z * bool)) : Z := foldl (fun w ib => set_bit w ib.1 (Z.b2z ib.2)) w l.
Lemma set_bits_other l : forall w j, Forall (fun ib => 0 <= ib.1) l -> 0 <= j -> j ∉ map fst l ->
  Z.testbit (set_bits w l) j = Z.testbit w j.
Proof.
  induction l as [|[i b] l IH]; intros w j Hl Hj Hn; [done|]. apply Forall_cons in Hl as [Hi Hl]. cbn in Hi.
  apply not_elem_of_cons in Hn as [Hne Hn]. unfold set_bits in *. cbn [foldl fst snd]. rewrite IH by done.
  rewrite set_bit_spec by done. case_if; [done|done].
Qed.
(** Setting the bits of a word changes nothing exactly if they have their values. *)
Lemma set_bits_fixed l : forall w, Forall (fun ib => 0 <= ib.1) l -> NoDup (map fst l) ->
  (w =? set_bits w l) = true <-> Forall (fun ib => Z.testbit w ib.1 = ib.2) l.
Proof.
  intros w Hl Hnd. rewrite Z.eqb_eq. split.
  - intros E. revert Hl Hnd. assert (forall j, 0 <= j -> Z.testbit (set_bits w l) j = Z.testbit w j) as H by by rewrite <-E.
    clear E. revert H. generalize w at 1 as w'. induction l as [|[i b] l IH]; intros w' H Hl Hnd; [done|].
    apply Forall_cons in Hl as [Hi Hl]. cbn [map fst] in Hi, Hnd. apply NoDup_cons in Hnd as [Hn Hnd].
    constructor; [|by apply (IH (set_bit w' i (Z.b2z b)))]. cbn. rewrite <-H by done. unfold set_bits. cbn [foldl fst snd].
    change (foldl _ ?x l) with (set_bits x l). rewrite set_bits_other, set_bit_spec, Z.eqb_refl by done. done.
  - induction 1 as [|[i b] l Hb Hf IH] in Hl, Hnd |- *; [done|]. apply Forall_cons in Hl as [Hi Hl].
    cbn [map fst snd] in Hb, Hi, Hnd. apply NoDup_cons in Hnd as [Hn Hnd]. unfold set_bits in *. cbn [foldl fst snd].
    replace (set_bit w i (Z.b2z b)) with w; [by apply IH|].
    apply Z.bits_inj'. intros j Hj. rewrite set_bit_spec by done. destruct (Z.eqb_spec j i) as [->|]; done.
Qed.

Lemma add_Parity_bits w p : is_word w ->
  add_Parity w p = set_bits w (map (fun '(i, d, bits) => (i, xorb (Z.testbit p (30 - d)) (xors bits w))) equations).
Proof.
  intros Hw. unfold add_Parity. rewrite Z.mod_small by done.
  cut (forall w', foldl (fun v '(i, d, bits) =>
      set_bit v i (Z.lxor (get_Bit rtcm_word d p) (xor_bits rtcm_word bits w))) w' equations =
    set_bits w' (map (fun '(i, d, bits) => (i, xorb (Z.testbit p (30 - d)) (xors bits w))) equations)); [done|].
  assert (Forall (fun '(i, d, bits) => 0 <= 30 - d /\ Forall (fun n => 0 <= 30 - n) bits) equations) as H.
  { unfold equations. repeat (apply Forall_cons; split; [split; [lia|]; repeat (apply Forall_cons; split; [lia|]); constructor|]).
    constructor. }
  induction H as [|[[i d] bits] l [Hd Hb] H IH]; intros w'; [done|]. unfold set_bits in *. cbn [map foldl fst snd].
  by rewrite IH, get_Bit_b2z, xor_bits_b2z, lxor_b2z.
Qed.
Lemma check_Parity_syndrome w p : is_word w -> check_Parity w p = true <-> syndrome w = previous p.
Proof.
  intros Hw. unfold check_Parity. rewrite add_Parity_bits by done. rewrite set_bits_fixed; cycle 1.
  { repeat (apply Forall_cons; split; [cbn; lia|]). constructor. }
  { apply (bool_decide_unpack _). by vm_compute. }
  -  unfold syndrome, previous. induction equations as [|[[i d] bits] l IH]; [done|]. cbn [map].
    rewrite Forall_cons, IH. cbn [fst snd]. split.
    + intros [-> ->]. f_equal. by destruct (Z.testbit p (30 - d)), (xors bits w).
    + intros [= H ->]. split; [|done]. rewrite <-H. by destruct (Z.testbit w i), (xors bits w).
Qed.
(** Only the last two bits of the previous word count. *)
Lemma check_Parity_previous w p q : is_word w -> check_Parity w p = true -> p `mod` 4 = q `mod` 4 -> check_Parity w q = true.
Proof.
  intros Hw Hc Hpq. rewrite check_Parity_syndrome in * by done. rewrite Hc.
  assert (forall i, 0 <= i < 2 -> Z.testbit p i = Z.testbit q i) as H.
  { intros i Hi. rewrite <-(Z.mod_pow2_bits_low p 2 i), <-(Z.mod_pow2_bits_low q 2 i) by lia. change (2 ^ 2) with 4. by rewrite Hpq. }
  unfold previous, equations. cbn [map]. change (30 - 29) with 1. change (30 - 30) with 0. by rewrite !H by lia.
Qed.
Lemma check_Parity_unique w p q : is_word w -> check_Parity w p = true -> check_Parity w q = true -> p `mod` 4 = q `mod` 4.
Proof.
  intros Hw Hp Hq. rewrite check_Parity_syndrome in Hp, Hq by done. rewrite Hp in Hq.
  injection Hq as H1 H0 _ _ _ _. change (30 - 29) with 1 in *. change (30 - 30) with 0 in *.
  apply Z.bits_inj'. intros i Hi. change 4 with (2 ^ 2). destruct (Z.lt_ge_cases i 2).
  - rewrite !Z.mod_pow2_bits_low by lia. assert (i = 0 \/ i = 1) as [-> | ->] by lia; done.
  - by rewrite !Z.mod_pow2_bits_high by lia.
Qed.

(** [add_Parity] gives the word with the right parity and the same data. *)
Lemma set_bits_lookup l : forall w i b, Forall (fun ib => 0 <= ib.1) l -> NoDup (map fst l) -> (i, b) ∈ l ->
  Z.testbit (set_bits w l) i = b.
Proof.
  induction l as [|[i' b'] l IH]; intros w i b Hl Hnd Hin; [by apply not_elem_of_nil in Hin|].
  apply Forall_cons in Hl as [Hi Hl]. cbn [map fst] in *. apply NoDup_cons in Hnd as [Hn Hnd].
  unfold set_bits. cbn [foldl fst snd]. change (foldl _ ?x l) with (set_bits x l).
  apply elem_of_cons in Hin as [[= -> ->]|Hin]; [|by apply IH].
  by rewrite set_bits_other, set_bit_spec, Z.eqb_refl.
Qed.
Lemma add_Parity_data w p i : is_word w -> 6 <= i -> Z.testbit (add_Parity w p) i = Z.testbit w i.
Proof.
  intros Hw Hi. rewrite add_Parity_bits by done. apply set_bits_other; [|lia|].
  - repeat (apply Forall_cons; split; [cbn; lia|]). constructor.
  - cbn. rewrite !elem_of_cons, elem_of_nil. lia.
Qed.
Lemma add_Parity_word w p : is_word w -> is_word (add_Parity w p).
Proof.
  intros Hw. assert (forall l v, is_word v -> Forall (fun ib => 0 <= ib.1 < 30) l -> is_word (set_bits v l)) as H.
  { induction l as [|[i b] l IH]; intros v Hv Hl; [done|]. apply Forall_cons in Hl as [Hi Hl]. cbn in Hi.
    apply IH; [|done]. unfold is_word in *. cbn [fst snd].
    replace (set_bit v i (Z.b2z b)) with (set_bit v i (Z.b2z b) `mod` 2 ^ 30); [apply Z.mod_pos_bound; lia|].
    apply Z.bits_inj'. intros j Hj. destruct (Z.lt_ge_cases j 30); [by rewrite Z.mod_pow2_bits_low|].
    rewrite Z.mod_pow2_bits_high, set_bit_spec by lia. rewrite (proj2 (Z.eqb_neq j i)) by lia.
    rewrite <-(Z.mod_small v (2 ^ 30)), Z.mod_pow2_bits_high by lia. done. }
  rewrite add_Parity_bits by done. apply H; [done|]. repeat (apply Forall_cons; split; [cbn; lia|]). constructor.
Qed.
Lemma check_add_Parity w p : is_word w -> check_Parity (add_Parity w p) p = true.
Proof.
  intros Hw. apply check_Parity_syndrome; [by apply add_Parity_word|].
  assert (forall bits, Forall (fun n => 1 <= n <= 24) bits -> xors bits (add_Parity w p) = xors bits w) as Hx.
  { induction 1 as [|n bits Hn Hb IH]; [done|]. unfold xors in *. cbn [foldr]. by rewrite IH, add_Parity_data by (done || lia). }
  unfold syndrome, previous. apply map_ext_in. intros [[i d] bits] Hin. apply list_elem_of_In in Hin.
  assert (Z.testbit (add_Parity w p) i = xorb (Z.testbit p (30 - d)) (xors bits w)) as ->.
  { rewrite add_Parity_bits by done. apply set_bits_lookup.
    - repeat (apply Forall_cons; split; [cbn; lia|]). constructor.
    - apply (bool_decide_unpack _). by vm_compute.
    - apply list_elem_of_In, in_map_iff. exists (i, d, bits). split; [done|by apply list_elem_of_In]. }
  rewrite Hx; [btauto|].
  assert (Forall (fun '(_, _, bits) => Forall (fun n => 1 <= n <= 24) bits) equations) as Hall.
  { unfold equations. repeat (apply Forall_cons; split; [repeat (apply Forall_cons; split; [lia|]); constructor|]). constructor. }
  rewrite Forall_forall in Hall. exact (Hall _ Hin).
Qed.
(** The word with its low bits from [add_Parity]. *)
Lemma add_Parity_low x y p : is_word (x * 64 + y) -> 0 <= y < 64 ->
  add_Parity (x * 64 + y) p = x * 64 + Z.land (add_Parity (x * 64 + y) p) 63.
Proof.
  intros Hw Hy. set (w := x * 64 + y) in *. change 63 with (Z.ones 6). rewrite Z.land_ones by lia.
  assert (Z.shiftr (add_Parity w p) 6 = x) as E.
  { trans (Z.shiftr w 6).
    - apply Z.bits_inj'. intros i Hi. rewrite !Z.shiftr_spec by done. apply add_Parity_data; [done|lia].
    - rewrite Z.shiftr_div_pow2 by lia. unfold w. change 64 with (2 ^ 6). rewrite Z.div_add_l, Z.div_small by lia. lia. }
  rewrite Z.shiftr_div_pow2 in E by lia. pose proof (Z.div_mod (add_Parity w p) (2 ^ 6)) as H. lia.
Qed.

(** A word with the bits [es] changed. *)
Definition flip (es : list Z) (w : Z) : Z := foldr (fun i w => Z.lxor w (2 ^ i)) w es.
Lemma flip_lxor es w : flip es w = Z.lxor w (flip es 0).
Proof.
  induction es as [|e es IH]; cbn; [by rewrite Z.lxor_0_r|]. unfold flip in IH. by rewrite IH, Z.lxor_assoc.
Qed.
Lemma flip_word es w : is_word w -> Forall (fun i => 0 <= i < 30) es -> is_word (flip es w).
Proof.
  intros Hw. induction 1 as [|e es He Hes IH]; [done|]. cbn. unfold is_word in *. split.
  - apply Z.lxor_nonneg. assert (0 < 2 ^ e) by (apply Z.pow_pos_nonneg; lia). unfold flip in IH. lia.
  - unfold flip in IH. destruct IH as [H0 H1]. set (x := foldr _ w es) in *.
    assert (0 < 2 ^ e) by (apply Z.pow_pos_nonneg; lia).
    replace (Z.lxor x (2 ^ e)) with (Z.lxor x (2 ^ e) `mod` 2 ^ 30); [apply Z.mod_pos_bound; lia|].
    apply Z.bits_inj'. intros j Hj. destruct (Z.lt_ge_cases j 30); [by rewrite Z.mod_pow2_bits_low|].
    rewrite Z.mod_pow2_bits_high, Z.lxor_spec, Z.pow2_bits_false by lia.
    rewrite <-(Z.mod_small x (2 ^ 30)), Z.mod_pow2_bits_high by lia. done.
Qed.
Lemma zip_xorb_id v : forall f, length f = length v -> zip_with xorb v f = v -> f = replicate (length v) false.
Proof.
  induction v as [|b v IH]; intros [|c f] Hl H; try done. cbn in *. injection H as H1 H2. f_equal; [by destruct b, c|].
  apply IH; [lia|done].
Qed.
(** The syndromes of up to three changed bits are not zero. *)
Definition detected (es : list Z) : bool := negb (bool_decide (syndrome (flip es 0) = replicate 6 false)).
Lemma detected_all :
  forallb (fun i => detected [i] && forallb (fun j => (j =? i) || detected [i; j] &&
    forallb (fun k => (k =? i) || (k =? j) || detected [i; j; k]) (seqZ 0 30)) (seqZ 0 30)) (seqZ 0 30) = true.
Proof. vm_compute. reflexivity. Qed.
Lemma detected_few es : Forall (fun i => 0 <= i < 30) es -> NoDup es -> (1 <= length es <= 3)%nat -> detected es = true.
Proof.
  intros Hes Hnd Hl. pose proof detected_all as H. rewrite forallb_forall in H.
  assert (forall i, 0 <= i < 30 -> In i (seqZ 0 30)) as Hin by (intros i Hi; apply list_elem_of_In, elem_of_seqZ; lia).
  destruct es as [|i [|j [|k [|]]]]; cbn in Hl; try lia; rewrite !Forall_cons in Hes;
    destruct Hes as [Hi Hes]; specialize (H i (Hin i Hi)); apply andb_prop in H as [H1 H]; [done|..];
    destruct Hes as [Hj Hes]; rewrite forallb_forall in H; specialize (H j (Hin j Hj));
    rewrite !NoDup_cons, ?elem_of_cons in Hnd; apply orb_prop in H as [H|H]; try (apply Z.eqb_eq in H; set_solver);
    apply andb_prop in H as [H2 H]; [done|].
  destruct Hes as [Hk _]. rewrite forallb_forall in H. specialize (H k (Hin k Hk)).
  apply orb_prop in H as [H|H]; [|done]. apply orb_prop in H as [H|H]; apply Z.eqb_eq in H; set_solver.
Qed.

(** Changed bits of a word are detected. If the parity of a word is right, it is
    wrong after one, two or three bits of the word, of its data or of its parity, have
    been changed. *)
Theorem parity_detects w p es :
  is_word w -> check_Parity w p = true -> Forall (fun i => 0 <= i < 30) es -> NoDup es -> (1 <= length es <= 3)%nat ->
  check_Parity (flip es w) p = false.
Proof.
  intros Hw Hp Hes Hnd Hl. apply not_true_is_false. intros Hc. pose proof (detected_few es Hes Hnd Hl) as Hd.
  rewrite check_Parity_syndrome in * by (try apply flip_word; done).
  rewrite flip_lxor, syndrome_lxor, Hp in Hc. unfold detected in Hd. apply negb_true_iff, bool_decide_eq_false in Hd.
  apply Hd. by apply (zip_xorb_id (previous p)).
Qed.
Lemma parity_detects_witness : check_Parity (flip [3; 17; 29] (add_Parity 430000000 2)) 2 = false.
Proof.
  apply (parity_detects (add_Parity 430000000 2) 2 [3; 17; 29]).
  - vm_compute. split; congruence.
  - vm_compute. reflexivity.
  - repeat (apply Forall_cons; split; [lia|]). constructor.
  - apply (bool_decide_unpack _). vm_compute. exact I.
  - cbn. lia.
Defined.
End Parity.

(** * The message *)
Module Rtcm2.
Import RtcmTypes RtcmDataManager Parity.

(** The attributes, the words of the data manager, the bytes and flag of the base
    class, and the last word of the previous message. [stored] says that an attribute
    has been stored since the construction: only then are the header words computed
    from the attributes, since the version of the container has changed; before, they
    are the zeros that fill the empty list. *)
Record RTCM2Message := mkMessage {
  Preamble : Z; FrameID : Z; StationID : Z; Parity1 : Z; ModifiedZCount : Z; SequenceNumber : Z;
  NumberDataWords : Z; StationHealth : Z; Parity2 : Z;
  data : list Z; bytes : list Z; valid : bool; primerWord : Z; stored : bool }.
Definition RTCM2Message_new : RTCM2Message := mkMessage 0x66 0 0 0 0 0 0 0 0 [] [] true 0 false.
Definition mgr : manager := mkManager (uint 30) (uint 6) 0x40.
Definition data_bitmask : Z := Z.lxor (bitmask (uint 30)) (bitmask (uint 6)).
Definition complPreamble : Z := Z.lxor 0x66 0x3F.

Definition header_attrs (m : RTCM2Message) : list (traits * Z) :=
  [(uint 8, Preamble m); (uint 6, FrameID m); (uint 10, StationID m); (uint 6, Parity1 m);
   (uint 13, ModifiedZCount m); (uint 3, SequenceNumber m); (uint 5, NumberDataWords m);
   (uint 3, StationHealth m); (uint 6, Parity2 m)].
Definition header_types : list traits :=
  [uint 8; uint 6; uint 10; uint 6; uint 13; uint 3; uint 5; uint 3; uint 6].

Definition set_header (vs : list Z) (m : RTCM2Message) : RTCM2Message :=
  match vs with
  | [p; f; s; p1; z; q; n; h; p2] =>
      mkMessage p f s p1 z q n h p2 (data m) (bytes m) (valid m) (primerWord m) true
  | _ => m
  end.
Definition set_data (d : list Z) (m : RTCM2Message) : RTCM2Message :=
  mkMessage (Preamble m) (FrameID m) (StationID m) (Parity1 m) (ModifiedZCount m) (SequenceNumber m)
    (NumberDataWords m) (StationHealth m) (Parity2 m) d (bytes m) (valid m) (primerWord m) (stored m).
Definition set_bytes (b : list Z) (m : RTCM2Message) : RTCM2Message :=
  mkMessage (Preamble m) (FrameID m) (StationID m) (Parity1 m) (ModifiedZCount m) (SequenceNumber m)
    (NumberDataWords m) (StationHealth m) (Parity2 m) (data m) b (valid m) (primerWord m) (stored m).
Definition set_primerWord (p : Z) (m : RTCM2Message) : RTCM2Message :=
  mkMessage (Preamble m) (FrameID m) (StationID m) (Parity1 m) (ModifiedZCount m) (SequenceNumber m)
    (NumberDataWords m) (StationHealth m) (Parity2 m) (data m) (bytes m) (valid m) p (stored m).
Definition set_Parity (p1 p2 : Z) (m : RTCM2Message) : RTCM2Message :=
  mkMessage (Preamble m) (FrameID m) (StationID m) p1 (ModifiedZCount m) (SequenceNumber m)
    (NumberDataWords m) (StationHealth m) p2 (data m) (bytes m) (valid m) (primerWord m) true.
Definition set_NumberDataWords (n : Z) (m : RTCM2Message) : RTCM2Message :=
  mkMessage (Preamble m) (FrameID m) (StationID m) (Parity1 m) (ModifiedZCount m) (SequenceNumber m)
    n (StationHealth m) (Parity2 m) (data m) (bytes m) (valid m) (primerWord m) true.
Definition invalidate (m : RTCM2Message) : RTCM2Message :=
  mkMessage (Preamble m) (FrameID m) (StationID m) (Parity1 m) (ModifiedZCount m) (SequenceNumber m)
    (NumberDataWords m) (StationHealth m) (Parity2 m) (data m) (bytes m) false (primerWord m) (stored m).

Definition get_MessageType (m : RTCM2Message) : Z := FrameID m.
Definition get_Rtcm2Header (m : RTCM2Message) : list Z :=
  let rtcm2Hdr := if stored m then extractWords mgr (header_attrs m) else [] in
  rtcm2Hdr ++ replicate (2 - length rtcm2Hdr) 0.
Definition get_Header1 (m : RTCM2Message) : Z := default 0 (get_Rtcm2Header m !! 0%nat).
Definition get_Header2 (m : RTCM2Message) : Z := default 0 (get_Rtcm2Header m !! 1%nat).
Definition is_Valid (m : RTCM2Message) : bool :=
  let h1 := get_Header1 m in
  let h2 := get_Header2 m in
  valid m && (Z.shiftr h1 (30 - 8) =? Preamble m) && (Preamble m =? 0x66) &&
  check_Parity h1 (primerWord m) && check_Parity h2 (Parity1 m).
Definition Validate (m : RTCM2Message) : RTCM2Message :=
  let m := set_Parity (Z.land (add_Parity (get_Header1 m) 0) (bitmask (uint 6))) (Parity2 m) m in
  set_Parity (Parity1 m) (Z.land (add_Parity (get_Header2 m) (Parity1 m)) (bitmask (uint 6))) m.
Definition size (m : RTCM2Message) : Z := wordSize mgr * (2 + NumberDataWords m).
Definition get_LastWord (m : RTCM2Message) : Z :=
  if 0 <? Z.of_nat (length (data m)) then getData (Z.of_nat (length (data m)) - 1) (data m) else Parity2 m.
(** [None] for the argument: no previous message of this version. *)
Definition set_PreviousMessage (ptr : option RTCM2Message) (m : RTCM2Message) : RTCM2Message :=
  match ptr with Some q => set_primerWord (get_LastWord q) m | None => m end.

(** ** Reading *)
Fixpoint skip_to_preamble (b : list Z) : list Z :=
  match b with
  | [] => []
  | x :: b' => if negb (x =? 0x66) && negb (x =? complPreamble) then skip_to_preamble b' else b
  end.
(** The data bits are complemented if the last bit of the previous word is set. *)
Definition complement (prev w : Z) : Z := if Z.land prev 1 =? 1 then Z.lxor w data_bitmask else w.
(** The trials for the previous word: the first word and the value found, or the last
    value tried. *)
Fixpoint trials (ps : list Z) (tmp : Z) : option Z * Z :=
  match ps with
  | [] => (None, 0)
  | p :: ps =>
      let tmp := if negb (p =? 0) then Z.lxor tmp data_bitmask else tmp in
      if (Z.shiftr tmp (30 - 8) =? 0x66) && check_Parity tmp p then (Some tmp, p)
      else match ps with [] => (None, p) | _ => trials ps tmp end
  end.
Definition first_word (m : RTCM2Message) : RTCM2Message :=
  if negb (primerWord m =? 0) then
    set_data (replaceData 0 (complement (primerWord m) (getData 0 (data m))) (data m)) m
  else
    match trials [0; 1; 2; 3] (getData 0 (data m)) with
    | (Some tmp, p) => set_primerWord p (set_data (replaceData 0 tmp (data m)) m)
    | (None, p) => set_primerWord p m
    end.
Definition second_word (m : RTCM2Message) : RTCM2Message :=
  set_data (replaceData 1 (complement (getData 0 (data m)) (getData 1 (data m))) (data m)) m.

Inductive outcome := Found (m : RTCM2Message) | Retry (m : RTCM2Message) | Invalid (m : RTCM2Message).
Definition try_header (m : RTCM2Message) : outcome :=
  let m := set_bytes (skip_to_preamble (bytes m)) m in
  if Z.of_nat (length (bytes m)) <? 2 * wordSize mgr then Invalid (invalidate m)
  else
    let m := second_word (first_word (set_data (loadData mgr (bytes m) 2 (data m)) m)) in
    match assignData mgr header_types (data m) with
    | None => Invalid (invalidate m)
    | Some (vs, d) =>
        let m := set_data d (set_header vs m) in
        if is_Valid m then Found m else Retry (set_primerWord 0 (set_bytes (tail (bytes m)) m))
    end.
(** The loop over the data words. *)
Fixpoint recycle (n : nat) (i lastWord : Z) (d : list Z) : list Z :=
  match n with
  | O => d
  | S n =>
      let d := replaceData i (complement lastWord (getData i d)) d in
      recycle n (i + 1) (getData i d) d
  end.
Definition load_message (m : RTCM2Message) : RTCM2Message :=
  let m := set_bytes (drop (Z.to_nat (countWords mgr header_types * wordSize mgr)) (bytes m)) m in
  if Z.of_nat (length (bytes m)) <? wordSize mgr * NumberDataWords m then invalidate m
  else
    let d := loadData mgr (bytes m) (NumberDataWords m) (data m) in
    set_data (recycle (Z.to_nat (NumberDataWords m)) 0 (Parity2 m) d) m.
Fixpoint read_loop (fuel : nat) (m : RTCM2Message) : option RTCM2Message :=
  match fuel with
  | O => None
  | S fuel =>
      match try_header m with
      | Found m => Some (load_message m)
      | Retry m => read_loop fuel m
      | Invalid m => Some m
      end
  end.
Definition set_contents (input : list Z) (m : RTCM2Message) : option RTCM2Message :=
  read_loop (S (length input)) (set_bytes input m).

(** ** Writing *)
Fixpoint write_words (prev : Z) (ws : list Z) (b : list Z) : list Z :=
  match ws with
  | [] => b
  | w :: ws => let w := complement prev w in write_words w ws (writeWord mgr w b)
  end.
Definition get_contents (m : RTCM2Message) : list Z :=
  let hdr1 := complement (primerWord m) (get_Header1 m) in
  let hdr2 := complement hdr1 (get_Header2 m) in
  write_words hdr2 (data m) (writeWord mgr hdr2 (writeWord mgr hdr1 [])).

(** ** The text message *)
Abbreviation text := (list Z).
Definition GPSSpecialMessage : Z := 16.
(** Characters are signed. *)
Definition text_word (message : text) (i : nat) : Z :=
  let c k := default 0 (message !! k) in
  Z.lor (Z.lor (u32 (Z.shiftl (wraps 8 (c i)) 22))
    (if (S i <? length message)%nat then u32 (Z.shiftl (wraps 8 (c (S i))) 14) else 0))
    (if (S (S i) <? length message)%nat then u32 (Z.shiftl (wraps 8 (c (S (S i)))) 6) else 0).
Fixpoint text_words (fuel : nat) (message : text) (i : nat) (prevWord : Z) (d : list Z) : list Z :=
  match fuel with
  | O => d
  | S fuel =>
      if (i <? length message)%nat then
        let w := add_Parity (text_word message i) prevWord in
        text_words fuel message (i + 3) w (loadWord w d)
      else d
  end.
Definition assignMessage (message : text) (m : RTCM2Message) : RTCM2Message :=
  let len := Z.of_nat (length message) in
  let m := set_NumberDataWords (len `div` 3 + (if len `mod` 3 =? 0 then 0 else 1)) (set_data [] m) in
  let m := Validate m in
  set_data (text_words (length message) message 0 (get_Header2 m) (data m)) m.
(** [None]: a word with the wrong parity. *)
Definition word_text (w : Z) : text :=
  let word := Z.shiftr w 6 in
  List.concat (map (fun n => let c := Z.land (Z.shiftr word (8 * (2 - n))) 0xFF in
    if (0 <? n) && (c =? 0) then [] else [c]) [0; 1; 2]).
Fixpoint read_text (prevWord : Z) (ws : list Z) : option text :=
  match ws with
  | [] => Some []
  | w :: ws =>
      if negb (check_Parity w prevWord) then None
      else match read_text w ws with None => None | Some t => Some (word_text w ++ t) end
  end.
Definition special_set_contents (input : list Z) (m : RTCM2Message) : option (RTCM2Message * option text) :=
  match set_contents input m with
  | None => None
  | Some m =>
      match read_text (Parity2 m) (data m) with
      | None => Some (invalidate m, None)
      | Some t => Some (m, Some t)
      end
  end.

(** ** Complements *)
Lemma data_bitmask_eq : data_bitmask = Z.shiftl (Z.ones 24) 6.
Proof. reflexivity. Qed.
Lemma is_word_bits w : is_word w <-> 0 <= w /\ forall i, 30 <= i -> Z.testbit w i = false.
Proof.
  unfold is_word. split.
  - intros Hw. split; [lia|]. intros i Hi. rewrite <-(Z.mod_small w (2 ^ 30)) by done. by apply Z.mod_pow2_bits_high.
  - intros [H0 H]. replace w with (w `mod` 2 ^ 30); [apply Z.mod_pos_bound; lia|].
    apply Z.bits_inj'. intros i Hi. destruct (Z.lt_ge_cases i 30).
    + by rewrite Z.mod_pow2_bits_low.
    + by rewrite Z.mod_pow2_bits_high, H.
Qed.
Lemma complement_word p w : is_word w -> is_word (complement p w).
Proof.
  intros Hw. unfold complement. case_if; [|done]. rewrite is_word_bits in *. destruct Hw as [H0 H]. split.
  - apply Z.lxor_nonneg. split; intros _; [|done]. vm_compute. congruence.
  - intros i Hi. rewrite Z.lxor_spec, H by done. rewrite data_bitmask_eq, Z.shiftl_spec, Z.ones_spec_high by lia. done.
Qed.
Lemma complement_last p w : Z.land (complement p w) 1 = Z.land w 1.
Proof.
  unfold complement. case_if; [|done]. apply Z.bits_inj'. intros i Hi. rewrite !Z.land_spec, Z.lxor_spec.
  destruct (decide (i = 0)) as [->|].
  - change (Z.testbit data_bitmask 0) with false. by rewrite xorb_false_r.
  - change 1 with (Z.ones 1). rewrite Z.ones_spec_high, !andb_false_r by lia. done.
Qed.
Lemma complement_same p q w : Z.land p 1 = Z.land q 1 -> complement p w = complement q w.
Proof. unfold complement. by intros ->. Qed.
Lemma complement_twice p w : complement p (complement p w) = w.
Proof. unfold complement. case_if; [|done]. by rewrite Z.lxor_assoc, Z.lxor_nilpotent, Z.lxor_0_r. Qed.

(** ** The words of the wire *)
#[export] Instance mgr2_codec : Codec mgr.
Proof.
  split; try (cbn; lia); try done. intros b Hb.
  assert (forallb (fun b => unroll mgr (code mgr b) =? b) (seqZ 0 64) = true) as H by (vm_compute; reflexivity).
  rewrite forallb_forall in H. apply Z.eqb_eq, H, list_elem_of_In, elem_of_seqZ. cbn in Hb. lia.
Qed.
Fixpoint transmit (prev : Z) (ws : list Z) : list Z :=
  match ws with [] => [] | w :: ws => let w := complement prev w in w :: transmit w ws end.
Definition sent (m : RTCM2Message) : list Z := transmit (primerWord m) (get_Header1 m :: get_Header2 m :: data m).
Lemma write_words_eq ws : forall prev b, write_words prev ws b = b ++ (transmit prev ws ≫= word_bytes mgr).
Proof.
  induction ws as [|w ws IH]; intros prev b; [cbn; by rewrite app_nil_r|]. cbn [write_words transmit mbind list_bind].
  by rewrite IH, (writeWord_eq mgr), app_assoc.
Qed.
Lemma get_contents_sent m : get_contents m = sent m ≫= word_bytes mgr.
Proof.
  unfold get_contents, sent. rewrite write_words_eq, !(writeWord_eq mgr). cbn [transmit mbind list_bind].
  by rewrite app_nil_l, <-!app_assoc.
Qed.
Lemma transmit_words ws : forall prev, Forall is_word ws -> Forall is_word (transmit prev ws).
Proof.
  induction ws as [|w ws IH]; intros prev H; [done|]. apply Forall_cons in H as [Hw H]. cbn [transmit].
  constructor; [by apply complement_word|by apply IH].
Qed.
Lemma length_transmit ws : forall prev, length (transmit prev ws) = length ws.
Proof. induction ws as [|w ws IH]; intros prev; [done|]. cbn. by rewrite IH. Qed.
(** Reading undoes the complements. *)
Lemma recycle_transmit ws : forall prev last d, Z.land prev 1 = Z.land last 1 ->
  recycle (length ws) (Z.of_nat (length d)) last (d ++ transmit prev ws) = d ++ ws.
Proof.
  induction ws as [|w ws IH]; intros prev last d Hl; [done|]. cbn [length recycle transmit].
  assert (forall x, getData (Z.of_nat (length d)) (d ++ x :: transmit (complement prev w) ws) = x) as Hget.
  { intros x. unfold getData. by rewrite Nat2Z.id, list_lookup_middle. }
  assert (forall x y, replaceData (Z.of_nat (length d)) x (d ++ y :: transmit (complement prev w) ws)
    = d ++ x :: transmit (complement prev w) ws) as Hset.
  { intros x y. unfold replaceData. rewrite Nat2Z.id. by rewrite <-(Nat.add_0_r (length d)), insert_app_r. }
  rewrite Hget, Hset, Hget, (complement_same last prev), complement_twice by done.
  replace (Z.of_nat (length d) + 1) with (Z.of_nat (length (d ++ [w]))) by (rewrite length_app; cbn; lia).
  replace (d ++ w :: transmit (complement prev w) ws) with ((d ++ [w]) ++ transmit (complement prev w) ws) by by rewrite <-app_assoc.
  rewrite IH by apply complement_last. by rewrite <-app_assoc.
Qed.

(** ** The header *)
Definition in_range (m : RTCM2Message) : Prop :=
  Preamble m = 0x66 /\ 0 <= FrameID m < 64 /\ 0 <= StationID m < 1024 /\ 0 <= Parity1 m < 64 /\
  0 <= ModifiedZCount m < 8192 /\ 0 <= SequenceNumber m < 8 /\ 0 <= NumberDataWords m < 32 /\
  0 <= StationHealth m < 8 /\ 0 <= Parity2 m < 64 /\ stored m = true.
Lemma header_fits m : in_range m -> all_fit (header_attrs m).
Proof.
  intros (Hp & H). unfold header_attrs. rewrite Hp. split_all. repeat (apply Forall_cons; split; [split; cbn; lia|]). constructor.
Qed.
Lemma whole_header2 m : whole_words mgr (map fst (header_attrs m)).
Proof. repeat split; vm_compute; congruence. Qed.
Lemma header_words m : in_range m -> exists h1 h2, extractWords mgr (header_attrs m) = [h1; h2] /\
  get_Header1 m = h1 /\ get_Header2 m = h2 /\ is_word h1 /\ is_word h2 /\
  h1 = ((Preamble m * 64 + FrameID m) * 1024 + StationID m) * 64 + Parity1 m /\
  h2 = (((ModifiedZCount m * 8 + SequenceNumber m) * 32 + NumberDataWords m) * 8 + StationHealth m) * 64 + Parity2 m.
Proof.
  intros Hm. pose proof (extractWords_words mgr (header_attrs m) (header_fits m Hm) (whole_header2 m)) as Hw.
  pose proof (extractWords_eq mgr (header_attrs m) (header_fits m Hm) (whole_header2 m)) as E.
  set (h1 := ((Preamble m * 64 + FrameID m) * 1024 + StationID m) * 64 + Parity1 m).
  set (h2 := (((ModifiedZCount m * 8 + SequenceNumber m) * 32 + NumberDataWords m) * 8 + StationHealth m) * 64 + Parity2 m).
  destruct Hm as (Hp & Hf & Hs & Hp1 & Hz & Hq & Hn & Hh & Hp2 & Hst).
  assert (extractWords mgr (header_attrs m) = [h1; h2]) as Hx.
  { rewrite E. change (Z.to_nat (countWords mgr (map fst (header_attrs m)))) with 2%nat.
    replace (pack (header_attrs m)) with (h1 * 2 ^ 30 + h2) by (unfold pack, header_attrs, raw, h1, h2; cbn -[Z.mul Z.add Z.pow]; lia).
    rewrite !(split_list_S (RtcmDataManager.rtcm_word mgr)) by (done || (cbn; lia)). cbn [RtcmTypes.size RtcmDataManager.rtcm_word mgr uint].
    rewrite Z.div_add_l, (Z.div_small h2), Z.add_0_r by (unfold h2; lia).
    rewrite (Z.add_comm _ h2), Z.mod_add, !Z.mod_small by (unfold h1, h2; lia). done. }
  exists h1, h2. unfold get_Header1, get_Header2, get_Rtcm2Header. rewrite Hst, Hx.
  repeat split; unfold h1, h2; lia.
Qed.

Lemma land_1_mod p : Z.land p 1 = p `mod` 2.
Proof. change 1 with (Z.ones 1). by rewrite Z.land_ones. Qed.
Lemma complement_mod4 p w : complement (p `mod` 4) w = complement p w.
Proof. apply complement_same. rewrite !land_1_mod. Z.div_mod_to_equations. lia. Qed.
(** The trial finds the last two bits of the previous word. *)
Lemma trials_find h p : is_word h -> Z.shiftr h 22 = 0x66 -> check_Parity h p = true ->
  trials [0; 1; 2; 3] (complement p h) = (Some h, p `mod` 4).
Proof.
  intros Hw Hpre Hc. rewrite <-complement_mod4. set (q := p `mod` 4).
  assert (check_Parity h q = true) as Hq by (apply (check_Parity_previous h p); [done..|]; unfold q; by rewrite Z.mod_mod).
  assert (forall r, 0 <= r < 4 -> r <> q -> check_Parity h r = false) as Hr.
  { intros r Hr Hne. apply not_true_is_false. intros H. apply Hne.
    pose proof (check_Parity_unique h r q Hw H Hq) as E. unfold q in *. rewrite Z.mod_mod, (Z.mod_small r) in E by lia. done. }
  assert (Z.shiftr (Z.lxor h data_bitmask) 22 = 0x99) as Hcomp by by rewrite Z.shiftr_lxor, Hpre.
  assert (Z.lxor (Z.lxor h data_bitmask) data_bitmask = h) as Hinv by by rewrite Z.lxor_assoc, Z.lxor_nilpotent, Z.lxor_0_r.
  assert (q = 0 \/ q = 1 \/ q = 2 \/ q = 3) as Hcases.
  { pose proof (Z.mod_pos_bound p 4 ltac:(lia)). unfold q. lia. }
  clearbody q. cbn [trials]. change (30 - 8) with 22. 
  destruct Hcases as [-> | [-> | [-> | ->]]]; cbn [Z.eqb negb].
  - change (complement 0 h) with h. by rewrite Hpre, Hq.
  - change (complement 1 h) with (Z.lxor h data_bitmask). by rewrite Hcomp, Hinv, Hpre, Hq.
  - change (complement 2 h) with h. by rewrite Hpre, (Hr 0), Hcomp, Hinv, Hpre, Hq by lia.
  - change (complement 3 h) with (Z.lxor h data_bitmask).
    by rewrite Hcomp, Hinv, Hpre, (Hr 1), Hcomp, Hinv, Hpre, Hq by lia.
Qed.
(** A frame starts with the preamble or its complement. *)
Lemma first_byte h p ws : Z.shiftr h 22 = 0x66 -> 
  exists x b, (complement p h :: ws) ≫= word_bytes mgr = x :: b /\ (x = 0x66 \/ x = complPreamble).
Proof.
  intros Hpre. cbn [mbind list_bind]. eexists _, _. split; [reflexivity|].
  assert (forall w, code mgr (splitWord (uint 6) w 4) = code mgr (Z.land (Z.shiftr w 24) 63)) as E by done.
  change (code mgr (splitWord (uint 6) (complement p h) 4) = 0x66 \/ code mgr (splitWord (uint 6) (complement p h) 4) = complPreamble).
  rewrite E. assert (Z.shiftr h 24 = 0x19) as H24 by (change 24 with (22 + 2); by rewrite <-Z.shiftr_shiftr, Hpre).
  unfold complement. case_if; [right|left]; [rewrite Z.shiftr_lxor|]; rewrite H24; vm_compute; reflexivity.
Qed.
Definition not_preamble (x : Z) : Prop := x <> 0x66 /\ x <> complPreamble.
Lemma skip_junk2 junk x b : Forall not_preamble junk -> x = 0x66 \/ x = complPreamble ->
  skip_to_preamble (junk ++ x :: b) = x :: b.
Proof.
  intros Hj Hx. induction Hj as [|y junk [H1 H2] Hj IH].
  - cbn. destruct Hx as [-> | ->]; done.
  - cbn. apply Z.eqb_neq in H1, H2. by rewrite H1, H2.
Qed.

(** A message with the header of [m]. *)
Definition decoded (m : RTCM2Message) (d b : list Z) (p : Z) : RTCM2Message :=
  mkMessage (Preamble m) (FrameID m) (StationID m) (Parity1 m) (ModifiedZCount m) (SequenceNumber m)
    (NumberDataWords m) (StationHealth m) (Parity2 m) d b true p true.
Lemma header_decoded m d b p : stored m = true ->
  get_Header1 (decoded m d b p) = get_Header1 m /\ get_Header2 (decoded m d b p) = get_Header2 m.
Proof. intros Hs. unfold get_Header1, get_Header2, get_Rtcm2Header. by rewrite Hs. Qed.
Lemma is_Valid_decoded m d b : in_range m -> is_Valid m = true -> is_Valid (decoded m d b (primerWord m `mod` 4)) = true.
Proof.
  intros Hm Hval. destruct (header_words m Hm) as (h1 & h2 & _ & H1 & H2 & Hw1 & _).
  destruct (header_decoded m d b (primerWord m `mod` 4)) as [E1 E2]; [apply Hm|].
  unfold is_Valid in *. rewrite E1, E2, H1, H2 in *. cbn [decoded valid Preamble primerWord Parity1].
  rewrite !andb_true_iff in *. destruct Hval as [[[[_ Hp] Hq] Hc1] Hc2]. split_all; try done.
  by apply (check_Parity_previous h1 (primerWord m)); [..|rewrite Z.mod_mod].
Qed.

Lemma try_header_sent m m0 rest :
  in_range m -> is_Valid m = true -> data m0 = [] -> valid m0 = true -> primerWord m0 = 0 ->
  skip_to_preamble (bytes m0) = (sent m ≫= word_bytes mgr) ++ rest ->
  try_header m0 = Found (decoded m [] (skip_to_preamble (bytes m0)) (primerWord m `mod` 4)).
Proof.
  intros Hm Hval Hd Hv Hp0 Hs. destruct (header_words m Hm) as (h1 & h2 & Hx & H1 & H2 & Hw1 & Hw2 & _).
  pose proof (is_Valid_decoded m [] (skip_to_preamble (bytes m0)) Hm Hval) as Hok.
  unfold is_Valid in Hval. rewrite H1, H2 in Hval. reflect_bools. change (30 - 8) with 22 in *.
  set (t1 := complement (primerWord m) h1). set (t2 := complement t1 h2).
  assert (loadData mgr ((sent m ≫= word_bytes mgr) ++ rest) 2 [] = [t1; t2]) as Hl.
  { unfold sent. rewrite H1, H2. cbn [transmit]. fold t1. fold t2.
    change (t1 :: t2 :: transmit t2 (data m)) with ([t1; t2] ++ transmit t2 (data m)).
    rewrite bind_app, <-app_assoc. apply (loadData_written mgr [t1; t2]).
    repeat (apply Forall_cons; split; [by repeat apply complement_word|]). constructor. }
  unfold try_header. set (w0 := set_bytes _ m0).
  change (bytes w0) with (skip_to_preamble (bytes m0)). change (data w0) with (data m0). rewrite Hd, Hs.
  rewrite (proj2 (Z.ltb_ge _ _)); cycle 1.
  { rewrite length_app, Nat2Z.inj_add, (length_words_bytes mgr). unfold sent. rewrite length_transmit. cbn [length].
    change (wordSize mgr) with 5. lia. }
  rewrite Hl. set (w1 := set_data _ w0).
  assert (first_word w1 = set_primerWord (primerWord m `mod` 4) (set_data [h1; t2] w1)) as ->.
  { unfold first_word. change (primerWord w1) with (primerWord m0). rewrite Hp0. change (getData 0 (data w1)) with t1.
    cbn [Z.eqb negb]. unfold t1. rewrite trials_find; [done|done|congruence|done]. }
  assert (second_word (set_primerWord (primerWord m `mod` 4) (set_data [h1; t2] w1))
    = set_primerWord (primerWord m `mod` 4) (set_data [h1; h2] w1)) as ->.
  { unfold second_word. change (getData 0 (data (set_primerWord _ (set_data [h1; t2] w1)))) with h1.
    change (getData 1 (data (set_primerWord _ (set_data [h1; t2] w1)))) with t2. unfold t2.
    rewrite (complement_same h1 t1) by (unfold t1; by rewrite complement_last). by rewrite complement_twice. }
  change (data (set_primerWord _ (set_data [h1; h2] w1))) with ([h1; h2] ++ []). rewrite <-Hx.
  change header_types with (map fst (header_attrs m)).
  rewrite (assign_extracted mgr) by (by apply header_fits || apply whole_header2).
  change (set_data [] (set_header (values (header_attrs m)) (set_primerWord (primerWord m `mod` 4) (set_data (extractWords mgr (header_attrs m)) w1))))
    with (mkMessage (Preamble m) (FrameID m) (StationID m) (Parity1 m) (ModifiedZCount m) (SequenceNumber m)
    (NumberDataWords m) (StationHealth m) (Parity2 m) [] (skip_to_preamble (bytes m0)) (valid m0) (primerWord m `mod` 4) true).
  rewrite <-Hs, Hv. fold (decoded m [] (skip_to_preamble (bytes m0)) (primerWord m `mod` 4)). by rewrite Hok.
Qed.

Lemma length_skip_preamble b : (length (skip_to_preamble b) <= length b)%nat.
Proof. induction b as [|x b IH]; cbn; [lia|]. destruct (_ && _); cbn; lia. Qed.
Lemma try_header_shrinks m m' : try_header m = Retry m' -> (length (bytes m') < length (bytes m))%nat.
Proof.
  unfold try_header. set (w0 := set_bytes _ m). destruct (_ <? _) eqn:E; [done|]. intros H.
  assert (exists w, bytes w = bytes w0 /\ m' = set_primerWord 0 (set_bytes (tail (bytes w)) w)) as (w & Hw & ->).
  { revert H. set (w1 := set_data _ w0). set (w2 := second_word (first_word w1)).
    assert (bytes w2 = bytes w0) as Hb2.
    { unfold w2, second_word, first_word. destruct (negb _); [done|]. by destruct (trials _ _) as [[]]. }
    destruct (assignData mgr header_types (data w2)) as [[vs d]|]; [|done].
    assert (bytes (set_header vs w2) = bytes w2) as Hb3 by (unfold set_header; by repeat (destruct vs as [|? vs]; try done)).
    destruct (is_Valid _); [done|]. intros [= <-]. exists (set_data d (set_header vs w2)).
    split; [exact (eq_trans Hb3 Hb2)|reflexivity]. }
  cbn [bytes set_primerWord set_bytes]. rewrite Hw. pose proof (length_skip_preamble (bytes m)) as Hsk.
  change (bytes w0) with (skip_to_preamble (bytes m)) in *. change (2 * wordSize mgr) with 10 in E.
  destruct (skip_to_preamble (bytes m)); cbn in *; reflect_bools; lia.
Qed.

Lemma read_sent m junk rest m0 :
  in_range m -> is_Valid m = true -> Forall is_word (data m) -> NumberDataWords m = Z.of_nat (length (data m)) ->
  data m0 = [] -> valid m0 = true -> primerWord m0 = 0 -> Forall not_preamble junk ->
  set_contents (junk ++ get_contents m ++ rest) m0
    = Some (decoded m (data m) (drop 10 (get_contents m) ++ rest) (primerWord m `mod` 4)) /\
  is_Valid (decoded m (data m) (drop 10 (get_contents m) ++ rest) (primerWord m `mod` 4)) = true.
Proof.
  intros Hm Hval Hws Hn Hd Hv Hp Hj. split; [|by apply is_Valid_decoded].
  pose proof (header_words m Hm) as (h1 & h2 & _ & _ & H2 & _ & _ & _ & Eh2).
  assert (Z.shiftr (get_Header1 m) 22 = 0x66) as Hpre.
  { unfold is_Valid in Hval. reflect_bools. change (30 - 8) with 22 in *. congruence. }
  set (p := primerWord m `mod` 4).
  assert (skip_to_preamble (bytes (set_bytes (junk ++ get_contents m ++ rest) m0)) = (sent m ≫= word_bytes mgr) ++ rest) as Hs.
  { cbn [bytes set_bytes]. rewrite get_contents_sent. unfold sent. cbn [transmit].
    destruct (first_byte (get_Header1 m) (primerWord m)
      (transmit (complement (primerWord m) (get_Header1 m)) (get_Header2 m :: data m)) Hpre) as (x & b & E & Hxb).
    cbn [transmit] in E. rewrite E. cbn [app]. by apply skip_junk2. }
  unfold set_contents. cbn [read_loop]. rewrite (try_header_sent m _ rest) by done. f_equal. rewrite Hs, get_contents_sent.
  fold p. unfold load_message. cbn [bytes decoded data NumberDataWords Parity2].
  change (Z.to_nat (countWords mgr header_types * wordSize mgr)) with 10%nat.
  unfold sent. cbn [transmit]. set (t1 := complement (primerWord m) (get_Header1 m)).
  set (t2 := complement t1 (get_Header2 m)). set (ws := transmit t2 (data m)).
  change (t1 :: t2 :: ws) with ([t1; t2] ++ ws). rewrite bind_app, <-app_assoc.
  assert (length ([t1; t2] ≫= word_bytes mgr) = 10%nat) as H10.
  { apply Nat2Z.inj. rewrite (length_words_bytes mgr). done. }
  rewrite <-H10, !drop_app_length.
  change (set_bytes ?b (decoded m [] ?b' p)) with (decoded m [] b p). cbn [bytes decoded data NumberDataWords Parity2].
  rewrite (proj2 (Z.ltb_ge _ _)); cycle 1.
  { rewrite length_app, Nat2Z.inj_add, (length_words_bytes mgr). unfold ws. rewrite length_transmit, Hn. lia. }
  rewrite Hn, <-(length_transmit (data m) t2). fold ws.
  rewrite (loadData_written mgr) by (by apply transmit_words). rewrite Nat2Z.id. unfold ws at 1. rewrite length_transmit.
  assert (Z.land t2 1 = Z.land (Parity2 m) 1) as Hlast.
  { unfold t2. rewrite complement_last, H2, Eh2, !land_1_mod. Z.div_mod_to_equations. lia. }
  pose proof (recycle_transmit (data m) t2 (Parity2 m) [] Hlast) as Hr. rewrite !app_nil_l in Hr |- *.
  fold ws in Hr. change (Z.of_nat (length [])) with 0 in Hr. by rewrite Hr.
Qed.

(** A message survives the wire. A valid message whose attributes are in the range
    of their types and whose words are thirty bits is read back from what
    [get_contents] writes for it, with the complements of the words undone, between
    bytes that are no start of a frame and any further bytes, although the reader does
    not know the previous word: it finds its last two bits. *)
Theorem rtcm2_roundtrip m junk rest m0 :
  in_range m -> is_Valid m = true -> Forall is_word (data m) -> NumberDataWords m = Z.of_nat (length (data m)) ->
  data m0 = [] -> valid m0 = true -> primerWord m0 = 0 -> Forall not_preamble junk ->
  set_contents (junk ++ get_contents m ++ rest) m0
    = Some (decoded m (data m) (drop 10 (get_contents m) ++ rest) (primerWord m `mod` 4)) /\
  is_Valid (decoded m (data m) (drop 10 (get_contents m) ++ rest) (primerWord m `mod` 4)) = true.
Proof. apply read_sent. Qed.

(** The reader always ends, on any bytes and in any state: every round that does
    not end it drops a byte. *)
Theorem rtcm2_reader_ends input m : exists m', set_contents input m = Some m'.
Proof.
  unfold set_contents.
  assert (forall fuel m, (length (bytes m) < fuel)%nat -> exists m', read_loop fuel m = Some m') as H; [|apply H; cbn; lia].
  clear. induction fuel as [|fuel IH]; intros m Hl; [lia|]. cbn [read_loop].
  destruct (try_header m) as [m'|m'|m'] eqn:Ht; [by eexists| |by eexists]. apply IH.
  pose proof (try_header_shrinks m m' Ht). lia.
Qed.

Lemma Validate_valid m :
  in_range m -> valid m = true -> is_Valid (Validate m) = (primerWord m `mod` 4 =? 0).
Proof.
  intros Hm Hv. unfold Validate. change (bitmask (uint 6)) with 63.
  destruct (header_words m Hm) as (h1 & h2 & _ & E1 & E2 & W1 & W2 & F1 & F2). rewrite E1.
  set (p1 := Z.land (add_Parity h1 0) 63). set (m1 := set_Parity p1 (Parity2 m) m).
  assert (forall a, 0 <= Z.land a 63 < 64) as H63 by (intros a; change 63 with (Z.ones 6); rewrite Z.land_ones by lia; apply Z.mod_pos_bound; lia).
  assert (in_range m1) as Hm1 by (unfold in_range in *; pose proof (H63 (add_Parity h1 0)); cbn; split_all; done).
  destruct (header_words m1 Hm1) as (h1' & h2' & _ & _ & E2' & _ & W2' & _ & F2'). rewrite E2'. change (Parity1 m1) with p1.
  set (p2 := Z.land (add_Parity h2' p1) 63). set (m2 := set_Parity p1 p2 m1).
  assert (in_range m2) as Hm2 by (unfold in_range in *; pose proof (H63 (add_Parity h2' p1)); cbn in *; split_all; done).
  destruct (header_words m2 Hm2) as (h1'' & h2'' & _ & E1'' & E2'' & W1'' & W2'' & F1'' & F2'').
  assert (h1'' = add_Parity h1 0) as Hh1.
  { rewrite F1''. rewrite F1 in W1 |- *. cbn [m2 m1 set_Parity Preamble FrameID StationID Parity1].
    rewrite add_Parity_low; [|done|apply Hm]. unfold p1. by rewrite F1. }
  assert (h2'' = add_Parity h2' p1) as Hh2.
  { rewrite F2''. rewrite F2' in W2' |- *. cbn [m2 m1 set_Parity ModifiedZCount SequenceNumber NumberDataWords StationHealth Parity2].
    rewrite add_Parity_low; [|done|apply Hm]. unfold p2. by rewrite F2'. }
  unfold is_Valid. rewrite E1'', E2''. cbn [m2 m1 set_Parity valid Preamble primerWord Parity1]. rewrite Hv.
  assert (check_Parity h2'' p1 = true) as -> by (rewrite Hh2; by apply check_add_Parity).
  assert (Z.shiftr h1'' (30 - 8) =? Preamble m = true) as ->.
  { apply Z.eqb_eq. rewrite F1'', Z.shiftr_div_pow2 by lia. cbn [m2 m1 set_Parity Preamble FrameID StationID Parity1].
    symmetry. apply (Z.div_unique_pos _ _ _ ((FrameID m * 1024 + StationID m) * 64 + p1)); [|lia].
    pose proof (H63 (add_Parity h1 0)). fold p1 in H. unfold in_range in Hm. lia. }
  destruct Hm as [-> _]. cbn [Z.eqb Pos.eqb andb]. rewrite andb_true_r, Hh1.
  apply eq_true_iff_eq. rewrite Z.eqb_eq. split; intros H.
  - by apply (check_Parity_unique (add_Parity h1 0) (primerWord m) 0) in H; [|by apply add_Parity_word|by apply check_add_Parity].
  - apply (check_Parity_previous _ 0); [by apply add_Parity_word|by apply check_add_Parity|done].
Qed.

(** [Validate] does not take the previous word into account. It makes a message
    valid exactly if the last two bits of the previous word are zero, as they are
    when there is none: a message that follows another one, and has been told so by
    [set_PreviousMessage], is in general not valid after [Validate]. *)
Theorem validate_ignores_previous m :
  in_range m -> valid m = true -> is_Valid (Validate m) = (primerWord m `mod` 4 =? 0).
Proof. apply Validate_valid. Qed.

(** ** Text *)
Definition is_char (c : Z) : Prop := 1 <= c < 128.
Definition char_at (t : text) (i : nat) : Z := default 0 (t !! i).
Lemma char_at_range t i : Forall is_char t -> 0 <= char_at t i < 128.
Proof.
  intros Ht. unfold char_at. destruct (t !! i) as [c|] eqn:E; [|done].
  pose proof (Forall_lookup_1 _ _ _ _ Ht E) as H. unfold is_char in H. cbn. unfold id. lia.
Qed.
Lemma char_shift c n : 0 <= c < 128 -> 0 <= n -> n + 8 <= 32 -> 
  u32 (Z.shiftl (wraps 8 c) n) = c * 2 ^ n.
Proof.
  intros Hc Hn Hn8. rewrite (wraps_small 8) by (cbn; lia). rewrite Z.shiftl_mul_pow2 by done. apply u32_small.
  assert (2 ^ (n + 8) <= 2 ^ 32) as Hle by (apply Z.pow_le_mono_r; lia). rewrite (Z.pow_add_r 2 n 8) in Hle by lia.
  assert (0 < 2 ^ n) by (apply Z.pow_pos_nonneg; lia).
  assert (c * 2 ^ n <= 127 * 2 ^ n) by (apply Z.mul_le_mono_nonneg_r; lia). lia.
Qed.
Lemma text_word_value t i : Forall is_char t -> 
  text_word t i = ((char_at t i * 2 ^ 8 + char_at t (S i)) * 2 ^ 8 + char_at t (S (S i))) * 64.
Proof.
  intros Ht. pose proof (char_at_range t i Ht). pose proof (char_at_range t (S i) Ht). pose proof (char_at_range t (S (S i)) Ht).
  assert (forall k n, 0 <= n -> n + 8 <= 32 ->
    (if (k <? length t)%nat then u32 (Z.shiftl (wraps 8 (char_at t k)) n) else 0) = char_at t k * 2 ^ n) as Hk.
  { intros k n Hn Hn'. destruct (Nat.ltb_spec k (length t)).
    - apply char_shift; [by apply char_at_range|done|done].
    - unfold char_at. rewrite lookup_ge_None_2 by done. done. }
  unfold text_word. fold (char_at t i) (char_at t (S i)) (char_at t (S (S i))).
  rewrite !Hk, char_shift by (done || lia). 
  rewrite <-(Z.shiftl_mul_pow2 (char_at t i)), (lor_shiftl_add 22) by lia.
  replace (char_at t i * 2 ^ 22 + char_at t (S i) * 2 ^ 14) with (Z.shiftl (char_at t i * 2 ^ 8 + char_at t (S i)) 14)
    by (rewrite Z.shiftl_mul_pow2 by lia; lia).
  rewrite (lor_shiftl_add 14) by lia. lia.
Qed.
Lemma text_word_word t i : Forall is_char t -> is_word (text_word t i).
Proof.
  intros Ht. rewrite text_word_value by done. unfold is_word.
  pose proof (char_at_range t i Ht). pose proof (char_at_range t (S i) Ht). pose proof (char_at_range t (S (S i)) Ht). lia.
Qed.
(** The characters of a word are those of its data. *)
Lemma word_text_add_Parity t i p : Forall is_char t ->
  word_text (add_Parity (text_word t i) p) =
  char_at t i :: (if char_at t (S i) =? 0 then [] else [char_at t (S i)]) ++
                 (if char_at t (S (S i)) =? 0 then [] else [char_at t (S (S i))]).
Proof.
  intros Ht. pose proof (text_word_word t i Ht) as Hw. rewrite text_word_value in * by done.
  pose proof (char_at_range t i Ht). pose proof (char_at_range t (S i) Ht). pose proof (char_at_range t (S (S i)) Ht).
  set (a := char_at t i) in *. set (b := char_at t (S i)) in *. set (c := char_at t (S (S i))) in *.
  set (v := (a * 2 ^ 8 + b) * 2 ^ 8 + c) in *. rewrite <-(Z.add_0_r (v * 64)) in Hw |- *.
  rewrite add_Parity_low by (done || lia). set (low := Z.land _ 63).
  assert (0 <= low < 64) as Hlow by (unfold low; change 63 with (Z.ones 6); rewrite Z.land_ones by lia; apply Z.mod_pos_bound; lia).
  unfold word_text. change 64 with (2 ^ 6). rewrite shiftr_pack by (cbn; lia).
  assert (forall k, 0 <= k -> Z.land (Z.shiftr v k) 0xFF = (v `div` 2 ^ k) `mod` 256) as Hb.
  { intros k Hk. change 255 with (Z.ones 8). by rewrite Z.land_ones, Z.shiftr_div_pow2 by lia. }
  cbn [map List.concat]. change (8 * (2 - 0)) with 16. change (8 * (2 - 1)) with 8. change (8 * (2 - 2)) with 0.
  rewrite !Hb by lia. cbn [Z.ltb Z.compare andb].
  assert ((v `div` 2 ^ 16) `mod` 256 = a) as -> by (unfold v; Z.div_mod_to_equations; lia).
  assert ((v `div` 2 ^ 8) `mod` 256 = b) as -> by (unfold v; Z.div_mod_to_equations; lia).
  assert ((v `div` 2 ^ 0) `mod` 256 = c) as -> by (unfold v; Z.div_mod_to_equations; lia).
  by rewrite app_nil_r.
Qed.

Lemma text_words_app fuel t : forall i p d, text_words fuel t i p d = d ++ text_words fuel t i p [].
Proof.
  induction fuel as [|fuel IH]; intros i p d; cbn [text_words]; [by rewrite app_nil_r|].
  destruct (i <? length t)%nat; [|by rewrite app_nil_r]. rewrite IH, (IH _ _ (loadWord _ [])). unfold loadWord.
  by rewrite app_nil_l, app_assoc.
Qed.
Lemma text_words_words fuel t : Forall is_char t -> forall i p, Forall is_word (text_words fuel t i p []).
Proof.
  intros Ht. induction fuel as [|fuel IH]; intros i p; cbn [text_words]; [done|].
  destruct (i <? length t)%nat; [|done]. rewrite text_words_app. unfold loadWord.
  apply Forall_app. split; [|by apply IH]. repeat constructor; by apply add_Parity_word, text_word_word.
Qed.
Lemma length_text_words fuel t : forall i p, (length t - i <= fuel)%nat ->
  length (text_words fuel t i p []) = ((length t - i + 2) / 3)%nat.
Proof.
  induction fuel as [|fuel IH]; intros i p Hl; cbn [text_words].
  - by replace (length t - i)%nat with 0%nat by lia.
  - destruct (Nat.ltb_spec i (length t)); [|by replace (length t - i)%nat with 0%nat by lia].
    rewrite text_words_app, length_app, IH by lia. cbn [loadWord app length].
    replace (length t - i + 2)%nat with (1 * 3 + (length t - i - 1))%nat by lia.
    rewrite Nat.div_add_l by lia. destruct (decide (3 <= length t - i)%nat).
    + do 2 f_equal. lia.
    + replace (length t - (i + 3) + 2)%nat with 2%nat by lia. rewrite (Nat.div_small (_ - _)) by lia. done.
Qed.
Lemma read_text_words fuel t : Forall is_char t -> forall i p q, (length t - i <= fuel)%nat -> p `mod` 4 = q `mod` 4 ->
  read_text q (text_words fuel t i p []) = Some (drop i t).
Proof.
  intros Ht. induction fuel as [|fuel IH]; intros i p q Hl Hpq; cbn [text_words].
  - by rewrite drop_ge by lia.
  - destruct (Nat.ltb_spec i (length t)); [|by rewrite drop_ge by lia].
    rewrite text_words_app. cbn [loadWord app read_text]. pose proof (text_word_word t i Ht) as Hw.
    rewrite (check_Parity_previous _ p q) by (done || by apply add_Parity_word || by apply check_add_Parity). cbn [negb].
    rewrite IH by (lia || done). f_equal. rewrite word_text_add_Parity by done.
    assert (forall k, char_at t (i + k) = default 0 (drop i t !! k)) as Hat by (intros k; by rewrite lookup_drop).
    replace (S (S i)) with (i + 2)%nat by lia. replace (S i) with (i + 1)%nat by lia.
    replace (char_at t i) with (char_at t (i + 0)) by (f_equal; lia). rewrite !Hat, <-drop_drop.
    assert (Forall is_char (drop i t)) as Hd by by apply Forall_drop.
    assert (drop i t <> []) as Hne by (intros E; apply (f_equal length) in E; rewrite length_drop in E; cbn in E; lia).
    destruct (drop i t) as [|a [|b [|c r]]]; [done| | |]; rewrite ?Forall_cons in Hd; unfold is_char in Hd; cbn; [done| |].
    + by rewrite (proj2 (Z.eqb_neq b 0)) by lia.
    + by rewrite (proj2 (Z.eqb_neq b 0)), (proj2 (Z.eqb_neq c 0)) by lia.
Qed.

Lemma Validate_in_range m : in_range m -> in_range (Validate m).
Proof.
  intros Hm. assert (forall a, 0 <= Z.land a (bitmask (uint 6)) < 64) as H63.
  { intros a. change (bitmask (uint 6)) with (Z.ones 6). rewrite Z.land_ones by lia. apply Z.mod_pos_bound. lia. }
  unfold Validate, in_range in *. cbn [set_Parity Preamble FrameID StationID Parity1 ModifiedZCount SequenceNumber
    NumberDataWords StationHealth Parity2 stored]. split_all; try done; apply H63.
Qed.

(** A text survives the wire. For a text of at most 93 characters, which are ASCII
    and not zero, what is written after [assignMessage] is read back, with the parity
    of every word checked, and gives the text. *)
Theorem special_roundtrip t m junk rest m0 :
  Forall is_char t -> (length t <= 93)%nat -> in_range m -> valid m = true -> primerWord m = 0 ->
  data m0 = [] -> valid m0 = true -> primerWord m0 = 0 -> Forall not_preamble junk ->
  exists m', special_set_contents (junk ++ get_contents (assignMessage t m) ++ rest) m0 = Some (m', Some t).
Proof.
  intros Ht Hlen Hm Hv Hp Hd0 Hv0 Hp0 Hj. set (M := assignMessage t m).
  assert (Z.of_nat (length t) `div` 3 + (if Z.of_nat (length t) `mod` 3 =? 0 then 0 else 1) = Z.of_nat ((length t + 2) / 3)) as Hn.
  { rewrite Nat2Z.inj_div, Nat2Z.inj_add. case_if; Z.div_mod_to_equations; lia. }
  set (m1 := set_NumberDataWords (Z.of_nat ((length t + 2) / 3)) (set_data [] m)).
  assert (in_range m1) as Hm1.
  { assert (((length t + 2) / 3) <= 31)%nat by (apply Nat.lt_succ_r, Nat.Div0.div_lt_upper_bound; lia).
    unfold in_range in *. cbn -[Nat.div]. split_all; try done; lia. }
  pose proof (Validate_in_range m1 Hm1) as HV.
  assert (is_Valid (Validate m1) = true) as Hval by (rewrite Validate_valid by done; change (primerWord m1) with (primerWord m); by rewrite Hp).
  assert (M = set_data (text_words (length t) t 0 (get_Header2 (Validate m1)) []) (Validate m1)) as HM.
  { unfold M, assignMessage. rewrite Hn. done. }
  destruct (header_words (Validate m1) HV) as (h1 & h2 & _ & _ & E2 & _ & _ & _ & F2).
  assert (NumberDataWords (Validate m1) = Z.of_nat ((length t + 2) / 3)) as HN by reflexivity.
  clearbody M. revert HV Hval HM E2 F2 HN. generalize (Validate m1) as V. intros V HV Hval HM E2 F2 HN.
  destruct (read_sent M junk rest m0) as [Hread _]; [..|done|done|done|done|].
  - by rewrite HM.
  - by rewrite HM.
  - rewrite HM. by apply text_words_words.
  - rewrite HM. cbn [data set_data NumberDataWords]. by rewrite length_text_words, Nat.sub_0_r by lia.
  - unfold special_set_contents. rewrite Hread. subst M. cbn [decoded Parity2 data set_data].
    rewrite (read_text_words _ _ Ht _ _ (Parity2 V)); [by eexists|lia|].
    rewrite E2, F2. Z.div_mod_to_equations. lia.
Qed.

(** ** Witnesses *)
Definition sample : RTCM2Message := set_header [0x66; 16; 5; 0; 100; 2; 0; 3; 0] RTCM2Message_new.
Definition hello : RTCM2Message := assignMessage [72; 101; 108; 108; 111] sample.
Ltac in_range_ok := unfold in_range; vm_compute; split_all; first [reflexivity | discriminate].
Lemma rtcm2_roundtrip_witness :
  set_contents ([1; 2] ++ get_contents hello ++ [4]) RTCM2Message_new
    = Some (decoded hello (data hello) (drop 10 (get_contents hello) ++ [4]) (primerWord hello `mod` 4)) /\
  is_Valid (decoded hello (data hello) (drop 10 (get_contents hello) ++ [4]) (primerWord hello `mod` 4)) = true.
Proof.
  assert (in_range hello) as H1 by in_range_ok.
  assert (is_Valid hello = true) as H2 by (vm_compute; reflexivity).
  assert (Forall is_word (data hello)) as H3.
  { apply (bool_decide_unpack _). vm_compute. exact I. }
  assert (NumberDataWords hello = Z.of_nat (length (data hello))) as H4 by (vm_compute; reflexivity).
  assert (Forall not_preamble [1; 2]) as H5.
  { repeat (apply Forall_cons; split; [split; discriminate|]). constructor. }
  exact (rtcm2_roundtrip hello [1; 2] [4] RTCM2Message_new H1 H2 H3 H4 eq_refl eq_refl eq_refl H5).
Defined.
Lemma validate_ignores_previous_witness :
  is_Valid (Validate (set_primerWord 6 sample)) = (primerWord (set_primerWord 6 sample) `mod` 4 =? 0).
Proof.
  assert (in_range (set_primerWord 6 sample)) as H1 by in_range_ok.
  assert (valid (set_primerWord 6 sample) = true) as H2 by (vm_compute; reflexivity).
  exact (validate_ignores_previous (set_primerWord 6 sample) H1 H2).
Defined.
Lemma special_roundtrip_witness : exists m',
  special_set_contents ([1] ++ get_contents (assignMessage [72; 105; 33; 33] sample) ++ [7]) RTCM2Message_new
  = Some (m', Some [72; 105; 33; 33]).
Proof.
  assert (Forall is_char [72; 105; 33; 33]) as H1.
  { repeat (apply Forall_cons; split; [unfold is_char; lia|]). constructor. }
  assert (length [72; 105; 33; 33] <= 93)%nat as H2 by (cbn; lia).
  assert (in_range sample) as H3 by in_range_ok.
  assert (valid sample = true) as H4 by (vm_compute; reflexivity).
  assert (primerWord sample = 0) as H5 by (vm_compute; reflexivity).
  assert (Forall not_preamble [1]) as H6.
  { apply Forall_cons. split; [split; discriminate|constructor]. }
  exact (special_roundtrip [72; 105; 33; 33] sample [1] [7] RTCM2Message_new H1 H2 H3 H4 H5 eq_refl eq_refl eq_refl H6).
Defined.
End Rtcm2.
