(* ===== verification/RtcmStream.v ===== *)
(** Streams of RTCM messages: the versions and the factory
    ([src/src/tmx/Messages/include/rtcm/RtcmVersion.h], [RtcmMessageFactory.h]), the
    messages of a payload ([RtcmEncodedMessage.h]), and the answer of a caster to the
    RTCM plugin ([src/src/v2i-hub/RtcmPlugin/src/RtcmPlugin.cpp]). *)
From Stdlib Require Import Ascii.
From S2P Require Import Prelude Text RtcmData Rtcm3 Rtcm2.
Open Scope Z_scope.

Module RtcmStream.

(** ** Versions *)
Inductive RTCM_VERSION := UNKNOWN | SC10402_3 | SC10403_3.
#[export] Instance RTCM_VERSION_eq_dec : EqDecision RTCM_VERSION.
Proof. solve_decision. Defined.
Definition RtcmVersionName (v : RTCM_VERSION) : string :=
  match v with UNKNOWN => "Unknown" | SC10402_3 => "2.3" | SC10403_3 => "3.3" end.
Definition RtcmVersion (version : string) : RTCM_VERSION :=
  match List.find (fun v => String.eqb (RtcmVersionName v) version) [UNKNOWN; SC10402_3; SC10403_3] with
  | Some v => v
  | None => UNKNOWN
  end.

(** ** Messages of any version *)
Inductive TmxRtcmMessage :=
  | Unknown (bytes : list Z)
  | Message2 (m : Rtcm2.RTCM2Message)
  | Special2 (m : Rtcm2.RTCM2Message) (SpecialMessage : option Rtcm2.text)
  | Message3 (m : Rtcm3.RTCM3Message)
  | Antenna3 (t : Rtcm3.Antenna).
Definition get_Version (p : TmxRtcmMessage) : RTCM_VERSION :=
  match p with Unknown _ => UNKNOWN | Message2 _ | Special2 _ _ => SC10402_3 | Message3 _ | Antenna3 _ => SC10403_3 end.
Definition get_MessageType (p : TmxRtcmMessage) : Z :=
  match p with
  | Unknown _ => 0
  | Message2 m | Special2 m _ => Rtcm2.get_MessageType m
  | Message3 m => Rtcm3.get_MessageType m
  | Antenna3 t => Rtcm3.get_MessageType (Rtcm3.base t)
  end.
Definition size (p : TmxRtcmMessage) : Z :=
  match p with
  | Unknown b => Z.of_nat (length b)
  | Message2 m | Special2 m _ => Rtcm2.size m
  | Message3 m => Rtcm3.size m
  | Antenna3 t => Rtcm3.size (Rtcm3.base t)
  end.
(** The antenna message adds words to its buffer when its contents are asked for. *)
Definition get_contents (p : TmxRtcmMessage) : option (list Z) * TmxRtcmMessage :=
  match p with
  | Unknown b => (Some b, p)
  | Message2 m | Special2 m _ => (Some (Rtcm2.get_contents m), p)
  | Message3 m => (Rtcm3.get_contents m, p)
  | Antenna3 t => let '(c, t) := Rtcm3.antenna_get_contents t in (c, Antenna3 t)
  end.
Definition is_Valid (p : TmxRtcmMessage) : bool * TmxRtcmMessage :=
  match p with
  | Unknown _ => (true, p)
  | Message2 m | Special2 m _ => (Rtcm2.is_Valid m, p)
  | Message3 m => (Rtcm3.is_Valid m, p)
  | Antenna3 t =>
      if negb (Rtcm3.valid (Rtcm3.base t)) then (false, p)
      else match get_contents p with
           | (None, p) => (false, p)
           | (Some b, p) => ((Rtcm3.Preamble (Rtcm3.base t) =? 0xD3) && Rtcm3.check_Parity b (Rtcm3.base t), p)
           end
  end.

(** What a decoding step gives: a value, an exception, undefined behaviour, or, for
    the reader of version 3, no end within the fuel. *)
Inductive result (A : Type) := Ok (x : A) | Throws | Undefined | Unfinished.
Arguments Ok {A}. Arguments Throws {A}. Arguments Undefined {A}. Arguments Unfinished {A}.
Definition bind {A B} (r : result A) (f : A -> result B) : result B :=
  match r with Ok x => f x | Throws => Throws | Undefined => Undefined | Unfinished => Unfinished end.

Definition GPSSpecialMessage_new : Rtcm2.RTCM2Message :=
  Rtcm2.set_header [0x66; Rtcm2.GPSSpecialMessage; 0; 0; 0; 0; 0; 0; 0] Rtcm2.RTCM2Message_new.
Definition AntennaDescriptor : Z := 1007.
(** [create] of the factory, and [set_contents] of what it creates. *)
Definition create_read (fuel : nat) (version : RTCM_VERSION) (type : Z) (b : list Z) : result TmxRtcmMessage :=
  match version with
  | UNKNOWN => Ok (Unknown b)
  | SC10402_3 =>
      if type =? Rtcm2.GPSSpecialMessage then
        match Rtcm2.special_set_contents b GPSSpecialMessage_new with
        | Some (m, t) => Ok (Special2 m t) | None => Unfinished end
      else match Rtcm2.set_contents b Rtcm2.RTCM2Message_new with
           | Some m => Ok (Message2 m) | None => Unfinished end
  | SC10403_3 =>
      if type =? AntennaDescriptor then
        match Rtcm3.antenna_set_contents fuel b (Rtcm3.mkAntenna Rtcm3.RTCM3Message_new 0 [] 0) with
        | Rtcm3.Read t => Ok (Antenna3 t)
        | Rtcm3.Exception => Throws
        | Rtcm3.Undefined => Undefined
        | Rtcm3.Unfinished => Unfinished
        end
      else match Rtcm3.set_contents fuel b Rtcm3.RTCM3Message_new with
           | Some m => Ok (Message3 m) | None => Unfinished end
  end.

(** ** The messages of a payload *)
(** The versions that are tried, the last one first. *)
Definition versions (thisVer : RTCM_VERSION) : list RTCM_VERSION :=
  match thisVer with UNKNOWN => [SC10403_3; SC10402_3] | v => [v] end.
(** The first message that is valid, if any. *)
Fixpoint try_versions (fuel : nat) (vs : list RTCM_VERSION) (copy : list Z) : result (option TmxRtcmMessage) :=
  match vs with
  | [] => Ok None
  | v :: vs =>
      bind (create_read fuel v 0 copy) (fun ptr =>
      let '(ok, ptr) := is_Valid ptr in
      if ok : bool then Ok (Some ptr) else try_versions fuel vs copy)
  end.
(** The message read again as one of its type. *)
Definition specialise (fuel : nat) (ptr : TmxRtcmMessage) : result TmxRtcmMessage :=
  if get_MessageType ptr =? 0 then Ok ptr
  else match get_contents ptr with
  | (None, _) => Throws
  | (Some b, ptr) =>
      bind (create_read fuel (get_Version ptr) (get_MessageType ptr) b) (fun tmp =>
      let '(ok, tmp) := is_Valid tmp in
      Ok (if ok : bool then tmp else ptr))
  end.
Definition consumed (ptr : option TmxRtcmMessage) (copy : list Z) : Z :=
  match ptr with
  | Some ptr => if size ptr <=? Z.of_nat (length copy) then size ptr else Z.of_nat (length copy)
  | None => Z.of_nat (length copy)
  end.
(** [steps] bounds the rounds of the loop over the payload, [fuel] those of a reader of
    version 3. The subtype that [set_subtype] sets is the name of the version in the
    result. *)
Fixpoint get_messages (steps fuel : nat) (thisVer : RTCM_VERSION) (copy : list Z) : result (RTCM_VERSION * list TmxRtcmMessage) :=
  match steps with
  | O => Unfinished
  | S steps =>
      if Z.of_nat (length copy) =? 0 then Ok (thisVer, [])
      else
        bind (try_versions fuel (versions thisVer) copy) (fun found =>
        match found with
        | None => get_messages steps fuel thisVer (drop (Z.to_nat (consumed None copy)) copy)
        | Some ptr =>
            let thisVer := get_Version ptr in
            bind (specialise fuel ptr) (fun ptr =>
            bind (get_messages steps fuel thisVer (drop (Z.to_nat (consumed (Some ptr) copy)) copy)) (fun '(v, ptrs) =>
            Ok (v, ptr :: ptrs)))
        end)
  end.
Definition get_container (fuel : nat) (subtype : string) (payload : list Z) : result (RTCM_VERSION * list TmxRtcmMessage) :=
  get_messages (S (length payload)) fuel (RtcmVersion subtype) payload.

(** ** The answer of a caster *)
(** A line without its carriage return; the last character of an empty line does not
    exist. *)
Fixpoint strip_cr (line : string) : option string :=
  match line with
  | EmptyString => None
  | String c EmptyString => Some (if Ascii.eqb c (ascii_of_nat 13) then EmptyString else line)
  | String c line' => option_map (String c) (strip_cr line')
  end.
Fixpoint strip_all (lines : list string) : option (list string) :=
  match lines with
  | [] => Some []
  | l :: ls =>
      match strip_cr l, strip_all ls with Some l, Some ls => Some (l :: ls) | _, _ => None end
  end.
Definition newline : ascii := ascii_of_nat 10.
(** The command that is run for every line. *)
Definition line_command (line : string) : string := "echo '" +:+ line +:+ "' | gpsdecode".
Inductive answer := Connected (ntripVer httpVer : Z) | Rejected | Ignored.
(** The part of [Main] that reads the first bytes after a connection. *)
Definition caster_answer (received : string) : result answer :=
  match strip_all (getlines newline received) with
  | None => Undefined
  | Some response =>
      match response with
      | first :: _ :: _ =>
          let len := Z.of_nat (String.length first) in
          if len <? 6 then Throws
          else if String.eqb (String.substring (Z.to_nat (len - 6)) 6 first) "200 OK" then
            if String.prefix "ICY" first then Ok (Connected 1 0)
            else Ok (Connected 2 (if String.prefix "HTTP/1.1" first then 1 else 0))
          else Ok Rejected
      | _ => Ok Ignored
      end
  end.

(** ** Streams of version 3 *)
(** What [Validate] makes of a message in range, other than an antenna descriptor. *)
Definition sealed3 (v : Rtcm3.RTCM3Message) : Prop :=
  Rtcm3.well_formed v /\ Rtcm3.check_Parity (Rtcm3.frame v) v = true /\ Rtcm3.valid v = true /\
  Rtcm3.MessageNumber v <> AntennaDescriptor.
Definition version3 (v : RTCM_VERSION) : Prop := v = UNKNOWN \/ v = SC10403_3.
Lemma is_Valid_sealed v b : sealed3 v -> Rtcm3.is_Valid (Rtcm3.set_bytes b v) = true.
Proof.
  intros (Hv & Hp & Hval & _). unfold Rtcm3.is_Valid. change (Rtcm3.valid (Rtcm3.set_bytes b v)) with (Rtcm3.valid v).
  rewrite Hval. change (Rtcm3.get_contents (Rtcm3.set_bytes b v)) with (Rtcm3.get_contents v).
  rewrite Rtcm3.get_contents_frame by done.
  change (Rtcm3.check_Parity ?f (Rtcm3.set_bytes b v)) with (Rtcm3.check_Parity f v). rewrite Hp.
  change (Rtcm3.Preamble (Rtcm3.set_bytes b v)) with (Rtcm3.Preamble v). by destruct Hv as [-> _].
Qed.
Lemma create_read_sealed k v rest type : sealed3 v -> type <> AntennaDescriptor ->
  create_read (S k) SC10403_3 type (Rtcm3.frame v ++ rest) = Ok (Message3 (Rtcm3.set_bytes (drop 3 (Rtcm3.frame v) ++ rest) v)).
Proof.
  intros (Hv & Hp & Hval & _) Ht. unfold create_read. apply Z.eqb_neq in Ht. rewrite Ht.
  by rewrite (Rtcm3.read_frame v [] rest).
Qed.
Lemma try_versions_sealed k ver v rest : version3 ver -> sealed3 v ->
  try_versions (S k) (versions ver) (Rtcm3.frame v ++ rest) = Ok (Some (Message3 (Rtcm3.set_bytes (drop 3 (Rtcm3.frame v) ++ rest) v))).
Proof.
  intros Hver Hv. assert (exists vs, versions ver = SC10403_3 :: vs) as [vs ->] by (destruct Hver as [-> | ->]; by eexists).
  cbn [try_versions]. rewrite create_read_sealed by done. cbn [bind is_Valid]. by rewrite is_Valid_sealed.
Qed.
Lemma specialise_sealed k v b : sealed3 v ->
  exists b', specialise (S k) (Message3 (Rtcm3.set_bytes b v)) = Ok (Message3 (Rtcm3.set_bytes b' v)).
Proof.
  intros Hv. unfold specialise. destruct (_ =? 0); [by eexists|].
  cbn [get_contents get_Version get_MessageType]. change (Rtcm3.get_contents (Rtcm3.set_bytes b v)) with (Rtcm3.get_contents v).
  rewrite Rtcm3.get_contents_frame by apply Hv. rewrite <-(app_nil_r (Rtcm3.frame v)).
  rewrite create_read_sealed; [|done|apply Hv]. cbn [bind is_Valid]. rewrite is_Valid_sealed by done. by eexists.
Qed.
Lemma length_frame_pos v : Rtcm3.well_formed v -> 0 < Z.of_nat (length (Rtcm3.frame v)).
Proof.
  intros Hv. rewrite Rtcm3.size_frame by done. unfold Rtcm3.size. change Rtcm3.headerBytes with 3. change Rtcm3.crcBytes with 3.
  destruct Hv as (_ & _ & _ & _ & _ & _ & -> & _). change Rtcm3.attrBytes with 3. lia.
Qed.

(** A payload of several messages is taken apart. The frames of messages of version
    3, one after the other, are decoded into these messages, in their order and with
    all attributes and words, if the version is not known or known to be 3.3. *)
Theorem rtcm3_stream vs subtype k :
  Forall sealed3 vs -> vs <> [] -> version3 (RtcmVersion subtype) ->
  exists bs, length bs = length vs /\
    get_container (S k) subtype (vs ≫= Rtcm3.frame) = Ok (SC10403_3, zip_with (fun v b => Message3 (Rtcm3.set_bytes b v)) vs bs).
Proof.
  intros Hvs Hne Hver. unfold get_container.
  assert (forall steps ver, (length (vs ≫= Rtcm3.frame) < steps)%nat -> version3 ver ->
    exists bs, length bs = length vs /\ get_messages steps (S k) ver (vs ≫= Rtcm3.frame)
      = Ok (match vs with [] => ver | _ => SC10403_3 end, zip_with (fun v b => Message3 (Rtcm3.set_bytes b v)) vs bs)) as H.
  { clear Hne Hver subtype. induction Hvs as [|v vs Hv Hvs IH]; intros steps ver Hs Hver.
    - exists []. destruct steps; [lia|]. done.
    - destruct steps as [|steps]; [lia|]. cbn [mbind list_bind] in Hs |- *. rewrite length_app in Hs.
      pose proof (length_frame_pos v (proj1 Hv)) as Hpos. destruct (IH steps SC10403_3) as (bs & Hl & Hg); [lia|by right|].
      destruct (specialise_sealed k v (drop 3 (Rtcm3.frame v) ++ (vs ≫= Rtcm3.frame)) Hv) as [b' Hsp].
      exists (b' :: bs). split; [cbn; lia|]. cbn [get_messages].
      rewrite (proj2 (Z.eqb_neq _ 0)) by (rewrite length_app; lia).
      change (mbind Rtcm3.frame vs) with (vs ≫= Rtcm3.frame). rewrite try_versions_sealed by done. cbn [bind get_Version].
      rewrite Hsp. cbn [bind]. unfold consumed. cbn [size]. change (Rtcm3.size (Rtcm3.set_bytes b' v)) with (Rtcm3.size v).
      rewrite <-Rtcm3.size_frame by apply Hv. rewrite (proj2 (Z.leb_le _ _)) by (rewrite length_app; lia).
      rewrite Nat2Z.id, drop_app_length, Hg. cbn [bind zip_with]. by destruct vs. }
  destruct (H (S (length (vs ≫= Rtcm3.frame))) (RtcmVersion subtype)) as (bs & Hl & Hg); [lia|done|].
  exists bs. split; [done|]. rewrite Hg. by destruct vs.
Qed.

(** A payload can hang the plugin. If the first preamble of a payload starts the
    bytes D3 00 00 D3 00 00, the decoding never ends, when the version is not known or
    known to be 3.3. *)
Theorem payload_hangs junk rest subtype fuel :
  Forall (fun x => x <> 0xD3) junk -> version3 (RtcmVersion subtype) ->
  get_container fuel subtype (junk ++ [0xD3; 0; 0; 0xD3; 0; 0] ++ rest) = Unfinished.
Proof.
  intros Hj Hver. unfold get_container. cbn [get_messages].
  rewrite (proj2 (Z.eqb_neq _ 0)) by (rewrite !length_app; cbn; lia).
  assert (exists vs, versions (RtcmVersion subtype) = SC10403_3 :: vs) as [vs ->] by (destruct Hver as [-> | ->]; by eexists).
  cbn [try_versions]. unfold create_read. cbn [Z.eqb]. by rewrite Rtcm3.false_start_hangs.
Qed.

(** The answers that are not handled: a blank line, and a short status line. *)
Lemma blank_line_undefined : caster_answer (String newline (String newline EmptyString)) = Undefined.
Proof. reflexivity. Qed.
Lemma short_status_throws : caster_answer ("OK" +:+ String newline ("x" +:+ String newline EmptyString)) = Throws.
Proof. reflexivity. Qed.
(** The answer of a caster that does not have the mount point is taken for success. *)
Lemma sourcetable_accepted : caster_answer ("SOURCETABLE 200 OK" +:+ String newline ("Server: x" +:+ String newline EmptyString)) = Ok (Connected 2 0).
Proof. reflexivity. Qed.

(** ** Witnesses *)
Definition sealed_sample : Rtcm3.RTCM3Message := Rtcm3.set_CRC 15456846 Rtcm3.sample.
Lemma rtcm3_stream_witness : exists bs, length bs = 2%nat /\
  get_container 1 "Unknown" (Rtcm3.frame sealed_sample ++ Rtcm3.frame sealed_sample ++ [])
  = Ok (SC10403_3, zip_with (fun v b => Message3 (Rtcm3.set_bytes b v)) [sealed_sample; sealed_sample] bs).
Proof.
  apply (rtcm3_stream [sealed_sample; sealed_sample] "Unknown" 0); [|discriminate|left; reflexivity].
  repeat (apply Forall_cons; split;
    [split; [Rtcm3.well_formed_ok|split; [vm_compute; reflexivity|split; [reflexivity|discriminate]]]|]); constructor.
Defined.
Lemma payload_hangs_witness :
  get_container 1000 "Unknown" ([1] ++ [0xD3; 0; 0; 0xD3; 0; 0] ++ [5]) = Unfinished.
Proof.
  apply (payload_hangs [1] [5]); [|left; reflexivity]. apply Forall_cons. split; [lia|constructor].
Defined.
End RtcmStream.
