(* ===== verification/Cloud.v ===== *)
(** The traffic control messages (TCMs) of CARMA Cloud
    ([CARMACloudPlugin/src/CARMACloudPlugin.cpp]): requests of vehicles as XML, the
    messages that answer them, and their repeated broadcast until a vehicle
    acknowledges them or they expire. *)
From Stdlib Require Import Ascii.
From stdpp Require Import pretty.
From S2P Require Import Prelude Text OrdMap.
Open Scope Z_scope.

(** * [std::multimap]

    Pairs in the order of their keys; those of one key in the order of insertion. *)
Module MultiMap.
Section multimap.
Context {K A : Type} `{KeyOrder K}.
Implicit Types m : list (K * A).
Fixpoint insert (k : K) (a : A) m : list (K * A) :=
  match m with
  | [] => [(k, a)]
  | (k', a') :: m' => if klt k k' then (k, a) :: m else (k', a') :: insert k a m'
  end.
(** [m.erase(k)] erases all pairs of the key. *)
Definition erase (k : K) m : list (K * A) := List.filter (fun x => negb (OrdMap.keqb k x.1)) m.
Definition equal_range (k : K) m : list (K * A) := List.filter (fun x => OrdMap.keqb k x.1) m.

Lemma insert_split k a m : exists m1 m2, m = m1 ++ m2 /\ insert k a m = m1 ++ (k, a) :: m2.
Proof.
  induction m as [|[k' a'] m (m1 & m2 & -> & IH)]; cbn.
  - by exists [], [].
  - destruct (klt k k'); [by exists [], ((k', a') :: m1 ++ m2)|]. exists ((k', a') :: m1), m2. by rewrite IH.
Qed.
Lemma elem_of_insert k a m x : x ∈ insert k a m <-> x = (k, a) \/ x ∈ m.
Proof. destruct (insert_split k a m) as (m1 & m2 & -> & ->). set_solver. Qed.
Lemma filter_insert (P : K * A -> bool) k a m : P (k, a) = false -> List.filter P (insert k a m) = List.filter P m.
Proof.
  intros HP. destruct (insert_split k a m) as (m1 & m2 & -> & ->). rewrite !List.filter_app. cbn. by rewrite HP.
Qed.
End multimap.
End MultiMap.

(** * Libraries *)
(** The J2735 codec: the number of an encoded TCM, and the encoding of a TCM in XML with
    the bytes of its request id; either can throw. *)
Record tsm5EncodedMessage := mkTcm { payload : string; encoding : string }.
#[export] Instance tsm5_eq_dec : EqDecision tsm5EncodedMessage.
Proof. solve_decision. Defined.
Inductive decoded := Null | Throws | Decoded (msgnum : Z).
Class TcmCodec := {
  decode_j2735_message : tsm5EncodedMessage -> decoded;
  encode_j2735_message : string -> option (tsm5EncodedMessage * list Z)
}.
(** [inflate] of zlib: the code it returns, what it writes into the buffer, and the
    stream after it. *)
Class Inflate := {
  z_stream : Type;
  inflateInit2 : string -> option z_stream;
  inflate : z_stream -> Z * string * z_stream
}.
(** [boost::property_tree] on XML; [None] is an [xml_parser_error]. *)
Class XmlTree := {
  ptree : Type;
  read_xml : string -> option ptree;
  get_child_optional : string -> ptree -> option (list (string * ptree));
  put_child : string -> ptree -> ptree;
  write_xml : ptree -> string
}.

Module Cloud.
(** * State *)
Definition acknowledgement_status__acknowledged : Z := 1.
Definition acknowledgement_status__rejected : Z := 2.
Definition acknowledgement_status__not_acknowledged : Z := 3.
Definition TCMAcknowledgementStrategy : string := "carma3/geofence_acknowledgement".
Record TCMBroadcastMetadata := mkMeta { tcm_hex : string; num_of_times : Z }.
Record Config := mkConfig {
  strategies : string; TCMRepeatedlyBroadcastTimeOut : Z; TCMNOAcknowledgementDescription : string;
  TCMRepeatedlyBroadCastTotalTimes : Z; list_tcm : string; carma_cloud_url : string;
  webport : Z; fetchtime : Z }.
(** Where the thread that repeats the broadcasts is: asleep, between its look at the
    size of the map and the lock, or ended. *)
Inductive thread := Sleeping | Checked (seen : bool) | Ended.
Record CARMACloudPlugin := mkPlugin {
  config : Config;
  not_ACK_TCMs : list (string * tsm5EncodedMessage);
  tcm_broadcast_starting_time : list (string * Z);
  tcm_broadcast_times : list (string * TCMBroadcastMetadata);
  broadcast_thread : thread }.
Definition set_not_ACK x s := mkPlugin (config s) x (tcm_broadcast_starting_time s) (tcm_broadcast_times s) (broadcast_thread s).
Definition set_tracking st tm s := mkPlugin (config s) (not_ACK_TCMs s) st tm (broadcast_thread s).
(** [UpdateConfigSettings], with the values it reads. *)
Definition UpdateConfigSettings c s :=
  mkPlugin c (not_ACK_TCMs s) (tcm_broadcast_starting_time s) (tcm_broadcast_times s) (broadcast_thread s).
Definition set_thread t s := mkPlugin (config s) (not_ACK_TCMs s) (tcm_broadcast_starting_time s) (tcm_broadcast_times s) t.

Inductive IvpLogLevel := IvpLogLevel_info | IvpLogLevel_warn.
Record out_message := mkOut { out_payload : string; out_encoding : string; flags : Z; psid : Z }.
Inductive action :=
  | Broadcast (m : out_message)
  | BroadcastEventLog (level : IvpLogLevel) (description : string)
  | CloudSend (msg url base method : string).
Definition base_req : string := "/carmacloud/tcmreq".
Definition base_ack : string := "/carmacloud/tcmack".
Definition IvpMsgFlags_RouteDSRC : Z := 1.
Definition BroadcastTCM (tsm5ENC : tsm5EncodedMessage) : action :=
  Broadcast (mkOut (payload tsm5ENC) (encoding tsm5ENC) IvpMsgFlags_RouteDSRC 0x8003).
Definition hex_digit (upper : bool) (d : Z) : ascii :=
  ascii_of_N (Z.to_N (if d <? 10 then 48 + d else (if upper then 55 else 87) + d)).
Fixpoint hex (upper : bool) (bytes : list Z) : string :=
  match bytes with
  | [] => EmptyString
  | b :: bs => String (hex_digit upper (b `div` 16)) (String (hex_digit upper (b `mod` 16)) (hex upper bs))
  end.

Definition quoted (s : string) : string := String "034" (s +:+ String "034" "").
Definition xml_declaration : string := "<?xml version=" +:+ quoted "1.0" +:+ " encoding=" +:+ quoted "UTF-8" +:+ "?>".

(** * Requests of vehicles

    The buffers of [HandleCARMARequest] have a fixed size; a text that does not fit has
    no defined behaviour ([None]), nor have fewer than three offsets or an empty id. *)
Record Bounds := mkBounds { reflat : Z; reflon : Z; offsets : list (Z * Z) }.
Record TrafficControlRequest := mkRequest { reqid : list Z; reqseq : Z; scale : Z; bounds : list Bounds }.
Definition bounds_size : Z := 5000.
Definition xml_size : Z := 10000.
Definition len (s : string) : Z := Z.of_nat (String.length s).
(** [nowInSeconds] is an unsigned 32 bit number. *)
Definition oldestInMins (nowInSeconds fetchtime : Z) : Z := s32 (u32 (nowInSeconds `div` 60 - fetchtime * 24 * 60)).
Definition offset_text (o : Z * Z) : string :=
  "<offsets><deltax>" +:+ pretty (fst o) +:+ "</deltax><deltay>" +:+ pretty (snd o) +:+ "</deltay></offsets>".
Definition bound_text (oldest : Z) (b : Bounds) : option string :=
  match offsets b with
  | o0 :: o1 :: o2 :: _ => Some ("<bounds><oldest>" +:+ pretty oldest +:+ "</oldest><reflon>" +:+ pretty (reflon b) +:+
      "</reflon><reflat>" +:+ pretty (reflat b) +:+ "</reflat>" +:+ offset_text o0 +:+ offset_text o1 +:+
      offset_text o2 +:+ "</bounds>")
  | _ => None
  end.
(** [sprintf] at the end of a buffer. *)
Definition append_to (size : Z) (buf t : string) : option string :=
  if size <? len buf + len t + 1 then None else Some (buf +:+ t).
Fixpoint bounds_text (oldest : Z) (bs : list Bounds) (buf : string) : option string :=
  match bs with
  | [] => Some buf
  | b :: bs =>
      match bound_text oldest b with
      | None => None
      | Some t => match append_to bounds_size buf t with None => None | Some buf => bounds_text oldest bs buf end
      end
  end.
Definition request_text (c : Config) (r : TrafficControlRequest) (bounds_str : string) : string :=
  xml_declaration +:+ "<TrafficControlRequest port=" +:+ quoted (pretty (webport c)) +:+ " list=" +:+
  quoted (list_tcm c) +:+ "><reqid>" +:+ hex true (reqid r) +:+ "</reqid><reqseq>" +:+ pretty (reqseq r) +:+
  "</reqseq><scale>" +:+ pretty (scale r) +:+ "</scale>" +:+ bounds_str +:+ "</TrafficControlRequest>".
Definition HandleCARMARequest (nowInSeconds : Z) (r : TrafficControlRequest) (s : CARMACloudPlugin) : option (list action) :=
  let c := config s in
  if Z.of_nat (length (reqid r)) =? 0 then None
  else match bounds_text (Z.max (oldestInMins nowInSeconds (fetchtime c)) 0) (bounds r) "" with
  | None => None
  | Some bounds_str =>
      match append_to xml_size "" (request_text c r bounds_str) with
      | None => None
      | Some xml_str => Some [CloudSend xml_str (carma_cloud_url c) base_req "POST"]
      end
  end.
(** * Acknowledgements of vehicles *)
Definition ConvertString2Vector (str : string) : list string := map to_lower (split_on "," str).
Definition ConvertString2Pair (str : string) : string * string :=
  match split_on ":" str with
  | [] => ("", "")
  | key :: values => (to_lower key, foldr (fun v t => v +:+ " " +:+ t) "" values)
  end.
(** The first parameter whose key contains the key. *)
Fixpoint GetValueFromStrategyParamsByKey (strategy_params_v : list string) (key : string) : string :=
  match strategy_params_v with
  | [] => ""
  | p :: ps =>
      let '(k, v) := ConvertString2Pair p in
      if contains key k then v else GetValueFromStrategyParamsByKey ps key
  end.
Definition nack_text (id msgnum CMV_id : string) (status : Z) (description : string) : string :=
  xml_declaration +:+ "<TrafficControlAcknowledgement><reqid> " +:+ id +:+ "</reqid><msgnum>" +:+ msgnum +:+
  "</msgnum><cmvid>" +:+ CMV_id +:+ "</cmvid><acknowledgement>" +:+ pretty status +:+
  "</acknowledgement><description>" +:+ description +:+ "</description></TrafficControlAcknowledgement>".

Section plugin.
Context `{TC : TcmCodec} `{IN : Inflate} `{XT : XmlTree}.
Implicit Types s : CARMACloudPlugin.

(** The loop over the TCMs of the id; [None]: an exception of the codec or of [stol]. *)
Fixpoint remove_acknowledged (id msgnum : string) (m : list (string * tsm5EncodedMessage))
    : option (bool * list (string * tsm5EncodedMessage)) :=
  match m with
  | [] => Some (false, [])
  | (k, tcm) :: m' =>
      let continue := match remove_acknowledged id msgnum m' with
        | None => None | Some (r, m') => Some (r, (k, tcm) :: m') end in
      if OrdMap.keqb id k then
        match decode_j2735_message tcm with
        | Throws => None
        | Null => Some (false, m)
        | Decoded n =>
            match stol msgnum with
            | inl _ => None
            | inr v => if n =? v then Some (true, m') else continue
            end
        end
      else continue
  end.
Record acknowledgement := mkAck { ack_reason : string; ack_value : string; ack_id : string; ack_msgnum : string }.
Definition parse_params (operationParams : string) : acknowledgement :=
  let v := ConvertString2Vector (c_str operationParams) in
  mkAck (GetValueFromStrategyParamsByKey v "reason") (GetValueFromStrategyParamsByKey v "acknowledgement")
    (to_lower (trim (GetValueFromStrategyParamsByKey v "traffic_control_id")))
    (GetValueFromStrategyParamsByKey v "msgnum").
Definition is_acknowledgement (strategy : string) s : bool :=
  let mo_strategy := to_lower (c_str strategy) in
  bool_decide (mo_strategy ∈ ConvertString2Vector (strategies (config s)))
  && contains TCMAcknowledgementStrategy mo_strategy.
(** The flag tells whether the handler ends without an exception. *)
Definition HandleMobilityOperationMessage (strategy operationParams hostStaticId : string) s
    : bool * CARMACloudPlugin * list action :=
  let mo_strategy := to_lower (c_str strategy) in
  if is_acknowledgement strategy s then
    let a := parse_params operationParams in
    let CMV_id := c_str hostStaticId in
    match remove_acknowledged (ack_id a) (ack_msgnum a) (not_ACK_TCMs s) with
    | None => (false, s, [])
    | Some (_, m) =>
        let s := set_not_ACK m s in
        match stoi (ack_value a) with
        | inl _ => (false, s, [])
        | inr ack =>
            let accepted := ack =? acknowledgement_status__acknowledged in
            (true, s,
             BroadcastEventLog (if accepted then IvpLogLevel_info else IvpLogLevel_warn)
               (mo_strategy +:+ ": Traffic control id = " +:+ ack_id a +:+
                (if len CMV_id <=? 0 then "" else ", CMV Id = " +:+ CMV_id) +:+ ", reason = " +:+ ack_reason a)
             :: if accepted then []
                else [CloudSend (nack_text (ack_id a) (ack_msgnum a) CMV_id acknowledgement_status__rejected (ack_reason a))
                        (carma_cloud_url (config s)) base_ack "POST"])
        end
    end
  else (true, s, []).

(** * TCMs of the cloud *)
(** The index is an [int]. [None]: more rounds than the fuel, or an exception. *)
Fixpoint updateTags_loop (fuel : nat) (str : string) (ind : Z) (tagout tagin : string) : option string :=
  match fuel with
  | O => None
  | S fuel =>
      let ind := s32 (find tagout str (u64 ind)) in
      if u64 ind =? npos then Some str
      else match replace str (u64 ind) (len tagout) tagin with
      | None => None
      | Some str => updateTags_loop fuel str ind tagout tagin
      end
  end.
Definition updateTags (str tagout tagin : string) : option string :=
  updateTags_loop (S (String.length str)) str 0 tagout tagin.
Definition tags : list (string * string) :=
  [("<TrafficControlMessage>", "<TestMessage05><body>"); ("</TrafficControlMessage>", "</body></TestMessage05>");
   ("TrafficControlParams", "params"); ("TrafficControlGeometry", "geometry"); ("TrafficControlPackage", "package")].
Fixpoint update_all (ts : list (string * string)) (tcm : string) : option string :=
  match ts with
  | [] => Some tcm
  | (tagout, tagin) :: ts =>
      match updateTags tcm tagout tagin with None => None | Some tcm => update_all ts tcm end
  end.

Definition Z_STREAM_END : Z := 1.
(** [None]: more rounds than the fuel. *)
Fixpoint inflate_loop (fuel : nat) (strm : z_stream) (outBuf : string) : option string :=
  match fuel with
  | O => None
  | S fuel =>
      let '(isDone, out, strm) := inflate strm in
      let outBuf := outBuf +:+ out in
      if isDone =? Z_STREAM_END then Some outBuf else inflate_loop fuel strm outBuf
  end.
Definition UncompressBytes (fuel : nat) (compressedBytes : string) : option string :=
  match inflateInit2 compressedBytes with
  | Some strm => inflate_loop fuel strm ""
  | None => Some ""
  end.
Definition FilterTCMs (tcm_response : string) : list string :=
  match read_xml tcm_response with
  | None => []
  | Some parent_node =>
      match get_child_optional "TrafficControlMessageList" parent_node with
      | Some child_nodes => map (fun '(name, node) => write_xml (put_child name node)) child_nodes
      | None => [tcm_response]
      end
  end.
(** The bytes of a response as the texts of TCMs; [None]: a loop that does not end. *)
Definition response_tcms (fuel : nat) (isCompressed : bool) (st : string) : option (list string) :=
  if len st =? 0 then Some []
  else
    let text := if isCompressed then UncompressBytes fuel st else Some st in
    match text with
    | None => None
    | Some bytes =>
        if isCompressed && (len bytes =? 0) then Some []
        else match update_all tags (c_str bytes) with
        | None => None
        | Some tcm => Some (if isCompressed then FilterTCMs tcm else [tcm])
        end
    end.
Definition receive_tcm (tsm5ENC : tsm5EncodedMessage) (reqid : list Z) s : CARMACloudPlugin * list action :=
  let tcmv01_req_id_hex := hex false reqid in
  (if 0 <? len tcmv01_req_id_hex then set_not_ACK (MultiMap.insert tcmv01_req_id_hex tsm5ENC (not_ACK_TCMs s)) s else s,
   [BroadcastTCM tsm5ENC]).
(** A text that cannot be encoded throws out of the loop. *)
Fixpoint receive_all (tcmSL : list string) s : bool * CARMACloudPlugin * list action :=
  match tcmSL with
  | [] => (true, s, [])
  | tcm_s :: tcmSL =>
      match encode_j2735_message tcm_s with
      | None => (false, s, [])
      | Some (tsm5ENC, reqid) =>
          let '(s, out) := receive_tcm tsm5ENC reqid s in
          let '(ok, s, outs) := receive_all tcmSL s in
          (ok, s, out ++ outs)
      end
  end.
Definition CARMAResponseHandler (fuel : nat) (isCompressed : bool) (st : string) s : option (bool * CARMACloudPlugin * list action) :=
  match response_tcms fuel isCompressed st with
  | None => None
  | Some tcmSL => Some (receive_all tcmSL s)
  end.

(** * Repeated broadcasts *)
(** The loop over the counts of an id: whether the payload was found, whether it is to
    be skipped, and the counts after it. *)
Fixpoint count_broadcast (total : Z) (id tcm_hex_payload : string) (m : list (string * TCMBroadcastMetadata))
    : bool * bool * list (string * TCMBroadcastMetadata) :=
  match m with
  | [] => (false, false, [])
  | (k, d) :: m =>
      let '(found, skip, m) := count_broadcast total id tcm_hex_payload m in
      if OrdMap.keqb id k && String.eqb (tcm_hex d) tcm_hex_payload then
        if total <=? num_of_times d then (true, true, (k, d) :: m)
        else (true, skip, (k, mkMeta (tcm_hex d) (num_of_times d + 1)) :: m)
      else (found, skip, (k, d) :: m)
  end.
Definition IsSkipBroadcastCurTCM (total : Z) (id tcm_hex_payload : string) (times : list (string * TCMBroadcastMetadata))
    : bool * list (string * TCMBroadcastMetadata) :=
  if total =? 0 then (true, times)
  else
    let '(found, skip, times) := count_broadcast total id tcm_hex_payload times in
    (skip, if found : bool then times else MultiMap.insert id (mkMeta tcm_hex_payload 1) times).
(** The loop over the map; [now i] is the clock, in milliseconds, at its [i]th TCM. The
    set of expired ids is a map to nothing. *)
Record tracking := mkTracking { starting : list (string * Z); times : list (string * TCMBroadcastMetadata); expired : list (string * unit) }.
Definition rebroadcast_tcm (c : Config) (cur_time : Z) (x : string * tsm5EncodedMessage) (t : tracking) : tracking * list action :=
  let '(id, tsm5ENC) := x in
  let go t :=
    let '(skip, tm) := IsSkipBroadcastCurTCM (TCMRepeatedlyBroadCastTotalTimes c) id (payload tsm5ENC) (times t) in
    (mkTracking (starting t) tm (expired t), if skip : bool then [] else [BroadcastTCM tsm5ENC]) in
  match OrdMap.find id (starting t) with
  | None => go (mkTracking (OrdMap.insert id cur_time (starting t)) (times t) (expired t))
  | Some start =>
      if TCMRepeatedlyBroadcastTimeOut c <? cur_time - start
      then (mkTracking (starting t) (times t) (OrdMap.insert id tt (expired t)), [])
      else go t
  end.
Fixpoint rebroadcast_loop (c : Config) (now : nat -> Z) (i : nat) (tcms : list (string * tsm5EncodedMessage)) (t : tracking)
    : tracking * list action :=
  match tcms with
  | [] => (t, [])
  | x :: tcms =>
      let '(t, out) := rebroadcast_tcm c (now i) x t in
      let '(t, outs) := rebroadcast_loop c now (S i) tcms t in
      (t, out ++ outs)
  end.
Definition expire_id (id : string) s : CARMACloudPlugin * list action :=
  let c := config s in
  (set_tracking (OrdMap.erase id (tcm_broadcast_starting_time s)) (MultiMap.erase id (tcm_broadcast_times s))
     (set_not_ACK (MultiMap.erase id (not_ACK_TCMs s)) s),
   [BroadcastEventLog IvpLogLevel_warn (TCMAcknowledgementStrategy +:+ ": " +:+ TCMNOAcknowledgementDescription c +:+ " Traffic control id = " +:+ id);
    CloudSend (nack_text id "" "" acknowledgement_status__not_acknowledged (TCMNOAcknowledgementDescription c))
      (carma_cloud_url c) base_ack "POST"]).
Fixpoint expire_all (ids : list string) s : CARMACloudPlugin * list action :=
  match ids with
  | [] => (s, [])
  | id :: ids => let '(s, out) := expire_id id s in let '(s, outs) := expire_all ids s in (s, out ++ outs)
  end.
(** The body of the loop of the thread, after its look at the size of the map. *)
Definition rebroadcast_round (now : nat -> Z) (seen : bool) s : CARMACloudPlugin * list action :=
  if seen then
    let '(t, out) := rebroadcast_loop (config s) now 0 (not_ACK_TCMs s)
      (mkTracking (tcm_broadcast_starting_time s) (tcm_broadcast_times s) []) in
    let '(s, outs) := expire_all (map fst (expired t)) (set_tracking (starting t) (times t) s) in
    (s, out ++ outs)
  else (set_tracking [] [] s, []).
(** One step of the thread; [failed]: the plugin is in its error state. *)
Definition TCMAckCheckAndRebroadcastTCM (failed : bool) (now : nat -> Z) s : CARMACloudPlugin * list action :=
  match broadcast_thread s with
  | Sleeping => (set_thread (if failed then Ended else Checked (negb (Z.of_nat (length (not_ACK_TCMs s)) =? 0))) s, [])
  | Checked seen => let '(s, out) := rebroadcast_round now seen s in (set_thread Sleeping s, out)
  | Ended => (s, [])
  end.

(** * The plugin

    The handlers and the rounds exclude each other by a lock; the look at the size is
    outside of it. *)
Inductive event :=
  | Response (fuel : nat) (isCompressed : bool) (st : string)
  | MobilityOperation (strategy operationParams hostStaticId : string)
  | Configure (c : Config)
  | Tick (failed : bool) (now : nat -> Z).
Definition step (e : event) s : CARMACloudPlugin * list action :=
  match e with
  | Response fuel isCompressed st =>
      match CARMAResponseHandler fuel isCompressed st s with Some (_, s, out) => (s, out) | None => (s, []) end
  | MobilityOperation strategy operationParams hostStaticId =>
      let '(_, s, out) := HandleMobilityOperationMessage strategy operationParams hostStaticId s in (s, out)
  | Configure c => (UpdateConfigSettings c s, [])
  | Tick failed now => TCMAckCheckAndRebroadcastTCM failed now s
  end.
Fixpoint run (es : list event) s : CARMACloudPlugin * list action :=
  match es with
  | [] => (s, [])
  | e :: es => let '(s, out) := step e s in let '(s, outs) := run es s in (s, out ++ outs)
  end.

(** An acknowledgement removes one TCM of its id, or nothing. *)
Lemma remove_acknowledged_one id msgnum m r m' : remove_acknowledged id msgnum m = Some (r, m') ->
  if r : bool then exists m1 tcm m2 n, m = m1 ++ (id, tcm) :: m2 /\ m' = m1 ++ m2 /\
    decode_j2735_message tcm = Decoded n /\ stol msgnum = inr n
  else m' = m.
Proof.
  revert m'. induction m as [|[k tcm] m IH]; intros m'; cbn [remove_acknowledged]; [by intros [= <- <-]|].
  assert (match remove_acknowledged id msgnum m with None => None | Some (r, m') => Some (r, (k, tcm) :: m') end = Some (r, m') ->
    if r : bool then exists m1 tcm0 m2 n, (k, tcm) :: m = m1 ++ (id, tcm0) :: m2 /\ m' = m1 ++ m2 /\
      decode_j2735_message tcm0 = Decoded n /\ stol msgnum = inr n
    else m' = (k, tcm) :: m) as Hgo.
  { destruct (remove_acknowledged id msgnum m) as [[r' m'']|]; [|done]. intros [= <- <-]. specialize (IH m'' eq_refl).
    destruct r'; [|by subst]. destruct IH as (m1 & tcm' & m2 & n & -> & -> & H). by exists ((k, tcm) :: m1), tcm', m2, n. }
  destruct (OrdMap.keqb id k) eqn:E; [|done]. apply OrdMap.keqb_spec in E as ->.
  destruct (decode_j2735_message tcm) as [| |n] eqn:Hd; [by intros [= <- <-]|done|].
  destruct (stol msgnum) as [|v] eqn:Hst; [done|]. destruct (Z.eqb_spec n v) as [->|]; [|done].
  intros [= <- <-]. by exists [], tcm, m, v.
Qed.

(** ** The counts *)
Section schedule.
Variables (k : string) (tcm : tsm5EncodedMessage) (t0 : Z) (c : Config).
Notation p := (payload tcm).
Definition entries (m : list (string * TCMBroadcastMetadata)) : list (string * TCMBroadcastMetadata) :=
  List.filter (fun x => String.eqb x.1 k && String.eqb (tcm_hex x.2) p) m.
Definition holders (m : list (string * tsm5EncodedMessage)) : list (string * tsm5EncodedMessage) :=
  List.filter (fun x => String.eqb (payload x.2) p) m.
Definition is_broadcast (a : action) : bool := match a with Broadcast m => String.eqb (out_payload m) p | _ => false end.
Definition broadcasts (out : list action) : Z := Z.of_nat (length (List.filter is_broadcast out)).
Definition counted (n : Z) : list (string * TCMBroadcastMetadata) := if n =? 0 then [] else [(k, mkMeta p n)].
(** The TCM has been broadcast [n] times since [t0]. *)
Definition tracked (n : Z) (t : tracking) : Prop :=
  entries (times t) = counted n /\ 0 <= n <= TCMRepeatedlyBroadCastTotalTimes c /\
  OrdMap.find k (expired t) = None /\ forall st, OrdMap.find k (starting t) = Some st -> t0 <= st.

Lemma broadcasts_app out1 out2 : broadcasts (out1 ++ out2) = broadcasts out1 + broadcasts out2.
Proof. unfold broadcasts. rewrite List.filter_app, length_app. lia. Qed.

Lemma keqb_eqb (x y : string) : OrdMap.keqb x y = String.eqb y x.
Proof.
  destruct (String.eqb_spec y x) as [->|Hne]; [apply OrdMap.keqb_refl|]. apply OrdMap.keqb_false. congruence.
Qed.

Lemma count_other id q m : id <> k \/ q <> p ->
  let '(_, _, m') := count_broadcast (TCMRepeatedlyBroadCastTotalTimes c) id q m in entries m' = entries m.
Proof.
  intros Hne. induction m as [|[k' d] m IH]; cbn [count_broadcast]; [done|].
  destruct (count_broadcast _ id q m) as [[found skip] m']. rewrite keqb_eqb. unfold entries in *.
  destruct (_ && _) eqn:E; [|cbn [List.filter]; by rewrite IH].
  apply andb_prop in E as [Ek Ep]. apply String.eqb_eq in Ek, Ep. subst k' q.
  assert (String.eqb id k && String.eqb (tcm_hex d) p = false) as E.
  { apply andb_false_iff. destruct Hne as [Hne|Hne]; [left|right]; by apply String.eqb_neq. }
  destruct (_ <=? _); cbn [List.filter fst snd tcm_hex]; by rewrite E.
Qed.
Lemma skip_other id q m : id <> k \/ q <> p ->
  entries (snd (IsSkipBroadcastCurTCM (TCMRepeatedlyBroadCastTotalTimes c) id q m)) = entries m.
Proof.
  intros Hne. unfold IsSkipBroadcastCurTCM. destruct (_ =? 0); [done|]. pose proof (count_other id q m Hne) as Hc.
  destruct (count_broadcast _ id q m) as [[found skip] m']. destruct found; [done|]. cbn [snd].
  unfold entries. rewrite MultiMap.filter_insert; [done|]. cbn. apply andb_false_iff.
  destruct Hne as [Hne|Hne]; [left|right]; by apply String.eqb_neq.
Qed.
(** The count of the TCM itself. *)
Lemma count_same m : 
  let '(found, skip, m') := count_broadcast (TCMRepeatedlyBroadCastTotalTimes c) k p m in
  match entries m with
  | [] => found = false /\ skip = false /\ m' = m
  | [(_, d)] => found = true /\ skip = (TCMRepeatedlyBroadCastTotalTimes c <=? num_of_times d) /\
      entries m' = [(k, mkMeta p (if skip then num_of_times d else num_of_times d + 1))]
  | _ => True
  end.
Proof.
  induction m as [|[k' d] m IH]; cbn [count_broadcast]; [done|].
  destruct (count_broadcast _ k p m) as [[found skip] m']. rewrite keqb_eqb. unfold entries in *. cbn [List.filter fst snd].
  destruct (String.eqb k' k && String.eqb (tcm_hex d) p) eqn:E.
  - destruct (List.filter _ m) as [|y l] eqn:El; [|by destruct (_ <=? num_of_times d)]. destruct IH as (-> & -> & ->).
    apply andb_prop in E as [Ek Ep]. apply String.eqb_eq in Ek, Ep. subst k'. destruct d as [h n]. cbn [tcm_hex num_of_times] in *. subst h.
    destruct (_ <=? n); cbn [List.filter fst snd tcm_hex num_of_times]; rewrite !String.eqb_refl; cbn [andb]; by rewrite El.
  - destruct (List.filter _ m) as [|[k2 d2] [|? ?]] eqn:El; [| |done].
    + destruct IH as (-> & -> & ->). done.
    + destruct IH as (-> & Hs & He). split; [done|]. split; [done|]. cbn [List.filter fst snd]. by rewrite E.
Qed.
Lemma skip_same n m : entries m = counted n -> 0 < TCMRepeatedlyBroadCastTotalTimes c -> 0 <= n <= TCMRepeatedlyBroadCastTotalTimes c ->
  let '(skip, m') := IsSkipBroadcastCurTCM (TCMRepeatedlyBroadCastTotalTimes c) k p m in
  skip = (n =? TCMRepeatedlyBroadCastTotalTimes c) /\ entries m' = counted (Z.min (n + 1) (TCMRepeatedlyBroadCastTotalTimes c)).
Proof.
  intros Hm Hpos Hn. unfold IsSkipBroadcastCurTCM. rewrite (proj2 (Z.eqb_neq _ 0)) by lia.
  pose proof (count_same m) as Hc. destruct (count_broadcast _ k p m) as [[found skip] m'].
  rewrite Hm in Hc. unfold counted in *. destruct (Z.eqb_spec n 0) as [->|Hn0].
  - destruct Hc as (-> & -> & ->). split; [symmetry; apply Z.eqb_neq; lia|].
    rewrite (proj2 (Z.eqb_neq _ 0)) by lia. destruct (MultiMap.insert_split k (mkMeta p 1) m) as (m1 & m2 & -> & ->).
    unfold entries in *. rewrite List.filter_app in *. apply app_eq_nil in Hm as [H1 H2].
    cbn [List.filter fst snd tcm_hex]. rewrite !String.eqb_refl. cbn [andb]. rewrite H1, H2. cbn. do 3 f_equal. lia.
  - destruct Hc as (-> & Hs & He). cbn [num_of_times] in *. split; [rewrite Hs; lia|].
    rewrite (proj2 (Z.eqb_neq _ 0)) by lia. rewrite He. do 3 f_equal. rewrite Hs. destruct (Z.leb_spec (TCMRepeatedlyBroadCastTotalTimes c) n); lia.
Qed.

(** ** One round *)
Context (Hpos : 0 < TCMRepeatedlyBroadCastTotalTimes c).
Notation N := (TCMRepeatedlyBroadCastTotalTimes c).
Definition in_time (t : Z) : Prop := t0 <= t <= t0 + TCMRepeatedlyBroadcastTimeOut c.

Lemma start_tracked n t id cur : tracked n t -> in_time cur -> OrdMap.find id (starting t) = None ->
  tracked n (mkTracking (OrdMap.insert id cur (starting t)) (times t) (expired t)).
Proof.
  intros (He & Hn & Hx & Hs) Hcur Hid. unfold tracked; split_all; [done|lia..|done|]. cbn [starting]. intros st.
  rewrite OrdMap.find_insert. case_if; [|apply Hs]. intros [= <-]. apply Hcur.
Qed.
Lemma not_expired n t cur st : tracked n t -> in_time cur -> OrdMap.find k (starting t) = Some st ->
  TCMRepeatedlyBroadcastTimeOut c <? cur - st = false.
Proof. intros (_ & _ & _ & Hs) [_ Hcur] Hst. specialize (Hs st Hst). apply Z.ltb_ge. lia. Qed.
Lemma rebroadcast_other n t cur x : tracked n t -> in_time cur -> payload x.2 <> p ->
  let '(t', out) := rebroadcast_tcm c cur x t in tracked n t' /\ broadcasts out = 0.
Proof.
  intros Ht Hcur Hx. destruct x as [id e]. cbn [snd] in Hx. unfold rebroadcast_tcm.
  assert (forall t, tracked n t -> let '(t', out) :=
    let '(skip, tm) := IsSkipBroadcastCurTCM N id (payload e) (times t) in
    (mkTracking (starting t) tm (expired t), if skip : bool then [] else [BroadcastTCM e]) in tracked n t' /\ broadcasts out = 0) as Hgo.
  { clear t Ht. intros t (He & Hn & Hxp & Hs). pose proof (skip_other id (payload e) (times t) (or_intror Hx)) as Ho.
    destruct (IsSkipBroadcastCurTCM _ _ _ _) as [skip tm]. cbn [snd] in Ho. split.
    - unfold tracked; split_all; [by rewrite <-He|lia..|done|done].
    - destruct skip; [done|]. unfold broadcasts. cbn. by rewrite (proj2 (String.eqb_neq _ _) Hx). }
  destruct (OrdMap.find id (starting t)) as [start|] eqn:Hst; [|by apply Hgo, start_tracked].
  destruct (_ <? _) eqn:Hexp; [|by apply Hgo].
  split; [|done]. destruct Ht as (He & Hn & Hxp & Hs). unfold tracked; split_all; [done|lia..| |done]. cbn [expired].
  rewrite OrdMap.find_insert. case_if; [|done]. apply OrdMap.keqb_spec in E. subst id.
  specialize (Hs start Hst). destruct Hcur. lia.
Qed.
Lemma rebroadcast_same n t cur : tracked n t -> in_time cur ->
  let '(t', out) := rebroadcast_tcm c cur (k, tcm) t in
  tracked (Z.min (n + 1) N) t' /\ broadcasts out = Z.min (n + 1) N - n.
Proof.
  intros Ht Hcur. unfold rebroadcast_tcm.
  assert (forall t, tracked n t -> let '(t', out) :=
    let '(skip, tm) := IsSkipBroadcastCurTCM N k p (times t) in
    (mkTracking (starting t) tm (expired t), if skip : bool then [] else [BroadcastTCM tcm]) in
    tracked (Z.min (n + 1) N) t' /\ broadcasts out = Z.min (n + 1) N - n) as Hgo.
  { clear t Ht. intros t (He & Hn & Hxp & Hs). pose proof (skip_same n (times t) He Hpos Hn) as Ho.
    destruct (IsSkipBroadcastCurTCM _ _ _ _) as [skip tm]. destruct Ho as [-> Ho]. split.
    - unfold tracked; split_all; [done|lia..|done|done].
    - destruct (Z.eqb_spec n N); unfold broadcasts; cbn; rewrite ?String.eqb_refl; cbn; lia. }
  destruct (OrdMap.find k (starting t)) as [start|] eqn:Hst; [|by apply Hgo, start_tracked].
  rewrite (not_expired n t cur start) by done. by apply Hgo.
Qed.
Lemma rebroadcast_loop_other now tcms : (forall i, in_time (now i)) -> holders tcms = [] -> forall i n t, tracked n t ->
  let '(t', out) := rebroadcast_loop c now i tcms t in tracked n t' /\ broadcasts out = 0.
Proof.
  intros Hnow. induction tcms as [|x tcms IH]; intros Hh i n t Ht; [done|]. cbn [rebroadcast_loop].
  unfold holders in *. cbn [List.filter] in Hh. destruct (String.eqb_spec (payload x.2) p) as [|Hx]; [done|].
  pose proof (rebroadcast_other n t (now i) x Ht (Hnow i) Hx) as Ho. destruct (rebroadcast_tcm c (now i) x t) as [t1 out1].
  destruct Ho as [Ht1 H1]. specialize (IH Hh (S i) n t1 Ht1). destruct (rebroadcast_loop c now (S i) tcms t1) as [t2 out2].
  rewrite broadcasts_app. split; [apply IH|lia].
Qed.
Lemma rebroadcast_loop_sole now tcms : (forall i, in_time (now i)) -> holders tcms = [(k, tcm)] -> forall i n t, tracked n t ->
  let '(t', out) := rebroadcast_loop c now i tcms t in
  tracked (Z.min (n + 1) N) t' /\ broadcasts out = Z.min (n + 1) N - n.
Proof.
  intros Hnow. induction tcms as [|x tcms IH]; intros Hh i n t Ht; [done|]. cbn [rebroadcast_loop].
  unfold holders in *. cbn [List.filter] in Hh. destruct (String.eqb_spec (payload x.2) p) as [|Hx].
  - injection Hh as -> Hh. pose proof (rebroadcast_same n t (now i) Ht (Hnow i)) as Ho.
    destruct (rebroadcast_tcm c (now i) (k, tcm) t) as [t1 out1]. destruct Ho as [Ht1 H1].
    pose proof (rebroadcast_loop_other now tcms Hnow Hh (S i) _ t1 Ht1) as Hl.
    destruct (rebroadcast_loop c now (S i) tcms t1) as [t2 out2]. rewrite broadcasts_app. split; [apply Hl|lia].
  - pose proof (rebroadcast_other n t (now i) x Ht (Hnow i) Hx) as Ho. destruct (rebroadcast_tcm c (now i) x t) as [t1 out1].
    destruct Ho as [Ht1 H1]. specialize (IH Hh (S i) n t1 Ht1). destruct (rebroadcast_loop c now (S i) tcms t1) as [t2 out2].
    rewrite broadcasts_app. split; [apply IH|lia].
Qed.
(** The number of repetitions and the time for them are as they were. *)
Definition same_limits (c' : Config) : Prop :=
  TCMRepeatedlyBroadCastTotalTimes c' = N /\ TCMRepeatedlyBroadcastTimeOut c' = TCMRepeatedlyBroadcastTimeOut c.
Definition phase (n : Z) s : Prop :=
  tracked n (mkTracking (tcm_broadcast_starting_time s) (tcm_broadcast_times s) []) /\
  holders (not_ACK_TCMs s) = [(k, tcm)] /\ same_limits (config s).
Lemma loop_same_limits c' now tcms : same_limits c' -> forall i t,
  rebroadcast_loop c' now i tcms t = rebroadcast_loop c now i tcms t.
Proof.
  intros [HN HT]. induction tcms as [|[id e] tcms IH]; intros i t; [done|]. cbn [rebroadcast_loop].
  assert (rebroadcast_tcm c' (now i) (id, e) t = rebroadcast_tcm c (now i) (id, e) t) as ->.
  { unfold rebroadcast_tcm. by rewrite HN, HT. }
  destruct (rebroadcast_tcm c (now i) (id, e) t) as [t1 o]. by rewrite IH.
Qed.
Lemma find_erase_ne {A} (id : string) (m : list (string * A)) : id <> k -> OrdMap.find k (OrdMap.erase id m) = OrdMap.find k m.
Proof.
  intros Hne. induction m as [|[k1 a1] m IH]; [done|]. cbn [OrdMap.erase OrdMap.find].
  destruct (OrdMap.keqb id k1) eqn:E; cbn [OrdMap.find]; [|by rewrite IH].
  apply OrdMap.keqb_spec in E as <-. by rewrite (proj2 (OrdMap.keqb_false k id)) by done.
Qed.
Lemma find_None_keys {A} (m : list (string * A)) : OrdMap.find k m = None -> Forall (fun id => id <> k) (map fst m).
Proof.
  induction m as [|[k1 a1] m IH]; [constructor|]. cbn [OrdMap.find map fst].
  destruct (OrdMap.keqb k k1) eqn:E; [done|]. apply OrdMap.keqb_false in E. intros H. constructor; [done|]. by apply IH.
Qed.
Lemma filter_erase {A} (P : string * A -> bool) id m : (forall x, P x = true -> x.1 = k) -> id <> k ->
  List.filter P (MultiMap.erase id m) = List.filter P m.
Proof.
  intros HP Hne. induction m as [|x m IH]; [done|]. unfold MultiMap.erase in *. cbn [List.filter].
  destruct (OrdMap.keqb id x.1) eqn:E; cbn [negb List.filter]; rewrite IH; [|done].
  apply OrdMap.keqb_spec in E. destruct (P x) eqn:Ex; [|done]. by rewrite (HP x Ex) in E.
Qed.
Lemma filter_erase_sole {A} (P : string * A -> bool) id m y : List.filter P m = [y] -> y.1 = k -> id <> k ->
  List.filter P (MultiMap.erase id m) = [y].
Proof.
  intros Hm Hy Hne. unfold MultiMap.erase.
  assert (forall m, List.filter P (List.filter (fun x => negb (OrdMap.keqb id x.1)) m)
    = List.filter (fun x => negb (OrdMap.keqb id x.1)) (List.filter P m)) as ->.
  { clear. induction m as [|x m IH]; [done|]. cbn [List.filter].
    destruct (P x) eqn:E1, (negb _) eqn:E2; cbn [List.filter]; rewrite ?E1, ?E2, ?IH; done. }
  rewrite Hm. cbn [List.filter]. rewrite Hy, (proj2 (OrdMap.keqb_false id k)) by done. done.
Qed.
Lemma expire_id_phase n id s : phase n s -> id <> k ->
  let '(s', out) := expire_id id s in phase n s' /\ broadcasts out = 0.
Proof.
  intros ((He & Hn & Hx & Hs) & Hh & Hc) Hne. split; [|done].
  unfold phase, tracked. cbn [expire_id not_ACK_TCMs tcm_broadcast_starting_time tcm_broadcast_times set_tracking set_not_ACK config times starting expired] in *.
  rewrite find_erase_ne by done. split_all; try done.
  - unfold entries in *. rewrite filter_erase; [done| |done]. intros x Hx'. apply andb_prop in Hx' as [Hk _]. by apply String.eqb_eq.
  - by apply filter_erase_sole.
Qed.
Lemma expire_all_phase n ids : Forall (fun id => id <> k) ids -> forall s, phase n s ->
  let '(s', out) := expire_all ids s in phase n s' /\ broadcasts out = 0.
Proof.
  induction 1 as [|id ids Hid Hids IH]; intros s Hs; [done|]. cbn [expire_all].
  pose proof (expire_id_phase n id s Hs Hid) as Ho. destruct (expire_id id s) as [s1 out1]. destruct Ho as [H1 Ho].
  specialize (IH s1 H1). destruct (expire_all ids s1) as [s2 out2]. rewrite broadcasts_app. split; [apply IH|lia].
Qed.
Lemma round_phase n now s : (forall i, in_time (now i)) -> phase n s ->
  let '(s', out) := rebroadcast_round now true s in
  phase (Z.min (n + 1) N) s' /\ broadcasts out = Z.min (n + 1) N - n.
Proof.
  intros Hnow (Ht & Hh & Hc). unfold rebroadcast_round. rewrite loop_same_limits by done.
  pose proof (rebroadcast_loop_sole now _ Hnow Hh 0%nat n _ Ht) as Hl.
  destruct (rebroadcast_loop c now 0 _ _) as [t out1]. destruct Hl as [(He & Hn & Hx & Hs) H1].
  pose proof (expire_all_phase (Z.min (n + 1) N) (map fst (expired t)) (find_None_keys _ Hx)
    (set_tracking (starting t) (times t) s)) as Ha.
  destruct (expire_all _ _) as [s2 out2]. rewrite broadcasts_app. destruct Ha as [H2 Ho].
  { split; [|by split]. unfold tracked. split_all; done || lia. }
  split; [done|lia].
Qed.

(** ** A run *)
(** An operation with the id and the number of the TCM. *)
Definition acknowledges (a : acknowledgement) : Prop :=
  ack_id a = k /\ exists n, decode_j2735_message tcm = Decoded n /\ stol (ack_msgnum a) = inr n.
Definition spares (e : event) : Prop :=
  match e with
  | Response fuel isCompressed st =>
      match response_tcms fuel isCompressed st with
      | Some tcmSL => Forall (fun x => match encode_j2735_message x with Some (e, _) => payload e <> p | None => True end) tcmSL
      | None => True
      end
  | MobilityOperation _ operationParams _ => ~ acknowledges (parse_params operationParams)
  | Configure c' => same_limits c'
  | Tick failed now => failed = false /\ forall i, in_time (now i)
  end.
Definition ticks (es : list event) : Z := Z.of_nat (length (List.filter (fun e => match e with Tick _ _ => true | _ => false end) es)).
Lemma receive_phase n tcmSL : Forall (fun x => match encode_j2735_message x with Some (e, _) => payload e <> p | None => True end) tcmSL ->
  forall s, phase n s -> let '(_, s', out) := receive_all tcmSL s in
  phase n s' /\ broadcasts out = 0 /\ broadcast_thread s' = broadcast_thread s.
Proof.
  induction 1 as [|x tcmSL Hx Hl IH]; intros s Hs; [done|]. cbn [receive_all].
  destruct (encode_j2735_message x) as [[e r]|]; [|done]. unfold receive_tcm.
  set (s1 := if 0 <? _ then _ else s). assert (phase n s1 /\ broadcast_thread s1 = broadcast_thread s) as [H1 Ht].
  { unfold s1. destruct (_ <? _); [|done]. split; [|done]. destruct Hs as (? & Hh & ?). split; [done|]. split; [|done].
    cbn [set_not_ACK not_ACK_TCMs]. unfold holders in *. rewrite MultiMap.filter_insert; [done|]. by apply String.eqb_neq. }
  specialize (IH s1 H1). destruct (receive_all tcmSL s1) as [[ok s2] outs]. destruct IH as (H2 & Ho & Ht').
  split; [done|]. rewrite broadcasts_app, Ho. split; [|by rewrite Ht']. unfold broadcasts. cbn. by rewrite (proj2 (String.eqb_neq _ _) Hx).
Qed.
Lemma acknowledge_phase n strategy operationParams host s : ~ acknowledges (parse_params operationParams) -> phase n s ->
  let '(_, s', out) := HandleMobilityOperationMessage strategy operationParams host s in
  phase n s' /\ broadcasts out = 0 /\ broadcast_thread s' = broadcast_thread s.
Proof.
  intros Hne Hs. unfold HandleMobilityOperationMessage. destruct (is_acknowledgement _ _); [|done].
  destruct (remove_acknowledged _ _ _) as [[r m']|] eqn:Hr; [|done].
  assert (phase n (set_not_ACK m' s)) as H1.
  { destruct Hs as (? & Hh & ?). split; [done|]. split; [|done]. cbn [set_not_ACK not_ACK_TCMs].
    apply remove_acknowledged_one in Hr. destruct r; [|by subst]. destruct Hr as (m1 & x & m2 & v & Hm & -> & Hd & Hv).
    rewrite Hm in Hh. unfold holders in *. rewrite List.filter_app in *. cbn [List.filter snd] in Hh.
    destruct (String.eqb (payload x) p); [|done]. exfalso. apply app_eq_unit in Hh as [[_ Hh]|[_ Hh]]; [|done].
    injection Hh as Hk -> _. apply Hne. split; [exact Hk|]. by exists v. }
  destruct (stoi _) as [|ack]; [done|]. split; [done|]. by destruct (ack =? _).
Qed.
Lemma run_phase es : Forall spares es -> forall n s, phase n s -> broadcast_thread s = Sleeping \/ broadcast_thread s = Checked true ->
  let '(s', out) := run es s in
  let rounds := (ticks es + match broadcast_thread s with Checked _ => 1 | _ => 0 end) `div` 2 in
  phase (Z.min (n + rounds) N) s' /\ broadcasts out = Z.min (n + rounds) N - n.
Proof.
  induction 1 as [|e es He Hes IH]; intros n s Hs Hth.
  { cbn [run]. assert (0 <= n <= N) by apply Hs. assert ((ticks [] + match broadcast_thread s with Checked _ => 1 | _ => 0 end) `div` 2 = 0) as ->.
    { by destruct Hth as [-> | ->]. }
    replace (Z.min (n + 0) N) with n by lia. split; [done|]. unfold broadcasts. cbn. lia. }
  cbn [run]. destruct (step e s) as [s1 out1] eqn:Hst.
  destruct e as [fuel z st|strategy params host|c'|failed now]; cbn [step spares] in *.
  - unfold CARMAResponseHandler in Hst. destruct (response_tcms fuel z st) as [tcmSL|].
    + pose proof (receive_phase n tcmSL He s Hs) as H1. destruct (receive_all tcmSL s) as [[ok s2] o]. injection Hst as <- <-.
      destruct H1 as (H1 & Ho & Ht). rewrite <-Ht in *. specialize (IH n s2 H1 Hth). destruct (run es s2) as [s3 out2].
      rewrite broadcasts_app, Ho. exact IH.
    + injection Hst as <- <-. specialize (IH n s Hs Hth). destruct (run es s) as [s3 out2]. exact IH.
  - pose proof (acknowledge_phase n strategy params host s He Hs) as H1.
    destruct (HandleMobilityOperationMessage _ _ _ s) as [[ok s2] o]. injection Hst as <- <-.
    destruct H1 as (H1 & Ho & Ht). rewrite <-Ht in *. specialize (IH n s2 H1 Hth). destruct (run es s2) as [s3 out2].
    rewrite broadcasts_app, Ho. exact IH.
  - injection Hst as <- <-. assert (phase n (UpdateConfigSettings c' s)) as H1 by (by destruct Hs as (? & ? & _)).
    specialize (IH n (UpdateConfigSettings c' s) H1 Hth). destruct (run es _) as [s3 out2]. exact IH.
  - destruct He as [-> Hnow]. unfold TCMAckCheckAndRebroadcastTCM in Hst.
    replace (ticks (Tick false now :: es)) with (1 + ticks es) by (unfold ticks; cbn [List.filter length]; lia).
    destruct Hth as [Hth|Hth]; rewrite Hth in *.
    + injection Hst as <- <-. assert (negb (Z.of_nat (length (not_ACK_TCMs s)) =? 0) = true) as ->.
      { destruct Hs as (_ & Hh & _). by destruct (not_ACK_TCMs s). }
      specialize (IH n (set_thread (Checked true) s) Hs (or_intror eq_refl)). destruct (run es _) as [s3 out2].
      cbn [broadcast_thread set_thread] in IH. replace (1 + ticks es + 0) with (ticks es + 1) by lia. exact IH.
    + pose proof (round_phase n now s Hnow Hs) as H1. destruct (rebroadcast_round now true s) as [s2 o]. injection Hst as <- <-.
      destruct H1 as [H1 Ho]. specialize (IH _ (set_thread Sleeping s2) H1 (or_introl eq_refl)).
      destruct (run es _) as [s3 out2]. cbn [broadcast_thread set_thread] in IH.
      rewrite broadcasts_app, Ho. replace ((1 + ticks es + 1) `div` 2) with ((ticks es + 0) `div` 2 + 1) by (Z.div_mod_to_equations; lia).
      assert (0 <= (ticks es + 0) `div` 2) as Hr by (apply Z.div_pos; unfold ticks; lia).
      assert (0 <= n <= N) by apply Hs. revert IH Hr. generalize ((ticks es + 0) `div` 2). intros r IH Hr.
      replace (Z.min (Z.min (n + 1) N + r) N) with (Z.min (n + (r + 1)) N) in IH by lia. split; [apply IH|lia].
Qed.
End schedule.

(** C24: a TCM is repeated as often as configured, and no more. Let a TCM that no other
    one equals wait for its acknowledgement and not have been repeated yet, and let its id
    have no starting time, or one at [t0] or later. Then, whatever other TCMs come, whatever
    operations come that are not its acknowledgement, by id and number, and whatever
    changes of the configuration come that keep the number of repetitions and the time
    for them, every second step of the thread broadcasts it once until the configured
    number is reached, if all this happens within the configured time after [t0] and
    the plugin does not fail. *)
Theorem rebroadcast_schedule k tcm t0 es s :
  0 < TCMRepeatedlyBroadCastTotalTimes (config s) ->
  holders tcm (not_ACK_TCMs s) = [(k, tcm)] -> entries k tcm (tcm_broadcast_times s) = [] ->
  (forall start, OrdMap.find k (tcm_broadcast_starting_time s) = Some start -> t0 <= start) ->
  broadcast_thread s = Sleeping ->
  Forall (spares k tcm t0 (config s)) es ->
  let '(s', out) := run es s in
  holders tcm (not_ACK_TCMs s') = [(k, tcm)] /\
  broadcasts tcm out = Z.min (ticks es `div` 2) (TCMRepeatedlyBroadCastTotalTimes (config s)).
Proof.
  intros Hpos Hh He Hs Hth Hes.
  assert (phase k tcm t0 (config s) 0 s) as Hp.
  { split; [|done]. split; [exact He|]. split; [lia|]. split; [done|]. exact Hs. }
  pose proof (run_phase k tcm t0 (config s) Hpos es Hes 0 s Hp (or_introl Hth)) as H. rewrite Hth in H.
  destruct (run es s) as [s' out]. rewrite Z.add_0_r in H. destruct H as [(_ & Hh' & _) H]. split; [done|]. lia.
Qed.

(** ** Expiry *)
Section expiry.
Variables (k : string) (start : Z).
Definition gone s : Prop :=
  MultiMap.equal_range k (not_ACK_TCMs s) = [] /\ MultiMap.equal_range k (tcm_broadcast_times s) = [] /\
  OrdMap.find k (tcm_broadcast_starting_time s) = None.
Definition event_expired (c : Config) : action :=
  BroadcastEventLog IvpLogLevel_warn (TCMAcknowledgementStrategy +:+ ": " +:+ TCMNOAcknowledgementDescription c +:+ " Traffic control id = " +:+ k).
Definition nack_expired (c : Config) : action :=
  CloudSend (nack_text k "" "" acknowledgement_status__not_acknowledged (TCMNOAcknowledgementDescription c)) (carma_cloud_url c) base_ack "POST".

Lemma range_erase {A} id (m : list (string * A)) :
  id = k \/ MultiMap.equal_range k m = [] -> MultiMap.equal_range k (MultiMap.erase id m) = [].
Proof.
  unfold MultiMap.equal_range, MultiMap.erase. induction m as [|x m IH]; [done|]. cbn [List.filter].
  intros H. destruct (OrdMap.keqb id x.1) eqn:E1; cbn [negb List.filter].
  - apply IH. destruct H as [H|H]; [by left|]. destruct (OrdMap.keqb k x.1); [done|]. by right.
  - destruct (OrdMap.keqb k x.1) eqn:E2.
    + destruct H as [->|H]; [congruence|done].
    + apply IH. destruct H as [H|H]; [by left|by right].
Qed.
Lemma expire_gone id s : OrdMap.sorted (tcm_broadcast_starting_time s) -> id = k \/ gone s ->
  let '(s', _) := expire_id id s in gone s' /\ OrdMap.sorted (tcm_broadcast_starting_time s').
Proof.
  intros Hs H. cbn. split; [|by apply OrdMap.sorted_erase]. unfold gone. cbn [not_ACK_TCMs tcm_broadcast_times tcm_broadcast_starting_time set_tracking set_not_ACK].
  assert (id = k \/ MultiMap.equal_range k (not_ACK_TCMs s) = []) by (destruct H as [H|(? & ? & ?)]; auto).
  assert (id = k \/ MultiMap.equal_range k (tcm_broadcast_times s) = []) by (destruct H as [H|(? & ? & ?)]; auto).
  rewrite !range_erase, OrdMap.find_erase by done. split_all; try done.
  case_if; [done|]. destruct H as [->|(_ & _ & H)]; [by rewrite OrdMap.keqb_refl in E|done].
Qed.
Lemma expire_all_gone ids : forall s, OrdMap.sorted (tcm_broadcast_starting_time s) -> In k ids \/ gone s ->
  let '(s', out) := expire_all ids s in gone s' /\ config s' = config s /\
  (In k ids -> event_expired (config s) ∈ out /\ nack_expired (config s) ∈ out).
Proof.
  induction ids as [|id ids IH]; intros s Hs H; cbn [expire_all].
  { destruct H as [[]|H]. split; [done|]. split; [done|]. intros []. }
  destruct (decide (id = k)) as [->|Hne].
  - pose proof (expire_gone k s Hs (or_introl eq_refl)) as Hg. cbn [expire_id] in *. destruct Hg as [Hg Hs'].
    specialize (IH _ Hs' (or_intror Hg)). destruct (expire_all ids _) as [s2 out2]. destruct IH as (Hg2 & Hc & _).
    split; [done|]. split; [done|]. intros _. unfold event_expired, nack_expired. set_solver.
  - assert (In k ids \/ gone s) as H' by (destruct H as [[->|H]|H]; [done|by left|by right]).
    assert (let '(s', _) := expire_id id s in OrdMap.sorted (tcm_broadcast_starting_time s') /\ (In k ids \/ gone s')) as Hg.
    { destruct H' as [Hin|Hg]; [split; [by apply OrdMap.sorted_erase|by left]|].
      pose proof (expire_gone id s Hs (or_intror Hg)) as H1. cbn [expire_id] in *. destruct H1 as [H1 H2]. split; [done|by right]. }
    cbn [expire_id] in *. destruct Hg as [Hs' Hg]. specialize (IH _ Hs' Hg). destruct (expire_all ids _) as [s2 out2].
    destruct IH as (Hg2 & Hc & Hout). split; [done|]. split; [done|]. intros [->|Hin]; [done|]. destruct (Hout Hin). set_solver.
Qed.
(** Every repetition is one of another id. *)
Definition others_only (tcms : list (string * tsm5EncodedMessage)) (out : list action) : Prop :=
  Forall (fun a => match a with Broadcast _ => exists id e, (id, e) ∈ tcms /\ id <> k /\ a = BroadcastTCM e | _ => True end) out.
Lemma rebroadcast_loop_expired c now tcms : (forall i, TCMRepeatedlyBroadcastTimeOut c < now i - start) ->
  forall i t, OrdMap.find k (starting t) = Some start ->
  let '(t', out) := rebroadcast_loop c now i tcms t in
  OrdMap.find k (starting t') = Some start /\ (OrdMap.sorted (starting t) -> OrdMap.sorted (starting t')) /\ others_only tcms out /\
  (In k (map fst (expired t)) \/ In k (map fst tcms) -> In k (map fst (expired t'))).
Proof.
  intros Hnow. induction tcms as [|[id e] tcms IH]; intros i t Ht; cbn [rebroadcast_loop].
  { split_all; [done|done|constructor|]. intros [H|[]]. done. }
  assert (let '(t1, out1) := rebroadcast_tcm c (now i) (id, e) t in
    OrdMap.find k (starting t1) = Some start /\ (OrdMap.sorted (starting t) -> OrdMap.sorted (starting t1)) /\
    others_only ((id, e) :: tcms) out1 /\ (In k (map fst (expired t)) \/ id = k -> In k (map fst (expired t1)))) as H.
  { unfold rebroadcast_tcm. destruct (decide (id = k)) as [->|Hne].
    - rewrite Ht, (proj2 (Z.ltb_lt _ _) (Hnow i)). split_all; [done|done|constructor|]. intros _. cbn [expired].
      apply list_elem_of_In, OrdMap.insert_keys. by left.
    - assert (forall skip : bool, others_only ((id, e) :: tcms) (if skip then [] else [BroadcastTCM e])) as Ho.
      { intros []; [constructor|]. constructor; [|constructor]. exists id, e. split; [left|done]. }
      destruct (OrdMap.find id (starting t)) as [st|].
      + destruct (_ <? _); cbn [starting expired].
        * split_all; [done|done|constructor|]. intros [H|H]; [|done]. apply list_elem_of_In, OrdMap.insert_keys. right. by apply list_elem_of_In.
        * destruct (IsSkipBroadcastCurTCM _ _ _ _) as [skip tm]. cbn [starting expired]. split_all; [done|done|apply Ho|naive_solver].
      + destruct (IsSkipBroadcastCurTCM _ _ _ _) as [skip tm]. cbn [starting expired]. split_all; [|apply OrdMap.sorted_insert|apply Ho|naive_solver].
        by rewrite OrdMap.find_insert, (proj2 (OrdMap.keqb_false k id)) by done. }
  destruct (rebroadcast_tcm c (now i) (id, e) t) as [t1 out1]. destruct H as (H1 & H2 & H3 & H4).
  specialize (IH (S i) t1 H1). destruct (rebroadcast_loop c now (S i) tcms t1) as [t2 out2].
  destruct IH as (I1 & I2 & I3 & I4). split; [done|]. split; [auto|]. split; [|cbn [map fst In]; intros H; apply I4; tauto].
  apply Forall_app. split; [done|]. eapply Forall_impl; [exact I3|]. intros [m|l d|m u b me]; [|done..].
  intros (id' & e' & Hin & Hx). exists id', e'. split; [by right|done].
Qed.
Lemma expire_all_quiet ids : forall s tcms, others_only tcms (snd (expire_all ids s)).
Proof.
  induction ids as [|id ids IH]; intros s tcms; cbn [expire_all]; [constructor|]. cbn [expire_id].
  specialize (IH (fst (expire_id id s)) tcms). cbn [expire_id fst] in IH. destruct (expire_all ids _) as [s2 out2]. cbn [snd] in *.
  by repeat (apply Forall_cons; split; [done|]).
Qed.
Lemma round_expired now s : OrdMap.sorted (tcm_broadcast_starting_time s) -> OrdMap.find k (tcm_broadcast_starting_time s) = Some start ->
  In k (map fst (not_ACK_TCMs s)) -> (forall i, TCMRepeatedlyBroadcastTimeOut (config s) < now i - start) ->
  let '(s', out) := rebroadcast_round now true s in
  gone s' /\ event_expired (config s) ∈ out /\ nack_expired (config s) ∈ out /\ others_only (not_ACK_TCMs s) out.
Proof.
  intros Hs Hf Hin Hnow. unfold rebroadcast_round.
  pose proof (rebroadcast_loop_expired (config s) now (not_ACK_TCMs s) Hnow 0%nat
    (mkTracking (tcm_broadcast_starting_time s) (tcm_broadcast_times s) []) Hf) as Hl.
  destruct (rebroadcast_loop _ now 0 _ _) as [t out1]. destruct Hl as (H1 & H2 & H3 & H4).
  specialize (H2 Hs). specialize (H4 (or_intror Hin)).
  pose proof (expire_all_gone (map fst (expired t)) (set_tracking (starting t) (times t) s) H2 (or_introl H4)) as Hg.
  pose proof (expire_all_quiet (map fst (expired t)) (set_tracking (starting t) (times t) s) (not_ACK_TCMs s)) as Hq.
  destruct (expire_all _ _) as [s2 out2]. destruct Hg as (Hg & _ & Hout). destruct (Hout H4) as [E1 E2].
  split; [done|]. split; [by apply elem_of_app; right|]. split; [by apply elem_of_app; right|].
  by apply Forall_app.
Qed.
End expiry.

(** A TCM that expires is withdrawn and reported. When the configured time has
    passed since the start of an id, the next round repeats no TCM of the id, drops
    them all with their counts and the start, and sends an event and a negative
    acknowledgement. *)
Theorem expired_tcm_reported k start now s :
  broadcast_thread s = Checked true -> OrdMap.sorted (tcm_broadcast_starting_time s) ->
  OrdMap.find k (tcm_broadcast_starting_time s) = Some start -> In k (map fst (not_ACK_TCMs s)) ->
  (forall i, TCMRepeatedlyBroadcastTimeOut (config s) < now i - start) ->
  let '(s', out) := step (Tick false now) s in
  gone k s' /\ event_expired k (config s) ∈ out /\ nack_expired k (config s) ∈ out /\ others_only k (not_ACK_TCMs s) out.
Proof.
  intros Ht Hs Hf Hin Hnow. cbn [step]. unfold TCMAckCheckAndRebroadcastTCM. rewrite Ht.
  pose proof (round_expired k start now s Hs Hf Hin Hnow) as H. by destruct (rebroadcast_round now true s).
Qed.

Lemma acknowledge_keeps strategy operationParams host s :
  let '(_, s', _) := HandleMobilityOperationMessage strategy operationParams host s in
  tcm_broadcast_starting_time s' = tcm_broadcast_starting_time s /\ config s' = config s /\ broadcast_thread s' = broadcast_thread s.
Proof.
  unfold HandleMobilityOperationMessage. destruct (is_acknowledgement _ _); [|done].
  destruct (remove_acknowledged _ _ _) as [[r m']|]; [|done]. by destruct (stoi _).
Qed.
(** The start of an id outlives its TCMs. An acknowledgement does not erase the start
    of an id: as long as no round has seen an empty map, a TCM with the id of one that
    was acknowledged is never repeated once the configured time has passed, and is
    reported as not acknowledged. *)
Theorem stale_start_expires k start strategy operationParams host fuel isCompressed st x e reqid now0 now s :
  broadcast_thread s = Sleeping -> OrdMap.sorted (tcm_broadcast_starting_time s) ->
  OrdMap.find k (tcm_broadcast_starting_time s) = Some start ->
  response_tcms fuel isCompressed st = Some [x] -> encode_j2735_message x = Some (e, reqid) -> hex false reqid = k -> k <> "" ->
  (forall i, TCMRepeatedlyBroadcastTimeOut (config s) < now i - start) ->
  let es := [MobilityOperation strategy operationParams host; Response fuel isCompressed st; Tick false now0] in
  let '(s1, _) := run es s in let '(s2, out) := step (Tick false now) s1 in
  (k, e) ∈ not_ACK_TCMs s1 /\ gone k s2 /\ nack_expired k (config s) ∈ out /\ others_only k (not_ACK_TCMs s1) out.
Proof.
  intros Ht Hs Hf Hr He Hk Hk0 Hnow. cbn [run].
  pose proof (acknowledge_keeps strategy operationParams host s) as Ha. cbn [step].
  destruct (HandleMobilityOperationMessage _ _ _ s) as [[ok s0] o]. destruct Ha as (A1 & A2 & A3).
  unfold CARMAResponseHandler. rewrite Hr. cbn [receive_all]. rewrite He. unfold receive_tcm. rewrite Hk.
  assert (0 <? len k = true) as -> by (apply Z.ltb_lt; unfold len; destruct k; [done|cbn; lia]).
  set (s1 := set_not_ACK _ s0).
  assert ((k, e) ∈ not_ACK_TCMs s1) as Hin by (apply MultiMap.elem_of_insert; by left).
  unfold TCMAckCheckAndRebroadcastTCM. change (broadcast_thread s1) with (broadcast_thread s0). rewrite A3, Ht.
  assert (negb (Z.of_nat (length (not_ACK_TCMs s1)) =? 0) = true) as ->.
  { destruct (not_ACK_TCMs s1); [by apply not_elem_of_nil in Hin|done]. }
  cbn [broadcast_thread set_thread].
  pose proof (round_expired k start now (set_thread (Checked true) s1)) as H. cbn [set_thread tcm_broadcast_starting_time not_ACK_TCMs config] in H.
  change (tcm_broadcast_starting_time s1) with (tcm_broadcast_starting_time s0) in H. change (config s1) with (config s0) in H.
  assert (In k (map fst (not_ACK_TCMs s1))) as Hin' by (apply list_elem_of_In; by apply (list_elem_of_fmap_2 fst) in Hin).
  rewrite A1, A2 in H. specialize (H Hs Hf Hin' Hnow).
  destruct (rebroadcast_round now true _) as [s2 out2]. destruct H as (H1 & H2 & H3 & H4).
  split; [done|]. split; [exact H1|]. by split.
Qed.

(** ** Tags *)
Section updateTags.
Variables (c d : ascii) (rest_in rest_out : string).
Notation tagin := (String c rest_in).
Notation tagout := (String d rest_out).
(** The new tag is shorter, and its first character is at most the first of the old one. *)
Hypothesis fresh : all_chars (fun x => negb (Ascii.eqb x c)) rest_out = true.
Hypothesis shorter : (String.length tagin < String.length tagout)%nat.

Lemma updateTags_loop_clean fuel : forall str ind, (String.length str < fuel)%nat -> len str < 2 ^ 31 -> 0 <= ind <= len str ->
  (forall p, (Z.of_nat p < ind) -> ~ occurs tagout str p) ->
  exists r, updateTags_loop fuel str ind tagout tagin = Some r /\ forall p, ~ occurs tagout r p.
Proof.
  unfold len. induction fuel as [|fuel IH]; intros str ind Hf Hlen Hind Hbefore; [lia|]. cbn [updateTags_loop].
  rewrite (u64_small ind) by lia. unfold find. rewrite (proj2 (Z.ltb_ge _ _)) by lia.
  destruct (String.index (Z.to_nat ind) tagout str) as [j|] eqn:Hj.
  - pose proof (String.index_correct1 _ _ _ _ Hj) as H1. pose proof (String.index_correct2 _ _ _ _ Hj) as H2.
    pose proof (occurs_bound _ _ _ H1 ltac:(cbn; lia)) as Hb.
    rewrite s32_small, u64_small by lia. unfold npos. rewrite (proj2 (Z.eqb_neq _ _)) by lia.
    unfold replace. rewrite (proj2 (Z.ltb_ge _ _)) by lia. unfold len. rewrite <-Nat2Z.inj_add, !Nat2Z.id.
    set (rest := String.substring (j + _) _ str).
    assert (String.length (String.substring 0 j str +:+ tagin +:+ rest) < String.length str)%nat as Hshort.
    { rewrite !length_string_app. unfold rest. rewrite !length_substring. lia. }
    destruct (IH (String.substring 0 j str +:+ tagin +:+ rest) (Z.of_nat j)) as (r & Hr & Hclean); [lia|lia| | |by exists r].
    + rewrite !length_string_app, length_substring. lia.
    + intros p Hp Hocc. rewrite occurs_get in Hocc.
      destruct (Nat.le_gt_cases (p + String.length tagout) j) as [Hle|Hgt].
      * assert (occurs tagout str p) as Hold.
        { apply occurs_get. intros q Hq. rewrite <-Hocc by done. symmetry. apply get_replaced; lia. }
        destruct (Z.lt_ge_cases (Z.of_nat p) ind) as [Hlt|Hge]; [by apply (Hbefore p)|]. apply (H2 p); [lia|lia|exact Hold].
      * specialize (Hocc (j - p)%nat ltac:(lia)). replace (p + (j - p))%nat with j in Hocc by lia.
        rewrite get_replacement in Hocc by lia. destruct (j - p)%nat as [|q] eqn:Eq; [lia|]. cbn [String.get] in Hocc.
        symmetry in Hocc. by apply get_absent in Hocc.
  - rewrite (eq_refl : u64 (s32 npos) =? npos = true). exists str. split; [done|]. intros p.
    destruct (Z.lt_ge_cases (Z.of_nat p) ind) as [Hlt|Hge]; [by apply Hbefore|]. apply (String.index_correct3 _ _ _ _ Hj); [done|lia].
Qed.
End updateTags.

(** The tags are replaced. If the new tag is shorter than the old one, which contains
    its first character nowhere but at its start, the replacement ends and leaves no
    old tag in the text. *)
Theorem tags_replaced c d rest_in rest_out str :
  all_chars (fun x => negb (Ascii.eqb x c)) rest_out = true ->
  (String.length rest_in < String.length rest_out)%nat -> len str < 2 ^ 31 ->
  exists r, updateTags str (String d rest_out) (String c rest_in) = Some r /\ forall p, ~ occurs (String d rest_out) r p.
Proof.
  intros Hf Hs Hl. apply updateTags_loop_clean; [done|cbn; lia|lia|done|unfold len; lia|]. intros p Hp. lia.
Qed.
End plugin.

(** ** The buffers of a request *)
Lemma len_app s t : len (s +:+ t) = len s + len t.
Proof. unfold len. rewrite length_string_app. lia. Qed.
Lemma len_pretty (x : Z) k : (0 < k)%nat -> - 10 ^ Z.of_nat k < x < 10 ^ Z.of_nat k ->
  1 <= len (pretty x) <= Z.of_nat k + (if x <? 0 then 1 else 0).
Proof. intros Hk Hx. pose proof (length_pretty x k Hk ltac:(lia)). unfold len. destruct (x <? 0); lia. Qed.
Lemma len_number (x : Z) : 1 <= len (pretty x).
Proof. unfold len. destruct (pretty_number x) as [_ H]. destruct (pretty x); [done|cbn; lia]. Qed.
Definition offset_len (o : Z * Z) : Z := len (pretty o.1) + len (pretty o.2).
Ltac literal_lengths :=
  repeat match goal with |- context [len ?s] =>
    let l := eval vm_compute in (len s) in
    lazymatch l with Z0 => change (len s) with l | Zpos _ => change (len s) with l end end.
Lemma offset_text_len o : len (offset_text o) = 53 + offset_len o.
Proof. unfold offset_text, offset_len. rewrite !len_app. literal_lengths. lia. Qed.
Lemma bound_text_len oldest b o0 o1 o2 os : offsets b = o0 :: o1 :: o2 :: os ->
  exists t, bound_text oldest b = Some t /\
  len t = 227 + (len (pretty oldest) + len (pretty (reflon b)) + len (pretty (reflat b)) + offset_len o0 + offset_len o1 + offset_len o2).
Proof.
  intros Hb. unfold bound_text. rewrite Hb. eexists. split; [done|]. rewrite !len_app, !offset_text_len. literal_lengths. lia.
Qed.
Lemma bound_text_long oldest b t : bound_text oldest b = Some t -> 236 <= len t.
Proof.
  intros Ht. destruct (offsets b) as [|o0 [|o1 [|o2 os]]] eqn:Hb; [by unfold bound_text in Ht; rewrite Hb in Ht..|].
  destruct (bound_text_len oldest b o0 o1 o2 os Hb) as (t' & Ht' & Hl). rewrite Ht in Ht'. injection Ht' as <-.
  unfold offset_len in Hl. pose proof len_number. pose proof (H oldest). pose proof (H (reflon b)). pose proof (H (reflat b)).
  pose proof (H o0.1). pose proof (H o0.2). pose proof (H o1.1). pose proof (H o1.2). pose proof (H o2.1). pose proof (H o2.2). lia.
Qed.
Lemma bounds_text_long oldest bs : forall buf buf', bounds_text oldest bs buf = Some buf' ->
  len buf + 236 * Z.of_nat (length bs) <= len buf' /\ (bs = [] \/ len buf' + 1 <= bounds_size).
Proof.
  induction bs as [|b bs IH]; intros buf buf'; cbn [bounds_text].
  { intros [= <-]. cbn [length]. split; [lia|by left]. }
  destruct (bound_text oldest b) as [t|] eqn:Ht; [|done]. apply bound_text_long in Ht.
  unfold append_to. case_if; [done|]. intros H. pose proof H as Hb. apply IH in H as [H1 H2]. rewrite len_app in H1. cbn [length].
  split; [lia|]. right. destruct H2 as [->|H2]; [|done]. cbn [bounds_text] in Hb. injection Hb as <-. rewrite len_app. lia.
Qed.
(** The ranges of the data elements. *)
Definition delta_ok (d : Z) : Prop := - 32768 <= d <= 32768.
Definition bounds_ok (b : Bounds) : Prop :=
  - 1800000000 <= reflon b <= 1800000000 /\ - 900000000 <= reflat b <= 900000000 /\
  exists o0 o1 o2, offsets b = [o0; o1; o2] /\ Forall (fun o => delta_ok o.1 /\ delta_ok o.2) [o0; o1; o2].
Lemma bound_text_short oldest b : 0 <= oldest < 2 ^ 31 -> bounds_ok b -> exists t, bound_text oldest b = Some t /\ len t <= 295.
Proof.
  intros Ho (Hlon & Hlat & o0 & o1 & o2 & Hb & Hd). destruct (bound_text_len oldest b o0 o1 o2 [] Hb) as (t & Ht & Hl).
  exists t. split; [done|]. rewrite Hl. unfold offset_len.
  pose proof (len_pretty oldest 10 ltac:(lia) ltac:(lia)). pose proof (len_pretty (reflon b) 10 ltac:(lia) ltac:(lia)).
  pose proof (len_pretty (reflat b) 10 ltac:(lia) ltac:(lia)).
  assert (forall d, delta_ok d -> len (pretty d) <= 6) as Hdelta.
  { intros d Hd'. unfold delta_ok in Hd'. pose proof (len_pretty d 5 ltac:(lia) ltac:(lia)). destruct (d <? 0); lia. }
  repeat (apply Forall_cons in Hd as [[?%Hdelta ?%Hdelta] Hd]). rewrite (proj2 (Z.ltb_ge oldest 0)) in * by lia.
  destruct (reflon b <? 0), (reflat b <? 0); lia.
Qed.
Lemma bounds_text_short oldest bs : 0 <= oldest < 2 ^ 31 -> Forall bounds_ok bs -> forall buf,
  len buf + 295 * Z.of_nat (length bs) < bounds_size ->
  exists buf', bounds_text oldest bs buf = Some buf' /\ len buf' <= len buf + 295 * Z.of_nat (length bs).
Proof.
  intros Ho. induction 1 as [|b bs Hb Hbs IH]; intros buf Hl; cbn [bounds_text length] in *; [eexists; split; [done|lia]|].
  destruct (bound_text_short oldest b Ho Hb) as (t & -> & Ht). unfold append_to. rewrite (proj2 (Z.ltb_ge _ _)) by lia.
  destruct (IH (buf +:+ t)) as (buf' & -> & H); [rewrite len_app; lia|]. rewrite len_app in H. eexists. split; [done|lia].
Qed.
Lemma hex_len upper bs : len (hex upper bs) = 2 * Z.of_nat (length bs).
Proof. unfold len. induction bs as [|b bs IH]; [done|]. cbn [hex String.length length]. lia. Qed.
Lemma quoted_len s : len (quoted s) = 2 + len s.
Proof. unfold quoted. change (String "034" (s +:+ String "034" "")) with (String "034" "" +:+ (s +:+ String "034" "")). rewrite !len_app. literal_lengths. lia. Qed.
Lemma request_text_len c r t : len (request_text c r t) =
  148 + (len (pretty (webport c)) + len (list_tcm c) + 2 * Z.of_nat (length (reqid r)) + len (pretty (reqseq r)) + len (pretty (scale r)) + len t).
Proof. unfold request_text, xml_declaration. rewrite !len_app, !quoted_len, hex_len. literal_lengths. lia. Qed.

(** The buffers of a request hold sixteen bounds and not twenty-two. A request of at
    most 16 bounds in the ranges of the standard is sent to the cloud; with 22 bounds or
    more the text of the bounds does not fit into its buffer, which has no defined
    behaviour. *)
Theorem request_buffers now r s :
  (22 <= length (bounds r) -> HandleCARMARequest now r s = None)%nat /\
  ((1 <= length (reqid r) <= 8)%nat -> (length (bounds r) <= 16)%nat -> Forall bounds_ok (bounds r) ->
   0 <= webport (config s) < 2 ^ 16 -> len (list_tcm (config s)) <= 4000 -> 0 <= reqseq r < 256 -> 0 <= scale r < 256 ->
   exists t, HandleCARMARequest now r s = Some [CloudSend (request_text (config s) r t) (carma_cloud_url (config s)) base_req "POST"] /\
     bounds_text (Z.max (oldestInMins now (fetchtime (config s))) 0) (bounds r) "" = Some t).
Proof.
  unfold HandleCARMARequest. split.
  - intros Hn. case_if; [done|]. destruct (bounds_text _ _ _) as [t|] eqn:Ht; [|done].
    apply bounds_text_long in Ht as [H1 [H2|H2]]; [by rewrite H2 in Hn; cbn in Hn; lia|].
    change (len "") with 0 in H1. unfold bounds_size in H2. lia.
  - intros Hid Hn Hb Hw Hl Hs Hsc. rewrite (proj2 (Z.eqb_neq _ _)) by lia.
    assert (0 <= Z.max (oldestInMins now (fetchtime (config s))) 0 < 2 ^ 31) as Ho.
    { split; [lia|]. apply Z.max_lub_lt; [|lia]. unfold oldestInMins, wraps.
      pose proof (Z.mod_pos_bound (u32 (now `div` 60 - fetchtime (config s) * 24 * 60) + 2 ^ (32 - 1)) (2 ^ 32) ltac:(lia)). lia. }
    destruct (bounds_text_short _ _ Ho Hb "") as (t & -> & Ht); [change (len "") with 0; unfold bounds_size; lia|].
    change (len "") with 0 in Ht. exists t. split; [|done]. unfold append_to. rewrite request_text_len.
    pose proof (len_pretty (webport (config s)) 5 ltac:(lia) ltac:(lia)). pose proof (len_pretty (reqseq r) 3 ltac:(lia) ltac:(lia)).
    pose proof (len_pretty (scale r) 3 ltac:(lia) ltac:(lia)). change (len "") with 0. unfold xml_size.
    rewrite (proj2 (Z.ltb_ge (webport _) 0)), (proj2 (Z.ltb_ge (reqseq r) 0)), (proj2 (Z.ltb_ge (scale r) 0)) in * by lia.
    rewrite (proj2 (Z.ltb_ge _ _)) by lia. done.
Qed.

(** ** Acknowledgements *)
(** The parameters as a vehicle writes them. *)
Fixpoint params_text (kvs : list (string * string)) : string :=
  match kvs with
  | [] => ""
  | [(k, v)] => k +:+ ":" +:+ v
  | (k, v) :: kvs => (k +:+ ":" +:+ v) +:+ "," +:+ params_text kvs
  end.
Definition free (c : ascii) (s : string) : Prop := all_chars (fun x => negb (Ascii.eqb x c)) s = true.
Definition clean (s : string) : Prop := free "," s /\ free ":" s /\ free zero s.
Lemma free_app c s t : free c s -> free c t -> free c (s +:+ t).
Proof. unfold free. intros Hs Ht. by rewrite all_chars_app, Hs, Ht. Qed.
Lemma pair_text k v : clean k -> clean v -> ConvertString2Pair (to_lower (k +:+ ":" +:+ v)) = (to_lower k, to_lower v +:+ " ").
Proof.
  intros (_ & Hk & _) (_ & Hv & _). rewrite !to_lower_app. change (to_lower ":") with ":".
  change (":" +:+ to_lower v) with (String ":" (to_lower v)). unfold ConvertString2Pair.
  assert (forall s, free ":" s -> free ":" (to_lower s)) as Hlow.
  { intros s. apply to_lower_free; [done|]. by intros [[] [] [] [] [] [] [] []]. }
  rewrite split_on_separator, split_on_last by (apply Hlow; done). cbn [foldr]. by rewrite to_lower_idem.
Qed.
Lemma vector_text kvs : kvs <> [] -> Forall (fun kv => clean kv.1 /\ clean kv.2) kvs ->
  ConvertString2Vector (params_text kvs) = map (fun kv => to_lower (kv.1 +:+ ":" +:+ kv.2)) kvs.
Proof.
  intros Hne. unfold ConvertString2Vector. induction kvs as [|[k v] kvs IH]; [done|]. intros [[Hk Hv] Hkvs]%Forall_cons.
  assert (free "," (k +:+ ":" +:+ v)) as Hf by (apply free_app; [apply Hk|apply free_app; [done|apply Hv]]).
  destruct kvs as [|kv kvs].
  - cbn [params_text map fst snd]. by rewrite split_on_last.
  - change (params_text ((k, v) :: kv :: kvs)) with ((k +:+ ":" +:+ v) +:+ String "," (params_text (kv :: kvs))).
    rewrite split_on_separator by done. cbn [map fst snd] in *. f_equal. by apply IH.
Qed.
Definition lookup_param (key : string) (kvs : list (string * string)) : string :=
  match List.find (fun kv => contains key (to_lower kv.1)) kvs with Some kv => to_lower kv.2 +:+ " " | None => "" end.
Lemma value_text key kvs : Forall (fun kv => clean kv.1 /\ clean kv.2) kvs ->
  GetValueFromStrategyParamsByKey (map (fun kv => to_lower (kv.1 +:+ ":" +:+ kv.2)) kvs) key = lookup_param key kvs.
Proof.
  unfold lookup_param. induction 1 as [|[k v] kvs [Hk Hv] Hkvs IH]; [done|]. cbn [map fst snd GetValueFromStrategyParamsByKey List.find].
  rewrite pair_text by done. by destruct (contains key (to_lower k)).
Qed.
Definition ack_params (id : string) (msgnum ack : Z) (reason : string) : list (string * string) :=
  [("traffic_control_id", id); ("msgnum", pretty msgnum); ("acknowledgement", pretty ack); ("reason", reason)].
Definition hex_char (c : ascii) : bool := is_digit c || let n := N_of_ascii c in ((97 <=? n) && (n <=? 102))%N.
Lemma hex_char_free c s : hex_char c = false -> all_chars hex_char s = true -> free c s.
Proof.
  intros Hc. apply all_chars_impl. intros a Ha. apply negb_true_iff, Ascii.eqb_neq. congruence.
Qed.
Lemma to_lower_hex s : all_chars hex_char s = true -> to_lower s = s.
Proof.
  induction s as [|c s IH]; [done|]. cbn [all_chars to_lower]. intros [Hc Hs]%andb_true_iff. rewrite IH by done. f_equal.
  revert Hc. by destruct c as [[] [] [] [] [] [] [] []].
Qed.
Lemma number_clean (x : Z) : clean (pretty x).
Proof. unfold clean. split_all; by apply pretty_free. Qed.
Lemma free_c_str_params kvs : Forall (fun kv => clean kv.1 /\ clean kv.2) kvs -> c_str (params_text kvs) = params_text kvs.
Proof.
  intros H. apply c_str_free. change (free zero (params_text kvs)).
  induction H as [|[k v] kvs [(_ & _ & Hk) (_ & _ & Hv)] Hkvs IH]; [done|]. cbn [fst snd] in *.
  assert (free zero (k +:+ ":" +:+ v)) by (apply free_app; [done|by apply free_app]).
  destruct kvs; [done|]. cbn [params_text] in *. apply free_app; [done|]. by apply free_app.
Qed.
Lemma to_lower_number (x : Z) : 0 <= x -> to_lower (pretty x) = pretty x.
Proof.
  intros Hx. destruct (pretty_digits x Hx) as [Hd _]. apply to_lower_hex. eapply all_chars_impl; [|exact Hd].
  intros c Hc. unfold hex_char. by rewrite Hc.
Qed.
(** What the plugin reads from the parameters. *)
Lemma parse_ack_params id msgnum ack reason :
  all_chars hex_char id = true -> id <> "" -> clean reason -> 0 <= msgnum -> 0 <= ack ->
  parse_params (params_text (ack_params id msgnum ack reason))
  = mkAck (to_lower reason +:+ " ") (pretty ack +:+ " ") id (pretty msgnum +:+ " ").
Proof.
  intros Hid Hne Hr Hm Ha.
  assert (Forall (fun kv => clean kv.1 /\ clean kv.2) (ack_params id msgnum ack reason)) as Hc.
  { repeat (apply Forall_cons; split; [split; [unfold clean; by split_all|]|]); [|apply number_clean..|done|constructor].
    unfold clean. split_all; by apply hex_char_free. }
  unfold parse_params. rewrite free_c_str_params, vector_text, !value_text by done.
  unfold lookup_param, ack_params. cbn [List.find fst snd].
  change (to_lower "traffic_control_id") with "traffic_control_id". change (to_lower "msgnum") with "msgnum".
  change (to_lower "acknowledgement") with "acknowledgement". change (to_lower "reason") with "reason".
  change (contains "reason" "traffic_control_id") with false. change (contains "reason" "msgnum") with false.
  change (contains "reason" "acknowledgement") with false. change (contains "reason" "reason") with true.
  change (contains "acknowledgement" "traffic_control_id") with false. change (contains "acknowledgement" "msgnum") with false.
  change (contains "acknowledgement" "acknowledgement") with true. change (contains "traffic_control_id" "traffic_control_id") with true.
  change (contains "msgnum" "traffic_control_id") with false. change (contains "msgnum" "msgnum") with true. cbn [snd].
  assert (all_chars (fun x => negb (is_space x)) id = true) as Hsp.
  { eapply all_chars_impl; [|exact Hid]. by intros [[] [] [] [] [] [] [] []]. }
  rewrite (to_lower_hex id) by done. rewrite !to_lower_number by done. rewrite (trim_space id) by done. by rewrite (to_lower_hex id).
Qed.

Section acknowledge.
Context `{TC : TcmCodec}.
Implicit Types s : CARMACloudPlugin.
Definition acknowledged (id : string) (msgnum : Z) (x : string * tsm5EncodedMessage) : bool :=
  String.eqb x.1 id && match decode_j2735_message x.2 with Decoded n => n =? msgnum | _ => false end.
Fixpoint remove_first {A} (P : A -> bool) (l : list A) : list A :=
  match l with [] => [] | x :: l => if P x then l else x :: remove_first P l end.
Definition decodable (id : string) (m : list (string * tsm5EncodedMessage)) : Prop :=
  Forall (fun x => x.1 = id -> exists n, decode_j2735_message x.2 = Decoded n) m.
Lemma remove_acknowledged_first id msgnum v m : decodable id m -> stol msgnum = inr v ->
  remove_acknowledged id msgnum m = Some (existsb (acknowledged id v) m, remove_first (acknowledged id v) m).
Proof.
  intros Hm Hv. induction Hm as [|[k tcm] m Hx Hm IH]; [done|]. cbn [remove_acknowledged existsb remove_first]. rewrite IH, keqb_eqb.
  change (acknowledged id v (k, tcm)) with (String.eqb k id && match decode_j2735_message tcm with Decoded n => n =? v | _ => false end).
  cbn [fst snd] in *. destruct (String.eqb_spec k id) as [Hk|]; [|done]. destruct (Hx Hk) as [n ->]. rewrite Hv.
  cbn [andb]. by destruct (n =? v).
Qed.

(** C25: an acknowledgement counts for one TCM. The parameters of a vehicle are read back:
    the first TCM with the id and the number is withdrawn and no other; in any case one
    event is broadcast, and the cloud is told of an acknowledgement that is not
    positive. *)
Theorem acknowledgement_end_to_end strategy id msgnum ack reason host s :
  is_acknowledgement strategy s = true -> all_chars hex_char id = true -> id <> "" -> clean reason ->
  0 <= msgnum < 2 ^ 63 -> 0 <= ack < 2 ^ 31 -> decodable id (not_ACK_TCMs s) ->
  let '(ok, s', out) := HandleMobilityOperationMessage strategy (params_text (ack_params id msgnum ack reason)) host s in
  ok = true /\ s' = set_not_ACK (remove_first (acknowledged id msgnum) (not_ACK_TCMs s)) s /\
  exists text, out = BroadcastEventLog (if ack =? acknowledgement_status__acknowledged then IvpLogLevel_info else IvpLogLevel_warn) text ::
    (if ack =? acknowledgement_status__acknowledged then []
     else [CloudSend (nack_text id (pretty msgnum +:+ " ") (c_str host) acknowledgement_status__rejected (to_lower reason +:+ " "))
             (carma_cloud_url (config s)) base_ack "POST"]).
Proof.
  intros Hs Hid Hne Hr Hm Ha Hd. unfold HandleMobilityOperationMessage. rewrite Hs, parse_ack_params by (done || lia).
  cbn [ack_id ack_msgnum ack_value ack_reason].
  assert (stol (pretty msgnum +:+ " ") = inr msgnum) as Hmsg by (apply stox_pretty; [lia|exact Hm|done]).
  rewrite (remove_acknowledged_first id _ msgnum) by done.
  assert (stoi (pretty ack +:+ " ") = inr ack) as -> by (apply stox_pretty; [lia|exact Ha|done]).
  split; [done|]. split; [done|]. by eexists.
Qed.
(** A number that cannot be read loses the acknowledgement of a TCM that has been
    withdrawn already: no event, nothing to the cloud. *)
Lemma unreadable_acknowledgement strategy params host s e r m :
  is_acknowledgement strategy s = true -> let a := parse_params params in
  remove_acknowledged (ack_id a) (ack_msgnum a) (not_ACK_TCMs s) = Some (r, m) -> stoi (ack_value a) = inl e ->
  HandleMobilityOperationMessage strategy params host s = (false, set_not_ACK m s, []).
Proof. intros Hs a Hr He. unfold HandleMobilityOperationMessage. fold a. by rewrite Hs, Hr, He. Qed.
End acknowledge.

(** ** Compressed responses *)
Section compressed.
Context `{IN : Inflate} `{XT : XmlTree}.
(** The streams that are reached before the end. *)
Inductive reaches : z_stream -> z_stream -> Prop :=
  | reaches_refl z : reaches z z
  | reaches_step z r o z' z'' : inflate z = (r, o, z') -> r <> Z_STREAM_END -> reaches z' z'' -> reaches z z''.
(** A stream on which [inflate] makes no progress: the input has ended, or is not valid. *)
Definition stuck (z : z_stream) : Prop := exists r, inflate z = (r, EmptyString, z) /\ r <> Z_STREAM_END.
Lemma inflate_stuck z z' : reaches z z' -> stuck z' -> forall fuel out, inflate_loop fuel z out = None.
Proof.
  induction 1 as [z|z r o z' z'' Hz Hr _ IH]; intros Hst fuel out.
  - destruct Hst as (r & Hz & Hr). revert out. induction fuel as [|fuel IH]; intros out; [done|].
    cbn [inflate_loop]. rewrite Hz, (proj2 (Z.eqb_neq _ _)) by done. apply IH.
  - destruct fuel as [|fuel]; [done|]. cbn [inflate_loop]. rewrite Hz, (proj2 (Z.eqb_neq _ _)) by done. by apply IH.
Qed.
(** A response that is cut off is uncompressed for ever. *)
Lemma truncated_response_hangs st z z' fuel : st <> "" ->
  inflateInit2 st = Some z -> reaches z z' -> stuck z' -> response_tcms fuel true st = None.
Proof.
  intros Hst Hi Hr Hs. unfold response_tcms, UncompressBytes. rewrite Hi, (inflate_stuck z z') by done.
  rewrite (proj2 (Z.eqb_neq _ _)); [done|]. unfold len. destruct st; [done|cbn; lia].
Qed.
End compressed.

(** ** Witnesses *)
Definition sample_codec : TcmCodec := {|
  decode_j2735_message e := Decoded (len (payload e));
  encode_j2735_message x := Some (mkTcm x "asn.1-uper/hexstring", [0xab]) |}.
Definition sample_inflate : Inflate := {| z_stream := unit; inflateInit2 _ := Some tt; inflate _ := (1, "", tt) |}.
Definition sample_xml : XmlTree := {|
  ptree := string; read_xml x := Some x; get_child_optional _ _ := None; put_child _ x := x; write_xml x := x |}.
Definition sample_config : Config :=
  mkConfig "carma3/geofence_acknowledgement" 1000 "No response" 2 "true" "https://cloud" 22222 15.
Definition sample_tcm : tsm5EncodedMessage := mkTcm "00F5" "asn.1-uper/hexstring".
Definition sample_plugin : CARMACloudPlugin := mkPlugin sample_config [("ab", sample_tcm)] [] [] Sleeping.
(** The acknowledgement of another message of the same id and a change of the
    configuration come between. *)
Definition sample_ticks : list event :=
  let t k := Tick false (fun i => 100 * k + Z.of_nat i `mod` 2) in
  [t 1; t 2; MobilityOperation "carma3/geofence_acknowledgement" (params_text (ack_params "ab" 5 1 "ok")) "car"; t 3;
   Configure (mkConfig "" 1000 "" 2 "false" "" 1 1); t 4; t 5; t 6].
Lemma rebroadcast_schedule_witness :
  let '(s', out) := @run sample_codec sample_inflate sample_xml sample_ticks sample_plugin in
  holders sample_tcm (not_ACK_TCMs s') = [("ab", sample_tcm)] /\ broadcasts sample_tcm out = Z.min (ticks sample_ticks `div` 2) 2.
Proof.
  apply (@rebroadcast_schedule sample_codec sample_inflate sample_xml "ab" sample_tcm 100 sample_ticks sample_plugin); try reflexivity.
  - discriminate.
  - unfold sample_ticks. repeat (apply Forall_cons; split;
    [first [split; [reflexivity|intros i; unfold in_time; cbn [sample_plugin config sample_config TCMRepeatedlyBroadcastTimeOut];
              pose proof (Z.mod_pos_bound (Z.of_nat i) 2 ltac:(lia)); lia]
           |split; reflexivity
           |intros [_ (n & Hn & Hm)]; vm_compute in Hn; injection Hn as <-; vm_compute in Hm; discriminate]|]). constructor.
Defined.
Definition stale_plugin : CARMACloudPlugin := mkPlugin sample_config [("ab", mkTcm "1" "")] [("ab", 0)] [] Sleeping.
Lemma stale_start_expires_witness :
  let es := [MobilityOperation "carma3/geofence_acknowledgement"
      (params_text (ack_params "ab" 1 1 "ok")) "car"; Response 0 false "00F5"; Tick false (fun _ => 2000)] in
  let '(s1, _) := @run sample_codec sample_inflate sample_xml es stale_plugin in
  let '(s2, out) := @step sample_codec sample_inflate sample_xml (Tick false (fun _ => 2100)) s1 in
  ("ab", mkTcm "00F5" "asn.1-uper/hexstring") ∈ not_ACK_TCMs s1 /\ gone "ab" s2 /\ nack_expired "ab" sample_config ∈ out /\
  others_only "ab" (not_ACK_TCMs s1) out.
Proof.
  apply (@stale_start_expires sample_codec sample_inflate sample_xml "ab" 0 "carma3/geofence_acknowledgement"
    (params_text (ack_params "ab" 1 1 "ok")) "car" 0 false "00F5" "00F5" (mkTcm "00F5" "asn.1-uper/hexstring") [0xab]
    (fun _ => 2000) (fun _ => 2100) stale_plugin); try reflexivity; [repeat constructor|discriminate].
Defined.
Lemma acknowledgement_end_to_end_witness :
  let '(ok, s', out) := @HandleMobilityOperationMessage sample_codec "carma3/geofence_acknowledgement"
    (params_text (ack_params "ab" 4 2 "full")) "car" sample_plugin in
  ok = true /\ s' = set_not_ACK (remove_first (@acknowledged sample_codec "ab" 4) (not_ACK_TCMs sample_plugin)) sample_plugin /\
  exists text, out = BroadcastEventLog (if 2 =? acknowledgement_status__acknowledged then IvpLogLevel_info else IvpLogLevel_warn) text ::
    (if 2 =? acknowledgement_status__acknowledged then []
     else [CloudSend (nack_text "ab" (pretty 4 +:+ " ") (c_str "car") acknowledgement_status__rejected (to_lower "full" +:+ " "))
             (carma_cloud_url (config sample_plugin)) base_ack "POST"]).
Proof.
  apply (@acknowledgement_end_to_end sample_codec "carma3/geofence_acknowledgement" "ab" 4 2 "full" "car" sample_plugin);
    try reflexivity; try lia; try discriminate.
  - split; [reflexivity|]. split; reflexivity.
  - apply Forall_cons. split; [|constructor]. intros _. eexists. reflexivity.
Defined.
Definition sample_bounds : Bounds := mkBounds 389549844 (-771493042) [(0, 0); (4140, 0); (4140, 6840)].
Lemma request_buffers_witness :
  HandleCARMARequest 1700000000 (mkRequest [1] 2 3 (replicate 22 sample_bounds)) sample_plugin = None /\
  exists t, HandleCARMARequest 1700000000 (mkRequest [1] 2 3 [sample_bounds]) sample_plugin
    = Some [CloudSend (request_text sample_config (mkRequest [1] 2 3 [sample_bounds]) t) "https://cloud" base_req "POST"].
Proof.
  split.
  - apply (proj1 (request_buffers 1700000000 (mkRequest [1] 2 3 (replicate 22 sample_bounds)) sample_plugin)). cbn. lia.
  - destruct (proj2 (request_buffers 1700000000 (mkRequest [1] 2 3 [sample_bounds]) sample_plugin)) as (t & H & _);
      [cbn; lia|cbn; lia| |cbn; lia|apply Z.leb_le; vm_compute; reflexivity|cbn; lia|cbn; lia|exists t; exact H].
    apply Forall_cons. split; [|constructor]. unfold bounds_ok, delta_ok. cbn [reflon reflat offsets sample_bounds].
    split; [lia|]. split; [lia|]. eexists _, _, _. split; [reflexivity|]. repeat (apply Forall_cons; split; [cbn; lia|]). constructor.
Defined.
End Cloud.
