(* ===== verification/Hex64.v ===== *)
(** The conversion between hexadecimal and base 64 text of the library of a plugin
    ([TmxApi/tmx/Security/include/base64.cpp]), which the forwarding plugin uses to
    exchange messages with a signing service. Texts are lists of character codes. *)
From Stdlib Require Import Ascii.
From S2P Require Import Prelude Utilities.
Open Scope Z_scope.

Module Hex64.
Import Base64.
Abbreviation text := (list Z).
Definition toupper (c : Z) : Z := if (97 <=? c) && (c <=? 122) then c - 32 else c.
Definition hex2bin (c : Z) : text :=
  let c := toupper c in
  if c =? 48 then codes "0000" else if c =? 49 then codes "0001" else if c =? 50 then codes "0010"
  else if c =? 51 then codes "0011" else if c =? 52 then codes "0100" else if c =? 53 then codes "0101"
  else if c =? 54 then codes "0110" else if c =? 55 then codes "0111" else if c =? 56 then codes "1000"
  else if c =? 57 then codes "1001" else if c =? 65 then codes "1010" else if c =? 66 then codes "1011"
  else if c =? 67 then codes "1100" else if c =? 68 then codes "1101" else if c =? 69 then codes "1110"
  else codes "1111".
(** [strtol] with base 2 on a text of zeros and ones. *)
Fixpoint strtol2 (acc : Z) (b : text) : Z :=
  match b with
  | c :: b => if (c =? 48) || (c =? 49) then strtol2 (acc * 2 + (c - 48)) b else acc
  | [] => acc
  end.
Definition bin2hex (b : text) : Z :=
  let dec := strtol2 0 b in
  if (0 <=? dec) && (dec <=? 9) then dec + 48 else dec + 65 - 10.
Definition bin2base64 (s : text) : Z :=
  let dec := strtol2 0 s in
  if (0 <=? dec) && (dec <=? 25) then 65 + dec
  else if (26 <=? dec) && (dec <=? 51) then 97 + dec - 26
  else if (52 <=? dec) && (dec <=? 61) then 48 + dec - 52
  else if dec =? 62 then 43
  else 47.
(** The digits are written from the end of six zeros; no number has more. *)
Fixpoint dec2bin_loop (fuel : nat) (a : Z) (i : nat) (out : text) : text :=
  match fuel with
  | O => out
  | S fuel => if a =? 0 then out else dec2bin_loop fuel (a `div` 2) (S i) (<[(length out - 1 - i)%nat := 48 + a `mod` 2]> out)
  end.
Definition dec2bin (a : Z) : text := dec2bin_loop 6 a 0 (codes "000000").
Definition base642bin (b64 : Z) : text :=
  if (65 <=? b64) && (b64 <=? 90) then dec2bin (b64 - 65)
  else if (97 <=? b64) && (b64 <=? 122) then dec2bin (b64 - 97 + 26)
  else if (48 <=? b64) && (b64 <=? 57) then dec2bin (b64 - 48 + 52)
  else if b64 =? 43 then dec2bin 62
  else dec2bin 63.
(** [for (j = 0; j < 6 - s.length(); j++) s += "0"]: the length grows with [j]. *)
Fixpoint pad_loop (fuel : nat) (j : nat) (s : text) : text :=
  match fuel with
  | O => s
  | S fuel => if (j <? 6 - length s)%nat then pad_loop fuel (S j) (s ++ [48]) else s
  end.
Fixpoint chunks (fuel : nat) (hexbin : text) : text :=
  match fuel with
  | O => []
  | S fuel =>
      match hexbin with
      | [] => []
      | _ =>
          let s := take 6 hexbin in
          let s := if (length s <? 6)%nat then pad_loop 6 0 s else s in
          bin2base64 s :: chunks fuel (drop 6 hexbin)
      end
  end.
Definition hex2base64 (hexstr : text) : text :=
  let hexbin := hexstr ≫= hex2bin in
  let padcount := Z.quot (24 - Z.of_nat (length hexbin) `mod` 24) 6 in
  chunks (length hexbin) hexbin ++ replicate (Z.to_nat padcount) 61.
Fixpoint nibbles (fuel : nat) (binstr : text) : text :=
  match fuel with
  | O => []
  | S fuel => match binstr with [] => [] | _ => bin2hex (take 4 binstr) :: nibbles fuel (drop 4 binstr) end
  end.
(** The number of characters from the first [=] on. *)
Fixpoint padding (base64str : text) : nat :=
  match base64str with [] => O | c :: cs => if c =? 61 then length base64str else padding cs end.
(** The length of what is kept is unsigned: below zero, everything is kept. *)
Definition base642hex (base64str : text) : text :=
  let binstr := base64str ≫= (fun c => if c =? 61 then [] else base642bin c) in
  let keep := (if (length binstr <? padding base64str * 2)%nat then length binstr else length binstr - padding base64str * 2)%nat in
  nibbles (length binstr) (take keep binstr).

(** * Reference: hexadecimal digits of bytes *)
Definition digit (v : Z) : Z := if v <? 10 then 48 + v else 55 + v.
Definition hex (bytes : list Z) : text := bytes ≫= (fun b => [digit (b `div` 16); digit (b `mod` 16)]).
Definition lower_digit (v : Z) : Z := if v <? 10 then 48 + v else 87 + v.
Definition hex_lower (bytes : list Z) : text := bytes ≫= (fun b => [lower_digit (b `div` 16); lower_digit (b `mod` 16)]).


(** * Bits *)
Fixpoint bits (n : nat) (v : Z) : text :=
  match n with O => [] | S n => 48 + (v / 2 ^ Z.of_nat n) mod 2 :: bits n v end.
Lemma length_bits n v : length (bits n v) = n.
Proof. induction n; cbn; congruence. Qed.
Lemma bits_app n m v : bits (n + m) v = bits n (v / 2 ^ Z.of_nat m) ++ bits m v.
Proof.
  induction n as [|n IH]; [done|]. cbn [Nat.add bits app]. f_equal; [|done]. do 2 f_equal.
  rewrite Z.div_div by lia. f_equal. rewrite <-Z.pow_add_r by lia. f_equal. lia.
Qed.
Lemma bits_mod n m v : (n <= m)%nat -> bits n (v mod 2 ^ Z.of_nat m) = bits n v.
Proof.
  intros Hm. induction n as [|n IH]; [done|]. cbn [bits]. rewrite IH by lia. f_equal. f_equal.
  rewrite <-!Z.testbit_spec' by lia. f_equal. apply Z.mod_pow2_bits_low. lia.
Qed.
Lemma strtol2_bits n v acc rest : strtol2 acc (bits n v ++ rest) = strtol2 (acc * 2 ^ Z.of_nat n + v mod 2 ^ Z.of_nat n) rest.
Proof.
  revert acc. induction n as [|n IH]; intros acc; cbn [bits app].
  { f_equal. change (2 ^ Z.of_nat 0) with 1. rewrite Z.mod_1_r. lia. }
  cbn [strtol2]. pose proof (Z.mod_pos_bound (v / 2 ^ Z.of_nat n) 2 ltac:(lia)).
  assert ((48 + (v / 2 ^ Z.of_nat n) mod 2 =? 48) || (48 + (v / 2 ^ Z.of_nat n) mod 2 =? 49) = true) as ->.
  { rewrite orb_true_iff, !Z.eqb_eq. lia. }
  rewrite IH. f_equal. rewrite Nat2Z.inj_succ, Z.pow_succ_r by lia.
  rewrite (Z.mul_comm 2 (2 ^ _)), Z.rem_mul_r by lia. lia.
Qed.
Lemma hex2bin_digit v : 0 <= v < 16 -> hex2bin (digit v) = bits 4 v /\ hex2bin (lower_digit v) = bits 4 v.
Proof.
  intros Hv. assert (forall f g : Z -> text, forallb (fun i => bool_decide (f (Z.of_nat i) = g (Z.of_nat i))) (seq 0 16) = true -> f v = g v) as H.
  { intros f g H. rewrite forallb_forall in H. specialize (H (Z.to_nat v)). rewrite Z2Nat.id in H by lia.
    apply bool_decide_eq_true in H; [done|]. apply in_seq. lia. }
  split; [apply (H (fun v => hex2bin (digit v)) (bits 4))|apply (H (fun v => hex2bin (lower_digit v)) (bits 4))]; vm_compute; reflexivity.
Qed.
Lemma hexbin_byte b : is_byte b -> [digit (b / 16); digit (b mod 16)] ≫= hex2bin = bits 8 b.
Proof.
  intros Hb. unfold is_byte in Hb. cbn [mbind list_bind]. rewrite app_nil_r.
  rewrite (proj1 (hex2bin_digit (b / 16) ltac:(Z.div_mod_to_equations; lia))), (proj1 (hex2bin_digit (b mod 16) ltac:(Z.div_mod_to_equations; lia))).
  change 8%nat with (4 + 4)%nat. rewrite bits_app. change (2 ^ Z.of_nat 4) with 16. f_equal.
  change 16 with (2 ^ Z.of_nat 4). by rewrite bits_mod.
Qed.
Lemma hexbin_bytes bytes : Forall is_byte bytes -> hex bytes ≫= hex2bin = bytes ≫= bits 8.
Proof.
  induction 1 as [|b bytes Hb Hbs IH]; [done|]. unfold hex in *. cbn [mbind list_bind]. rewrite bind_app.
  change ([digit (b / 16); digit (b mod 16)] ≫= hex2bin) with (mbind hex2bin [digit (b / 16); digit (b mod 16)]).
  rewrite hexbin_byte by done. by rewrite IH.
Qed.

(** * Sextets *)
Lemma bin2base64_bits v : bin2base64 (bits 6 v) = char_at (v mod 64).
Proof.
  rewrite <-(bits_mod 6 6 v) by lia. change (2 ^ Z.of_nat 6) with 64. pose proof (Z.mod_pos_bound v 64 ltac:(lia)) as H.
  revert H. generalize (v mod 64). intros w Hw. pattern w. match goal with |- (fun x => @?f x = @?g x) w => apply (by_enumeration 64 f g) end; [vm_compute; reflexivity|lia].
Qed.
Lemma base642bin_char v : 0 <= v < 64 -> base642bin (char_at v) = bits 6 v /\ char_at v =? 61 = false.
Proof.
  intros Hv. assert (forallb (fun i => bool_decide (base642bin (char_at (Z.of_nat i)) = bits 6 (Z.of_nat i)) && negb (char_at (Z.of_nat i) =? 61)) (seq 0 64) = true) as H by (vm_compute; reflexivity).
  rewrite forallb_forall in H. specialize (H (Z.to_nat v)). rewrite Z2Nat.id in H by lia.
  destruct (andb_prop _ _ (H ltac:(apply in_seq; lia))) as [H1 H2]. apply bool_decide_eq_true in H1. by apply negb_true_iff in H2.
Qed.
Lemma bits_byte_app b m v : is_byte b -> bits (8 + m) (b * 2 ^ Z.of_nat m + v mod 2 ^ Z.of_nat m) = bits 8 b ++ bits m v.
Proof.
  intros Hb. rewrite bits_app. f_equal.
  - f_equal. rewrite Z.div_add_l by lia. rewrite Z.div_small; [lia|]. apply Z.mod_pos_bound. lia.
  - rewrite <-(bits_mod m m), Z.add_comm, Z.mod_add, Z.mod_mod, bits_mod by lia. done.
Qed.

Lemma list_ind3 (P : list Z -> Prop) :
  P [] -> (forall a, P [a]) -> (forall a b, P [a; b]) -> (forall a b c l, P l -> P (a :: b :: c :: l)) -> forall l, P l.
Proof.
  intros H0 H1 H2 H3 l. cut (P l /\ (forall a, P (a :: l)) /\ (forall a b, P (a :: b :: l))); [tauto|].
  induction l as [|x l (IH0 & IH1 & IH2)]; [done|]. auto.
Qed.
Lemma triple_bits a b c : is_byte a -> is_byte b -> is_byte c -> exists v0 v1 v2 v3, encode3 a b c = [v0; v1; v2; v3] /\
  (0 <= v0 < 64 /\ 0 <= v1 < 64 /\ 0 <= v2 < 64 /\ 0 <= v3 < 64) /\
  bits 8 a ++ bits 8 b ++ bits 8 c = bits 6 v0 ++ bits 6 v1 ++ bits 6 v2 ++ bits 6 v3.
Proof.
  intros Ha Hb Hc. rewrite encode3_arith by done. unfold is_byte in *. eexists _, _, _, _. split; [done|].
  split; [split_all; Z.div_mod_to_equations; lia|].
  set (w := a * 2 ^ 16 + b * 2 ^ 8 + c).
  assert (bits 8 a ++ bits 8 b ++ bits 8 c = bits (8 + (8 + 8)) w) as ->.
  { rewrite !bits_app. change (2 ^ Z.of_nat (8 + 8)) with (2 ^ 16). change (2 ^ Z.of_nat 8) with (2 ^ 8).
    rewrite <-(bits_mod 8 8 (w / 2 ^ 8)), <-(bits_mod 8 8 w) by lia. change (2 ^ Z.of_nat 8) with (2 ^ 8).
    replace (w / 2 ^ 16) with a by (unfold w; Z.div_mod_to_equations; lia).
    replace ((w / 2 ^ 8) mod 2 ^ 8) with b by (unfold w; Z.div_mod_to_equations; lia).
    by replace (w mod 2 ^ 8) with c by (unfold w; Z.div_mod_to_equations; lia). }
  change (8 + (8 + 8))%nat with (6 + (6 + (6 + 6)))%nat. rewrite !bits_app.
  change (2 ^ Z.of_nat (6 + (6 + 6))) with (2 ^ 18). change (2 ^ Z.of_nat (6 + 6)) with (2 ^ 12). change (2 ^ Z.of_nat 6) with (2 ^ 6).
  rewrite <-(bits_mod 6 6 (w / 2 ^ 12)), <-(bits_mod 6 6 (w / 2 ^ 6)), <-(bits_mod 6 6 w) by lia. change (2 ^ Z.of_nat 6) with (2 ^ 6).
  replace (w / 2 ^ 18) with (a / 4) by (unfold w; Z.div_mod_to_equations; lia).
  replace ((w / 2 ^ 12) mod 2 ^ 6) with (a mod 4 * 16 + b / 16) by (unfold w; Z.div_mod_to_equations; lia).
  replace ((w / 2 ^ 6) mod 2 ^ 6) with (b mod 16 * 4 + c / 64) by (unfold w; Z.div_mod_to_equations; lia).
  by replace (w mod 2 ^ 6) with (c mod 64) by (unfold w; Z.div_mod_to_equations; lia).
Qed.
Lemma pair_bits a b : is_byte a -> is_byte b -> bits 8 a ++ bits 8 b = bits 6 (a / 4) ++ bits 6 (a mod 4 * 16 + b / 16) ++ bits 4 b.
Proof.
  intros Ha Hb. unfold is_byte in *. set (w := a * 2 ^ 8 + b).
  assert (bits 8 a ++ bits 8 b = bits (8 + 8) w) as ->.
  { rewrite bits_app. change (2 ^ Z.of_nat 8) with (2 ^ 8). rewrite <-(bits_mod 8 8 w) by lia. change (2 ^ Z.of_nat 8) with (2 ^ 8).
    replace (w / 2 ^ 8) with a by (unfold w; Z.div_mod_to_equations; lia).
    by replace (w mod 2 ^ 8) with b by (unfold w; Z.div_mod_to_equations; lia). }
  change (8 + 8)%nat with (6 + (6 + 4))%nat. rewrite !bits_app. change (2 ^ Z.of_nat (6 + 4)) with (2 ^ 10). change (2 ^ Z.of_nat 4) with (2 ^ 4).
  rewrite <-(bits_mod 6 6 (w / 2 ^ 4)), <-(bits_mod 4 4 w) by lia. change (2 ^ Z.of_nat 6) with (2 ^ 6). change (2 ^ Z.of_nat 4) with (2 ^ 4).
  replace (w / 2 ^ 10) with (a / 4) by (unfold w; Z.div_mod_to_equations; lia).
  replace ((w / 2 ^ 4) mod 2 ^ 6) with (a mod 4 * 16 + b / 16) by (unfold w; Z.div_mod_to_equations; lia).
  replace (w mod 2 ^ 4) with (b mod 2 ^ 4) by (unfold w; Z.div_mod_to_equations; lia). change (2 ^ 4) with (2 ^ Z.of_nat 4). by rewrite bits_mod.
Qed.
Lemma single_bits a : bits 8 a = bits 6 (a / 4) ++ bits 2 a.
Proof. change 8%nat with (6 + 2)%nat. by rewrite bits_app. Qed.

(** * Encoding *)
Lemma bin2base64_value s v : strtol2 0 s = v -> 0 <= v < 64 -> bin2base64 s = char_at v.
Proof.
  intros Hs Hv. rewrite <-(Z.mod_small v 64), <-bin2base64_bits by done. unfold bin2base64. rewrite Hs.
  pose proof (strtol2_bits 6 v 0 []) as H. rewrite app_nil_r in H. cbn [strtol2] in H. change (2 ^ Z.of_nat 6) with 64 in H.
  by rewrite H, Z.mod_small.
Qed.
Lemma chunks_S fuel x : x <> [] ->
  chunks (S fuel) x = bin2base64 (if (length (take 6 x) <? 6)%nat then pad_loop 6 0 (take 6 x) else take 6 x) :: chunks fuel (drop 6 x).
Proof. by destruct x. Qed.
Lemma chunks_bits fuel v rest : 0 <= v < 64 -> chunks (S fuel) (bits 6 v ++ rest) = char_at v :: chunks fuel rest.
Proof.
  intros Hv. rewrite chunks_S by done. rewrite take_app_length', drop_app_length' by (symmetry; apply length_bits).
  rewrite length_bits. change (6 <? 6)%nat with false. cbn iota. by rewrite bin2base64_bits, Z.mod_small.
Qed.
(** What is left over is padded with half of the zeros it lacks. *)
Fixpoint encoded (bytes : list Z) : text :=
  match bytes with
  | a :: b :: c :: bytes => map char_at (encode3 a b c) ++ encoded bytes
  | [a; b] => [char_at (a / 4); char_at (a mod 4 * 16 + b / 16); char_at (b mod 16 * 2); 61]
  | [a] => [char_at (a / 4); char_at (a mod 4 * 4); 61; 61]
  | [] => [61; 61; 61; 61]
  end.
Lemma length_bit_bytes bytes : length (bytes ≫= bits 8) = (8 * length bytes)%nat.
Proof. induction bytes as [|b bytes IH]; [done|]. rewrite bind_cons, length_app, length_bits, IH. cbn [length]. lia. Qed.
Definition pads (n : nat) : nat := (match n `mod` 3 with 0 => 4 | 1 => 2 | _ => 1 end)%nat.
Lemma chunks_encoded bytes : Forall is_byte bytes -> forall fuel, (8 * length bytes <= fuel)%nat ->
  chunks fuel (bytes ≫= bits 8) ++ replicate (pads (length bytes)) 61 = encoded bytes.
Proof.
  induction bytes as [|a|a b|a b c bytes IH] using list_ind3; intros Hb fuel Hf.
  - by destruct fuel.
  - apply Forall_cons in Hb as [Ha _]. unfold is_byte in Ha. do 2 (destruct fuel as [|fuel]; [cbn in Hf; lia|]).
    rewrite bind_cons. change ([] ≫= bits 8) with (@nil Z). rewrite app_nil_r, single_bits, chunks_bits by (Z.div_mod_to_equations; lia).
    cbn [encoded app]. f_equal. assert (chunks (S fuel) (bits 2 a) = [char_at (a mod 4 * 4)]) as ->; [|done].
    cbn [chunks bits]. change (bin2base64 _ :: _) with (bin2base64 (bits 2 a ++ [48; 48]) :: chunks fuel []).
    rewrite (bin2base64_value _ (a mod 4 * 4)); [by destruct fuel| |Z.div_mod_to_equations; lia].
    rewrite strtol2_bits. cbn [strtol2]. change (2 ^ Z.of_nat 2) with 4. cbn. lia.
  - apply Forall_cons in Hb as [Ha Hb]. apply Forall_cons in Hb as [Hb _]. do 3 (destruct fuel as [|fuel]; [cbn in Hf; lia|]).
    rewrite !bind_cons. change ([] ≫= bits 8) with (@nil Z). rewrite app_nil_r, pair_bits by done. unfold is_byte in *. rewrite !chunks_bits by (Z.div_mod_to_equations; lia).
    cbn [encoded app]. do 2 f_equal. assert (chunks (S fuel) (bits 4 b) = [char_at (b mod 16 * 2)]) as ->; [|done].
    cbn [chunks bits]. change (bin2base64 _ :: _) with (bin2base64 (bits 4 b ++ [48]) :: chunks fuel []).
    rewrite (bin2base64_value _ (b mod 16 * 2)); [by destruct fuel| |Z.div_mod_to_equations; lia].
    rewrite strtol2_bits. cbn [strtol2]. change (2 ^ Z.of_nat 4) with 16. cbn. lia.
  - apply Forall_cons in Hb as [Ha Hb]. apply Forall_cons in Hb as [Hb Hc]. apply Forall_cons in Hc as [Hc Hbs].
    destruct (triple_bits a b c Ha Hb Hc) as (v0 & v1 & v2 & v3 & He & (H0 & H1 & H2 & H3) & Hw).
    do 4 (destruct fuel as [|fuel]; [cbn in Hf; lia|]). rewrite !bind_cons.
    rewrite (app_assoc (bits 8 b)), (app_assoc (bits 8 a)), Hw, <-!app_assoc, !chunks_bits by done.
    cbn [encoded]. rewrite He. cbn [map app]. do 4 f_equal. rewrite <-(IH Hbs fuel) by (cbn in Hf; lia). f_equal. f_equal.
    unfold pads. cbn [length]. replace (S (S (S (length bytes)))) with (length bytes + 1 * 3)%nat by lia. by rewrite Nat.Div0.mod_add.
Qed.
Lemma padcount_pads n : Z.to_nat (Z.quot (24 - Z.of_nat (8 * n) mod 24) 6) = pads n.
Proof.
  replace (Z.of_nat (8 * n) mod 24) with (8 * (Z.of_nat (n `mod` 3))).
  - unfold pads. pose proof (Nat.mod_upper_bound n 3 ltac:(lia)). destruct (n `mod` 3)%nat as [|[|[|k]]]; [done|done|done|lia].
  - rewrite Nat2Z.inj_mul, Nat2Z.inj_mod. change (Z.of_nat 8) with 8. change (Z.of_nat 3) with 3. change 24 with (8 * 3).
    by rewrite Z.mul_mod_distr_l.
Qed.
Lemma hex2base64_encoded bytes : Forall is_byte bytes -> hex2base64 (hex bytes) = encoded bytes.
Proof.
  intros Hb. unfold hex2base64. rewrite hexbin_bytes, length_bit_bytes, padcount_pads by done. by apply chunks_encoded.
Qed.

(** Base 64 as it is defined, in groups of three. *)
Lemma Encode_three a b c bytes : Encode (a :: b :: c :: bytes) = map char_at (encode3 a b c) ++ Encode bytes.
Proof. done. Qed.
Lemma char_at_inj v w : 0 <= v < 64 -> 0 <= w < 64 -> char_at v = char_at w -> v = w.
Proof. intros Hv Hw H. rewrite <-(find_char v), <-(find_char w) by done. by rewrite H. Qed.
(** The bytes after the last whole group of three. *)
Fixpoint rest (bytes : list Z) : list Z := match bytes with _ :: _ :: _ :: bytes => rest bytes | _ => bytes end.
Definition intact (bytes : list Z) : Prop := match rest bytes with [a] => a mod 4 = 0 | [a; b] => b mod 16 = 0 | _ => False end.

(** The conversion to base 64 is wrong. The text made of the hexadecimal digits of
    bytes is their base 64 text only if their number is not a multiple of three and the
    last bits, two or four of them, are zero. *)
Theorem hex2base64_wrong bytes : Forall is_byte bytes -> hex2base64 (hex bytes) = Encode bytes <-> intact bytes.
Proof.
  intros Hb. rewrite hex2base64_encoded by done. unfold intact. induction bytes as [|a|a b|a b c bytes IH] using list_ind3; [done|..].
  - apply Forall_cons in Hb as [Ha _]. change (Encode [a]) with (map char_at (take 2 (encode3 a 0 0)) ++ [equals_sign; equals_sign]).
    rewrite encode3_arith by (done || (unfold is_byte; lia)). unfold is_byte in Ha. cbn [encoded rest take map app].
    change (0 / 16) with 0. split.
    + intros H. injection H as H. apply char_at_inj in H; Z.div_mod_to_equations; lia.
    + intros H. repeat f_equal. lia.
  - apply Forall_cons in Hb as [Ha Hb]. apply Forall_cons in Hb as [Hb _].
    change (Encode [a; b]) with (map char_at (take 3 (encode3 a b 0)) ++ [equals_sign]).
    rewrite encode3_arith by (done || (unfold is_byte; lia)). unfold is_byte in *. cbn [encoded rest take map app].
    change (0 / 64) with 0. split.
    + intros H. injection H as H. apply char_at_inj in H; Z.div_mod_to_equations; lia.
    + intros H. repeat f_equal. lia.
  - apply Forall_cons in Hb as [Ha Hb]. apply Forall_cons in Hb as [Hb Hc]. apply Forall_cons in Hc as [Hc Hbs].
    rewrite Encode_three. cbn [encoded rest]. rewrite <-IH by done. split; [apply app_inv_head|by intros ->].
Qed.

(** * Decoding *)
Lemma bin2hex_bits v : bin2hex (bits 4 v) = digit (v mod 16).
Proof.
  unfold bin2hex. pose proof (strtol2_bits 4 v 0 []) as H. rewrite app_nil_r in H. cbn [strtol2] in H. rewrite H.
  change (2 ^ Z.of_nat 4) with 16. pose proof (Z.mod_pos_bound v 16 ltac:(lia)). unfold digit. cbn [Z.mul Z.add].
  destruct (Z.ltb_spec (v mod 16) 10).
  - rewrite (proj2 (Z.leb_le _ _)), (proj2 (Z.leb_le _ _)) by lia. cbn. lia.
  - rewrite (proj2 (Z.leb_le 0 _)), (proj2 (Z.leb_gt _ _)) by lia. cbn. lia.
Qed.
Lemma nibbles_S fuel x : x <> [] -> nibbles (S fuel) x = bin2hex (take 4 x) :: nibbles fuel (drop 4 x).
Proof. by destruct x. Qed.
Lemma nibbles_bits fuel v rest : nibbles (S fuel) (bits 4 v ++ rest) = digit (v mod 16) :: nibbles fuel rest.
Proof.
  rewrite nibbles_S by done. rewrite take_app_length', drop_app_length' by (symmetry; apply length_bits). by rewrite bin2hex_bits.
Qed.
Lemma nibbles_bytes bytes : Forall is_byte bytes -> forall fuel, (8 * length bytes <= fuel)%nat -> nibbles fuel (bytes ≫= bits 8) = hex bytes.
Proof.
  induction 1 as [|b bytes Hb Hbs IH]; intros fuel Hf; [by destruct fuel|]. cbn [length] in Hf.
  do 2 (destruct fuel as [|fuel]; [lia|]). unfold hex in *. rewrite !bind_cons. change 8%nat with (4 + 4)%nat. rewrite bits_app, <-app_assoc, !nibbles_bits.
  change (2 ^ Z.of_nat 4) with 16. change (4 + 4)%nat with 8%nat. rewrite IH by lia. cbn [app]. f_equal. f_equal. unfold is_byte in Hb. apply Z.mod_small. Z.div_mod_to_equations; lia.
Qed.
Definition sextet (c : Z) : text := if c =? 61 then [] else base642bin c.
Lemma sextet_char v : 0 <= v < 64 -> sextet (char_at v) = bits 6 v.
Proof. intros Hv. unfold sextet. by destruct (base642bin_char v Hv) as [-> ->]. Qed.
Lemma padding_char v cs : 0 <= v < 64 -> padding (char_at v :: cs) = padding cs.
Proof. intros Hv. cbn [padding]. by destruct (base642bin_char v Hv) as [_ ->]. Qed.
(** The bits of a base 64 text, and two zeros for every [=]. *)
Lemma Encode_bits bytes : Forall is_byte bytes -> exists z, length z = (padding (Encode bytes) * 2)%nat /\
  Encode bytes ≫= sextet = (bytes ≫= bits 8) ++ z.
Proof.
  induction bytes as [|a|a b|a b c bytes IH] using list_ind3; intros Hb; [by exists []|..].
  - apply Forall_cons in Hb as [Ha _]. change (Encode [a]) with (map char_at (take 2 (encode3 a 0 0)) ++ [equals_sign; equals_sign]).
    rewrite encode3_arith by (done || (unfold is_byte; lia)). unfold is_byte in Ha. cbn [take map app]. change (0 / 16) with 0.
    assert (0 <= a / 4 < 64 /\ 0 <= a mod 4 * 16 + 0 < 64) as [H0 H1] by (Z.div_mod_to_equations; lia).
    exists (bits 4 0). rewrite !padding_char by done. split; [done|]. rewrite !bind_cons, !sextet_char by done.
    change ([] ≫= bits 8) with (@nil Z). change ([] ≫= sextet) with (@nil Z). change (sextet equals_sign) with (@nil Z).
    rewrite !app_nil_r, single_bits, <-app_assoc. f_equal. change 6%nat with (2 + 4)%nat. rewrite bits_app. f_equal.
    + rewrite <-(bits_mod 2 2 a) by lia. f_equal. change (2 ^ Z.of_nat 4) with 16. change (2 ^ Z.of_nat 2) with 4. Z.div_mod_to_equations; lia.
    + rewrite <-(bits_mod 4 4) by lia. f_equal. change (2 ^ Z.of_nat 4) with 16. Z.div_mod_to_equations; lia.
  - apply Forall_cons in Hb as [Ha Hb]. apply Forall_cons in Hb as [Hb _].
    change (Encode [a; b]) with (map char_at (take 3 (encode3 a b 0)) ++ [equals_sign]).
    rewrite encode3_arith by (done || (unfold is_byte; lia)). pose proof (pair_bits a b Ha Hb) as Hp. unfold is_byte in *. cbn [take map app]. change (0 / 64) with 0.
    assert (0 <= a / 4 < 64 /\ 0 <= a mod 4 * 16 + b / 16 < 64 /\ 0 <= b mod 16 * 4 + 0 < 64) as (H0 & H1 & H2) by (Z.div_mod_to_equations; lia).
    exists (bits 2 0). rewrite !padding_char by done. split; [done|]. rewrite !bind_cons, !sextet_char by done.
    change ([] ≫= bits 8) with (@nil Z). change ([] ≫= sextet) with (@nil Z). change (sextet equals_sign) with (@nil Z).
    rewrite !app_nil_r, Hp, <-!app_assoc. do 2 f_equal. change 6%nat with (4 + 2)%nat. rewrite bits_app. f_equal.
    + rewrite <-(bits_mod 4 4 b) by lia. f_equal. change (2 ^ Z.of_nat 4) with 16. change (2 ^ Z.of_nat 2) with 4. Z.div_mod_to_equations; lia.
    + rewrite <-(bits_mod 2 2) by lia. f_equal. change (2 ^ Z.of_nat 2) with 4. Z.div_mod_to_equations; lia.
  - apply Forall_cons in Hb as [Ha Hb]. apply Forall_cons in Hb as [Hb Hc]. apply Forall_cons in Hc as [Hc Hbs].
    destruct (IH Hbs) as (z & Hz & Hbits). destruct (triple_bits a b c Ha Hb Hc) as (v0 & v1 & v2 & v3 & He & (H0 & H1 & H2 & H3) & Hw).
    rewrite Encode_three, He. cbn [map app]. exists z. rewrite !padding_char by done. split; [done|].
    rewrite !bind_cons, !sextet_char, Hbits by done. rewrite <-!app_assoc.
    by rewrite (app_assoc (bits 8 b)), (app_assoc (bits 8 a)), Hw, <-!app_assoc.
Qed.

(** The conversion from base 64 is right. The base 64 text of bytes becomes their
    hexadecimal digits, whatever their number. *)
Theorem base642hex_right bytes : Forall is_byte bytes -> base642hex (Encode bytes) = hex bytes.
Proof.
  intros Hb. unfold base642hex. change (fun c => if c =? 61 then [] else base642bin c) with sextet.
  destruct (Encode_bits bytes Hb) as (z & Hz & ->). rewrite length_app, <-Hz.
  rewrite (proj2 (Nat.ltb_ge _ _)) by lia. replace (length (bytes ≫= bits 8) + length z - length z)%nat with (length (bytes ≫= bits 8)) by lia.
  rewrite take_app_length. apply nibbles_bytes; [done|]. rewrite length_bit_bytes. lia.
Qed.

(** ** Witnesses *)
Lemma hex2base64_wrong_witness : hex2base64 (hex [65]) = Encode [65] <-> intact [65].
Proof. apply (hex2base64_wrong [65]). apply Forall_cons. split; [unfold is_byte; lia|constructor]. Defined.
Lemma base642hex_right_witness : base642hex (Encode [65; 66]) = codes "4142".
Proof. apply (base642hex_right [65; 66]). repeat (apply Forall_cons; split; [unfold is_byte; lia|]). constructor. Defined.
End Hex64.
