(* ===== verification/SnmpClient.v ===== *)
(** The SNMP client of the plugins ([TmxUtils/src/SNMPClient.cpp]): how a session is
    opened, and what a request does to the client. The net-snmp library is the class
    [NetSnmp]; what the client relies on is how the library reads the text of an object
    identifier into an array of a given length. *)
From Stdlib Require Import Ascii.
From stdpp Require Import pretty.
From S2P Require Import Prelude Text.
Open Scope Z_scope.

Module Snmp.
(** * Data *)
Inductive request_type := GET | SET | OTHER.
Record snmp_request := mkRequest { oid : string; rtype : ascii; value : string }.
Inductive response_type := INTEGER | STRING.
Record snmp_response_obj := mkResponse { val_int : Z; val_string : list Z; type : response_type }.
(** What a program cannot continue from is a result of its own. *)
Inductive outcome (A : Type) := returned (a : A) | thrown (what : string) | undefined.
Arguments returned {A} a.
Arguments thrown {A} what.
Arguments undefined {A}.

(** ** The library *)
Inductive securityLevel := SNMP_SEC_LEVEL_NOAUTH | SNMP_SEC_LEVEL_AUTHNOPRIV | SNMP_SEC_LEVEL_AUTHPRIV.
Inductive securityModel := SNMP_SEC_MODEL_SNMPv1 | SNMP_SEC_MODEL_SNMPv2c | SNMP_SEC_MODEL_USM.
Inductive auth_protocol :=
  usmHMACMD5AuthProtocol | usmHMACSHA1AuthProtocol | usmHMAC128SHA224AuthProtocol
  | usmHMAC192SHA256AuthProtocol | usmHMAC256SHA384AuthProtocol | usmHMAC384SHA512AuthProtocol.
Inductive priv_protocol :=
  usmDESPrivProtocol | usmAESPrivProtocol | usmAES128PrivProtocol | usmAES192PrivProtocol
  | usmAES256PrivProtocol | usmAES192CiscoPrivProtocol | usmAES256CiscoPrivProtocol.
#[export] Instance securityLevel_eq_dec : EqDecision securityLevel.
Proof. solve_decision. Defined.
Record snmp_session := mkSession {
  peername : string; version : Z; community : option string; securityName : option string;
  security_model : securityModel; security_level : securityLevel;
  securityAuth : option (auth_protocol * list Z); securityPriv : option (priv_protocol * list Z); timeout : Z }.
Inductive variable := asn_integer (v : option Z) | asn_octet_str (v : option (list Z)) | asn_other.
Record snmp_pdu := mkPdu { errstat : Z; variables : list variable }.
Inductive status := STAT_SUCCESS | STAT_ERROR | STAT_TIMEOUT.
#[export] Instance status_eq_dec : EqDecision status.
Proof. solve_decision. Defined.
(** What is bound to an object identifier in a request. *)
Inductive bound := bound_null | bound_text (t : ascii) (v : string) | bound_octets (v : list Z).
Abbreviation binding := (list Z * bound)%type.
Definition SNMP_VERSION_1 : Z := 0.
Definition SNMP_VERSION_3 : Z := 3.
Definition SNMP_ERR_NOERROR : Z := 0.
Definition MAX_OID_LEN : Z := 128.

(** The text of an object identifier made of numbers, as [split_on] takes it apart. *)
Definition components (s : string) : list string := split_on "." s.
Definition numeric (s : string) : bool :=
  forallb (fun c => negb (String.eqb c "") && all_chars is_digit c && (fst (digits 0 c) <? 2 ^ 32)) (components s).
Definition oid_numbers (s : string) : list Z := map (fun c => fst (digits 0 c)) (components s).
Definition oid_size (s : string) : Z := Z.of_nat (length (components s)).

(** [snmp_parse_oid] reads a text into an array of the length given, and returns the
    length used; a text it has no place for is refused. [W] is what the devices and
    the name server know. *)
Class NetSnmp (W : Type) := {
  getaddrinfo : bool -> string -> W -> bool * W;
  generate_Ku : auth_protocol -> string -> option (list Z);
  snmp_open : snmp_session -> W -> bool * W;
  snmp_parse_oid : string -> list Z -> Z -> bool * (list Z * Z);
  snmp_add_var : list Z -> ascii -> string -> bool;
  snmp_synch_response : snmp_session -> request_type -> list binding -> W -> (status * option snmp_pdu) * W;
  parse_fits s array len : numeric s = true -> oid_size s <= len ->
    snmp_parse_oid s array len = (true, (oid_numbers s, oid_size s));
  parse_too_long s array len : numeric s = true -> len < oid_size s ->
    exists array' len', snmp_parse_oid s array len = (false, (array', len')) /\ len' <= len }.

Record snmp_client := mkClient {
  ip_ : string; port_ : Z; community_ : string; snmp_version_ : Z; timeout_ : Z;
  ss : snmp_session; ss_open : bool; OID : list Z; OID_len : Z }.
Definition set_oid (array : list Z) (len : Z) (c : snmp_client) : snmp_client :=
  mkClient (ip_ c) (port_ c) (community_ c) (snmp_version_ c) (timeout_ c) (ss c) (ss_open c) array len.
(** A session that is not in the list of the library is left alone. *)
Definition snmp_close (c : snmp_client) : snmp_client :=
  mkClient (ip_ c) (port_ c) (community_ c) (snmp_version_ c) (timeout_ c) (ss c) false (OID c) (OID_len c).

Section client.
Context {W : Type} `{NetSnmp W}.

(** * Opening a session *)
(** The expression [^([0-9]+|::|[0-9a-fA-F]+:)]. *)
Definition is_hex (c : ascii) : bool :=
  let n := N_of_ascii c in (is_digit c || ((97 <=? n) && (n <=? 102)) || ((65 <=? n) && (n <=? 70)))%N.
Fixpoint hex_colon (s : string) : bool :=
  match s with
  | String c s' => is_hex c && (match s' with String d _ => Ascii.eqb d ":" || hex_colon s' | _ => false end)
  | EmptyString => false
  end.
Definition ip_start_pattern (hostname : string) : bool :=
  match hostname with
  | String c s => is_digit c || (Ascii.eqb c ":" && match s with String d _ => Ascii.eqb d ":" | _ => false end) || hex_colon hostname
  | EmptyString => false
  end.
Definition validate_address (hostname : string) (w : W) : bool * W := getaddrinfo (ip_start_pattern hostname) hostname w.

Definition auth_of (authProtocol : string) : option auth_protocol :=
  if String.eqb authProtocol "MD5" then Some usmHMACMD5AuthProtocol
  else if String.eqb authProtocol "SHA" then Some usmHMACSHA1AuthProtocol
  else if String.eqb authProtocol "SHA-224" then Some usmHMAC128SHA224AuthProtocol
  else if String.eqb authProtocol "SHA-256" then Some usmHMAC192SHA256AuthProtocol
  else if String.eqb authProtocol "SHA-384" then Some usmHMAC256SHA384AuthProtocol
  else if String.eqb authProtocol "SHA-512" then Some usmHMAC384SHA512AuthProtocol
  else None.
Definition priv_of (privProtocol : string) : option priv_protocol :=
  if String.eqb privProtocol "DES" then Some usmDESPrivProtocol
  else if String.eqb privProtocol "AES" then Some usmAESPrivProtocol
  else if String.eqb privProtocol "AES-128" then Some usmAES128PrivProtocol
  else if String.eqb privProtocol "AES-192" then Some usmAES192PrivProtocol
  else if String.eqb privProtocol "AES-256" then Some usmAES256PrivProtocol
  else if String.eqb privProtocol "AES-192-Cisco" then Some usmAES192CiscoPrivProtocol
  else if String.eqb privProtocol "AES-256-Cisco" then Some usmAES256CiscoPrivProtocol
  else None.
Definition level_of (level : string) : securityLevel :=
  if String.eqb level "authPriv" then SNMP_SEC_LEVEL_AUTHPRIV
  else if String.eqb level "authNoPriv" then SNMP_SEC_LEVEL_AUTHNOPRIV
  else SNMP_SEC_LEVEL_NOAUTH.
Definition auth_config (level authProtocol authPassPhrase : string) : string + option (auth_protocol * list Z) :=
  if String.eqb level "authPriv" || String.eqb level "authNoPriv" then
    match auth_of authProtocol with
    | None => inl ("Invalid authentication protocol " +:+ authProtocol +:+ " !")
    | Some p =>
        match generate_Ku p authPassPhrase with
        | None => inl "Error generating Ku from authentication pass phrase."
        | Some key => inr (Some (p, key))
        end
    end
  else inr None.
(** The key of the privacy protocol is made with the authentication protocol. *)
Definition priv_config (level privProtocol privPassPhrase : string) (auth : option (auth_protocol * list Z))
  : string + option (priv_protocol * list Z) :=
  match auth with
  | Some (a, _) =>
      if String.eqb level "authPriv" then
        match priv_of privProtocol with
        | None => inl ("Invalid privacy protocol " +:+ privProtocol +:+ " !")
        | Some p =>
            match generate_Ku a privPassPhrase with
            | None => inl "Error generating Ku from privacy pass phrase."
            | Some key => inr (Some (p, key))
            end
        end
      else inr None
  | None => inr None
  end.
Definition session_of (ip : string) (port : Z) (community_text snmp_user level : string)
  (auth : option (auth_protocol * list Z)) (priv : option (priv_protocol * list Z)) (v t : Z) : snmp_session :=
  mkSession (ip +:+ ":" +:+ pretty port) v
    (if negb (v =? SNMP_VERSION_3) then Some community_text else None)
    (if negb (v =? SNMP_VERSION_3) then None else Some snmp_user)
    (if negb (v =? SNMP_VERSION_3) then (if v =? SNMP_VERSION_1 then SNMP_SEC_MODEL_SNMPv1 else SNMP_SEC_MODEL_SNMPv2c)
     else SNMP_SEC_MODEL_USM)
    (level_of level) auth priv t.
Definition snmp_client_new (ip : string) (port : Z) (community_text snmp_user level authProtocol authPassPhrase
  privProtocol privPassPhrase : string) (v t : Z) (w : W) : (string + snmp_client) * W :=
  let '(valid, w) := validate_address ip w in
  if negb valid then (inl ("Invalid IP address " +:+ ip), w)
  else
    match auth_config level authProtocol authPassPhrase with
    | inl what => (inl what, w)
    | inr auth =>
        match priv_config level privProtocol privPassPhrase auth with
        | inl what => (inl what, w)
        | inr priv =>
            let session := session_of ip port community_text snmp_user level auth priv v t in
            let '(opened, w) := snmp_open session w in
            if negb opened then (inl "Failed to establish session with target device", w)
            else (inr (mkClient ip port community_text v t session true [] MAX_OID_LEN), w)
        end
    end.

(** * Requests *)
(** The response of a successful request that reports an error is read for its first
    variable, whether it has one or not. *)
Definition log_error (st : status) (response : option snmp_pdu) : option unit :=
  match st with
  | STAT_SUCCESS => match response with Some (mkPdu _ (_ :: _)) => Some tt | _ => None end
  | _ => Some tt
  end.
Definition answered (st : status) (response : option snmp_pdu) : option snmp_pdu :=
  match st, response with
  | STAT_SUCCESS, Some r => if errstat r =? SNMP_ERR_NOERROR then Some r else None
  | _, _ => None
  end.
(** The octets are appended to what the object holds. *)
Definition get_variable (v : variable) (val : snmp_response_obj) : snmp_response_obj :=
  match v with
  | asn_integer (Some i) => mkResponse i (val_string val) INTEGER
  | asn_octet_str (Some octets) => mkResponse (val_int val) (val_string val ++ octets) STRING
  | _ => val
  end.
Definition process_snmp_get_response (val : snmp_response_obj) (response : snmp_pdu) : snmp_response_obj :=
  foldl (fun val v => get_variable v val) val (variables response).

(** The request that goes to the device: the identifier is what the array holds. *)
Definition request_binding (rt : request_type) (val : snmp_response_obj) (c : snmp_client) : list binding :=
  match rt, type val with
  | GET, _ => [(OID c, bound_null)]
  | SET, INTEGER => if snmp_add_var (OID c) "i" (pretty (val_int val)) then [(OID c, bound_text "i" (pretty (val_int val)))] else []
  | SET, STRING => [(OID c, bound_octets (val_string val))]
  | OTHER, _ => []
  end.
(** [OID_len] is set back only after a request that was answered. *)
Definition process_snmp_request (input_oid : string) (rt : request_type) (val : snmp_response_obj) (c : snmp_client) (w : W)
  : outcome (bool * snmp_response_obj) * snmp_client * W :=
  match rt with
  | OTHER => (returned (false, val), c, w)
  | _ =>
      let '(ok, (array, len)) := snmp_parse_oid input_oid (OID c) (OID_len c) in
      let c := set_oid array len c in
      if negb ok then (returned (false, val), snmp_close c, w)
      else if negb (ss_open c) then (undefined, c, w)
      else
        let '((st, response), w) := snmp_synch_response (ss c) rt (request_binding rt val c) w in
        match answered st response with
        | Some r =>
            (returned (true, match rt with GET => process_snmp_get_response val r | _ => val end),
             set_oid (OID c) MAX_OID_LEN c, w)
        | None =>
            match log_error st response with
            | Some _ => (returned (false, val), c, w)
            | None => (undefined, c, w)
            end
        end
  end.

Fixpoint add_requests (requests : list snmp_request) (failures : Z) (vars : list binding) (c : snmp_client)
  : Z * list binding * snmp_client :=
  match requests with
  | [] => (failures, vars, c)
  | r :: requests =>
      let '(ok, (array, len)) := snmp_parse_oid (oid r) (OID c) (OID_len c) in
      let c := set_oid array len c in
      let failures := if ok : bool then failures else failures + 1 in
      if snmp_add_var (OID c) (rtype r) (value r)
      then add_requests requests failures (vars ++ [(OID c, bound_text (rtype r) (value r))]) c
      else add_requests requests (failures + 1) vars c
  end.
Definition process_snmp_set_requests (requests : list snmp_request) (c : snmp_client) (w : W) : outcome bool * snmp_client * W :=
  let '(failures, vars, c) := add_requests requests 0 [] c in
  if 0 <? failures then (thrown ("Encountered " +:+ pretty failures +:+ " failures while creating PDU"), snmp_close c, w)
  else if negb (ss_open c) then (undefined, c, w)
  else
    let '((st, response), w) := snmp_synch_response (ss c) SET vars w in
    match answered st response with
    | Some r => (returned true, set_oid (OID c) MAX_OID_LEN c, w)
    | None =>
        match log_error st response with
        | Some _ => (returned false, match response with Some _ => set_oid (OID c) MAX_OID_LEN c | None => c end, w)
        | None => (undefined, c, w)
        end
    end.
Definition get_port (c : snmp_client) : Z := port_ c.
Definition get_ip (c : snmp_client) : string := ip_ c.

(** * Requests in sequence *)
Inductive op := op_request (input_oid : string) (rt : request_type) (val : snmp_response_obj) | op_set (requests : list snmp_request).
Definition run_op (o : op) (c : snmp_client) (w : W) : outcome bool * snmp_client * W :=
  match o with
  | op_request s rt val =>
      let '(r, c, w) := process_snmp_request s rt val c w in
      (match r with returned (b, _) => returned b | thrown what => thrown what | undefined => undefined end, c, w)
  | op_set requests => process_snmp_set_requests requests c w
  end.
(** Nothing follows what is undefined. *)
Fixpoint run_ops (os : list op) (c : snmp_client) (w : W) : list (outcome bool) * snmp_client * W :=
  match os with
  | [] => ([], c, w)
  | o :: os =>
      let '(r, c, w) := run_op o c w in
      match r with
      | undefined => ([undefined], c, w)
      | _ => let '(rs, c, w) := run_ops os c w in (r :: rs, c, w)
      end
  end.
Definition failed (r : outcome bool) : Prop := match r with returned b => b = false | thrown _ => True | undefined => False end.

(** ** Identifiers that do not fit *)
Definition longer_than (n : Z) (o : op) : Prop :=
  match o with
  | op_request s rt _ => rt <> OTHER /\ numeric s = true /\ n < oid_size s
  | op_set requests => requests <> [] /\ Forall (fun r => numeric (oid r) = true /\ n < oid_size (oid r)) requests
  end.

Lemma add_requests_longer n requests : forall failures vars c,
  Forall (fun r => numeric (oid r) = true /\ n < oid_size (oid r)) requests -> OID_len c <= n ->
  let '(failures', _, c') := add_requests requests failures vars c in
  failures + Z.of_nat (length requests) <= failures' /\ OID_len c' <= n.
Proof.
  induction requests as [|r requests IH]; intros failures vars c Hr Hn; cbn [add_requests length].
  { split; [lia|done]. }
  apply Forall_cons in Hr as [[Hnum Hlen] Hr].
  destruct (parse_too_long (oid r) (OID c) (OID_len c) Hnum) as (array' & len' & -> & Hle); [lia|].
  destruct (snmp_add_var _ _ _).
  - specialize (IH (failures + 1) (vars ++ [(OID (set_oid array' len' c), bound_text (rtype r) (value r))]) (set_oid array' len' c) Hr ltac:(cbn; lia)).
    destruct (add_requests _ _ _ _) as [[f v] c']. split; [lia|tauto].
  - specialize (IH (failures + 1 + 1) vars (set_oid array' len' c) Hr ltac:(cbn; lia)).
    destruct (add_requests _ _ _ _) as [[f v] c']. split; [lia|tauto].
Qed.

Lemma run_op_longer n o c w : longer_than n o -> OID_len c <= n ->
  exists r c', run_op o c w = (r, c', w) /\ failed r /\ OID_len c' <= n /\ ss_open c' = false.
Proof.
  intros Ho Hn. destruct o as [s rt val|requests]; cbn [longer_than run_op] in *.
  - destruct Ho as (Hrt & Hnum & Hlen). unfold process_snmp_request.
    destruct (parse_too_long s (OID c) (OID_len c) Hnum) as (array' & len' & -> & Hle); [lia|].
    destruct rt; [| |done]; cbn [negb]; eexists _, _; (split; [done|]); cbn; split_all; (done || lia).
  - destruct Ho as (Hne & Hr). unfold process_snmp_set_requests. pose proof (add_requests_longer n requests 0 [] c Hr Hn) as Ha.
    destruct (add_requests requests 0 [] c) as [[f v] c']. destruct Ha as [Hf Hc]. destruct requests as [|r requests]; [done|]. cbn [length] in Hf.
    rewrite (proj2 (Z.ltb_lt _ _)) by lia. eexists _, _. split; [done|]. cbn. split_all; done.
Qed.

Lemma run_ops_longer n os : forall c w, Forall (longer_than n) os -> OID_len c <= n ->
  exists rs c', run_ops os c w = (rs, c', w) /\ length rs = length os /\ Forall failed rs /\ OID_len c' <= n /\ (os <> [] -> ss_open c' = false).
Proof.
  induction os as [|o os IH]; intros c w Ho Hn; cbn [run_ops].
  { eexists _, _. split; [done|]. split_all; [done|constructor|done|done]. }
  apply Forall_cons in Ho as [Ho Hos]. destruct (run_op_longer n o c w Ho Hn) as (r & c1 & -> & Hr & Hn1 & Hc1).
  destruct (IH c1 w Hos Hn1) as (rs & c' & Hrun & Hlen & Hf & Hn' & Hc'). rewrite Hrun.
  assert (ss_open c' = false) as Hclosed.
  { destruct os; [|by apply Hc']. cbn in Hrun. injection Hrun as <- <-. done. }
  destruct r as [b|what|]; [| |done]; eexists _, _; (split; [done|]); cbn [length]; split_all; try done; try lia; by constructor.
Qed.

Lemma request_fits s rt val c w : rt <> OTHER -> numeric s = true -> oid_size s <= OID_len c -> ss_open c = true ->
  exists vars st response w' r c', snmp_synch_response (ss c) rt vars w = ((st, response), w') /\
    run_op (op_request s rt val) c w = (r, c', w') /\ ss c' = ss c /\ ss_open c' = true /\
    OID_len c' = (if answered st response is Some _ then MAX_OID_LEN else oid_size s) /\
    (r = returned true <-> is_Some (answered st response)).
Proof.
  intros Hrt Hnum Hfit Ho. cbn [run_op]. unfold process_snmp_request. rewrite parse_fits by done. cbn [negb].
  assert (ss_open (set_oid (oid_numbers s) (oid_size s) c) = true) as -> by done. cbn [negb].
  change (ss (set_oid (oid_numbers s) (oid_size s) c)) with (ss c).
  destruct rt; [| |done];
    (match goal with |- context [snmp_synch_response ?a ?b ?v ?e] => destruct (snmp_synch_response a b v e) as [[st response] w'] eqn:E end);
    (destruct (answered st response) as [r|] eqn:Ea; [|destruct (log_error st response)]);
    (eexists _, st, response, w', _, _; split; [exact E|]; split; [reflexivity|]); rewrite Ea; cbn; split_and!; try done.
  all: split; [done|by intros []].
Qed.
(** C34: after a request that the device did not answer, or answered with an error, the
    client reaches the device again only with an identifier that is at most as long as the
    one of that request. Requests with longer ones fail, send nothing, and the first of them
    closes the session. A request with one at most as long is sent: when it is answered
    without an error, there is room for 128 numbers again, and otherwise only for as many
    as it has itself. *)
Theorem unanswered_request_silences s rt val c w val' c' w' :
  rt <> OTHER -> numeric s = true -> oid_size s <= OID_len c ->
  process_snmp_request s rt val c w = (returned (false, val'), c', w') ->
  (forall os, Forall (longer_than (oid_size s)) os -> exists rs c'', run_ops os c' w' = (rs, c'', w') /\
     length rs = length os /\ Forall failed rs /\ (os <> [] -> ss_open c'' = false)) /\
  (forall s2 rt2 val2, rt2 <> OTHER -> numeric s2 = true -> oid_size s2 <= oid_size s ->
     exists vars st response w2 r c2, snmp_synch_response (ss c) rt2 vars w' = ((st, response), w2) /\
       run_op (op_request s2 rt2 val2) c' w' = (r, c2, w2) /\ ss_open c2 = true /\
       OID_len c2 = (if answered st response is Some _ then MAX_OID_LEN else oid_size s2) /\
       (r = returned true <-> is_Some (answered st response))).
Proof.
  intros Hrt Hnum Hfit Hreq. assert (OID_len c' = oid_size s /\ ss_open c' = true /\ ss c' = ss c) as (Hn & Ho & Hs).
  { revert Hreq. unfold process_snmp_request. rewrite parse_fits by done. cbn [negb].
    destruct rt; [| |done]; (destruct (ss_open (set_oid _ _ _)) eqn:Eo; [cbn [negb]|done]);
      (destruct (snmp_synch_response _ _ _ _) as [[st response] w1]);
      (destruct (answered st response); [done|destruct (log_error st response); [|done]]); intros [= <- <- <-]; done. }
  split.
  - intros os Hos. destruct (run_ops_longer _ os c' w' Hos) as (rs & c'' & Hrun & Hl & Hf & _ & Hc); [lia|]. eauto 10.
  - intros s2 rt2 val2 Hrt2 Hnum2 Hle. destruct (request_fits s2 rt2 val2 c' w') as (vars & st & response & w2 & r & c2 & E1 & E2 & _ & E3 & E4 & E5);
      [done|done|lia|done|]. rewrite Hs in E1. eauto 12.
Qed.

(** ** Identifiers that fit *)
(** Within one request the length only shrinks, so that no identifier may be longer
    than one before it. *)
Fixpoint fitting (len : Z) (requests : list snmp_request) : Prop :=
  match requests with
  | [] => True
  | r :: requests => oid_size (oid r) <= len /\ fitting (oid_size (oid r)) requests
  end.
Definition well_formed (r : snmp_request) : Prop :=
  numeric (oid r) = true /\ snmp_add_var (oid_numbers (oid r)) (rtype r) (value r) = true.
Definition request_of (r : snmp_request) : binding := (oid_numbers (oid r), bound_text (rtype r) (value r)).

Lemma add_requests_failures requests : forall failures vars c, failures <= fst (fst (add_requests requests failures vars c)).
Proof.
  induction requests as [|r requests IH]; intros failures vars c; cbn [add_requests]; [cbn; lia|].
  destruct (snmp_parse_oid _ _ _) as [ok [array len]].
  destruct ok, (snmp_add_var _ _ _);
    match goal with |- _ <= fst (fst (add_requests _ ?f ?v ?c)) => specialize (IH f v c); lia end.
Qed.
Lemma add_requests_fitting requests : forall failures vars c, Forall well_formed requests -> fitting (OID_len c) requests ->
  exists c', add_requests requests failures vars c = (failures, vars ++ map request_of requests, c') /\
    ss_open c' = ss_open c /\ ss c' = ss c.
Proof.
  induction requests as [|r requests IH]; intros failures vars c Hw Hf; cbn [add_requests map].
  { exists c. by rewrite app_nil_r. }
  apply Forall_cons in Hw as [[Hnum Hadd] Hw]. destruct Hf as [Hle Hf]. rewrite parse_fits by done. cbn iota. cbn [OID set_oid].
  rewrite Hadd. destruct (IH failures (vars ++ [(oid_numbers (oid r), bound_text (rtype r) (value r))]) (set_oid (oid_numbers (oid r)) (oid_size (oid r)) c) Hw Hf) as (c' & -> & Ho & Hs).
  exists c'. by rewrite <-app_assoc.
Qed.
Lemma add_requests_not_fitting requests : forall failures vars c, Forall well_formed requests -> ~ fitting (OID_len c) requests ->
  failures < fst (fst (add_requests requests failures vars c)).
Proof.
  induction requests as [|r requests IH]; intros failures vars c Hw Hf; cbn [add_requests]; [by destruct Hf|].
  apply Forall_cons in Hw as [[Hnum Hadd] Hw]. destruct (decide (oid_size (oid r) <= OID_len c)) as [Hle|Hle].
  - rewrite parse_fits by done. cbn iota. cbn [OID set_oid]. rewrite Hadd. apply IH; [done|]. cbn [OID_len set_oid]. intros Hf'. by apply Hf.
  - destruct (parse_too_long (oid r) (OID c) (OID_len c) Hnum) as (array' & len' & -> & Hle'); [lia|].
    clear Hadd. destruct (snmp_add_var _ _ _); (eapply Z.lt_le_trans; [|apply add_requests_failures]); lia.
Qed.

(** Requests with one PDU are sent if and only if no identifier is longer than one
    before it; if one is, the session is closed. *)
Theorem set_requests_sent_iff requests c w : Forall well_formed requests -> ss_open c = true ->
  (fitting (OID_len c) requests /\
   snd (process_snmp_set_requests requests c w) = snd (snmp_synch_response (ss c) SET (map request_of requests) w)) \/
  (~ fitting (OID_len c) requests /\ exists what c', process_snmp_set_requests requests c w = (thrown what, c', w) /\ ss_open c' = false).
Proof.
  intros Hw Ho. unfold process_snmp_set_requests.
  assert (fitting (OID_len c) requests \/ ~ fitting (OID_len c) requests) as [Hf|Hf].
  { generalize (OID_len c). induction requests as [|r rs IH]; intros n; [by left|]. cbn [fitting].
    apply Forall_cons in Hw as [_ Hw]. destruct (decide (oid_size (oid r) <= n)), (IH Hw (oid_size (oid r))); tauto. }
  - left. split; [done|]. destruct (add_requests_fitting requests 0 [] c Hw Hf) as (c' & -> & Ho' & Hs'). cbn [Z.ltb Z.compare app].
    rewrite Ho', Ho, Hs'. cbn [negb]. destruct (snmp_synch_response _ _ _ _) as [[st response] w1].
    destruct (answered _ _); [done|]. by destruct (log_error _ _).
  - right. split; [done|]. pose proof (add_requests_not_fitting requests 0 [] c Hw Hf) as Hlt.
    destruct (add_requests requests 0 [] c) as [[f v] c']. cbn [fst] in Hlt. rewrite (proj2 (Z.ltb_lt _ _)) by lia. eauto.
Qed.

(** A device that answers everything. *)
Definition responsive : Prop := forall session kind vars w, exists r w',
  snmp_synch_response session kind vars w = ((STAT_SUCCESS, Some r), w') /\ errstat r = SNMP_ERR_NOERROR.
Definition fresh (c : snmp_client) : Prop := ss_open c = true /\ OID_len c = MAX_OID_LEN.
Definition acceptable (o : op) : Prop :=
  match o with
  | op_request s rt _ => rt <> OTHER /\ numeric s = true /\ oid_size s <= MAX_OID_LEN
  | op_set requests => Forall well_formed requests /\ fitting MAX_OID_LEN requests
  end.

Lemma run_op_acceptable o c w : responsive -> acceptable o -> fresh c ->
  exists c' w', run_op o c w = (returned true, c', w') /\ fresh c' /\ ss c' = ss c.
Proof.
  intros Hr Ho [Hopen Hlen]. destruct o as [s rt val|requests]; cbn [acceptable run_op] in *.
  - destruct Ho as (Hrt & Hnum & Hle). unfold process_snmp_request. rewrite parse_fits by (done || lia). cbn [negb].
    assert (ss_open (set_oid (oid_numbers s) (oid_size s) c) = true) as -> by done. cbn [negb].
    destruct rt; [| |done];
      (match goal with |- context [snmp_synch_response ?a ?b ?d ?e] => destruct (Hr a b d e) as (r & w' & -> & He) end);
      unfold answered; rewrite He, Z.eqb_refl; eexists _, _; (split; [done|]); split; done.
  - destruct Ho as (Hw & Hf). unfold process_snmp_set_requests. rewrite <-Hlen in Hf.
    destruct (add_requests_fitting requests 0 [] c Hw Hf) as (c' & -> & Ho' & Hs'). cbn [Z.ltb Z.compare app].
    rewrite Ho', Hopen. cbn [negb]. destruct (Hr (ss c') SET (map request_of requests) w) as (r & w' & -> & He).
    unfold answered. rewrite He, Z.eqb_refl. eexists _, _. split; [done|]. split; [split; [by rewrite <-Hopen, <-Ho'|done]|done].
Qed.

(** As long as the device answers without errors and the identifiers are well formed,
    every request succeeds, and the session stays open with the whole array at its
    disposal. *)
Theorem answered_session_stays os : forall c w, responsive -> Forall acceptable os -> fresh c ->
  exists c' w', run_ops os c w = (replicate (length os) (returned true), c', w') /\ fresh c'.
Proof.
  induction os as [|o os IH]; intros c w Hr Ho Hc; cbn [run_ops]; [by eauto|].
  apply Forall_cons in Ho as [Ho Hos]. destruct (run_op_acceptable o c w Hr Ho Hc) as (c1 & w1 & -> & Hc1 & _).
  destruct (IH c1 w1 Hr Hos Hc1) as (c' & w' & -> & Hc'). eauto.
Qed.

(** ** Which clients open a session *)
Definition auth_usable (authProtocol authPassPhrase : string) : Prop :=
  exists p, auth_of authProtocol = Some p /\ is_Some (generate_Ku p authPassPhrase).
Definition usable (level authProtocol authPassPhrase privProtocol privPassPhrase : string) : Prop :=
  match level_of level with
  | SNMP_SEC_LEVEL_NOAUTH => True
  | SNMP_SEC_LEVEL_AUTHNOPRIV => auth_usable authProtocol authPassPhrase
  | SNMP_SEC_LEVEL_AUTHPRIV =>
      exists p, auth_of authProtocol = Some p /\ is_Some (generate_Ku p authPassPhrase) /\
        is_Some (priv_of privProtocol) /\ is_Some (generate_Ku p privPassPhrase)
  end.
(** A client is made if and only if the address is valid, the protocols of its level
    are known, the keys can be made, and the library opens the session. *)
Lemma client_opens_iff ip port cm user level ap app pp ppp v t w :
  (exists c w', snmp_client_new ip port cm user level ap app pp ppp v t w = (inr c, w')) <->
  fst (validate_address ip w) = true /\ usable level ap app pp ppp /\
  (forall auth priv, auth_config level ap app = inr auth -> priv_config level pp ppp auth = inr priv ->
    fst (snmp_open (session_of ip port cm user level auth priv v t) (snd (validate_address ip w))) = true).
Proof.
  unfold snmp_client_new. destruct (validate_address ip w) as [valid w1]. cbn [fst snd].
  destruct valid; cbn [negb]; [|split; [intros (? & ? & ?); done|intros (? & _); done]].
  assert (usable level ap app pp ppp <-> exists auth priv, auth_config level ap app = inr auth /\ priv_config level pp ppp auth = inr priv) as Hu.
  { unfold usable, level_of, auth_usable, auth_config.
    destruct (String.eqb level "authPriv") eqn:E1; cbn [orb].
    - destruct (auth_of ap) as [p|]; [|split; [intros (? & ? & _); done|intros (? & ? & ? & _); done]].
      destruct (generate_Ku p app) as [k|] eqn:Ek.
      + split.
        * intros (q & [= <-] & _ & [pv Hp] & [k' Hk]). unfold is_Some. exists (Some (p, k)), (Some (pv, k')).
          unfold priv_config. by rewrite E1, Hp, Hk.
        * intros (auth & priv & [= <-] & Hp). unfold priv_config in Hp. rewrite E1 in Hp. exists p.
          destruct (priv_of pp); [|done]. destruct (generate_Ku p ppp); [|done]. eauto 10.
      + split; [intros (q & [= <-] & [? Hk] & _); by rewrite Ek in Hk|intros (? & ? & ? & _); done].
    - destruct (String.eqb level "authNoPriv"); cbn [orb].
      + destruct (auth_of ap) as [p|]; [|split; [intros (? & ? & _); done|intros (? & ? & ? & _); done]].
        destruct (generate_Ku p app) as [k|] eqn:Ek.
        * split; [|eauto]. intros _. exists (Some (p, k)), None. unfold priv_config. by rewrite E1.
        * split; [intros (q & [= <-] & [? Hk]); by rewrite Ek in Hk|intros (? & ? & ? & _); done].
      + split; [|done]. intros _. by exists None, None. }
  rewrite Hu. destruct (auth_config level ap app) as [what|auth].
  { split; [intros (? & ? & ?); done|intros (_ & (? & ? & ? & _) & _); done]. }
  destruct (priv_config level pp ppp auth) as [what|priv] eqn:Ep.
  { split; [intros (? & ? & ?); done|]. intros (_ & (? & ? & [= <-] & Hp) & _). by rewrite Ep in Hp. }
  destruct (snmp_open _ w1) as [opened w2] eqn:Eo. split.
  - intros (c & w' & Hc). split; [done|]. split; [eauto|]. intros a p [= <-] Hp. rewrite Ep in Hp. injection Hp as <-.
    rewrite Eo. by destruct opened.
  - intros (_ & _ & Ho). specialize (Ho auth priv eq_refl Ep). rewrite Eo in Ho. cbn in Ho. subst opened. cbn. eauto.
Qed.
End client.

(** * Devices of one's own *)
(** A library that reads numbers only, with the device given. *)
Definition read_numbers (s : string) (array : list Z) (len : Z) : bool * (list Z * Z) :=
  if numeric s && (oid_size s <=? len) then (true, (oid_numbers s, oid_size s)) else (false, (array, len)).
#[refine] Definition library (W : Type) (device : snmp_session -> request_type -> list binding -> W -> (status * option snmp_pdu) * W) : NetSnmp W :=
  {| getaddrinfo _ _ w := (true, w); generate_Ku _ text := if (String.length text <? 8)%nat then None else Some [];
     snmp_open _ w := (true, w); snmp_parse_oid := read_numbers; snmp_add_var _ _ _ := true; snmp_synch_response := device |}.
Proof.
  - intros s array len Hs Hl. unfold read_numbers. by rewrite Hs, (proj2 (Z.leb_le _ _)).
  - intros s array len Hs Hl. exists array, len. unfold read_numbers. rewrite Hs, (proj2 (Z.leb_gt _ _)) by done. done.
Defined.
Definition demo_oid : string := "1.3.6.1.4.1.1206.4.2.18.16.2.0".
Definition demo_session : snmp_session := mkSession "10.0.0.2:161" 3 None (Some "user") SNMP_SEC_MODEL_USM SNMP_SEC_LEVEL_NOAUTH None None 1000000.
Definition demo_client : snmp_client := mkClient "10.0.0.2" 161 "public" 3 1000000 demo_session true [] MAX_OID_LEN.
(** A device that counts requests and answers none, or all. *)
Definition silent_device : NetSnmp Z := library Z (fun _ _ _ w => ((STAT_TIMEOUT, None), w + 1)).
Definition answering_device : NetSnmp Z := library Z (fun _ _ _ w => ((STAT_SUCCESS, Some (mkPdu 0 [asn_integer (Some 2)])), w + 1)).
Definition mode_request : op := op_request demo_oid GET (mkResponse 0 [] INTEGER).
Definition payload_request (row : string) : op :=
  op_set [mkRequest ("1.3.6.1.4.1.1206.4.2.18.4.2.1.8." +:+ row) "x" "00"].

(** A device that does not answer the first request, and answers the others. *)
Definition waking_device : NetSnmp Z := library Z (fun _ _ _ w =>
  (if w =? 0 then (STAT_TIMEOUT, None) else (STAT_SUCCESS, Some (mkPdu 0 [asn_integer (Some 2)])), w + 1)).
Lemma unanswered_request_silences_witness :
  (exists rs c'', run_ops (H := waking_device) [payload_request "1"; payload_request "2"]
    (set_oid (oid_numbers demo_oid) 13 demo_client) 1 = (rs, c'', 1) /\ length rs = 2%nat /\ Forall failed rs /\ ss_open c'' = false) /\
  (exists c2, run_op (H := waking_device) mode_request (set_oid (oid_numbers demo_oid) 13 demo_client) 1 = (returned true, c2, 2) /\
    OID_len c2 = 128).
Proof.
  destruct (unanswered_request_silences (H := waking_device) demo_oid GET (mkResponse 0 [] INTEGER) demo_client 0 (mkResponse 0 [] INTEGER)
    (set_oid (oid_numbers demo_oid) 13 demo_client) 1) as [Hlong Hshort]; [done|reflexivity|vm_compute; discriminate|reflexivity|]. split.
  - destruct (Hlong [payload_request "1"; payload_request "2"]) as (rs & c'' & Hrun & Hl & Hf & Hc).
    + repeat (apply Forall_cons; split; [split; [done|]; apply Forall_cons; split; [split; reflexivity|constructor]|]). constructor.
    + exists rs, c''. split; [exact Hrun|]. split; [done|]. split; [done|]. by apply Hc.
  - destruct (Hshort demo_oid GET (mkResponse 0 [] INTEGER)) as (vars & st & response & w2 & r & c2 & E1 & E2 & _ & E3 & E4);
      [done|reflexivity|reflexivity|]. cbn in E1. injection E1 as <- <- <-. exists c2.
    split; [|exact E3]. rewrite (proj2 E4) in E2 by (by eexists). exact E2.
Defined.
Lemma answered_session_stays_witness :
  exists c' w', run_ops (H := answering_device) [mode_request; payload_request "1"; mode_request] demo_client 0 = (replicate 3 (returned true), c', w') /\ fresh c'.
Proof.
  apply (answered_session_stays (H := answering_device) [mode_request; payload_request "1"; mode_request] demo_client 0).
  - intros session kind vars w. eexists _, _. split; [reflexivity|reflexivity].
  - repeat (apply Forall_cons; split; [|]); [| | |constructor]; cbn [acceptable mode_request payload_request].
    + split; [done|]. split; [reflexivity|vm_compute; discriminate].
    + split; [apply Forall_cons; split; [split; reflexivity|constructor]|]. split; [vm_compute; discriminate|done].
    + split; [done|]. split; [reflexivity|vm_compute; discriminate].
  - done.
Defined.
End Snmp.
