(* ===== verification/ForwardConfig.v ===== *)
(** The configuration of the plugin that forwards messages to the radios
    ([ImmediateForwardPlugin/src/ImmediateForwardConfiguration.cpp], [TmxUtils/src/rsu]).
    The JSON library of this plugin, jsoncpp, is the class [JsonCpp]. *)
From Stdlib Require Import Ascii.
From S2P Require Import Prelude Text.
Open Scope Z_scope.

Module ForwardConfig.
(** * Data *)
Inductive TxMode := CONT | ALT.
Inductive SecurityLevel := NO_AUTH_NO_PRIV | AUTH_NO_PRIV | AUTH_PRIV.
Inductive RSU_SPEC := RSU_4_1 | NTCIP_1218.
#[export] Instance TxMode_eq_dec : EqDecision TxMode.
Proof. solve_decision. Defined.
#[export] Instance SecurityLevel_eq_dec : EqDecision SecurityLevel.
Proof. solve_decision. Defined.
#[export] Instance RSU_SPEC_eq_dec : EqDecision RSU_SPEC.
Proof. solve_decision. Defined.
Record MessageConfig := mkMessageConfig { tmxType : string; sendType : string; psid : string; channel : option Z }.
Record SNMPAuth := mkAuth {
  user : string; securityLevel : SecurityLevel; community : string; snmpTimeout : option Z;
  authProtocol : option string; privProtocol : option string; authPassPhrase : option string; privPassPhrase : option string }.
Record ImfConfiguration := mkConfig {
  name : string; spec : RSU_SPEC; address : string; port : Z; snmpAuth : option SNMPAuth;
  messageConfigs : list MessageConfig; mode : TxMode; signMessage : bool; enableHsm : option bool;
  hsmUrl : option string; payloadPlaceholder : option string }.
(** What ends a function of the plugin other than its return. *)
Inductive exn :=
| TmxException (what : string)
| UdpClientRuntimeError   (** a [TmxException] *)
| LogicError      (** of jsoncpp: a value that cannot be converted *)
| bad_optional_access | out_of_range
| snmp_client_exception (what : string).

(** ** Texts of the enumerations *)
Definition stringToTxModeMap : list (string * TxMode) := [("CONT"%string, CONT); ("ALT"%string, ALT)].
Definition stringToSecurityLevelMap : list (string * SecurityLevel) :=
  [("noAuthNoPriv"%string, NO_AUTH_NO_PRIV); ("authNoPriv"%string, AUTH_NO_PRIV); ("authPriv"%string, AUTH_PRIV)].
Definition stringToRSUSpecMap : list (string * RSU_SPEC) := [("RSU4.1"%string, RSU_4_1); ("NTCIP1218"%string, NTCIP_1218)].
Definition at_key {A} (key : string) (m : list (string * A)) : option A := snd <$> List.find (fun p => String.eqb (fst p) key) m.
Definition name_of {A} `{EqDecision A} (v : A) (m : list (string * A)) : option string :=
  fst <$> List.find (fun p => bool_decide (snd p = v)) m.
Definition or_throw {A} (what : string) (r : option A) : exn + A :=
  match r with Some a => inr a | None => inl (TmxException what) end.
Definition txModeToString (m : TxMode) : exn + string := or_throw "TxMode is not supported!" (name_of m stringToTxModeMap).
Definition stringToTxMode (m : string) : exn + TxMode :=
  or_throw ("TxMode " +:+ m +:+ " is not supported!") (at_key m stringToTxModeMap).
Definition securityLevelToString (l : SecurityLevel) : exn + string :=
  or_throw "SecurityLevel is not supported!" (name_of l stringToSecurityLevelMap).
Definition stringToSecurityLevel (l : string) : exn + SecurityLevel :=
  or_throw ("SecurityLevel " +:+ l +:+ " is not supported!") (at_key l stringToSecurityLevelMap).
Definition stringToRSUSpec (s : string) : exn + RSU_SPEC :=
  or_throw ("RSU Specification " +:+ s +:+ " is not supported!") (at_key s stringToRSUSpecMap).
Definition rsuSpecToString (s : RSU_SPEC) : exn + string :=
  or_throw "RSU Specification is not supported!" (name_of s stringToRSUSpecMap).

(** ** JSON values

    A conversion throws for a value of another type; a member that is missing is the
    value [null]. *)
Class JsonCpp (V : Type) := {
  json_parse : string -> string + V;
  isArray : V -> bool; isObject : V -> bool; isString : V -> bool; isBool : V -> bool; isInt : V -> bool; isUInt : V -> bool;
  elements : V -> list V;
  member : V -> string -> V;
  asString : V -> option string; asUInt : V -> option Z; asInt : V -> option Z; asBool : V -> option bool }.

Definition bind {A B} (r : exn + A) (f : A -> exn + B) : exn + B := match r with inl e => inl e | inr a => f a end.
Declare Scope config_scope.
Notation "'let!' x := m 'in' k" := (bind m (fun x => k))
  (at level 10, x pattern, m at level 100, k at level 200) : config_scope.
Open Scope config_scope.
Fixpoint map_all {A B} (f : A -> exn + B) (l : list A) : exn + list B :=
  match l with
  | [] => inr []
  | a :: l => let! b := f a in let! bs := map_all f l in inr (b :: bs)
  end.

Section parse.
Context {V : Type} `{JsonCpp V}.
Definition convert {A} (r : option A) : exn + A := match r with Some a => inr a | None => inl LogicError end.
Definition string_member (v : V) (key : string) : exn + string := convert (asString (member v key)).

(** * The parser *)
Definition parseMessage (message : V) : exn + MessageConfig :=
  if negb (isObject message) then inl (TmxException "Error parsing Immediate Forward configuration: Messages element is not an object!")
  else
    let! tmxType := string_member message "tmxType" in
    let! sendType := string_member message "sendType" in
    let! psid := string_member message "psid" in
    let! channel := (if isInt (member message "channel") then convert (asInt (member message "channel")) else inr 183) in
    inr (mkMessageConfig tmxType sendType psid (Some channel)).

Definition parseSNMPAuth (auth : V) : exn + SNMPAuth :=
  if negb (isObject auth) then inl (TmxException "Error parsing Immediate Forward configuration: SNMPAuth is not an object!")
  else
    let! user := string_member auth "user" in
    let! level_text := string_member auth "securityLevel" in
    let! level := stringToSecurityLevel level_text in
    let! community := string_member auth "community" in
    let! timeout := (if isUInt (member auth "snmpTimeout")
                     then let! t := convert (asUInt (member auth "snmpTimeout")) in inr (Some t) else inr None) in
    if bool_decide (level <> NO_AUTH_NO_PRIV) then
      let! ap := string_member auth "authProtocol" in
      let! app := string_member auth "authPassPhrase" in
      if bool_decide (level = AUTH_PRIV) then
        let! pp := string_member auth "privacyProtocol" in
        let! ppp := string_member auth "privacyPassPhrase" in
        inr (mkAuth user level community timeout (Some ap) (Some pp) (Some app) (Some ppp))
      else inr (mkAuth user level community timeout (Some ap) None (Some app) None)
    else inr (mkAuth user level community timeout None None None None).

(** The URL is read when the flag is there, whatever its value. *)
Definition parseImfConfiguration (imfConfig : V) : exn + ImfConfiguration :=
  if negb (isObject imfConfig) then inl (TmxException "Error parsing Immediate Forward configuration: ImfConfig is not an object!")
  else
    let! name := string_member imfConfig "name" in
    let! address := string_member imfConfig "address" in
    let! port := convert (asUInt (member imfConfig "port")) in
    let! spec_text := string_member imfConfig "rsuSpec" in
    let! spec := stringToRSUSpec spec_text in
    let! auth := (if bool_decide (spec = NTCIP_1218)
                  then let! a := parseSNMPAuth (member imfConfig "snmpAuth") in inr (Some a) else inr None) in
    let! mode_text := string_member imfConfig "txMode" in
    let! mode := stringToTxMode mode_text in
    let! sign := convert (asBool (member imfConfig "signMessages")) in
    let! (hsm, url) := (if isBool (member imfConfig "enableHsm")
                         then let! b := convert (asBool (member imfConfig "enableHsm")) in
                              let! u := string_member imfConfig "hsmUrl" in inr (Some b, Some u)
                         else inr (None, None)) in
    let! placeholder := (if isString (member imfConfig "payloadPlaceholder")
                         then let! p := string_member imfConfig "payloadPlaceholder" in inr (Some p) else inr None) in
    let messages := member imfConfig "messages" in
    if negb (isArray messages) then inl (TmxException "Error parsing Immediate Forward configuration: Messages is not an array!")
    else
      let! ms := map_all parseMessage (elements messages) in
      inr (mkConfig name spec address port auth ms mode sign hsm url placeholder).

Definition parseImmediateForwardConfiguration (config : string) : exn + list ImfConfiguration :=
  match json_parse config with
  | inl errors => inl (TmxException ("Error parsing Immediate Forward Configuration: " +:+ errors))
  | inr root =>
      if negb (isArray root) then inl (TmxException "Error parsing Immediate Forward Configuration: Root element is not an array!")
      else map_all parseImfConfiguration (elements root)
  end.

(** * What a parsed configuration has *)
Definition auth_complete (a : SNMPAuth) : Prop :=
  (is_Some (authProtocol a) <-> securityLevel a <> NO_AUTH_NO_PRIV) /\
  (is_Some (authPassPhrase a) <-> securityLevel a <> NO_AUTH_NO_PRIV) /\
  (is_Some (privProtocol a) <-> securityLevel a = AUTH_PRIV) /\
  (is_Some (privPassPhrase a) <-> securityLevel a = AUTH_PRIV).
Definition valid_config (c : ImfConfiguration) : Prop :=
  (match snmpAuth c with Some a => spec c = NTCIP_1218 /\ auth_complete a | None => spec c = RSU_4_1 end) /\
  (is_Some (enableHsm c) <-> is_Some (hsmUrl c)) /\
  Forall (fun m => is_Some (channel m)) (messageConfigs c).

Lemma parse_bind {A B} (r : exn + A) (f : A -> exn + B) b : bind r f = inr b -> exists a, r = inr a /\ f a = inr b.
Proof. destruct r; [done|]. eauto. Qed.
Lemma map_all_Forall {A B} (f : A -> exn + B) (P : B -> Prop) l : forall bs,
  (forall a b, f a = inr b -> P b) -> map_all f l = inr bs -> Forall P bs.
Proof.
  induction l as [|a l IH]; intros bs Hf; cbn [map_all]; [by intros [= <-]|].
  intros (b & Hb & (bs' & Hbs & [= <-])%parse_bind)%parse_bind. constructor; eauto.
Qed.
Lemma parseMessage_channel v m : parseMessage v = inr m -> is_Some (channel m).
Proof.
  unfold parseMessage. destruct (isObject v); [|done]. cbn [negb].
  intros (? & _ & (? & _ & (? & _ & (? & _ & [= <-])%parse_bind)%parse_bind)%parse_bind)%parse_bind. by eexists.
Qed.
Lemma parseSNMPAuth_complete v a : parseSNMPAuth v = inr a -> auth_complete a.
Proof.
  unfold parseSNMPAuth. destruct (isObject v); [|done]. cbn [negb].
  intros (u & _ & (lt & _ & (level & _ & (cm & _ & (t & _ & Ha)%parse_bind)%parse_bind)%parse_bind)%parse_bind)%parse_bind. revert Ha.
  case_bool_decide as E1; [|intros [= <-]].
  - intros (ap & _ & (app & _ & Ha)%parse_bind)%parse_bind. revert Ha. case_bool_decide as E2.
    + intros (pp & _ & (ppp & _ & [= <-])%parse_bind)%parse_bind. subst level. split_and!; split; cbn; eauto.
    + intros [= <-]. split_and!; (split; [|done]); cbn; eauto; by intros [? ?].
  - assert (level = NO_AUTH_NO_PRIV) as -> by (by destruct level). split_and!; (split; [by intros [? ?]|done]).
Qed.

Lemma parse_valid json cs : parseImmediateForwardConfiguration json = inr cs -> Forall valid_config cs.
Proof.
  unfold parseImmediateForwardConfiguration. destruct (json_parse json) as [|root]; [done|]. destruct (isArray root); [|done]. cbn [negb].
  apply map_all_Forall. intros v c. unfold parseImfConfiguration. destruct (isObject v); [|done]. cbn [negb].
  intros (n & _ & (ad & _ & (po & _ & (st & _ & (sp & _ & (au & Hau & (mt & _ & (md & _ & (sg & _ & ([hsm url] & Hh & (pl & _ & Hm)
    %parse_bind)%parse_bind)%parse_bind)%parse_bind)%parse_bind)%parse_bind)%parse_bind)%parse_bind)%parse_bind)%parse_bind)%parse_bind.
  destruct (isArray _); [|done]. cbn [negb] in Hm. apply parse_bind in Hm as (ms & Hms & [= <-]).
  unfold valid_config. cbn [snmpAuth spec enableHsm hsmUrl messageConfigs]. split; [|split].
  - revert Hau. case_bool_decide as E.
    + intros (a & Ha & [= <-])%parse_bind. split; [done|]. by eapply parseSNMPAuth_complete.
    + intros [= <-]. by destruct sp.
  - revert Hh. destruct (isBool _).
    + intros (b & _ & (u & _ & [= <- <-])%parse_bind)%parse_bind. split; eauto.
    + intros [= <- <-]. done.
  - eapply map_all_Forall; [|done]. apply parseMessage_channel.
Qed.
(** ** What a document says *)
Definition text (v : V) (key : string) (t : string) : Prop := asString (member v key) = Some t.
(** A text that is read under a condition. *)
Definition text_if (cond : bool) (v : V) (key : string) (t : option string) : Prop :=
  if cond then exists u, text v key u /\ t = Some u else t = None.
Definition has_auth (l : SecurityLevel) : bool := match l with NO_AUTH_NO_PRIV => false | _ => true end.
Definition has_priv (l : SecurityLevel) : bool := match l with AUTH_PRIV => true | _ => false end.
Definition says_message (v : V) (m : MessageConfig) : Prop :=
  isObject v = true /\ text v "tmxType" (tmxType m) /\ text v "sendType" (sendType m) /\ text v "psid" (psid m) /\
  exists n, channel m = Some n /\ if isInt (member v "channel") then asInt (member v "channel") = Some n else n = 183.
Definition says_auth (v : V) (a : SNMPAuth) : Prop :=
  isObject v = true /\ text v "user" (user a) /\ text v "community" (community a) /\
  (exists t, text v "securityLevel" t /\ at_key t stringToSecurityLevelMap = Some (securityLevel a)) /\
  (if isUInt (member v "snmpTimeout") then exists n, asUInt (member v "snmpTimeout") = Some n /\ snmpTimeout a = Some n
   else snmpTimeout a = None) /\
  text_if (has_auth (securityLevel a)) v "authProtocol" (authProtocol a) /\
  text_if (has_auth (securityLevel a)) v "authPassPhrase" (authPassPhrase a) /\
  text_if (has_priv (securityLevel a)) v "privacyProtocol" (privProtocol a) /\
  text_if (has_priv (securityLevel a)) v "privacyPassPhrase" (privPassPhrase a).
Definition says_radio (v : V) (c : ImfConfiguration) : Prop :=
  isObject v = true /\ text v "name" (name c) /\ text v "address" (address c) /\ asUInt (member v "port") = Some (port c) /\
  (exists t, text v "rsuSpec" t /\ at_key t stringToRSUSpecMap = Some (spec c)) /\
  (exists t, text v "txMode" t /\ at_key t stringToTxModeMap = Some (mode c)) /\
  asBool (member v "signMessages") = Some (signMessage c) /\
  (match spec c with NTCIP_1218 => exists a, snmpAuth c = Some a /\ says_auth (member v "snmpAuth") a | RSU_4_1 => snmpAuth c = None end) /\
  (if isBool (member v "enableHsm") then exists b, asBool (member v "enableHsm") = Some b /\ enableHsm c = Some b else enableHsm c = None) /\
  text_if (isBool (member v "enableHsm")) v "hsmUrl" (hsmUrl c) /\
  text_if (isString (member v "payloadPlaceholder")) v "payloadPlaceholder" (payloadPlaceholder c) /\
  isArray (member v "messages") = true /\ Forall2 says_message (elements (member v "messages")) (messageConfigs c).

Lemma bind_read {A B} (r : exn + A) (f : A -> exn + B) b : bind r f = inr b <-> exists a, r = inr a /\ f a = inr b.
Proof. split; [apply parse_bind|]. by intros (a & -> & E). Qed.
Lemma convert_inr {A} (r : option A) a : convert r = inr a <-> r = Some a.
Proof. destruct r; cbn; naive_solver. Qed.
Lemma or_throw_inr {A} what (r : option A) a : or_throw what r = inr a <-> r = Some a.
Proof. destruct r; cbn; naive_solver. Qed.
Lemma map_all_inr {A B} (f : A -> exn + B) (P : A -> B -> Prop) l : (forall a b, f a = inr b <-> P a b) ->
  forall bs, map_all f l = inr bs <-> Forall2 P l bs.
Proof.
  intros Hf. induction l as [|a l IH]; intros bs; cbn [map_all].
  - split; [by intros [= <-]|]. by intros ->%Forall2_nil_inv_l.
  - rewrite bind_read. setoid_rewrite bind_read. split.
    + intros (b & Hb%Hf & bs' & Hbs%IH & [= <-]). by constructor.
    + intros (b & bs' & Hb%Hf & Hbs%IH & ->)%Forall2_cons_inv_l. eauto.
Qed.
(** Forwards a step that returned is taken apart; backwards the members are put in. *)
Ltac taken :=
  repeat match goal with
    | E : bind _ _ = inr _ |- _ => apply parse_bind in E as (? & ? & E)
    | E : convert _ = inr _ |- _ => apply convert_inr in E
    | E : or_throw _ _ = inr _ |- _ => apply or_throw_inr in E
    | E : inr _ = inr _ |- _ => injection E as E; subst
    | E : context [if ?b then _ else _] |- _ => destruct b eqn:?; try discriminate E
    | E : (let '_ := ?x in _) = inr _ |- _ => destruct x
    end.
Ltac put_in := repeat match goal with E : _ = _ |- _ => rewrite E; clear E; cbn [convert bind or_throw negb] end.

Lemma parseMessage_says v m : parseMessage v = inr m <-> says_message v m.
Proof.
  unfold parseMessage, says_message, text, string_member. destruct (isObject v); cbn [negb]; [|split; [done|by intros []]]. split.
  - intros E. taken; cbn; eauto 10.
  - destruct m as [ty se ps ch]. cbn. intros (_ & E1 & E2 & E3 & n & -> & En). rewrite E1, E2, E3. cbn.
    destruct (isInt _); [by rewrite En|by subst].
Qed.
Lemma has_auth_spec l : bool_decide (l <> NO_AUTH_NO_PRIV) = has_auth l.
Proof. by destruct l. Qed.
Lemma has_priv_spec l : bool_decide (l = AUTH_PRIV) = has_priv l.
Proof. by destruct l. Qed.
Lemma parseSNMPAuth_says v a : parseSNMPAuth v = inr a <-> says_auth v a.
Proof.
  unfold parseSNMPAuth, says_auth, text_if, text, string_member, stringToSecurityLevel.
  destruct (isObject v); cbn [negb]; [|split; [done|by intros []]]. split.
  - intros E. taken; cbn [user securityLevel community snmpTimeout authProtocol privProtocol authPassPhrase privPassPhrase];
      repeat match goal with E : bool_decide _ = _ |- _ => rewrite ?has_auth_spec, ?has_priv_spec in E; revert E end; intros;
      try match goal with E : has_auth ?l = _ |- _ => destruct l end;
      cbn [has_auth has_priv] in *; try discriminate; split_and!; eauto 10.
  - destruct a as [us le cm ti ap pp app ppp].
    cbn [user securityLevel community snmpTimeout authProtocol privProtocol authPassPhrase privPassPhrase].
    intros (_ & E1 & E2 & (t & E3 & E4) & E5 & E6 & E7 & E8 & E9).
    rewrite E1, E2, E3. cbn [convert bind]. rewrite E4. cbn [or_throw bind]. rewrite has_auth_spec, has_priv_spec. clear E1 E2 E3 E4.
    destruct (isUInt _); [destruct E5 as (n & -> & ->)|subst ti]; cbn [convert bind];
    destruct le; cbn [has_auth has_priv] in *;
      repeat match goal with E : exists _, _ |- _ => destruct E as (? & E & ->); rewrite E; clear E end; by subst.
Qed.
Lemma parseImfConfiguration_says v c : parseImfConfiguration v = inr c <-> says_radio v c.
Proof.
  unfold parseImfConfiguration, says_radio, text_if, text, string_member, stringToRSUSpec, stringToTxMode.
  destruct (isObject v); cbn [negb]; [|split; [done|by intros []]]. split.
  - intros E. taken; cbn [name spec address port snmpAuth messageConfigs mode signMessage enableHsm hsmUrl payloadPlaceholder].
    all: repeat match goal with E : bool_decide (?l = NTCIP_1218) = _ |- _ => destruct l; try discriminate E; clear E end.
    all: repeat match goal with E : parseSNMPAuth _ = inr _ |- _ => apply parseSNMPAuth_says in E
                  | E : map_all _ _ = inr _ |- _ => apply (map_all_inr _ says_message _ parseMessage_says) in E
                  | E : negb _ = false |- _ => apply negb_false_iff in E end.
    all: split_and!; first [done | eassumption | eexists; split; [eassumption || done|eassumption || done] ].
  - destruct c as [nm sp ad po au ms mo sg hs ur pl].
    cbn [name spec address port snmpAuth messageConfigs mode signMessage enableHsm hsmUrl payloadPlaceholder].
    intros (_ & E1 & E2 & E3 & (t & E4 & E5) & (u & E6 & E7) & E8 & E9 & E10 & E11 & E12 & E13 & E14).
    rewrite E1, E2, E3, E4. cbn [convert bind]. rewrite E5. cbn [or_throw bind]. rewrite E6, E8. cbn [convert bind].
    apply (map_all_inr _ says_message _ parseMessage_says) in E14. rewrite E13, E14. cbn [negb bind]. clear E1 E2 E3 E4 E5 E6 E8 E13 E14.
    assert ((if bool_decide (sp = NTCIP_1218) then let! a := parseSNMPAuth (member v "snmpAuth") in inr (Some a) else inr None) = inr au) as ->.
    { destruct sp; [by subst|]. destruct E9 as (a & -> & Ea%parseSNMPAuth_says). cbn. by rewrite Ea. }
    cbn [bind]. rewrite E7. cbn [or_throw bind].
    destruct (isBool _); [destruct E10 as (b & -> & ->), E11 as (w & -> & ->)|subst hs ur];
      (destruct (isString _); [destruct E12 as (x & -> & ->)|subst pl]); done.
Qed.
End parse.

(** The texts of the enumerations are read back. *)
Lemma enumerations_read_back :
  (forall m, exists t, txModeToString m = inr t /\ stringToTxMode t = inr m) /\
  (forall l, exists t, securityLevelToString l = inr t /\ stringToSecurityLevel t = inr l) /\
  (forall s, exists t, rsuSpecToString s = inr t /\ stringToRSUSpec t = inr s).
Proof. split_and!; intros []; eexists; by split. Qed.

(** * A library for examples *)
Inductive value := null | vbool (b : bool) | vint (i : Z) | vstring (s : string) | varray (l : list value) | vobject (m : list (string * value)).
#[export] Instance values (document : string + value) : JsonCpp value := {|
  json_parse _ := document;
  isArray v := match v with varray _ => true | _ => false end;
  isObject v := match v with vobject _ => true | _ => false end;
  isString v := match v with vstring _ => true | _ => false end;
  isBool v := match v with vbool _ => true | _ => false end;
  isInt v := match v with vint i => (- 2 ^ 31 <=? i) && (i <? 2 ^ 31) | _ => false end;
  isUInt v := match v with vint i => (0 <=? i) && (i <? 2 ^ 32) | _ => false end;
  elements v := match v with varray l => l | _ => [] end;
  member v key := match v with vobject m => default null (at_key key m) | _ => null end;
  asString v := match v with null => Some ""%string | vstring s => Some s | vbool b => Some (if b then "true" else "false")%string | _ => None end;
  asUInt v := match v with null => Some 0 | vint i => if (0 <=? i) && (i <? 2 ^ 32) then Some i else None | _ => None end;
  asInt v := match v with null => Some 0 | vint i => if (- 2 ^ 31 <=? i) && (i <? 2 ^ 31) then Some i else None | _ => None end;
  asBool v := match v with null => Some false | vbool b => Some b | vint i => Some (negb (i =? 0)) | _ => None end |}.
Definition demo_message (t : string) (p : string) : value :=
  vobject [("tmxType"%string, vstring (t +:+ "-P")); ("sendType"%string, vstring t); ("psid"%string, vstring p)].
Definition demo_radio (n : string) : value :=
  vobject [("name"%string, vstring n); ("rsuSpec"%string, vstring "RSU4.1"); ("address"%string, vstring "10.0.0.1"); ("port"%string, vint 1516);
    ("txMode"%string, vstring "CONT"); ("signMessages"%string, vbool false); ("messages"%string, varray [demo_message "SPAT" "0x8002"; demo_message "MAP" "0x8002"])].
Definition demo_auth (level : string) : value :=
  vobject [("user"%string, vstring "rw"); ("securityLevel"%string, vstring level); ("community"%string, vstring "public");
    ("authProtocol"%string, vstring "SHA-512"); ("authPassPhrase"%string, vstring "password"); ("privacyProtocol"%string, vstring "AES-256");
    ("privacyPassPhrase"%string, vstring "password")].
Definition demo_ntcip (n level : string) : value :=
  vobject [("name"%string, vstring n); ("rsuSpec"%string, vstring "NTCIP1218"); ("address"%string, vstring "10.0.0.2"); ("port"%string, vint 161);
    ("snmpAuth"%string, demo_auth level); ("txMode"%string, vstring "CONT"); ("signMessages"%string, vbool true);
    ("messages"%string, varray [demo_message "MAP" "0xE0000017"; demo_message "SPAT" "0x8002"])].
Definition demo_document : value := varray [demo_radio "east"; demo_ntcip "west" "authPriv"].

(** A radio whose flag is false has the address of the service all the same, which is empty
    when there is none. *)
Definition demo_hsm : value :=
  match demo_radio "north" with vobject m => vobject (("enableHsm"%string, vbool false) :: m) | v => v end.
End ForwardConfig.
