(* ===== verification/Forward.v ===== *)
(** The plugin that forwards messages to the radios
    ([ImmediateForwardPlugin/src]): preparing the table of a radio with SNMP
    ([IMFNTCIP1218Worker.cpp]), the update of the configuration, and what becomes of a
    message ([ImmediateForwardPlugin.cpp]). What the plugin talks to beside SNMP is the
    class [Radio]. *)
From Stdlib Require Import Ascii.
From stdpp Require Import pretty.
From S2P Require Import Prelude Text Json JsonText IvpMessage OrdMap Utilities Hex64 SnmpClient ForwardConfig.
Import Json IvpMsg.
Open Scope Z_scope.

Create HintDb talks.
Create HintDb steady.
Module Forward.
Import Snmp ForwardConfig.
(** * Objects of the table ([TmxUtils/src/rsu/NTCIP_1218_MIB.h]) *)
Definition rsuModeOid : string := "1.3.6.1.4.1.1206.4.2.18.16.2.0".
Definition maxRsuIFMs : string := "1.3.6.1.4.1.1206.4.2.18.4.1.0".
Definition rsuIFMPsidOid : string := "1.3.6.1.4.1.1206.4.2.18.4.2.1.2".
Definition rsuIFMTxChannelOid : string := "1.3.6.1.4.1.1206.4.2.18.4.2.1.3".
Definition rsuIFMEnableOid : string := "1.3.6.1.4.1.1206.4.2.18.4.2.1.4".
Definition rsuIFMStatusOid : string := "1.3.6.1.4.1.1206.4.2.18.4.2.1.5".
Definition rsuIFMPriorityOid : string := "1.3.6.1.4.1.1206.4.2.18.4.2.1.6".
Definition rsuIFMOptionsOid : string := "1.3.6.1.4.1.1206.4.2.18.4.2.1.7".
Definition rsuIFMPayloadOid : string := "1.3.6.1.4.1.1206.4.2.18.4.2.1.8".
Definition cell (column : string) (row : Z) : string := column +:+ "." +:+ pretty row.

(** * The world of the plugin *)
(** A command run in a shell: what its pipe gives, whether the stream had an error, and
    whether closing it succeeded. *)
Inductive command := popen_failed | ran (output : string) (hasFerror pclose_failed : bool).
Record RawSpdu := mkSpdu { fullByteData : list Z; messageType : string }.
Class Radio (W : Type) := {
  radio_snmp :: NetSnmp W;
  udp_open : string -> Z -> W -> bool * W;
  udp_send : string -> Z -> string -> W -> W;
  run_command : string -> W -> command * W;
  now : W -> Z * W;
  sleep : Z -> W -> W;
  (** The payload of a message with a secured message; the codec may throw. *)
  get_payload : IvpMessage -> string + RawSpdu }.

(** * State *)
Record UdpClient := mkUdp { _address : string; _port : Z }.
Section forward.
Context {W : Type} `{Radio W}.
(** Whether messages of the level [DEBUG1] are logged: only then are they put together. *)
Variable debug1 : bool.

Record Plugin := mkPlugin {
  udpClientMap : gmap string UdpClient;
  snmpClientMap : gmap string snmp_client;
  imfNtcipMessageTypeIndex : gmap string (gmap string Z);
  imfConfigs : list ImfConfiguration;
  messageCountMap : gmap string Z;
  configRead : bool;
  skippedNoDsrcMetadata : Z; skippedNoMessageRoute : Z; skippedInvalidUdpClient : Z;
  skippedSignErrorResponse : Z; skippedInvalidSpdu : Z;
  statusThrottle : Throttle.FrequencyThrottle (K := string);
  statuses : list (string * Z);
  world : W }.

Inductive result (A : Type) := Ok (a : A) | Throw (e : exn) | Undefined.
Arguments Ok {A} a.
Arguments Throw {A} e.
Arguments Undefined {A}.
Definition M (A : Type) : Type := Plugin -> result A * Plugin.
Definition ret {A} (a : A) : M A := fun s => (Ok a, s).
Definition throw {A} (e : exn) : M A := fun s => (Throw e, s).
Definition crash {A} : M A := fun s => (Undefined, s).
Definition bindM {A B} (m : M A) (f : A -> M B) : M B := fun s =>
  match m s with
  | (Ok a, s) => f a s
  | (Throw e, s) => (Throw e, s)
  | (Undefined, s) => (Undefined, s)
  end.
Local Notation "'do' x <- m ; k" := (bindM m (fun x => k)) (at level 10, x pattern, m at level 100, k at level 200).
Local Notation "m ;; k" := (bindM m (fun _ => k)) (at level 100, right associativity).
Definition gets {A} (f : Plugin -> A) : M A := fun s => (Ok (f s), s).
Definition of_sum {A} (r : exn + A) : M A := match r with inl e => throw e | inr a => ret a end.
(** [std::optional::value] and a pointer that is read. *)
Definition value_of {A} (o : option A) : M A := match o with Some a => ret a | None => throw bad_optional_access end.
Definition deref {A} (o : option A) : M A := match o with Some a => ret a | None => crash end.
Fixpoint for_each {A} (l : list A) (f : A -> M unit) : M unit :=
  match l with [] => ret tt | a :: l => f a ;; for_each l f end.

Definition set_clients (udp : gmap string UdpClient) (snmp : gmap string snmp_client) (index : gmap string (gmap string Z)) (s : Plugin) : Plugin :=
  mkPlugin udp snmp index (imfConfigs s) (messageCountMap s) (configRead s) (skippedNoDsrcMetadata s) (skippedNoMessageRoute s)
    (skippedInvalidUdpClient s) (skippedSignErrorResponse s) (skippedInvalidSpdu s) (statusThrottle s) (statuses s) (world s).
Definition set_imfConfigs (cs : list ImfConfiguration) (s : Plugin) : Plugin :=
  mkPlugin (udpClientMap s) (snmpClientMap s) (imfNtcipMessageTypeIndex s) cs (messageCountMap s) (configRead s) (skippedNoDsrcMetadata s)
    (skippedNoMessageRoute s) (skippedInvalidUdpClient s) (skippedSignErrorResponse s) (skippedInvalidSpdu s) (statusThrottle s) (statuses s) (world s).
Definition set_counts (m : gmap string Z) (t : Throttle.FrequencyThrottle (K := string)) (s : Plugin) : Plugin :=
  mkPlugin (udpClientMap s) (snmpClientMap s) (imfNtcipMessageTypeIndex s) (imfConfigs s) m (configRead s) (skippedNoDsrcMetadata s)
    (skippedNoMessageRoute s) (skippedInvalidUdpClient s) (skippedSignErrorResponse s) (skippedInvalidSpdu s) t (statuses s) (world s).
Definition set_configRead (b : bool) (s : Plugin) : Plugin :=
  mkPlugin (udpClientMap s) (snmpClientMap s) (imfNtcipMessageTypeIndex s) (imfConfigs s) (messageCountMap s) b (skippedNoDsrcMetadata s)
    (skippedNoMessageRoute s) (skippedInvalidUdpClient s) (skippedSignErrorResponse s) (skippedInvalidSpdu s) (statusThrottle s) (statuses s) (world s).
Definition set_skipped (metadata route udp sign spdu : Z) (s : Plugin) : Plugin :=
  mkPlugin (udpClientMap s) (snmpClientMap s) (imfNtcipMessageTypeIndex s) (imfConfigs s) (messageCountMap s) (configRead s)
    metadata route udp sign spdu (statusThrottle s) (statuses s) (world s).
Definition set_statuses (l : list (string * Z)) (s : Plugin) : Plugin :=
  mkPlugin (udpClientMap s) (snmpClientMap s) (imfNtcipMessageTypeIndex s) (imfConfigs s) (messageCountMap s) (configRead s) (skippedNoDsrcMetadata s)
    (skippedNoMessageRoute s) (skippedInvalidUdpClient s) (skippedSignErrorResponse s) (skippedInvalidSpdu s) (statusThrottle s) l (world s).
Definition set_world (w : W) (s : Plugin) : Plugin :=
  mkPlugin (udpClientMap s) (snmpClientMap s) (imfNtcipMessageTypeIndex s) (imfConfigs s) (messageCountMap s) (configRead s) (skippedNoDsrcMetadata s)
    (skippedNoMessageRoute s) (skippedInvalidUdpClient s) (skippedSignErrorResponse s) (skippedInvalidSpdu s) (statusThrottle s) (statuses s) w.
Definition modify (f : Plugin -> Plugin) : M unit := fun s => (Ok tt, f s).
Definition call {A} (f : W -> A * W) : M A := fun s => let '(a, w) := f (world s) in (Ok a, set_world w s).
Definition SetStatus (key : string) (v : Z) : M unit := modify (fun s => set_statuses (statuses s ++ [(key, v)]) s).
Definition Plugin_new (w : W) : Plugin := mkPlugin ∅ ∅ ∅ [] ∅ false 0 0 0 0 0 (Throttle.FrequencyThrottle_new 2000) [] w.

(** ** Clients *)
Definition UdpClient_new (addr : string) (p : Z) : M UdpClient :=
  do opened <- call (udp_open addr p);
  if opened then ret (mkUdp addr p) else throw UdpClientRuntimeError.
Definition Send (c : UdpClient) (message : string) : M unit :=
  modify (fun s => set_world (udp_send (_address c) (_port c) message (world s)) s).
(** The pointer that the map of a radio holds, or none. *)
Definition with_client {A} (radio : string) (f : snmp_client -> W -> outcome A * snmp_client * W) : M A := fun s =>
  match snmpClientMap s !! radio with
  | None => (Undefined, s)
  | Some c =>
      let '(r, c, w) := f c (world s) in
      let s := set_world w (set_clients (udpClientMap s) (<[radio := c]> (snmpClientMap s)) (imfNtcipMessageTypeIndex s) s) in
      (match r with returned a => Ok a | thrown what => Throw (snmp_client_exception what) | undefined => Undefined end, s)
  end.
Definition snmp (radio o : string) (rt : request_type) (obj : snmp_response_obj) : M (bool * snmp_response_obj) :=
  with_client radio (process_snmp_request o rt obj).
Definition snmp_set (radio : string) (requests : list snmp_request) : M bool :=
  with_client radio (process_snmp_set_requests requests).

(** * The table of a radio *)
Definition stripPsidPrefix (p : string) : string :=
  let pos := Text.find "x" p 0 in
  if pos =? Text.npos then p else String.substring (Z.to_nat (pos + 1)) (String.length p) p.
Definition getPSIDWithoutPrefix (p : string) : exn + string :=
  if Text.find "x" p 0 =? Text.npos then inl (TmxException ("Message PSID " +:+ p +:+ " is malformed and should be formated 0x<PSID HEX>"))
  else inr (stripPsidPrefix p).

Fixpoint delete_rows (radio : string) (rows : nat) (curIndex : Z) : M unit :=
  match rows with
  | O => ret tt
  | S rows =>
      do (connected, _) <- snmp radio (cell rsuIFMStatusOid curIndex) SET (mkResponse 6 [] INTEGER);
      if connected then delete_rows radio rows (curIndex + 1) else ret tt
  end.
Definition clearImmediateForwardTable (radio : string) : M unit :=
  do (connected, rep) <- snmp radio maxRsuIFMs GET (mkResponse 0 [] INTEGER);
  if connected then delete_rows radio (Z.to_nat (val_int rep)) 1 else ret tt.
Definition setRSUMode (radio : string) (m : Z) : M unit :=
  do (operational, _) <- snmp radio rsuModeOid SET (mkResponse m [] INTEGER);
  if operational then ret tt else throw (TmxException "Failed to set RSU to operational mode").
(** [retry] is the number of rounds that may follow this one. *)
Fixpoint wait_loop (radio : string) (retry : nat) (interval : Z) (obj : snmp_response_obj) : M unit :=
  do (operational, obj) <- snmp radio rsuModeOid GET obj;
  if operational : bool then
    call (fun w => (tt, sleep interval w)) ;;
    match retry with
    | S retry => if val_int obj =? 2 then ret tt else wait_loop radio retry interval obj
    | O => if val_int obj =? 2 then ret tt else throw (TmxException "Failed to set RSU Mode to Standby(2)")
    end
  else throw (TmxException "Failed to get RSU to operational mode").
Definition waitForRSUModeStandby (radio : string) (retry interval : Z) : M unit :=
  wait_loop radio (Z.to_nat (u32 (retry - 1))) interval (mkResponse 0 [] INTEGER).
Definition row_requests (m : MessageConfig) (psid_digits : string) (ch : Z) (row : Z) (sign : bool) (placeholder : string) : list snmp_request :=
  [mkRequest (cell rsuIFMPsidOid row) "x" psid_digits;
   mkRequest (cell rsuIFMTxChannelOid row) "i" (pretty ch);
   mkRequest (cell rsuIFMPayloadOid row) "x" placeholder;
   mkRequest (cell rsuIFMEnableOid row) "i" "0";
   mkRequest (cell rsuIFMStatusOid row) "i" "4";
   mkRequest (cell rsuIFMPriorityOid row) "i" "6";
   mkRequest (cell rsuIFMOptionsOid row) "x" (if sign then "80" else "00")].
Fixpoint create_rows (radio : string) (ms : list MessageConfig) (sign : bool) (placeholder : string) (curIndex : Z) (index : gmap string Z)
  : M (gmap string Z) :=
  match ms with
  | [] => ret index
  | m :: ms =>
      do digits <- of_sum (getPSIDWithoutPrefix (ForwardConfig.psid m));
      do ch <- value_of (ForwardConfig.channel m);
      do success <- snmp_set radio (row_requests m digits ch curIndex sign placeholder);
      if success : bool then create_rows radio ms sign placeholder (curIndex + 1) (<[sendType m := curIndex]> index)
      else throw (TmxException ("Failed to create IMF row " +:+ pretty curIndex))
  end.
Definition initializeImmediateForwardTable (radio : string) (ms : list MessageConfig) (sign : bool) (placeholder : string) : M (gmap string Z) :=
  create_rows radio ms sign placeholder 1 ∅.
Definition send_requests (message : string) (row : Z) (p : string) (sign : bool) : list snmp_request :=
  [mkRequest (cell rsuIFMPsidOid row) "x" (stripPsidPrefix p);
   mkRequest (cell rsuIFMOptionsOid row) "x" (if sign then "80" else "00");
   mkRequest (cell rsuIFMPayloadOid row) "x" message;
   mkRequest (cell rsuIFMEnableOid row) "i" "1"].
Definition sendNTCIP1218ImfMessage (radio message : string) (row : Z) (p : string) (sign : bool) : M unit :=
  do _ <- snmp_set radio (send_requests message row p sign); ret tt.

(** * The configuration *)
Definition Key_SkippedNoDsrcMetadata : string := "Messages Skipped (No DSRC metadata)".
Definition Key_SkippedNoMessageRoute : string := "Messages Skipped (No route)".
Definition Key_SkippedSignError : string := "Message Skipped (Signature Error Response)".
Definition Key_SkippedInvalidUdpClient : string := "Messages Skipped (Invalid UDP Client)".
Definition Key_SkippedInvalidSpdu : string := "Messages Skipped (Invalid SPDU)".

Definition snmp_of (c : ImfConfiguration) : M snmp_client :=
  do a <- value_of (snmpAuth c);
  do level <- of_sum (securityLevelToString (securityLevel a));
  do ap <- value_of (authProtocol a);
  do app <- value_of (authPassPhrase a);
  do pp <- value_of (privProtocol a);
  do ppp <- value_of (privPassPhrase a);
  do r <- call (snmp_client_new (address c) (port c) (community a) (user a) level ap app pp ppp 3 (default 1000000 (snmpTimeout a)));
  match r with inl what => throw (snmp_client_exception what) | inr client => ret client end.
(** A client is in its map before the radio is prepared. *)
Definition prepare (c : ImfConfiguration) : M unit :=
  match spec c with
  | RSU_4_1 =>
      do client <- UdpClient_new (address c) (port c);
      modify (fun s => set_clients (<[name c := client]> (udpClientMap s)) (snmpClientMap s) (imfNtcipMessageTypeIndex s) s)
  | NTCIP_1218 =>
      do client <- snmp_of c;
      modify (fun s => set_clients (udpClientMap s) (<[name c := client]> (snmpClientMap s)) (imfNtcipMessageTypeIndex s) s) ;;
      setRSUMode (name c) 2 ;;
      waitForRSUModeStandby (name c) 12 5 ;;
      clearImmediateForwardTable (name c) ;;
      do index <- initializeImmediateForwardTable (name c) (messageConfigs c) (signMessage c) (default "FFFF"%string (payloadPlaceholder c));
      modify (fun s => set_clients (udpClientMap s) (snmpClientMap s) (<[name c := index]> (imfNtcipMessageTypeIndex s)) s) ;;
      setRSUMode (name c) 3
  end.
Context {V : Type} `{JsonCpp V}.
Definition UpdateConfigSettings (json : string) : M unit :=
  modify (set_imfConfigs []) ;;
  modify (set_skipped 0 0 0 0 0) ;;
  SetStatus Key_SkippedNoDsrcMetadata 0 ;; SetStatus Key_SkippedNoMessageRoute 0 ;; SetStatus Key_SkippedInvalidUdpClient 0 ;;
  SetStatus Key_SkippedSignError 0 ;; SetStatus Key_SkippedInvalidSpdu 0 ;;
  modify (set_imfConfigs []) ;;
  do cs <- of_sum (parseImmediateForwardConfiguration json);
  modify (set_imfConfigs cs) ;;
  modify (set_clients ∅ ∅ ∅) ;;
  for_each cs prepare ;;
  modify (set_configRead true).

(** * Messages *)
Definition RawSpdu_MessageType : string := "SPDU".
Definition UNKNOWN_SUBTYPE : string := "Unknown".
Definition IsSPDU (msg : IvpMessage) : bool :=
  match msg_type msg with Some t => String.eqb t RawSpdu_MessageType | None => false end.
Definition getRawSpdu (msg : IvpMessage) : string + RawSpdu :=
  match get_payload msg with
  | inl what => inl what
  | inr spdu =>
      match fullByteData spdu with
      | [] => inl "SPDU message contains no fullByteData to forward."%string
      | _ =>
          if String.eqb (messageType spdu) EmptyString || String.eqb (messageType spdu) UNKNOWN_SUBTYPE
          then inl "SPDU message carries an unidentified J2735 payload type."%string
          else inr spdu
      end
  end.
Definition toUpperHex (data : list Z) : string := CJson.string_of (map Hex64.toupper (Hex64.hex_lower data)).
Fixpoint upper (s : string) : string :=
  match s with EmptyString => EmptyString | String c s => String (Text.to_upper c) (upper s) end.

(** [fgets] into a buffer of 2048 characters, each part appended as a text that ends at
    its first zero. *)
Fixpoint read_pipe (room : nat) (hidden : bool) (s : string) : string :=
  match s with
  | EmptyString => EmptyString
  | String c s =>
      let hidden := hidden || Ascii.eqb c zero in
      let rest := if Ascii.eqb c "010" then read_pipe 2047 false s
                  else match room with
                       | O | 1%nat => read_pipe 2047 false s
                       | S room => read_pipe room hidden s
                       end in
      if hidden then rest else String c rest
  end.
Definition quote : string := String "034" EmptyString.
Definition newline : string := String "010" EmptyString.
Definition sign_request (type_text base64 : string) : string :=
  "'{" +:+ quote +:+ "type" +:+ quote +:+ ":" +:+ quote +:+ type_text +:+ quote +:+ "," +:+ quote +:+ "message" +:+ quote +:+ ":" +:+
  quote +:+ base64 +:+ quote +:+ "}'".
Definition sign_command (url request : string) : string :=
  "curl -X POST " +:+ url +:+ "sign" +:+ " -H 'Content-Type: application/json' -d " +:+ request.
(** The answer of the service is not checked to be JSON, nor to have the members read. *)
Definition signed_payload (answer : string) : M string :=
  do root <- deref (CJson.cJSON_Parse (CJson.bytes answer));
  match cJSON_GetObjectItem root "code" with
  | Some st =>
      do message <- deref (cJSON_GetObjectItem root "message");
      do text <- deref (valuestring message);
      throw (TmxException ("Error response from SCMS container HTTP code " +:+ pretty (valueint st) +:+ "!" +:+ newline +:+ text +:+ newline))
  | None =>
      do sd <- deref (cJSON_GetObjectItem root "signedMessage");
      do text <- deref (valuestring sd);
      ret (CJson.string_of (Hex64.base642hex (CJson.bytes text)))
  end.
Definition SignWithHsm (c : ImfConfiguration) (m : MessageConfig) (payload_text : string) : M string :=
  let base64 := CJson.string_of (Hex64.hex2base64 (CJson.bytes payload_text)) in
  do url <- value_of (hsmUrl c);
  do r <- call (run_command (sign_command url (sign_request (Text.to_lower (sendType m)) base64)));
  match r with
  | popen_failed => throw (TmxException "popen() failed!")
  | ran output hasFerror pclose_failed =>
      if pclose_failed then throw (TmxException "pclose() failed!")
      else if hasFerror : bool then throw (TmxException "A stream error occurred while reading from the pipe.")
      else signed_payload (read_pipe 2047 false output)
  end.

Definition rsu41_message (m : MessageConfig) (mode_text : string) (ch : Z) (payloadbyte : string) (sign : bool) : string :=
  "Version=0.7" +:+ newline +:+ "Type=" +:+ sendType m +:+ newline +:+ "PSID=" +:+ ForwardConfig.psid m +:+ newline +:+
  "Priority=7" +:+ newline +:+ "TxMode=" +:+ mode_text +:+ newline +:+ "TxChannel=" +:+ pretty ch +:+ newline +:+
  "TxInterval=0" +:+ newline +:+ "DeliveryStart=" +:+ newline +:+ "DeliveryStop=" +:+ newline +:+
  "Signature=" +:+ (if sign then "True" else "False") +:+ newline +:+ "Encryption=False" +:+ newline +:+ "Payload=" +:+ payloadbyte +:+ newline.
Definition metadata_channel (msg : IvpMessage) : M Z := do d <- deref (dsrcMetadata msg); ret (IvpMsg.channel d).
Definition ConstructMessageRSU_4_1 (c : ImfConfiguration) (m : MessageConfig) (msg : IvpMessage) (payloadbyte : string) (sign : bool) : M string :=
  do mode_text <- of_sum (txModeToString (mode c));
  do ch <- match ForwardConfig.channel m with None => metadata_channel msg | Some ch => ret ch end;
  ret (rsu41_message m mode_text ch payloadbyte sign).
(** The line that is logged after sending takes the channel of the configuration when it
    has none. *)
Definition log_sent (m : MessageConfig) (msg : IvpMessage) : M unit :=
  if debug1 then
    match ForwardConfig.channel m with
    | Some _ => do _ <- metadata_channel msg; ret tt
    | None => do _ <- value_of (ForwardConfig.channel m); ret tt
    end
  else ret tt.

(** [operator[]] of the two maps: what is missing is made, with the row zero. *)
Definition table_row (radio type_text : string) : M Z := fun s =>
  let table := default ∅ (imfNtcipMessageTypeIndex s !! radio) in
  let row := default 0 (table !! type_text) in
  (Ok row, set_clients (udpClientMap s) (snmpClientMap s) (<[radio := <[type_text := row]> table]> (imfNtcipMessageTypeIndex s)) s).
Definition transmit (c : ImfConfiguration) (m : MessageConfig) (msg : IvpMessage) (payloadbyte : string) (sign : bool) : M unit :=
  match spec c with
  | RSU_4_1 =>
      do message <- ConstructMessageRSU_4_1 c m msg payloadbyte sign;
      do clients <- gets udpClientMap;
      match clients !! name c with
      | None => throw out_of_range
      | Some client => Send client message ;; log_sent m msg
      end
  | NTCIP_1218 =>
      do clients <- gets snmpClientMap;
      match clients !! name c with
      | None => throw out_of_range
      | Some _ =>
          do row <- table_row (name c) (sendType m);
          sendNTCIP1218ImfMessage (name c) payloadbyte row (ForwardConfig.psid m) sign ;; log_sent m msg
      end
  end.
Definition try_sign (m : M string) : M (option string) := fun s =>
  match m s with
  | (Ok p, s) => (Ok (Some p), s)
  | (Throw (TmxException _), s) => (Ok None, s)
  | (Throw e, s) => (Throw e, s)
  | (Undefined, s) => (Undefined, s)
  end.
(** One matching message of one radio; the result is whether the function goes on. *)
Definition route (isSpdu : bool) (payload_text : string) (msg : IvpMessage) (c : ImfConfiguration) (m : MessageConfig) : M bool :=
  if isSpdu then transmit c m msg payload_text false ;; ret true
  else if bool_decide (enableHsm c = Some true) then
    do signed <- try_sign (SignWithHsm c m payload_text);
    match signed with
    | Some p => transmit c m msg p (signMessage c) ;; ret true
    | None =>
        modify (fun s => set_skipped (skippedNoDsrcMetadata s) (skippedNoMessageRoute s) (skippedInvalidUdpClient s)
          (u32 (skippedSignErrorResponse s + 1)) (skippedInvalidSpdu s) s) ;;
        do n <- gets skippedSignErrorResponse; SetStatus Key_SkippedSignError n ;; ret false
    end
  else transmit c m msg payload_text (signMessage c) ;; ret true.
(** The loops: [None] when the function has returned. *)
Fixpoint send_messages (isSpdu : bool) (t payload_text : string) (msg : IvpMessage) (c : ImfConfiguration) (ms : list MessageConfig) (found : bool)
  : M (option bool) :=
  match ms with
  | [] => ret (Some found)
  | m :: ms =>
      if negb (String.eqb (tmxType m) t) then send_messages isSpdu t payload_text msg c ms found
      else do more <- route isSpdu payload_text msg c m;
           if more : bool then send_messages isSpdu t payload_text msg c ms true else ret None
  end.
Fixpoint send_configs (isSpdu : bool) (t payload_text : string) (msg : IvpMessage) (cs : list ImfConfiguration) (found : bool) : M (option bool) :=
  match cs with
  | [] => ret (Some found)
  | c :: cs =>
      do r <- send_messages isSpdu t payload_text msg c (messageConfigs c) found;
      match r with Some found => send_configs isSpdu t payload_text msg cs found | None => ret None end
  end.
(** The first message of a type counts as zero. The count is an [int]. *)
Definition count_message (t : string) : M unit :=
  do counts <- gets messageCountMap;
  let n := match counts !! t with Some n => n + 1 | None => 0 end in
  if 2 ^ 31 <=? n then crash
  else
    do time <- call now;
    do throttle <- gets statusThrottle;
    let '(due, throttle) := Throttle.Monitor t time throttle in
    modify (set_counts (<[t := n]> counts) throttle) ;;
    if due then SetStatus t n else ret tt.
Definition forward (isSpdu : bool) (t payload_text : string) (msg : IvpMessage) : M unit :=
  count_message t ;;
  do cs <- gets imfConfigs;
  do r <- send_configs isSpdu t payload_text msg cs false;
  match r with
  | Some false =>
      modify (fun s => set_skipped (skippedNoDsrcMetadata s) (u32 (skippedNoMessageRoute s + 1)) (skippedInvalidUdpClient s)
        (skippedSignErrorResponse s) (skippedInvalidSpdu s) s) ;;
      do n <- gets skippedNoMessageRoute; SetStatus Key_SkippedNoMessageRoute n
  | _ => ret tt
  end.
Definition SendMessageToRadio (msg : IvpMessage) : M unit :=
  if IsSPDU msg then
    match getRawSpdu msg with
    | inl _ =>
        modify (fun s => set_skipped (skippedNoDsrcMetadata s) (skippedNoMessageRoute s) (skippedInvalidUdpClient s)
          (skippedSignErrorResponse s) (u32 (skippedInvalidSpdu s + 1)) s) ;;
        do n <- gets skippedInvalidSpdu; SetStatus Key_SkippedInvalidSpdu n
    | inr spdu => forward true (messageType spdu) (toUpperHex (fullByteData spdu)) msg
    end
  else
    do t <- deref (subtype msg);
    do p <- deref (payload msg);
    do text <- deref (valuestring p);
    forward false t (upper text) msg.
Definition OnMessageReceived (msg : IvpMessage) : M unit :=
  do read <- gets configRead;
  if negb read then ret tt
  else
    match dsrcMetadata msg with
    | None =>
        modify (fun s => set_skipped (u32 (skippedNoDsrcMetadata s + 1)) (skippedNoMessageRoute s) (skippedInvalidUdpClient s)
          (skippedSignErrorResponse s) (skippedInvalidSpdu s) s) ;;
        do n <- gets skippedNoDsrcMetadata; SetStatus Key_SkippedNoDsrcMetadata n
    | Some _ => SendMessageToRadio msg
    end.
Definition OnConfigChanged (registered : bool) (json : string) : M unit := if registered then UpdateConfigSettings json else ret tt.
Definition OnStateChange (registered : bool) (json : string) : M unit := if registered then UpdateConfigSettings json else ret tt.

(** The callbacks of the library catch every exception ([TmxUtils/src/PluginClient.cpp]). *)
Inductive event := ev_config (registered : bool) (json : string) | ev_state (registered : bool) (json : string) | ev_message (msg : IvpMessage).
Definition handle (e : event) : M unit :=
  match e with
  | ev_config r json => OnConfigChanged r json
  | ev_state r json => OnStateChange r json
  | ev_message msg => OnMessageReceived msg
  end.
Definition callback (e : event) (s : Plugin) : option Plugin :=
  match handle e s with
  | (Undefined, _) => None
  | (_, s) => Some s
  end.

(** * Steps that succeed *)
Lemma bindM_Ok {A B} (m : M A) (f : A -> M B) s b s' :
  bindM m f s = (Ok b, s') -> exists a s1, m s = (Ok a, s1) /\ f a s1 = (Ok b, s').
Proof. unfold bindM. destruct (m s) as [[a|e|] s1]; [eauto|done|done]. Qed.
Lemma bindM_fail {A B} (m : M A) (f : A -> M B) s :
  (exists e s1, m s = (Throw e, s1) /\ bindM m f s = (Throw e, s1)) \/
  (exists s1, m s = (Undefined, s1) /\ bindM m f s = (Undefined, s1)) \/
  (exists a s1, m s = (Ok a, s1) /\ bindM m f s = f a s1).
Proof. unfold bindM. destruct (m s) as [[a|e|] s1]; eauto 10. Qed.
Lemma bindM_eq {A B} (m : M A) (f : A -> M B) s a s1 : m s = (Ok a, s1) -> bindM m f s = f a s1.
Proof. unfold bindM. by intros ->. Qed.

Lemma bindM_throw {A B} (m : M A) (f : A -> M B) s e s1 : m s = (Throw e, s1) -> bindM m f s = (Throw e, s1).
Proof. unfold bindM. by intros ->. Qed.
Lemma bindM_undefined {A B} (m : M A) (f : A -> M B) s s1 : m s = (Undefined, s1) -> bindM m f s = (Undefined, s1).
Proof. unfold bindM. by intros ->. Qed.

(** ** What a request to a radio changes *)
Definition touches (radio : string) (s s' : Plugin) : Prop :=
  exists m w, s' = set_world w (set_clients (udpClientMap s) m (imfNtcipMessageTypeIndex s) s) /\
    (forall r, r <> radio -> m !! r = snmpClientMap s !! r) /\
    (forall k, snmpClientMap s !! radio = Some k -> exists k', m !! radio = Some k' /\ ss k' = ss k).
Lemma touches_refl radio s : touches radio s s.
Proof. exists (snmpClientMap s), (world s). split; [by destruct s|]. split; [done|eauto]. Qed.
Lemma touches_trans radio s1 s2 s3 : touches radio s1 s2 -> touches radio s2 s3 -> touches radio s1 s3.
Proof.
  intros (m1 & w1 & -> & H1 & K1) (m2 & w2 & -> & H2 & K2). exists m2, w2. split; [done|]. cbn in *. split.
  - intros r Hr. rewrite H2 by done. by apply H1.
  - intros k Hk. destruct (K1 k Hk) as (k1 & Hk1 & E1). destruct (K2 k1 Hk1) as (k2 & Hk2 & E2). exists k2. split; [done|congruence].
Qed.
Lemma touches_world radio w s : touches radio s (set_world w s).
Proof. exists (snmpClientMap s), w. split; [by destruct s|]. split; [done|eauto]. Qed.

(** Whatever a request does, the client keeps its session data. *)
Definition keeps_session {A} (f : snmp_client -> W -> outcome A * snmp_client * W) : Prop :=
  forall k w, ss (snd (fst (f k w))) = ss k.
Lemma process_snmp_request_ss o rt obj : keeps_session (process_snmp_request o rt obj).
Proof.
  intros k w. unfold process_snmp_request. destruct rt; [| |done]; (destruct (snmp_parse_oid _ _ _) as [[] [array len]]; cbn [negb]; [|done]);
    (destruct (ss_open _); cbn [negb]; [|done]); (destruct (snmp_synch_response _ _ _ _) as [[st response] w1]);
    (destruct (answered _ _); [done|]); by destruct (log_error _ _).
Qed.
Lemma add_requests_ss requests : forall failures vars k, ss (snd (add_requests requests failures vars k)) = ss k.
Proof.
  induction requests as [|r requests IH]; intros failures vars k; cbn [add_requests]; [done|].
  destruct (snmp_parse_oid _ _ _) as [ok [array len]]. by destruct (snmp_add_var _ _ _); rewrite IH.
Qed.
Lemma process_snmp_set_requests_ss requests : keeps_session (process_snmp_set_requests requests).
Proof.
  intros k w. unfold process_snmp_set_requests. pose proof (add_requests_ss requests 0 [] k) as Hs.
  destruct (add_requests requests 0 [] k) as [[f v] k']. cbn [snd] in Hs. destruct (0 <? f); [done|]. destruct (ss_open k'); cbn [negb]; [|done].
  destruct (snmp_synch_response _ _ _ _) as [[st response] w1]. destruct (answered _ _); [done|]. destruct (log_error _ _); [|done]. by destruct response.
Qed.
Lemma with_client_touches {A} radio (f : snmp_client -> W -> outcome A * snmp_client * W) s :
  keeps_session f -> touches radio s (snd (with_client radio f s)).
Proof.
  intros Hf. unfold with_client. destruct (snmpClientMap s !! radio) as [k|] eqn:Ek; [|apply touches_refl].
  pose proof (Hf k (world s)) as Hs. destruct (f k (world s)) as [[r k'] w]. cbn [fst snd] in *.
  exists (<[radio := k']> (snmpClientMap s)), w. split; [done|]. split.
  - intros r' Hr. by rewrite lookup_insert_ne.
  - intros k0 Hk0. rewrite Ek in Hk0. injection Hk0 as <-. exists k'. by rewrite lookup_insert_eq.
Qed.
Lemma snmp_touches radio o rt obj s : touches radio s (snd (snmp radio o rt obj s)).
Proof. apply with_client_touches, process_snmp_request_ss. Qed.
Lemma snmp_set_touches radio requests s : touches radio s (snd (snmp_set radio requests s)).
Proof. apply with_client_touches, process_snmp_set_requests_ss. Qed.

(** Computations that only talk to a radio. *)
Definition talks {A} (radio : string) (m : M A) : Prop := forall s, touches radio s (snd (m s)).
Lemma talks_ret {A} radio (a : A) : talks radio (ret a).
Proof. intros s. apply touches_refl. Qed.
Lemma talks_throw {A} radio e : talks radio (throw (A := A) e).
Proof. intros s. apply touches_refl. Qed.
Lemma talks_bind {A B} radio (m : M A) (f : A -> M B) : talks radio m -> (forall a, talks radio (f a)) -> talks radio (bindM m f).
Proof.
  intros Hm Hf s. specialize (Hm s). unfold bindM. destruct (m s) as [[a|e|] s1]; cbn [snd] in *; [|done|done].
  eapply touches_trans; [exact Hm|apply Hf].
Qed.
Lemma talks_snmp radio o rt obj : talks radio (snmp radio o rt obj).
Proof. intros s. apply snmp_touches. Qed.
Lemma talks_snmp_set radio requests : talks radio (snmp_set radio requests).
Proof. intros s. apply snmp_set_touches. Qed.
Lemma talks_call {A} radio (f : W -> A * W) : talks radio (call f).
Proof. intros s. unfold call. destruct (f (world s)). apply touches_world. Qed.
Lemma talks_of_sum {A} radio (r : exn + A) : talks radio (of_sum r).
Proof. destruct r; [apply talks_throw|apply talks_ret]. Qed.
Lemma talks_value_of {A} radio (r : option A) : talks radio (value_of r).
Proof. destruct r; [apply talks_ret|apply talks_throw]. Qed.
Hint Resolve talks_ret talks_throw talks_bind talks_snmp talks_snmp_set talks_call talks_of_sum talks_value_of : talks.

Lemma talks_setRSUMode radio m : talks radio (setRSUMode radio m).
Proof. apply talks_bind; [apply talks_snmp|]. intros [[] ?]; auto with talks. Qed.
Lemma talks_wait radio interval : forall retry obj, talks radio (wait_loop radio retry interval obj).
Proof.
  induction retry as [|retry IH]; intros obj; (apply talks_bind; [apply talks_snmp|]); (intros [[] ?]; [|auto with talks]);
    (apply talks_bind; [apply talks_call|]); intros _; destruct (_ =? _); auto with talks.
Qed.
Lemma talks_standby radio retry interval : talks radio (waitForRSUModeStandby radio retry interval).
Proof. apply talks_wait. Qed.
Lemma talks_delete radio : forall rows cur, talks radio (delete_rows radio rows cur).
Proof.
  induction rows as [|rows IH]; intros cur; [apply talks_ret|]. apply talks_bind; [apply talks_snmp|]. intros [[] ?]; auto with talks.
Qed.
Lemma talks_clear radio : talks radio (clearImmediateForwardTable radio).
Proof. apply talks_bind; [apply talks_snmp|]. intros [[] ?]; [apply talks_delete|apply talks_ret]. Qed.
Lemma talks_rows radio sign placeholder : forall ms cur index, talks radio (create_rows radio ms sign placeholder cur index).
Proof.
  induction ms as [|m ms IH]; intros cur index; [apply talks_ret|]. apply talks_bind; [apply talks_of_sum|]. intros digits.
  apply talks_bind; [apply talks_value_of|]. intros ch. apply talks_bind; [apply talks_snmp_set|]. intros []; auto with talks.
Qed.

(** ** The table *)
Fixpoint rows (cur : Z) (ms : list MessageConfig) (index : gmap string Z) : gmap string Z :=
  match ms with [] => index | m :: ms => rows (cur + 1) ms (<[sendType m := cur]> index) end.
Definition table (ms : list MessageConfig) : gmap string Z := rows 1 ms ∅.
(** A message goes to the last row with its type. *)
Lemma rows_lookup ms : forall cur index t i, rows cur ms index !! t = Some i <->
  (exists j m, ms !! j = Some m /\ sendType m = t /\ i = cur + Z.of_nat j /\ Forall (fun m' => sendType m' <> t) (drop (S j) ms)) \/
  (Forall (fun m' => sendType m' <> t) ms /\ index !! t = Some i).
Proof.
  induction ms as [|m ms IH]; intros cur index t i; cbn [rows].
  { split; [by right|]. intros [(j & m & Hj & _)|[_ ?]]; [by rewrite lookup_nil in Hj|done]. }
  rewrite IH. split.
  - intros [(j & m' & Hj & Ht & -> & Hl)|[Hf Hi]].
    + left. exists (S j), m'. split_and!; [done|done|lia|done].
    + destruct (decide (sendType m = t)) as [<-|Hne].
      * rewrite lookup_insert_eq in Hi. injection Hi as <-. left. exists 0%nat, m. cbn [drop]. rewrite drop_0. split_and!; [done|done|lia|done].
      * rewrite lookup_insert_ne in Hi by done. right. split; [by constructor|done].
  - intros [(j & m' & Hj & Ht & -> & Hl)|[Hf Hi]].
    + destruct j as [|j].
      * cbn in Hj. injection Hj as ->. right. cbn [drop] in Hl. rewrite drop_0 in Hl. split; [done|]. subst t. rewrite lookup_insert_eq. f_equal. lia.
      * left. exists j, m'. split_and!; [done|done|lia|done].
    + apply Forall_cons in Hf as [Hm Hf]. right. split; [done|]. by rewrite lookup_insert_ne.
Qed.
Lemma create_rows_index radio sign placeholder : forall ms cur index s idx s',
  create_rows radio ms sign placeholder cur index s = (Ok idx, s') -> idx = rows cur ms index.
Proof.
  induction ms as [|m ms IH]; intros cur index s idx s'; cbn [create_rows rows]; [by intros [= <- <-]|].
  intros (digits & s1 & _ & (ch & s2 & _ & (ok & s3 & _ & Hrest)%bindM_Ok)%bindM_Ok)%bindM_Ok. destruct ok; [by eapply IH|done].
Qed.

(** ** A radio that is ready *)
Definition device (c : ImfConfiguration) : string := address c +:+ ":" +:+ pretty (port c).
Definition radio_ready (s : Plugin) (c : ImfConfiguration) : Prop :=
  match spec c with
  | RSU_4_1 => udpClientMap s !! name c = Some (mkUdp (address c) (port c))
  | NTCIP_1218 =>
      (exists k, snmpClientMap s !! name c = Some k /\ fresh k /\ peername (ss k) = device c) /\
      imfNtcipMessageTypeIndex s !! name c = Some (table (messageConfigs c))
  end.

Lemma snmp_true_fresh radio o rt obj s v s' : rt <> OTHER -> snmp radio o rt obj s = (Ok (true, v), s') ->
  exists k, snmpClientMap s' !! radio = Some k /\ fresh k.
Proof.
  intros Hrt. unfold snmp, with_client. destruct (snmpClientMap s !! radio) as [k|]; [|done]. unfold process_snmp_request.
  destruct rt; [| |done]; (destruct (snmp_parse_oid _ _ _) as [[] [array len]]; cbn [negb]; [|done]);
    (destruct (ss_open _) eqn:Ho; cbn [negb]; [|done]); (destruct (snmp_synch_response _ _ _ _) as [[st response] w1]);
    (destruct (answered _ _); [|by destruct (log_error _ _)]); intros [= <- <-]; cbn [snmpClientMap set_world set_clients];
    rewrite lookup_insert_eq; (eexists; split; [done|]); by split.
Qed.
Lemma setRSUMode_fresh radio m s s' : setRSUMode radio m s = (Ok tt, s') -> exists k, snmpClientMap s' !! radio = Some k /\ fresh k.
Proof.
  unfold setRSUMode. intros ([[] v] & s1 & Hs & Hr)%bindM_Ok; [|done]. injection Hr as <-. by eapply snmp_true_fresh; [|exact Hs].
Qed.
Lemma snmp_of_ok c s k s' : snmp_of c s = (Ok k, s') ->
  (exists w, s' = set_world w s) /\ peername (ss k) = device c /\ exists a, snmpAuth c = Some a /\ is_Some (privProtocol a).
Proof.
  unfold snmp_of. intros (a & s1 & Ha & H1)%bindM_Ok. destruct (snmpAuth c) as [a'|]; [|done]. injection Ha as <- <-.
  apply bindM_Ok in H1 as (level & s1 & Hl & H1). destruct (securityLevelToString _); [done|]. injection Hl as <- <-.
  apply bindM_Ok in H1 as (ap & s1 & H2 & H1). destruct (authProtocol a') as [ap'|]; [|done]. injection H2 as <- <-.
  apply bindM_Ok in H1 as (app & s1 & H2 & H1). destruct (authPassPhrase a') as [app'|]; [|done]. injection H2 as <- <-.
  apply bindM_Ok in H1 as (pp & s1 & H2 & H1). destruct (privProtocol a') as [pp'|] eqn:Ep; [|done]. injection H2 as <- <-.
  apply bindM_Ok in H1 as (ppp & s1 & H2 & H1). destruct (privPassPhrase a') as [ppp'|]; [|done]. injection H2 as <- <-.
  apply bindM_Ok in H1 as (r & s1 & H2 & H1). unfold call in H2. destruct (snmp_client_new _ _ _ _ _ _ _ _ _ _ _ _) as [r' w] eqn:En. injection H2 as <- <-.
  destruct r' as [what|k']; [done|]. injection H1 as <- <-. split; [by exists w|]. split; [|by eauto].
  revert En. unfold snmp_client_new. destruct (validate_address _ _) as [valid w1]. destruct valid; cbn [negb]; [|done].
  destruct (auth_config _ _ _) as [|auth]; [done|]. destruct (priv_config _ _ _ _) as [|priv]; [done|].
  destruct (snmp_open _ _) as [opened w2]. destruct opened; cbn [negb]; [|done]. by intros [= <- <-].
Qed.

(** What preparing a radio leaves alone. *)
Definition others_same (n : string) (s s' : Plugin) : Prop :=
  imfConfigs s' = imfConfigs s /\ configRead s' = configRead s /\
  forall r, r <> n -> udpClientMap s' !! r = udpClientMap s !! r /\ snmpClientMap s' !! r = snmpClientMap s !! r /\
    imfNtcipMessageTypeIndex s' !! r = imfNtcipMessageTypeIndex s !! r.
Lemma others_refl n s : others_same n s s.
Proof. by split_and!. Qed.
Lemma others_trans n s1 s2 s3 : others_same n s1 s2 -> others_same n s2 s3 -> others_same n s1 s3.
Proof.
  intros (A1 & B1 & C1) (A2 & B2 & C2). split_and!; [congruence|congruence|]. intros r Hr.
  destruct (C1 r Hr) as (-> & -> & ->) || destruct (C2 r Hr) as (-> & -> & ->). apply C1, Hr.
Qed.
Lemma touches_others n s s' : touches n s s' -> others_same n s s'.
Proof. intros (m & w & -> & Hm & _). split_and!; [done|done|]. intros r Hr. cbn. by rewrite Hm. Qed.
Definition local_to {A} (n : string) (m : M A) : Prop := forall s, others_same n s (snd (m s)).
Lemma local_talks {A} n (m : M A) : talks n m -> local_to n m.
Proof. intros Hm s. apply touches_others, Hm. Qed.
Lemma local_bind {A B} n (m : M A) (f : A -> M B) : local_to n m -> (forall a, local_to n (f a)) -> local_to n (bindM m f).
Proof.
  intros Hm Hf s. specialize (Hm s). unfold bindM. destruct (m s) as [[a|e|] s1]; cbn [snd] in *; [|done|done].
  eapply others_trans; [exact Hm|apply Hf].
Qed.
Lemma talks_snmp_of c n : talks n (snmp_of c).
Proof.
  unfold snmp_of. repeat (apply talks_bind; [auto with talks|intros ?]). match goal with |- talks n (match ?r with _ => _ end) => destruct r end; auto with talks.
Qed.
Lemma local_prepare c : local_to (name c) (prepare c).
Proof.
  unfold prepare. destruct (spec c).
  - apply local_bind.
    + apply local_talks. unfold UdpClient_new. apply talks_bind; [apply talks_call|]. intros []; auto with talks.
    + intros k s. split_and!; [done|done|]. intros r Hr. cbn. by rewrite lookup_insert_ne.
  - apply local_bind; [apply local_talks, talks_snmp_of|]. intros k. apply local_bind.
    { intros s. split_and!; [done|done|]. intros r Hr. cbn. by rewrite lookup_insert_ne. }
    intros _. do 3 (apply local_bind; [apply local_talks; auto using talks_setRSUMode, talks_standby, talks_clear|intros _]).
    apply local_bind; [apply local_talks, talks_rows|]. intros index. apply local_bind; [|intros _; apply local_talks, talks_setRSUMode].
    intros s. split_and!; [done|done|]. intros r Hr. cbn. by rewrite lookup_insert_ne.
Qed.
Lemma prepare_ready c s s' : prepare c s = (Ok tt, s') -> radio_ready s' c.
Proof.
  unfold prepare, radio_ready. destruct (spec c).
  - intros (k & s1 & Hk & Hr)%bindM_Ok. injection Hr as <-. cbn. rewrite lookup_insert_eq. revert Hk. unfold UdpClient_new.
    intros (o & s2 & _ & Hr)%bindM_Ok. destruct o; [|done]. by injection Hr as <- <-.
  - intros (k & s1 & Hk & H1)%bindM_Ok. apply snmp_of_ok in Hk as ([w ->] & Hp & _).
    apply bindM_Ok in H1 as ([] & s2 & H2 & H1). injection H2 as <-.
    apply bindM_Ok in H1 as ([] & s3 & H3 & H1). apply bindM_Ok in H1 as ([] & s4 & H4 & H1). apply bindM_Ok in H1 as ([] & s5 & H5 & H1).
    apply bindM_Ok in H1 as (index & s6 & H6 & H1). apply bindM_Ok in H1 as ([] & s7 & H7 & H8). injection H7 as <-.
    assert (index = table (messageConfigs c)) as -> by by eapply create_rows_index.
    match type of H3 with setRSUMode _ _ ?s2 = _ => set (s2' := s2) in * end.
    assert (snmpClientMap s2' !! name c = Some k) as Hk2 by (cbn; apply lookup_insert_eq).
    pose proof (talks_setRSUMode (name c) 2 s2') as T3. rewrite H3 in T3. pose proof (talks_standby (name c) 12 5 s3) as T4. rewrite H4 in T4.
    pose proof (talks_clear (name c) s4) as T5. rewrite H5 in T5.
    pose proof (talks_rows (name c) (signMessage c) (default "FFFF"%string (payloadPlaceholder c)) (messageConfigs c) 1 ∅ s5) as T6.
    unfold initializeImmediateForwardTable in H6. rewrite H6 in T6. cbn [snd] in *.
    pose proof (touches_trans _ _ _ _ (touches_trans _ _ _ _ T3 T4) (touches_trans _ _ _ _ T5 T6)) as (m & w' & Hs6 & _ & Hkeep).
    destruct (Hkeep k Hk2) as (k6 & Hk6 & Es6). set (s7 := set_clients _ _ _ s6) in *.
    assert (snmpClientMap s7 !! name c = Some k6) as Hk7 by (unfold s7; rewrite Hs6; exact Hk6).
    pose proof (talks_setRSUMode (name c) 3 s7) as T8. rewrite H8 in T8. cbn [snd] in T8. destruct T8 as (m8 & w8 & -> & _ & Hkeep8).
    destruct (Hkeep8 k6 Hk7) as (k8 & Hk8 & Es8). apply setRSUMode_fresh in H8 as (k9 & Hk9 & Hf). cbn in Hk9. split.
    + exists k9. split; [done|]. split; [done|]. rewrite Hk8 in Hk9. injection Hk9 as <-. by rewrite Es8, Es6.
    + cbn. apply lookup_insert_eq.
Qed.

Definition same_at (r : string) (s s' : Plugin) : Prop :=
  udpClientMap s' !! r = udpClientMap s !! r /\ snmpClientMap s' !! r = snmpClientMap s !! r /\
  imfNtcipMessageTypeIndex s' !! r = imfNtcipMessageTypeIndex s !! r.
Lemma ready_same s s' c : same_at (name c) s s' -> radio_ready s c -> radio_ready s' c.
Proof. intros (H1 & H2 & H3). unfold radio_ready. destruct (spec c); [by rewrite H1|by rewrite H2, H3]. Qed.
Lemma prepare_all_same cs : forall s r, r ∉ name <$> cs -> same_at r s (snd (for_each cs prepare s)).
Proof.
  induction cs as [|c cs IH]; intros s r Hr; [done|]. cbn [for_each]. apply not_elem_of_cons in Hr as [Hc Hr].
  pose proof (local_prepare c s) as (_ & _ & Hl). specialize (Hl r Hc). unfold bindM. destruct (prepare c s) as [[[]|e|] s1]; cbn [snd] in *; [|done|done].
  destruct (IH s1 r Hr) as (I1 & I2 & I3), Hl as (L1 & L2 & L3). split_and!; congruence.
Qed.
Lemma prepare_all_configs cs : forall s, imfConfigs (snd (for_each cs prepare s)) = imfConfigs s /\ configRead (snd (for_each cs prepare s)) = configRead s.
Proof.
  induction cs as [|c cs IH]; intros s; [done|]. cbn [for_each]. pose proof (local_prepare c s) as (H1 & H2 & _). unfold bindM.
  destruct (prepare c s) as [[[]|e|] s1]; cbn [snd] in *; [|done|done]. destruct (IH s1) as [-> ->]. done.
Qed.
Lemma prepare_all_ready cs : forall s s', NoDup (name <$> cs) -> for_each cs prepare s = (Ok tt, s') -> Forall (radio_ready s') cs.
Proof.
  induction cs as [|c cs IH]; intros s s' Hn; [constructor|]. cbn [for_each]. intros ([] & s1 & Hc & Hcs)%bindM_Ok.
  rewrite fmap_cons in Hn. apply NoDup_cons in Hn as [Hnew Hn]. constructor; [|by eapply IH].
  eapply ready_same; [|by eapply prepare_ready]. pose proof (prepare_all_same cs s1 (name c) Hnew) as Hs. by rewrite Hcs in Hs.
Qed.

(** The state in which the radios are prepared. *)
Definition cleared (cs : list ImfConfiguration) (s : Plugin) : Plugin :=
  set_clients ∅ ∅ ∅ (set_imfConfigs cs (set_statuses (statuses s ++ [(Key_SkippedNoDsrcMetadata, 0); (Key_SkippedNoMessageRoute, 0);
    (Key_SkippedInvalidUdpClient, 0); (Key_SkippedSignError, 0); (Key_SkippedInvalidSpdu, 0)]) (set_skipped 0 0 0 0 0 s))).
Lemma step_modify {B} (g : Plugin -> Plugin) (f : unit -> M B) s : bindM (modify g) f s = f tt (g s).
Proof. done. Qed.
Lemma step_ret {A B} (a : A) (f : A -> M B) s : bindM (ret a) f s = f a s.
Proof. done. Qed.
Lemma step_status {B} k v (f : unit -> M B) l s : bindM (SetStatus k v) f (set_statuses l s) = f tt (set_statuses (l ++ [(k, v)]) s).
Proof. done. Qed.
Lemma step_skipped s : set_skipped 0 0 0 0 0 (set_imfConfigs [] s) = set_statuses (statuses s) (set_skipped 0 0 0 0 0 (set_imfConfigs [] s)).
Proof. by destruct s. Qed.
Lemma update_parsed json cs s : parseImmediateForwardConfiguration json = inr cs ->
  UpdateConfigSettings json s = bindM (for_each cs prepare) (fun _ => modify (set_configRead true)) (cleared cs s).
Proof.
  intros Hp. unfold UpdateConfigSettings. rewrite Hp. cbn [of_sum]. rewrite !step_modify, step_skipped, !step_status, step_modify, step_ret, !step_modify.
  f_equal. unfold cleared. rewrite <-!app_assoc. by destruct s.
Qed.
Lemma update_ok json s s' : UpdateConfigSettings json s = (Ok tt, s') ->
  exists cs s1, parseImmediateForwardConfiguration json = inr cs /\ for_each cs prepare (cleared cs s) = (Ok tt, s1) /\ s' = set_configRead true s1.
Proof.
  destruct (parseImmediateForwardConfiguration json) as [e|cs] eqn:Hp.
  - unfold UpdateConfigSettings. rewrite Hp. by rewrite !step_modify, step_skipped, !step_status, step_modify.
  - rewrite (update_parsed json cs s Hp). intros ([] & s1 & H1 & H2)%bindM_Ok. injection H2 as <-. eauto.
Qed.

(** An update of the configuration that returns leaves every radio ready: with a
    connection to its address, and for SNMP an open session and a table in which a
    message type has the last row made for it. *)
Theorem update_configures json s s' : UpdateConfigSettings json s = (Ok tt, s') -> NoDup (name <$> imfConfigs s') ->
  parseImmediateForwardConfiguration json = inr (imfConfigs s') /\ configRead s' = true /\ Forall (radio_ready s') (imfConfigs s').
Proof.
  intros (cs & s1 & Hp & Hr & ->)%update_ok Hn. pose proof (prepare_all_configs cs (cleared cs s)) as [Hc _]. rewrite Hr in Hc. cbn in Hc, Hn |- *.
  rewrite Hc in *. split; [done|]. split; [done|]. exact (prepare_all_ready cs _ _ Hn Hr).
Qed.

(** ** Routes *)
Definition routes (t : string) (cs : list ImfConfiguration) : list (ImfConfiguration * MessageConfig) :=
  cs ≫= (fun c => map (pair c) (List.filter (fun m => String.eqb (tmxType m) t) (messageConfigs c))).
Fixpoint route_loop (isSpdu : bool) (payload_text : string) (msg : IvpMessage) (rs : list (ImfConfiguration * MessageConfig)) (found : bool) : M (option bool) :=
  match rs with
  | [] => ret (Some found)
  | (c, m) :: rs =>
      do more <- route isSpdu payload_text msg c m;
      if more : bool then route_loop isSpdu payload_text msg rs true else ret None
  end.
Lemma route_loop_app isSpdu p msg rs1 rs2 : forall found s,
  route_loop isSpdu p msg (rs1 ++ rs2) found s =
  bindM (route_loop isSpdu p msg rs1 found) (fun r => match r with Some f => route_loop isSpdu p msg rs2 f | None => ret None end) s.
Proof.
  induction rs1 as [|[c m] rs1 IH]; intros found s; [done|]. cbn [app route_loop]. unfold bindM at 1 2 3.
  destruct (route isSpdu p msg c m s) as [[[]|e|] s1]; [|done|done|done]. apply IH.
Qed.
Lemma send_messages_routes isSpdu t p msg c ms : forall found s,
  send_messages isSpdu t p msg c ms found s = route_loop isSpdu p msg (map (pair c) (List.filter (fun m => String.eqb (tmxType m) t) ms)) found s.
Proof.
  induction ms as [|m ms IH]; intros found s; [done|]. cbn [send_messages List.filter]. destruct (String.eqb (tmxType m) t); cbn [negb]; [|apply IH].
  cbn [map route_loop]. unfold bindM. destruct (route isSpdu p msg c m s) as [[[]|e|] s1]; [apply IH|done..].
Qed.
Lemma send_configs_routes isSpdu t p msg cs : forall found s,
  send_configs isSpdu t p msg cs found s = route_loop isSpdu p msg (routes t cs) found s.
Proof.
  induction cs as [|c cs IH]; intros found s; [done|]. cbn [send_configs]. unfold routes. rewrite bind_cons, route_loop_app. unfold bindM.
  rewrite send_messages_routes. destruct (route_loop _ _ _ _ _ s) as [[[f|]|e|] s1]; [apply IH|done..].
Qed.

(** ** Identifiers of the table *)
Lemma split_on_append sep a b : split_on sep (a +:+ String sep b) = split_on sep a ++ split_on sep b.
Proof.
  induction a as [|c a IH].
  { change (EmptyString +:+ String sep b) with (String sep b). cbn [split_on]. by rewrite Ascii.eqb_refl. }
  rewrite string_app_cons. cbn [split_on].
  destruct (Ascii.eqb c sep); [by rewrite IH|]. rewrite IH. pose proof (split_on_nonempty sep a). by destruct (split_on sep a).
Qed.
Definition columns : list string :=
  [rsuIFMPsidOid; rsuIFMTxChannelOid; rsuIFMEnableOid; rsuIFMStatusOid; rsuIFMPriorityOid; rsuIFMOptionsOid; rsuIFMPayloadOid].
Lemma cell_identifier column row : column ∈ columns -> 0 <= row < 2 ^ 32 ->
  numeric (cell column row) = true /\ oid_size (cell column row) = 15.
Proof.
  intros Hc Hr. assert (numeric column = true /\ oid_size column = 14) as [Hn Hs].
  { unfold columns in Hc. repeat (apply elem_of_cons in Hc as [->|Hc]; [by vm_compute|]). by apply elem_of_nil in Hc. }
  destruct (pretty_digits row ltac:(lia)) as (Hd & Hne & Hv).
  assert (components (cell column row) = components column ++ [pretty row]) as Hcomp.
  { unfold components, cell. change (column +:+ "." +:+ pretty row) with (column +:+ String "." (pretty row)). rewrite split_on_append.
    rewrite (split_on_last _ (pretty row)); [done|]. by apply pretty_free. }
  unfold numeric, oid_size in *. rewrite Hcomp. split.
  - rewrite forallb_app, Hn. cbn [forallb]. rewrite Hd. specialize (Hv EmptyString). rewrite string_app_nil in Hv. rewrite Hv. cbn [digits fst].
    rewrite (proj2 (Z.ltb_lt _ _)) by lia. destruct (String.eqb_spec (pretty row) ""); [done|reflexivity].
  - rewrite length_app. cbn [length]. lia.
Qed.

(** ** Serving a route *)
Definition carries (msg : IvpMessage) (isSpdu : bool) (t p : string) : Prop :=
  if isSpdu then IsSPDU msg = true /\ exists spdu, getRawSpdu msg = inr spdu /\ t = messageType spdu /\ p = toUpperHex (fullByteData spdu)
  else IsSPDU msg = false /\ subtype msg = Some t /\ exists j text, payload msg = Some j /\ valuestring j = Some text /\ p = upper text.
Definition asks_signature (isSpdu : bool) (c : ImfConfiguration) : bool := if isSpdu then false else signMessage c.
Definition row_for (c : ImfConfiguration) (m : MessageConfig) : Z := default 0 (table (messageConfigs c) !! sendType m).
Definition table_requests (isSpdu : bool) (p : string) (c : ImfConfiguration) (m : MessageConfig) : list snmp_request :=
  send_requests p (row_for c m) (ForwardConfig.psid m) (asks_signature isSpdu c).
Definition mode_text (m : TxMode) : string := match m with CONT => "CONT" | ALT => "ALT" end.
(** What the radio of a route is sent, in a state in which it is ready. *)
Definition serve (s : Plugin) (isSpdu : bool) (p : string) (w : W) (r : ImfConfiguration * MessageConfig) : W :=
  let '(c, m) := r in
  match spec c with
  | RSU_4_1 =>
      udp_send (address c) (port c) (rsu41_message m (mode_text (mode c)) (default 183 (ForwardConfig.channel m)) p (asks_signature isSpdu c)) w
  | NTCIP_1218 =>
      match snmpClientMap s !! name c with
      | Some k => snd (snmp_synch_response (ss k) SET (map request_of (table_requests isSpdu p c m)) w)
      | None => w
      end
  end.
(** What the service makes of a message, from the answer to the command: the signed
    message, a refusal, or something that is not defined. *)
Definition read_answer (answer : string) : option (option string) :=
  match CJson.cJSON_Parse (CJson.bytes answer) with
  | None => None
  | Some root =>
      match cJSON_GetObjectItem root "code" with
      | Some _ => match cJSON_GetObjectItem root "message" ≫= valuestring with Some _ => Some None | None => None end
      | None =>
          (fun text => Some (CJson.string_of (Hex64.base642hex (CJson.bytes text)))) <$>
            (cJSON_GetObjectItem root "signedMessage" ≫= valuestring)
      end
  end.
Definition signing (c : ImfConfiguration) (m : MessageConfig) (p : string) (w : W) : option (option string) * W :=
  match hsmUrl c with
  | None => (None, w)
  | Some url =>
      let base64 := CJson.string_of (Hex64.hex2base64 (CJson.bytes p)) in
      let '(r, w) := run_command (sign_command url (sign_request (Text.to_lower (sendType m)) base64)) w in
      (match r with
       | popen_failed => Some None
       | ran output hasFerror pclose_failed =>
           if pclose_failed || hasFerror then Some None else read_answer (read_pipe 2047 false output)
       end, w)
  end.
Definition signs (isSpdu : bool) (c : ImfConfiguration) : bool := negb isSpdu && bool_decide (enableHsm c = Some true).
(** The values for a route are ones that the SNMP library accepts. *)
Definition servable (isSpdu : bool) (p : string) (r : ImfConfiguration * MessageConfig) : Prop :=
  let '(c, m) := r in
  is_Some (ForwardConfig.channel m) /\
  (spec c = NTCIP_1218 -> Z.of_nat (length (messageConfigs c)) < 2 ^ 32 /\
    Forall (fun q => snmp_add_var (oid_numbers (oid q)) (rtype q) (Snmp.value q) = true) (table_requests isSpdu p c m)).
(** The routes are served one after the other, with the message of the service where one
    signs, up to the first that the service refuses to sign for: the world after that, and
    whether all were served. *)
Inductive delivered (s : Plugin) (isSpdu : bool) (p : string) : W -> list (ImfConfiguration * MessageConfig) -> W -> bool -> Prop :=
| delivered_all w : delivered s isSpdu p w [] w true
| delivered_plain c m rs w w' all : signs isSpdu c = false -> servable isSpdu p (c, m) ->
    delivered s isSpdu p (serve s isSpdu p w (c, m)) rs w' all -> delivered s isSpdu p w ((c, m) :: rs) w' all
| delivered_signed c m rs p' w w1 w' all : signs isSpdu c = true -> signing c m p w = (Some (Some p'), w1) -> servable isSpdu p' (c, m) ->
    delivered s isSpdu p (serve s isSpdu p' w1 (c, m)) rs w' all -> delivered s isSpdu p w ((c, m) :: rs) w' all
| delivered_refused c m rs w w1 : signs isSpdu c = true -> signing c m p w = (Some None, w1) ->
    delivered s isSpdu p w ((c, m) :: rs) w1 false.

(** What sending leaves alone. *)
Definition quiet (s s' : Plugin) : Prop :=
  imfConfigs s' = imfConfigs s /\ configRead s' = configRead s /\ skippedSignErrorResponse s' = skippedSignErrorResponse s /\
  skippedNoMessageRoute s' = skippedNoMessageRoute s /\
  (forall c, radio_ready s c -> radio_ready s' c) /\
  (forall n k, snmpClientMap s !! n = Some k -> exists k', snmpClientMap s' !! n = Some k' /\ ss k' = ss k).
Lemma quiet_world w s : quiet s (set_world w s).
Proof. split_and!; [done..|eauto]. Qed.
Lemma quiet_trans s1 s2 s3 : quiet s1 s2 -> quiet s2 s3 -> quiet s1 s3.
Proof.
  intros (A1 & B1 & C1 & D1 & E1 & F1) (A2 & B2 & C2 & D2 & E2 & F2). split_and!; [congruence..|eauto|].
  intros n k Hk. destruct (F1 n k Hk) as (k1 & Hk1 & Es1). destruct (F2 n k1 Hk1) as (k2 & Hk2 & Es2). exists k2. split; [done|congruence].
Qed.

Lemma rows_some ms t : forall cur index, Exists (fun m => sendType m = t) ms \/ is_Some (index !! t) -> is_Some (rows cur ms index !! t).
Proof.
  induction ms as [|m ms IH]; intros cur index Ht; cbn [rows]; [destruct Ht as [Ht|]; [by apply Exists_nil in Ht|done]|].
  apply IH. destruct (decide (sendType m = t)) as [<-|Hne]; [right; rewrite lookup_insert_eq; eauto|].
  rewrite lookup_insert_ne by done. destruct Ht as [Ht|]; [|by right]. apply Exists_cons in Ht as [?|?]; [done|by left].
Qed.
Lemma row_present c m : m ∈ messageConfigs c -> exists i, table (messageConfigs c) !! sendType m = Some i /\ 1 <= i <= Z.of_nat (length (messageConfigs c)).
Proof.
  intros Hm. destruct (rows_some (messageConfigs c) (sendType m) 1 ∅) as [i E]; [left; apply Exists_exists; eauto|].
  exists i. split; [done|]. apply rows_lookup in E as [(j & m' & Hj & _ & -> & _)|[_ E]]; [|by rewrite lookup_empty in E].
  apply lookup_lt_Some in Hj. lia.
Qed.

Lemma transmit_rsu41 c m msg p sign s ch d : spec c = RSU_4_1 -> radio_ready s c -> ForwardConfig.channel m = Some ch -> dsrcMetadata msg = Some d ->
  transmit c m msg p sign s =
  (Ok tt, set_world (udp_send (address c) (port c) (rsu41_message m (mode_text (mode c)) ch p sign) (world s)) s).
Proof.
  intros Hs Hr Hc Hd. unfold radio_ready in Hr. rewrite Hs in Hr. unfold transmit. rewrite Hs. unfold ConstructMessageRSU_4_1, log_sent, metadata_channel. rewrite Hc, Hd.
  assert (txModeToString (mode c) = inr (mode_text (mode c))) as -> by (by destruct (mode c)).
  unfold bindM at 1 2 3. cbn [of_sum ret]. unfold bindM at 1, gets. rewrite Hr. unfold bindM. by destruct debug1.
Qed.
Lemma table_row_present radio index i t s : imfNtcipMessageTypeIndex s !! radio = Some index -> index !! t = Some i -> table_row radio t s = (Ok i, s).
Proof.
  intros Hi Ht. unfold table_row. rewrite Hi. cbn [default id]. rewrite Ht. cbn [default id]. rewrite (insert_id index t i) by exact Ht. rewrite (insert_id _ radio index) by exact Hi. by destruct s.
Qed.
Lemma send_requests_form p row q sign : 0 <= row < 2 ^ 32 ->
  Forall (fun r => numeric (oid r) = true) (send_requests p row q sign) /\ fitting MAX_OID_LEN (send_requests p row q sign).
Proof.
  intros Hrow. assert (forall column, column ∈ columns -> numeric (cell column row) = true /\ oid_size (cell column row) = 15) as Hc by (intros; by apply cell_identifier).
  assert (numeric (cell rsuIFMPsidOid row) = true /\ oid_size (cell rsuIFMPsidOid row) = 15) as [P1 P2] by (apply Hc; set_solver).
  assert (numeric (cell rsuIFMOptionsOid row) = true /\ oid_size (cell rsuIFMOptionsOid row) = 15) as [O1 O2] by (apply Hc; set_solver).
  assert (numeric (cell rsuIFMPayloadOid row) = true /\ oid_size (cell rsuIFMPayloadOid row) = 15) as [L1 L2] by (apply Hc; set_solver).
  assert (numeric (cell rsuIFMEnableOid row) = true /\ oid_size (cell rsuIFMEnableOid row) = 15) as [E1 E2] by (apply Hc; set_solver).
  unfold send_requests, MAX_OID_LEN. split; [by repeat constructor|]. cbn [fitting oid]. rewrite P2, O2, L2, E2. lia.
Qed.
Lemma snmp_set_answered radio requests k s : responsive -> snmpClientMap s !! radio = Some k -> fresh k ->
  Forall well_formed requests -> fitting MAX_OID_LEN requests ->
  exists k', snmp_set radio requests s =
    (Ok true, set_world (snd (snmp_synch_response (ss k) SET (map request_of requests) (world s)))
      (set_clients (udpClientMap s) (<[radio := k']> (snmpClientMap s)) (imfNtcipMessageTypeIndex s) s)) /\ fresh k' /\ ss k' = ss k.
Proof.
  intros Hr Hk Hf Hw Hfit. unfold snmp_set, with_client. rewrite Hk.
  destruct (run_op_acceptable (op_set requests) k (world s) Hr (conj Hw Hfit) Hf) as (k' & w' & Hrun & Hf' & Hs'). cbn [run_op] in Hrun. rewrite Hrun.
  exists k'. split; [|done]. destruct Hf as [Ho Hl]. destruct (set_requests_sent_iff requests k (world s) Hw Ho) as [[_ Hsnd]|[Hno _]].
  - rewrite Hrun in Hsnd. cbn [snd] in Hsnd. by rewrite <-Hsnd.
  - exfalso. apply Hno. by rewrite Hl.
Qed.
Lemma transmit_ntcip c m msg p sign s d k : responsive -> spec c = NTCIP_1218 -> radio_ready s c -> m ∈ messageConfigs c ->
  is_Some (ForwardConfig.channel m) -> dsrcMetadata msg = Some d -> Z.of_nat (length (messageConfigs c)) < 2 ^ 32 -> snmpClientMap s !! name c = Some k ->
  Forall (fun q => snmp_add_var (oid_numbers (oid q)) (rtype q) (Snmp.value q) = true) (send_requests p (row_for c m) (ForwardConfig.psid m) sign) ->
  exists k', transmit c m msg p sign s =
    (Ok tt, set_world (snd (snmp_synch_response (ss k) SET (map request_of (send_requests p (row_for c m) (ForwardConfig.psid m) sign)) (world s)))
      (set_clients (udpClientMap s) (<[name c := k']> (snmpClientMap s)) (imfNtcipMessageTypeIndex s) s)) /\ fresh k' /\ ss k' = ss k.
Proof.
  intros Hresp Hs Hr Hm [ch Hc] Hd Hlen Hk Hadd. unfold radio_ready in Hr. rewrite Hs in Hr. destruct Hr as [(k0 & Hk0 & Hfresh & _) Hindex].
  rewrite Hk in Hk0. injection Hk0 as <-. destruct (row_present c m Hm) as (i & Hi & Hrange).
  assert (row_for c m = i) as Hrow by (unfold row_for; by rewrite Hi). rewrite Hrow in *.
  destruct (send_requests_form p i (ForwardConfig.psid m) sign ltac:(lia)) as [Hnum Hfit].
  destruct (snmp_set_answered (name c) (send_requests p i (ForwardConfig.psid m) sign) k s Hresp Hk Hfresh) as (k' & Hset & Hf' & Hs'); [|done|].
  { rewrite Forall_forall in Hnum, Hadd |- *. intros r Hr. split; auto. }
  exists k'. split; [|done]. unfold transmit. rewrite Hs. unfold bindM at 1, gets. rewrite Hk.
  rewrite (bindM_eq _ _ _ _ _ (table_row_present _ _ _ _ _ Hindex Hi)). unfold sendNTCIP1218ImfMessage, bindM. rewrite Hset. cbn [ret].
  unfold log_sent, metadata_channel. rewrite Hc, Hd. by destruct debug1.
Qed.
Lemma quiet_client c k k' w s : snmpClientMap s !! name c = Some k -> fresh k' -> ss k' = ss k ->
  quiet s (set_world w (set_clients (udpClientMap s) (<[name c := k']> (snmpClientMap s)) (imfNtcipMessageTypeIndex s) s)).
Proof.
  intros Hk Hf Hs. split_and!; [done..| |].
  - intros c'. unfold radio_ready. cbn. destruct (spec c'); [done|]. intros [(k0 & Hk0 & Hf0 & Hp0) Hi]. split; [|done].
    destruct (decide (name c' = name c)) as [E|E].
    + rewrite E in *. rewrite Hk in Hk0. injection Hk0 as <-. exists k'. rewrite lookup_insert_eq. split_and!; [done|done|by rewrite Hs].
    + exists k0. by rewrite lookup_insert_ne.
  - intros n k0 Hk0. cbn. destruct (decide (n = name c)) as [->|E].
    + rewrite Hk in Hk0. injection Hk0 as <-. exists k'. by rewrite lookup_insert_eq.
    + exists k0. by rewrite lookup_insert_ne.
Qed.
Lemma serve_quiet s s' isSpdu p w r : quiet s s' -> radio_ready s (fst r) -> serve s' isSpdu p w r = serve s isSpdu p w r.
Proof.
  intros (_ & _ & _ & _ & _ & Hk) Hr. destruct r as [c m]. cbn [serve fst] in *. unfold radio_ready in Hr. destruct (spec c); [done|].
  destruct Hr as [(k & E & _) _]. rewrite E. destruct (Hk _ _ E) as (k' & -> & ->). done.
Qed.

Lemma transmit_served isSpdu p msg c m s d : responsive -> dsrcMetadata msg = Some d -> radio_ready s c -> m ∈ messageConfigs c ->
  servable isSpdu p (c, m) ->
  exists s', transmit c m msg p (asks_signature isSpdu c) s = (Ok tt, s') /\ quiet s s' /\ world s' = serve s isSpdu p (world s) (c, m).
Proof.
  intros Hresp Hd Hr Hm ([ch Hc] & Hn). cbn [serve]. destruct (spec c) eqn:Es.
  - rewrite (transmit_rsu41 c m msg p _ s ch d Es Hr Hc Hd), Hc. eexists. split; [done|]. split; [apply quiet_world|done].
  - destruct (Hn eq_refl) as [Hlen Hadd]. pose proof Hr as Hr'. unfold radio_ready in Hr'. rewrite Es in Hr'. destruct Hr' as [(k & Hk & _) _].
    destruct (transmit_ntcip c m msg p (asks_signature isSpdu c) s d k Hresp Es Hr Hm ltac:(by eexists) Hd Hlen Hk Hadd) as (k' & Ht & Hf & Hs).
    rewrite Ht, Hk. eexists. split; [done|]. split; [by eapply quiet_client|done].
Qed.
Lemma signed_payload_answer answer o s : read_answer answer = Some o -> try_sign (signed_payload answer) s = (Ok o, s).
Proof.
  unfold read_answer, try_sign, signed_payload, bindM, deref. destruct (CJson.cJSON_Parse _) as [root|]; [|done]. cbn [ret].
  destruct (cJSON_GetObjectItem root "code") as [st|].
  - destruct (cJSON_GetObjectItem root "message") as [j|]; [|done]. cbn [ret mbind option_bind].
    destruct (valuestring j); [|done]. by intros [= <-].
  - destruct (cJSON_GetObjectItem root "signedMessage") as [j|]; [|done]. cbn [ret mbind option_bind].
    destruct (valuestring j); [|done]. by intros [= <-].
Qed.
Lemma sign_outcome c m p o w1 s : signing c m p (world s) = (Some o, w1) ->
  try_sign (SignWithHsm c m p) s = (Ok o, set_world w1 s).
Proof.
  unfold signing, SignWithHsm. destruct (hsmUrl c) as [url|]; [|done]. unfold value_of, call, try_sign, bindM, ret. cbn beta iota zeta.
  destruct (run_command _ (world s)) as [r w]. intros [= Hr <-]. destruct r as [|output ferr pfail]; [by injection Hr as <-|].
  destruct pfail; [by injection Hr as <-|]. destruct ferr; [by injection Hr as <-|]. cbn [orb] in Hr.
  pose proof (signed_payload_answer _ _ (set_world w s) Hr) as H1. unfold try_sign in H1. exact H1.
Qed.
Lemma quiet_serve s s1 isSpdu p c m w : quiet s s1 -> radio_ready s c -> serve s1 isSpdu p w (c, m) = serve s isSpdu p w (c, m).
Proof. intros Hq Hr. by apply serve_quiet. Qed.

Lemma loop_served isSpdu p msg d s0 w rs w' all : responsive -> dsrcMetadata msg = Some d -> delivered s0 isSpdu p w rs w' all ->
  forall s found, quiet s0 s -> world s = w -> Forall (fun r => radio_ready s0 (fst r) /\ snd r ∈ messageConfigs (fst r)) rs ->
  exists s', route_loop isSpdu p msg rs found s = (Ok (if all then Some (match rs with [] => found | _ => true end) else None), s') /\
    world s' = w' /\ skippedNoMessageRoute s' = skippedNoMessageRoute s0 /\ imfConfigs s' = imfConfigs s0 /\ configRead s' = configRead s0 /\
    (forall c, radio_ready s0 c -> radio_ready s' c) /\
    skippedSignErrorResponse s' = if all then skippedSignErrorResponse s0 else u32 (skippedSignErrorResponse s0 + 1).
Proof.
  intros Hresp Hd. induction 1 as [w|c m rs w w' all Hsg Hsv Hdel IH|c m rs p' w w1 w' all Hsg Hsign Hsv Hdel IH|c m rs w w1 Hsg Hsign];
    intros s found Hq Hw Hrs; cbn [route_loop].
  1: { exists s. destruct Hq as (Q1 & Q2 & Q3 & Q4 & Q5 & Q6). by rewrite Q1, Q2, Q3, Q4. }
  all: apply Forall_cons in Hrs as [(Hr0 & Hm) Hrs]; cbn [fst snd] in Hr0, Hm.
  all: assert (radio_ready s c) as Hr by (destruct Hq as (_ & _ & _ & _ & Hready & _); auto).
  - destruct (transmit_served isSpdu p msg c m s d Hresp Hd Hr Hm Hsv) as (s1 & H1 & Hq1 & Hw1).
    assert (route isSpdu p msg c m s = (Ok true, s1)) as Hroute.
    { unfold route, signs, asks_signature in *. destruct isSpdu; [by rewrite (bindM_eq _ _ _ _ _ H1)|]. cbn [negb andb] in Hsg.
      apply bool_decide_eq_false in Hsg. rewrite bool_decide_eq_false_2 by done. by rewrite (bindM_eq _ _ _ _ _ H1). }
    rewrite (bindM_eq _ _ _ _ _ Hroute). destruct (IH s1 true) as (s2 & H2 & Hrest).
    + by eapply quiet_trans.
    + rewrite Hw1, Hw. by apply quiet_serve.
    + done.
    + exists s2. rewrite H2. split; [by destruct rs|done].
  - assert (isSpdu = false /\ enableHsm c = Some true) as [-> Hen].
    { unfold signs in Hsg. rewrite andb_true_iff, negb_true_iff, bool_decide_eq_true in Hsg. done. }
    rewrite <-Hw in Hsign. pose proof (sign_outcome c m p _ w1 s Hsign) as H1.
    assert (quiet s0 (set_world w1 s)) as Hq' by (eapply quiet_trans; [exact Hq|apply quiet_world]).
    destruct (transmit_served false p' msg c m (set_world w1 s) d Hresp Hd) as (s1 & H2 & Hq1 & Hw1); [|done|done|].
    { destruct Hq' as (_ & _ & _ & _ & Hready & _). auto. }
    assert (route false p msg c m s = (Ok true, s1)) as Hroute.
    { unfold route. rewrite bool_decide_eq_true_2 by done. rewrite (bindM_eq _ _ _ _ _ H1). cbn [asks_signature] in H2.
      by rewrite (bindM_eq _ _ _ _ _ H2). }
    rewrite (bindM_eq _ _ _ _ _ Hroute). destruct (IH s1 true) as (s2 & H3 & Hrest).
    + by eapply quiet_trans.
    + rewrite Hw1. by apply quiet_serve.
    + done.
    + exists s2. rewrite H3. split; [by destruct rs|done].
  - assert (isSpdu = false /\ enableHsm c = Some true) as [-> Hen].
    { unfold signs in Hsg. rewrite andb_true_iff, negb_true_iff, bool_decide_eq_true in Hsg. done. }
    rewrite <-Hw in Hsign. pose proof (sign_outcome c m p _ w1 s Hsign) as H1.
    destruct Hq as (Q1 & Q2 & Q3 & Q4 & Q5 & Q6).
    eexists. split; [|split_and!; [..|]].
    + unfold bindM at 1. unfold route. rewrite bool_decide_eq_true_2 by done. rewrite (bindM_eq _ _ _ _ _ H1). reflexivity.
    + done.
    + exact Q4.
    + exact Q1.
    + exact Q2.
    + intros c' Hc'. by apply Q5 in Hc'.
    + cbn. by rewrite Q3.
Qed.
Lemma routes_in t cs c m : (c, m) ∈ routes t cs -> c ∈ cs /\ m ∈ messageConfigs c /\ tmxType m = t.
Proof.
  unfold routes. intros (c' & Hm & Hc)%list_elem_of_bind. apply list_elem_of_fmap in Hm as (m' & [= -> ->] & Hm).
  apply list_elem_of_In, filter_In in Hm as [Hm Ht]. apply String.eqb_eq in Ht. split; [done|]. split; [by apply list_elem_of_In|done].
Qed.
Lemma count_quiet t s : default (-1) (messageCountMap s !! t) < 2 ^ 31 - 1 ->
  exists s', count_message t s = (Ok tt, s') /\ imfConfigs s' = imfConfigs s /\ configRead s' = configRead s /\
    skippedNoMessageRoute s' = skippedNoMessageRoute s /\ world s' = snd (now (world s)) /\ snmpClientMap s' = snmpClientMap s /\
    quiet s s'.
Proof.
  intros Hn. unfold count_message. unfold bindM at 1, gets.
  destruct (2 ^ 31 <=? match messageCountMap s !! t with Some n => n + 1 | None => 0 end) eqn:E.
  { exfalso. apply Z.leb_le in E. destruct (messageCountMap s !! t); cbn in *; lia. }
  unfold bindM, call. destruct (now (world s)) as [time w]. destruct (Throttle.Monitor t time _) as [[] throttle];
    eexists; (split; [done|]); (do 5 (split; [done|])); (split_and!; [done..|eauto]).
Qed.
Lemma content_forward msg isSpdu t p s : carries msg isSpdu t p -> SendMessageToRadio msg s = forward isSpdu t p msg s.
Proof.
  unfold carries, SendMessageToRadio. destruct isSpdu.
  - intros (-> & spdu & -> & -> & ->). done.
  - intros (-> & Ht & j & text & Hp & Hv & ->). rewrite Ht, Hp. unfold bindM, deref, ret. by rewrite Hv.
Qed.


(** * Failures *)
(** ** Radios that cannot be prepared *)
(** A radio whose client, if there is one, has no place for an identifier of the table,
    and whose rows were never made. *)
Definition crippled (s : Plugin) (n : string) : Prop :=
  (forall k, snmpClientMap s !! n = Some k -> OID_len k <= oid_size rsuModeOid) /\
  (forall index t i, imfNtcipMessageTypeIndex s !! n = Some index -> index !! t = Some i -> i = 0).
Definition unusable (s : Plugin) (c : ImfConfiguration) : Prop :=
  match spec c with RSU_4_1 => udpClientMap s !! name c = None | NTCIP_1218 => crippled s (name c) end.
(** What a message changes about the clients: none is made, and a crippled radio remains so. *)
Definition no_better (s s' : Plugin) : Prop :=
  udpClientMap s' = udpClientMap s /\ imfConfigs s' = imfConfigs s /\ configRead s' = configRead s /\
  forall n, crippled s n -> crippled s' n.
Lemma no_better_refl s : no_better s s.
Proof. by split_and!. Qed.
Lemma no_better_trans s1 s2 s3 : no_better s1 s2 -> no_better s2 s3 -> no_better s1 s3.
Proof. intros (A1 & B1 & C1 & D1) (A2 & B2 & C2 & D2). split_and!; [congruence..|]. intros n Hn. by apply D2, D1. Qed.
Lemma unusable_kept s s' c : no_better s s' -> unusable s c -> unusable s' c.
Proof. intros (H1 & _ & _ & H2). unfold unusable. destruct (spec c); [by rewrite H1|apply H2]. Qed.
Definition steady {A} (m : M A) : Prop := forall s, no_better s (snd (m s)).
Lemma steady_same {A} (m : M A) :
  (forall s, udpClientMap (snd (m s)) = udpClientMap s /\ imfConfigs (snd (m s)) = imfConfigs s /\ configRead (snd (m s)) = configRead s /\
    snmpClientMap (snd (m s)) = snmpClientMap s /\ imfNtcipMessageTypeIndex (snd (m s)) = imfNtcipMessageTypeIndex s) -> steady m.
Proof. intros Hm s. destruct (Hm s) as (H1 & H2 & H3 & H4 & H5). split_and!; [done..|]. intros n. unfold crippled. by rewrite H4, H5. Qed.
Lemma steady_bind {A B} (m : M A) (f : A -> M B) : steady m -> (forall a, steady (f a)) -> steady (bindM m f).
Proof.
  intros Hm Hf s. specialize (Hm s). unfold bindM. destruct (m s) as [[a|e|] s1]; cbn [snd] in *; [|done|done].
  eapply no_better_trans; [exact Hm|apply Hf].
Qed.
Lemma steady_call {A} (f : W -> A * W) : steady (call f).
Proof. apply steady_same. intros s. unfold call. by destruct (f (world s)). Qed.
Lemma steady_deref {A} (o : option A) : steady (deref o).
Proof. by apply steady_same; destruct o. Qed.
Lemma steady_value {A} (o : option A) : steady (value_of o).
Proof. by apply steady_same; destruct o. Qed.
Lemma steady_sum {A} (r : exn + A) : steady (of_sum r).
Proof. by apply steady_same; destruct r. Qed.
Definition long_requests (requests : list snmp_request) : Prop :=
  requests <> [] /\ Forall (fun r => numeric (oid r) = true /\ oid_size rsuModeOid < oid_size (oid r)) requests.
Lemma snmp_set_limited radio requests s : long_requests requests ->
  (forall k, snmpClientMap s !! radio = Some k -> OID_len k <= oid_size rsuModeOid) ->
  exists r s', snmp_set radio requests s = (r, s') /\ (forall b, r <> Ok b) /\
    forall k, snmpClientMap s' !! radio = Some k -> OID_len k <= oid_size rsuModeOid.
Proof.
  intros [Hne Hl] Hk. unfold snmp_set, with_client. destruct (snmpClientMap s !! radio) as [k|] eqn:Ek.
  - destruct (run_op_longer (oid_size rsuModeOid) (op_set requests) k (world s) (conj Hne Hl) (Hk k eq_refl)) as (r & k' & Hrun & Hf & Hle & _).
    cbn [run_op] in Hrun. rewrite Hrun. eexists _, _. split; [done|]. split.
    + destruct r as [b|what|]; [|done|done]. unfold process_snmp_set_requests in Hrun.
      pose proof (add_requests_longer (oid_size rsuModeOid) requests 0 [] k Hl (Hk k eq_refl)) as Ha.
      destruct (add_requests requests 0 [] k) as [[f v] k2]. destruct requests as [|q requests]; [done|]. cbn [length] in Ha.
      rewrite (proj2 (Z.ltb_lt _ _)) in Hrun by lia. done.
    + cbn. intros k0. rewrite lookup_insert_eq. by intros [= <-].
  - eexists _, _. split; [done|]. split; [done|]. by rewrite Ek.
Qed.
Lemma long_send_requests p row q sign : 0 <= row < 2 ^ 32 -> long_requests (send_requests p row q sign).
Proof.
  intros Hrow. split; [done|]. unfold send_requests.
  repeat (apply Forall_cons; split; [|]); [..|constructor]; cbn [oid];
    match goal with |- numeric (cell ?col row) = true /\ _ => destruct (cell_identifier col row) as [-> ->]; [unfold columns; set_solver|lia|] end; by split.
Qed.

Lemma row_of_crippled s n t : crippled s n -> exists s1, table_row n t s = (Ok 0, s1) /\ crippled s1 n.
Proof.
  intros [Hk Hi]. unfold table_row. set (idx := default ∅ (imfNtcipMessageTypeIndex s !! n)).
  assert (forall t' i, idx !! t' = Some i -> i = 0) as Hz.
  { unfold idx. destruct (imfNtcipMessageTypeIndex s !! n) as [x|] eqn:E; cbn; [intros t' i; by eapply Hi|]. intros t' i. by rewrite lookup_empty. }
  assert (default 0 (idx !! t) = 0) as -> by (destruct (idx !! t) eqn:E; [cbn; by eapply Hz|done]).
  eexists. split; [done|]. split; [exact Hk|]. cbn. intros x t' i. rewrite lookup_insert_eq. intros [= <-].
  destruct (decide (t' = t)) as [->|]; [rewrite lookup_insert_eq; by intros [= <-]|rewrite lookup_insert_ne by done; apply Hz].
Qed.
(** Such a radio gets nothing. *)
Lemma transmit_crippled c m msg p sign s : spec c = NTCIP_1218 -> crippled s (name c) ->
  fst (transmit c m msg p sign s) <> Ok tt /\ crippled (snd (transmit c m msg p sign s)) (name c).
Proof.
  intros Hs Hc. unfold transmit. rewrite Hs. unfold bindM at 1 4, gets. destruct (snmpClientMap s !! name c) as [k|] eqn:Ek; [|done].
  destruct (row_of_crippled s (name c) (sendType m) Hc) as (s1 & H1 & Hc1). rewrite !(bindM_eq _ _ _ _ _ H1).
  destruct (snmp_set_limited (name c) (send_requests p 0 (ForwardConfig.psid m) sign) s1) as (r & s2 & H2 & Hr & Hk2); [by apply long_send_requests|apply Hc1|].
  assert (touches (name c) s1 s2) as (mm & w & E2 & _ & _) by (pose proof (snmp_set_touches (name c) (send_requests p 0 (ForwardConfig.psid m) sign) s1) as T; by rewrite H2 in T).
  unfold sendNTCIP1218ImfMessage, bindM. rewrite H2. destruct r as [b|e|]; [by destruct (Hr b)|..]; (split; [done|]); (split; [done|]);
    cbn [snd]; rewrite E2; apply Hc1.
Qed.

Definition sends {A} (n : string) (m : M A) : Prop := forall s, others_same n s (snd (m s)) /\ udpClientMap (snd (m s)) = udpClientMap s.
Lemma sends_bind {A B} n (m : M A) (f : A -> M B) : sends n m -> (forall a, sends n (f a)) -> sends n (bindM m f).
Proof.
  intros Hm Hf s. destruct (Hm s) as [Ho Hu]. unfold bindM. destruct (m s) as [[a|e|] s1]; cbn [snd] in *; [|done|done].
  destruct (Hf a s1) as [Ho1 Hu1]. split; [by eapply others_trans|congruence].
Qed.
Lemma sends_talks {A} n (m : M A) : talks n m -> sends n m.
Proof. intros Hm s. split; [by apply touches_others|]. by destruct (Hm s) as (mm & w & -> & _). Qed.
Lemma sends_same {A} n (m : M A) : (forall s, snd (m s) = s) -> sends n m.
Proof. intros Hm s. rewrite Hm. split; [apply others_refl|done]. Qed.
Lemma sends_row n t : sends n (table_row n t).
Proof. intros s. split; [|done]. split_and!; [done..|]. intros r Hr. cbn. by rewrite lookup_insert_ne. Qed.
Lemma log_same m msg s : snd (log_sent m msg s) = s.
Proof.
  unfold log_sent, metadata_channel. destruct debug1; [|done]. destruct (ForwardConfig.channel m); [|done].
  unfold bindM, deref. by destruct (dsrcMetadata msg).
Qed.
Lemma construct_same c m msg p sign s : snd (ConstructMessageRSU_4_1 c m msg p sign s) = s.
Proof.
  unfold ConstructMessageRSU_4_1, metadata_channel. unfold bindM, of_sum, deref. destruct (txModeToString _); [done|]. cbn [ret].
  destruct (ForwardConfig.channel m); [done|]. by destruct (dsrcMetadata msg).
Qed.
Lemma sends_transmit c m msg p sign : sends (name c) (transmit c m msg p sign).
Proof.
  unfold transmit. destruct (spec c).
  - apply sends_bind; [apply sends_same, construct_same|]. intros text. apply sends_bind; [by apply sends_same|]. intros clients.
    destruct (clients !! name c); [|by apply sends_same]. apply sends_bind; [|intros _; apply sends_same, log_same].
    intros s. split; [apply touches_others, touches_world|done].
  - apply sends_bind; [by apply sends_same|]. intros clients. destruct (clients !! name c); [|by apply sends_same].
    apply sends_bind; [apply sends_row|]. intros row. apply sends_bind; [|intros _; apply sends_same, log_same].
    apply sends_bind; [apply sends_talks, talks_snmp_set|]. intros _. by apply sends_same.
Qed.
(** A datagram leaves the clients for SNMP alone. *)
Definition mute {A} (m : M A) : Prop :=
  forall s, snmpClientMap (snd (m s)) = snmpClientMap s /\ imfNtcipMessageTypeIndex (snd (m s)) = imfNtcipMessageTypeIndex s.
Lemma mute_bind {A B} (m : M A) (f : A -> M B) : mute m -> (forall a, mute (f a)) -> mute (bindM m f).
Proof.
  intros Hm Hf s. destruct (Hm s) as [H1 H2]. unfold bindM. destruct (m s) as [[a|e|] s1]; cbn [snd] in *; [|done|done].
  destruct (Hf a s1) as [H3 H4]. split; congruence.
Qed.
Lemma mute_same {A} (m : M A) : (forall s, snd (m s) = s) -> mute m.
Proof. intros Hm s. by rewrite Hm. Qed.
Lemma mute_transmit c m msg p sign : spec c = RSU_4_1 -> mute (transmit c m msg p sign).
Proof.
  intros Es. unfold transmit. rewrite Es. apply mute_bind; [apply mute_same, construct_same|]. intros text.
  apply mute_bind; [by apply mute_same|]. intros clients. destruct (clients !! name c); [|by apply mute_same].
  apply mute_bind; [done|intros _; apply mute_same, log_same].
Qed.
Lemma steady_transmit c m msg p sign : steady (transmit c m msg p sign).
Proof.
  intros s. destruct (sends_transmit c m msg p sign s) as [(H1 & H2 & H3) H4]. split_and!; [done..|]. intros n Hc.
  destruct (decide (n = name c)) as [->|Hn].
  - destruct (spec c) eqn:Es; [|by apply transmit_crippled].
    destruct (mute_transmit c m msg p sign Es s) as [E1 E2].
    unfold crippled. by rewrite E1, E2.
  - destruct (H3 n Hn) as (_ & E1 & E2). unfold crippled in *. by rewrite E1, E2.
Qed.

Lemma steady_gets {A} (f : Plugin -> A) : steady (gets f).
Proof. by apply steady_same. Qed.
Lemma steady_ret {A} (a : A) : steady (ret a).
Proof. by apply steady_same. Qed.
Lemma steady_throw {A} e : steady (throw (A := A) e).
Proof. by apply steady_same. Qed.
Lemma steady_status k v : steady (SetStatus k v).
Proof. by apply steady_same. Qed.
Hint Resolve steady_gets steady_ret steady_throw steady_status steady_call steady_deref steady_value steady_sum steady_transmit : steady.
Ltac steady_step := first [apply steady_bind; [|intros ?] | solve [auto with steady] | by apply steady_same].

Lemma steady_signed answer : steady (signed_payload answer).
Proof.
  unfold signed_payload. steady_step; [steady_step|]. match goal with |- steady (match ?x with _ => _ end) => destruct x end; repeat steady_step.
Qed.
Lemma steady_sign c m p : steady (SignWithHsm c m p).
Proof.
  unfold SignWithHsm. do 2 (steady_step; [steady_step|]). match goal with |- steady (match ?x with _ => _ end) => destruct x as [|o [] []] end; first [apply steady_signed|steady_step].
Qed.
Lemma steady_try m : steady m -> steady (try_sign m).
Proof. intros Hm s. specialize (Hm s). unfold try_sign. destruct (m s) as [[a|[]|] s1]; exact Hm. Qed.
Lemma steady_route isSpdu p msg c m : steady (route isSpdu p msg c m).
Proof.
  unfold route. destruct isSpdu; [repeat steady_step|]. case_bool_decide; [|repeat steady_step].
  steady_step; [apply steady_try, steady_sign|]. match goal with |- steady (match ?x with _ => _ end) => destruct x end; repeat steady_step.
Qed.
Lemma steady_loop isSpdu p msg rs : forall found, steady (route_loop isSpdu p msg rs found).
Proof.
  induction rs as [|[c m] rs IH]; intros found; cbn [route_loop]; [steady_step|]. steady_step; [apply steady_route|].
  match goal with |- steady (if ?x then _ else _) => destruct x end; [apply IH|steady_step].
Qed.
Lemma steady_count t : steady (count_message t).
Proof.
  unfold count_message. steady_step; [steady_step|]. match goal with |- steady (if ?x then _ else _) => destruct x end; [steady_step|].
  do 2 (steady_step; [steady_step|]). match goal with |- steady (let '(_, _) := ?x in _) => destruct x as [[] ?] end; repeat steady_step.
Qed.
Lemma steady_forward isSpdu t p msg : steady (forward isSpdu t p msg).
Proof.
  unfold forward. steady_step; [apply steady_count|]. steady_step; [steady_step|]. apply steady_bind.
  - intros s. rewrite send_configs_routes. apply steady_loop.
  - intros [[]|]; repeat steady_step.
Qed.
Lemma steady_message msg : steady (handle (ev_message msg)).
Proof.
  cbn [handle]. unfold OnMessageReceived. steady_step; [steady_step|]. match goal with |- steady (if ?x then _ else _) => destruct x end; [steady_step|].
  destruct (dsrcMetadata msg); [|repeat steady_step]. unfold SendMessageToRadio. destruct (IsSPDU msg).
  - destruct (getRawSpdu msg); [repeat steady_step|apply steady_forward].
  - do 3 (steady_step; [steady_step|]). apply steady_forward.
Qed.

(** ** Messages that cannot be sent *)
Definition blocked (cs bad : list ImfConfiguration) (msg : IvpMessage) : Prop :=
  exists isSpdu t p, carries msg isSpdu t p /\ is_Some (dsrcMetadata msg) /\
    Forall (fun r => isSpdu = true \/ enableHsm (fst r) <> Some true) (routes t cs) /\ Exists (fun r => fst r ∈ bad) (routes t cs).
Lemma transmit_unusable c m msg p sign s : unusable s c -> fst (transmit c m msg p sign s) <> Ok tt.
Proof.
  unfold unusable. destruct (spec c) eqn:Es; intros Hu; [|by apply transmit_crippled].
  unfold transmit. rewrite Es. pose proof (construct_same c m msg p sign s) as E. unfold bindM at 1.
  destruct (ConstructMessageRSU_4_1 c m msg p sign s) as [[a|e|] s1]; cbn [snd] in E; subst s1; [|done|done]. unfold bindM at 1, gets. by rewrite Hu.
Qed.
Lemma route_plain isSpdu p msg c m s : isSpdu = true \/ enableHsm c <> Some true ->
  route isSpdu p msg c m s = bindM (transmit c m msg p (asks_signature isSpdu c)) (fun _ => ret true) s.
Proof. intros Hs. unfold route, asks_signature. destruct isSpdu; [done|]. destruct Hs as [?|Hs]; [done|]. by rewrite bool_decide_eq_false_2. Qed.
Lemma loop_blocked isSpdu p msg rs : forall found s, Forall (fun r => isSpdu = true \/ enableHsm (fst r) <> Some true) rs ->
  Exists (fun r => unusable s (fst r)) rs -> forall x, fst (route_loop isSpdu p msg rs found s) <> Ok x.
Proof.
  induction rs as [|[c m] rs IH]; intros found s Hp He x; [by apply Exists_nil in He|]. apply Forall_cons in Hp as [Hc Hp]. cbn [fst] in Hc.
  cbn [route_loop]. unfold bindM at 1. rewrite route_plain by done. unfold bindM at 1.
  pose proof (steady_transmit c m msg p (asks_signature isSpdu c) s) as Hst. pose proof (transmit_unusable c m msg p (asks_signature isSpdu c) s) as Hun.
  destruct (transmit c m msg p (asks_signature isSpdu c) s) as [[[]|e|] s1]; cbn [fst snd] in *; [|done|done].
  apply Exists_cons in He as [He|He]; [by destruct (Hun He)|]. cbn [ret]. apply IH; [done|].
  eapply Exists_impl; [exact He|]. intros r. by apply unusable_kept.
Qed.
Lemma message_blocked cs bad msg s : configRead s = true -> imfConfigs s = cs -> Forall (unusable s) bad -> blocked cs bad msg ->
  fst (handle (ev_message msg) s) <> Ok tt.
Proof.
  intros Hread <- Hbad (isSpdu & t & p & Hc & [d Hd] & Hp & He). cbn [handle]. unfold OnMessageReceived. unfold bindM at 1, gets. rewrite Hread, Hd. cbn [negb].
  rewrite (content_forward msg isSpdu t p s Hc). unfold forward. unfold bindM at 1. pose proof (steady_count t s) as Hst.
  destruct (count_message t s) as [[[]|e|] s1]; cbn [snd] in Hst; [|done|done]. pose proof Hst as (_ & Hcfg & _). unfold bindM at 1, gets. rewrite Hcfg.
  unfold bindM at 1. rewrite send_configs_routes. pose proof (loop_blocked isSpdu p msg (routes t (imfConfigs s)) false s1 Hp) as Hl.
  destruct (route_loop isSpdu p msg (routes t (imfConfigs s)) false s1) as [[x|e|] s2]; [|done|done]. exfalso. cbn [fst] in Hl. refine (Hl _ x eq_refl).
  rewrite Forall_forall in Hbad. apply Exists_exists in He as (r & Hr & Hin). apply Exists_exists. exists r. split; [done|]. eapply unusable_kept; [done|auto].
Qed.
Fixpoint run_messages (msgs : list IvpMessage) (s : Plugin) : list (result unit) * Plugin :=
  match msgs with
  | [] => ([], s)
  | msg :: msgs =>
      let '(r, s) := handle (ev_message msg) s in
      match r with Undefined => ([r], s) | _ => let '(rs, s) := run_messages msgs s in (r :: rs, s) end
  end.
Lemma run_blocked cs bad msgs : forall s, configRead s = true -> imfConfigs s = cs -> Forall (unusable s) bad -> Forall (blocked cs bad) msgs ->
  Forall (fun r => r <> Ok tt) (fst (run_messages msgs s)).
Proof.
  induction msgs as [|msg msgs IH]; intros s Hr Hc Hb Hm; cbn [run_messages]; [constructor|]. apply Forall_cons in Hm as [Hm Hms].
  pose proof (message_blocked cs bad msg s Hr Hc Hb Hm) as Hno. pose proof (steady_message msg s) as Hst.
  destruct (handle (ev_message msg) s) as [r s1]. cbn [fst snd] in *. destruct Hst as (Hu & Hcfg & Hread & Hk).
  assert (Forall (fun r => r <> Ok tt) (fst (run_messages msgs s1))) as Hrest.
  { apply IH; [congruence|congruence| |done]. eapply Forall_impl; [exact Hb|]. intros c. by apply unusable_kept. }
  destruct r as [[]|e|]; [done| |by repeat constructor]. destruct (run_messages msgs s1). by constructor.
Qed.

(** A device that answers nothing, and credentials below the level [authPriv]. *)
Definition unreachable (c : ImfConfiguration) : Prop :=
  forall session kind vars w, peername session = device c -> fst (snmp_synch_response session kind vars w) = (STAT_TIMEOUT, None).
Definition unpreparable (c : ImfConfiguration) : Prop :=
  spec c = NTCIP_1218 /\ (unreachable c \/ exists a, snmpAuth c = Some a /\ securityLevel a <> AUTH_PRIV).
Lemma snmp_of_weak c s a k s' : valid_config c -> snmpAuth c = Some a -> securityLevel a <> AUTH_PRIV -> snmp_of c s <> (Ok k, s').
Proof.
  intros (Ha & _) E Hl Hs. apply snmp_of_ok in Hs as (_ & _ & a' & Ha' & Hp). rewrite E in Ha, Ha'. injection Ha' as <-.
  destruct Ha as (_ & _ & _ & Hpp & _). by apply Hl, Hpp.
Qed.
Lemma mode_unanswered c n k s m : unreachable c -> snmpClientMap s !! n = Some k -> fresh k -> peername (ss k) = device c ->
  exists e s', setRSUMode n m s = (Throw e, s') /\ imfNtcipMessageTypeIndex s' = imfNtcipMessageTypeIndex s /\
    forall k', snmpClientMap s' !! n = Some k' -> OID_len k' <= oid_size rsuModeOid.
Proof.
  intros Hu Hk [Ho Hl] Hp. unfold setRSUMode, bindM, snmp, with_client. rewrite Hk. unfold process_snmp_request.
  rewrite parse_fits; [|reflexivity|rewrite Hl; vm_compute; discriminate]. cbn [negb ss_open set_oid]. rewrite Ho. cbn [negb].
  pose proof (Hu (ss k) SET (request_binding SET (mkResponse m [] INTEGER) (set_oid (oid_numbers rsuModeOid) (oid_size rsuModeOid) k)) (world s) Hp) as Hans.
  cbn [ss set_oid] in *. destruct (snmp_synch_response (ss k) SET _ (world s)) as [r w]. cbn [fst] in Hans. subst r. cbn [answered log_error].
  eexists _, _. split; [done|]. split; [done|]. cbn. intros k'. rewrite lookup_insert_eq. intros [= <-]. cbn. lia.
Qed.
Lemma snmp_client_new_fresh ip p cm u level ap app pp ppp v t w k w' :
  snmp_client_new ip p cm u level ap app pp ppp v t w = (inr k, w') -> fresh k.
Proof.
  unfold snmp_client_new. destruct (validate_address _ _) as [valid w1]. destruct valid; cbn [negb]; [|done].
  destruct (auth_config _ _ _) as [|auth]; [done|]. destruct (priv_config _ _ _ _) as [|priv]; [done|].
  destruct (snmp_open _ _) as [opened w2]. destruct opened; cbn [negb]; [|done]. by intros [= <- <-].
Qed.
Lemma snmp_of_fresh c s k s' : snmp_of c s = (Ok k, s') -> fresh k.
Proof.
  unfold snmp_of. do 6 (intros (? & ? & _ & Hs)%bindM_Ok; revert Hs). intros (r & s1 & H2 & H1)%bindM_Ok.
  unfold call in H2. destruct (snmp_client_new _ _ _ _ _ _ _ _ _ _ _ _) as [r' w] eqn:En. injection H2 as <- <-.
  destruct r' as [what|k']; [done|]. injection H1 as <- <-. by eapply snmp_client_new_fresh.
Qed.
Lemma snmp_of_clients c s : (exists w, snd (snmp_of c s) = set_world w s).
Proof.
  unfold snmp_of. unfold value_of, of_sum, call, bindM, ret, throw.
  destruct (snmpAuth c); [|exists (world s); by destruct s]. destruct (securityLevelToString _); [exists (world s); by destruct s|].
  repeat match goal with |- context [match ?o with Some _ => _ | None => _ end] => destruct o; [|exists (world s); by destruct s] end.
  destruct (snmp_client_new _ _ _ _ _ _ _ _ _ _ _ _) as [[] w]; by exists w.
Qed.

Lemma for_each_app {A} (f : A -> M unit) l1 l2 : forall s, for_each (l1 ++ l2) f s = bindM (for_each l1 f) (fun _ => for_each l2 f) s.
Proof.
  induction l1 as [|a l1 IH]; intros s; [done|]. cbn [app for_each]. unfold bindM.
  destruct (f a s) as [[[]|e|] s1]; [apply IH|done..].
Qed.
(** No client and no rows at all. *)
Definition absent (s : Plugin) (n : string) : Prop :=
  udpClientMap s !! n = None /\ snmpClientMap s !! n = None /\ imfNtcipMessageTypeIndex s !! n = None.
Lemma absent_unusable s c : absent s (name c) -> unusable s c.
Proof. intros (H1 & H2 & H3). unfold unusable. destruct (spec c); [done|]. split; [by rewrite H2|by rewrite H3]. Qed.
Lemma absent_same s s' n : same_at n s s' -> absent s n -> absent s' n.
Proof. intros (H1 & H2 & H3). unfold absent. by rewrite H1, H2, H3. Qed.
Lemma prepare_impossible c s : valid_config c -> unpreparable c -> absent s (name c) ->
  fst (prepare c s) <> Ok tt /\ unusable (snd (prepare c s)) c.
Proof.
  intros Hv [Hs Hc] Hab. unfold prepare. rewrite Hs. destruct (snmp_of_clients c s) as [w Hw].
  destruct (snmp_of c s) as [[k|e|] s1] eqn:E; cbn [snd fst] in Hw; subst s1;
    [rewrite (bindM_eq _ _ _ _ _ E)|rewrite (bindM_throw _ _ _ _ _ E)|rewrite (bindM_undefined _ _ _ _ E)];
    [|split; [done|]; apply absent_unusable; exact Hab..].
  pose proof (snmp_of_fresh _ _ _ _ E) as Hf. pose proof (snmp_of_ok _ _ _ _ E) as (_ & Hp & _).
  destruct Hc as [Hu|(a & Ha & Hl)]; [|by destruct (snmp_of_weak _ _ _ _ _ Hv Ha Hl E)].
  rewrite !step_modify. set (s2 := set_clients _ _ _ _).
  destruct (mode_unanswered c (name c) k s2 2 Hu) as (e & s3 & H3 & Hi & Hk); [apply lookup_insert_eq|done|done|].
  rewrite (bindM_throw _ _ _ _ _ H3). split; [done|]. unfold unusable. rewrite Hs. cbn [snd]. split; [done|].
  rewrite Hi. unfold s2. cbn. destruct Hab as (_ & _ & Hnone). by rewrite Hnone.
Qed.

(** A radio with SNMP that cannot be prepared, because it does not answer or because its
    credentials are below the level [authPriv] (which the parser accepts), keeps the update
    of the configuration from returning; and from then on no message with a route to it or
    to a radio after it is handled without an exception. *)
Theorem unprepared_radio_blocks json before c after s msgs :
  parseImmediateForwardConfiguration json = inr (before ++ c :: after) -> NoDup (name <$> before ++ c :: after) -> unpreparable c ->
  configRead s = true -> Forall (blocked (before ++ c :: after) (c :: after)) msgs ->
  fst (UpdateConfigSettings json s) <> Ok tt /\ Forall (fun r => r <> Ok tt) (fst (run_messages msgs (snd (UpdateConfigSettings json s)))).
Proof.
  intros Hparse Hn Hc Hread Hmsgs. set (cs := before ++ c :: after) in *. rewrite (update_parsed json cs s Hparse).
  pose proof (parse_valid json cs Hparse) as Hvalid. unfold cs in Hvalid. apply Forall_app in Hvalid as [_ Hvalid]. apply Forall_cons in Hvalid as [Hvalid _].
  unfold cs in Hn. rewrite fmap_app, fmap_cons in Hn. apply NoDup_app in Hn as (_ & Hdis & Hn). apply NoDup_cons in Hn as [Hnc _].
  assert (forall c', c' ∈ c :: after -> absent (snd (for_each before prepare (cleared cs s))) (name c')) as Habs.
  { intros c' Hin. eapply absent_same; [apply prepare_all_same|split_and!; cbn; apply lookup_empty].
    intros Hin'. apply (Hdis _ Hin'). rewrite <-fmap_cons. by apply list_elem_of_fmap_2. }
  assert (fst (for_each cs prepare (cleared cs s)) <> Ok tt /\ Forall (unusable (snd (for_each cs prepare (cleared cs s)))) (c :: after)) as [Hno Hbad].
  { unfold cs at 1 3. rewrite for_each_app. cbn [for_each].
    destruct (for_each before prepare (cleared cs s)) as [[[]|e|] s1] eqn:E; cbn [snd] in Habs;
      [rewrite (bindM_eq _ _ _ _ _ E)|rewrite (bindM_throw _ _ _ _ _ E)|rewrite (bindM_undefined _ _ _ _ E)];
      [|split; [done|]; apply Forall_forall; intros c' Hin; by apply absent_unusable, Habs..].
    destruct (prepare_impossible c s1 Hvalid Hc (Habs c ltac:(apply list_elem_of_here))) as [Hne Hun].
    pose proof (local_prepare c s1) as (_ & _ & Hl).
    destruct (prepare c s1) as [[[]|e|] s2] eqn:E2; cbn [fst snd] in *; [done|rewrite (bindM_throw _ _ _ _ _ E2)|rewrite (bindM_undefined _ _ _ _ E2)];
      (split; [done|]); (constructor; [done|]); apply Forall_forall; intros c' Hin; apply absent_unusable; (eapply absent_same; [apply Hl|apply Habs; by right]);
      intros Heq; apply Hnc; rewrite <-Heq; by apply list_elem_of_fmap_2. }
  pose proof (prepare_all_configs cs (cleared cs s)) as [Hcfg Hrd]. unfold bindM.
  destruct (for_each cs prepare (cleared cs s)) as [[[]|e|] s1]; cbn [fst snd] in *; [done|..]; (split; [done|]);
    apply (run_blocked cs (c :: after)); try done; rewrite Hrd; exact Hread.
Qed.

(** ** The signing service *)
(** An answer of the signing service that is not JSON, such as the empty one of a service
    that is not there, ends the process at the next message that is to be signed. *)
Theorem unreadable_answer_crashes s msg t p d c m rest url output : configRead s = true -> dsrcMetadata msg = Some d ->
  carries msg false t p -> default (-1) (messageCountMap s !! t) < 2 ^ 31 - 1 ->
  routes t (imfConfigs s) = (c, m) :: rest -> enableHsm c = Some true -> hsmUrl c = Some url ->
  (forall cmd w, fst (run_command cmd w) = ran output false false) -> CJson.cJSON_Parse (CJson.bytes (read_pipe 2047 false output)) = None ->
  callback (ev_message msg) s = None.
Proof.
  intros Hread Hd Hc Hcount Hroutes Hhsm Hurl Hrun Hparse. unfold callback. cbn [handle]. unfold OnMessageReceived. unfold bindM at 1, gets. rewrite Hread, Hd. cbn [negb].
  rewrite (content_forward msg false t p s Hc). unfold forward.
  destruct (count_quiet t s Hcount) as (s1 & H1 & Hc1 & _). rewrite (bindM_eq _ _ _ _ _ H1). unfold bindM at 1, gets. rewrite Hc1.
  unfold bindM at 1. rewrite send_configs_routes, Hroutes. cbn [route_loop]. unfold bindM at 1. unfold route. rewrite Hhsm, bool_decide_eq_true_2 by done.
  assert (fst (SignWithHsm c m p s1) = Undefined) as Hs.
  { unfold SignWithHsm. rewrite Hurl. unfold bindM, value_of, ret, call.
    match goal with |- context [run_command ?cmd ?w] => specialize (Hrun cmd w); destruct (run_command cmd w) as [r w'] end.
    cbn [fst] in Hrun. subst r. unfold signed_payload. by rewrite Hparse. }
  unfold bindM at 1, try_sign. destruct (SignWithHsm c m p s1) as [r s2]. cbn [fst] in Hs. by subst r.
Qed.
End forward.
Arguments Ok {A} a.
Arguments Throw {A} e.
Arguments Undefined {A}.

(** * Witnesses *)
(** A world that is the record of what was sent. *)
Inductive sent := datagram (to : string) (to_port : Z) (text : string) | request (to : string) (what : list binding).
Definition radio_demo (answer : status * option snmp_pdu) : Radio (list sent) := {|
  radio_snmp := library (list sent) (fun session _ vars w => (answer, w ++ [request (peername session) vars]));
  udp_open _ _ w := (true, w); udp_send a p text w := w ++ [datagram a p text]; run_command _ w := (ran "" false false, w);
  now w := (0, w); sleep _ w := w; get_payload _ := inl "no payload"%string |}.
Definition standby : status * option snmp_pdu := (STAT_SUCCESS, Some (mkPdu 0 [asn_integer (Some 2)])).
Definition no_answer : status * option snmp_pdu := (STAT_TIMEOUT, None).
Definition demo_msg (t : string) : IvpMessage :=
  mkMsg (Some "J2735"%string) (Some t) None 0 None 0 0 (Some (mkDsrc 0 183)) (Some (cJSON_CreateString "00ab")).
Definition demo_update (answer : status * option snmp_pdu) (document : value) (s : Plugin) : result unit * Plugin :=
  UpdateConfigSettings (H := radio_demo answer) (H0 := values (inr document)) "" s.
Definition demo_state : Plugin (W := list sent) := Eval vm_compute in snd (demo_update standby demo_document (Plugin_new [])).

Lemma demo_ready : Forall (radio_ready demo_state) (imfConfigs demo_state).
Proof.
  repeat (apply Forall_cons; split; [|]); [reflexivity| |constructor]. split; [|reflexivity].
  eexists. split; [reflexivity|]. split; [split; reflexivity|reflexivity].
Qed.
Lemma update_configures_witness : exists s', demo_update standby demo_document (Plugin_new []) = (Ok tt, s') /\ length (imfConfigs s') = 2%nat /\
  configRead s' = true /\ Forall (radio_ready s') (imfConfigs s').
Proof.
  eexists. split; [vm_compute; reflexivity|]. split; [reflexivity|].
  eapply (update_configures (H := radio_demo standby) (H0 := values (inr demo_document)) "" (Plugin_new [])); [vm_compute; reflexivity|].
  apply (bool_decide_eq_true_1 _). vm_compute. reflexivity.
Defined.
(** Two radios without signing, one whose message is signed, one for which signing is
    refused, and another one after it. *)
Definition json_member (key text : string) : string := quote +:+ key +:+ quote +:+ ":" +:+ text.
Definition signing_demo : Radio (list sent) := {|
  radio_snmp := library (list sent) (fun session _ vars w => (standby, w ++ [request (peername session) vars]));
  udp_open _ _ w := (true, w); udp_send a p text w := w ++ [datagram a p text];
  run_command cmd w := (ran (if String.prefix "curl -X POST http://hsm/" cmd then "{" +:+ json_member "signedMessage" (quote +:+ "AAEC" +:+ quote) +:+ "}"
    else "{" +:+ json_member "code" "500" +:+ "," +:+ json_member "message" (quote +:+ "no key" +:+ quote) +:+ "}") false false, w);
  now w := (0, w); sleep _ w := w; get_payload _ := inl "no payload"%string |}.
Definition hsm_config (url : string) : ImfConfiguration :=
  mkConfig "east" RSU_4_1 "10.0.0.1" 1516 None [mkMessageConfig "SPAT-P" "SPAT" "0x8002" (Some 183)] CONT true (Some true) (Some url) None.
Definition demo_signing : Plugin (W := list sent) :=
  set_imfConfigs (imfConfigs demo_state ++ [hsm_config "http://hsm/"; hsm_config "http://other/"; hsm_config "http://hsm/"]) demo_state.
Lemma demo_signing_ready : Forall (radio_ready demo_signing) (imfConfigs demo_signing).
Proof. apply Forall_app. split; [exact demo_ready|]. by repeat (apply Forall_cons; split; [reflexivity|]). Qed.

Definition weak_document : value := varray [demo_radio "east"; demo_ntcip "west" "authNoPriv"; demo_ntcip "north" "authPriv"].
Definition configs_of (document : value) : list ImfConfiguration :=
  match parseImmediateForwardConfiguration (H := values (inr document)) "" with inr cs => cs | inl _ => [] end.
Definition weak_configs : list ImfConfiguration := Eval vm_compute in configs_of weak_document.
Definition weak_radio : ImfConfiguration := Eval vm_compute in default (mkConfig "" RSU_4_1 "" 0 None [] CONT false None None None) (weak_configs !! 1%nat).
Definition demo_running : Plugin (W := list sent) := set_configRead true (Plugin_new []).
Lemma unprepared_radio_blocks_witness :
  fst (demo_update standby weak_document demo_running) <> Ok tt /\
  Forall (fun r => r <> Ok tt) (fst (run_messages (H := radio_demo standby) (H0 := values (inr weak_document)) false [demo_msg "MAP-P"; demo_msg "SPAT-P"]
    (snd (demo_update standby weak_document demo_running)))).
Proof.
  apply (unprepared_radio_blocks (H := radio_demo standby) (H0 := values (inr weak_document)) false "" (take 1 weak_configs) weak_radio (drop 2 weak_configs) demo_running).
  - vm_compute. reflexivity.
  - apply (bool_decide_eq_true_1 _). vm_compute. reflexivity.
  - split; [reflexivity|]. right. eexists. split; [reflexivity|discriminate].
  - reflexivity.
  - assert (forall t, demo_msg t = demo_msg t -> is_Some (dsrcMetadata (demo_msg t))) as Hd by (intros; by eexists).
    assert (forall t, carries (H := radio_demo standby) (demo_msg t) false t "00AB") as Hc.
    { intros t. split; [reflexivity|]. split; [reflexivity|]. eexists _, _. split_and!; reflexivity. }
    repeat (apply Forall_cons; split; [|]); [| |constructor]; eexists false, _, _; (split; [apply Hc|]); (split; [by apply Hd|]);
      (split; [repeat (apply Forall_cons; split; [right; discriminate|]); constructor|apply Exists_cons_tl, Exists_cons_hd, list_elem_of_here]).
Defined.

Definition signing_config : ImfConfiguration :=
  mkConfig "east" RSU_4_1 "10.0.0.1" 1516 None [mkMessageConfig "SPAT-P" "SPAT" "0x8002" (Some 183)] CONT true (Some true) (Some "http://hsm/"%string) None.
Lemma unreadable_answer_crashes_witness :
  callback (H := radio_demo standby) (H0 := values (inr null)) false (ev_message (demo_msg "SPAT-P")) (set_imfConfigs [signing_config] demo_running) = None.
Proof.
  apply (unreadable_answer_crashes (H := radio_demo standby) (H0 := values (inr null)) false _ (demo_msg "SPAT-P") "SPAT-P" "00AB" (mkDsrc 0 183)
    signing_config (mkMessageConfig "SPAT-P" "SPAT" "0x8002" (Some 183)) [] "http://hsm/" ""); try reflexivity.
  split; [reflexivity|]. split; [reflexivity|]. eexists _, _. split_and!; reflexivity.
Defined.
End Forward.
