(* ===== verification/Factory.v ===== *)
(** Byte streams as hexadecimal text ([TmxApi/tmx/messages/byte_stream.hpp]), the
    factory that recognises a J2735 message by its first bytes
    ([j2735_messages/J2735MessageFactory.hpp]), and the routeable message that holds
    an encoded one ([messages/TmxJ2735Codec.hpp]). The generated ASN.1 coders are the
    class [Asn1c]. *)
From Stdlib Require Import Ascii.
From S2P Require Import Prelude Text.
Open Scope Z_scope.

(** * Byte streams *)
Module ByteStream.
Definition hex_char (n : Z) : ascii := ascii_of_N (Z.to_N (if n <? 10 then 48 + n else 87 + n)).
(** [snprintf(buf, 3, "%02x", b)]. *)
Definition snprintf_02x (b : Z) : string := String (hex_char (b / 16)) (String (hex_char (b `mod` 16)) "").
Fixpoint byte_stream_encode (bytes : list Z) : string :=
  match bytes with
  | [] => ""
  | b :: r => snprintf_02x b +:+ byte_stream_encode r
  end.

Definition hex_value (c : ascii) : option Z :=
  let n := Z.of_N (N_of_ascii c) in
  if (48 <=? n) && (n <=? 57) then Some (n - 48)
  else if (97 <=? n) && (n <=? 102) then Some (n - 87)
  else if (65 <=? n) && (n <=? 70) then Some (n - 55)
  else None.
Fixpoint hex_digits (acc : Z) (s : string) : Z :=
  match s with
  | String c s => match hex_value c with Some v => hex_digits (acc * 16 + v) s | None => acc end
  | EmptyString => acc
  end.
(** [strtoul(buf, NULL, 16)] on a buffer of two characters: too short for a prefix
    0x with a digit, and for an overflow. *)
Definition strtoul (buf : string) : Z :=
  let '(neg, s) := sign (skip_spaces buf) in u64 (if neg : bool then - hex_digits 0 s else hex_digits 0 s).
(** One round of the loop takes two characters. When the text has ended after the
    first one, the zero digit is put in its place, and then the loop steps over the
    end of the text: its condition is never false again. *)
Fixpoint byte_stream_decode (str : string) : option (list Z) :=
  match str with
  | EmptyString => Some []
  | String a (String b rest) =>
      (fun l => u8 (strtoul (String a (String b ""))) :: l) <$> byte_stream_decode rest
  | String a EmptyString => None
  end.

(** ** Facts *)
Lemma string_pair_ind (P : string -> Prop) :
  P "" -> (forall a, P (String a "")) -> (forall a b s, P s -> P (String a (String b s))) -> forall s, P s.
Proof.
  intros H0 H1 H2. fix IH 1. intros [|a [|b s]]; [exact H0|apply H1|apply H2, IH].
Qed.
Lemma decode_defined s : is_Some (byte_stream_decode s) <-> Nat.even (String.length s) = true.
Proof.
  induction s as [|a|a b s IH] using string_pair_ind; cbn [byte_stream_decode String.length Nat.even].
  - split; [done|by eexists].
  - split; [by intros []|done].
  - by rewrite fmap_is_Some.
Qed.

Lemma hex_byte b : 0 <= b < 256 -> u8 (strtoul (snprintf_02x b)) = b.
Proof. intros Hb. apply Z.eqb_eq. revert b Hb. apply (below_ind 256 (fun b => u8 (strtoul (snprintf_02x b)) =? b)). by vm_compute. Qed.
Definition is_byte (b : Z) : Prop := 0 <= b < 256.
(** Every stream of bytes is read back from its text. *)
Lemma decode_encode bytes : Forall is_byte bytes -> byte_stream_decode (byte_stream_encode bytes) = Some bytes.
Proof.
  induction 1 as [|b bytes Hb _ IH]; [done|]. cbn [byte_stream_encode]. unfold snprintf_02x at 1.
  rewrite !string_app_cons. change ("" +:+ ?s) with s. cbn [byte_stream_decode]. rewrite IH. cbn [fmap option_fmap option_map].
  change (String (hex_char (b / 16)) (String (hex_char (b `mod` 16)) "")) with (snprintf_02x b). by rewrite hex_byte.
Qed.
Lemma decode_bytes s l : byte_stream_decode s = Some l -> Forall is_byte l.
Proof.
  revert l. induction s as [|a|a b s IH] using string_pair_ind; cbn [byte_stream_decode]; intros l.
  - by intros [= <-].
  - done.
  - intros (l' & Hl & ->)%fmap_Some. constructor; [|by apply IH]. apply wrapu_range. lia.
Qed.
End ByteStream.

(** * The messages *)
Inductive message_kind :=
  BsmMessage | CsrMessage | EvaMessage | IntersectionCollisionMessage | MapDataMessage | NmeaMessage
  | PdmMessage | RsmMessage | PvdMessage | PsmMessage | RsaMessage | RtcmMessage | SrmMessage | SsmMessage
  | SpatMessage | TimMessage | tsm4Message | tsm5Message | tsm0Message | tsm1Message | tsm2Message
  | tsm3Message | SdsmMessage.
#[export] Instance message_kind_eq_dec : EqDecision message_kind.
Proof. solve_decision. Defined.

(** The result of an access that may run out of its container, or an exception. *)
Inductive outcome (A : Type) := returned (a : A) | thrown | undefined.
Arguments returned {A} a.
Arguments thrown {A}.
Arguments undefined {A}.

(** The coders that asn1c generates, for the decoded form [J] of a message. In the frame
    a decoded value is of some kind of message or of another. The encoding of a frame
    begins with an extension bit, which is zero, and the 15 bits of the number of the
    message; the length and the contents of the message follow. *)
Class Asn1c (J : Type) := {
  uper_encode_frame : Z -> message_kind -> J -> option (list Z);
  uper_decode_frame : list Z -> option (option (message_kind * J));
  uper_encode : message_kind -> J -> option (list Z);
  uper_decode : message_kind -> list Z -> option J;
  der_encode_frame : Z -> message_kind -> J -> option (list Z);
  der_decode_frame : list Z -> option (option (message_kind * J));
  der_encode : message_kind -> J -> option (list Z);
  der_decode : message_kind -> list Z -> option J;
  (** The number of bytes of a length field, or 0 or -1, and the length. *)
  ber_fetch_length : list Z -> Z * Z;
  uper_frame_start : forall id k j b, 0 <= id < 2 ^ 15 -> uper_encode_frame id k j = Some b ->
    Forall ByteStream.is_byte b /\ exists rest, rest <> [] /\ b = id / 256 :: id `mod` 256 :: rest;
  uper_frame_decodes : forall id k j b, uper_encode_frame id k j = Some b ->
    uper_decode_frame b = Some (Some (k, j))
}.

Module Factory.
Import ByteStream.
(** ** What the traits say of each message *)
Definition get_default_messageId (k : message_kind) : Z :=
  match k with
  | BsmMessage => 20 | CsrMessage => 21 | EvaMessage => 22 | IntersectionCollisionMessage => 23
  | MapDataMessage => 18 | NmeaMessage => 24 | PdmMessage => 25 | RsmMessage => 33 | PvdMessage => 26
  | PsmMessage => 32 | RsaMessage => 27 | RtcmMessage => 28 | SrmMessage => 29 | SsmMessage => 30
  | SpatMessage => 19 | TimMessage => 31 | tsm4Message => 244 | tsm5Message => 245 | tsm0Message => 240
  | tsm1Message => 241 | tsm2Message => 242 | tsm3Message => 243 | SdsmMessage => 41
  end.
Definition MessageSubType (k : message_kind) : string :=
  match k with
  | BsmMessage => "BSM" | CsrMessage => "CSR" | EvaMessage => "EVA" | IntersectionCollisionMessage => "IC"
  | MapDataMessage => "MAP-P" | NmeaMessage => "NMEA" | PdmMessage => "PDM" | RsmMessage => "RSM" | PvdMessage => "PVD"
  | PsmMessage => "PSM-P" | RsaMessage => "RSA" | RtcmMessage => "RTCM" | SrmMessage => "SRM" | SsmMessage => "SSM"
  | SpatMessage => "SPAT-P" | TimMessage => "TIM" | tsm4Message => "TMSG04-P" | tsm5Message => "TMSG05-P"
  | tsm0Message => "TMSG00-P" | tsm1Message => "TMSG01-P" | tsm2Message => "TMSG02-P" | tsm3Message => "TMSG03-P"
  | SdsmMessage => "SDSM"
  end.
(** The number of the frame itself, [api::uperFrame_D]. *)
Definition frame_messageId : Z := 17.
Definition ENCODING_ASN1_UPER_STRING : string := "asn.1-uper/hexstring".
Definition ENCODING_ASN1_BER_STRING : string := "asn.1-ber/hexstring".

(** ** The allocator maps *)
Definition allocators : list message_kind :=
  [BsmMessage; CsrMessage; EvaMessage; IntersectionCollisionMessage; MapDataMessage; NmeaMessage; PdmMessage;
   RsmMessage; PvdMessage; PsmMessage; RsaMessage; RtcmMessage; SrmMessage; SsmMessage; SpatMessage; TimMessage;
   tsm4Message; tsm5Message; tsm0Message; tsm1Message; tsm2Message; tsm3Message; SdsmMessage].
Definition add_allocator_to_maps (maps : gmap Z message_kind * gmap string message_kind) (k : message_kind)
  : gmap Z message_kind * gmap string message_kind :=
  (<[get_default_messageId k := k]> (fst maps), <[MessageSubType k := k]> (snd maps)).
Definition maps : gmap Z message_kind * gmap string message_kind :=
  foldl add_allocator_to_maps (∅, ∅) allocators.
Definition byInt : gmap Z message_kind := fst maps.
Definition byStr : gmap string message_kind := snd maps.

(** ** A message that holds its encoded form as text *)
Record encoded_message := mkEncoded { kind : message_kind; encoding : string; payload : string }.
Definition allocate (k : message_kind) : encoded_message := mkEncoded k ENCODING_ASN1_UPER_STRING "".
Definition set_encoding (e : string) (m : encoded_message) : encoded_message := mkEncoded (kind m) e (payload m).
Definition set_data (data : list Z) (m : encoded_message) : encoded_message :=
  let m := mkEncoded (kind m) (encoding m) (ByteStream.byte_stream_encode data) in
  match data with
  | 48 :: _ => set_encoding ENCODING_ASN1_BER_STRING m
  | _ => m
  end.
Definition get_data (m : encoded_message) : option (list Z) := ByteStream.byte_stream_decode (payload m).
Definition is_uper (m : encoded_message) : bool := String.eqb (encoding m) ENCODING_ASN1_UPER_STRING.
Definition is_der (m : encoded_message) : bool := String.eqb (encoding m) ENCODING_ASN1_BER_STRING.

Definition NewMessage_id (messageId : Z) : option encoded_message := allocate <$> byInt !! messageId.
Definition NewMessage_type (messageType : string) : option encoded_message := allocate <$> byStr !! messageType.
Definition GetMessageId_type (messageType : string) : Z :=
  match byStr !! messageType with Some k => get_default_messageId k | None => -1 end.
Definition MessageType (messageId : Z) : option string := MessageSubType <$> byInt !! messageId.
Definition initialize (m : encoded_message) (bytes : list Z) : encoded_message := set_data bytes m.

(** ** Recognising bytes *)
(** [uper::decode_contentId]: below two bytes the variable that is returned was never
    set; [junk] is what it holds. *)
Definition uper_decode_contentId (junk : Z) (bytes : list Z) : Z :=
  match bytes with
  | b0 :: b1 :: _ :: _ => Z.lor (Z.shiftl b0 8) b1
  | [b0; _] => b0
  | _ => junk
  end.

Section codec.
Context {J : Type} {AC : Asn1c J}.

(** [der::decode_contentId]: up to the first 0x30 and at most 17 bytes. *)
Fixpoint der_start (count : Z) (bytes : list Z) : Z :=
  match bytes with
  | b :: r => if negb (b =? 48) && (count <=? 16) then der_start (count + 1) r else count
  | [] => count
  end.
(** The walk over the length fields; [idx] grows by a byte at least. *)
Fixpoint der_walk (fuel : nat) (bytes : list Z) (idx count : Z) (last : Z * Z) : Z * Z :=
  match fuel with
  | O => last
  | S n =>
      if (count <? 5) && (idx <=? Z.of_nat (length bytes)) then
        let '(lenBytes, len) := ber_fetch_length (drop (Z.to_nat idx) bytes) in
        if (lenBytes =? 0) || (lenBytes =? -1) then (lenBytes, 0)
        else der_walk n bytes (idx + lenBytes) ((if len =? frame_messageId then count - 1 else count) + 1) (lenBytes, len)
      else last
  end.
Definition der_decode_contentId (bytes : list Z) : Z :=
  let count := der_start 0 bytes in
  if count <? 16 then
    let '(lenBytes, len) := der_walk (S (S (length bytes))) bytes count 0 (1, 0) in
    let len := if 1 <? lenBytes then Z.land (Z.shiftr len 8) 255 else len in
    if (1 <? len) && (len <? 256) then len else -1
  else -1.

Definition GetCodecAndMessageId (junk : Z) (bytes : list Z) : string * Z :=
  let id := uper_decode_contentId junk bytes in
  if id <? 0 then
    let id := der_decode_contentId bytes in
    (if 0 <? id then ENCODING_ASN1_BER_STRING else "", id)
  else (ENCODING_ASN1_UPER_STRING, id).

(** The length of the extension before the number of the message, taken off the bytes;
    nothing when it reads or erases beyond them. *)
Definition extension_length (bytes : list Z) : option Z :=
  match bytes with
  | [] => None
  | b0 :: r =>
      if b0 =? 0 then Some 0
      else if b0 =? 3 then
        match r with
        | [] => None
        | b1 :: r =>
            let msgIdindex := if b1 =? 0 then 1 else 0 in
            if b1 =? 128 then
              match r with
              | [] => None
              | b2 :: _ => Some (if b2 =? 129 then 4 else if b2 =? 130 then 5 else 3)
              end
            else Some msgIdindex
        end
      else Some 0
  end.
Definition TmxJ2735ExtendedBytes (bytes : list Z) : option (list Z) :=
  n ← extension_length bytes;
  if n <=? Z.of_nat (length bytes) then Some (drop (Z.to_nat n) bytes) else None.

(** The new message, if any. *)
Definition NewMessage (junk : Z) (bytes : list Z) : outcome (option encoded_message) :=
  match TmxJ2735ExtendedBytes bytes with
  | None => undefined
  | Some bytes =>
      let '(codec, id) := GetCodecAndMessageId junk bytes in
      returned (if 0 <? id then
        m ← NewMessage_id id;
        let m := initialize m bytes in
        Some (if String.eqb codec "" then m else set_encoding codec m)
      else None)
  end.

(** ** The encoded message *)
Definition get_msgId (junk : Z) (m : encoded_message) : option Z :=
  id ← (if is_uper m then uper_decode_contentId junk <$> get_data m
        else if is_der m then der_decode_contentId <$> get_data m
        else Some (-1));
  Some (if 0 <? id then id else get_default_messageId (kind m)).

(** What a frame holds, as a message of the kind; a frame of another kind gives a
    null pointer. *)
Definition frame_cast (k : message_kind) (f : option (message_kind * J)) : option J :=
  match f with
  | Some (k', j) => if decide (k' = k) then Some j else None
  | None => None
  end.
(** The message that is held; it may have no data. *)
Definition decode_j2735_message (junk : Z) (m : encoded_message) : outcome (option J) :=
  match get_data m, get_msgId junk m with
  | Some theData, Some msgId =>
      let framed := frame_messageId <? msgId in
      if negb (String.eqb ENCODING_ASN1_UPER_STRING (encoding m)) then returned None
      else if is_uper m then
        if framed then
          match uper_decode_frame theData with Some f => returned (frame_cast (kind m) f) | None => thrown end
        else match uper_decode (kind m) theData with Some j => returned (Some j) | None => thrown end
      else if is_der m then
        if framed then
          match der_decode_frame theData with Some f => returned (frame_cast (kind m) f) | None => thrown end
        else match der_decode (kind m) theData with Some j => returned (Some j) | None => thrown end
      else thrown
  | _, _ => undefined
  end.

Definition encode_data (r : option (list Z)) (m : encoded_message) : outcome encoded_message :=
  match r with Some b => returned (set_data b m) | None => thrown end.
Definition encode_j2735_message (junk : Z) (j : J) (m : encoded_message) : outcome encoded_message :=
  match get_msgId junk m with
  | None => undefined
  | Some msgId =>
      let framed := frame_messageId <? msgId in
      if is_uper m then
        encode_data (if framed then uper_encode_frame (get_default_messageId (kind m)) (kind m) j else uper_encode (kind m) j) m
      else if is_der m then
        encode_data (if framed then der_encode_frame (get_default_messageId (kind m)) (kind m) j else der_encode (kind m) j) m
      else thrown
  end.
(** [initialize] of the message: the encoding of a message that was just allocated. *)
Definition encoded_new (junk : Z) (k : message_kind) (j : J) : outcome encoded_message :=
  encode_j2735_message junk j (allocate k).
End codec.

(** ** Facts *)
Lemma byInt_spec id k : byInt !! id = Some k <-> get_default_messageId k = id.
Proof.
  split.
  - intros H. apply elem_of_map_to_list in H.
    assert (map_to_list byInt = map (fun k => (get_default_messageId k, k)) (snd <$> map_to_list byInt)) as E by by vm_compute.
    rewrite E in H. apply list_elem_of_In, in_map_iff in H as (k' & [= <- <-] & _). done.
  - intros <-. by destruct k.
Qed.
Lemma default_messageId_inj k k' : get_default_messageId k = get_default_messageId k' -> k = k'.
Proof. intros H%byInt_spec. assert (Some k = Some k') as E; [|by injection E]. rewrite <-H. by apply byInt_spec. Qed.
Lemma byStr_spec k : byStr !! MessageSubType k = Some k.
Proof. by destruct k. Qed.
Lemma id_range k : 18 <= get_default_messageId k < 256.
Proof. by destruct k. Qed.

#[local] Opaque byInt byStr.

(** The forms of an extension before a frame: none, and those for a length below 64,
    below 128, below 256, and of 256 and more. *)
Inductive extension : list Z -> Prop :=
| ext_none : extension []
| ext_short : extension [3]
| ext_64 n : n <> 129 -> n <> 130 -> extension [3; 128; n]
| ext_128 n : extension [3; 128; 129; n]
| ext_256 n n' : extension [3; 128; 130; n; n'].

Section facts.
Context {J : Type} {AC : Asn1c J}.

Lemma extension_stripped ext b : extension ext -> TmxJ2735ExtendedBytes (ext ++ 0 :: b) = Some (0 :: b).
Proof.
  unfold TmxJ2735ExtendedBytes. intros [| |n H1%Z.eqb_neq H2%Z.eqb_neq|n|n n']; cbn; rewrite ?H1, ?H2; cbn.
  all: rewrite (proj2 (Z.leb_le _ _)) by lia; by rewrite ?drop_0.
Qed.
Lemma frame_id junk b1 c rest : is_byte b1 -> uper_decode_contentId junk (0 :: b1 :: c :: rest) = b1.
Proof. done. Qed.

Lemma frame_made junk ext b1 c rest :
  extension ext -> Forall is_byte (b1 :: c :: rest) ->
  NewMessage junk (ext ++ 0 :: b1 :: c :: rest) =
  returned (k ← byInt !! b1; Some (mkEncoded k ENCODING_ASN1_UPER_STRING (byte_stream_encode (0 :: b1 :: c :: rest)))).
Proof.
  intros He Hb. inversion Hb as [|x y Hx Hy]; subst x y.
  unfold NewMessage. rewrite extension_stripped by done. unfold GetCodecAndMessageId.
  rewrite frame_id by done. rewrite (proj2 (Z.ltb_ge b1 0)) by (unfold is_byte in Hx; lia).
  destruct (Z.ltb_spec 0 b1) as [|Hle].
  - unfold NewMessage_id. by destruct (byInt !! b1).
  - destruct (byInt !! b1) as [k|] eqn:E; [|done]. apply byInt_spec in E. pose proof (id_range k). lia.
Qed.
Lemma frame_data k b1 c rest : Forall is_byte (b1 :: c :: rest) ->
  get_data (mkEncoded k ENCODING_ASN1_UPER_STRING (byte_stream_encode (0 :: b1 :: c :: rest))) = Some (0 :: b1 :: c :: rest).
Proof. intros H. apply decode_encode. by constructor. Qed.

(** A round of the walk goes on by a byte at least, so two rounds more than there are
    bytes are enough. *)
Lemma der_walk_enough n n' bytes idx count last : (forall l, -1 <= fst (ber_fetch_length l)) ->
  Z.of_nat (length bytes) + 2 <= idx + Z.of_nat n -> (1 <= n <= n')%nat ->
  der_walk n bytes idx count last = der_walk n' bytes idx count last.
Proof.
  intros Hl. revert n' idx count last. induction n as [|n IH]; intros [|n'] idx count last Hn Hn'; try lia.
  cbn [der_walk]. destruct (Z.ltb_spec count 5), (Z.leb_spec idx (Z.of_nat (length bytes))); cbn [andb]; try done.
  pose proof (Hl (drop (Z.to_nat idx) bytes)). destruct (ber_fetch_length _) as [lb len]; cbn [fst] in *.
  destruct (Z.eqb_spec lb 0), (Z.eqb_spec lb (-1)); cbn [orb]; try done. apply IH; lia.
Qed.

(** C9: A frame whose bytes begin with the number of a message the factory knows is
    made into an encoded message of that kind that holds the frame, with or without
    one of the four extensions in front of it, and a frame with another number below
    256 is not: the message is UPER encoded, and its data reads back as the frame. *)
Theorem frame_recognised junk ext b1 c rest m :
  extension ext -> Forall is_byte (b1 :: c :: rest) ->
  NewMessage junk (ext ++ 0 :: b1 :: c :: rest) = returned (Some m) <->
  exists k, get_default_messageId k = b1 /\
    m = mkEncoded k ENCODING_ASN1_UPER_STRING (byte_stream_encode (0 :: b1 :: c :: rest)) /\
    get_data m = Some (0 :: b1 :: c :: rest).
Proof.
  intros He Hb. rewrite frame_made by done. destruct (byInt !! b1) as [k|] eqn:E; cbn [mbind option_bind].
  - apply byInt_spec in E. split.
    + intros H. assert (m = mkEncoded k ENCODING_ASN1_UPER_STRING (byte_stream_encode (0 :: b1 :: c :: rest))) as -> by congruence.
      exists k. by rewrite frame_data.
    + intros (k' & Hk & -> & _). rewrite <-E in Hk. by rewrite (default_messageId_inj _ _ Hk).
  - split; [done|]. intros (k & Hk%byInt_spec & _). congruence.
Qed.

(** The DER coder is never asked: of three bytes and more the UPER coder always has an
    answer, and bytes that begin a DER encoding have a number no message has. *)
Lemma der_never_recognised junk bytes b0 b1 b2 rest :
  TmxJ2735ExtendedBytes bytes = Some (b0 :: b1 :: b2 :: rest) -> Forall is_byte [b0; b1] -> 0 < b0 ->
  NewMessage junk bytes = returned None.
Proof.
  intros E Hb H0. rewrite !Forall_cons in Hb. destruct Hb as (Hb0 & Hb1 & _). unfold is_byte in *.
  unfold NewMessage. rewrite E. unfold GetCodecAndMessageId, uper_decode_contentId.
  assert (256 <= Z.lor (Z.shiftl b0 8) b1) as Hid.
  { rewrite Z.shiftl_mul_pow2 by lia.
    assert (0 < Z.lor (b0 * 2 ^ 8) b1).
    { assert (0 <= Z.lor (b0 * 2 ^ 8) b1) by (apply Z.lor_nonneg; lia).
      assert (Z.lor (b0 * 2 ^ 8) b1 <> 0) by (rewrite Z.lor_eq_0_iff; lia). lia. }
    change 256 with (2 ^ 8). apply Z.log2_le_pow2; [done|]. rewrite Z.log2_lor by lia.
    apply Z.max_le_iff. left. apply Z.log2_le_pow2; lia. }
  destruct (Z.ltb_spec (Z.lor (Z.shiftl b0 8) b1) 0); [lia|].
  destruct (Z.ltb_spec 0 (Z.lor (Z.shiftl b0 8) b1)); [|done].
  unfold NewMessage_id. destruct (byInt !! _) as [k|] eqn:Ek; [|done].
  apply byInt_spec in Ek. pose proof (id_range k). lia.
Qed.

(** [get_msgId] of a message without data returns what the variable holds. *)
Lemma fresh_msgId junk k : get_msgId junk (allocate k) = Some (if 0 <? junk then junk else get_default_messageId k).
Proof. done. Qed.
Lemma encoded_unframed junk k j : 1 <= junk <= 17 -> encoded_new junk k j = encode_data (uper_encode k j) (allocate k).
Proof.
  intros Hj. unfold encoded_new, encode_j2735_message. rewrite fresh_msgId.
  destruct (Z.ltb_spec 0 junk); [|lia]. by destruct (Z.ltb_spec frame_messageId junk); [unfold frame_messageId in *; lia|].
Qed.

Lemma encoded_shape junk k j m : encoded_new junk k j = returned m -> junk <= 0 \/ 17 < junk ->
  exists c rest, Forall is_byte (get_default_messageId k :: c :: rest) /\
    m = mkEncoded k ENCODING_ASN1_UPER_STRING (byte_stream_encode (0 :: get_default_messageId k :: c :: rest)) /\
    uper_decode_frame (0 :: get_default_messageId k :: c :: rest) = Some (Some (k, j)).
Proof.
  intros H Hj. unfold encoded_new, encode_j2735_message in H. rewrite fresh_msgId in H. revert H.
  pose proof (id_range k) as Hid.
  assert ((frame_messageId <? (if 0 <? junk then junk else get_default_messageId k)) = true) as ->.
  { apply Z.ltb_lt. unfold frame_messageId. destruct (Z.ltb_spec 0 junk); lia. }
  cbn [is_uper allocate encoding kind]. change (String.eqb _ _) with true. cbn match. unfold encode_data.
  destruct (uper_encode_frame _ k j) as [b|] eqn:Eb; [|done].
  pose proof (uper_frame_decodes _ _ _ _ Eb) as Hdec.
  apply uper_frame_start in Eb as (Hb & rest & Hrest & ->); [|lia].
  rewrite Z.div_small, Z.mod_small in * by lia. destruct rest as [|c rest]; [done|].
  intros H. exists c, rest. inversion Hb as [|x y _ Hb']; subst x y. split; [done|]. split; [|done].
  change (returned (mkEncoded k ENCODING_ASN1_UPER_STRING (byte_stream_encode (0 :: get_default_messageId k :: c :: rest))) = returned m) in H.
  congruence.
Qed.
Lemma encode_decode junk junk' k j m :
  encoded_new junk k j = returned m -> junk <= 0 \/ 17 < junk ->
  exists bytes, get_data m = Some bytes /\ NewMessage junk' bytes = returned (Some m) /\
    decode_j2735_message junk' m = returned (Some j).
Proof.
  intros H Hj. destruct (encoded_shape junk k j m H Hj) as (c & rest & Hb & -> & Hdec). pose proof (id_range k) as Hid.
  exists (0 :: get_default_messageId k :: c :: rest). split; [by apply frame_data|]. split.
  - pose proof (frame_made junk' [] _ _ _ ext_none Hb) as E. cbn [app] in E. by rewrite E, (proj2 (byInt_spec _ k)).
  - unfold decode_j2735_message, get_msgId. cbn [is_uper encoding kind].
    rewrite !frame_data by done. cbn [fmap option_fmap option_map mbind option_bind].
    change (is_uper _) with true. cbn match. rewrite frame_id by (by apply Forall_inv in Hb).
    cbn [mbind option_bind]. rewrite (proj2 (Z.ltb_lt 0 _)) by lia. cbn match.
    rewrite (proj2 (Z.ltb_lt frame_messageId _)) by (unfold frame_messageId; lia).
    change (negb _) with false. cbn match. rewrite Hdec. unfold frame_cast.
    by destruct (decide (k = k)).
Qed.
(** C8: What a sender encodes a receiver decodes: when the variable that
    [uper::decode_contentId] returns without having set it does not happen to hold one
    of 1 to 17, the bytes of an encoded message are recognised by the factory as the
    same message, and decoding gives the value that was encoded. *)
Theorem encoded_message_decodes junk junk' k j m :
  encoded_new junk k j = returned m -> junk <= 0 \/ 17 < junk ->
  exists bytes, get_data m = Some bytes /\ NewMessage junk' bytes = returned (Some m) /\
    decode_j2735_message junk' m = returned (Some j).
Proof. apply encode_decode. Qed.
End facts.

(** ** A coder *)
(** The contents of a message are its bytes, after the number of its kind. *)
Definition sample_frame (id : Z) (k : message_kind) (j : list Z) : option (list Z) :=
  if forallb (fun b => (0 <=? b) && (b <? 256)) j
  then Some (id / 256 :: id `mod` 256 :: get_default_messageId k :: j) else None.
Definition sample_unframe (b : list Z) : option (option (message_kind * list Z)) :=
  match b with
  | _ :: _ :: c :: j => Some (k ← byInt !! c; Some (k, j))
  | _ => None
  end.
#[local] Instance sample_coder : Asn1c (list Z).
Proof.
  refine {| uper_encode_frame := sample_frame; uper_decode_frame := sample_unframe;
    uper_encode := fun _ j => Some j; uper_decode := fun _ b => Some b;
    der_encode_frame := sample_frame; der_decode_frame := sample_unframe;
    der_encode := fun _ j => Some j; der_decode := fun _ b => Some b;
    ber_fetch_length := fun l => match l with b :: _ => (1, b) | [] => (-1, 0) end |}.
  - intros id k j b Hid. unfold sample_frame. destruct (forallb _ j) eqn:E; [|done]. intros [= <-]. split.
    + pose proof (id_range k). pose proof (Z.mod_pos_bound id 256 ltac:(lia)).
      pose proof (Z.div_lt_upper_bound id 256 128 ltac:(lia) ltac:(lia)). pose proof (Z.div_pos id 256 ltac:(lia) ltac:(lia)).
      rewrite !Forall_cons. unfold is_byte. split_and!; [lia..|].
      apply Forall_forall. intros x Hx. rewrite forallb_forall in E. apply list_elem_of_In, E in Hx. reflect_bools. done.
    + by exists (get_default_messageId k :: j).
  - intros id k j b. unfold sample_frame. destruct (forallb _ j); [|done]. intros [= <-].
    cbn [sample_unframe]. by rewrite (proj2 (byInt_spec _ k)).
Defined.

Definition sample_bytes : list Z := [0; 19; 4; 1; 2; 3].
Definition sample_message : encoded_message := mkEncoded SpatMessage ENCODING_ASN1_UPER_STRING "001304010203".
Lemma frame_recognised_witness :
  NewMessage 0 ([3; 128; 70] ++ sample_bytes) = returned (Some sample_message) <->
  exists k, get_default_messageId k = 19 /\
    sample_message = mkEncoded k ENCODING_ASN1_UPER_STRING (byte_stream_encode sample_bytes) /\
    get_data sample_message = Some sample_bytes.
Proof. apply (frame_recognised (J := list Z) 0 [3; 128; 70] 19 4 [1; 2; 3] sample_message); [by constructor|]. repeat constructor; by unfold is_byte. Defined.
Lemma encoded_message_decodes_witness :
  exists bytes, get_data (mkEncoded SpatMessage ENCODING_ASN1_UPER_STRING "001313010203") = Some bytes /\
    NewMessage 7 bytes = returned (Some (mkEncoded SpatMessage ENCODING_ASN1_UPER_STRING "001313010203")) /\
    decode_j2735_message 7 (mkEncoded SpatMessage ENCODING_ASN1_UPER_STRING "001313010203") = returned (Some [1; 2; 3]).
Proof. apply (encoded_message_decodes 0 7 SpatMessage [1; 2; 3]); [vm_compute; reflexivity|by left]. Defined.
End Factory.
