(* ===== verification/Timer.v ===== *)
(** The timer thread of the plugins ([TmxUtils/src/ThreadTimer.cpp] over
    [ThreadWorker.cpp]): functions that are called again and again, each at its own
    frequency, while other threads add functions, change frequencies and trigger. *)
From S2P Require Import Prelude.
Open Scope Z_scope.

Module Timer.
Section timer.
(** The functions that are called. *)
Context {F : Type}.

(** * Data *)
(** Times of the steady clock are in nanoseconds, the others in milliseconds. *)
Record PeriodicTickData := mkTick { PeriodicTick : F; Frequency : Z; StartDelay : Z; LastTickTime : Z }.
Definition set_LastTickTime (t : Z) (tick : PeriodicTickData) : PeriodicTickData :=
  mkTick (PeriodicTick tick) (Frequency tick) (StartDelay tick) t.
Definition set_Frequency (f : Z) (tick : PeriodicTickData) : PeriodicTickData :=
  mkTick (PeriodicTick tick) f (StartDelay tick) (LastTickTime tick).
Definition ns (ms : Z) : Z := ms * 1000000.
Implicit Type ticks : list PeriodicTickData.

(** * Operations *)
(** A new tick has the time zero of the clock as the time of its last call. *)
Definition AddPeriodicTick (f : F) (frequency startDelay : Z) ticks : Z * list PeriodicTickData :=
  (u32 (Z.of_nat (length ticks)), ticks ++ [mkTick f frequency startDelay 0]).
(** Nothing for the exception about an invalid number. *)
Definition ChangeFrequency (id : Z) (frequency : Z) ticks : option (list PeriodicTickData) :=
  if Z.of_nat (length ticks) <=? id then None
  else Some (alter (set_Frequency frequency) (Z.to_nat id) ticks).
Definition TriggerNow (id : Z) (now : Z) ticks : option (list PeriodicTickData) :=
  if Z.of_nat (length ticks) <=? id then None
  else Some (alter (fun tick => set_LastTickTime (now - ns (Frequency tick)) tick) (Z.to_nat id) ticks).

(** What [DoWork] does to the ticks before its loop. *)
Definition start_times (startTime : Z) ticks : list PeriodicTickData :=
  map (fun tick => set_LastTickTime (startTime - ns (Frequency tick) + ns (StartDelay tick)) tick) ticks.
(** [duration_cast<milliseconds>] and the test of the loop. *)
Definition due (now : Z) (tick : PeriodicTickData) : bool :=
  (0 <? Frequency tick) && (Frequency tick <=? Z.quot (now - LastTickTime tick) 1000000).

(** * The thread and the others *)
(** Where the thread is: there is none, it is between two rounds, before the tick of
    an index, or inside the call it made for one at a time it noted before. *)
Inductive place := none | sleeping | before (index : nat) | inside (index : nat) (now : Z).
(** What happened, latest first: a call with the frequency it was made for, a trigger,
    within a call of the tick or not, a start of the thread. *)
Inductive event := called (index : nat) (now : Z) (frequency : Z) | triggered (index : nat) (within : bool) | started.
Record ThreadTimer := mkTimer {
  periodicTicks : list PeriodicTickData; stopThread : bool; at_ : place; steady_clock : Z; log : list event }.
Definition set_ticks ticks (s : ThreadTimer) : ThreadTimer := mkTimer ticks (stopThread s) (at_ s) (steady_clock s) (log s).
Definition set_place (p : place) (s : ThreadTimer) : ThreadTimer := mkTimer (periodicTicks s) (stopThread s) p (steady_clock s) (log s).
Definition set_stop (b : bool) (s : ThreadTimer) : ThreadTimer := mkTimer (periodicTicks s) b (at_ s) (steady_clock s) (log s).
Definition note (e : event) (s : ThreadTimer) : ThreadTimer := mkTimer (periodicTicks s) (stopThread s) (at_ s) (steady_clock s) (e :: log s).

Definition timer_new : ThreadTimer := mkTimer [] false none 0 [].
(** [ThreadWorker::IsRunning], [Start] and [Stop]: [Stop] asks the thread to end and
    waits until it has; [Start] stops it first. *)
Definition has_thread (s : ThreadTimer) : bool := match at_ s with none => false | _ => true end.
Definition IsRunning (s : ThreadTimer) : bool := negb (stopThread s) && has_thread s.
Definition start_thread (s : ThreadTimer) : ThreadTimer :=
  note started (set_place sleeping (set_ticks (start_times (steady_clock s) (periodicTicks s)) (set_stop false s))).

(** One turn of the thread. *)
Definition turn (s : ThreadTimer) : ThreadTimer :=
  match at_ s with
  | none => s
  | sleeping => if stopThread s then set_place none s else set_place (before 0) s
  | before index =>
      match periodicTicks s !! index with
      | None => set_place sleeping s
      | Some tick =>
          let now := steady_clock s in
          if due now tick then note (called index now (Frequency tick)) (set_place (inside index now) s)
          else set_place (before (S index)) s
      end
  | inside index now =>
      set_place (before (S index)) (set_ticks (alter (set_LastTickTime now) index (periodicTicks s)) s)
  end.

Definition within_call (index : nat) (s : ThreadTimer) : bool :=
  match at_ s with inside i _ => Nat.eqb i index | _ => false end.
(** The thread and the calls of the other threads, in any order. *)
Inductive step : ThreadTimer -> ThreadTimer -> Prop :=
| step_turn s : step s (turn s)
| step_time s t : steady_clock s <= t -> step s (mkTimer (periodicTicks s) (stopThread s) (at_ s) t (log s))
| step_add s f frequency startDelay : step s (set_ticks (snd (AddPeriodicTick f frequency startDelay (periodicTicks s))) s)
| step_change s id frequency ticks : 0 <= id -> ChangeFrequency id frequency (periodicTicks s) = Some ticks -> step s (set_ticks ticks s)
| step_trigger s id ticks : 0 <= id -> TriggerNow id (steady_clock s) (periodicTicks s) = Some ticks ->
    step s (note (triggered (Z.to_nat id) (within_call (Z.to_nat id) s)) (set_ticks ticks s))
| step_start s : has_thread s = false -> step s (start_thread s)
| step_stop s : IsRunning s = true -> step s (set_stop true s).

(** * What holds of the calls *)
(** Since its last call the tick was not triggered, other than within that call, and the
    thread was not started. *)
Definition disturbs (index : nat) (e : event) : Prop :=
  match e with called i _ _ => i = index | triggered i within => i = index /\ within = false | started => True end.
Definition undisturbed (index : nat) (l : list event) : Prop := Forall (fun e => ~ disturbs index e) l.
(** The time of the newest call of a tick that was not disturbed since is the one that
    is kept for it, or will be when the call returns. *)
Definition keeps (s : ThreadTimer) (index : nat) (now : Z) : Prop :=
  exists tick, periodicTicks s !! index = Some tick /\
    if within_call index s then at_ s = inside index now else LastTickTime tick = now.
Definition kept (s : ThreadTimer) : Prop := forall index now f l1 l2,
  log s = l1 ++ called index now f :: l2 -> undisturbed index l1 -> keeps s index now.
Definition spaced (l : list event) : Prop := forall index now now' f f' l1 l2 l3,
  l = l1 ++ called index now' f' :: l2 ++ called index now f :: l3 -> undisturbed index l2 -> now + ns f' <= now'.

Lemma due_spec now tick : due now tick = true -> LastTickTime tick + ns (Frequency tick) <= now.
Proof.
  unfold due, ns. intros H. reflect_bools.
  assert (0 <= now - LastTickTime tick).
  { destruct (Z.le_gt_cases 0 (now - LastTickTime tick)); [done|].
    pose proof (Z.quot_le_mono (now - LastTickTime tick) 0 1000000 ltac:(lia) ltac:(lia)) as Hq.
    rewrite Z.quot_0_l in Hq by lia. lia. }
  rewrite Z.quot_div_nonneg in H0 by lia. pose proof (Z.mul_div_le (now - LastTickTime tick) 1000000 ltac:(lia)). lia.
Qed.

(** What leaves the log alone and keeps the times of the ticks keeps the invariant. *)
Lemma kept_same s s' : log s' = log s -> (forall index now, keeps s index now -> keeps s' index now) -> kept s -> kept s'.
Proof. intros El Hk H index now f l1 l2. rewrite El. intros E Hu. eauto. Qed.
Lemma kept_note s s' e : log s' = e :: log s ->
  (forall index now, ~ disturbs index e -> keeps s index now -> keeps s' index now) ->
  (forall index now f, e = called index now f -> keeps s' index now) -> kept s -> kept s'.
Proof.
  intros El Hk He H index now f l1 l2. rewrite El. destruct l1 as [|e' l1]; intros [= -> E] Hu; [by eapply He|].
  apply Forall_cons in Hu as [Hn Hu]. eauto.
Qed.
Lemma spaced_note (e : event) (l : list event) : spaced l ->
  (forall index now now' f f' l2 l3, e = called index now' f' -> l = l2 ++ called index now f :: l3 ->
     undisturbed index l2 -> now + ns f' <= now') -> spaced (e :: l).
Proof.
  intros H He index now now' f f' l1 l2 l3 E Hu. destruct l1 as [|e' l1]; injection E as -> E; eauto.
Qed.

Lemma keeps_ticks s ticks : 
  (forall index tick, periodicTicks s !! index = Some tick ->
     exists tick', ticks !! index = Some tick' /\ LastTickTime tick' = LastTickTime tick) ->
  forall index now, keeps s index now -> keeps (set_ticks ticks s) index now.
Proof.
  intros Ht index now (tick & Hl & Hk). destruct (Ht _ _ Hl) as (tick' & Hl' & E). exists tick'.
  split; [done|]. unfold within_call in *. cbn. by rewrite E.
Qed.
Definition outside (p : place) : bool := match p with inside _ _ => false | _ => true end.
Lemma within_outside index s : outside (at_ s) = true -> within_call index s = false.
Proof. unfold within_call. by destruct (at_ s). Qed.
Lemma keeps_place s p : outside (at_ s) = true -> outside p = true ->
  forall index now, keeps s index now -> keeps (set_place p s) index now.
Proof.
  intros Hs Hp index now (tick & Hl & Hk). exists tick. split; [done|].
  rewrite within_outside in Hk |- * by done. done.
Qed.

Lemma turn_kept s : kept s -> kept (turn s).
Proof.
  intros Hk. unfold turn. destruct (at_ s) as [| |i|i n] eqn:Ea; [done|..].
  - destruct (stopThread s); (apply (kept_same s); [done|apply keeps_place; [by rewrite Ea|done]|done]).
  - destruct (periodicTicks s !! i) as [tick|] eqn:El;
      [|apply (kept_same s); [done|apply keeps_place; [by rewrite Ea|done]|done]].
    destruct (due (steady_clock s) tick);
      [|apply (kept_same s); [done|apply keeps_place; [by rewrite Ea|done]|done]].
    eapply (kept_note s); [reflexivity|..|done].
    + intros index now Hd (t & Hl & Hw). exists t. split; [done|].
      rewrite within_outside in Hw by by rewrite Ea. unfold within_call. cbn.
      destruct (Nat.eqb_spec i index) as [<-|]; [by destruct Hd|done].
    + intros index now f [= <- <- _]. exists tick. split; [done|]. unfold within_call. cbn. by rewrite Nat.eqb_refl.
  - apply (kept_same s); [done| |done]. intros index now (t & Hl & Hw). unfold within_call in Hw. rewrite Ea in Hw.
    unfold keeps. cbn. destruct (Nat.eqb_spec i index) as [<-|Hne].
    + injection Hw as <-. exists (set_LastTickTime n t). by rewrite list_lookup_alter_eq, Hl.
    + exists t. by rewrite list_lookup_alter_ne.
Qed.

(** The newest call of a tick, looked at from the log after it. *)
Lemma turn_spaced s : kept s -> spaced (log s) -> spaced (log (turn s)).
Proof.
  intros Hk Hs. unfold turn. destruct (at_ s) as [| |i|i n] eqn:Ea; [done|by destruct (stopThread s)| |done].
  destruct (periodicTicks s !! i) as [tick|] eqn:El; [|done]. destruct (due (steady_clock s) tick) eqn:Ed; [|done].
  apply spaced_note; [done|]. intros index now now' f f' l2 l3 [= <- <- <-] E Hu.
  destruct (Hk _ _ _ _ _ E Hu) as (t & Hl & Hw). rewrite within_outside in Hw by by rewrite Ea.
  rewrite El in Hl. injection Hl as <-. subst now. by apply due_spec.
Qed.

Lemma step_kept s s' : step s s' -> kept s -> kept s'.
Proof.
  intros Hstep Hk. destruct Hstep as [s|s t Ht|s f fr d|s id fr ticks Hid Hc|s id ticks Hid Ht|s Hn|s Hr].
  - by apply turn_kept.
  - by apply (kept_same s).
  - apply (kept_same s); [done| |done]. apply keeps_ticks. intros index tick Hl. exists tick.
    split; [by apply lookup_app_l_Some|done].
  - apply (kept_same s); [done| |done]. apply keeps_ticks. intros index tick Hl.
    unfold ChangeFrequency in Hc. destruct (_ <=? _); [done|]. injection Hc as <-.
    destruct (decide (Z.to_nat id = index)) as [<-|].
    + exists (set_Frequency fr tick). by rewrite list_lookup_alter_eq, Hl.
    + exists tick. by rewrite list_lookup_alter_ne.
  - eapply (kept_note s); [reflexivity| |done|done]. intros index now Hd (tick & Hl & Hw).
    unfold TriggerNow in Ht. destruct (_ <=? _); [done|]. injection Ht as <-. unfold keeps. cbn.
    change (within_call index _) with (within_call index s) at 1.
    destruct (decide (Z.to_nat id = index)) as [<-|].
    + eexists. rewrite list_lookup_alter_eq, Hl. split; [done|].
      destruct (within_call (Z.to_nat id) s) eqn:Ew; [done|]. by destruct Hd.
    + exists tick. by rewrite list_lookup_alter_ne.
  - eapply (kept_note s); [reflexivity| |done|done]. intros index now Hd. by destruct Hd.
  - by apply (kept_same s).
Qed.
Lemma step_spaced s s' : step s s' -> kept s -> spaced (log s) -> spaced (log s').
Proof.
  intros Hstep Hk Hs. destruct Hstep; try done.
  - by apply turn_spaced.
  - by apply spaced_note.
  - by apply spaced_note.
Qed.

(** C4: However the timer is used, two calls of a tick are at least the frequency apart
    that it has at the second one, unless the thread is started anew in between or the
    tick is triggered while no call of it is running: adding ticks and changing
    frequencies does not matter, and a trigger while the tick runs has no effect. *)
Theorem calls_spaced s : rtc step timer_new s -> spaced (log s).
Proof.
  assert (forall s s', rtc step s s' -> kept s -> spaced (log s) -> spaced (log s')) as H.
  { induction 1; eauto using step_kept, step_spaced. }
  intros Hr. apply (H _ _ Hr).
  - intros index now f l1 l2 E. by destruct l1.
  - intros index now now' f f' l1 l2 l3 E. by destruct l1.
Qed.

(** ** Every tick gets its turn *)
(** The thread takes its turns while time passes: [clock] is what the clock reads at
    each of them. The callbacks run between two turns, so they may take any time. *)
Definition set_clock (t : Z) (s : ThreadTimer) : ThreadTimer := mkTimer (periodicTicks s) (stopThread s) (at_ s) t (log s).
Fixpoint turns (k : nat) (clock : nat -> Z) (s : ThreadTimer) : ThreadTimer :=
  match k with O => s | S k => turns k (fun n => clock (S n)) (turn (set_clock (clock 0%nat) s)) end.
Definition flows (clock : nat -> Z) : Prop := forall n, clock n <= clock (S n).

(** The calls of a round in which the thread looks at the ticks at the times [nows]. *)
Fixpoint round_events (i : nat) (nows : list Z) ticks : list event :=
  match nows, ticks with
  | now :: nows, t :: ts => (if due now t then [called i now (Frequency t)] else []) ++ round_events (S i) nows ts
  | _, _ => []
  end.
Definition after_call (now : Z) (t : PeriodicTickData) : PeriodicTickData := if due now t then set_LastTickTime now t else t.
Definition ascending (l : list Z) : Prop := forall i x y, l !! i = Some x -> l !! S i = Some y -> x <= y.

Lemma alter_tick (f : PeriodicTickData -> PeriodicTickData) l t r : alter f (length l) (l ++ t :: r) = l ++ f t :: r.
Proof. induction l as [|a l IH]; [done|]. cbn. by f_equal. Qed.
Lemma flows_le clock n m : flows clock -> (n <= m)%nat -> clock n <= clock m.
Proof. intros Hf. induction 1 as [|m _ IH]; [lia|]. specialize (Hf m). lia. Qed.
Lemma turns_app j k clock s : turns (j + k) clock s = turns k (fun n => clock (j + n)%nat) (turns j clock s).
Proof. revert clock s. induction j as [|j IH]; intros clock s; [done|]. cbn. by rewrite IH. Qed.
Lemma flows_shift clock j : flows clock -> flows (fun n => clock (j + n)%nat).
Proof. intros Hf n. rewrite Nat.add_succ_r. apply Hf. Qed.

Lemma turn_before clock l t r stop lg now0 :
  let now := clock 0%nat in
  turns (if due now t then 2 else 1) clock (mkTimer (l ++ t :: r) stop (before (length l)) now0 lg) =
  mkTimer (l ++ after_call now t :: r) stop (before (S (length l))) (clock (if due now t then 1 else 0)%nat)
    ((if due now t then [called (length l) now (Frequency t)] else []) ++ lg).
Proof.
  cbn zeta. unfold after_call. destruct (due (clock 0%nat) t) eqn:E; cbn [turns]; unfold turn;
    cbn [set_clock at_ periodicTicks steady_clock stopThread log]; rewrite list_lookup_middle by done; rewrite E; [|done].
  cbn. by rewrite alter_tick.
Qed.
Lemma round_turns r : forall clock l stop now0 lg, flows clock -> exists k nows,
  turns (S k) clock (mkTimer (l ++ r) stop (before (length l)) now0 lg) =
    mkTimer (l ++ zip_with after_call nows r) stop sleeping (clock k) (rev (round_events (length l) nows r) ++ lg) /\
  length nows = length r /\ ascending (clock 0%nat :: nows ++ [clock k]).
Proof.
  induction r as [|t r IH]; intros clock l stop now0 lg Hf.
  - exists 0%nat, []. split_and!; [|done|by intros [|[]] x y; [intros [= <-] [= <-]| |]].
    cbn [turns]. unfold turn. cbn [set_clock at_ periodicTicks]. rewrite lookup_ge_None_2; [done|].
    rewrite app_nil_r. lia.
  - set (now := clock 0%nat). set (j := (if due now t then 2 else 1)%nat).
    destruct (IH (fun n => clock (j + n)%nat) (l ++ [after_call now t]) stop (clock (if due now t then 1 else 0)%nat)
      ((if due now t then [called (length l) now (Frequency t)] else []) ++ lg) (flows_shift clock j Hf)) as (k & nows & Hk & Hl & Ha).
    exists (j + k)%nat, (now :: nows). split_and!; [|by cbn; rewrite Hl|].
    + pose proof (turn_before clock l t r stop lg now0) as Hb. cbn zeta in Hb. fold now in Hb. fold j in Hb.
      rewrite <-Nat.add_succ_r, turns_app, Hb.
      rewrite length_app, Nat.add_comm in Hk. cbn [length Nat.add] in Hk. rewrite <-!app_assoc in Hk. cbn [app] in Hk.
      rewrite Hk. cbn [zip_with round_events]. rewrite rev_app_distr, <-app_assoc.
      f_equal. by destruct (due now t).
    + assert (forall x, (nows ++ [clock (j + k)%nat]) !! 0%nat = Some x -> now <= x) as Hx.
      { intros x Hx. etrans; [apply (flows_le clock 0 j); [done|lia]|].
        apply (Ha 0%nat); [cbn; by rewrite Nat.add_0_r|exact Hx]. }
      intros [|[|i]] x y; cbn.
      * intros [= <-] [= <-]. lia.
      * intros [= <-] Hy. by apply Hx.
      * intros H1 H2. by apply (Ha (S i)).
Qed.
Lemma ascending_le l : forall x i y, ascending (x :: l) -> l !! i = Some y -> x <= y.
Proof.
  induction l as [|z l IH]; intros x i y Ha Hi; [done|].
  assert (x <= z) by (by apply (Ha 0%nat)). destruct i as [|i]; [by injection Hi as <-|].
  etrans; [done|]. apply (IH z i y); [|done]. intros j. apply (Ha (S j)).
Qed.
Lemma ascending_last l : forall x i y z, ascending (x :: l ++ [z]) -> l !! i = Some y -> y <= z.
Proof.
  induction l as [|w l IH]; intros x i y z Ha Hi; [done|].
  assert (ascending (w :: l ++ [z])) as Ha' by (intros j; apply (Ha (S j))).
  destruct i as [|i]; [|by apply (IH w i)]. injection Hi as <-.
  apply (ascending_le (l ++ [z]) w (length l) z Ha'). by apply list_lookup_middle.
Qed.
Lemma due_later now now' t : now <= now' -> due now t = true -> due now' t = true.
Proof.
  unfold due. rewrite !andb_true_iff, !Z.leb_le. intros Hle [Hf Hp]. split; [done|]. etrans; [done|].
  apply Z.quot_le_mono; lia.
Qed.
Lemma in_round i now f : forall nows ticks j, In (called i now f) (round_events j nows ticks) <->
  exists n t, i = (j + n)%nat /\ nows !! n = Some now /\ ticks !! n = Some t /\ due now t = true /\ f = Frequency t.
Proof.
  induction nows as [|w nows IH]; intros [|t ticks] j; cbn [round_events]; try by split; [|intros (? & ? & ? & ? & ? & _)].
  rewrite in_app_iff, IH. split.
  - intros [H|(n & t' & -> & H)]; [|exists (S n), t'; split; [lia|done]]. destruct (due w t) eqn:E; [|done].
    destruct H as [[= <- <- <-]|[]]. exists 0%nat, t. by rewrite Nat.add_0_r.
  - intros ([|n] & t' & -> & Hn & Ht & Hd & ->); [|right; exists n, t'; split; [lia|done]].
    injection Hn as ->. injection Ht as ->. left. rewrite Hd, Nat.add_0_r. by left.
Qed.

(** C5: However time passes while the callbacks run, a round of the thread that nobody else
    interferes with ends, and has then looked at the ticks one after the other, in the
    order in which they were added, at times within the round, and called those that
    were due when it came to them: every one that was due when the round began, and none
    that is not due at its end. A called tick keeps the time at which it was looked at,
    and the others keep theirs. *)
Theorem round_calls_due s clock : at_ s = before 0 -> flows clock -> exists k nows calls,
  turns (S k) clock s = mkTimer (zip_with after_call nows (periodicTicks s)) (stopThread s) sleeping (clock k) (rev calls ++ log s) /\
  calls = round_events 0 nows (periodicTicks s) /\
  length nows = length (periodicTicks s) /\ ascending (clock 0%nat :: nows ++ [clock k]) /\
  (forall i t, periodicTicks s !! i = Some t -> due (clock 0%nat) t = true -> exists now, In (called i now (Frequency t)) calls) /\
  (forall i now f, In (called i now f) calls -> exists t, periodicTicks s !! i = Some t /\ due (clock k) t = true).
Proof.
  intros Ha Hf. destruct (round_turns (periodicTicks s) clock [] (stopThread s) (steady_clock s) (log s) Hf) as (k & nows & Hk & Hl & Hs).
  exists k, nows, (round_events 0 nows (periodicTicks s)). split_and!; [|done|done|done|..].
  - cbn [app length] in Hk. rewrite <-Hk. destruct s. cbn in *. by subst.
  - intros i t Ht Hd. destruct (lookup_lt_is_Some_2 nows i) as [now Hn]; [rewrite Hl; by eapply lookup_lt_Some|].
    exists now. apply in_round. exists i, t. split_and!; try done. apply (due_later (clock 0%nat)); [|done].
    apply (ascending_le (nows ++ [clock k]) _ i); [done|]. by apply lookup_app_l_Some.
  - intros i now f (n & t & -> & Hn & Ht & Hd & _)%in_round. exists t. split; [done|].
    apply (due_later now); [|done]. by eapply ascending_last.
Qed.

(** A tick that is added while the thread runs is due at once, whatever its delay: the
    time of its last call is the start of the clock, and the clock has run for longer
    than the frequency. *)
Lemma late_tick_due f frequency startDelay ticks now : 0 < frequency -> ns frequency <= now ->
  exists tick, snd (AddPeriodicTick f frequency startDelay ticks) = ticks ++ [tick] /\
    StartDelay tick = startDelay /\ due now tick = true.
Proof.
  intros Hf Hn. eexists. split; [done|]. split; [done|]. unfold due, ns in *. cbn. rewrite Z.sub_0_r.
  apply andb_true_iff. split; [by apply Z.ltb_lt|]. apply Z.leb_le, Z.quot_le_lower_bound; lia.
Qed.
(** When the thread starts, a tick waits for its delay. *)
Lemma started_tick_waits startTime tick now : In tick (start_times startTime [tick]) ->
  0 < Frequency tick -> 0 <= StartDelay tick ->
  due now tick = true -> startTime + ns (StartDelay tick) <= now.
Proof. intros [<-|[]] Hf Hd H. apply due_spec in H. cbn in *. lia. Qed.
End timer.

(** * A timer with two ticks *)
(** The second tick becomes due while the callback of the first one runs. *)
Definition sample_timer : ThreadTimer (F := unit) :=
  mkTimer [mkTick tt 5 0 0; mkTick tt 10 0 0; mkTick tt 100 0 0; mkTick tt 0 0 0] false (before 0) 7000000 [].
Definition sample_clock (n : nat) : Z := 7000000 + 2000000 * Z.of_nat n.
Example sample_round : turns 7 sample_clock sample_timer =
  mkTimer [mkTick tt 5 0 7000000; mkTick tt 10 0 11000000; mkTick tt 100 0 0; mkTick tt 0 0 0] false sleeping 19000000
    [called 1 11000000 10; called 0 7000000 5].
Proof. vm_compute. reflexivity. Qed.
Lemma round_calls_due_witness : exists k nows calls,
  turns (S k) sample_clock sample_timer =
    mkTimer (zip_with after_call nows (periodicTicks sample_timer)) false sleeping (sample_clock k) (rev calls ++ []) /\
  length nows = 4%nat /\ exists now, In (called 0 now 5) calls.
Proof.
  destruct (round_calls_due sample_timer sample_clock) as (k & nows & calls & Hk & _ & Hl & _ & Hd & _);
    [reflexivity|intros n; unfold sample_clock; lia|].
  exists k, nows, calls. split; [exact Hk|]. split; [exact Hl|]. by apply (Hd 0%nat (mkTick tt 5 0 0)).
Defined.
Definition sample_run : ThreadTimer (F := unit) :=
  turn (turn (start_thread (set_ticks (snd (AddPeriodicTick tt 5 0 [])) timer_new))).
Lemma calls_spaced_witness : spaced [called 0 0 5; started].
Proof.
  apply (calls_spaced sample_run). eapply rtc_l; [apply (step_add timer_new tt 5 0)|].
  eapply rtc_l; [by apply step_start|]. eapply rtc_l; [apply step_turn|]. eapply rtc_l; [apply step_turn|]. constructor.
Defined.
End Timer.
