(* ===== verification/SpatPlugin.v ===== *)
(** The plugin that broadcasts the signal phase and timing of a controller
    ([SpatPlugin/src/SpatPlugin.cpp], [SignalControllerConnection.cpp], [SpatMode.cpp],
    and the receiving side of [TmxUtils/src/UdpServer.cpp]), over the tables of [Spat],
    the encoded messages of [Factory] and the timer of [Timer]. The system, the
    configuration and the JSON library are the class [SpatWorld]. *)
From Stdlib Require Import Ascii.
From stdpp Require Import pretty.
From S2P Require Import Prelude Text OrdMap SnmpClient Spat Factory Timer.
Open Scope Z_scope.

(** * The world of the plugin *)
(** The configuration, the clocks, the sockets of the system and the JSON library.
    Whether [select] finds the socket ready depends on the sets it is in: a socket with
    room in its send buffer is ready for writing. [udp_recv] waits for a datagram, and
    does not return when none will ever arrive; otherwise it gives the return value and
    the bytes. [udp_bound] tells whether the socket that was bound with an address and port
    is open; they cannot be bound again then, unless the port is 0 in the sixteen bits of a
    port, for which the system takes any free one. [ticks_due] is how many functions the
    thread of the timer still calls in its round when it is told to stop: it looks at the
    flag only between rounds. *)
Class SpatWorld (node W : Type) := {
  sw_snmp :: Snmp.NetSnmp W;
  local_ip : option string;
  registered : W -> bool;
  muted : W -> bool;
  config_text : string -> W -> string;
  config_unsigned : string -> W -> Z;
  now : W -> Z * W;
  steady_now : W -> Z;
  udp_bound : string -> Z -> W -> bool;
  udp_bind : string -> Z -> W -> option W;
  udp_close : string -> Z -> W -> W;
  udp_select : bool -> bool -> bool -> Z -> W -> Z * W;
  udp_recv : Z -> W -> option (Z * list Z * W);
  udp_room : W -> bool;
  ticks_due : W -> nat;
  json_groups : string -> option (list node);
  json_int : node -> string -> option Z;
  json_text : node -> string -> option string;
  bind_in_use a p w : u16 p <> 0 -> udp_bound a p w = true -> udp_bind a p w = None;
  bind_binds a p w w' : udp_bind a p w = Some w' ->
    forall a' p', udp_bound a' p' w' = true <-> (a', p') = (a, p) \/ udp_bound a' p' w = true;
  close_other a p a' p' w : (a, p) <> (a', p') -> udp_bound a' p' (udp_close a p w) = udp_bound a' p' w;
  select_writable r e t w : udp_room w = true -> 0 < fst (udp_select r true e t w);
  select_brings_nothing r wr e t n w : udp_recv n w = None -> udp_recv n (snd (udp_select r wr e t w)) = None;
  recv_bytes n w k l w' : udp_recv n w = Some (k, l, w') -> Forall ByteStream.is_byte l;
  now_bound a p w : udp_bound a p (snd (now w)) = udp_bound a p w;
  select_bound r wr e t a p w : udp_bound a p (snd (udp_select r wr e t w)) = udp_bound a p w;
  recv_bound n w k l w' a p : udp_recv n w = Some (k, l, w') -> udp_bound a p w' = udp_bound a p w;
  resolve_bound b h w a p : udp_bound a p (snd (Snmp.getaddrinfo b h w)) = udp_bound a p w;
  open_bound session w a p : udp_bound a p (snd (Snmp.snmp_open session w)) = udp_bound a p w
}.
(** A SPAT message in the decoded form of the coder: made from a table, and the bits of
    the status of its first intersection. *)
Class SpatForms (J : Type) := {
  spat_of : Spat.IntersectionState -> J;
  spat_status : J -> option (list Z)
}.

Create HintDb keeps.
Module SpatPlugin.
(** * Data *)
Inductive SPAT_MODE := SPAT | TSCBM | UNKNOWN.
Definition spat_mode_map : list (SPAT_MODE * string) := [(SPAT, "SPAT"); (TSCBM, "TSCBM"); (UNKNOWN, "UNKNOWN")].
Fixpoint mode_of (m : list (SPAT_MODE * string)) (mode : string) : SPAT_MODE :=
  match m with
  | [] => UNKNOWN
  | (key, value) :: m => if String.eqb value mode then key else mode_of m mode
  end.
Definition spat_mode_from_string (mode : string) : SPAT_MODE := mode_of spat_mode_map mode.
Definition spat_mode_to_string (mode : SPAT_MODE) : string :=
  match mode with SPAT => "SPAT" | TSCBM => "TSCBM" | UNKNOWN => "UNKNOWN" end.

Definition SPAT_BINARY_BUFFER_SIZE : Z := 245.
Definition UDP_SERVER_TIMEOUT_MS : Z := 1000.
Definition SPAT_INTERVAL_MAX_THRESHOLD_MS : Z := 300.
Definition IvpMsgFlags_RouteDSRC : Z := 1.
Definition signalPhaseAndTimingMessage_PSID : Z := 32770.

Definition intersectionStatus_new : list (string * bool) := Eval vm_compute in
  foldr (fun key m => OrdMap.insert key false m) []
  ["Manual Control Is Enabled"; "Stop Time Is Activated"; "Failure Flash"; "Preemption Is Active";
   "Signal Priority Is Active"; "Fixed Time Operation"; "Traffic Dependent Operation"; "Standby Operation";
   "Failure Mode"; "Off"; "Recent MAP Message Update"; "Recent Change in MAP Assigned Lane Ids Used";
   "No Valid MAP No Available At This Time"; "No Valid SPAT is Available At This Time"].
Record SignalControllerConnection := mkConnection {
  serverAddress : string; serverPort : Z; scSNMPClient : Snmp.snmp_client; signalGroupMapping : string;
  intersectionName : string; intersectionId : Z; intersectionStatus : list (string * bool) }.
Definition set_intersectionStatus (m : list (string * bool)) (c : SignalControllerConnection) : SignalControllerConnection :=
  mkConnection (serverAddress c) (serverPort c) (scSNMPClient c) (signalGroupMapping c) (intersectionName c) (intersectionId c) m.

(** The bits of the status that have a name, with the number of the standard and the key
    they are reported under. *)
Definition status_bits : list (string * Z) :=
  [("Manual Control Is Enabled", 0); ("Stop Time Is Activated", 1); ("Failure Flash", 2); ("Preemption Is Active", 3);
   ("Signal Priority Is Active", 4); ("Fixed Time Operation", 5); ("Traffic Dependent Operation", 6);
   ("Standby Operation", 7); ("Failure Mode", 8); ("Off", 9); ("Recent MAP Message Update", 10);
   ("Recent Change in MAP Assigned Lane Ids Used", 11); ("No Valid SPAT is Available At This Time", 13)].
Definition report (v : Z) (m : list (string * bool)) (e : string * Z) : list (string * bool) :=
  OrdMap.insert e.1 (Z.testbit v e.2) m.
Definition updateIntersectionStatus (status : list Z) (m : list (string * bool)) : option (list (string * bool)) :=
  b0 ← status !! 0%nat; b1 ← status !! 1%nat;
  let statusVal := Z.lor (u16 b0) (u16 (Z.shiftl (u16 b1) 8)) in
  Some (foldl (report statusVal) m status_bits).

(** * What comes out of a call *)
(** Exceptions: those of [UdpServer], the other ones of the library, and those of other
    libraries. A call can also wait for ever, have no defined behaviour, or end the
    process. *)
Inductive exn := UdpServerRuntimeError | TmxException | other_exception.
Inductive result (A : Type) := Ret (a : A) | Throw (e : exn) | Blocked | Undefined | Terminated.
Arguments Ret {A} a.
Arguments Throw {A} e.
Arguments Blocked {A}.
Arguments Undefined {A}.
Arguments Terminated {A}.
Inductive output :=
| status_item (key value : string)
| event_log
| spat_message (flags psid : Z) (m : Factory.encoded_message).

Section plugin.
Context {node W J : Type} {SW : SpatWorld node W} {AC : Asn1c J} {SF : SpatForms J}.
(** What variables hold that the code does not set. *)
Variable junk : Z.

(** [receiving] holds the mode of the call that waits for a packet, if there is one. *)
Record Plugin := mkPlugin {
  scConnection : option SignalControllerConnection;
  spatMode : SPAT_MODE;
  skippedMessages : Z;
  isConnected : bool;
  lastSpatTimeMs : Z;
  maxSpatIntervalMs : Z;
  spatReceiverThread : list (Timer.PeriodicTickData (F := unit));
  running : bool;
  receiving : option SPAT_MODE;
  statusMap : gmap string string;
  outputs : list output;
  world : W }.
Definition set_connection (c : option SignalControllerConnection) (s : Plugin) : Plugin :=
  mkPlugin c (spatMode s) (skippedMessages s) (isConnected s) (lastSpatTimeMs s) (maxSpatIntervalMs s)
    (spatReceiverThread s) (running s) (receiving s) (statusMap s) (outputs s) (world s).
Definition set_mode (m : SPAT_MODE) (s : Plugin) : Plugin :=
  mkPlugin (scConnection s) m (skippedMessages s) (isConnected s) (lastSpatTimeMs s) (maxSpatIntervalMs s)
    (spatReceiverThread s) (running s) (receiving s) (statusMap s) (outputs s) (world s).
Definition set_skipped (n : Z) (s : Plugin) : Plugin :=
  mkPlugin (scConnection s) (spatMode s) n (isConnected s) (lastSpatTimeMs s) (maxSpatIntervalMs s)
    (spatReceiverThread s) (running s) (receiving s) (statusMap s) (outputs s) (world s).
Definition set_connected (b : bool) (s : Plugin) : Plugin :=
  mkPlugin (scConnection s) (spatMode s) (skippedMessages s) b (lastSpatTimeMs s) (maxSpatIntervalMs s)
    (spatReceiverThread s) (running s) (receiving s) (statusMap s) (outputs s) (world s).
Definition set_interval (last max : Z) (s : Plugin) : Plugin :=
  mkPlugin (scConnection s) (spatMode s) (skippedMessages s) (isConnected s) last max
    (spatReceiverThread s) (running s) (receiving s) (statusMap s) (outputs s) (world s).
Definition set_thread (ticks : list (Timer.PeriodicTickData (F := unit))) (run : bool) (s : Plugin) : Plugin :=
  mkPlugin (scConnection s) (spatMode s) (skippedMessages s) (isConnected s) (lastSpatTimeMs s) (maxSpatIntervalMs s)
    ticks run (receiving s) (statusMap s) (outputs s) (world s).
Definition set_receiving (m : option SPAT_MODE) (s : Plugin) : Plugin :=
  mkPlugin (scConnection s) (spatMode s) (skippedMessages s) (isConnected s) (lastSpatTimeMs s) (maxSpatIntervalMs s)
    (spatReceiverThread s) (running s) m (statusMap s) (outputs s) (world s).
Definition set_statusMap (m : gmap string string) (s : Plugin) : Plugin :=
  mkPlugin (scConnection s) (spatMode s) (skippedMessages s) (isConnected s) (lastSpatTimeMs s) (maxSpatIntervalMs s)
    (spatReceiverThread s) (running s) (receiving s) m (outputs s) (world s).
Definition emit (o : output) (s : Plugin) : Plugin :=
  mkPlugin (scConnection s) (spatMode s) (skippedMessages s) (isConnected s) (lastSpatTimeMs s) (maxSpatIntervalMs s)
    (spatReceiverThread s) (running s) (receiving s) (statusMap s) (outputs s ++ [o]) (world s).
Definition set_world (w : W) (s : Plugin) : Plugin :=
  mkPlugin (scConnection s) (spatMode s) (skippedMessages s) (isConnected s) (lastSpatTimeMs s) (maxSpatIntervalMs s)
    (spatReceiverThread s) (running s) (receiving s) (statusMap s) (outputs s) w.

(** * Calls *)
Definition M (A : Type) : Type := Plugin -> result A * Plugin.
Definition ret {A} (a : A) : M A := fun s => (Ret a, s).
Definition fail {A} (r : result A) : M A := fun s => (r, s).
Definition bindM {A B} (m : M A) (f : A -> M B) : M B := fun s =>
  match m s with
  | (Ret a, s) => f a s
  | (Throw e, s) => (Throw e, s)
  | (Blocked, s) => (Blocked, s)
  | (Undefined, s) => (Undefined, s)
  | (Terminated, s) => (Terminated, s)
  end.
Local Notation "'do' x <- m ; k" := (bindM m (fun x => k)) (at level 10, x pattern, m at level 100, k at level 200).
Local Notation "m ;; k" := (bindM m (fun _ => k)) (at level 100, right associativity).
Definition gets {A} (f : Plugin -> A) : M A := fun s => (Ret (f s), s).
Definition modify (f : Plugin -> Plugin) : M unit := fun s => (Ret tt, f s).
Definition call {A} (f : W -> A * W) : M A := fun s => let '(a, w) := f (world s) in (Ret a, set_world w s).
(** A value that must be there: nothing is no defined behaviour, or an exception. *)
Definition deref {A} (o : option A) : M A := match o with Some a => ret a | None => fail Undefined end.
Definition or_throw {A} (e : exn) (o : option A) : M A := match o with Some a => ret a | None => fail (Throw e) end.
Definition of_outcome {A} (o : outcome A) : M A :=
  match o with returned a => ret a | thrown => fail (Throw TmxException) | undefined => fail Undefined end.
Definition catch (m : M unit) (handler : exn -> option (M unit)) : M unit := fun s =>
  match m s with
  | (Throw e, s) => match handler e with Some h => h s | None => (Throw e, s) end
  | r => r
  end.
Fixpoint for_each {A} (l : list A) (f : A -> M unit) : M unit :=
  match l with [] => ret tt | a :: l => f a ;; for_each l f end.

(** [PluginClient::SetStatus]: only a new value is sent. *)
Definition SetStatus (key value : string) : M unit := modify (fun s =>
  if muted (world s) then s
  else match statusMap s !! key with
       | Some v => if String.eqb value v then s else emit (status_item key value) (set_statusMap (<[key := value]> (statusMap s)) s)
       | None => emit (status_item key value) (set_statusMap (<[key := value]> (statusMap s)) s)
       end).
Definition bool_text (b : bool) : string := if b then "true" else "false".
Definition keyConnectionStatus : string := "Connection Status".
Definition keySkippedMessages : string := "Skipped Messages".
Definition keySpatMaxInterval : string := "Max SPaT Interval (ms)(all values above allowable range 300 will apear as 301)".

(** * Receiving ([UdpServer]) *)
(** One set is given to [select] in the place of all three. A call that waits in [recv]
    already goes on from there. *)
Definition wait_packet (maxSize : Z) : M (Z * list Z) := fun s =>
  match udp_recv maxSize (world s) with
  | Some (n, msg, w) => (Ret (n, msg), set_receiving None (set_world w s))
  | None => (Blocked, s)
  end.
Definition TimedReceive (maxSize maxWait_ms : Z) : M (Z * list Z) := fun s =>
  match receiving s with
  | Some _ => wait_packet maxSize s
  | None =>
      let '(retval, w) := udp_select true true true maxWait_ms (world s) in
      let s := set_world w s in
      if retval =? -1 then (Ret (-1, []), s)
      else if 0 <? retval then wait_packet maxSize s
      else (Ret (-1, []), s)
  end.
(** The bytes up to a zero as text. *)
Fixpoint text_of (bytes : list Z) : string :=
  match bytes with
  | [] => EmptyString
  | b :: r => if b =? 0 then EmptyString else String (ascii_of_N (Z.to_N b)) (text_of r)
  end.
(** The buffer of 4000 bytes is zero behind what was received; when it is full and holds
    no zero, the text is read beyond it. *)
Definition stringTimedReceive (maxWait_ms : Z) : M string :=
  do (num_of_bytes, msg) <- TimedReceive 4000 maxWait_ms;
  if 0 <? num_of_bytes then
    if (4000 <=? num_of_bytes) && forallb (fun b => negb (b =? 0)) msg then fail Undefined
    else ret (text_of (take (Z.to_nat num_of_bytes) msg))
  else fail (Throw UdpServerRuntimeError).

(** * The connection to the controller *)
(** [Ntcip1202::setSignalGroupMappingList]; a phase that is missing is 0. *)
Definition group_of (value : node) : option Spat.SignalGroupMapping :=
  signalGroupId ← json_int value "SignalGroupId";
  typeName ← json_text value "Type";
  Some (Spat.mkMapping signalGroupId (default 0 (json_int value "Phase")) typeName).
Definition setSignalGroupMappingList (json : string) (c : Spat.t) : M Spat.t :=
  do groups <- or_throw other_exception (json_groups json);
  do l <- or_throw other_exception (mapM group_of groups);
  ret (Spat.mkSpat (Spat.ntcip1202Data c) (Spat.phaseToIndexMapping c) (Spat.signalGroupMappingList c ++ l)).
Definition the_connection : M SignalControllerConnection := do c <- gets scConnection; deref c.
Definition update_status (status : list Z) : M unit :=
  do c <- the_connection;
  do m <- deref (updateIntersectionStatus status (intersectionStatus c));
  modify (set_connection (Some (set_intersectionStatus m c))).

Definition receiveBinarySPAT : M Spat.IntersectionState :=
  do c <- the_connection;
  do (numBytes, buf) <- TimedReceive SPAT_BINARY_BUFFER_SIZE UDP_SERVER_TIMEOUT_MS;
  if 0 <? numBytes then
    do ntcip1202 <- setSignalGroupMappingList (signalGroupMapping c) (Spat.mkSpat [] [] []);
    match Spat.copyBytesIntoNtcip1202 (Some buf) numBytes ntcip1202 with
    | inl _ => fail (Throw TmxException)
    | inr ntcip1202 =>
        do ms <- call now;
        do spat <- deref (Spat.ToJ2735SPAT ntcip1202 ms (intersectionName c) (intersectionId c));
        update_status (Spat.status spat) ;;
        ret spat
    end
  else fail (Throw UdpServerRuntimeError).

Definition newline : ascii := "010".
Definition blank : ascii := " ".
Fixpoint remove_char (c : ascii) (s : string) : string :=
  match s with
  | EmptyString => EmptyString
  | String a s => if Ascii.eqb a c then remove_char c s else String a (remove_char c s)
  end.
(** The hexadecimal text of a packet. *)
Definition payload_hex (packet : string) : option string :=
  let index := Text.find "Payload=" packet 0 in
  if index =? npos then None
  else Some (remove_char blank (remove_char newline (String.substring (Z.to_nat index + 8) (String.length packet) packet))).
(** [dynamic_cast] of the message the factory made, if any. *)
Definition as_spat (m : option Factory.encoded_message) : option Factory.encoded_message :=
  m ← m; if decide (Factory.kind m = SpatMessage) then Some m else None.
Definition receiveUPERSPAT : M Factory.encoded_message :=
  do packet <- stringTimedReceive UDP_SERVER_TIMEOUT_MS;
  do hex <- or_throw TmxException (payload_hex packet);
  do bytes <- deref (ByteStream.byte_stream_decode hex);
  do made <- of_outcome (Factory.NewMessage junk bytes);
  do m <- deref (as_spat made);
  do data <- of_outcome (Factory.decode_j2735_message junk m);
  do spat <- deref data;
  do status <- deref (spat_status spat);
  update_status status ;;
  ret m.

(** The interval between two messages, or the exception about one that is too long. *)
Definition calculateSPaTInterval (lastSpatMessage currentSpatMessage : Z) : option Z :=
  if negb (lastSpatMessage =? 0) then
    let intervalMs := u64 (currentSpatMessage - lastSpatMessage) in
    if SPAT_INTERVAL_MAX_THRESHOLD_MS <? intervalMs then None else Some (u32 intervalMs)
  else Some (u32 currentSpatMessage).

(** * A packet *)
Definition processSpat : M unit :=
  do m <- receiveUPERSPAT;
  modify (emit (spat_message IvpMsgFlags_RouteDSRC signalPhaseAndTimingMessage_PSID m)).
Definition processTSCBM : M unit :=
  do spat <- receiveBinarySPAT;
  do data <- or_throw TmxException (uper_encode_frame (Factory.get_default_messageId SpatMessage) SpatMessage (spat_of spat));
  modify (emit (spat_message IvpMsgFlags_RouteDSRC signalPhaseAndTimingMessage_PSID
    (Factory.set_data data (Factory.allocate SpatMessage)))).
Definition measureSpatInterval : M unit :=
  do last <- gets lastSpatTimeMs;
  if negb (last =? 0) then
    do currentTimeMs <- call now;
    do max <- gets maxSpatIntervalMs;
    match calculateSPaTInterval last currentTimeMs with
    | Some intervalMs =>
        if max <? intervalMs then
          modify (set_interval last intervalMs) ;; SetStatus keySpatMaxInterval (pretty intervalMs) ;;
          modify (set_interval currentTimeMs intervalMs)
        else modify (set_interval currentTimeMs max)
    | None =>
        modify (emit event_log) ;; SetStatus keyConnectionStatus "UNHEALTHY" ;;
        modify (set_interval last (SPAT_INTERVAL_MAX_THRESHOLD_MS + 1)) ;;
        SetStatus keySpatMaxInterval (pretty (SPAT_INTERVAL_MAX_THRESHOLD_MS + 1)) ;;
        modify (set_interval currentTimeMs (SPAT_INTERVAL_MAX_THRESHOLD_MS + 1))
    end
  else
    do ms <- call now;
    do max <- gets maxSpatIntervalMs;
    modify (set_interval ms max).
(** The mode is read before the call waits. *)
Definition process_mode : M unit :=
  do mode <- gets (fun s => default (spatMode s) (receiving s));
  match mode with SPAT => processSpat | TSCBM => processTSCBM | UNKNOWN => processTSCBM end.
Definition report_status : M unit :=
  do c <- the_connection;
  for_each (intersectionStatus c) (fun '(key, value) => SetStatus key (bool_text value)).
Definition packet_failed (e : exn) : option (M unit) :=
  match e with
  | UdpServerRuntimeError => Some (modify (emit event_log) ;; SetStatus keyConnectionStatus "UNHEALTHY")
  | TmxException => Some (
      do n <- gets skippedMessages;
      modify (set_skipped (u32 (n + 1))) ;; modify (emit event_log) ;; SetStatus keySkippedMessages (pretty (u32 (n + 1))))
  | other_exception => None
  end.
Definition processTSCPacket : M unit :=
  do c <- gets scConnection;
  match c with
  | None => ret tt
  | Some _ => catch (process_mode ;; measureSpatInterval ;; report_status) packet_failed
  end.
(** The function the timer calls. *)
Definition tick : M unit :=
  processTSCPacket ;;
  do connected <- gets isConnected;
  if connected : bool then ret tt
  else
    do max <- gets maxSpatIntervalMs;
    (if max <? SPAT_INTERVAL_MAX_THRESHOLD_MS then SetStatus keyConnectionStatus "HEALTHY" else ret tt) ;;
    modify (set_connected true).

(** * The configuration *)
(** [PluginClient::HandleException] of an exception the plugin cannot go on after. *)
Definition HandleException_abort : M unit := modify (emit event_log) ;; fail Terminated.
(** An exception that leaves the thread ends the process. *)
Definition uncaught (m : M unit) : M unit := fun s => match m s with (Throw _, s) => (Terminated, s) | r => r end.
Fixpoint times (n : nat) (m : M unit) : M unit :=
  match n with O => ret tt | S n => m ;; times n m end.
(** [ThreadWorker::Stop] joins the thread: the call it is in comes to its end, and the
    functions behind it in the round that are due are called, before the round ends. *)
Definition join_thread : M unit := uncaught (
  do recv <- gets receiving;
  (match recv with Some _ => tick | None => ret tt end) ;;
  do n <- gets (fun s => Nat.min (ticks_due (world s)) (length (spatReceiverThread s)));
  times n tick).
Definition stop_thread : M unit :=
  do run <- gets running;
  if run : bool then
    join_thread ;; do ticks <- gets spatReceiverThread; modify (set_thread ticks false)
  else ret tt.
Definition start_thread : M unit :=
  stop_thread ;;
  modify (fun s => set_thread (Timer.start_times (steady_now (world s)) (spatReceiverThread s)) true s).
(** The server is bound before the session is opened, and closed when there is none. *)
Definition SignalControllerConnection_new (localIp : string) (localPort : Z) (mapping scIp : string) (scSNMPPort : Z)
    (community name : string) (id : Z) : M (option SignalControllerConnection) := fun s =>
  match udp_bind localIp localPort (world s) with
  | None => (Ret None, s)
  | Some w =>
      match Snmp.snmp_client_new scIp scSNMPPort community "" "" "SHA" "" "" "" 3 1000000 w with
      | (inl _, w) => (Ret None, set_world (udp_close localIp localPort w) s)
      | (inr client, w) => (Ret (Some (mkConnection localIp localPort client mapping name id intersectionStatus_new)), set_world w s)
      end
  end.
(** The old connection is closed when the new one has taken its place. *)
Definition replace_connection (c : SignalControllerConnection) : M unit := modify (fun s =>
  let w := match scConnection s with Some old => udp_close (serverAddress old) (serverPort old) (world s) | None => world s end in
  set_connection (Some c) (set_world w s)).
(** Without a request nothing is sent, and nothing can fail. *)
Definition set_client (client : Snmp.snmp_client) (c : SignalControllerConnection) : SignalControllerConnection :=
  mkConnection (serverAddress c) (serverPort c) client (signalGroupMapping c) (intersectionName c) (intersectionId c) (intersectionStatus c).
Definition ENABLE_SPAT_OID : string := "1.3.6.1.4.1.1206.3.5.2.9.44.1.0".
Definition initializeSignalControllerConnection (enable_spat : bool) : M bool :=
  if enable_spat then
    do c <- the_connection;
    do (r, client) <- call (fun w =>
      let '(r, client, w) := Snmp.process_snmp_request ENABLE_SPAT_OID Snmp.SET (Snmp.mkResponse 2 [] Snmp.INTEGER) (scSNMPClient c) w in
      (r, client, w));
    modify (set_connection (Some (set_client client c))) ;;
    match r with
    | Snmp.returned (b, _) => ret b
    | Snmp.thrown _ => fail (Throw TmxException)
    | Snmp.undefined => fail Undefined
    end
  else ret true.

(** ** Reading the settings *)
Definition warn_unknown (mode : SPAT_MODE) : M unit :=
  match mode with UNKNOWN => modify (emit event_log) | _ => ret tt end.
(** The thread is stopped only when there is a connection already. *)
Definition connect (ip : string) (port : Z) (mapping scIp : string) (scSNMPPort : Z) (community name : string) (id : Z) : M unit :=
  do old <- gets scConnection;
  (match old with Some _ => stop_thread | None => ret tt end) ;;
  do c <- SignalControllerConnection_new ip port mapping scIp scSNMPPort community name id;
  match c with
  | Some c => replace_connection c
  | None => HandleException_abort
  end.
Definition start_receiving : M unit :=
  do connected <- initializeSignalControllerConnection false;
  if connected : bool then
    SetStatus keyConnectionStatus "IDLE" ;;
    modify (fun s => set_thread (snd (Timer.AddPeriodicTick tt 5 0 (spatReceiverThread s))) (running s) s) ;;
    start_thread
  else SetStatus keyConnectionStatus "DISCONNECTED" ;; modify (set_connected false).
Definition read_mode (w : W) : M unit :=
  modify (set_mode (spat_mode_from_string (config_text "SPAT_Mode" w))) ;;
  warn_unknown (spat_mode_from_string (config_text "SPAT_Mode" w)).
Definition configure (ip_address : string) (w : W) : M unit :=
  read_mode w ;;
  connect ip_address (s32 (config_unsigned "Local_UDP_Port" w)) (config_text "SignalGroupMapping" w) (config_text "TSC_IP" w)
    (s32 (config_unsigned "TSC_SNMP_Port" w)) (config_text "TSC_SNMP_Community" w) (config_text "Intersection_Name" w)
    (config_unsigned "Intersection_Id" w) ;;
  start_receiving.
Definition UpdateConfigSettings : M unit :=
  do r <- gets (fun s => registered (world s));
  if r : bool then
    do w <- gets world;
    do ip_address <- or_throw TmxException local_ip;
    configure ip_address w
  else ret tt.
(** The constructor of the plugin; in a simulation it subscribes first. *)
Definition plugin_new (w : W) : Plugin := mkPlugin None UNKNOWN 0 false 0 0 [] false None ∅ [] w.
Definition OnStateChange (now_registered : bool) : M unit := if now_registered then UpdateConfigSettings else ret tt.
Definition OnConfigChanged : M unit := UpdateConfigSettings.

(** * The plugin in time *)
(** The thread enters a call, and comes to its end, while it runs; other things happen
    between, and a call that waits for ever is left where it is. The core changes the
    configuration at any time; an exception of that is logged. The sockets stay as the
    plugin left them, and a packet that never comes does not come. *)
Definition entered (w : W) (s : Plugin) : Plugin := set_receiving (Some (spatMode s)) (set_world w s).
Definition same_sockets (w w' : W) : Prop :=
  (forall a p, udp_bound a p w' = udp_bound a p w) /\ (forall n, udp_recv n w = None -> udp_recv n w' = None).
Inductive step : Plugin -> Plugin -> Prop :=
| step_enters s n w : running s = true -> receiving s = None -> scConnection s <> None ->
    udp_select true true true UDP_SERVER_TIMEOUT_MS (world s) = (n, w) -> 0 < n -> step s (entered w s)
| step_tick s s' : running s = true -> tick s = (Ret tt, s') -> step s s'
| step_config s s' : UpdateConfigSettings s = (Ret tt, s') -> step s s'
| step_config_failed s s' e : UpdateConfigSettings s = (Throw e, s') -> step s (emit event_log s')
| step_world s w : same_sockets (world s) w -> step s (set_world w s).

(** * Facts about calls *)
Definition failure {A B} (r : result A) : result B :=
  match r with Ret _ => Undefined | Throw e => Throw e | Blocked => Blocked | Undefined => Undefined | Terminated => Terminated end.
Lemma bind_run {A B} (m : M A) (f : A -> M B) s r s' : bindM m f s = (r, s') ->
  (exists a s1, m s = (Ret a, s1) /\ f a s1 = (r, s')) \/
  (exists r1, m s = (r1, s') /\ (forall a, r1 <> Ret a) /\ r = failure r1).
Proof.
  unfold bindM. destruct (m s) as [[a|e| | |] s1]; [intros H; left; by exists a, s1|..].
  all: intros [= <- <-]; right; by eexists.
Qed.

(** * What calls leave alone *)
Section keeps.
Context (R : Plugin -> Plugin -> Prop) `{!PreOrder R}.
Definition keeps {A} (m : M A) : Prop := forall s, R s (snd (m s)).
Lemma across_ret {A} (a : A) : keeps (ret a).
Proof. intros s. done. Qed.
Lemma across_fail {A} (r : result A) : keeps (fail r).
Proof. intros s. done. Qed.
Lemma across_gets {A} (f : Plugin -> A) : keeps (gets f).
Proof. intros s. done. Qed.
Lemma across_deref {A} (o : option A) : keeps (deref o).
Proof. destruct o; [apply across_ret|apply across_fail]. Qed.
Lemma across_or_throw {A} e (o : option A) : keeps (or_throw e o).
Proof. destruct o; [apply across_ret|apply across_fail]. Qed.
Lemma across_of_outcome {A} (o : outcome A) : keeps (of_outcome o).
Proof. destruct o; [apply across_ret|apply across_fail..]. Qed.
Lemma across_bind {A B} (m : M A) (f : A -> M B) : keeps m -> (forall a, keeps (f a)) -> keeps (bindM m f).
Proof.
  intros Hm Hf s. unfold bindM. specialize (Hm s). destruct (m s) as [[a| | | |] s1]; [|done..].
  etransitivity; [exact Hm|]. apply Hf.
Qed.
Lemma across_catch m handler : keeps m -> (forall e h, handler e = Some h -> keeps h) -> keeps (catch m handler).
Proof.
  intros Hm Hh s. unfold catch. specialize (Hm s). destruct (m s) as [[a|e| | |] s1]; try done.
  destruct (handler e) as [h|] eqn:E; [|done]. etransitivity; [exact Hm|]. by apply (Hh e).
Qed.
Lemma across_for_each {A} (l : list A) (f : A -> M unit) : (forall a, In a l -> keeps (f a)) -> keeps (for_each l f).
Proof.
  induction l as [|a l IH]; intros H; [apply across_ret|]. cbn. apply across_bind; [apply H; by left|]. intros _. apply IH. intros b Hb. apply H. by right.
Qed.
Lemma across_modify f : (forall s, R s (f s)) -> keeps (modify f).
Proof. intros H s. apply H. Qed.
Lemma across_call {A} (f : W -> A * W) : (forall s, R s (set_world (snd (f (world s))) s)) -> keeps (call f).
Proof. intros H s. unfold call. specialize (H s). by destruct (f (world s)). Qed.
Lemma across_run {A} (m : M A) s r s' : keeps m -> m s = (r, s') -> R s s'.
Proof. intros H E. specialize (H s). by rewrite E in H. Qed.
End keeps.

(** The server, the thread, the bound sockets and whether there was a packet; the
    connection status at most becomes unhealthy. What is reported of the intersection
    never has the key of the connection status. *)
Definition server_of (s : Plugin) : option (string * Z) := (fun c => (serverAddress c, serverPort c)) <$> scConnection s.
Definition keys_ok (s : Plugin) : Prop := forall c, scConnection s = Some c -> Forall (fun e => e.1 <> keyConnectionStatus) (intersectionStatus c).
Record kept (s s' : Plugin) : Prop := {
  kept_keys : keys_ok s';
  kept_server : server_of s' = server_of s;
  kept_running : running s' = running s;
  kept_bound : forall a p, udp_bound a p (world s') = udp_bound a p (world s);
  kept_connected : isConnected s' = isConnected s;
  kept_status : statusMap s' !! keyConnectionStatus = statusMap s !! keyConnectionStatus \/
    statusMap s' !! keyConnectionStatus = Some "UNHEALTHY" }.
Definition packet_rel (s s' : Plugin) : Prop := keys_ok s -> kept s s'.
#[local] Instance packet_rel_preorder : PreOrder packet_rel.
Proof.
  split.
  - intros s H. constructor; auto.
  - intros s1 s2 s3 H12 H23 H1. specialize (H12 H1). specialize (H23 (kept_keys _ _ H12)).
    destruct H12 as [? ? ? B ? S], H23 as [? ? ? B' ? S']. constructor; [done|congruence..|intros a p; by rewrite B'|congruence|].
    destruct S' as [-> | ->]; [|by right]. exact S.
Qed.
#[local] Hint Resolve across_ret across_fail across_gets across_deref across_or_throw across_of_outcome across_bind : keeps.
Abbreviation steady := (keeps packet_rel).

Lemma steady_modify f : (forall s, packet_rel s (f s)) -> steady (modify f).
Proof. apply across_modify. Qed.
(** A change of what the relation does not look at. *)
Lemma packet_rel_same s s' : scConnection s' = scConnection s -> running s' = running s ->
  isConnected s' = isConnected s -> statusMap s' = statusMap s ->
  (forall a p, udp_bound a p (world s') = udp_bound a p (world s)) -> packet_rel s s'.
Proof.
  intros Hc Hr Hi Hm Hb H. constructor; try done; [|unfold server_of; by rewrite Hc|left; by rewrite Hm].
  intros c. rewrite Hc. apply H.
Qed.
Lemma steady_world {A} (f : W -> A * W) : (forall a p w, udp_bound a p (snd (f w)) = udp_bound a p w) -> steady (call f).
Proof. intros H. apply across_call. intros s. apply packet_rel_same; [done..|]. intros a p. apply H. Qed.
Lemma steady_time : steady (call now).
Proof. apply steady_world. apply now_bound. Qed.
Lemma steady_emit o : steady (modify (emit o)).
Proof. apply steady_modify. intros s. by apply packet_rel_same. Qed.
Lemma steady_interval a b : steady (modify (set_interval a b)).
Proof. apply steady_modify. intros s. by apply packet_rel_same. Qed.
Lemma steady_skipped n : steady (modify (set_skipped n)).
Proof. apply steady_modify. intros s. by apply packet_rel_same. Qed.
Lemma SetStatus_other key value s k : k <> key -> statusMap (snd (SetStatus key value s)) !! k = statusMap s !! k.
Proof.
  intros Hk. cbn. destruct (muted _); [done|]. destruct (statusMap s !! key) as [v|]; [destruct (String.eqb value v); [done|]|].
  all: cbn; by rewrite lookup_insert_ne.
Qed.
Lemma SetStatus_this key value s : statusMap (snd (SetStatus key value s)) !! key = statusMap s !! key \/
  statusMap (snd (SetStatus key value s)) !! key = Some value.
Proof.
  cbn. destruct (muted _); [by left|]. destruct (statusMap s !! key) as [v|] eqn:E; [destruct (String.eqb value v); [by left|]|].
  all: right; cbn; by rewrite lookup_insert_eq.
Qed.
Lemma SetStatus_rest key value s : let s' := snd (SetStatus key value s) in
  scConnection s' = scConnection s /\ running s' = running s /\
  isConnected s' = isConnected s /\ world s' = world s.
Proof. cbn. destruct (muted _); [done|]. destruct (statusMap s !! key) as [v|]; [destruct (String.eqb value v)|]; done. Qed.
Lemma steady_set key value : key <> keyConnectionStatus \/ value = "UNHEALTHY" -> steady (SetStatus key value).
Proof.
  intros Hk s Hok. pose proof (SetStatus_rest key value s) as (Hc & Hr & Hi & Hw). cbv zeta in *.
  constructor; [|unfold server_of; by rewrite Hc|done..|by rewrite Hw|done|].
  - intros c. rewrite Hc. apply Hok.
  - destruct (decide (key = keyConnectionStatus)) as [->|Hne].
    + destruct Hk as [Hk| ->]; [done|]. apply SetStatus_this.
    + left. by apply SetStatus_other.
Qed.
Lemma steady_connection : steady the_connection.
Proof. unfold the_connection. auto with keeps typeclass_instances. Qed.
Lemma steady_wait n : steady (wait_packet n).
Proof.
  intros s. unfold wait_packet. destruct (udp_recv n (world s)) as [[[k l] w']|] eqn:Er; [|done].
  cbn. apply packet_rel_same; try done. intros a p. cbn. by rewrite (recv_bound _ _ _ _ _ _ _ Er).
Qed.
Lemma steady_receive n t : steady (TimedReceive n t).
Proof.
  intros s. unfold TimedReceive. destruct (receiving s); [apply steady_wait|]. pose proof (fun a p => select_bound true true true t a p (world s)) as Hs.
  destruct (udp_select true true true t (world s)) as [retval w]. cbn [snd] in Hs.
  assert (packet_rel s (set_world w s)) by by apply packet_rel_same.
  case_if; [done|]. case_if; [|done]. etransitivity; [eassumption|]. apply steady_wait.
Qed.
Lemma status_keys status m m' : updateIntersectionStatus status m = Some m' ->
  Forall (fun e => e.1 <> keyConnectionStatus) m -> Forall (fun e => e.1 <> keyConnectionStatus) m'.
Proof.
  unfold updateIntersectionStatus. destruct (status !! 0%nat) as [b0|]; [|done]. cbn [mbind option_bind].
  destruct (status !! 1%nat) as [b1|]; [|done]. cbn [mbind option_bind]. intros H%(inj Some) Hm. subst m'.
  assert (Forall (fun e => e.1 <> keyConnectionStatus) status_bits) as Hb.
  { unfold status_bits. repeat (apply Forall_cons; split; [discriminate|]). constructor. }
  revert m Hm. generalize (Z.lor (u16 b0) (u16 (Z.shiftl (u16 b1) 8))) as v. intros v.
  induction Hb as [|[key bit] l Hk _ IH]; intros m Hm; [done|]. cbn [foldl]. apply IH. by apply OrdMap.Forall_insert.
Qed.
Lemma steady_update status : steady (update_status status).
Proof.
  intros s Hok. unfold update_status, the_connection, bindM, gets, deref.
  destruct (scConnection s) as [c|] eqn:Ec; cbn; [|by apply (reflexivity (R := packet_rel))].
  destruct (updateIntersectionStatus status (intersectionStatus c)) as [m|] eqn:Em; cbn; [|by apply (reflexivity (R := packet_rel))].
  constructor; cbn; try done; [|unfold server_of; cbn; by rewrite Ec|by left].
  intros c'. cbn. intros [= <-]. eapply status_keys; [exact Em|]. by apply Hok.
Qed.
#[local] Hint Resolve steady_time steady_emit steady_interval steady_skipped steady_connection steady_receive steady_update : keeps.
Ltac steady :=
  repeat match goal with
    | |- steady (bindM _ _) => apply across_bind; [apply _| |intros ?]
    | |- steady (match ?x with _ => _ end) => destruct x
    | |- steady (SetStatus _ _) => apply steady_set; first [by right | left; discriminate]
    | |- steady (let _ := _ in _) => cbv zeta
    | _ => solve [auto with keeps typeclass_instances]
    end.

Lemma steady_string t : steady (stringTimedReceive t).
Proof. unfold stringTimedReceive. steady. Qed.
Lemma steady_groups json c : steady (setSignalGroupMappingList json c).
Proof. unfold setSignalGroupMappingList. steady. Qed.
#[local] Hint Resolve steady_string steady_groups : keeps.
Lemma steady_binary : steady receiveBinarySPAT.
Proof. unfold receiveBinarySPAT. steady. Qed.
Lemma steady_uper : steady receiveUPERSPAT.
Proof. unfold receiveUPERSPAT. steady. Qed.
#[local] Hint Resolve steady_binary steady_uper : keeps.
Lemma steady_mode : steady process_mode.
Proof. unfold process_mode, processSpat, processTSCBM. steady. Qed.
Lemma steady_measure : steady measureSpatInterval.
Proof. unfold measureSpatInterval. steady. Qed.
#[local] Hint Resolve steady_mode steady_measure : keeps.
Lemma steady_report : steady report_status.
Proof.
  intros s Hok. unfold report_status, the_connection, bindM, gets, deref.
  destruct (scConnection s) as [c|] eqn:Ec; cbn; [|by apply (reflexivity (R := packet_rel))].
  apply (across_for_each packet_rel); [|done]. intros [key value] Hin. apply steady_set. left.
  specialize (Hok c Ec). rewrite Forall_forall in Hok. by apply (Hok (key, value)), list_elem_of_In.
Qed.
#[local] Hint Resolve steady_report : keeps.
Lemma steady_packet : steady processTSCPacket.
Proof.
  unfold processTSCPacket. steady. apply across_catch; [apply _|steady|].
  intros [] h [= <-]; steady.
Qed.

(** * What holds of every reachable plugin *)
(** A connection has its port bound, when it is not one the system chose, and the thread
    running; without one the thread does not run. *)
Definition wf (s : Plugin) : Prop := keys_ok s /\
  match scConnection s with
  | Some c => running s = true /\ (u16 (serverPort c) <> 0 -> udp_bound (serverAddress c) (serverPort c) (world s) = true)
  | None => running s = false
  end.
(** What the thread does keeps that, and the server. *)
Definition held (s s' : Plugin) : Prop := wf s -> wf s' /\ server_of s' = server_of s.
#[local] Instance held_preorder : PreOrder held.
Proof.
  split; [by intros s H|]. intros s1 s2 s3 H12 H23 H1. destruct (H12 H1) as [H2 E2], (H23 H2) as [H3 E3]. split; congruence.
Qed.
Lemma held_kept s s' : packet_rel s s' -> held s s'.
Proof.
  intros H [Hk Hc]. destruct (H Hk) as [Hk' Hs Hr Hb _ _]. split; [|done]. split; [done|].
  unfold server_of in Hs. destruct (scConnection s') as [c'|], (scConnection s) as [c|]; try done; [|by rewrite Hr].
  injection Hs as Ha Hp. by rewrite Hr, Hb, Ha, Hp.
Qed.
(** After the packet a tick at most changes the connection status. *)
Lemma tick_run s r s' : tick s = (r, s') -> exists r1 s1, processTSCPacket s = (r1, s1) /\
  ((r1 = Ret tt /\ r = Ret tt /\
    if isConnected s1 then s' = s1
    else s' = set_connected true (if maxSpatIntervalMs s1 <? SPAT_INTERVAL_MAX_THRESHOLD_MS
                                  then snd (SetStatus keyConnectionStatus "HEALTHY" s1) else s1))
   \/ (r = r1 /\ r1 <> Ret tt /\ s' = s1)).
Proof.
  unfold tick, bindM. destruct (processTSCPacket s) as [[[]|e| | |] s1]; cbn; intros H; eexists _, s1; (split; [done|]).
  2-5: right; injection H as <- <-; done.
  left. destruct (isConnected s1) eqn:Ec; [by injection H as <- <-|].
  destruct (maxSpatIntervalMs s1 <? SPAT_INTERVAL_MAX_THRESHOLD_MS); by injection H as <- <-.
Qed.
Lemma wf_same s s' : scConnection s' = scConnection s -> running s' = running s -> world s' = world s -> wf s -> wf s'.
Proof. intros Hc Hr Hw [Hk H]. split; [intros c; rewrite Hc; apply Hk|by rewrite Hc, Hr, Hw]. Qed.
Lemma held_same s s' : scConnection s' = scConnection s -> running s' = running s -> world s' = world s -> held s s'.
Proof. intros Hc Hr Hw H. split; [by apply (wf_same s)|unfold server_of; by rewrite Hc]. Qed.
Lemma held_tick : keeps held tick.
Proof.
  intros s. destruct (tick s) as [r s'] eqn:E. cbn [snd]. apply tick_run in E as (r1 & s1 & Hp & H).
  assert (held s s1) as H1. { apply held_kept. eapply across_run; [apply steady_packet|exact Hp]. }
  destruct H as [(_ & _ & H)|(_ & _ & ->)]; [|done]. destruct (isConnected s1); [by subst|]. subst s'.
  etransitivity; [exact H1|]. destruct (_ <? _); [|by apply held_same].
  pose proof (SetStatus_rest keyConnectionStatus "HEALTHY" s1) as (Hc & Hr & _ & Hw). cbv zeta in *.
  by apply held_same.
Qed.
Lemma wf_tick s r s' : tick s = (r, s') -> wf s -> wf s'.
Proof. intros H Hwf. eapply (across_run held); [apply held_tick|exact H|done]. Qed.
Lemma held_join : keeps held join_thread.
Proof.
  unfold join_thread. assert (forall m, keeps held m -> keeps held (uncaught m)) as Hu.
  { intros m H s. unfold uncaught. specialize (H s). by destruct (m s) as [[] s1]. }
  apply Hu. apply across_bind; [apply _|by apply across_gets, _|]. intros recv.
  apply across_bind; [apply _|destruct recv; [apply held_tick|apply across_ret, _]|]. intros _.
  apply across_bind; [apply _|by apply across_gets, _|]. intros n.
  induction n as [|n IH]; [apply across_ret, _|]. apply across_bind; [apply _|apply held_tick|by intros []].
Qed.

(** ** A new configuration *)
Lemma snmp_bound a p ip port c u l ap app pp ppp v t w :
  udp_bound a p (snd (Snmp.snmp_client_new ip port c u l ap app pp ppp v t w)) = udp_bound a p w.
Proof.
  unfold Snmp.snmp_client_new, Snmp.validate_address.
  pose proof (resolve_bound (Snmp.ip_start_pattern ip) ip w a p) as H1.
  destruct (Snmp.getaddrinfo _ ip w) as [valid w1]. cbn [snd] in H1. destruct valid; cbn [negb]; [|done].
  destruct (Snmp.auth_config l ap app) as [|auth]; [done|]. destruct (Snmp.priv_config l pp ppp auth) as [|priv]; [done|].
  set (session := Snmp.session_of _ _ _ _ _ _ _ _ _). pose proof (open_bound session w1 a p) as H2.
  destruct (Snmp.snmp_open session w1) as [opened w2]. cbn [snd] in H2. destruct opened; cbn; congruence.
Qed.
Definition connected_to (ip : string) (port : Z) (s : Plugin) : Prop := exists c, scConnection s = Some c /\
  serverAddress c = ip /\ serverPort c = port /\ intersectionStatus c = intersectionStatus_new /\
  (u16 port <> 0 -> udp_bound ip port (world s) = true).
(** A server is only made on a port that is not bound, so closing the old one leaves it. *)
Lemma new_connection ip port mapping scIp snmp community name id s r s' :
  bindM (SignalControllerConnection_new ip port mapping scIp snmp community name id)
    (fun c => match c with Some c => replace_connection c | None => HandleException_abort end) s = (r, s') ->
  (forall c, scConnection s = Some c -> u16 (serverPort c) <> 0 -> udp_bound (serverAddress c) (serverPort c) (world s) = true) ->
  (r = Ret tt /\ connected_to ip port s' /\ running s' = running s) \/ r = Terminated.
Proof.
  unfold bindM, SignalControllerConnection_new. intros H Hb.
  destruct (udp_bind ip port (world s)) as [w|] eqn:Eb; [|right; by injection H as <- <-].
  pose proof (fun a p => snmp_bound a p scIp snmp community "" "" "SHA" "" "" "" 3 1000000 w) as Hw.
  destruct (Snmp.snmp_client_new _ _ _ _ _ _ _ _ _ _ _ w) as [[e|client] w']; [right; by injection H as <- <-|].
  left. unfold replace_connection, modify in H. cbn in H, Hw. injection H as <- <-.
  split; [done|]. split; [|done]. eexists. split; [done|]. split_and!; [done..|]. cbn. intros Hport.
  assert (udp_bound ip port w' = true) as Hnew by (rewrite Hw; apply (bind_binds _ _ _ _ Eb); by left).
  destruct (scConnection s) as [c|] eqn:Ec; [|done].
  rewrite close_other; [done|]. intros [= <- <-]. specialize (Hb c eq_refl Hport).
  by rewrite (bind_in_use _ _ _ Hport Hb) in Eb.
Qed.
(** Nothing is thrown by the thread that is joined. *)
Lemma join_no_throw s e : fst (join_thread s) <> Throw e.
Proof. unfold join_thread, uncaught. by destruct (bindM _ _ s) as [[]]. Qed.
Lemma stop_run s : stop_thread s =
  if running s then match join_thread s with (Ret _, s1) => (Ret tt, set_thread (spatReceiverThread s1) false s1) | (r, s1) => (r, s1) end
  else (Ret tt, s).
Proof.
  unfold stop_thread, bindM at 1, gets at 1. destruct (running s); [|done]. unfold bindM at 1.
  by destruct (join_thread s) as [[[]| | | |] s1].
Qed.
(** What a new configuration comes to. *)
Definition updated (s s' : Plugin) : Prop := exists ip, local_ip = Some ip /\ running s' = true /\
  connected_to ip (s32 (config_unsigned "Local_UDP_Port" (world s))) s'.
Lemma connect_run ip port mapping scIp snmp community name id s r s' : wf s ->
  connect ip port mapping scIp snmp community name id s = (r, s') ->
  match r with Ret _ => connected_to ip port s' /\ running s' = false | Throw _ => False | _ => True end.
Proof.
  intros Hwf H. unfold connect in H. apply bind_run in H as [(old & s1 & H1 & H)|(r1 & H1 & Hn & _)]; [|injection H1 as <- <-; by edestruct Hn].
  injection H1 as <- <-. pose proof Hwf as [_ Hc]. apply bind_run in H as [([] & s2 & H2 & H)|(r2 & H2 & Hn & ->)].
  - assert (running s2 = false /\ forall c, scConnection s2 = Some c -> u16 (serverPort c) <> 0 ->
      udp_bound (serverAddress c) (serverPort c) (world s2) = true) as [Hrun Hb].
    { destruct (scConnection s) as [c0|] eqn:Ec0; [|injection H2 as <-; by rewrite Ec0].
      rewrite stop_run, (proj1 Hc) in H2. pose proof (held_join s Hwf) as [[_ Hj] _].
      destruct (join_thread s) as [[[]| | | |] s1]; [|done..]. injection H2 as <-. split; [done|].
      cbn in Hj |- *. destruct (scConnection s1); [|done]. intros c [= <-]. apply Hj. }
    apply new_connection in H as [(-> & Hn & Hr)| ->]; [|done..]. by rewrite Hr.
  - destruct (scConnection s) as [c0|] eqn:Ec0; [|injection H2 as <- <-; by destruct (Hn tt)].
    rewrite stop_run, (proj1 Hc) in H2. pose proof (join_no_throw s) as Ht.
    destruct (join_thread s) as [[[]|e| | |] s1]; injection H2 as <- <-; [by destruct (Hn tt)|by destruct (Ht e)|done..].
Qed.
Lemma connected_status key value ip port s : connected_to ip port s -> connected_to ip port (snd (SetStatus key value s)).
Proof.
  pose proof (SetStatus_rest key value s) as (Hc & _ & _ & Hw). cbv zeta in *.
  intros (c & Ec & H). exists c. by rewrite Hc, Hw.
Qed.
Lemma update_eq s : UpdateConfigSettings s =
  if registered (world s) then
    match local_ip with Some ip => configure ip (world s) s | None => (Throw TmxException, s) end
  else (Ret tt, s).
Proof.
  unfold UpdateConfigSettings, bindM, gets. destruct (registered (world s)); [|done]. by destruct local_ip.
Qed.
Lemma start_receiving_run ip port s r s' : connected_to ip port s -> running s = false -> start_receiving s = (r, s') ->
  r = Ret tt /\ running s' = true /\ connected_to ip port s'.
Proof.
  intros Hc Hrun H. unfold start_receiving, bindM at 1, initializeSignalControllerConnection, ret at 1 in H. cbv match in H.
  unfold bindM at 1 in H. apply (connected_status keyConnectionStatus "IDLE") in Hc.
  pose proof (SetStatus_rest keyConnectionStatus "IDLE" s) as (_ & Hr & _). cbv zeta in Hr.
  destruct (SetStatus keyConnectionStatus "IDLE" s) as [r3 s3] eqn:E3. cbn [snd] in Hc, Hr.
  assert (r3 = Ret tt) as -> by by injection E3. unfold bindM at 1, modify at 1 in H.
  unfold start_thread, bindM at 1 in H. rewrite stop_run in H. cbn [running set_thread] in H. rewrite Hr, Hrun in H.
  by injection H as <- <-.
Qed.
(** The mode is set first, whatever it is. *)
Lemma read_mode_run w s : exists s1, read_mode w s = (Ret tt, s1) /\ scConnection s1 = scConnection s /\ running s1 = running s /\
  receiving s1 = receiving s /\ world s1 = world s.
Proof. unfold read_mode, bindM, modify, warn_unknown. destruct (spat_mode_from_string _); by eexists. Qed.
Lemma update_run s r s' : wf s -> UpdateConfigSettings s = (r, s') ->
  match r with
  | Ret _ => s' = s \/ updated s s'
  | Throw e => s' = s
  | _ => True
  end.
Proof.
  intros Hwf. rewrite update_eq. destruct (registered (world s)); [|intros [= <- <-]; by left].
  destruct local_ip as [ip|] eqn:Eip; [|by intros [= <- <-]].
  destruct (read_mode_run (world s) s) as (s1 & E1 & Hc1 & Hr1 & _ & Hw1). unfold configure, bindM at 1. rewrite E1. intros H.
  assert (wf s1) as Hwf1 by by apply (wf_same s).
  apply bind_run in H as [([] & s2 & H2 & H)|(r2 & H2 & Hn & ->)]; apply connect_run in H2; try done.
  - destruct H2 as [H2 Hr2]. destruct (start_receiving_run _ _ _ _ _ H2 Hr2 H) as (-> & Hr & Hc). right. by exists ip.
  - destruct r2 as [[]| | | |]; [by destruct (Hn tt)|done..].
Qed.
Lemma wf_updated s s' : updated s s' -> wf s'.
Proof.
  intros (ip & _ & Hr & c & Hc & Ha & Hp & Hi & Hb). split.
  - intros c' Ec'. rewrite Hc in Ec'. injection Ec' as <-.
    rewrite Hi. unfold intersectionStatus_new. repeat (apply Forall_cons; split; [discriminate|]). constructor.
  - rewrite Hc. split; [done|]. by rewrite Ha, Hp.
Qed.
Lemma wf_world s w : same_sockets (world s) w -> wf s -> wf (set_world w s).
Proof.
  intros [Hb _] [Hk Hc]. split; [exact Hk|]. cbn. destruct (scConnection s); [|done]. by rewrite Hb.
Qed.
Lemma wf_step s s' : step s s' -> wf s -> wf s'.
Proof.
  intros H Hwf. destruct H as [s n w Hrun _ _ E _|s s' _ H|s s' H|s s' e H|s w H].
  - apply (wf_same (set_world w s)); [done..|]. destruct Hwf as [Hk Hc]. split; [exact Hk|]. cbn.
    pose proof (fun a p => select_bound true true true UDP_SERVER_TIMEOUT_MS a p (world s)) as Hb. rewrite E in Hb. cbn [snd] in Hb.
    destruct (scConnection s); [|done]. by rewrite Hb.
  - by eapply wf_tick.
  - apply update_run in H as [->|H]; [done|by eapply wf_updated|done].
  - apply update_run in H as ->; [|done]. by apply (wf_same s).
  - by apply wf_world.
Qed.
Lemma wf_reachable w s : rtc step (plugin_new w) s -> wf s.
Proof.
  assert (forall s s', rtc step s s' -> wf s -> wf s') as H by (induction 1; eauto using wf_step).
  intros Hr. apply (H _ _ Hr). split; [by intros c|done].
Qed.

(** ** What can wait *)
(** Only the wait for a packet can keep a call of the plugin. *)
Section flows.
Context (comes : forall n w, udp_recv n w <> None).
Definition flows {A} (m : M A) : Prop := forall s, fst (m s) <> Blocked.
Lemma flows_ret {A} (a : A) : flows (ret a).
Proof. by intros s. Qed.
Lemma flows_gets {A} (f : Plugin -> A) : flows (gets f).
Proof. by intros s. Qed.
Lemma flows_modify f : flows (modify f).
Proof. by intros s. Qed.
Lemma flows_call {A} (f : W -> A * W) : flows (call f).
Proof. intros s. unfold call. by destruct (f (world s)). Qed.
Lemma flows_fail {A} (r : result A) : r <> Blocked -> flows (fail r).
Proof. by intros H s. Qed.
Lemma flows_deref {A} (o : option A) : flows (deref o).
Proof. by destruct o. Qed.
Lemma flows_or_throw {A} e (o : option A) : flows (or_throw e o).
Proof. by destruct o. Qed.
Lemma flows_of_outcome {A} (o : outcome A) : flows (of_outcome o).
Proof. by destruct o. Qed.
Lemma flows_bind {A B} (m : M A) (f : A -> M B) : flows m -> (forall a, flows (f a)) -> flows (bindM m f).
Proof. intros Hm Hf s. unfold bindM. specialize (Hm s). destruct (m s) as [[a| | | |] s1]; [apply Hf|done..]. Qed.
Lemma flows_catch m handler : flows m -> (forall e h, handler e = Some h -> flows h) -> flows (catch m handler).
Proof.
  intros Hm Hh s. unfold catch. specialize (Hm s). destruct (m s) as [[a|e| | |] s1]; try done.
  destruct (handler e) as [h|] eqn:E; [|done]. by apply (Hh e).
Qed.
Lemma flows_for_each {A} (l : list A) (f : A -> M unit) : (forall a, flows (f a)) -> flows (for_each l f).
Proof. intros H. induction l as [|a l IH]; [apply flows_ret|]. by apply flows_bind. Qed.
Lemma flows_receive n t : flows (TimedReceive n t).
Proof.
  assert (flows (wait_packet n)) as Hw.
  { intros s. unfold wait_packet. specialize (comes n (world s)). by destruct (udp_recv n (world s)) as [[[] ?]|]. }
  intros s. unfold TimedReceive. destruct (receiving s); [apply Hw|]. destruct (udp_select _ _ _ _ _) as [k w].
  case_if; [done|]. case_if; [apply Hw|done].
Qed.
Ltac flows :=
  repeat match goal with
    | |- flows (bindM _ _) => apply flows_bind; [|intros ?]
    | |- flows (match ?x with _ => _ end) => destruct x
    | |- flows (let _ := _ in _) => cbv zeta
    | _ => first [apply flows_ret | apply flows_gets | apply flows_modify | apply flows_call | apply flows_deref
                 | apply flows_or_throw | apply flows_of_outcome | apply flows_receive | by apply flows_fail]
    end.
Lemma flows_processing : flows (bindM process_mode (fun _ => bindM measureSpatInterval (fun _ => report_status))).
Proof.
  unfold process_mode, processSpat, receiveUPERSPAT, stringTimedReceive, processTSCBM, receiveBinarySPAT, setSignalGroupMappingList,
    update_status, the_connection, measureSpatInterval, report_status, the_connection, SetStatus. flows.
  apply flows_for_each. intros []. flows.
Qed.
Lemma flows_tick : flows tick.
Proof.
  unfold tick, processTSCPacket, SetStatus. flows. apply flows_catch; [apply flows_processing|].
  intros [] h [= <-]; unfold SetStatus; flows.
Qed.
Lemma flows_join : flows join_thread.
Proof.
  assert (forall m, flows m -> flows (uncaught m)) as Hu.
  { intros m H s. unfold uncaught. specialize (H s). by destruct (m s) as [[] s1]. }
  apply Hu. flows; [apply flows_tick|]. induction a1 as [|n IH]; [apply flows_ret|]. apply flows_bind; [apply flows_tick|done].
Qed.
End flows.

(** C27: A change of the configuration that keeps the local address and port never comes
    to its end, whatever else it changes. It first waits for the thread: for the call that
    waits for a packet, and for the calls of the round that follow it. When they have
    ended, the new connection binds the port while the old one still has it, and the
    exception ends the process; it ends it too when one of those calls does, or they have no
    defined behaviour. The change waits for ever only when a packet never comes. A port of
    0, for which the system takes any free one, is excluded. *)
Theorem reconfiguration_ends_plugin w s c :
  rtc step (plugin_new w) s -> scConnection s = Some c -> registered (world s) = true ->
  local_ip = Some (serverAddress c) -> s32 (config_unsigned "Local_UDP_Port" (world s)) = serverPort c ->
  u16 (serverPort c) <> 0 ->
  let outcome := fst (UpdateConfigSettings s) in
  (outcome = Terminated \/ outcome = Undefined \/ outcome = Blocked) /\
  outcome = match fst (join_thread (snd (read_mode (world s) s))) with Ret _ => Terminated | r => r end /\
  (receiving s = None -> ticks_due (world s) = 0%nat -> outcome = Terminated) /\
  ((forall n w, udp_recv n w <> None) -> outcome <> Blocked).
Proof.
  intros Hr%wf_reachable Ec Hreg Hip Hp Hport. cbv zeta.
  assert (fst (UpdateConfigSettings s) = match fst (join_thread (snd (read_mode (world s) s))) with Ret _ => Terminated | r => r end) as E.
  - rewrite update_eq, Hreg, Hip. destruct (read_mode_run (world s) s) as (s1 & E1 & Hc1 & Hr1 & Hv1 & Hw1).
    unfold configure, bindM at 1. rewrite E1, Hp. cbn [snd]. unfold bindM at 1, connect, bindM at 1, gets at 1. rewrite Hc1, Ec.
    assert (wf s1) as Hwf1 by by apply (wf_same s). pose proof Hwf1 as [_ Hb]. rewrite Hc1, Ec in Hb.
    unfold bindM at 1. rewrite stop_run, (proj1 Hb). pose proof (held_join s1 Hwf1) as [[_ Hj] Hs].
    destruct (join_thread s1) as [[[]| | | |] s2]; [|done..]. cbn [snd fst] in Hj, Hs |- *.
    unfold server_of in Hs. rewrite Hc1, Ec in Hs. destruct (scConnection s2) as [c2|] eqn:Ec2; [|done]. injection Hs as Ha Hp2.
    unfold bindM at 1, SignalControllerConnection_new. cbn [world set_thread]. rewrite bind_in_use; [done|done|].
    rewrite <-Ha, <-Hp2. apply Hj. by rewrite Hp2.
  - rewrite E. pose proof (join_no_throw (snd (read_mode (world s) s))) as Ht. split_and!; [|done|..].
    + destruct (fst (join_thread _)) as [|e| | |]; eauto. by destruct (Ht e).
    + intros Hv Hd. destruct (read_mode_run (world s) s) as (s1 & E1 & _ & _ & Hv1 & Hw1). rewrite E1. cbn [snd].
      unfold join_thread, uncaught, bindM, gets, ret. rewrite Hv1, Hv, Hw1, Hd. done.
    + intros Hcomes. pose proof (flows_join Hcomes (snd (read_mode (world s) s))) as Hf. by destruct (fst (join_thread _)) as [|e| | |].
Qed.

(** ** Waiting *)
Lemma receive_blocks n t s : udp_room (world s) = true -> udp_recv n (world s) = None ->
  fst (TimedReceive n t s) = Blocked.
Proof.
  intros Hroom Hn. unfold TimedReceive, wait_packet. destruct (receiving s); [by rewrite Hn|]. pose proof (select_writable true true t _ Hroom) as Hs.
  apply (select_brings_nothing true true true t) in Hn.
  destruct (udp_select true true true t (world s)) as [retval w]. cbn [fst snd] in *.
  destruct (Z.eqb_spec retval (-1)); [lia|]. destruct (Z.ltb_spec 0 retval); [|lia]. cbn [world set_world]. by rewrite Hn.
Qed.
Lemma bind_blocks {A B} (m : M A) (f : A -> M B) s : fst (m s) = Blocked -> fst (bindM m f s) = Blocked.
Proof. unfold bindM. destruct (m s) as [[]]; cbn; congruence. Qed.
(** The time out of the receiving socket has no effect: while the socket has room for
    sending, [select] returns at once because it is also asked about writing, and when no
    packet comes the tick waits in [recv] for ever. *)
Theorem silent_controller_blocks s c : scConnection s = Some c -> udp_room (world s) = true ->
  (forall n, udp_recv n (world s) = None) -> fst (tick s) = Blocked.
Proof.
  intros Ec Hroom Hn. unfold tick. apply bind_blocks. unfold processTSCPacket, bindM at 1, gets at 1. rewrite Ec.
  unfold catch. assert (fst (bindM process_mode (fun _ => bindM measureSpatInterval (fun _ => report_status)) s) = Blocked) as H;
    [|destruct (bindM process_mode _ s) as [[]]; cbn in *; congruence].
  apply bind_blocks. unfold process_mode, bindM at 1, gets at 1. destruct (default (spatMode s) (receiving s)).
  - unfold processSpat, receiveUPERSPAT, stringTimedReceive. do 3 apply bind_blocks. by apply receive_blocks.
  - unfold processTSCBM. apply bind_blocks. unfold receiveBinarySPAT, bindM at 1, the_connection, bindM at 1, gets at 1, deref at 1.
    rewrite Ec. apply bind_blocks. by apply receive_blocks.
  - unfold processTSCBM. apply bind_blocks. unfold receiveBinarySPAT, bindM at 1, the_connection, bindM at 1, gets at 1, deref at 1.
    rewrite Ec. apply bind_blocks. by apply receive_blocks.
Qed.

(** ** Health *)
Definition quiet_step (s s' : Plugin) : Prop := tick s = (Ret tt, s') \/
  exists w, same_sockets (world s) w /\ s' = set_world w s.
Definition given_up (s : Plugin) : Prop :=
  wf s /\ isConnected s = true /\ statusMap s !! keyConnectionStatus = Some "UNHEALTHY".
Lemma given_up_step s s' : quiet_step s s' -> given_up s -> given_up s'.
Proof.
  intros [H|(w & Hb & ->)] (Hwf & Hi & Hs).
  - pose proof (wf_tick _ _ _ H Hwf) as Hwf'. apply tick_run in H as (r1 & s1 & Hp & H).
    pose proof (across_run _ _ _ _ _ steady_packet Hp (proj1 Hwf)) as [_ _ _ _ Hi1 Hs1].
    rewrite Hi in Hi1. destruct H as [(_ & _ & H)|(_ & _ & H)]; [rewrite Hi1 in H|]; subst s'.
    all: split; [done|]; split; [done|]; destruct Hs1 as [->|]; done.
  - split; [|done]. by apply wf_world.
Qed.
(** Once a first packet was handled and the status of the connection is unhealthy, it
    stays unhealthy until the plugin is configured anew, whatever packets the controller
    sends from then on and in which intervals. *)
Theorem unhealthy_for_ever w s s' :
  rtc step (plugin_new w) s -> isConnected s = true -> statusMap s !! keyConnectionStatus = Some "UNHEALTHY" ->
  rtc quiet_step s s' -> statusMap s' !! keyConnectionStatus = Some "UNHEALTHY".
Proof.
  intros Hr%wf_reachable Hi Hs Hq. assert (given_up s) as H by done. clear Hr Hi Hs.
  induction Hq as [s|s1 s2 s Hstep _ IH]; [apply H|]. apply IH. by eapply given_up_step.
Qed.

Lemma SetStatus_run key value s : exists s', SetStatus key value s = (Ret tt, s') /\
  isConnected s' = isConnected s /\ maxSpatIntervalMs s' = maxSpatIntervalMs s /\ world s' = world s.
Proof.
  unfold SetStatus, modify. eexists. split; [reflexivity|]. destruct (muted _); [done|].
  destruct (statusMap s !! key) as [v|]; [destruct (String.eqb value v)|]; done.
Qed.
Lemma SetStatus_sets key value s : muted (world s) = false -> statusMap (snd (SetStatus key value s)) !! key = Some value.
Proof.
  intros Hm. unfold SetStatus, modify. cbn [snd]. rewrite Hm.
  destruct (statusMap s !! key) as [v|] eqn:E; [destruct (String.eqb_spec value v) as [->|]; [done|]|].
  all: cbn; by rewrite lookup_insert_eq.
Qed.
Lemma handler_run e h s : packet_failed e = Some h -> exists s', h s = (Ret tt, s') /\
  isConnected s' = isConnected s /\ maxSpatIntervalMs s' = maxSpatIntervalMs s /\ world s' = world s.
Proof.
  destruct e; intros [= <-].
  - destruct (SetStatus_run keyConnectionStatus "UNHEALTHY" (emit event_log s)) as (s' & E & H). by exists s'.
  - destruct (SetStatus_run keySkippedMessages (pretty (u32 (skippedMessages s + 1)))
      (emit event_log (set_skipped (u32 (skippedMessages s + 1)) s))) as (s' & E & H). by exists s'.
Qed.
(** The first packet makes the connection healthy even when it is not processed:
    after any exception that is caught the tick reports HEALTHY, unless an interval was
    too long before. *)
Theorem failed_packet_reported_healthy s s1 c e :
  scConnection s = Some c -> isConnected s1 = false -> maxSpatIntervalMs s1 < SPAT_INTERVAL_MAX_THRESHOLD_MS ->
  muted (world s1) = false -> bindM process_mode (fun _ => bindM measureSpatInterval (fun _ => report_status)) s = (Throw e, s1) ->
  e <> other_exception ->
  exists s', tick s = (Ret tt, s') /\ isConnected s' = true /\ statusMap s' !! keyConnectionStatus = Some "HEALTHY".
Proof.
  intros Ec Hi Hm Hmute H He.
  assert (exists s2, processTSCPacket s = (Ret tt, s2) /\ isConnected s2 = false /\ maxSpatIntervalMs s2 = maxSpatIntervalMs s1 /\
    muted (world s2) = false) as (s2 & Hp & Hi2 & Hm2 & Hmute2).
  { unfold processTSCPacket, bindM at 1, gets at 1. rewrite Ec. unfold catch. rewrite H.
    destruct (packet_failed e) as [h|] eqn:Eh; [|by destruct e].
    destruct (handler_run _ _ s1 Eh) as (s2 & E2 & Hi2 & Hm2 & Hw2). exists s2. rewrite E2, Hi2, Hm2, Hw2. done. }
  unfold tick, bindM. rewrite Hp. cbn [gets]. rewrite Hi2, Hm2.
  rewrite (proj2 (Z.ltb_lt _ _)) by done. eexists. split; [reflexivity|]. split; [done|].
  by apply (SetStatus_sets keyConnectionStatus "HEALTHY").
Qed.

(** ** The bits of the status *)
(** Bit [i] of a bit string as the standard and the coder number them: from the highest
    bit of the first byte on. *)
Definition asn_bit (buf : list Z) (i : Z) : bool := Z.testbit (nth (Z.to_nat (i / 8)) buf 0) (7 - i `mod` 8).
Lemma status_value b0 b1 bit : ByteStream.is_byte b0 -> ByteStream.is_byte b1 -> 0 <= bit < 16 ->
  Z.testbit (Z.lor (u16 b0) (u16 (Z.shiftl (u16 b1) 8))) bit = asn_bit [b0; b1] (Z.lxor bit 7).
Proof.
  intros H0 H1 Hbit. unfold ByteStream.is_byte in *. unfold asn_bit.
  rewrite !(u16_small b0), (u16_small b1) by lia.
  rewrite Z.lor_spec, (u16_small (Z.shiftl b1 8)) by (rewrite Z.shiftl_mul_pow2; lia).
  rewrite Z.shiftl_spec by lia.
  assert (forall b n, 0 <= b < 256 -> 8 <= n -> Z.testbit b n = false) as Hhigh.
  { intros b n Hb Hn. destruct (decide (b = 0)) as [->|]; [apply Z.bits_0|].
    apply Z.bits_above_log2; [lia|]. assert (Z.log2 b < 8) by (apply Z.log2_lt_pow2; [lia|change (2 ^ 8) with 256; lia]). lia. }
  assert (bit = 0 \/ bit = 1 \/ bit = 2 \/ bit = 3 \/ bit = 4 \/ bit = 5 \/ bit = 6 \/ bit = 7 \/
    bit = 8 \/ bit = 9 \/ bit = 10 \/ bit = 11 \/ bit = 12 \/ bit = 13 \/ bit = 14 \/ bit = 15) as E by lia.
  destruct_or! E; subst bit; cbn [nth Z.lxor Z.to_nat Z.div Z.modulo].
  1-8: rewrite (Z.testbit_neg_r b1) by lia; apply orb_false_r.
  all: rewrite (Hhigh b0) by lia; reflexivity.
Qed.
Lemma report_other v l : forall key m, ~ In key (map fst l) -> OrdMap.find key (foldl (report v) m l) = OrdMap.find key m.
Proof.
  induction l as [|[k b] l IH]; intros key m Hn; [done|]. cbn [foldl]. cbn in Hn. rewrite IH by tauto.
  unfold report. rewrite OrdMap.find_insert. cbn [fst snd]. destruct (OrdMap.keqb key k) eqn:E; [|done].
  apply OrdMap.keqb_spec in E as ->. tauto.
Qed.
Lemma report_this v l : forall m key bit, NoDup (map fst l) -> In (key, bit) l ->
  OrdMap.find key (foldl (report v) m l) = Some (Z.testbit v bit).
Proof.
  induction l as [|[k b] l IH]; intros m key bit Hd Hin; [done|]. cbn [map fst] in Hd. apply NoDup_cons in Hd as [Hk Hd].
  cbn [foldl]. destruct Hin as [[= -> ->]|Hin]; [|by apply IH].
  rewrite report_other by (by rewrite <-list_elem_of_In). unfold report. by rewrite OrdMap.find_insert, OrdMap.keqb_refl.
Qed.
Lemma status_reported b0 b1 m m' key bit : In (key, bit) status_bits -> updateIntersectionStatus [b0; b1] m = Some m' ->
  OrdMap.find key m' = Some (Z.testbit (Z.lor (u16 b0) (u16 (Z.shiftl (u16 b1) 8))) bit).
Proof.
  intros Hin H. unfold updateIntersectionStatus in H. cbn [lookup list_lookup mbind option_bind] in H.
  apply (inj Some) in H. subst m'. apply report_this; [apply (bool_decide_eq_true_1 _); by vm_compute|done].
Qed.
Lemma status_bits_range key bit : In (key, bit) status_bits -> 0 <= bit < 16.
Proof. unfold status_bits. cbn [In]. intros H. repeat destruct H as [[= <- <-]|H]; (lia || done). Qed.
(** Every bit of the intersection status is reported under the name of another: the
    key of a bit gets the value of the bit at the mirrored place of the same byte, since
    the coder numbers the bits of a byte from the highest and the plugin from the lowest.
    What is reported as manual control is the standby bit, and the other way round. *)
Theorem status_bits_mirrored b0 b1 m m' key bit :
  ByteStream.is_byte b0 -> ByteStream.is_byte b1 -> In (key, bit) status_bits ->
  updateIntersectionStatus [b0; b1] m = Some m' ->
  OrdMap.find key m' = Some (asn_bit [b0; b1] (Z.lxor bit 7)).
Proof.
  intros H0 H1 Hin H. rewrite <-status_value by (try done; by eapply status_bits_range). by apply (status_reported _ _ m).
Qed.
(** A status from a table has its byte in second place, below a byte of zero. *)
Lemma table_status_reported c ms name id st m m' key bit : Spat.received c ->
  Spat.ToJ2735SPAT c ms name id = Some st -> In (key, bit) status_bits ->
  updateIntersectionStatus (Spat.status st) m = Some m' ->
  OrdMap.find key m' = Some (Z.testbit (Spat.byte_of c Spat.spatIntersectionStatus) (bit - 8)).
Proof.
  intros Hc H Hin Hu. unfold Spat.ToJ2735SPAT in H. apply bind_Some in H as (l & _ & [= <-]). cbn [Spat.status] in Hu.
  pose proof (Spat.byte_range c Spat.spatIntersectionStatus Hc) as Hb.
  pose proof (status_bits_range _ _ Hin). rewrite (status_reported _ _ _ _ _ _ Hin Hu).
  rewrite (u8_small (Spat.byte_of _ _)) by lia.
  assert (Z.shiftr (Spat.byte_of c Spat.spatIntersectionStatus) 8 = 0) as -> by (rewrite Z.shiftr_div_pow2 by lia; apply Z.div_small; lia).
  rewrite (u16_small (Spat.byte_of _ _)), (u16_small (Z.shiftl _ _)) by (rewrite ?Z.shiftl_mul_pow2; lia).
  change (u16 (u8 0)) with 0. by rewrite Z.lor_0_l, Z.shiftl_spec by lia.
Qed.

(** ** Packets of another kind *)
Lemma bind_undefined {A B} (m : M A) (f : A -> M B) s : fst (m s) = Undefined -> fst (bindM m f s) = Undefined.
Proof. unfold bindM. destruct (m s) as [[]]; cbn; congruence. Qed.
Lemma packet_undefined s packet s1 hex : stringTimedReceive UDP_SERVER_TIMEOUT_MS s = (Ret packet, s1) -> payload_hex packet = Some hex ->
  (forall bytes, ByteStream.byte_stream_decode hex = Some bytes -> exists made, Factory.NewMessage junk bytes = returned made /\ as_spat made = None) ->
  fst (processSpat s) = Undefined.
Proof.
  intros E Eh H. unfold processSpat. apply bind_undefined. unfold receiveUPERSPAT, bindM at 1. rewrite E, Eh.
  unfold bindM at 1. cbn [or_throw ret]. unfold bindM at 1. destruct (ByteStream.byte_stream_decode hex) as [bytes|]; [|done].
  destruct (H bytes eq_refl) as (made & Em & Ea). cbn [deref ret]. unfold bindM at 1. rewrite Em. cbn [of_outcome ret].
  unfold bindM at 1. by rewrite Ea.
Qed.
Lemma other_frame b1 c rest : Forall ByteStream.is_byte (b1 :: c :: rest) -> b1 <> Factory.get_default_messageId SpatMessage ->
  exists made, Factory.NewMessage junk (0 :: b1 :: c :: rest) = returned made /\ as_spat made = None.
Proof.
  intros Hb Hne. pose proof (Factory.frame_made junk [] b1 c rest Factory.ext_none Hb) as E. cbn [app] in E. rewrite E.
  eexists. split; [reflexivity|]. destruct (Factory.byInt !! b1) as [k|] eqn:Ek; [|done].
  apply Factory.byInt_spec in Ek. unfold as_spat. cbn [mbind option_bind Factory.kind].
  destruct (decide (k = SpatMessage)) as [->|]; [by destruct Hne|done].
Qed.
(** In the mode SPAT any process that can send a datagram can end the plugin: text
    after Payload= with an odd number of characters, for one because of a carriage return,
    is read beyond its end, and the frame of a message that is not a SPAT, of a kind that
    is known or not, makes the plugin use a null pointer. *)
Theorem foreign_packet_undefined s packet s1 hex :
  stringTimedReceive UDP_SERVER_TIMEOUT_MS s = (Ret packet, s1) -> payload_hex packet = Some hex ->
  (Nat.odd (String.length hex) = true \/ exists b1 c rest, Forall ByteStream.is_byte (b1 :: c :: rest) /\
     b1 <> Factory.get_default_messageId SpatMessage /\ hex = ByteStream.byte_stream_encode (0 :: b1 :: c :: rest)) ->
  fst (processSpat s) = Undefined.
Proof.
  intros E Eh H. eapply packet_undefined; [exact E|exact Eh|]. intros bytes Hd. destruct H as [Hodd|(b1 & c & rest & Hb & Hne & ->)].
  - assert (Nat.even (String.length hex) = true) as He by (apply ByteStream.decode_defined; by eexists).
    rewrite <-Nat.negb_even, He in Hodd. done.
  - rewrite ByteStream.decode_encode in Hd by by constructor. injection Hd as <-. by apply other_frame.
Qed.

(** ** The interval *)
Lemma interval_spec last cur : 0 < last < 2 ^ 64 -> 0 <= cur < 2 ^ 64 ->
  calculateSPaTInterval last cur = if (last <=? cur) && (cur - last <=? 300) then Some (cur - last) else
    if (cur <? last) && (2 ^ 64 + cur - last <=? 300) then Some (2 ^ 64 + cur - last) else None.
Proof.
  intros Hl Hc. unfold calculateSPaTInterval. rewrite (proj2 (Z.eqb_neq last 0)) by lia. cbn [negb].
  unfold SPAT_INTERVAL_MAX_THRESHOLD_MS. destruct (Z.leb_spec last cur) as [Hle|Hgt].
  - rewrite u64_small by lia. rewrite (proj2 (Z.ltb_ge cur last)) by lia. cbn [andb].
    destruct (Z.leb_spec (cur - last) 300), (Z.ltb_spec 300 (cur - last)); try lia; [|done]. by rewrite u32_small by lia.
  - assert (u64 (cur - last) = 2 ^ 64 + cur - last) as ->.
    { unfold wrapu. rewrite <-(Z.mod_small (2 ^ 64 + cur - last) (2 ^ 64)) by lia.
      rewrite <-(Z_mod_plus_full (cur - last) 1 (2 ^ 64)). f_equal. lia. }
    rewrite (proj2 (Z.ltb_lt cur last)) by lia. cbn [andb].
    destruct (Z.leb_spec (2 ^ 64 + cur - last) 300), (Z.ltb_spec 300 (2 ^ 64 + cur - last)); try lia; [|done]. by rewrite u32_small by lia.
Qed.
(** The maximum never goes down, and nothing goes beyond 301. *)
Lemma measured s r s' : measureSpatInterval s = (r, s') -> 0 <= maxSpatIntervalMs s <= 301 ->
  maxSpatIntervalMs s <= maxSpatIntervalMs s' <= 301.
Proof.
  unfold measureSpatInterval, bindM, modify, gets, call, SetStatus. intros H Hm.
  destruct (lastSpatTimeMs s =? 0) eqn:El; cbn [negb] in H.
  - destruct (now (world s)) as [ms w]. injection H as <- <-. cbn [maxSpatIntervalMs set_interval set_world]. lia.
  - destruct (now (world s)) as [ms w]. destruct (calculateSPaTInterval (lastSpatTimeMs s) ms) as [i|] eqn:Ei.
    + cbn [maxSpatIntervalMs set_world] in H. destruct (Z.ltb_spec (maxSpatIntervalMs s) i); injection H as <- <-;
        cbn [maxSpatIntervalMs set_interval set_world]; [|lia].
      enough (i <= 300) by lia. revert Ei. unfold calculateSPaTInterval.
      rewrite El. cbn [negb]. unfold SPAT_INTERVAL_MAX_THRESHOLD_MS. case_if; [done|].
      intros [= <-]. rewrite u32_small; [done|]. pose proof (wrapu_range 64 (ms - lastSpatTimeMs s)). lia.
    + injection H as <- <-. cbn [maxSpatIntervalMs set_interval set_world]. unfold SPAT_INTERVAL_MAX_THRESHOLD_MS. lia.
Qed.
End plugin.

(** * A world *)
(** Its sockets, the datagrams that are still to come and its clock; every reading of the
    clock takes a hundred milliseconds. *)
Record sim := mkSim { sockets : list (string * Z); datagrams : list (list Z); clock : Z; mode_setting : string }.
Definition sim_bound (a : string) (p : Z) (w : sim) : bool := bool_decide ((a, p) ∈ sockets w).
Definition sim_device : Snmp.NetSnmp sim := Snmp.library sim (fun _ _ _ w => ((Snmp.STAT_TIMEOUT, None), w)).
Definition sim_text (key : string) (w : sim) : string :=
  if String.eqb key "SPAT_Mode" then mode_setting w else if String.eqb key "TSC_IP" then "10.0.0.9" else "x".
#[refine] #[local] Instance sim_world : SpatWorld unit sim := {|
  sw_snmp := sim_device; local_ip := Some "10.0.0.1"; registered _ := true; muted _ := false;
  config_text := sim_text; config_unsigned _ _ := 6053;
  now w := (clock w, mkSim (sockets w) (datagrams w) (clock w + 100) (mode_setting w)); steady_now w := clock w * 1000000;
  udp_bound := sim_bound;
  udp_bind a p w := if sim_bound a p w then None else Some (mkSim ((a, p) :: sockets w) (datagrams w) (clock w) (mode_setting w));
  udp_close a p w := mkSim (filter (fun e => e <> (a, p)) (sockets w)) (datagrams w) (clock w) (mode_setting w);
  udp_select _ wr _ _ w := ((if wr : bool then 1 else 0), w);
  udp_recv n w := match datagrams w with
                  | [] => None
                  | d :: ds => let d := map u8 (take (Z.to_nat n) d) in
                      Some (Z.of_nat (length d), d, mkSim (sockets w) ds (clock w) (mode_setting w))
                  end;
  udp_room _ := true; ticks_due _ := 0%nat; json_groups _ := Some []; json_int _ _ := None; json_text _ _ := None |}.
Proof.
  - intros a p w _ ->. done.
  - intros a p w w' H a' p'. destruct (sim_bound a p w); [done|]. injection H as <-.
    unfold sim_bound. cbn [sockets]. rewrite !bool_decide_eq_true. set_solver.
  - intros a p a' p' w H. unfold sim_bound. apply bool_decide_ext. cbn [sockets]. rewrite list_elem_of_filter. naive_solver.
  - intros. cbn. lia.
  - intros. done.
  - intros n w k l w' H. destruct (datagrams w) as [|d ds]; [done|]. injection H as _ <- _.
    apply Forall_fmap, Forall_true. intros b. apply wrapu_range. lia.
  - done.
  - done.
  - intros n w k l w' a p H. destruct (datagrams w) as [|d ds]; [done|]. by injection H as _ _ <-.
  - done.
  - done.
Defined.
#[local] Instance sim_forms : SpatForms (list Z) := {| spat_of := Spat.status; spat_status j := Some [4; nth 0 j 0] |}.
#[local] Existing Instance Factory.sample_coder.
Definition run (m : M (W := sim) unit) (s : Plugin) : Plugin (W := sim) := snd (m s).
Definition sim_start (mode : string) (ds : list (list Z)) : Plugin (W := sim) := plugin_new (mkSim [] ds 1700000000000 mode).
Definition configured (ds : list (list Z)) : Plugin (W := sim) := run (UpdateConfigSettings 0) (sim_start "TSCBM" ds).
Definition table_packet : list Z := Eval vm_compute in [205; 16] ++ replicate 243 0.
Definition configured_silent : Plugin (W := sim) := Eval vm_compute in configured [].
Definition sim_connection : SignalControllerConnection := Eval vm_compute in
  default (mkConnection "" 0 Snmp.demo_client "" "" 0 []) (scConnection configured_silent).

(** The thread waits for a packet when the configuration changes: it comes, and the new
    connection fails; or it never comes. *)
Definition waiting (ds : list (list Z)) : Plugin (W := sim) := entered (mkSim [("10.0.0.1", 6053)] ds 1700000000000 "TSCBM") (configured ds).
Definition waiting_table : Plugin (W := sim) := Eval vm_compute in waiting [table_packet].
Definition waiting_silent : Plugin (W := sim) := Eval vm_compute in waiting [].
Lemma reconfiguration_ends_plugin_witness : fst (UpdateConfigSettings 0 waiting_table) = Terminated /\
  existsb (fun o => match o with spat_message _ _ _ => true | _ => false end) (outputs (snd (UpdateConfigSettings 0 waiting_table))) = true /\
  fst (UpdateConfigSettings 0 waiting_silent) = Blocked.
Proof.
  split; [|split].
  - destruct (reconfiguration_ends_plugin 0 (mkSim [] [table_packet] 1700000000000 "TSCBM") waiting_table sim_connection)
      as (_ & E & _); [|reflexivity..|discriminate|exact E].
    eapply rtc_l; [apply step_config; vm_compute; reflexivity|].
    apply rtc_once. apply (step_enters 0 (configured [table_packet]) 1); [reflexivity..|discriminate|reflexivity|lia].
  - vm_compute. reflexivity.
  - destruct (reconfiguration_ends_plugin 0 (mkSim [] [] 1700000000000 "TSCBM") waiting_silent sim_connection)
      as (_ & E & _); [|reflexivity..|discriminate|exact E].
    eapply rtc_l; [apply step_config; vm_compute; reflexivity|].
    apply rtc_once. apply (step_enters 0 (configured []) 1); [reflexivity..|discriminate|reflexivity|lia].
Defined.
Lemma silent_controller_blocks_witness : fst (tick 0 configured_silent) = Blocked.
Proof. apply (silent_controller_blocks 0 configured_silent sim_connection); reflexivity. Defined.
(** Two empty datagrams and then the table of a controller. *)
Definition first_empty : Plugin (W := sim) := Eval vm_compute in run (tick 0) (configured [[]; []; table_packet]).
Definition second_empty : Plugin (W := sim) := Eval vm_compute in run (tick 0) first_empty.
Definition third_table : Plugin (W := sim) := Eval vm_compute in run (tick 0) second_empty.
Lemma unhealthy_for_ever_witness : statusMap third_table !! keyConnectionStatus = Some "UNHEALTHY" /\
  exists m, In (spat_message 1 32770 m) (outputs third_table).
Proof.
  split.
  - apply (unhealthy_for_ever 0 (mkSim [] [[]; []; table_packet] 1700000000000 "TSCBM") second_empty third_table); [|reflexivity..|].
    + eapply rtc_l; [apply step_config; vm_compute; reflexivity|].
      eapply rtc_l; [apply step_tick; [reflexivity|vm_compute; reflexivity]|].
      eapply rtc_l; [apply step_tick; [reflexivity|vm_compute; reflexivity]|]. constructor.
    + apply rtc_once. left. vm_compute. reflexivity.
  - eexists. vm_compute. tauto.
Defined.
Lemma failed_packet_reported_healthy_witness : exists s', tick 0 (configured [[]]) = (Ret tt, s') /\ isConnected s' = true /\
  statusMap s' !! keyConnectionStatus = Some "HEALTHY".
Proof.
  eapply (failed_packet_reported_healthy 0 (configured [[]]) _ sim_connection UdpServerRuntimeError);
    [vm_compute; reflexivity| | | |vm_compute; reflexivity|discriminate]; vm_compute; reflexivity.
Defined.
Lemma status_bits_mirrored_witness : exists m', updateIntersectionStatus [128; 0] intersectionStatus_new = Some m' /\
  OrdMap.find "Standby Operation" m' = Some (asn_bit [128; 0] 0) /\ asn_bit [128; 0] 0 = true.
Proof.
  eexists. split; [vm_compute; reflexivity|]. split; [|reflexivity].
  apply (status_bits_mirrored 128 0 intersectionStatus_new _ "Standby Operation" 7); [done|done|vm_compute; tauto|reflexivity].
Defined.
Definition map_packet : list Z := Eval vm_compute in
  map (fun a => Z.of_N (N_of_ascii a)) (String.list_ascii_of_string "Version=1 Payload=00120301").
Lemma foreign_packet_undefined_witness :
  fst (processSpat 0 (sim_start "SPAT" [map_packet])) = Undefined.
Proof.
  eapply (foreign_packet_undefined 0 (sim_start "SPAT" [map_packet])); [vm_compute; reflexivity|vm_compute; reflexivity|].
  right. exists 18, 3, [1]. split; [repeat (apply Forall_cons; split; [done|]); constructor|]. split; [done|]. vm_compute. reflexivity.
Defined.
End SpatPlugin.
