(* ===== verification/Dms.v ===== *)
(** The plugin of a dynamic message sign ([DmsPlugin/src/DmsPlugin.cpp]) and the part of
    the library for NTCIP 1203 that it calls ([DmsPlugin/src/dmsNTCIP.cpp]), with the
    message that asks for a sign text ([TmxApi/tmx/messages/IvpDmsControlMsg.c]). The
    SNMP library is the class of [SnmpClient]; what a sign that follows the standard
    does is the class [MessageSign]. *)
From Stdlib Require Import Ascii.
From stdpp Require Import pretty.
From S2P Require Import Prelude Text Json IvpMessage OrdMap SnmpClient Factory.
Import Json.
Open Scope Z_scope.

(** * The world of the plugin *)
(** The configuration, the casts of the library of texts to numbers, whether a UDP client
    can be made for an address and port, and the integer that is found in the value of a
    variable after its response was freed; nothing where the variable has no value and the
    pointer to it is null. *)
Class DmsWorld (W : Type) := {
  dw_snmp :: Snmp.NetSnmp W;
  config_text : string -> W -> option string;
  lexical_uint32 : string -> option Z;
  lexical_int32 : string -> option Z;
  udp_client : string -> Z -> W -> bool;
  freed_int : Snmp.variable -> option Z
}.

Create HintDb dms_keeps.
Module Dms.
(** * Data *)
Record SignMessage := mkSign { SimulatorText : string; DmsText : string; IsDmsTextInitialized : bool }.
Definition set_text_initialized (b : bool) (m : SignMessage) : SignMessage := mkSign (SimulatorText m) (DmsText m) b.
(** The pointer to the client of the simulator; a deleted client stays in it. *)
Inductive udp := no_client | client (address : string) (port : Z) | deleted_client.
Inductive output := simulator_text (t : string) | status_item (key value : string) | exception_logged.
Record Settings := mkSettings {
  enableDms : bool; enableSignSimulator : bool; dmsIpAddress : string; dmsPort : Z;
  signSimIpAddress : string; signSimPort : Z }.

Definition DMS_MSG_CRC_CURR : string := "1.3.6.1.4.1.1206.4.2.3.5.8.1.5".
Definition DMS_MSG_MULTISTRING : string := "1.3.6.1.4.1.1206.4.2.3.5.8.1.3".
Definition DMS_MSG_OWNER : string := "1.3.6.1.4.1.1206.4.2.3.5.8.1.4".
Definition DMS_MSG_RUNTIMEPRIORITY : string := "1.3.6.1.4.1.1206.4.2.3.5.8.1.8".
Definition DMS_MSG_STATUS : string := "1.3.6.1.4.1.1206.4.2.3.5.8.1.9".
Definition DMS_ACTIVATE_MSG : string := "1.3.6.1.4.1.1206.4.2.3.6.3".
Definition MAX_ITEMS : Z := 20.
Definition IVPMSG_TYPE_DMSCONT : string := "DMSCONT".
Definition IVP_ENCODING_STRING : string := "string".

(** * Texts *)
Fixpoint zeros (k : nat) : string := match k with O => "" | S k => String "0" (zeros k) end.
(** [%0wd]. *)
Definition format_d (width : nat) (n : Z) : string :=
  let d := pretty (Z.abs n) in
  if n <? 0 then "-" +:+ zeros (width - 1 - String.length d) +:+ d else zeros (width - String.length d) +:+ d.
(** [%0wx] of a 32-bit number: eight digits are enough. *)
Fixpoint hex_text (fuel : nat) (n : Z) : string :=
  match fuel with
  | O => ""
  | S fuel => (if n <? 16 then "" else hex_text fuel (n / 16)) +:+ String (ByteStream.hex_char (n mod 16)) ""
  end.
Definition format_x (width : nat) (n : Z) : string :=
  let d := hex_text 8 (u32 n) in zeros (width - String.length d) +:+ d.
Definition newline : ascii := "010".
(** [boost::replace_all(simText, "[np]", "\n")]: [skip] characters belong to the last
    match. *)
Fixpoint replace_np (skip : nat) (s : string) : string :=
  match s with
  | EmptyString => EmptyString
  | String c t =>
      match skip with
      | S skip => replace_np skip t
      | O => if String.prefix "[np]" s then String newline (replace_np 3 t) else String c (replace_np 0 t)
      end
  end.
Definition msg_id (n : Z) : string := ".3." +:+ pretty n.
Definition message_key (i : Z) : string := "Message " +:+ format_d 2 i.
(** [ffffff]: the longest duration and the highest priority; then the type of the memory,
    the number of the message, its checksum and an address. *)
Definition activation_code (memoryType messageNumber crc : Z) : string :=
  "ffffff" +:+ format_d 2 memoryType +:+ format_d 4 messageNumber +:+ format_x 4 crc +:+ "c0a0010a".
(** ** The message with the number of a sign text *)
Definition ivpDmsCont_createMsg (now action : Z) : IvpMsg.IvpMessage :=
  IvpMsg.ivpMsg_create now (Some IVPMSG_TYPE_DMSCONT) (Some "MSGID") (Some IVP_ENCODING_STRING) IvpMsg.IvpMsgFlags_None
    (Some (Json.cJSON_CreateString (pretty action))).
(** Nothing where a null pointer is read. *)
Definition ivpDmsCont_getIvpDmsMsgId (m : IvpMsg.IvpMessage) : option Z :=
  p ← IvpMsg.payload m;
  if decide (Json.type p = Json.cJSON_String) then atoi <$> Json.valuestring p else None.

Section plugin.
Context {W : Type} {DW : DmsWorld W}.

Record Plugin := mkPlugin {
  signMessages : list (Z * SignMessage);
  isSignMessagesInitialized : bool;
  isDmsControllerInitialized : bool;
  (** [INTip] and [INTport], which no constructor sets. *)
  target : option (string * string);
  settings : Settings;
  signSimClient : udp;
  msgIdRequested : Z;
  msgIdShown : Z;
  statusMap : gmap string string;
  outputs : list output;
  world : W }.
Definition set_messages (m : list (Z * SignMessage)) (s : Plugin) : Plugin :=
  mkPlugin m (isSignMessagesInitialized s) (isDmsControllerInitialized s) (target s) (settings s) (signSimClient s)
    (msgIdRequested s) (msgIdShown s) (statusMap s) (outputs s) (world s).
Definition set_initialized (b : bool) (s : Plugin) : Plugin :=
  mkPlugin (signMessages s) b (isDmsControllerInitialized s) (target s) (settings s) (signSimClient s)
    (msgIdRequested s) (msgIdShown s) (statusMap s) (outputs s) (world s).
Definition set_controller (t : string * string) (s : Plugin) : Plugin :=
  mkPlugin (signMessages s) (isSignMessagesInitialized s) true (Some t) (settings s) (signSimClient s)
    (msgIdRequested s) (msgIdShown s) (statusMap s) (outputs s) (world s).
Definition set_settings (c : Settings) (s : Plugin) : Plugin :=
  mkPlugin (signMessages s) (isSignMessagesInitialized s) (isDmsControllerInitialized s) (target s) c (signSimClient s)
    (msgIdRequested s) (msgIdShown s) (statusMap s) (outputs s) (world s).
Definition set_signSimClient (c : udp) (s : Plugin) : Plugin :=
  mkPlugin (signMessages s) (isSignMessagesInitialized s) (isDmsControllerInitialized s) (target s) (settings s) c
    (msgIdRequested s) (msgIdShown s) (statusMap s) (outputs s) (world s).
Definition set_requested (n : Z) (s : Plugin) : Plugin :=
  mkPlugin (signMessages s) (isSignMessagesInitialized s) (isDmsControllerInitialized s) (target s) (settings s) (signSimClient s)
    n (msgIdShown s) (statusMap s) (outputs s) (world s).
Definition set_shown (n : Z) (s : Plugin) : Plugin :=
  mkPlugin (signMessages s) (isSignMessagesInitialized s) (isDmsControllerInitialized s) (target s) (settings s) (signSimClient s)
    (msgIdRequested s) n (statusMap s) (outputs s) (world s).
Definition emit (o : output) (s : Plugin) : Plugin :=
  mkPlugin (signMessages s) (isSignMessagesInitialized s) (isDmsControllerInitialized s) (target s) (settings s) (signSimClient s)
    (msgIdRequested s) (msgIdShown s) (statusMap s) (outputs s ++ [o]) (world s).
Definition set_statusMap (m : gmap string string) (s : Plugin) : Plugin :=
  mkPlugin (signMessages s) (isSignMessagesInitialized s) (isDmsControllerInitialized s) (target s) (settings s) (signSimClient s)
    (msgIdRequested s) (msgIdShown s) m (outputs s) (world s).
Definition set_world (w : W) (s : Plugin) : Plugin :=
  mkPlugin (signMessages s) (isSignMessagesInitialized s) (isDmsControllerInitialized s) (target s) (settings s) (signSimClient s)
    (msgIdRequested s) (msgIdShown s) (statusMap s) (outputs s) w.

(** * Calls *)
(** Nothing is what has no defined behaviour: an access through a pointer that is null,
    uninitialised or points to what was deleted, or over the end of an array. *)
Definition M (A : Type) : Type := Plugin -> option (A * Plugin).
Definition ret {A} (a : A) : M A := fun s => Some (a, s).
Definition undefined {A} : M A := fun _ => None.
Definition bindM {A B} (m : M A) (f : A -> M B) : M B := fun s => match m s with Some (a, s) => f a s | None => None end.
Local Notation "'do' x <- m ; k" := (bindM m (fun x => k)) (at level 10, x pattern, m at level 100, k at level 200).
Local Notation "m ;; k" := (bindM m (fun _ => k)) (at level 100, right associativity).
Definition gets {A} (f : Plugin -> A) : M A := fun s => Some (f s, s).
Definition modify (f : Plugin -> Plugin) : M unit := fun s => Some (tt, f s).
Definition call {A} (f : W -> A * W) : M A := fun s => let '(a, w) := f (world s) in Some (a, set_world w s).
Definition deref {A} (o : option A) : M A := match o with Some a => ret a | None => undefined end.
Definition when (b : bool) (m : M unit) : M unit := if b then m else ret tt.

(** * The library for the sign *)
(** [char ipwithport[64]]. *)
Definition peer_of (t : option (string * string)) : option string :=
  '(ip, port) ← t;
  let p := ip +:+ ":" +:+ port in if (String.length p <? 64)%nat then Some p else None.
(** A session of version 1; it uses none of the other fields. *)
Definition session_v1 (peer community : string) : Snmp.snmp_session :=
  Snmp.mkSession peer Snmp.SNMP_VERSION_1 (Some community) None Snmp.SNMP_SEC_MODEL_SNMPv1 Snmp.SNMP_SEC_LEVEL_NOAUTH None None (-1).
Definition setConfigs (snmpIP : string) (snmpPort : Z) : M unit :=
  modify (set_controller (snmpIP, String.substring 0 5 (pretty (s32 snmpPort)))).
Definition parse_oid (o : string) : bool * (list Z * Z) := Snmp.snmp_parse_oid o [] Snmp.MAX_OID_LEN.

Definition is_success (st : Snmp.status) : bool := match st with Snmp.STAT_SUCCESS => true | _ => false end.
(** A response that reports an error is passed on when the library calls it a success. *)
Definition getSNMP (bs : list Snmp.binding) (community : string) : M (option Snmp.snmp_pdu) :=
  do t <- gets target;
  do peer <- deref (peer_of t);
  do opened <- call (Snmp.snmp_open (session_v1 peer community));
  if negb opened then ret None
  else
    do (st, response) <- call (Snmp.snmp_synch_response (session_v1 peer community) Snmp.GET bs);
    match response with
    | None => ret None
    | Some r =>
        if negb (is_success st) && negb (Snmp.errstat r =? Snmp.SNMP_ERR_NOERROR) then ret None
        else ret (Some r)
    end.
Definition singleGetSNMP (getOID community : string) : M (option Snmp.snmp_pdu) :=
  let '(ok, (anOID, anOID_len)) := parse_oid getOID in
  if negb ok then ret None else getSNMP [(anOID, Snmp.bound_null)] community.
(** The pointer to the value of the last variable is read after the response is freed. *)
Definition getSingleINT (getOID community : string) : M Z :=
  do response <- singleGetSNMP getOID community;
  match response with
  | None => ret (-1)
  | Some r => do v <- deref (last (Snmp.variables r)); deref (freed_int v)
  end.
(** The three functions that set a value differ in the type of it and in what they do with
    the answer. The session of an identifier that cannot be read stays open; the binding of
    a value that cannot be read is missing. *)
Definition set_request (setOID community : string) (t : ascii) (value : string) : M (option (Snmp.status * option Snmp.snmp_pdu)) :=
  do tg <- gets target;
  do peer <- deref (peer_of tg);
  do opened <- call (Snmp.snmp_open (session_v1 peer community));
  if negb opened then ret None
  else
    let '(ok, (anOID, anOID_len)) := parse_oid setOID in
    if negb ok then ret None
    else
      do r <- call (Snmp.snmp_synch_response (session_v1 peer community) Snmp.SET
        (if Snmp.snmp_add_var anOID t value then [(anOID, Snmp.bound_text t value)] else []));
      ret (Some r).
(** The status of a response is read when the request is a success. *)
Definition process_response (r : option (Snmp.status * option Snmp.snmp_pdu)) : M bool :=
  match r with
  | None => ret false
  | Some (Snmp.STAT_SUCCESS, response) => do p <- deref response; ret (Snmp.errstat p =? Snmp.SNMP_ERR_NOERROR)
  | Some _ => ret false
  end.
Definition setSNMP (setOID community value : string) : M unit :=
  do r <- set_request setOID community "i" value; do _ <- process_response r; ret tt.
Definition setSNMPText (getOID community value : string) : M unit :=
  do r <- set_request getOID community "s" value; do _ <- process_response r; ret tt.
(** [std::vector<int> out(MAX_ITEMS)]: the octets of a text are copied and dropped, any
    other value is read as an integer and stored. *)
Fixpoint read_variables (i : Z) (vs : list Snmp.variable) : option unit :=
  match vs with
  | [] => Some tt
  | Snmp.asn_octet_str _ :: vs => read_variables i vs
  | v :: vs => _ ← freed_int v; if i <? MAX_ITEMS then read_variables (i + 1) vs else None
  end.
Definition setSNMPActivateMsg (getOID community value : string) : M bool :=
  do r <- set_request getOID community "x" value;
  do ok <- process_response r;
  match r with
  | Some (_, Some p) => if ok : bool then do _ <- deref (read_variables 0 (Snmp.variables p)); ret true else ret false
  | _ => ret false
  end.

Definition getDMSMsgStatus (id : string) : M Z := getSingleINT (DMS_MSG_STATUS +:+ id) "public".
Definition getDMSMsgCRCCurr (id : string) : M Z := getSingleINT (DMS_MSG_CRC_CURR +:+ id) "public".
Definition setDMSMsgStatus (value id : string) : M unit := setSNMP (DMS_MSG_STATUS +:+ id) "public" value.
Definition setDMSMsgMultiString (msg id : string) : M unit := setSNMPText (DMS_MSG_MULTISTRING +:+ id) "public" msg.
Definition setDMSMsgOwner (owner id : string) : M unit := setSNMPText (DMS_MSG_OWNER +:+ id) "public" owner.
Definition setDMSMsgRunTimePriority (priority id : string) : M unit := setSNMP (DMS_MSG_RUNTIMEPRIORITY +:+ id) "public" priority.
Definition setDMSMsgActivate (code : string) : M bool := setSNMPActivateMsg DMS_ACTIVATE_MSG "public" code.

(** * The plugin *)
(** [GetConfigValue]: a value that is missing, or no number where one is wanted, leaves
    the variable as it is. *)
Definition config_bool (key : string) (w : W) : option bool :=
  (fun t => iequals t "1" || iequals t "true" || iequals t "t" || iequals t "on") <$> config_text key w.
Definition config_uint32 (key : string) (w : W) : option Z := config_text key w ≫= lexical_uint32.
Definition config_int32 (key : string) (w : W) : option Z := config_text key w ≫= lexical_int32.

Definition bool_text (b : bool) : string := if b then "true" else "false".
Definition SetStatus (key value : string) : M unit := modify (fun s =>
  if default false (config_bool "MuteStatus" (world s)) then s
  else match statusMap s !! key with
       | Some v => if String.eqb value v then s else emit (status_item key value) (set_statusMap (<[key := value]> (statusMap s)) s)
       | None => emit (status_item key value) (set_statusMap (<[key := value]> (statusMap s)) s)
       end).

(** Blanking has the number 1 in the memory for blank texts. *)
Definition ActivateMessage (messageNumber : Z) : M bool :=
  let blankMessage := messageNumber =? 0 in
  let memoryType := if blankMessage then 7 else 3 in
  let messageNumber := if blankMessage then 1 else messageNumber in
  do crc <- (if blankMessage then ret 0 else getDMSMsgCRCCurr ("." +:+ pretty memoryType +:+ "." +:+ pretty messageNumber));
  do ok <- setDMSMsgActivate (activation_code memoryType messageNumber crc);
  if ok : bool then modify (set_shown messageNumber) ;; ret true else ret false.

(** A request for a status, and whether the sign reports what should come of it. *)
Definition request_status (value id : string) (expected : Z) : M bool :=
  setDMSMsgStatus value id ;;
  do statusResponse <- getDMSMsgStatus id;
  ret (statusResponse =? expected).
Definition AssignMessageOnSign (messageNumber : Z) (message : string) (activateMessage : bool) : M bool :=
  modify (fun s => if msgIdRequested s =? messageNumber then set_shown (-1) s else s) ;;
  if messageNumber =? 0 then ret false
  else
    let msgId := msg_id messageNumber in
    do unused <- request_status "8" msgId 1;
    if negb unused then ret false
    else
      do modifying <- request_status "6" msgId 2;
      if negb modifying then ret false
      else
        setDMSMsgMultiString message msgId ;;
        setDMSMsgOwner "TTI" msgId ;;
        setDMSMsgRunTimePriority "1" msgId ;;
        do valid <- request_status "7" msgId 4;
        if negb valid then ret false
        else if activateMessage then ActivateMessage messageNumber else ret true.

Definition mark_initialized (messageId : Z) (s : Plugin) : Plugin :=
  match OrdMap.find messageId (signMessages s) with
  | Some m => set_messages (OrdMap.insert messageId (set_text_initialized true m) (signMessages s)) s
  | None => s
  end.
(** A text that is new replaces the message, and nothing is initialized any more. *)
Definition store_text (messageId : Z) (text : string) (s : Plugin) : Plugin :=
  let fresh := set_initialized false (set_messages (OrdMap.insert messageId (mkSign (replace_np 0 text) text false) (signMessages s)) s) in
  match OrdMap.find messageId (signMessages s) with
  | None => fresh
  | Some m => if String.eqb (DmsText m) text then s else fresh
  end.
Definition AddSignMessage (messageId : Z) (text : string) (sendToSign : bool) : M bool :=
  modify (store_text messageId text) ;;
  do s <- gets id;
  do m <- deref (OrdMap.find messageId (signMessages s));
  if negb (enableDms (settings s)) || negb (isDmsControllerInitialized s) || IsDmsTextInitialized m || negb sendToSign then ret true
  else if messageId =? 0 then modify (mark_initialized messageId) ;; ret true
  else
    do ok <- AssignMessageOnSign messageId (c_str (DmsText m)) false;
    if ok : bool then modify (mark_initialized messageId) ;; ret true else ret false.

(** ** The configuration *)
Definition new_settings (w : W) (c : Settings) : Settings :=
  mkSettings (default (enableDms c) (config_bool "Enable DMS" w))
    (default (enableSignSimulator c) (config_bool "Enable Sign Simulator" w))
    (default (dmsIpAddress c) (config_text "DMS IP Address" w)) (default (dmsPort c) (config_uint32 "DMS Port" w))
    (default (signSimIpAddress c) (config_text "Sign Sim IP Address" w))
    (default (signSimPort c) (config_uint32 "Sign Sim Port" w)).
(** The old client is deleted before the new one is made. *)
Definition new_client (address : string) (port : Z) : M unit :=
  do c <- gets signSimClient;
  match c with
  | deleted_client => undefined
  | _ =>
      do w <- gets world;
      if udp_client address port w then modify (set_signSimClient (client address port))
      else
        modify (set_signSimClient (match c with no_client => no_client | _ => deleted_client end)) ;;
        modify (emit exception_logged)
  end.
(** A message without a value has the text of the one before it. *)
Fixpoint add_messages (ids : list Z) (message : string) (sendToSign : bool) : M unit :=
  match ids with
  | [] => ret tt
  | i :: ids =>
      do w <- gets world;
      let message := default message (config_text (message_key i) w) in
      do sent <- AddSignMessage i message sendToSign;
      add_messages ids message (if sent : bool then sendToSign else false)
  end.
Definition UpdateConfig : M unit :=
  do w <- gets world;
  do old <- gets settings;
  let c := new_settings w old in
  modify (set_settings c) ;;
  when (negb (String.eqb (dmsIpAddress c) (dmsIpAddress old)) || negb (dmsPort c =? dmsPort old))
    (setConfigs (dmsIpAddress c) (dmsPort c)) ;;
  when (negb (String.eqb (signSimIpAddress c) (signSimIpAddress old)) || negb (signSimPort c =? signSimPort old))
    (new_client (signSimIpAddress c) (s32 (signSimPort c))) ;;
  add_messages [1; 2; 3; 4] "" true.

(** ** Showing a message *)
(** [char buffer[240]]. *)
Definition DisplayText (t : string) : string := "{" +:+ String "034" ("DisplayText" +:+ String "034" (":" +:+ String "034" (c_str t +:+ String "034" "}"))).
Definition simulate (t : string) : M unit :=
  do c <- gets signSimClient;
  match c with
  | no_client => ret tt
  | _ =>
      if negb (String.length (DisplayText t) <? 240)%nat then undefined
      else match c with client _ _ => modify (emit (simulator_text (DisplayText t))) | _ => undefined end
  end.
Definition ShowSignMessage (msgId : Z) : M bool :=
  do s <- gets id;
  if negb (isSignMessagesInitialized s) then ret false
  else
    match OrdMap.find msgId (signMessages s) with
    | None => ret false
    | Some signMessage =>
        do success <- (if enableDms (settings s) then ActivateMessage msgId else ret true);
        when (enableSignSimulator (settings s)) (simulate (SimulatorText signMessage)) ;;
        ret success
    end.
Definition SetRequestedMessage (msgId : Z) : M bool :=
  modify (set_requested msgId) ;;
  do s <- gets id;
  if msgIdRequested s =? msgIdShown s then ret true
  else
    do success <- ShowSignMessage msgId;
    if success : bool then modify (set_shown msgId) ;; ret true else ret false.

(** The loop over the map ends at the first message the sign does not take. *)
Fixpoint initialize_from (ids : list Z) : M bool :=
  match ids with
  | [] => ret true
  | i :: ids =>
      do s <- gets id;
      match OrdMap.find i (signMessages s) with
      | Some m =>
          if (i =? 0) || IsDmsTextInitialized m then initialize_from ids
          else
            do ok <- AssignMessageOnSign i (c_str (DmsText m)) false;
            if ok : bool then modify (mark_initialized i) ;; initialize_from ids else ret false
      | None => initialize_from ids
      end
  end.
Definition InitializeSignMessages : M bool :=
  do s <- gets id;
  if negb (enableDms (settings s)) then ret false else initialize_from (map fst (signMessages s)).
Definition UninitializeSignMessages (s : Plugin) : Plugin :=
  set_initialized false (set_messages (map (fun p => (p.1, set_text_initialized false p.2)) (signMessages s)) s).
Definition UpdateMsgIdStatus (key : string) (messageId : Z) : M unit :=
  do s <- gets id;
  SetStatus key ("ID " +:+ pretty messageId +:+ " = " +:+
    (if messageId =? 0 then "blank"
     else match OrdMap.find messageId (signMessages s) with None => "unknown message" | Some m => DmsText m end)).

(** ** Events *)
Definition OnStateChange (registered : bool) : M unit := when registered UpdateConfig.
Definition OnConfigChanged (key : string) : M unit :=
  if String.eqb key "Force Message ID" then
    do w <- gets world;
    let forceMessageId := default (-1) (config_int32 "Force Message ID" w) in
    (do _ <- SetRequestedMessage (if forceMessageId =? -1 then 0 else forceMessageId); ret tt)
  else UpdateConfig.
(** The subscription is to messages of one type and subtype. *)
Definition OnMessageReceived (m : IvpMsg.IvpMessage) : M unit :=
  do t <- deref (IvpMsg.msg_type m);
  if String.eqb t IVPMSG_TYPE_DMSCONT then
    do st <- deref (IvpMsg.subtype m);
    if String.eqb st "MSGID" then
      do p <- deref (IvpMsg.payload m);
      if bool_decide (type p = cJSON_String) then
        do msgId <- deref (ivpDmsCont_getIvpDmsMsgId m);
        do _ <- SetRequestedMessage msgId;
        ret tt
      else ret tt
    else ret tt
  else ret tt.
(** One round of [Main], in two parts: the flag that the initialization computes is stored
    when it is done. *)
Definition round_begins : M (option bool) :=
  do s <- gets id;
  if isSignMessagesInitialized s then
    when (negb (msgIdRequested s =? msgIdShown s)) (do _ <- SetRequestedMessage (msgIdRequested s); ret tt) ;;
    ret None
  else
    do b <- InitializeSignMessages;
    ret (Some b).
Definition round_ends (b : option bool) : M unit :=
  modify (fun s => match b with Some b => set_initialized b s | None => s end) ;;
  do s <- gets id;
  SetStatus "Is Sign Initialized" (bool_text (isSignMessagesInitialized s)) ;;
  UpdateMsgIdStatus "Message Requested" (msgIdRequested s) ;;
  UpdateMsgIdStatus "Message Shown" (msgIdShown s).
Definition round : M unit := do b <- round_begins; round_ends b.
Fixpoint rounds (n : nat) : M unit := match n with O => ret tt | S n => round ;; rounds n end.

Definition DmsPlugin_new (w : W) : option Plugin :=
  snd <$> AddSignMessage 0 "" false
    (mkPlugin [] false false None (mkSettings false false "" 0 "" 0) no_client 0 (-1) ∅ [] w).

(** The callbacks run in a thread of their own, between the parts of a round of [Main] as
    well as between rounds; the world changes at any time, to one that [P] allows. *)
Inductive step (P : W -> Prop) : option (option bool) * Plugin -> option (option bool) * Plugin -> Prop :=
| step_begins s b s' : round_begins s = Some (b, s') -> step P (None, s) (Some b, s')
| step_ends b s s' : round_ends b s = Some (tt, s') -> step P (Some b, s) (None, s')
| step_state pc r s s' : OnStateChange r s = Some (tt, s') -> step P (pc, s) (pc, s')
| step_config pc key s s' : OnConfigChanged key s = Some (tt, s') -> step P (pc, s) (pc, s')
| step_message pc m s s' : OnMessageReceived m s = Some (tt, s') -> step P (pc, s) (pc, s')
| step_world pc w s : P w -> step P (pc, s) (pc, set_world w s).

(** * Facts about calls *)
Lemma bind_Some {A B} (m : M A) (f : A -> M B) s r : bindM m f s = Some r <-> exists a s1, m s = Some (a, s1) /\ f a s1 = Some r.
Proof. unfold bindM. destruct (m s) as [[a s1]|]; split; [eauto|by intros (? & ? & [= <- <-] & ?)|done|by intros (? & ? & ? & ?)]. Qed.
Lemma bind_gets {A B} (f : Plugin -> A) (k : A -> M B) s : bindM (gets f) k s = k (f s) s.
Proof. done. Qed.
Lemma bind_modify {B} f (k : unit -> M B) s : bindM (modify f) k s = k tt (f s).
Proof. done. Qed.
Lemma bind_ret {A B} (a : A) (k : A -> M B) s : bindM (ret a) k s = k a s.
Proof. done. Qed.
Lemma bind_deref {A B} (o : option A) (k : A -> M B) s r : bindM (deref o) k s = Some r <-> exists a, o = Some a /\ k a s = Some r.
Proof. destruct o as [a|]; cbn; split; [eauto|by intros (? & [= <-] & ?)|done|by intros (? & ? & ?)]. Qed.
(** What a call does to a state that satisfies [I] keeps it. *)
Definition keeps (I : Plugin -> Prop) {A} (m : M A) : Prop := forall s a s', I s -> m s = Some (a, s') -> I s'.
Lemma client_keeps_ret I {A} (a : A) : keeps I (ret a).
Proof. by intros s a' s' Hs [= _ <-]. Qed.
Lemma keeps_undefined I {A} : keeps I (undefined (A := A)).
Proof. by intros s a s' Hs. Qed.
Lemma client_keeps_bind I {A B} (m : M A) (f : A -> M B) : keeps I m -> (forall a, keeps I (f a)) -> keeps I (bindM m f).
Proof. intros Hm Hf s b s' Hs. rewrite bind_Some. intros (a & s1 & H1 & H2). eapply Hf, H2. by eapply Hm. Qed.
Lemma client_keeps_gets I {A} (f : Plugin -> A) : keeps I (gets f).
Proof. by intros s a s' Hs [= _ <-]. Qed.
Lemma client_keeps_modify (I : Plugin -> Prop) f : (forall s, I s -> I (f s)) -> keeps I (modify f).
Proof. intros Hf s a s' Hs [= _ <-]. by apply Hf. Qed.
Lemma keeps_deref I {A} (o : option A) : keeps I (deref o).
Proof. destruct o; [apply client_keeps_ret|apply keeps_undefined]. Qed.
Lemma keeps_when I b m : keeps I m -> keeps I (when b m).
Proof. intros Hm. destruct b; [done|apply client_keeps_ret]. Qed.

Hint Resolve client_keeps_ret keeps_undefined client_keeps_gets keeps_deref keeps_when : dms_keeps.

(** ** A reset that is lost *)
(** What the library for the sign never touches, nor the showing of a message. *)
Definition messages_are (ms : list (Z * SignMessage)) (b : bool) (s : Plugin) : Prop :=
  signMessages s = ms /\ isSignMessagesInitialized s = b.
Section kept.
Variables (ms : list (Z * SignMessage)) (b : bool).
Local Notation I := (messages_are ms b).
Lemma kept_modify f : (forall s, signMessages (f s) = signMessages s /\ isSignMessagesInitialized (f s) = isSignMessagesInitialized s) -> keeps I (modify f).
Proof. intros Hf. apply client_keeps_modify. intros s [H1 H2]. destruct (Hf s). split; congruence. Qed.
Lemma kept_call {A} (f : W -> A * W) : keeps I (call f).
Proof. intros s a s' Hs. unfold call. destruct (f (world s)). by intros [= _ <-]. Qed.
Hint Resolve kept_modify kept_call : dms_keeps.
Ltac keep := repeat first [solve [eauto with dms_keeps]|apply client_keeps_bind; [|intros ?]|case_match].
Lemma kept_set_request o c t v : keeps I (set_request o c t v).
Proof. unfold set_request. keep. Qed.
Lemma kept_process r : keeps I (process_response r).
Proof. unfold process_response. keep. Qed.
Lemma kept_get o c : keeps I (getSingleINT o c).
Proof. unfold getSingleINT, singleGetSNMP, getSNMP. keep. Qed.
Hint Resolve kept_set_request kept_process kept_get : dms_keeps.
Lemma kept_setSNMP o c v : keeps I (setSNMP o c v).
Proof. unfold setSNMP. keep. Qed.
Lemma kept_setSNMPText o c v : keeps I (setSNMPText o c v).
Proof. unfold setSNMPText. keep. Qed.
Lemma kept_setSNMPActivateMsg o c v : keeps I (setSNMPActivateMsg o c v).
Proof. unfold setSNMPActivateMsg. keep. Qed.
Hint Resolve kept_setSNMP kept_setSNMPText kept_setSNMPActivateMsg : dms_keeps.
Lemma kept_activate n : keeps I (ActivateMessage n).
Proof. unfold ActivateMessage, getDMSMsgCRCCurr, setDMSMsgActivate. keep; by apply kept_modify. Qed.
Lemma kept_request_status v id e : keeps I (request_status v id e).
Proof. unfold request_status, setDMSMsgStatus, getDMSMsgStatus. keep. Qed.
Hint Resolve kept_activate kept_request_status : dms_keeps.
Lemma kept_assign n t a : keeps I (AssignMessageOnSign n t a).
Proof.
  unfold AssignMessageOnSign, setDMSMsgMultiString, setDMSMsgOwner, setDMSMsgRunTimePriority. keep.
  apply kept_modify. intros s. by destruct (_ =? _).
Qed.
Lemma kept_simulate t : keeps I (simulate t).
Proof. unfold simulate. keep; by apply kept_modify. Qed.
Hint Resolve kept_simulate : dms_keeps.
Lemma kept_request n : keeps I (SetRequestedMessage n).
Proof. unfold SetRequestedMessage, ShowSignMessage. keep; by apply kept_modify. Qed.
Lemma kept_SetStatus key v : keeps I (SetStatus key v).
Proof.
  apply kept_modify. intros s. destruct (default false _); [done|]. destruct (statusMap s !! key); [|done]. by destruct (String.eqb _ _).
Qed.
Hint Resolve kept_request kept_SetStatus : dms_keeps.
Lemma kept_ends : keeps I (round_ends None).
Proof. unfold round_ends, UpdateMsgIdStatus. keep. Qed.
Lemma kept_round : b = true -> keeps I round.
Proof.
  intros Hb s a s' Hs Hr. unfold round in Hr. apply bind_Some in Hr as (r & s1 & H1 & H2).
  unfold round_begins in H1. rewrite bind_gets in H1. cbn [id] in H1. pose proof Hs as [_ Hf]. rewrite Hf, Hb in H1.
  apply bind_Some in H1 as (r' & s2 & H1 & H3). injection H3 as <- <-. eapply kept_ends, H2.
  eapply (keeps_when I); [|exact Hs|exact H1]. keep.
Qed.
End kept.
Lemma rounds_kept ms k : keeps (messages_are ms true) (rounds k).
Proof. induction k as [|k IH]; cbn [rounds]; [apply client_keeps_ret|]. apply client_keeps_bind; [by apply kept_round|by intros _]. Qed.

(** A text that the sign does not take, which changes after [Main] has found everything
    initialized and before it stores that, stays off the sign: the flag says that all is
    initialized, and no round tries again. *)
Theorem lost_reset s a t t' s1 k s' : DmsText <$> OrdMap.find a (signMessages s) = Some t -> t' <> t ->
  AddSignMessage a t' true s = Some (false, s1) ->
  bindM (round_ends (Some true)) (fun _ => rounds k) s1 = Some (tt, s') ->
  isSignMessagesInitialized s1 = false /\ isSignMessagesInitialized s' = true /\
  OrdMap.find a (signMessages s') = Some (mkSign (replace_np 0 t') t' false).
Proof.
  intros Ht Hne Hadd Hend. set (ms := OrdMap.insert a (mkSign (replace_np 0 t') t' false) (signMessages s)).
  assert (messages_are ms false s1) as [Hm Hf].
  { revert Hadd. unfold AddSignMessage. rewrite bind_modify, bind_gets. cbn [id].
    assert (store_text a t' s = set_initialized false (set_messages ms s)) as ->.
    { unfold store_text. destruct (OrdMap.find a (signMessages s)) as [m|]; [|done]. injection Ht as ->.
      by rewrite (proj2 (String.eqb_neq t t')). }
    rewrite bind_deref. intros (m & _ & Hr). case_match; [done|]. case_match; [done|].
    apply bind_Some in Hr as ([|] & s2 & Ha & Hr); [done|]. injection Hr as <-. by eapply kept_assign, Ha. }
  split; [done|]. apply bind_Some in Hend as (u & s2 & He & Hr).
  assert (messages_are ms true s2) as H2.
  { unfold round_ends in He. rewrite bind_modify in He. revert He. apply (kept_ends ms true (set_initialized true s1)). by split. }
  destruct (rounds_kept ms k s2 tt s' H2 Hr) as [-> ->]. split; [done|]. unfold ms. rewrite OrdMap.find_insert. by rewrite OrdMap.keqb_refl.
Qed.

(** ** Without the sign *)
Definition dms_off (w : W) : Prop := config_bool "Enable DMS" w <> Some true.
Definition simulated (os : list output) : list string := omap (fun o => match o with simulator_text t => Some t | _ => None end) os.
Definition idle (s : Plugin) : Prop :=
  enableDms (settings s) = false /\ isSignMessagesInitialized s = false /\ simulated (outputs s) = [] /\ dms_off (world s).
Lemma idle_emit o s : (forall t, o <> simulator_text t) -> idle s -> idle (emit o s).
Proof.
  intros Ho (H1 & H2 & H3 & H4). unfold idle, emit. cbn [settings isSignMessagesInitialized outputs world].
  unfold simulated in *. rewrite omap_app, H3. by destruct o; [destruct (Ho t)| |].
Qed.
Lemma idle_SetStatus key v : keeps idle (SetStatus key v).
Proof.
  apply client_keeps_modify. intros s Hs. destruct (default false _); [done|].
  assert (idle (emit (status_item key v) (set_statusMap (<[key:=v]> (statusMap s)) s))) by by apply idle_emit.
  destruct (statusMap s !! key); [|done]. by destruct (String.eqb _ _).
Qed.
Lemma idle_store i t s : idle s -> idle (store_text i t s).
Proof. intros (H1 & H2 & H3 & H4). unfold store_text. destruct (OrdMap.find _ _) as [m|]; [destruct (String.eqb _ _)|]; by split_all. Qed.
Lemma idle_add i t send : keeps idle (AddSignMessage i t send).
Proof.
  intros s a s' Hs. unfold AddSignMessage. rewrite bind_modify, bind_gets, bind_deref. cbn [id]. intros (m & _ & Hr).
  apply idle_store with (i := i) (t := t) in Hs. pose proof Hs as (H1 & _). rewrite H1 in Hr. by injection Hr as _ <-.
Qed.
Lemma idle_add_messages ids : forall t send, keeps idle (add_messages ids t send).
Proof.
  induction ids as [|i ids IH]; intros t send; cbn [add_messages]; [apply client_keeps_ret|].
  apply client_keeps_bind; [apply client_keeps_gets|]. intros w. apply client_keeps_bind; [apply idle_add|]. intros b. apply IH.
Qed.
Lemma idle_new_client a p : keeps idle (new_client a p).
Proof.
  unfold new_client. apply client_keeps_bind; [apply client_keeps_gets|]. intros [|a' p'|]; [| |apply keeps_undefined];
    (apply client_keeps_bind; [apply client_keeps_gets|]); intros w; (case_if; [by apply client_keeps_modify|]);
    (apply client_keeps_bind; [by apply client_keeps_modify|]); intros _; apply client_keeps_modify; intros s Hs; by apply idle_emit.
Qed.
Lemma idle_settings s : idle s -> idle (set_settings (new_settings (world s) (settings s)) s).
Proof.
  intros (H1 & H2 & H3 & H4). unfold idle. split_all; [|done..]. cbn [settings set_settings new_settings enableDms]. unfold dms_off in H4.
  by destruct (config_bool "Enable DMS" (world s)) as [[|]|].
Qed.
Lemma idle_UpdateConfig : keeps idle UpdateConfig.
Proof.
  intros s a s' Hs. unfold UpdateConfig. rewrite !bind_gets, bind_modify. intros Hr. apply idle_settings in Hs. revert Hs Hr.
  generalize (set_settings (new_settings (world s) (settings s)) s). intros s1 Hs. revert s1 a s' Hs.
  match goal with |- forall s1 a s', idle s1 -> ?m s1 = _ -> _ => change (keeps idle m) end.
  apply client_keeps_bind; [apply keeps_when; by apply client_keeps_modify|]. intros _.
  apply client_keeps_bind; [apply keeps_when, idle_new_client|]. intros _. apply idle_add_messages.
Qed.
Lemma idle_request n : keeps idle (SetRequestedMessage n).
Proof.
  unfold SetRequestedMessage. apply client_keeps_bind; [by apply client_keeps_modify|]. intros _ s a s' Hs.
  unfold ShowSignMessage. rewrite bind_gets. case_if; [by intros [= _ <-]|].
  unfold bindM. cbn [gets id]. pose proof Hs as (_ & -> & _). by intros [= _ <-].
Qed.
Lemma idle_OnConfigChanged key : keeps idle (OnConfigChanged key).
Proof.
  unfold OnConfigChanged. case_if; [|apply idle_UpdateConfig]. apply client_keeps_bind; [apply client_keeps_gets|]. intros w.
  apply client_keeps_bind; [apply idle_request|]. intros _. apply client_keeps_ret.
Qed.
Lemma idle_OnMessageReceived m : keeps idle (OnMessageReceived m).
Proof.
  unfold OnMessageReceived. apply client_keeps_bind; [apply keeps_deref|]. intros t. case_if; [|apply client_keeps_ret].
  apply client_keeps_bind; [apply keeps_deref|]. intros st. case_if; [|apply client_keeps_ret].
  apply client_keeps_bind; [apply keeps_deref|]. intros p. case_if; [|apply client_keeps_ret].
  apply client_keeps_bind; [apply keeps_deref|]. intros n. apply client_keeps_bind; [apply idle_request|]. intros _. apply client_keeps_ret.
Qed.
Lemma idle_begins s b s' : idle s -> round_begins s = Some (b, s') -> idle s' /\ b = Some false.
Proof.
  intros Hs. pose proof Hs as (H1 & H2 & _). unfold round_begins. rewrite bind_gets. cbn [id]. rewrite H2.
  unfold InitializeSignMessages, bindM. cbn [gets id]. rewrite H1. by intros [= <- <-].
Qed.
Lemma idle_ends : keeps idle (round_ends (Some false)).
Proof.
  unfold round_ends. apply client_keeps_bind; [apply client_keeps_modify; by intros s (H1 & H2 & H3 & H4)|]. intros _.
  assert (forall key n, keeps idle (UpdateMsgIdStatus key n)) as Hu.
  { intros key n. unfold UpdateMsgIdStatus. apply client_keeps_bind; [apply client_keeps_gets|]. intros s. apply idle_SetStatus. }
  apply client_keeps_bind; [apply client_keeps_gets|]. intros s. apply client_keeps_bind; [apply idle_SetStatus|]. intros _.
  apply client_keeps_bind; [apply Hu|]. intros _. apply Hu.
Qed.
Definition quiet (st : option (option bool) * Plugin) : Prop :=
  idle st.2 /\ (st.1 = None \/ st.1 = Some (Some false)).
Lemma quiet_step st st' : quiet st -> step dms_off st st' -> quiet st'.
Proof.
  intros [Hi Hp] Hstep. destruct Hstep as [s b s' Hr|b s s' Hr|pc r s s' Hr|pc key s s' Hr|pc m s s' Hr|pc w s Hw];
    unfold quiet in *; cbn [fst snd] in *.
  - destruct (idle_begins s b s' Hi Hr) as [Hi' ->]. auto.
  - split; [|by left]. destruct Hp as [|[= ->]]; [done|]. by eapply idle_ends.
  - split; [|done]. eapply (keeps_when idle r UpdateConfig); [apply idle_UpdateConfig|done|exact Hr].
  - split; [|done]. by eapply idle_OnConfigChanged.
  - split; [|done]. by eapply idle_OnMessageReceived.
  - split; [|done]. destruct Hi as (H1 & H2 & H3 & H4). unfold idle. by split_all.
Qed.
(** C32: As long as the configuration does not enable the sign, nothing is ever sent to the
    simulator of the sign, whether the simulator is enabled or not and whatever messages
    are requested. *)
Theorem simulator_needs_sign w s0 pc s :
  DmsPlugin_new w = Some s0 -> dms_off w -> rtc (step dms_off) (None, s0) (pc, s) -> simulated (outputs s) = [].
Proof.
  intros Hnew Hw Hsteps. assert (quiet (None, s0)) as Hq.
  { split; [|by left]. unfold DmsPlugin_new in Hnew. apply fmap_Some in Hnew as ([b s1] & Hadd & ->). eapply idle_add, Hadd.
    unfold idle. by split_all. }
  remember (None, s0) as st eqn:E. remember (pc, s) as st' eqn:E'. clear E Hnew.
  induction Hsteps as [st|st st1 st' Hs _ IH]; [|apply IH; [done|by eapply quiet_step]].
  subst st. by destruct Hq as [(_ & _ & H & _) _].
Qed.

(** ** A text that is too long *)
(** The simulator gets at most 221 characters of text: a longer one overruns the buffer. *)
Lemma length_DisplayText t : String.length (DisplayText t) = (18 + String.length (c_str t))%nat.
Proof.
  unfold DisplayText. rewrite !length_string_app. cbn [String.length]. rewrite !length_string_app. cbn [String.length].
  rewrite !length_string_app. cbn [String.length]. rewrite !length_string_app. cbn. lia.
Qed.
Lemma simulate_long t s : signSimClient s <> no_client -> (222 <= String.length (c_str t))%nat -> simulate t s = None.
Proof.
  intros Hc Hl. unfold simulate. rewrite bind_gets. rewrite length_DisplayText.
  rewrite (proj2 (Nat.ltb_ge _ _)) by lia. by destruct (signSimClient s).
Qed.
Lemma simulate_fits t s a p : signSimClient s = client a p -> (String.length (c_str t) <= 221)%nat ->
  simulate t s = Some (tt, emit (simulator_text (DisplayText t)) s).
Proof.
  intros Hc Hl. unfold simulate. rewrite bind_gets, Hc, length_DisplayText. by rewrite (proj2 (Nat.ltb_lt _ _)) by lia.
Qed.
(** ** An address that cannot be resolved *)
(** The client of the simulator is deleted before the new one is made; when that fails, the
    next text or the next address has no defined behaviour. *)
Lemma failed_client a p a' p' s : signSimClient s = client a p -> udp_client a' p' (world s) = false ->
  exists s', new_client a' p' s = Some (tt, s') /\ signSimClient s' = deleted_client /\
  (forall t, simulate t s' = None) /\ (forall a'' p'', new_client a'' p'' s' = None).
Proof.
  intros Hc Hf. unfold new_client. rewrite bind_gets, Hc. cbn iota. rewrite bind_gets, Hf, bind_modify. eexists. split; [done|]. cbn [signSimClient set_signSimClient emit].
  split; [done|]. split; [|done]. intros t. unfold simulate. rewrite bind_gets. cbn [signSimClient]. by destruct (negb _).
Qed.
(** ** A response without a value *)
Lemma no_value_undefined o community r st p s peer :
  parse_oid o = (true, r) -> peer_of (target s) = Some peer ->
  Snmp.snmp_open (session_v1 peer community) (world s) = (true, world s) ->
  fst (Snmp.snmp_synch_response (session_v1 peer community) Snmp.GET [(r.1, Snmp.bound_null)] (world s)) = (st, Some p) ->
  (st = Snmp.STAT_SUCCESS \/ Snmp.errstat p = Snmp.SNMP_ERR_NOERROR) ->
  (forall v, last (Snmp.variables p) = Some v -> freed_int v = None) ->
  getSingleINT o community s = None.
Proof.
  intros Hp Ht Ho Hr Hst Hv. unfold getSingleINT, singleGetSNMP. rewrite Hp. destruct r as [l n]. cbn [negb fst] in *.
  unfold getSNMP, bindM at 1. rewrite bind_gets. unfold bindM at 1. rewrite Ht. cbn [deref ret].
  unfold bindM at 1. unfold call at 1. rewrite Ho. cbn [negb]. unfold bindM at 1, call at 1. cbn [world set_world].
  destruct (Snmp.snmp_synch_response _ _ _ _) as [[st' res] w']. cbn [fst] in Hr. injection Hr as -> ->. cbn iota.
  assert (negb (is_success st) && negb (Snmp.errstat p =? Snmp.SNMP_ERR_NOERROR) = false) as ->.
  { destruct Hst as [->| ->]; [done|]. rewrite Z.eqb_refl. apply andb_false_r. }
  cbn [ret]. unfold bindM, deref. destruct (last _) as [v|]; [|done]. cbn [ret]. by rewrite (Hv v).
Qed.
End plugin.

(** * The activation code *)
(** The two bytes that the four decimal digits of a number below 10000 make in a
    hexadecimal field. *)
Definition digit_bytes (n : Z) : list Z := [n / 1000 * 16 + n / 100 mod 10; n / 10 mod 10 * 16 + n mod 10].
Lemma format_d_bytes n : 0 <= n < 10000 -> format_d 4 n = ByteStream.byte_stream_encode (digit_bytes n).
Proof.
  intros Hn. apply String.eqb_eq. revert n Hn.
  apply (below_ind 10000 (fun n => String.eqb (format_d 4 n) (ByteStream.byte_stream_encode (digit_bytes n)))). by vm_compute.
Qed.
Lemma hex_text_small n k : 0 <= n < 16 -> hex_text (S k) n = String (ByteStream.hex_char n) "".
Proof. intros Hn. cbn [hex_text]. by rewrite (proj2 (Z.ltb_lt _ _)), Z.mod_small by lia. Qed.
Lemma hex_text_step n k : 16 <= n -> hex_text (S k) n = hex_text k (n / 16) +:+ String (ByteStream.hex_char (n mod 16)) "".
Proof. intros Hn. cbn [hex_text]. by rewrite (proj2 (Z.ltb_ge _ _)) by lia. Qed.
Lemma shift_digit x y : 0 <= y < 16 -> (x * 16 + y) / 16 = x /\ (x * 16 + y) mod 16 = y.
Proof. intros Hy. Z.div_mod_to_equations; lia. Qed.
Lemma hex_text_digit x y k : 1 <= x -> 0 <= y < 16 ->
  hex_text (S k) (x * 16 + y) = hex_text k x +:+ String (ByteStream.hex_char y) "".
Proof. intros Hx Hy. rewrite hex_text_step by lia. by destruct (shift_digit x y Hy) as [-> ->]. Qed.
Lemma format_x_digits a b c d : 0 <= a < 16 -> 0 <= b < 16 -> 0 <= c < 16 -> 0 <= d < 16 ->
  format_x 4 (((a * 16 + b) * 16 + c) * 16 + d) =
  String (ByteStream.hex_char a) (String (ByteStream.hex_char b) (String (ByteStream.hex_char c) (String (ByteStream.hex_char d) ""))).
Proof.
  intros Ha Hb Hc Hd. unfold format_x. rewrite u32_small by lia.
  destruct (Z.le_gt_cases 1 a) as [Ha1|Ha1]; [by rewrite !hex_text_digit, hex_text_small by lia|].
  assert (a = 0) as -> by lia. rewrite Z.mul_0_l, Z.add_0_l.
  destruct (Z.le_gt_cases 1 b) as [Hb1|Hb1]; [by rewrite !hex_text_digit, hex_text_small by lia|].
  assert (b = 0) as -> by lia. rewrite Z.mul_0_l, Z.add_0_l.
  destruct (Z.le_gt_cases 1 c) as [Hc1|Hc1]; [by rewrite !hex_text_digit, hex_text_small by lia|].
  assert (c = 0) as -> by lia. rewrite Z.mul_0_l, Z.add_0_l. by rewrite hex_text_small by lia.
Qed.
Lemma format_x_bytes n : 0 <= n < 65536 -> format_x 4 n = ByteStream.byte_stream_encode [n / 256; n mod 256].
Proof.
  intros Hn. pose proof (format_x_digits (n / 256 / 16) (n / 256 mod 16) (n mod 256 / 16) (n mod 256 mod 16)) as H.
  replace (((n / 256 / 16 * 16 + n / 256 mod 16) * 16 + n mod 256 / 16) * 16 + n mod 256 mod 16) with n in H
    by (Z.div_mod_to_equations; lia).
  apply H; Z.div_mod_to_equations; lia.
Qed.
Lemma encode_app l l' : ByteStream.byte_stream_encode (l ++ l') = ByteStream.byte_stream_encode l +:+ ByteStream.byte_stream_encode l'.
Proof. induction l as [|b l IH]; [done|]. cbn [app ByteStream.byte_stream_encode]. by rewrite IH, string_app_assoc. Qed.
Definition activation_bytes (memoryType : Z) (number : list Z) (crc : Z) : list Z :=
  [255; 255; 255; memoryType] ++ number ++ [crc / 256; crc mod 256] ++ [192; 160; 1; 10].
Lemma code_encodes t n crc : t = 3 \/ t = 7 -> 0 <= n < 10000 -> 0 <= crc < 65536 ->
  activation_code t n crc = ByteStream.byte_stream_encode (activation_bytes t (digit_bytes n) crc) /\
  Forall ByteStream.is_byte (activation_bytes t (digit_bytes n) crc).
Proof.
  intros Ht Hn Hc. split.
  - unfold activation_code, activation_bytes. rewrite !encode_app, format_d_bytes, format_x_bytes by done.
    rewrite <-string_app_assoc. f_equal. by destruct Ht as [->| ->].
  - unfold activation_bytes, digit_bytes, ByteStream.is_byte. repeat (apply Forall_app; split); repeat (apply Forall_cons; split);
      try apply Forall_nil; try done; try lia; try (destruct Ht; lia); Z.div_mod_to_equations; lia.
Qed.
(** C33: The activation code is twelve bytes in hexadecimal, for a number below 10000 and a
    checksum of 16 bits: the duration and the priority, the memory, two bytes for the
    number, the checksum and the address. The bytes for the number, which is written in
    decimal, are the number for numbers up to 9, and only for those. *)
Theorem activation_code_decodes t n crc : t = 3 \/ t = 7 -> 0 <= n < 10000 -> 0 <= crc < 65536 ->
  exists hi lo, ByteStream.byte_stream_decode (activation_code t n crc) =
    Some ([255; 255; 255; t; hi; lo; crc / 256; crc mod 256] ++ [192; 160; 1; 10]) /\
  (hi * 256 + lo = n <-> n < 10).
Proof.
  intros Ht Hn Hc. destruct (code_encodes t n crc Ht Hn Hc) as [-> Hb]. rewrite ByteStream.decode_encode by done.
  eexists _, _. split; [done|]. Z.div_mod_to_equations; lia.
Qed.
Lemma activation_code_decodes_witness : (10 < 10 -> False) /\ exists hi lo,
  ByteStream.byte_stream_decode (activation_code 3 10 4660) =
    Some ([255; 255; 255; 3; hi; lo; 4660 / 256; 4660 mod 256] ++ [192; 160; 1; 10]) /\ (hi * 256 + lo = 10 <-> 10 < 10).
Proof. split; [lia|]. apply (activation_code_decodes 3 10 4660); [by left|lia|lia]. Defined.

(** The number of a message is read back from the message that carries it. *)
Lemma message_id_read now n : - 2 ^ 31 <= n < 2 ^ 31 -> ivpDmsCont_getIvpDmsMsgId (ivpDmsCont_createMsg now n) = Some n.
Proof.
  intros Hn. change (Some (atoi (pretty n)) = Some n). by rewrite atoi_pretty.
Qed.

(** * A sign that follows the standard *)
Record row := mkRow { r_status : Z; r_text : string; r_crc : Z }.
(** The address of the sign, its rows for changeable messages, the text on its face, and
    the texts it can display. *)
Class SignView (W : Type) := {
  sign_peer : string;
  rows : W -> Z -> row;
  face : W -> string;
  displayable : string -> bool
}.
Abbreviation status_oid n := (Snmp.oid_numbers (DMS_MSG_STATUS +:+ msg_id n)).
Abbreviation text_oid n := (Snmp.oid_numbers (DMS_MSG_MULTISTRING +:+ msg_id n)).
Abbreviation owner_oid n := (Snmp.oid_numbers (DMS_MSG_OWNER +:+ msg_id n)).
Abbreviation priority_oid n := (Snmp.oid_numbers (DMS_MSG_RUNTIMEPRIORITY +:+ msg_id n)).
Abbreviation crc_oid n := (Snmp.oid_numbers (DMS_MSG_CRC_CURR +:+ msg_id n)).
Abbreviation activate_oid := (Snmp.oid_numbers DMS_ACTIVATE_MSG).

Section sign.
Context {W : Type} {DW : DmsWorld W} {SV : SignView W}.
Definition sign_session : Snmp.snmp_session := session_v1 sign_peer "public".
(** The sign takes a request, after which [P] holds of the world. *)
Definition takes (o : list Z) (b : Snmp.bound) (w : W) (P : W -> Prop) : Prop := exists vs w',
  Snmp.snmp_synch_response sign_session Snmp.SET [(o, b)] w = ((Snmp.STAT_SUCCESS, Some (Snmp.mkPdu Snmp.SNMP_ERR_NOERROR vs)), w') /\
  read_variables 0 vs = Some tt /\ P w'.
(** The sign answers with a number. *)
Definition reports (o : list Z) (w : W) (n : Z) : Prop :=
  Snmp.snmp_synch_response sign_session Snmp.GET [(o, Snmp.bound_null)] w =
    ((Snmp.STAT_SUCCESS, Some (Snmp.mkPdu Snmp.SNMP_ERR_NOERROR [Snmp.asn_integer (Some n)])), w).
(** Only row [n] changes, and not what is on the face. *)
Definition only (n : Z) (w w' : W) : Prop := (forall m, m <> n -> rows w' m = rows w m) /\ face w' = face w.
End sign.

(** NTCIP 1203: a request for a row that is not in use empties it; one to modify it makes
    it modifiable; then the text, the owner and the priority are taken; and a row with a
    text that can be displayed is valid after validation. A valid row goes to the face
    when the activation code has its number and its checksum; a code for the blank memory
    empties the face. *)
Class MessageSign (W : Type) {DW : DmsWorld W} {SV : SignView W} := {
  sign_opens w : Snmp.snmp_open sign_session w = (true, w);
  adds_number o v : v = "1" \/ v = "6" \/ v = "7" \/ v = "8" -> Snmp.snmp_add_var o "i" v = true;
  adds_text o v : Snmp.snmp_add_var o "s" v = true;
  adds_octets o l : Forall ByteStream.is_byte l -> Snmp.snmp_add_var o "x" (ByteStream.byte_stream_encode l) = true;
  takes_unused n w : 1 <= n <= 4 -> takes (status_oid n) (Snmp.bound_text "i" "8") w (fun w' => only n w w' /\ r_status (rows w' n) = 1);
  takes_modify n w : 1 <= n <= 4 -> r_status (rows w n) = 1 ->
    takes (status_oid n) (Snmp.bound_text "i" "6") w (fun w' => only n w w' /\ r_status (rows w' n) = 2);
  takes_message n t w : 1 <= n <= 4 -> r_status (rows w n) = 2 ->
    takes (text_oid n) (Snmp.bound_text "s" t) w (fun w' => only n w w' /\ r_status (rows w' n) = 2 /\ r_text (rows w' n) = t);
  takes_owner n t w : 1 <= n <= 4 -> r_status (rows w n) = 2 ->
    takes (owner_oid n) (Snmp.bound_text "s" t) w
      (fun w' => only n w w' /\ r_status (rows w' n) = 2 /\ r_text (rows w' n) = r_text (rows w n));
  takes_priority n w : 1 <= n <= 4 -> r_status (rows w n) = 2 ->
    takes (priority_oid n) (Snmp.bound_text "i" "1") w
      (fun w' => only n w w' /\ r_status (rows w' n) = 2 /\ r_text (rows w' n) = r_text (rows w n));
  takes_validate n w : 1 <= n <= 4 -> r_status (rows w n) = 2 -> displayable (r_text (rows w n)) = true ->
    takes (status_oid n) (Snmp.bound_text "i" "7") w
      (fun w' => only n w w' /\ r_status (rows w' n) = 4 /\ r_text (rows w' n) = r_text (rows w n));
  reports_status n w : 1 <= n <= 4 -> reports (status_oid n) w (r_status (rows w n));
  reports_crc n w : 1 <= n <= 4 -> r_status (rows w n) = 4 -> reports (crc_oid n) w (r_crc (rows w n)) /\ 0 <= r_crc (rows w n) < 65536;
  takes_activation n code ip w : 1 <= n <= 4 -> r_status (rows w n) = 4 ->
    ByteStream.byte_stream_decode code = Some ([255; 255; 255; 3; 0; n; r_crc (rows w n) / 256; r_crc (rows w n) mod 256] ++ ip) -> length ip = 4%nat ->
    takes activate_oid (Snmp.bound_text "x" code) w (fun w' => rows w' = rows w /\ face w' = r_text (rows w n));
  takes_blank code ip w :
    ByteStream.byte_stream_decode code = Some ([255; 255; 255; 7; 0; 1; 0; 0] ++ ip) -> length ip = 4%nat ->
    takes activate_oid (Snmp.bound_text "x" code) w (fun w' => rows w' = rows w /\ face w' = "")
}.

(** No standard says this and no property of the plugin rests on it: that the memory of an
    answer still holds the number after the answer is freed, which is what the plugin
    reads. What follows of the texts on the sign is on a machine where that happens. *)
Class FreedKept (W : Type) {DW : DmsWorld W} := freed_kept n : freed_int (Snmp.asn_integer (Some n)) = Some n.

Section standard.
Context {W : Type} {DW : DmsWorld W} {SV : SignView W} {MS : MessageSign W} {FK : FreedKept W}.
Local Notation "'do' x <- m ; k" := (bindM m (fun x => k)) (at level 10, x pattern, m at level 100, k at level 200).
Local Notation "m ;; k" := (bindM m (fun _ => k)) (at level 100, right associativity).

Definition connected (s : Plugin (W := W)) : Prop := peer_of (target s) = Some sign_peer.

Lemma parse_sign o : Snmp.numeric o = true -> Snmp.oid_size o <= Snmp.MAX_OID_LEN -> parse_oid o = (true, (Snmp.oid_numbers o, Snmp.oid_size o)).
Proof. intros H1 H2. by apply Snmp.parse_fits. Qed.
(** The identifiers of the four rows can be read. *)
Lemma sign_oids n p : 1 <= n <= 4 ->
  p ∈ [DMS_MSG_STATUS; DMS_MSG_MULTISTRING; DMS_MSG_OWNER; DMS_MSG_RUNTIMEPRIORITY; DMS_MSG_CRC_CURR] ->
  parse_oid (p +:+ msg_id n) = (true, (Snmp.oid_numbers (p +:+ msg_id n), Snmp.oid_size (p +:+ msg_id n))).
Proof.
  intros Hn Hp. assert (n ∈ [1; 2; 3; 4]) as Hn'.
  { assert (n = 1 \/ n = 2 \/ n = 3 \/ n = 4) as [->|[->|[->| ->]]] by lia; by repeat constructor. }
  assert (Forall (fun p => Forall (fun n => Snmp.numeric (p +:+ msg_id n) = true /\ Snmp.oid_size (p +:+ msg_id n) <= Snmp.MAX_OID_LEN) [1; 2; 3; 4])
    [DMS_MSG_STATUS; DMS_MSG_MULTISTRING; DMS_MSG_OWNER; DMS_MSG_RUNTIMEPRIORITY; DMS_MSG_CRC_CURR]) as H.
  { repeat constructor; vm_compute; done. }
  rewrite Forall_forall in H. specialize (H p Hp). rewrite Forall_forall in H. destruct (H n Hn') as [H1 H2]. by apply parse_sign.
Qed.

Lemma request_taken o l k t v P s : connected s -> parse_oid o = (true, (l, k)) -> Snmp.snmp_add_var l t v = true ->
  takes l (Snmp.bound_text t v) (world s) P ->
  exists vs w', set_request o "public" t v s = Some (Some (Snmp.STAT_SUCCESS, Some (Snmp.mkPdu Snmp.SNMP_ERR_NOERROR vs)), set_world w' s) /\
    read_variables 0 vs = Some tt /\ P w'.
Proof.
  intros Hc Hp Ha (vs & w' & Hs & Hv & HP). exists vs, w'. split; [|done]. unfold set_request. rewrite bind_gets, Hc. cbn [deref].
  rewrite bind_ret. change (session_v1 sign_peer "public") with sign_session. unfold bindM, call. rewrite sign_opens. cbn [negb]. rewrite Hp. cbn [negb].
  rewrite Ha. cbn [world set_world]. by rewrite Hs.
Qed.
Lemma setSNMP_taken o l k v P s : connected s -> parse_oid o = (true, (l, k)) -> Snmp.snmp_add_var l "i" v = true ->
  takes l (Snmp.bound_text "i" v) (world s) P ->
  exists w', setSNMP o "public" v s = Some (tt, set_world w' s) /\ P w'.
Proof.
  intros Hc Hp Ha Ht. destruct (request_taken o l k "i" v P s Hc Hp Ha Ht) as (vs & w' & Hs & _ & HP). exists w'. split; [|done].
  unfold setSNMP, bindM at 1. by rewrite Hs.
Qed.
Lemma setSNMPText_taken o l k v P s : connected s -> parse_oid o = (true, (l, k)) ->
  takes l (Snmp.bound_text "s" v) (world s) P ->
  exists w', setSNMPText o "public" v s = Some (tt, set_world w' s) /\ P w'.
Proof.
  intros Hc Hp Ht. destruct (request_taken o l k "s" v P s Hc Hp (adds_text _ _) Ht) as (vs & w' & Hs & _ & HP). exists w'. split; [|done].
  unfold setSNMPText, bindM at 1. by rewrite Hs.
Qed.
Lemma getSingleINT_reports o l k n s : connected s -> parse_oid o = (true, (l, k)) -> reports l (world s) n ->
  getSingleINT o "public" s = Some (n, set_world (world s) s).
Proof.
  intros Hc Hp Hs. red in Hs. unfold getSingleINT, singleGetSNMP. rewrite Hp. cbn [negb].
  unfold getSNMP, bindM at 1. rewrite bind_gets, Hc. cbn [deref]. rewrite bind_ret.
  change (session_v1 sign_peer "public") with sign_session. unfold bindM, call.
  rewrite sign_opens. cbn [negb world set_world]. rewrite Hs. cbn. by rewrite freed_kept.
Qed.
(** ** What the calls do to the sign *)
Lemma only_trans n w1 w2 w3 : only n w1 w2 -> only n w2 w3 -> only n w1 w3.
Proof. intros [H1 F1] [H2 F2]. split; [|congruence]. intros m Hm. by rewrite H2, H1. Qed.
Lemma only_refl n w : only n w w.
Proof. done. Qed.
Lemma set_world_same (s : Plugin (W := W)) : set_world (world s) s = s.
Proof. by destruct s. Qed.
Lemma request_status_taken v n e P s : connected s -> 1 <= n <= 4 -> v = "6" \/ v = "7" \/ v = "8" ->
  takes (status_oid n) (Snmp.bound_text "i" v) (world s) P -> (forall w', P w' -> r_status (rows w' n) = e) ->
  exists w', request_status v (msg_id n) e s = Some (true, set_world w' s) /\ P w'.
Proof.
  intros Hc Hn Hv Ht He. pose proof (sign_oids n DMS_MSG_STATUS Hn ltac:(by repeat constructor)) as Hp.
  destruct (setSNMP_taken _ _ _ v P s Hc Hp (adds_number _ _ (or_intror Hv)) Ht) as (w' & Hs & HP). exists w'. split; [|done].
  unfold request_status, setDMSMsgStatus, getDMSMsgStatus. unfold bindM at 1. rewrite Hs. unfold bindM.
  rewrite (getSingleINT_reports _ _ _ (r_status (rows w' n)) (set_world w' s) Hc Hp (reports_status n w' Hn)).
  by rewrite He, Z.eqb_refl by done.
Qed.
Definition forget (n : Z) (s : Plugin (W := W)) : Plugin := if msgIdRequested s =? n then set_shown (-1) s else s.
Lemma forget_fields n s : connected (forget n s) <-> connected s.
Proof. unfold forget. by destruct (_ =? _). Qed.
Lemma forget_world n s : world (forget n s) = world s.
Proof. unfold forget. by destruct (_ =? _). Qed.
(** The four steps that put a text into a row. *)
Lemma assign_spec n t s : connected s -> 1 <= n <= 4 -> displayable t = true ->
  exists w', AssignMessageOnSign n t false s = Some (true, set_world w' (forget n s)) /\ only n (world s) w' /\
    r_status (rows w' n) = 4 /\ r_text (rows w' n) = t.
Proof.
  intros Hc Hn Ht. unfold AssignMessageOnSign. rewrite bind_modify. change (if msgIdRequested s =? n then _ else _) with (forget n s).
  rewrite (proj2 (Z.eqb_neq n 0)) by lia. rewrite <-(forget_world n s). apply (forget_fields n) in Hc. generalize (forget n s), Hc. clear s Hc. intros s Hc.
  destruct (request_status_taken "8" n 1 _ s Hc Hn ltac:(auto) (takes_unused n (world s) Hn) ltac:(by intros ? [])) as (w1 & H1 & O1 & S1).
  unfold bindM at 1. rewrite H1. cbn [negb].
  destruct (request_status_taken "6" n 2 _ (set_world w1 s) Hc Hn ltac:(auto) (takes_modify n w1 Hn S1) ltac:(by intros ? [])) as (w2 & H2 & O2 & S2).
  unfold bindM at 1. rewrite H2. cbn [negb].
  destruct (setSNMPText_taken _ _ _ t _ (set_world w2 s) Hc (sign_oids n DMS_MSG_MULTISTRING Hn ltac:(by repeat constructor)) (takes_message n t w2 Hn S2)) as (w3 & H3 & O3 & S3 & T3).
  unfold bindM at 1. unfold setDMSMsgMultiString. change (set_world w2 (set_world w1 s)) with (set_world w2 s). rewrite H3.
  destruct (setSNMPText_taken _ _ _ "TTI" _ (set_world w3 s) Hc (sign_oids n DMS_MSG_OWNER Hn ltac:(by repeat constructor)) (takes_owner n "TTI" w3 Hn S3)) as (w4 & H4 & O4 & S4 & T4).
  unfold bindM at 1. unfold setDMSMsgOwner. change (set_world w3 (set_world w2 s)) with (set_world w3 s). rewrite H4.
  destruct (setSNMP_taken _ _ _ "1" _ (set_world w4 s) Hc (sign_oids n DMS_MSG_RUNTIMEPRIORITY Hn ltac:(by repeat constructor)) (adds_number _ _ (or_introl eq_refl)) (takes_priority n w4 Hn S4)) as (w5 & H5 & O5 & S5 & T5).
  unfold bindM at 1. unfold setDMSMsgRunTimePriority. change (set_world w4 (set_world w3 s)) with (set_world w4 s). rewrite H5.
  assert (r_text (rows w5 n) = t) as Ht5 by congruence.
  destruct (request_status_taken "7" n 4 _ (set_world w5 s) Hc Hn ltac:(auto) (takes_validate n w5 Hn S5 ltac:(congruence)) ltac:(by intros ? (_ & ? & _))) as (w6 & H6 & O6 & S6 & T6).
  unfold bindM at 1. change (set_world w5 (set_world w4 s)) with (set_world w5 s). rewrite H6. cbn [negb].
  exists w6. split; [done|]. split; [|split; [done|congruence]].
  do 5 (eapply only_trans; [eassumption|]). done.
Qed.

Lemma activate_taken code P s : connected s ->
  (forall o, Snmp.snmp_add_var o "x" code = true) -> takes activate_oid (Snmp.bound_text "x" code) (world s) P ->
  exists w', setDMSMsgActivate code s = Some (true, set_world w' s) /\ P w'.
Proof.
  intros Hc Ha Ht.
  assert (parse_oid DMS_ACTIVATE_MSG = (true, (activate_oid, Snmp.oid_size DMS_ACTIVATE_MSG))) as Hp.
  { apply parse_sign; by vm_compute. }
  destruct (request_taken _ _ _ "x" code P s Hc Hp (Ha _) Ht) as (vs & w' & Hs & Hv & HP). exists w'. split; [|done].
  unfold setDMSMsgActivate, setSNMPActivateMsg, bindM at 1. rewrite Hs. unfold bindM, process_response. cbn. by rewrite Hv.
Qed.
(** A valid row goes to the face. *)
Lemma activate_spec n s : connected s -> 1 <= n <= 4 -> r_status (rows (world s) n) = 4 ->
  exists w', ActivateMessage n s = Some (true, set_shown n (set_world w' s)) /\ rows w' = rows (world s) /\ face w' = r_text (rows (world s) n).
Proof.
  intros Hc Hn Hs. destruct (reports_crc n (world s) Hn Hs) as [Hr Hcrc].
  destruct (code_encodes 3 n (r_crc (rows (world s) n)) ltac:(auto) ltac:(lia) Hcrc) as [Hcode Hb].
  destruct (activate_taken (activation_code 3 n (r_crc (rows (world s) n))) (fun w' => rows w' = rows (world s) /\ face w' = r_text (rows (world s) n)) s Hc)
    as (w' & Ha & HP).
  - intros o. rewrite Hcode. by apply adds_octets.
  - apply takes_activation with (ip := [192; 160; 1; 10]); [done..| |done]. rewrite Hcode, ByteStream.decode_encode by done.
    unfold activation_bytes, digit_bytes. rewrite !(Z.div_small n) by lia. rewrite !(Z.mod_small n) by lia. done.
  - exists w'. split; [|done]. unfold ActivateMessage. rewrite (proj2 (Z.eqb_neq n 0)) by lia.
    change ("." +:+ pretty 3 +:+ "." +:+ pretty n) with (msg_id n). unfold bindM at 1, getDMSMsgCRCCurr.
    rewrite (getSingleINT_reports _ _ _ _ s Hc (sign_oids n DMS_MSG_CRC_CURR Hn ltac:(by repeat constructor)) Hr).
    rewrite set_world_same. unfold bindM at 1. by rewrite Ha.
Qed.
Lemma blank_spec s : connected s ->
  exists w', ActivateMessage 0 s = Some (true, set_shown 1 (set_world w' s)) /\ rows w' = rows (world s) /\ face w' = "".
Proof.
  intros Hc. destruct (code_encodes 7 1 0 ltac:(auto) ltac:(lia) ltac:(lia)) as [Hcode Hb].
  destruct (activate_taken (activation_code 7 1 0) (fun w' => rows w' = rows (world s) /\ face w' = "") s Hc) as (w' & Ha & HP).
  - intros o. rewrite Hcode. by apply adds_octets.
  - apply takes_blank with (ip := [192; 160; 1; 10]); [|done]. rewrite Hcode, ByteStream.decode_encode by done. done.
  - exists w'. split; [|done]. unfold ActivateMessage. cbn [Z.eqb]. rewrite bind_ret. unfold bindM at 1. by rewrite Ha.
Qed.

(** ** A message on the sign *)
Definition message_text (n : Z) (s : Plugin (W := W)) : option string := DmsText <$> OrdMap.find n (signMessages s).
Definition init_of (n : Z) (s : Plugin (W := W)) : option bool := IsDmsTextInitialized <$> OrdMap.find n (signMessages s).
(** The messages are the blank one and the four of the configuration, with texts that the
    sign can display. *)
Definition well_formed (s : Plugin (W := W)) : Prop :=
  connected s /\ enableDms (settings s) = true /\
  (forall n t, message_text n s = Some t -> 0 <= n <= 4) /\
  (forall n t, message_text n s = Some t -> n <> 0 -> displayable (c_str t) = true).
(** What the plugin takes for initialized is on the sign. *)
Definition loaded (s : Plugin (W := W)) : Prop := forall n t, message_text n s = Some t -> n <> 0 -> init_of n s = Some true ->
  r_status (rows (world s) n) = 4 /\ r_text (rows (world s) n) = c_str t.
Definition all_initialized (s : Plugin (W := W)) : Prop := forall n t, message_text n s = Some t -> n <> 0 -> init_of n s = Some true.

(** What stays while texts are put on the sign. *)
Definition same_texts (s s' : Plugin (W := W)) : Prop :=
  settings s' = settings s /\ target s' = target s /\ msgIdRequested s' = msgIdRequested s /\
  signSimClient s' = signSimClient s /\ isSignMessagesInitialized s' = isSignMessagesInitialized s /\
  face (world s') = face (world s) /\ (msgIdShown s' = msgIdShown s \/ msgIdShown s' = -1) /\
  (forall n, SimulatorText <$> OrdMap.find n (signMessages s') = SimulatorText <$> OrdMap.find n (signMessages s)) /\
  (forall n, message_text n s' = message_text n s) /\ (forall n, init_of n s = Some true -> init_of n s' = Some true).
Lemma same_texts_refl s : same_texts s s.
Proof. unfold same_texts. split_all; auto. Qed.
Lemma same_texts_trans s1 s2 s3 : same_texts s1 s2 -> same_texts s2 s3 -> same_texts s1 s3.
Proof.
  intros (A1 & A2 & A3 & A4 & A5 & A6 & A7 & A8 & A9 & A10) (B1 & B2 & B3 & B4 & B5 & B6 & B7 & B8 & B9 & B10). unfold same_texts.
  split_all; try congruence; try (intros n; congruence); [|by auto].
  destruct B7 as [->|]; auto.
Qed.
Lemma same_texts_formed s s' : same_texts s s' -> well_formed s -> well_formed s'.
Proof.
  intros (A1 & A2 & A3 & A4 & A5 & A6 & A7 & A8 & A9 & A10) (H1 & H2 & H3 & H4). unfold well_formed, connected. rewrite A1, A2.
  split_all; [done|done| |]; intros n t Ht; rewrite A9 in Ht; eauto.
Qed.

Lemma find_mark n i s m : OrdMap.find i (signMessages s) = Some m ->
  OrdMap.find n (signMessages (mark_initialized (W := W) i s)) =
  if n =? i then Some (set_text_initialized true m) else OrdMap.find n (signMessages s).
Proof.
  intros Hm. unfold mark_initialized. rewrite Hm. cbn [signMessages set_messages]. rewrite OrdMap.find_insert.
  destruct (Z.eqb_spec n i) as [->|Hne]; [by rewrite OrdMap.keqb_refl|]. by rewrite (proj2 (OrdMap.keqb_false n i)).
Qed.
Lemma mark_fields i s : let s' := mark_initialized (W := W) i s in
  settings s' = settings s /\ target s' = target s /\ msgIdRequested s' = msgIdRequested s /\ signSimClient s' = signSimClient s /\
  isSignMessagesInitialized s' = isSignMessagesInitialized s /\ world s' = world s /\ msgIdShown s' = msgIdShown s.
Proof. unfold mark_initialized. by destruct (OrdMap.find i (signMessages s)). Qed.
Lemma forget_messages n s : signMessages (forget n s) = signMessages s.
Proof. unfold forget. by destruct (_ =? _). Qed.

(** One message is put on the sign and marked. *)
Lemma load_step i m s : OrdMap.find i (signMessages s) = Some m -> connected s -> 1 <= i <= 4 ->
  displayable (c_str (DmsText m)) = true -> loaded s ->
  exists s1, AssignMessageOnSign i (c_str (DmsText m)) false s = Some (true, s1) /\
    same_texts s (mark_initialized i s1) /\ loaded (mark_initialized i s1) /\ init_of i (mark_initialized i s1) = Some true /\
    (msgIdRequested s = i -> msgIdShown (mark_initialized i s1) = -1) /\
    (forall n, n <> i -> init_of n (mark_initialized i s1) = init_of n s).
Proof.
  intros Hm Hc Hi Hd Hl. destruct (assign_spec i (c_str (DmsText m)) s Hc Hi Hd) as (w' & Ha & [Ho Hf] & Hs & Ht).
  exists (set_world w' (forget i s)). split; [done|].
  assert (forall n, OrdMap.find n (signMessages (mark_initialized i (set_world w' (forget i s)))) =
    if n =? i then Some (set_text_initialized true m) else OrdMap.find n (signMessages s)) as Hfind.
  { intros n. rewrite (find_mark n i _ m); cbn [signMessages set_world]; by rewrite forget_messages. }
  destruct (mark_fields i (set_world w' (forget i s))) as (F1 & F2 & F3 & F4 & F5 & F6 & F7).
  assert (init_of i (mark_initialized i (set_world w' (forget i s))) = Some true) as Hin.
  { unfold init_of. rewrite Hfind, Z.eqb_refl. done. }
  split; [|split; [|split; [done|split]]].
  - unfold same_texts, message_text, init_of. rewrite F1, F2, F3, F4, F5, F6, F7. cbn [world set_world]. unfold forget.
    split_all; try (destruct (msgIdRequested s =? i); by auto); intros n; rewrite Hfind; (destruct (Z.eqb_spec n i) as [->|]; [|done]); by rewrite Hm.
  - intros n t. unfold message_text, init_of. rewrite Hfind, F6. cbn [world set_world]. destruct (Z.eqb_spec n i) as [->|Hne].
    + intros [= <-] _ _. done.
    + rewrite Ho by done. intros H1 H2 H3. by apply Hl.
  - rewrite F7. intros <-. unfold forget. by rewrite Z.eqb_refl.
  - intros n Hn. unfold init_of. by rewrite Hfind, (proj2 (Z.eqb_neq n i)).
Qed.
Lemma initialize_spec ids : forall s, well_formed s -> loaded s ->
  exists s', initialize_from ids s = Some (true, s') /\ same_texts s s' /\ loaded s' /\
    (forall i, i ∈ ids -> i <> 0 -> is_Some (message_text i s) -> init_of i s' = Some true) /\
    (msgIdRequested s ∈ ids -> msgIdRequested s <> 0 -> init_of (msgIdRequested s) s = Some false -> msgIdShown s' = -1).
Proof.
  induction ids as [|i ids IH]; intros s Hw Hl; cbn [initialize_from].
  { exists s. split_all; [done|apply same_texts_refl|done| |]; [by intros i ?%elem_of_nil|by intros ?%elem_of_nil]. }
  rewrite bind_gets. cbn [id]. destruct (OrdMap.find i (signMessages s)) as [m|] eqn:Em.
  - assert (message_text i s = Some (DmsText m)) as Ht by (unfold message_text; by rewrite Em).
    assert (init_of i s = Some (IsDmsTextInitialized m)) as Hi by (unfold init_of; by rewrite Em).
    destruct (Z.eqb_spec i 0) as [->|Hi0]; cbn [orb].
    { destruct (IH s Hw Hl) as (s' & Hr & Hs & Hl' & H1 & H2). exists s'. split_all; [done..| |].
      - intros j [->|Hj]%elem_of_cons; [done|by apply H1].
      - intros [Hj|Hj]%elem_of_cons; [congruence|by apply H2]. }
    destruct (IsDmsTextInitialized m) eqn:Ei.
    { destruct (IH s Hw Hl) as (s' & Hr & Hs & Hl' & H1 & H2). exists s'. split_all; [done..| |].
      - intros j [->|Hj]%elem_of_cons; [intros _ _; by apply Hs|by apply H1].
      - intros [Hj|Hj]%elem_of_cons; [congruence|by apply H2]. }
    pose proof Hw as (Hc & _ & Hk & Hd). pose proof (Hk i _ Ht) as Hi4.
    destruct (load_step i m s Em Hc ltac:(lia) (Hd i _ Ht Hi0) Hl) as (s1 & Ha & Hs1 & Hl1 & Hi1 & Hsh1 & Hin1).
    unfold bindM at 1. rewrite Ha. rewrite bind_modify.
    destruct (IH _ (same_texts_formed _ _ Hs1 Hw) Hl1) as (s' & Hr & Hs & Hl' & H1 & H2). exists s'.
    pose proof Hs1 as (_ & _ & R1 & _ & _ & _ & _ & _ & T1 & I1). pose proof Hs as (_ & _ & R2 & _ & _ & _ & S2 & _ & T2 & I2).
    split_all; [done|by eapply same_texts_trans|done| |].
    + intros j [->|Hj]%elem_of_cons Hj0 Hjt; [by apply I2|]. apply H1; [done..|]. by rewrite T1.
    + rewrite R1 in H2. intros Hj Hr0 Hf. destruct (Z.eq_dec (msgIdRequested s) i) as [Heq|Hne].
      { destruct S2 as [->|]; [by apply Hsh1|done]. }
      apply elem_of_cons in Hj as [Hj|Hj]; [done|]. apply H2; [done..|]. by rewrite Hin1.
  - destruct (IH s Hw Hl) as (s' & Hr & Hs & Hl' & H1 & H2). exists s'. split_all; [done..| |].
    + intros j [->|Hj]%elem_of_cons; [|by apply H1]. intros _ [t Ht]. unfold message_text in Ht. by rewrite Em in Ht.
    + intros [Hj|Hj]%elem_of_cons; [|by apply H2]. intros _ Hf. unfold init_of in Hf. by rewrite Hj, Em in Hf.
Qed.

(** ** The request *)
(** The simulator is not enabled, or there is no client for it, or one that has room for
    every text. *)
Definition simulator_ready (s : Plugin (W := W)) : Prop :=
  enableSignSimulator (settings s) = false \/ signSimClient s = no_client \/
  (exists a p, signSimClient s = client a p) /\
  forall n t, SimulatorText <$> OrdMap.find n (signMessages s) = Some t -> (String.length (c_str t) <= 221)%nat.
(** The state with other statuses and outputs. *)
Definition with_reports (mp : gmap string string) (os : list output) (s : Plugin (W := W)) : Plugin :=
  mkPlugin (signMessages s) (isSignMessagesInitialized s) (isDmsControllerInitialized s) (target s) (settings s) (signSimClient s)
    (msgIdRequested s) (msgIdShown s) mp os (world s).
Lemma reported_same s : s = with_reports (statusMap s) (outputs s) s.
Proof. by destruct s. Qed.
Lemma SetStatus_reports key v s : exists mp os, SetStatus key v s = Some (tt, with_reports mp os s).
Proof.
  assert (exists mp os, Some (tt, s) = Some (tt, with_reports mp os s)) as Hs by (eexists _, _; by rewrite <-reported_same).
  unfold SetStatus, modify. destruct (default false _); [done|].
  destruct (statusMap s !! key); [destruct (String.eqb _ _); [done|]|]; by eexists _, _.
Qed.
Lemma round_ends_reports b s : exists mp os, round_ends b s =
  Some (tt, with_reports mp os (match b with Some b => set_initialized b s | None => s end)).
Proof.
  unfold round_ends. rewrite bind_modify, bind_gets. cbn [id]. generalize (match b with Some b => set_initialized b s | None => s end). clear s. intros s.
  unfold UpdateMsgIdStatus. destruct (SetStatus_reports "Is Sign Initialized" (bool_text (isSignMessagesInitialized s)) s) as (m1 & o1 & H1).
  unfold bindM at 1. rewrite H1. unfold bindM at 1. rewrite bind_gets. cbn [id].
  match goal with |- context [SetStatus "Message Requested" ?v ?s1] => destruct (SetStatus_reports "Message Requested" v s1) as (m2 & o2 & H2) end.
  rewrite H2, bind_gets. cbn [id].
  match goal with |- context [SetStatus "Message Shown" ?v ?s1] => destruct (SetStatus_reports "Message Shown" v s1) as (m3 & o3 & H3) end.
  rewrite H3. by exists m3, o3.
Qed.
Lemma simulate_ready n t s : simulator_ready s -> SimulatorText <$> OrdMap.find n (signMessages s) = Some t ->
  exists os, when (enableSignSimulator (settings s)) (simulate t) s = Some (tt, with_reports (statusMap s) os s).
Proof.
  intros Hr Ht. destruct (enableSignSimulator (settings s)) eqn:E; cbn [when].
  - destruct Hr as [?|[Hn|((a & p & Hc) & Hl)]]; [congruence| |].
    + unfold simulate. rewrite bind_gets, Hn. exists (outputs s). by destruct s.
    + exists (outputs s ++ [simulator_text (DisplayText t)]). rewrite (simulate_fits t s a p Hc (Hl n t Ht)). done.
  - exists (outputs s). by destruct s.
Qed.

(** The text of the message on the face: nothing for the blank one. *)
Definition face_of (n : Z) (t : string) : string := if n =? 0 then "" else c_str t.
Lemma request_shown n t s : well_formed s -> loaded s -> all_initialized s -> simulator_ready s -> isSignMessagesInitialized s = true ->
  message_text n s = Some t -> msgIdShown s <> n ->
  exists s' os w', SetRequestedMessage n s = Some (true, s') /\
    s' = with_reports (statusMap s) os (set_shown n (set_world w' (set_requested n s))) /\
    rows w' = rows (world s) /\ face w' = face_of n t.
Proof.
  intros (Hc & He & Hk & _) Hl Hall Hsim Hf Ht Hn. unfold SetRequestedMessage. rewrite bind_modify, bind_gets. cbn [id msgIdRequested msgIdShown set_requested].
  rewrite (proj2 (Z.eqb_neq n _)) by done.
  assert (exists w' k, ActivateMessage n (set_requested n s) = Some (true, set_shown k (set_world w' (set_requested n s))) /\
    rows w' = rows (world s) /\ face w' = face_of n t) as (w' & k & Ha & Hrows & Hface).
  { unfold face_of. destruct (Z.eqb_spec n 0) as [->|Hn0].
    - destruct (blank_spec (set_requested 0 s) Hc) as (w' & H1 & H2 & H3). by exists w', 1.
    - pose proof (Hk n t Ht). destruct (Hl n t Ht Hn0 (Hall n t Ht Hn0)) as [Hs1 Hs2].
      destruct (activate_spec n (set_requested n s) Hc ltac:(lia) Hs1) as (w' & H1 & H2 & H3). exists w', n. split; [done|]. split; [done|]. by rewrite H3. }
  unfold message_text in Ht. apply fmap_Some in Ht as (m & Hm & _).
  destruct (simulate_ready n (SimulatorText m) (set_shown k (set_world w' (set_requested n s)))) as [os Hos]; [done|cbn; by rewrite Hm|].
  eexists _, os, w'. split; [|done]. unfold bindM at 1. unfold ShowSignMessage. rewrite bind_gets. cbn [id isSignMessagesInitialized set_requested].
  rewrite Hf. cbn [negb]. change (signMessages (set_requested n s)) with (signMessages s). rewrite Hm. change (settings (set_requested n s)) with (settings s).
  rewrite He. unfold bindM at 1. rewrite Ha. unfold bindM at 1.
  change (settings (set_shown k (set_world w' (set_requested n s)))) with (settings s) in Hos. rewrite Hos. done.
Qed.

(** ** Rounds *)
Lemma initialize_all ids s : all_initialized s -> initialize_from ids s = Some (true, s).
Proof.
  intros Ha. induction ids as [|i ids IH]; cbn [initialize_from]; [done|]. rewrite bind_gets. cbn [id].
  destruct (OrdMap.find i (signMessages s)) as [m|] eqn:Em; [|done]. destruct (Z.eqb_spec i 0); [done|]. cbn [orb].
  specialize (Ha i (DmsText m)). unfold message_text, init_of in Ha. rewrite Em in Ha. cbn in Ha.
  destruct (IsDmsTextInitialized m) eqn:E; [done|]. by specialize (Ha eq_refl n).
Qed.
(** When the request is shown and every message is initialized, the rounds leave the sign
    alone. *)
Lemma settled_rounds k : forall s, all_initialized s -> enableDms (settings s) = true -> msgIdRequested s = msgIdShown s ->
  exists mp os b, rounds k s = Some (tt, with_reports mp os (set_initialized b s)) /\ ((0 < k)%nat \/ isSignMessagesInitialized s = true -> b = true).
Proof.
  induction k as [|k IH]; intros s Ha He Hr; cbn [rounds].
  { exists (statusMap s), (outputs s), (isSignMessagesInitialized s). split; [by destruct s|]. intros [|]; [lia|done]. }
  assert (exists mp os, round s = Some (tt, with_reports mp os (set_initialized true s))) as (mp & os & Hround).
  { unfold round, round_begins. unfold bindM at 1. rewrite bind_gets. cbn [id]. destruct (isSignMessagesInitialized s) eqn:Ef.
    - rewrite (proj2 (Z.eqb_eq _ _) Hr). cbn [negb when]. rewrite bind_ret. cbn [ret]. destruct (round_ends_reports None s) as (mp & os & ->).
      exists mp, os. destruct s. cbn in *. by subst.
    - unfold InitializeSignMessages, bindM at 1. rewrite bind_gets. cbn [id]. rewrite He. cbn [negb]. rewrite (initialize_all _ s Ha). cbn [ret].
      destruct (round_ends_reports (Some true) s) as (mp & os & ->). by exists mp, os. }
  unfold bindM at 1. rewrite Hround. destruct (IH (with_reports mp os (set_initialized true s))) as (mp' & os' & b & -> & Hb); [done..|].
  exists mp', os', b. split; [done|]. intros _. apply Hb. by right.
Qed.
(** The round that shows the request. *)
Lemma show_round n t s : well_formed s -> loaded s -> all_initialized s -> simulator_ready s -> isSignMessagesInitialized s = true ->
  message_text n s = Some t -> msgIdRequested s = n -> msgIdShown s <> n ->
  exists s', round s = Some (tt, s') /\ all_initialized s' /\ enableDms (settings s') = true /\
    isSignMessagesInitialized s' = true /\ msgIdRequested s' = n /\ msgIdShown s' = n /\ face (world s') = face_of n t.
Proof.
  intros Hw Hl Ha Hsim Hf Ht Hr Hn. destruct (request_shown n t s Hw Hl Ha Hsim Hf Ht Hn) as (s' & os & w' & Hreq & Hs' & _ & Hface).
  unfold round, round_begins. unfold bindM at 1. rewrite bind_gets. cbn [id]. rewrite Hf, Hr, (proj2 (Z.eqb_neq n _)) by done.
  cbn [negb when]. unfold bindM at 1, bindM at 1. rewrite Hreq. cbn [ret]. destruct (round_ends_reports None s') as (mp & os' & ->).
  eexists. split; [done|]. subst s'. split_all; try done. by destruct Hw as (_ & He & _).
Qed.
Lemma text_key n t (s : Plugin (W := W)) : message_text n s = Some t -> n ∈ map fst (signMessages s).
Proof.
  unfold message_text. generalize (signMessages s). induction l as [|[i m] l IH]; cbn; [done|].
  destruct (OrdMap.keqb n i) eqn:E; [apply OrdMap.keqb_spec in E as ->; by constructor|]. intros H. right. by apply IH.
Qed.
Lemma same_texts_ready s s' : same_texts s s' -> simulator_ready s -> simulator_ready s'.
Proof.
  intros (A1 & A2 & A3 & A4 & A5 & A6 & A7 & A8 & _). unfold simulator_ready. rewrite A1, A4.
  intros [H|[H|[H1 H2]]]; [by left|by right; left|right; right]. split; [done|]. intros n t. rewrite A8. apply H2.
Qed.
(** The round that puts the texts on the sign. *)
Lemma load_round s : well_formed s -> loaded s -> isSignMessagesInitialized s = false ->
  exists s1 mp os, round s = Some (tt, with_reports mp os (set_initialized true s1)) /\ same_texts s s1 /\ loaded s1 /\ all_initialized s1 /\
    (msgIdRequested s <> 0 -> init_of (msgIdRequested s) s = Some false -> msgIdShown s1 = -1).
Proof.
  intros Hw Hl Ef. destruct (initialize_spec (map fst (signMessages s)) s Hw Hl) as (s1 & Hi & Hs1 & Hl1 & Hin & Hsh). exists s1.
  destruct (round_ends_reports (Some true) s1) as (mp & os & Hends). exists mp, os. split; [|split; [done|split; [done|split]]].
  - unfold round, round_begins. unfold bindM at 1. rewrite bind_gets. cbn [id]. rewrite Ef. unfold InitializeSignMessages, bindM at 1.
    rewrite bind_gets. cbn [id]. destruct Hw as (_ & He & _). rewrite He. cbn [negb]. rewrite Hi. cbn [ret]. by rewrite Hends.
  - intros n t Hn Hn0. pose proof Hs1 as (_ & _ & _ & _ & _ & _ & _ & _ & A9 & _). rewrite A9 in Hn.
    apply Hin; [by eapply text_key|done|by eexists].
  - intros H0 H1. apply Hsh; [|done..]. unfold init_of in H1. apply fmap_Some in H1 as (m & Hm & _).
    apply (text_key _ (DmsText m)). unfold message_text. by rewrite Hm.
Qed.
(** A sign that follows the standard, on a machine where what is freed can still be read,
    shows the text that is configured for the message that was last requested after at most
    two rounds without an event between them, and goes on showing it, whatever part of the
    texts had been put on it before: if the message is not taken for shown already, or its
    text is not yet on the sign, and no text is too long for the simulator. *)
Theorem requested_message_shown s t k : well_formed s -> loaded s -> simulator_ready s ->
  (isSignMessagesInitialized s = true -> all_initialized s) -> message_text (msgIdRequested s) s = Some t ->
  msgIdShown s <> msgIdRequested s \/
    isSignMessagesInitialized s = false /\ msgIdRequested s <> 0 /\ init_of (msgIdRequested s) s = Some false ->
  (2 <= k)%nat ->
  exists s', rounds k s = Some (tt, s') /\ isSignMessagesInitialized s' = true /\
    msgIdShown s' = msgIdRequested s /\ face (world s') = face_of (msgIdRequested s) t.
Proof.
  intros Hw Hl Hsim Hall Ht Hn Hk. destruct k as [|[|k]]; [lia..|]. cbn [rounds].
  assert (exists s' j, (round ;; round ;; rounds k) s = rounds j s' /\ all_initialized s' /\ enableDms (settings s') = true /\
    isSignMessagesInitialized s' = true /\ msgIdRequested s' = msgIdRequested s /\ msgIdShown s' = msgIdRequested s /\
    face (world s') = face_of (msgIdRequested s) t) as (s' & j & -> & Ha' & He' & Hf' & Hr' & Hs' & Hface').
  { destruct (isSignMessagesInitialized s) eqn:Ef.
    - destruct (show_round (msgIdRequested s) t s) as (s' & Hround & H); [auto..|by destruct Hn as [|[? _]]|].
      exists s', (S k). split; [|done]. unfold bindM at 1. by rewrite Hround.
    - destruct (load_round s Hw Hl Ef) as (s1 & mp & os & Hround & Hs1 & Hl1 & Ha1 & Hsh).
      pose proof Hs1 as (_ & _ & A3 & _ & _ & _ & A7 & _ & A9 & _).
      destruct (show_round (msgIdRequested s) t (with_reports mp os (set_initialized true s1))) as (s' & Hround' & H); [..|done| |done| |].
      + exact (same_texts_formed s s1 Hs1 Hw).
      + exact Hl1.
      + exact Ha1.
      + exact (same_texts_ready s s1 Hs1 Hsim).
      + change (message_text (msgIdRequested s) s1 = Some t). by rewrite A9.
      + change (msgIdShown s1 <> msgIdRequested s). destruct Hw as (_ & _ & Hk4 & _). pose proof (Hk4 _ _ Ht).
        destruct Hn as [Hn|(_ & H0 & H1)]; [destruct A7 as [->| ->]; [done|lia]|]. rewrite Hsh by done. lia.
      + exists s', k. split; [|done]. unfold bindM at 1. rewrite Hround. unfold bindM at 1. by rewrite Hround'. }
  destruct (settled_rounds j s' Ha' He') as (mp & os & b & -> & Hb); [congruence|]. eexists. split; [done|]. split_all; [|done..].
  cbn. apply Hb. by right.
Qed.

(** ** A text that changes *)
Lemma store_changed a t t' s : message_text a s = Some t -> t <> t' ->
  store_text (W := W) a t' s =
  set_initialized false (set_messages (OrdMap.insert a (mkSign (replace_np 0 t') t' false) (signMessages s)) s).
Proof.
  unfold message_text, store_text. intros Ht Hne. destruct (OrdMap.find a (signMessages s)) as [m|]; [|done]. injection Ht as Ht.
  rewrite Ht. by rewrite (proj2 (String.eqb_neq t t')).
Qed.
(** A new text goes to the sign at once. *)
Lemma add_changed a t t' s : connected s -> enableDms (settings s) = true -> isDmsControllerInitialized s = true ->
  1 <= a <= 4 -> message_text a s = Some t -> t <> t' -> displayable (c_str t') = true -> msgIdRequested s <> a ->
  exists w', let s1 := set_world w' (store_text a t' s) in
    AddSignMessage a t' true s = Some (true, mark_initialized a s1) /\ only a (world s) w' /\ r_text (rows w' a) = c_str t' /\
    (forall n, OrdMap.find n (signMessages (mark_initialized a s1)) =
      if n =? a then Some (mkSign (replace_np 0 t') t' true) else OrdMap.find n (signMessages s)).
Proof.
  intros Hc He Hi Ha Ht Hne Hd Hr. pose proof (store_changed a t t' s Ht Hne) as Hs.
  assert (connected (store_text a t' s)) as Hc' by by rewrite Hs.
  destruct (assign_spec a (c_str t') (store_text a t' s) Hc' Ha Hd) as (w' & Has & Ho & _ & Htext).
  assert (forall n, OrdMap.find n (signMessages (store_text a t' s)) =
    if n =? a then Some (mkSign (replace_np 0 t') t' false) else OrdMap.find n (signMessages s)) as Hfind.
  { intros n. rewrite Hs. cbn [signMessages set_initialized set_messages]. rewrite OrdMap.find_insert.
    destruct (Z.eqb_spec n a) as [->|Hn]; [by rewrite OrdMap.keqb_refl|]. by rewrite (proj2 (OrdMap.keqb_false n a)). }
  assert (OrdMap.find a (signMessages (store_text a t' s)) = Some (mkSign (replace_np 0 t') t' false)) as Hfa by by rewrite Hfind, Z.eqb_refl.
  exists w'. cbn zeta. split; [|split; [by rewrite Hs in Ho|split; [done|]]].
  - unfold AddSignMessage. rewrite bind_modify, bind_gets. cbn [id]. rewrite Hfa. cbn [deref]. rewrite bind_ret.
    assert (settings (store_text a t' s) = settings s) as -> by by rewrite Hs.
    assert (isDmsControllerInitialized (store_text a t' s) = true) as -> by by rewrite Hs. rewrite He. cbn [negb orb IsDmsTextInitialized DmsText].
    rewrite (proj2 (Z.eqb_neq a 0)) by lia. unfold bindM at 1. rewrite Has. unfold forget.
    assert (msgIdRequested (store_text a t' s) = msgIdRequested s) as -> by by rewrite Hs. by rewrite (proj2 (Z.eqb_neq _ _)).
  - intros n. rewrite (find_mark n a _ (mkSign (replace_np 0 t') t' false)); cbn [signMessages set_world]; [|done].
    destruct (Z.eqb_spec n a) as [->|Hn]; [done|]. by rewrite Hfind, (proj2 (Z.eqb_neq n a)).
Qed.
(** The text of a message that is on the face of the sign is changed while another
    message is requested that does not exist, and then the message is requested again: the
    new text goes to its row, but the face shows the old text for ever, while the plugin
    takes the message for shown. *)
Theorem changed_text_not_shown s a t u t' k : well_formed s -> loaded s -> all_initialized s ->
  isSignMessagesInitialized s = true -> isDmsControllerInitialized s = true ->
  1 <= a <= 4 -> message_text a s = Some t -> msgIdShown s = a -> face (world s) = c_str t ->
  u <> a -> message_text u s = None -> t <> t' -> displayable (c_str t') = true ->
  exists s', (do _ <- SetRequestedMessage u; do _ <- AddSignMessage a t' true; do _ <- SetRequestedMessage a; rounds k) s = Some (tt, s') /\
    message_text a s' = Some t' /\ r_text (rows (world s') a) = c_str t' /\ msgIdRequested s' = a /\ msgIdShown s' = a /\
    face (world s') = c_str t.
Proof.
  intros (Hc & He & Hk & Hd) Hl Hall Hf Hci Ha Ht Hsh Hface Hu Hut Hne Hd'.
  assert (SetRequestedMessage u s = Some (false, set_requested u s)) as H1.
  { unfold SetRequestedMessage. rewrite bind_modify, bind_gets. cbn [id msgIdRequested msgIdShown set_requested].
    rewrite Hsh, (proj2 (Z.eqb_neq u a)) by done. unfold bindM at 1, ShowSignMessage. rewrite bind_gets. cbn [id].
    change (isSignMessagesInitialized (set_requested u s)) with (isSignMessagesInitialized s). rewrite Hf. cbn [negb].
    change (signMessages (set_requested u s)) with (signMessages s). unfold message_text in Hut. by destruct (OrdMap.find u (signMessages s)). }
  unfold bindM at 1. rewrite H1.
  destruct (add_changed a t t' (set_requested u s) Hc He Hci Ha Ht Hne Hd' Hu) as (w' & H2 & [_ Hface'] & Htext & Hfind).
  cbn zeta in H2, Hfind. unfold bindM at 1. rewrite H2. generalize (store_changed a t t' (set_requested u s) Ht Hne). intros Hs.
  destruct (mark_fields a (set_world w' (store_text a t' (set_requested u s)))) as (F1 & F2 & F3 & F4 & F5 & F6 & F7).
  revert F1 F2 F3 F4 F5 F6 F7 Hfind. generalize (mark_initialized a (set_world w' (store_text a t' (set_requested u s)))).
  intros s2. cbn [set_world settings msgIdShown world]. rewrite Hs. intros F1 F2 F3 F4 F5 F6 F7 Hfind. cbn in F1, F7.
  unfold bindM at 1, SetRequestedMessage. rewrite bind_modify, bind_gets. cbn [id msgIdRequested msgIdShown set_requested].
  rewrite F7, Hsh, Z.eqb_refl. cbn [ret]. destruct (settled_rounds k (set_requested a s2)) as (mp & os & b & -> & _).
  - intros n x. unfold message_text, init_of. cbn [signMessages set_requested]. rewrite !Hfind. destruct (n =? a); [done|]. apply Hall.
  - cbn. by rewrite F1.
  - cbn. congruence.
  - eexists. split; [done|]. unfold message_text. cbn. rewrite Hfind, Z.eqb_refl, F6. split_all; try done; [congruence|]. by rewrite Hface'.
Qed.
End standard.

(** * A sign of one's own *)
(** It has a configuration and four rows, and takes what the standard says; a text with a
    bracket that is not closed cannot be displayed. *)
Record demo := mkDemo { d_config : string -> option string; d_rows : Z -> row; d_face : string }.
Definition demo_row (o : list Z) : option (Z * Z) :=
  match o with [1; 3; 6; 1; 4; 1; 1206; 4; 2; 3; 5; 8; 1; column; 3; n] => Some (column, n) | _ => None end.
Definition put_row (n : Z) (r : row) (w : demo) : demo :=
  mkDemo (d_config w) (fun m => if m =? n then r else d_rows w m) (d_face w).
Definition next_status (v : string) (r : row) : row :=
  if String.eqb v "8" then mkRow 1 "" 0
  else if String.eqb v "6" then mkRow (if r_status r =? 1 then 2 else 5) (r_text r) (r_crc r)
  else if String.eqb v "7" then mkRow (if r_status r =? 2 then 4 else 5) (r_text r) (Z.of_nat (String.length (r_text r)))
  else r.
Definition activated (code : string) (w : demo) : demo :=
  match ByteStream.byte_stream_decode code with
  | Some (255 :: 255 :: 255 :: 3 :: 0 :: n :: hi :: lo :: _) =>
      let r := d_rows w n in
      if (r_status r =? 4) && (hi * 256 + lo =? r_crc r mod 65536) then mkDemo (d_config w) (d_rows w) (r_text r) else w
  | Some (255 :: 255 :: 255 :: 7 :: _) => mkDemo (d_config w) (d_rows w) ""
  | _ => w
  end.
Definition demo_set (o : list Z) (b : Snmp.bound) (w : demo) : demo :=
  match demo_row o, b with
  | Some (9, n), Snmp.bound_text _ v => put_row n (next_status v (d_rows w n)) w
  | Some (3, n), Snmp.bound_text _ v => put_row n (mkRow (r_status (d_rows w n)) v 0) w
  | None, Snmp.bound_text _ v => activated v w
  | _, _ => w
  end.
Definition demo_get (o : list Z) (w : demo) : Z :=
  match demo_row o with
  | Some (9, n) => r_status (d_rows w n)
  | Some (5, n) => r_crc (d_rows w n) mod 65536
  | _ => 0
  end.
Definition demo_answer (session : Snmp.snmp_session) (kind : Snmp.request_type) (bs : list Snmp.binding) (w : demo)
  : (Snmp.status * option Snmp.snmp_pdu) * demo :=
  match kind, bs with
  | Snmp.SET, [(o, b)] => ((Snmp.STAT_SUCCESS, Some (Snmp.mkPdu 0 [])), demo_set o b w)
  | Snmp.GET, [(o, _)] => ((Snmp.STAT_SUCCESS, Some (Snmp.mkPdu 0 [Snmp.asn_integer (Some (demo_get o w))])), w)
  | _, _ => ((Snmp.STAT_TIMEOUT, None), w)
  end.
#[export] Instance demo_world : DmsWorld demo := {|
  dw_snmp := Snmp.library demo demo_answer;
  config_text key w := d_config w key;
  lexical_uint32 t := match stoul t with inr v => Some v | inl _ => None end;
  lexical_int32 t := match stoi t with inr v => Some v | inl _ => None end;
  udp_client _ _ _ := true;
  freed_int v := match v with Snmp.asn_integer o => o | _ => None end |}.
#[export] Instance demo_view : SignView demo := {|
  sign_peer := "10.0.0.3:9090"; face := d_face;
  rows w n := let r := d_rows w n in mkRow (r_status r) (r_text r) (r_crc r mod 65536); displayable _ := true |}.
Lemma demo_column n : 1 <= n <= 4 ->
  demo_row (status_oid n) = Some (9, n) /\ demo_row (text_oid n) = Some (3, n) /\ demo_row (owner_oid n) = Some (4, n) /\
  demo_row (priority_oid n) = Some (8, n) /\ demo_row (crc_oid n) = Some (5, n).
Proof. intros Hn. assert (n = 1 \/ n = 2 \/ n = 3 \/ n = 4) as [->|[->|[->| ->]]] by lia; vm_compute; done. Qed.
Lemma demo_takes o b (w : demo) (P : demo -> Prop) : P (demo_set o b w) -> takes o b w P.
Proof. intros HP. by exists [], (demo_set o b w). Qed.
Lemma demo_put n r w : rows (put_row n r w) n = mkRow (r_status r) (r_text r) (r_crc r mod 65536) /\ only n w (put_row n r w).
Proof.
  unfold only. cbn. rewrite Z.eqb_refl. split; [done|]. split; [|done]. intros m Hm. by rewrite (proj2 (Z.eqb_neq m n)).
Qed.
#[export] Instance demo_kept : FreedKept demo := fun n => eq_refl.
#[export] Instance demo_sign : MessageSign demo.
Proof.
  split; try done.
  - intros n w Hn. apply demo_takes. unfold demo_set. destruct (demo_column n Hn) as (-> & _).
    destruct (demo_put n (next_status "8" (d_rows w n)) w) as [Hr Ho]. by rewrite Hr.
  - intros n w Hn Hs. apply demo_takes. unfold demo_set. destruct (demo_column n Hn) as (-> & _).
    destruct (demo_put n (next_status "6" (d_rows w n)) w) as [Hr Ho]. rewrite Hr. split; [done|].
    cbn in *. by rewrite Hs.
  - intros n t w Hn Hs. apply demo_takes. unfold demo_set. destruct (demo_column n Hn) as (_ & -> & _).
    destruct (demo_put n (mkRow (r_status (d_rows w n)) t 0) w) as [Hr Ho]. by rewrite Hr.
  - intros n t w Hn Hs. apply demo_takes. unfold demo_set. destruct (demo_column n Hn) as (_ & _ & -> & _). done.
  - intros n w Hn Hs. apply demo_takes. unfold demo_set. destruct (demo_column n Hn) as (_ & _ & _ & -> & _). done.
  - intros n w Hn Hs _. apply demo_takes. unfold demo_set. destruct (demo_column n Hn) as (-> & _).
    destruct (demo_put n (next_status "7" (d_rows w n)) w) as [Hr Ho]. rewrite Hr. split; [done|].
    cbn in *. by rewrite Hs.
  - intros n w Hn. red. cbn. unfold demo_get. by destruct (demo_column n Hn) as (-> & _).
  - intros n w Hn Hs. split; [|cbn; apply Z.mod_pos_bound; lia].
    red. cbn. unfold demo_get. by destruct (demo_column n Hn) as (_ & _ & _ & _ & ->).
  - intros n code ip w Hn Hs Hcode Hip. apply demo_takes. unfold demo_set.
    assert (demo_row activate_oid = None) as -> by by vm_compute. unfold activated. rewrite Hcode. cbn [app].
    cbn [rows r_crc demo_view] in *. cbn [r_status] in Hs. rewrite Hs, Z.eqb_refl.
    assert (r_crc (d_rows w n) mod 65536 / 256 * 256 + (r_crc (d_rows w n) mod 65536) mod 256 = r_crc (d_rows w n) mod 65536) as ->
      by (Z.div_mod_to_equations; lia). by rewrite Z.eqb_refl.
  - intros code ip w Hcode Hip. apply demo_takes. unfold demo_set.
    assert (demo_row activate_oid = None) as -> by by vm_compute. unfold activated. by rewrite Hcode.
Defined.

Definition demo_text (key : string) : option string :=
  if String.eqb key "Enable DMS" then Some "true"
  else if String.eqb key "DMS IP Address" then Some "10.0.0.3"
  else if String.eqb key "DMS Port" then Some "9090"
  else if String.eqb key "Message 02" then Some "[jl3]25[np]MPH"
  else if String.eqb key "Message 03" then Some "SLOW"
  else None.
Definition demo_start : demo := mkDemo demo_text (fun _ => mkRow 1 "" 0) "".
(** The plugin after it is configured: the texts are on the sign, and message 2 is
    requested. *)
Definition or_else (o : option (unit * Plugin (W := demo))) (s : Plugin (W := demo)) : Plugin (W := demo) :=
  match o with Some (_, s) => s | None => s end.
Definition demo_plugin : Plugin (W := demo) :=
  match DmsPlugin_new demo_start with
  | Some s => set_requested 2 (or_else (UpdateConfig s) s)
  | None => mkPlugin [] false false None (mkSettings false false "" 0 "" 0) no_client 0 0 ∅ [] demo_start
  end.
Lemma demo_keys (s : Plugin (W := demo)) n t : map fst (signMessages s) = [0; 1; 2; 3; 4] -> message_text n s = Some t -> n = 0 \/ n = 1 \/ n = 2 \/ n = 3 \/ n = 4.
Proof.
  intros Hm Ht. apply text_key in Ht. rewrite Hm in Ht. by repeat (apply elem_of_cons in Ht as [->|Ht]; [tauto|]); apply elem_of_nil in Ht.
Qed.
Lemma demo_formed (s : Plugin (W := demo)) : map fst (signMessages s) = [0; 1; 2; 3; 4] -> peer_of (target s) = Some "10.0.0.3:9090" ->
  enableDms (settings s) = true -> well_formed s.
Proof. intros Hm Hp He. unfold well_formed. split_all; [done|done| |done]. intros n t Ht. pose proof (demo_keys s n t Hm Ht). lia. Qed.
Lemma demo_rows (s : Plugin (W := demo)) : map fst (signMessages s) = [0; 1; 2; 3; 4] ->
  map (fun n => (init_of n s, r_status (rows (world s) n), Some (r_text (rows (world s) n)))) [1; 2; 3; 4] =
  map (fun n => (Some true, 4, c_str <$> message_text n s)) [1; 2; 3; 4] -> loaded s /\ all_initialized s.
Proof.
  intros Hm Hr. injection Hr as I1 S1 T1 I2 S2 T2 I3 S3 T3 I4 S4 T4.
  split; intros n t Ht Hn; [intros _|]; pose proof (demo_keys s n t Hm Ht) as [->|[->|[->|[->| ->]]]];
    first [by destruct (Hn eq_refl)|exact I1|exact I2|exact I3|exact I4|idtac]; (split; [assumption|]);
    rewrite Ht in *; cbn in *; congruence.
Qed.
Lemma demo_loaded : loaded demo_plugin /\ all_initialized demo_plugin.
Proof. apply demo_rows; vm_compute; reflexivity. Qed.
Lemma requested_message_shown_witness : msgIdShown demo_plugin = -1 /\ exists s', rounds 2 demo_plugin = Some (tt, s') /\
  isSignMessagesInitialized s' = true /\ msgIdShown s' = 2 /\ face (world s') = "[jl3]25[np]MPH".
Proof.
  split; [by vm_compute|]. apply (requested_message_shown demo_plugin "[jl3]25[np]MPH" 2).
  - by apply demo_formed; vm_compute.
  - apply demo_loaded.
  - left. by vm_compute.
  - intros _. apply demo_loaded.
  - by vm_compute.
  - left. by vm_compute.
  - lia.
Defined.

Definition demo_shown : Plugin (W := demo) := or_else (rounds 2 demo_plugin) demo_plugin.
Lemma demo_shown_loaded : loaded demo_shown /\ all_initialized demo_shown.
Proof. apply demo_rows; vm_compute; reflexivity. Qed.
Lemma changed_text_not_shown_witness : face (world demo_shown) = "[jl3]25[np]MPH" /\
  exists s', bindM (SetRequestedMessage 7) (fun _ => bindM (AddSignMessage 2 "STOP" true) (fun _ => bindM (SetRequestedMessage 2) (fun _ => rounds 9)))
    demo_shown = Some (tt, s') /\ message_text 2 s' = Some "STOP" /\ r_text (rows (world s') 2) = "STOP" /\ msgIdRequested s' = 2 /\ msgIdShown s' = 2 /\
    face (world s') = "[jl3]25[np]MPH".
Proof.
  split; [by vm_compute|]. apply (changed_text_not_shown demo_shown 2 "[jl3]25[np]MPH" 7 "STOP" 9);
    [by apply demo_formed; vm_compute|apply demo_shown_loaded|apply demo_shown_loaded|..]; vm_compute; try done; by intros [].
Defined.

Definition simulator_only (key : string) : option string :=
  if String.eqb key "Enable Sign Simulator" then Some "true"
  else if String.eqb key "Sign Sim IP Address" then Some "10.0.0.4"
  else if String.eqb key "Sign Sim Port" then Some "9090"
  else if String.eqb key "Message 02" then Some "SLOW"
  else None.
Definition demo_quiet : demo := mkDemo simulator_only (fun _ => mkRow 1 "" 0) "".
Definition demo_idle : Plugin (W := demo) := match DmsPlugin_new demo_quiet with Some s => or_else (UpdateConfig s) s | None => demo_plugin end.
(** The simulator is enabled and has a client, and message 2 is requested. *)
Lemma simulator_needs_sign_witness :
  enableSignSimulator (settings demo_idle) = true /\ signSimClient demo_idle = client "10.0.0.4" 9090 /\
  simulated (outputs (or_else (OnMessageReceived (ivpDmsCont_createMsg 0 2) demo_idle) demo_idle)) = [].
Proof.
  split; [by vm_compute|]. split; [by vm_compute|].
  refine (simulator_needs_sign demo_quiet (default demo_plugin (DmsPlugin_new demo_quiet)) None _ _ _ _); [by vm_compute|by vm_compute|].
  eapply rtc_l with (y := (None, demo_idle)); [apply (step_state _ _ true); vm_compute; reflexivity|].
  eapply rtc_l; [|apply rtc_refl]. apply (step_message _ _ (ivpDmsCont_createMsg 0 2)); vm_compute; reflexivity.
Defined.
End Dms.
