(* ===== verification/MapPlugin.v ===== *)
(** The plugin that broadcasts the map of an intersection ([MapPlugin/src/MapPlugin.cpp])
    and the message with the action of a signal controller
    ([TmxApi/tmx/messages/IvpSignalControllerStatus.c]), over the encoded messages and the
    coders of [Factory]. The configuration, the file system and the XML and JSON libraries
    are the class [MapWorld]. *)
From Stdlib Require Import Ascii.
From stdpp Require Import pretty.
From S2P Require Import Prelude Text Json IvpMessage OrdMap Factory.
Import Json.
Open Scope Z_scope.

Module Maps.
(** * Data *)
Record MapFile := mkMapFile { Action : Z; FilePath : string; InputType : string; Bytes : string }.
Definition MapFile_new : MapFile := mkMapFile (-1) "" "" "".
Definition set_Bytes (b : string) (f : MapFile) : MapFile := mkMapFile (Action f) (FilePath f) (InputType f) b.

(** The text of a key of the configuration and its value as a number; the files of a text,
    which is no tree or an empty one, or a list whose elements the library may throw at;
    the contents of a file; the message in an XML file, where the library throws, where
    the root is another one, or the message; the clock. *)
Class MapWorld (J W : Type) := {
  config_text : string -> W -> option string;
  lexical_int : string -> option Z;
  map_array : string -> option (list (option MapFile));
  read_file : string -> W -> option string;
  xml_map : string -> W -> option (option J);
  clock_ms : W -> Z
}.

Definition IVPMSG_TYPE_SIGCONT : string := "SIGCONT".
(** The enumerator 0xE0000017, as it is passed to an [int]. *)
Definition mapData_PSID : Z := s32 3758096407.
Definition IVP_ENCODING_BYTEARRAY : string := "bytearray/hexstring".
Definition IvpMsgFlags_RouteDSRC : Z := 1.
Inductive output :=
| map_message (flags psid : Z) (m : Factory.encoded_message)
| map_status (ok : bool)
| event_log (what : string)
| slept_second
| slept_until (t : Z).
(** A call returns, throws an exception or has no defined behaviour. *)
Inductive result (A : Type) := Ret (a : A) | Throw (what : string) | Undefined.
Arguments Ret {A} a.
Arguments Throw {A} what.
Arguments Undefined {A}.

(** * Texts *)
Definition drop_chars (n : nat) (s : string) : string := String.substring n (String.length s - n) s.
Fixpoint remove_newlines (s : string) : string :=
  match s with
  | EmptyString => EmptyString
  | String c s => if Ascii.eqb c "010" then remove_newlines s else String c (remove_newlines s)
  end.
Definition hex_upper (n : Z) : ascii := ascii_of_N (Z.to_N (if n <? 10 then 48 + n else 55 + n)).
(** [%04X] of the number of the MAP message. *)
Definition enum_to_hex_string : string :=
  let n := Factory.get_default_messageId Factory.MapDataMessage in
  String (hex_upper (n / 4096 mod 16)) (String (hex_upper (n / 256 mod 16)) (String (hex_upper (n / 16 mod 16)) (String (hex_upper (n mod 16)) ""))).
Definition removeMessageFrame (fileContent : string) : string :=
  if (4 <=? String.length fileContent)%nat && String.eqb (String.substring 0 4 fileContent) enum_to_hex_string then
    let tempFrame := drop_chars 6 fileContent in
    let headerSize := if (254 <? String.length tempFrame)%nat then 8%nat else 6%nat in
    drop_chars headerSize fileContent
  else fileContent.
(** The last four characters; [substr] throws when there are fewer. *)
Definition extension_of (fn : string) : option string :=
  if (String.length fn <? 4)%nat then None else Some (drop_chars (String.length fn - 4) fn).
Definition is_on (t : string) : bool := iequals t "1" || iequals t "true" || iequals t "t" || iequals t "on".

(** ** The message with the action of a signal controller *)
Definition ivpSigCont_createMsg (now action : Z) : IvpMsg.IvpMessage :=
  IvpMsg.ivpMsg_create now (Some IVPMSG_TYPE_SIGCONT) (Some "ACT") (Some "string") IvpMsg.IvpMsgFlags_None
    (Some (cJSON_CreateString (pretty action))).
Definition ivpSigCont_getIvpSignalControllerAction (m : IvpMsg.IvpMessage) : option Z :=
  p ← IvpMsg.payload m;
  if bool_decide (type p = cJSON_String) then atoi <$> valuestring p else None.

Section plugin.
Context {J W : Type} {MW : MapWorld J W} {AC : Asn1c J}.
(** What a variable of the coder holds that it does not set. *)
Variable junk : Z.

Record Plugin := mkPlugin {
  mapAction : Z;
  isMapFileNew : bool;
  cohdaR63 : bool;
  mapFiles : list (Z * MapFile);
  sendFrequency : Z;
  (** Variables of [Main]. *)
  msg : option Factory.encoded_message;
  activeAction : Z;
  mapFilesOk : bool;
  outputs : list output;
  world : W }.
Definition set_action (a : Z) (s : Plugin) : Plugin :=
  mkPlugin a (isMapFileNew s) (cohdaR63 s) (mapFiles s) (sendFrequency s) (msg s) (activeAction s) (mapFilesOk s) (outputs s) (world s).
Definition set_new (b : bool) (s : Plugin) : Plugin :=
  mkPlugin (mapAction s) b (cohdaR63 s) (mapFiles s) (sendFrequency s) (msg s) (activeAction s) (mapFilesOk s) (outputs s) (world s).
Definition set_cohda (b : bool) (s : Plugin) : Plugin :=
  mkPlugin (mapAction s) (isMapFileNew s) b (mapFiles s) (sendFrequency s) (msg s) (activeAction s) (mapFilesOk s) (outputs s) (world s).
Definition set_files (m : list (Z * MapFile)) (s : Plugin) : Plugin :=
  mkPlugin (mapAction s) (isMapFileNew s) (cohdaR63 s) m (sendFrequency s) (msg s) (activeAction s) (mapFilesOk s) (outputs s) (world s).
Definition set_frequency (f : Z) (s : Plugin) : Plugin :=
  mkPlugin (mapAction s) (isMapFileNew s) (cohdaR63 s) (mapFiles s) f (msg s) (activeAction s) (mapFilesOk s) (outputs s) (world s).
Definition set_msg (m : option Factory.encoded_message) (a : Z) (s : Plugin) : Plugin :=
  mkPlugin (mapAction s) (isMapFileNew s) (cohdaR63 s) (mapFiles s) (sendFrequency s) m a (mapFilesOk s) (outputs s) (world s).
Definition set_ok (b : bool) (s : Plugin) : Plugin :=
  mkPlugin (mapAction s) (isMapFileNew s) (cohdaR63 s) (mapFiles s) (sendFrequency s) (msg s) (activeAction s) b (outputs s) (world s).
Definition emit (o : output) (s : Plugin) : Plugin :=
  mkPlugin (mapAction s) (isMapFileNew s) (cohdaR63 s) (mapFiles s) (sendFrequency s) (msg s) (activeAction s) (mapFilesOk s) (outputs s ++ [o]) (world s).
Definition set_world (w : W) (s : Plugin) : Plugin :=
  mkPlugin (mapAction s) (isMapFileNew s) (cohdaR63 s) (mapFiles s) (sendFrequency s) (msg s) (activeAction s) (mapFilesOk s) (outputs s) w.
Definition plugin_start (w : W) : Plugin := mkPlugin (-1) false false [] 1000 None (-1) false [] w.

(** * Loading *)
(** The payload of the encoded message for a value, as its text. *)
Definition encoded_bytes (j : J) : result string :=
  match Factory.encode_j2735_message junk j (Factory.allocate Factory.MapDataMessage) with
  | Factory.returned m => Ret (Factory.payload m)
  | Factory.thrown => Throw "encode"
  | Factory.undefined => Undefined
  end.
Definition checkMapContent (fn : string) (w : W) : option string := removeMessageFrame <$> (remove_newlines <$> read_file fn w).
(** The bytes of a file; an XML file with another root gives none. *)
Definition file_bytes (fn : string) (w : W) : result string :=
  match extension_of fn with
  | None => Throw "substr"
  | Some ext =>
      if String.eqb ext ".txt" then
        match checkMapContent fn w with
        | None => Throw "open"
        | Some payload =>
            match ByteStream.byte_stream_decode payload with
            | None => Undefined
            | Some bytes =>
                match Factory.uper_decode Factory.MapDataMessage bytes with
                | None => Throw "decode"
                | Some j => encoded_bytes j
                end
            end
        end
      else if String.eqb ext ".xml" then
        match xml_map fn w with
        | None => Throw "xml"
        | Some None => Ret ""
        | Some (Some j) => encoded_bytes j
        end
      else Throw "extension"
  end.
(** Only a file without a type in the configuration is read. *)
Definition load_file (f : MapFile) (w : W) : result MapFile :=
  if negb (String.eqb (Bytes f) "") || negb (String.eqb (InputType f) "") then Ret f
  else match file_bytes (FilePath f) w with
       | Ret b => Ret (set_Bytes b f)
       | Throw _ => Throw ("Unable to convert " +:+ FilePath f)
       | Undefined => Undefined
       end.
(** The files in the order of their actions; those that were loaded before an exception
    keep their bytes. *)
Fixpoint load_files (fs : list (Z * MapFile)) (w : W) : result unit * list (Z * MapFile) :=
  match fs with
  | [] => (Ret tt, [])
  | (a, f) :: fs =>
      match load_file f w with
      | Ret f => let '(r, fs) := load_files fs w in (r, (a, f) :: fs)
      | Throw what => (Throw what, (a, f) :: fs)
      | Undefined => (Undefined, (a, f) :: fs)
      end
  end.
Definition LoadMapFiles (s : Plugin) : result bool * Plugin :=
  match mapFiles s with
  | [] => (Ret false, s)
  | _ =>
      let '(r, fs) := load_files (mapFiles s) (world s) in
      (match r with Ret _ => Ret true | Throw what => Throw what | Undefined => Undefined end, set_files fs s)
  end.

(** * The configuration *)
(** The map that is filled, whether a file was new, and whether the library threw. *)
Fixpoint insert_files (l : list (option MapFile)) (m : list (Z * MapFile)) (isNew : bool) : list (Z * MapFile) * bool * bool :=
  match l with
  | [] => (m, isNew, false)
  | None :: _ => (m, isNew, true)
  | Some f :: l =>
      if Action f <? 0 then insert_files l m isNew
      else insert_files l (OrdMap.insert (Action f) f m) true
  end.
(** The action that is active, when its map was lost or there was none. *)
Definition choose_action (s : Plugin) : Plugin :=
  let s := match OrdMap.find (mapAction s) (mapFiles s) with None => set_action (-1) s | Some _ => s end in
  match mapFiles s with
  | (a, _) :: _ => if mapAction s <? 0 then set_action a s else s
  | [] => s
  end.
Definition UpdateConfigSettings (s : Plugin) : Plugin :=
  let s := set_frequency (default (sendFrequency s) (config_text "Frequency" (world s) ≫= lexical_int)) s in
  match config_text "MAP_Files" (world s) ≫= map_array with
  | None => s
  | Some l =>
      let '(m, isNew, threw) := insert_files l [] (isMapFileNew s) in
      let s := set_new isNew (set_files m s) in
      if threw : bool then s else choose_action s
  end.
(** The base class keeps the state of the registration: it is an argument. *)
Definition OnConfigChanged (registered : bool) (key value : string) (s : Plugin) : Plugin :=
  if registered then
    if negb (String.eqb "Cohda R63" key) then set_cohda (is_on value) s else UpdateConfigSettings s
  else s.
Definition OnStateChange (registered : bool) (s : Plugin) : Plugin := if registered then UpdateConfigSettings s else s.
(** Nothing where a null pointer is read. *)
Definition OnMessageReceived (m : IvpMsg.IvpMessage) (s : Plugin) : option Plugin :=
  t ← IvpMsg.msg_type m;
  if negb (String.eqb t IVPMSG_TYPE_SIGCONT) then Some s
  else
    st ← IvpMsg.subtype m;
    if negb (String.eqb st "ACT") then Some s
    else
      p ← IvpMsg.payload m;
      if negb (bool_decide (type p = cJSON_String)) then Some s
      else
        action ← ivpSigCont_getIvpSignalControllerAction m;
        if action =? mapAction s then Some s
        else match OrdMap.find action (mapFiles s) with
             | None => Some s
             | Some _ => Some (set_new true (set_action action s))
             end.

(** * The main loop *)
(** The first part of a round: the files are loaded when they are new. *)
Definition round_loads (s : Plugin) : option Plugin :=
  let s := set_ok false (set_msg None (-1) s) in
  match LoadMapFiles s with
  | (Ret b, s) => Some (emit (map_status b) (set_ok b s))
  | (Throw what, s) => Some (emit (map_status false) (emit (event_log what) s))
  | (Undefined, _) => None
  end.
(** [_mapFiles[temp]] makes an entry where there is none. *)
Definition file_at (a : Z) (s : Plugin) : MapFile * Plugin :=
  match OrdMap.find a (mapFiles s) with
  | Some f => (f, s)
  | None => (MapFile_new, set_files (OrdMap.insert a MapFile_new (mapFiles s)) s)
  end.
(** The message for an action whose bytes are known. *)
Definition prepare (temp : Z) (s : Plugin) : Plugin :=
  if temp =? activeAction s then s
  else
    let '(f, s) := file_at temp s in
    if String.eqb (Bytes f) "" then s
    else set_msg (Some (Factory.mkEncoded Factory.MapDataMessage Factory.ENCODING_ASN1_UPER_STRING (Bytes f))) temp s.
(** For the other radio the bytes are read and stored again, which changes the encoding of
    the message; they are read from a message that may not be there. *)
Definition send (s : Plugin) : option Plugin :=
  if mapFilesOk s then
    match msg s with
    | Some m =>
        if cohdaR63 s then
          bytes ← Factory.get_data m;
          let m := Factory.mkEncoded (Factory.kind m) IVP_ENCODING_BYTEARRAY (ByteStream.byte_stream_encode bytes) in
          Some (emit (map_message IvpMsgFlags_RouteDSRC mapData_PSID m) (set_msg (Some m) (activeAction s) s))
        else Some (emit (map_message IvpMsgFlags_RouteDSRC mapData_PSID m) s)
    | None => if cohdaR63 s then None else Some s
    end
  else Some s.
Definition round_sends (s : Plugin) : option Plugin :=
  let temp := mapAction s in
  if temp <? 0 then Some (emit slept_second s)
  else
    s ← send (prepare temp s);
    Some (emit (slept_until (clock_ms (world s) + sendFrequency s)) s).

(** ** The plugin in time *)
Inductive event := config_changed (key value : string) | state_changed (registered : bool) | message_received (m : IvpMsg.IvpMessage).
Definition handle (e : event) (s : Plugin) : option Plugin :=
  match e with
  | config_changed key value => Some (OnConfigChanged true key value s)
  | state_changed registered => Some (OnStateChange registered s)
  | message_received m => OnMessageReceived m s
  end.
(** The callbacks run in a thread of their own, also between the parts of a round: after the
    files are loaded, before it is stored that they are no longer new, and after that. [Q]
    says which events there are, [P] how the world may change. *)
Inductive position := at_top | files_loaded | loading_done.
Inductive step (P : W -> Prop) (Q : event -> Prop) : position * Plugin -> position * Plugin -> Prop :=
| step_loads s s' : isMapFileNew s = true -> round_loads s = Some s' -> step P Q (at_top, s) (files_loaded, s')
| step_stores s : step P Q (files_loaded, s) (loading_done, set_new false s)
| step_old s : isMapFileNew s = false -> step P Q (at_top, s) (loading_done, s)
| step_sends s s' : round_sends s = Some s' -> step P Q (loading_done, s) (at_top, s')
| step_event pc e s s' : Q e -> handle e s = Some s' -> step P Q (pc, s) (pc, s')
| step_world pc w s : P w -> step P Q (pc, s) (pc, set_world w s).
(** No new registration, and no change under the key of the other radio. *)
Definition no_reading (e : event) : Prop :=
  match e with
  | config_changed key _ => key <> "Cohda R63"
  | state_changed registered => registered = false
  | message_received _ => True
  end.

(** * Facts *)
(** ** The frame around a map *)
Lemma substring_app s t : String.substring 0 (String.length s) (s +:+ t) = s.
Proof. induction s as [|c s IH]; [by destruct t|]. rewrite string_app_cons. cbn [String.length String.substring]. by rewrite IH. Qed.
Lemma substring_all s : String.substring 0 (String.length s) s = s.
Proof. rewrite <-(string_app_nil s) at 2. by rewrite substring_app. Qed.
Lemma drop_chars_app s t n : n = String.length s -> drop_chars n (s +:+ t) = t.
Proof.
  intros ->. unfold drop_chars. rewrite length_string_app. replace (String.length s + String.length t - String.length s)%nat with (String.length t) by lia.
  induction s as [|c s IH]; [apply substring_all|]. rewrite string_app_cons. exact IH.
Qed.
(** The frame of a message: its number, the length of the contents in one byte below 128
    and in two bytes below 16384, and the contents. *)
Definition length_bytes (l : list Z) : list Z :=
  let n := Z.of_nat (length l) in if n <? 128 then [n] else [128 + n / 256; n mod 256].
Definition frame_text (l : list Z) : string :=
  enum_to_hex_string +:+ ByteStream.byte_stream_encode (length_bytes l) +:+ ByteStream.byte_stream_encode l.
Lemma length_encode l : String.length (ByteStream.byte_stream_encode l) = (2 * length l)%nat.
Proof.
  induction l as [|b l IH]; [done|]. cbn [ByteStream.byte_stream_encode length]. rewrite length_string_app, IH. cbn. lia.
Qed.
Lemma frame_stripped l : Z.of_nat (length l) < 16384 -> removeMessageFrame (frame_text l) = ByteStream.byte_stream_encode l.
Proof.
  intros Hl. unfold removeMessageFrame, frame_text.
  assert (String.length enum_to_hex_string = 4%nat) as H4 by by vm_compute.
  rewrite <-H4 at 1 2. rewrite substring_app, String.eqb_refl, length_string_app, H4. cbn [andb Nat.leb Nat.add].
  unfold length_bytes. destruct (Z.ltb_spec (Z.of_nat (length l)) 128) as [Hs|Hs].
  - assert (drop_chars 6 (enum_to_hex_string +:+ ByteStream.byte_stream_encode [Z.of_nat (length l)] +:+ ByteStream.byte_stream_encode l) =
      ByteStream.byte_stream_encode l) as E.
    { rewrite <-string_app_assoc. apply drop_chars_app. by rewrite length_string_app, length_encode, H4. }
    rewrite E, length_encode, (proj2 (Nat.ltb_ge _ _)) by lia. exact E.
  - assert (String.length (drop_chars 6 (enum_to_hex_string +:+ ByteStream.byte_stream_encode [128 + Z.of_nat (length l) / 256; Z.of_nat (length l) mod 256] +:+
      ByteStream.byte_stream_encode l)) = (2 + 2 * length l)%nat) as ->.
    { unfold drop_chars. rewrite length_substring, !length_string_app, !length_encode, H4. cbn [length]. lia. }
    rewrite (proj2 (Nat.ltb_lt _ _)) by lia. rewrite <-string_app_assoc. apply drop_chars_app. by rewrite length_string_app, length_encode, H4.
Qed.
(** The contents of a MAP message are read back from the text of its frame, for every
    length that a frame holds in one piece. *)
Theorem map_frame_removed l : Forall ByteStream.is_byte l -> Z.of_nat (length l) < 16384 ->
  ByteStream.byte_stream_decode (removeMessageFrame (frame_text l)) = Some l.
Proof. intros Hb Hl. by rewrite frame_stripped, ByteStream.decode_encode. Qed.
(** Contents without a frame that happen to begin like one lose their first bytes. *)
Lemma unframed_cut t : (4 <= String.length t)%nat -> String.substring 0 4 t = enum_to_hex_string ->
  removeMessageFrame t <> t.
Proof.
  intros Hl He. unfold removeMessageFrame. rewrite (proj2 (Nat.leb_le _ _) Hl), He, String.eqb_refl. cbn [andb].
  set (n := if (254 <? _)%nat then 8%nat else 6%nat). assert (6 <= n)%nat as Hn by (unfold n; destruct (_ <? _)%nat; lia). clearbody n.
  intros H. apply (f_equal String.length) in H. unfold drop_chars in H. rewrite length_substring in H. lia.
Qed.

(** ** Loading *)
(** A file that cannot be loaded is not found loaded, and ends the loading. *)
Lemma load_files_bad fs w a f what : OrdMap.find a fs = Some f -> load_file f w = Throw what ->
  fst (load_files fs w) <> Ret tt /\ OrdMap.find a (snd (load_files fs w)) = Some f.
Proof.
  intros Ha Hf. induction fs as [|[a0 f0] fs IH]; [done|]. cbn [load_files OrdMap.find] in *. destruct (OrdMap.keqb a a0) eqn:E.
  - injection Ha as ->. rewrite Hf. cbn. by rewrite E.
  - specialize (IH Ha). destruct (load_file f0 w) as [f'|what'|]; [destruct (load_files fs w) as [r fs']|..]; cbn in *; by rewrite E.
Qed.
(** The names and the types of the files stay. *)
Definition same_file (f f' : MapFile) : Prop := FilePath f' = FilePath f /\ InputType f' = InputType f.
Definition same_files (m m' : list (Z * MapFile)) : Prop :=
  forall n f, OrdMap.find n m = Some f -> exists f', OrdMap.find n m' = Some f' /\ same_file f f'.
Lemma same_files_refl m : same_files m m.
Proof. intros n f Hf. by exists f. Qed.
Lemma same_files_trans m1 m2 m3 : same_files m1 m2 -> same_files m2 m3 -> same_files m1 m3.
Proof.
  intros H1 H2 n f Hf. destruct (H1 n f Hf) as (f2 & Hf2 & Ha & Hb). destruct (H2 n f2 Hf2) as (f3 & Hf3 & Hc & Hd).
  exists f3. unfold same_file. split; [done|]. split; congruence.
Qed.
Lemma load_file_same f w f' : load_file f w = Ret f' -> same_file f f'.
Proof. unfold load_file. case_if; [by intros [= <-]|]. destruct (file_bytes _ _); [by intros [= <-]|done..]. Qed.
Lemma load_files_same fs w : same_files fs (snd (load_files fs w)).
Proof.
  induction fs as [|[a f] fs IH]; cbn [load_files]; [done|]. intros n g. cbn [OrdMap.find].
  destruct (load_file f w) as [f'|what|] eqn:E; [|exists g; split; [done|by split]..].
  destruct (load_files fs w) as [r fs']. cbn [snd OrdMap.find]. destruct (OrdMap.keqb n a); [|apply IH].
  intros [= <-]. exists f'. split; [done|]. by eapply load_file_same.
Qed.
Lemma load_maps_same s : same_files (mapFiles s) (mapFiles (snd (LoadMapFiles s))).
Proof.
  unfold LoadMapFiles. destruct (mapFiles s) as [|p fs] eqn:E; [cbn [snd]; by rewrite E|].
  pose proof (load_files_same (p :: fs) (world s)) as H. destruct (load_files (p :: fs) (world s)) as [r fs']. exact H.
Qed.
Lemma insert_same n f m : OrdMap.find n m = None -> same_files m (OrdMap.insert n f m).
Proof.
  intros Hn k g Hk. exists g. split; [|done]. rewrite OrdMap.find_insert. destruct (OrdMap.keqb k n) eqn:E; [|done].
  apply OrdMap.keqb_spec in E as ->. congruence.
Qed.

(** ** What the parts of a round leave alone *)
Definition settings_same (s s' : Plugin) : Prop := sendFrequency s' = sendFrequency s /\ same_files (mapFiles s) (mapFiles s').
Lemma loads_same s s' : round_loads s = Some s' -> settings_same s s' /\ world s' = world s /\ mapAction s' = mapAction s /\ cohdaR63 s' = cohdaR63 s.
Proof.
  unfold round_loads. pose proof (load_maps_same (set_ok false (set_msg None (-1) s))) as H.
  assert (forall r s1, LoadMapFiles (set_ok false (set_msg None (-1) s)) = (r, s1) ->
    sendFrequency s1 = sendFrequency s /\ world s1 = world s /\ mapAction s1 = mapAction s /\ cohdaR63 s1 = cohdaR63 s) as Hrest.
  { intros r s1. unfold LoadMapFiles. destruct (mapFiles _); [by intros [= <- <-]|]. destruct (load_files _ _) as [r' fs]. by intros [= <- <-]. }
  destruct (LoadMapFiles _) as [[b|what|] s1]; [| |done]; destruct (Hrest _ _ eq_refl) as (H1 & H2 & H3 & H4); intros [= <-];
    (split; [by split|done]).
Qed.
Lemma prepare_same a s : let s' := prepare a s in settings_same s s' /\ world s' = world s /\ mapAction s' = mapAction s /\
  cohdaR63 s' = cohdaR63 s /\ mapFilesOk s' = mapFilesOk s /\ outputs s' = outputs s.
Proof.
  unfold prepare, file_at. case_if; [split; [split; [done|apply same_files_refl]|done]|].
  destruct (OrdMap.find a (mapFiles s)) as [f|] eqn:Ef.
  - case_if; (split; [split; [done|apply same_files_refl]|done]).
  - cbn. split; [split; [done|by apply insert_same]|done].
Qed.
Lemma maps_sent_same s s' : round_sends s = Some s' -> settings_same s s' /\ world s' = world s /\ mapFilesOk s' = mapFilesOk s.
Proof.
  unfold round_sends. case_if; [intros [= <-]; split; [split; [done|apply same_files_refl]|done]|].
  destruct (prepare_same (mapAction s) s) as (H1 & H2 & _ & _ & H3 & _). rewrite bind_Some. intros (s1 & Hs1 & [= <-]).
  assert (sendFrequency s1 = sendFrequency (prepare (mapAction s) s) /\ mapFiles s1 = mapFiles (prepare (mapAction s) s) /\
    world s1 = world (prepare (mapAction s) s) /\ mapFilesOk s1 = mapFilesOk (prepare (mapAction s) s)) as (E1 & E2 & E3 & E4).
  { revert Hs1. unfold send. generalize (prepare (mapAction s) s). intros q. destruct (mapFilesOk q) eqn:Eq; [|intros [= <-]; done].
    destruct (msg q); [|case_if; [done|by intros [= <-]]]. case_if; [|by intros [= <-]]. rewrite bind_Some. by intros (b & _ & [= <-]). }
  unfold settings_same in *. cbn [sendFrequency mapFiles world mapFilesOk emit]. rewrite E1, E2, E3, E4. done.
Qed.
Lemma message_effect m s s' : OnMessageReceived m s = Some s' ->
  s' = s \/ exists a f, OrdMap.find a (mapFiles s) = Some f /\ s' = set_new true (set_action a s).
Proof.
  unfold OnMessageReceived. rewrite bind_Some. intros (t & _ & H). case_match; [injection H as <-; by left|].
  apply bind_Some in H as (st & _ & H). case_match; [injection H as <-; by left|].
  apply bind_Some in H as (p & _ & H). case_match; [injection H as <-; by left|].
  apply bind_Some in H as (a & _ & H). case_match; [injection H as <-; by left|].
  destruct (OrdMap.find a (mapFiles s)) as [f|] eqn:E; injection H as <-; [|by left]. right. by exists a, f.
Qed.
Lemma message_same m s s' : OnMessageReceived m s = Some s' ->
  mapFiles s' = mapFiles s /\ sendFrequency s' = sendFrequency s /\ world s' = world s /\ mapFilesOk s' = mapFilesOk s /\ outputs s' = outputs s.
Proof. intros [->|(a & f & _ & ->)]%message_effect; done. Qed.
Lemma handle_same e s s' : no_reading e -> handle e s = Some s' ->
  mapFiles s' = mapFiles s /\ sendFrequency s' = sendFrequency s /\ world s' = world s /\ mapFilesOk s' = mapFilesOk s /\ outputs s' = outputs s.
Proof.
  intros Hq. destruct e as [key v|r|m]; cbn [handle no_reading] in *.
  - unfold OnConfigChanged. rewrite (proj2 (String.eqb_neq _ _)) by done. by intros [= <-].
  - subst r. by intros [= <-].
  - apply message_same.
Qed.
(** While the plugin runs, a change of the configuration does not reach it, under
    whatever key except that of the other radio: the period of the broadcasts and the files
    stay what they were at the registration. *)
Theorem configuration_ignored P pc s pc' s' : rtc (step P no_reading) (pc, s) (pc', s') ->
  sendFrequency s' = sendFrequency s /\
  forall n f, OrdMap.find n (mapFiles s) = Some f ->
    exists f', OrdMap.find n (mapFiles s') = Some f' /\ FilePath f' = FilePath f /\ InputType f' = InputType f.
Proof.
  intros H. change (settings_same (pc, s).2 (pc', s').2). induction H as [st|st1 st2 st3 H12 _ IH].
  { split; [done|apply same_files_refl]. }
  assert (settings_same st1.2 st2.2) as [Hf Hm].
  { destruct H12 as [q q' _ Hq|q|q _|q q' Hq|c e q q' He Hq|c w q _]; cbn [snd]; try (split; [done|apply same_files_refl]).
    - by apply loads_same.
    - by apply maps_sent_same.
    - destruct (handle_same _ _ _ He Hq) as (E1 & E2 & _). unfold settings_same. rewrite E1, E2. split; [done|apply same_files_refl]. }
  destruct IH as [Hf' Hm']. split; [congruence|by eapply same_files_trans].
Qed.

(** ** A file that cannot be loaded *)
Definition sent (os : list output) : list Factory.encoded_message :=
  omap (fun o => match o with map_message _ _ m => Some m | _ => None end) os.
Lemma sent_app os os' : sent (os ++ os') = sent os ++ sent os'.
Proof. apply omap_app. Qed.
(** The file [fn] is configured for an action, and has no bytes. *)
Definition unloaded (a : Z) (fn : string) (s : Plugin) : Prop :=
  exists f, OrdMap.find a (mapFiles s) = Some f /\ FilePath f = fn /\ InputType f = "" /\ Bytes f = "".
Definition unreadable (fn : string) (w : W) : Prop := exists what, file_bytes fn w = Throw what.
Lemma unreadable_throws f fn w : FilePath f = fn -> InputType f = "" -> Bytes f = "" -> unreadable fn w -> exists what, load_file f w = Throw what.
Proof. intros <- Ht Hb [what Hw]. unfold load_file. rewrite Hb, Ht. cbn. rewrite Hw. eauto. Qed.
Lemma insert_keeps (n a : Z) (f g : MapFile) m : OrdMap.find n m = None -> OrdMap.find a m = Some g -> OrdMap.find a (OrdMap.insert n f m) = Some g.
Proof.
  intros Hn Ha. rewrite OrdMap.find_insert. destruct (OrdMap.keqb a n) eqn:E; [|done]. apply OrdMap.keqb_spec in E as ->. congruence.
Qed.
(** The state while nothing can be sent. *)
Definition stuck (a : Z) (fn : string) (s0 s : Plugin) : Prop :=
  unloaded a fn s /\ mapFilesOk s = false /\ unreadable fn (world s) /\ sent (outputs s) = sent (outputs s0).
Lemma stuck_loads a fn s0 s s' : stuck a fn s0 s -> round_loads s = Some s' -> stuck a fn s0 s'.
Proof.
  intros ((f & Hf & Hfn & Ht & Hb) & _ & Hu & Ho). destruct (unreadable_throws f fn (world s) Hfn Ht Hb Hu) as [what Hw].
  unfold round_loads, LoadMapFiles. change (mapFiles (set_ok false (set_msg None (-1) s))) with (mapFiles s).
  change (world (set_ok false (set_msg None (-1) s))) with (world s).
  destruct (load_files_bad (mapFiles s) (world s) a f what Hf Hw) as [Hr Hfind].
  destruct (mapFiles s) as [|p fs] eqn:Em; [done|]. destruct (load_files (p :: fs) (world s)) as [[[]|what'|] fs']; cbn [fst snd] in *; [done| |done].
  intros [= <-]. split; [by exists f|]. split; [done|]. split; [done|]. cbn [outputs emit set_ok set_files set_msg].
  rewrite !sent_app. cbn. by rewrite !app_nil_r.
Qed.
Lemma stuck_sends a fn s0 s s' : stuck a fn s0 s -> round_sends s = Some s' -> stuck a fn s0 s'.
Proof.
  intros ((f & Hf & Hfn & Ht & Hb) & Hok & Hu & Ho). unfold round_sends. case_if.
  { intros [= <-]. split; [by exists f|]. split; [done|]. split; [done|]. cbn [outputs emit]. rewrite sent_app. cbn. by rewrite app_nil_r. }
  destruct (prepare_same (mapAction s) s) as (_ & Hw & _ & _ & Hok' & Ho').
  assert (OrdMap.find a (mapFiles (prepare (mapAction s) s)) = Some f) as Hf'.
  { unfold prepare, file_at. case_if; [done|]. destruct (OrdMap.find (mapAction s) (mapFiles s)) eqn:Em; [by case_if|]. cbn. by apply insert_keeps. }
  unfold send. rewrite Hok', Hok. cbn [mbind option_bind]. intros [= <-]. split; [by exists f|]. split; [cbn; congruence|].
  split; [cbn; by rewrite Hw|]. cbn [outputs emit]. rewrite sent_app, Ho'. cbn. by rewrite app_nil_r.
Qed.
(** One file of the configuration that cannot be read or converted keeps every map from
    being sent, those of the other actions included, whatever actions the signal controller
    announces, as long as the file stays that way and the plugin is not registered anew. *)
Theorem bad_file_silences P a fn s pc s' : unloaded a fn s -> mapFilesOk s = false ->
  (forall w, P w -> unreadable fn w) -> unreadable fn (world s) ->
  rtc (step P no_reading) (at_top, s) (pc, s') -> sent (outputs s') = sent (outputs s).
Proof.
  intros Hf Hok HP Hu H. assert (stuck a fn s (at_top, s).2) as Hs by (split; [done|by split]).
  change (sent (outputs (pc, s').2) = sent (outputs s)). revert Hs. generalize s at 1 3. intros s0 Hs.
  induction H as [st|st1 st2 st3 H12 _ IH]; [by destruct Hs as (_ & _ & _ & ?)|]. apply IH. clear IH.
  destruct H12 as [q q' _ Hq|q|q _|q q' Hq|c e q q' He Hq|c w q Hw]; cbn [snd] in *; try done.
  - by eapply stuck_loads.
  - by eapply stuck_sends.
  - destruct (handle_same _ _ _ He Hq) as (E1 & E2 & E3 & E4 & E5). destruct Hs as (H1 & H2 & H3 & H4).
    unfold stuck, unloaded. rewrite E1, E3, E4, E5. done.
  - destruct Hs as (H1 & H2 & H3 & H4). split; [done|]. split; [done|]. split; [by apply HP|done].
Qed.

(** ** From the file to the radio *)
(** A text file with the frame of a map, in lines of any length. *)
Definition holds_map (w : W) (f : MapFile) (l : list Z) (j : J) : Prop :=
  Bytes f = "" /\ InputType f = "" /\ extension_of (FilePath f) = Some ".txt" /\
  (exists text, read_file (FilePath f) w = Some text /\ remove_newlines text = frame_text l) /\
  Forall ByteStream.is_byte l /\ Z.of_nat (length l) < 16384 /\ Factory.uper_decode Factory.MapDataMessage l = Some j.
Lemma holds_map_loads w f l j m : holds_map w f l j -> Factory.encoded_new junk Factory.MapDataMessage j = Factory.returned m ->
  load_file f w = Ret (set_Bytes (Factory.payload m) f).
Proof.
  intros (Hb & Ht & He & (text & Hr & Hn) & Hl & Hlen & Hj) Hm. unfold load_file. rewrite Hb, Ht. cbn [String.eqb negb orb].
  unfold file_bytes. rewrite He, String.eqb_refl. unfold checkMapContent. rewrite Hr. cbn [fmap option_fmap option_map]. rewrite Hn, frame_stripped by done.
  rewrite ByteStream.decode_encode by done. rewrite Hj. unfold encoded_bytes. unfold Factory.encoded_new in Hm. by rewrite Hm.
Qed.
(** The map of an action among the files of [fs], which stay what they are in the worlds [P]
    allows: the message for what its file holds. *)
Definition map_of (P : W -> Prop) (fs : list (Z * MapFile)) (a : Z) (m : Factory.encoded_message) : Prop :=
  exists f l j, (a, f) ∈ fs /\ (forall w, P w -> holds_map w f l j) /\ Factory.encoded_new junk Factory.MapDataMessage j = Factory.returned m.
Definition quiet_event (e : event) : Prop :=
  match e with
  | config_changed key value => key <> "Cohda R63" /\ is_on value = false
  | state_changed registered => registered = false
  | message_received _ => True
  end.
Section broadcast.
Variable P : W -> Prop.
Variable fs : list (Z * MapFile).
Hypothesis junk_harmless : junk <= 0 \/ 17 < junk.
Notation image := (map_of P fs).
Lemma image_shape a m : image a m -> Factory.payload m <> "" /\
  Factory.mkEncoded Factory.MapDataMessage Factory.ENCODING_ASN1_UPER_STRING (Factory.payload m) = m.
Proof.
  intros (f & l & j & _ & _ & Hm). destruct (Factory.encoded_shape junk _ j m Hm junk_harmless) as (c & rest & _ & -> & _). done.
Qed.
(** A file that has its bytes, or gets them when it is loaded. *)
Definition has_map (n : Z) (g : MapFile) : Prop := exists m, image n m /\ Bytes g = Factory.payload m.
Definition good_file (e : Z * MapFile) : Prop := 0 <= e.1 /\ exists m, image e.1 m /\
  (Bytes e.2 = Factory.payload m \/ forall w, P w -> load_file e.2 w = Ret (set_Bytes (Factory.payload m) e.2)).
Lemma load_good l w : P w -> Forall good_file l -> exists l', load_files l w = (Ret tt, l') /\
  Forall (fun e => 0 <= e.1 /\ has_map e.1 e.2) l' /\ forall a, is_Some (OrdMap.find a l) -> is_Some (OrdMap.find a l').
Proof.
  intros Hw. induction 1 as [|[a f] l (H0 & m & Hm & Hf) _ (l' & Hl & Hg & Hs)]; [by exists []|]. cbn [load_files fst snd] in *.
  assert (exists f', load_file f w = Ret f' /\ has_map a f') as (f' & -> & Hf').
  { destruct Hf as [Hf|Hf]; [|eexists; split; [by apply Hf|by exists m]]. exists f. split; [|by exists m]. unfold load_file.
    destruct (image_shape a m Hm) as [Hp _]. rewrite Hf, (proj2 (String.eqb_neq _ _)) by done. done. }
  rewrite Hl. exists ((a, f') :: l'). split; [done|]. split; [by constructor|]. intros b. cbn [OrdMap.find].
  destruct (OrdMap.keqb b a); [intros; by eexists|apply Hs].
Qed.
Lemma has_good l : Forall (fun e => 0 <= e.1 /\ has_map e.1 e.2) l -> Forall good_file l.
Proof. intros H. eapply Forall_impl; [exact H|]. intros e [H0 (m & Hm & Hb)]. split; [done|]. exists m. auto. Qed.

Record playing (pc : position) (s : Plugin) : Prop := {
  playing_world : P (world s);
  playing_radio : cohdaR63 s = false;
  playing_files : Forall good_file (mapFiles s);
  playing_action : is_Some (OrdMap.find (mapAction s) (mapFiles s));
  playing_msg : match msg s with Some m => image (activeAction s) m | None => activeAction s = -1 end;
  playing_loaded : if mapFilesOk s then Forall (fun e => 0 <= e.1 /\ has_map e.1 e.2) (mapFiles s) else pc = at_top /\ isMapFileNew s = true }.
Lemma playing_loads s : playing at_top s -> exists s', round_loads s = Some s' /\ playing files_loaded s' /\ sent (outputs s') = sent (outputs s).
Proof.
  intros [Hw Hc Hf Ha Hm Hl]. destruct (load_good (mapFiles s) (world s) Hw Hf) as (fs' & Hload & Hg & Hs).
  assert (round_loads s = Some (emit (map_status true) (set_ok true (set_files fs' (set_ok false (set_msg None (-1) s)))))) as ->.
  { unfold round_loads, LoadMapFiles. change (mapFiles (set_ok false (set_msg None (-1) s))) with (mapFiles s).
    change (world (set_ok false (set_msg None (-1) s))) with (world s). destruct (mapFiles s); [by destruct Ha|]. by rewrite Hload. }
  eexists. split; [done|]. split; [|cbn [outputs emit set_ok set_files set_msg]; by rewrite sent_app, app_nil_r].
  split; cbn; try done; [by apply has_good|by apply Hs].
Qed.
Lemma playing_sends s : playing loading_done s -> exists m s', image (mapAction s) m /\ round_sends s = Some s' /\
  playing at_top s' /\ sent (outputs s') = sent (outputs s) ++ [m].
Proof.
  intros [Hw Hc Hf [f Ha] Hm Hl]. destruct (mapFilesOk s) eqn:Hok; [|by destruct Hl].
  pose proof (OrdMap.find_In _ _ _ Ha) as Hin. rewrite Forall_forall in Hl.
  destruct (Hl _ Hin) as (H0 & m & Him & Hb). cbn [fst snd] in *.
  destruct (image_shape _ _ Him) as [Hp He]. unfold round_sends. rewrite (proj2 (Z.ltb_ge _ _)) by done.
  assert (exists m' q, prepare (mapAction s) s = q /\ image (mapAction s) m' /\ msg q = Some m' /\ activeAction q = mapAction s /\
    mapFiles q = mapFiles s /\ mapFilesOk q = true /\ cohdaR63 q = false /\ world q = world s /\ mapAction q = mapAction s /\ outputs q = outputs s)
    as (m' & q & -> & Him' & Eq1 & Eq2 & Eq3 & Eq4 & Eq5 & Eq6 & Eq7 & Eq8).
  { unfold prepare. destruct (Z.eqb_spec (mapAction s) (activeAction s)) as [E|E].
    - destruct (msg s) as [m'|] eqn:Em; [|lia]. exists m', s. rewrite E. split_all; done.
    - unfold file_at. rewrite Ha, (proj2 (String.eqb_neq _ _)) by (by rewrite Hb). rewrite Hb, He. exists m. by eexists. }
  unfold send. rewrite Eq4, Eq1, Eq5. cbn [mbind option_bind]. exists m'. eexists. split; [done|]. split; [done|]. split.
  - split; cbn; rewrite ?Eq1, ?Eq2, ?Eq3, ?Eq4, ?Eq5, ?Eq6, ?Eq7; try done. by apply Forall_forall.
  - cbn [outputs emit]. rewrite Eq8, !sent_app. cbn. by rewrite app_nil_r.
Qed.
Lemma playing_event pc e s s' : quiet_event e -> handle e s = Some s' -> playing pc s -> playing pc s'.
Proof.
  intros Hq H [Hw Hc Hf Ha Hm Hl]. destruct e as [key v|r|m]; cbn [handle quiet_event] in *.
  - destruct Hq as [Hk Hv]. unfold OnConfigChanged in H. rewrite (proj2 (String.eqb_neq _ _)) in H by done. injection H as <-. cbn [negb].
    by split.
  - subst r. injection H as <-. by split.
  - apply message_effect in H as [->|(a & f & E & ->)]; [by split|]. split; cbn; try done.
    destruct (mapFilesOk s); [done|]. by destruct Hl.
Qed.
Lemma playing_step pc s pc' s' : step P quiet_event (pc, s) (pc', s') -> playing pc s -> playing pc' s'.
Proof.
  intros H Hp. inversion H as [q q' Hn Hq|q|q Hn|q q' Hq|pc0 e q q' He Hq|pc0 w q Hw]; subst.
  - destruct (playing_loads _ Hp) as (s2 & E & H2 & _). rewrite Hq in E. by injection E as <-.
  - destruct Hp as [? ? ? ? ? Hl]. split; try done. cbn. destruct (mapFilesOk s); [done|]. by destruct Hl.
  - destruct Hp as [? ? ? ? ? Hl]. split; try done. destruct (mapFilesOk s'); [done|]. destruct Hl as [_ Hl]. by rewrite Hl in Hn.
  - destruct (playing_sends _ Hp) as (m & s2 & _ & E & H2 & _). rewrite Hq in E. by injection E as <-.
  - by eapply playing_event.
  - destruct Hp as [? ? ? ? ? Hl]. by split.
Qed.
Lemma playing_steps x y : rtc (step P quiet_event) x y -> playing (fst x) (snd x) -> playing (fst y) (snd y).
Proof. induction 1 as [|[pc s] [pc' s'] z H _ IH]; [done|]. intros Hp. apply IH. by eapply playing_step. Qed.
End broadcast.
(** C28: The files hold maps in text, with the frame around them and in lines of any
    length, and go on to hold them; the uninitialised variable of the coder does no harm.
    Then, whatever actions the signal controller announces between and within the rounds, a
    round that comes to sending sends one message, the map in the file of the action that
    is active then, and a receiver decodes it to the value in the file; loading the files
    anew never fails. What is excluded is a new registration, a change under the key of
    the other radio, which reads the configuration again, and a change under any other key
    to a value that means yes, which turns the other radio on. *)
Theorem map_sent (P : W -> Prop) junk' s pc s' : isMapFileNew s = true -> cohdaR63 s = false -> mapFilesOk s = false -> msg s = None ->
  activeAction s = -1 -> is_Some (OrdMap.find (mapAction s) (mapFiles s)) -> P (world s) -> junk <= 0 \/ 17 < junk ->
  (forall n g, (n, g) ∈ mapFiles s -> 0 <= n /\ exists l j m, (forall w, P w -> holds_map w g l j) /\
     Factory.encoded_new junk Factory.MapDataMessage j = Factory.returned m) ->
  rtc (step P quiet_event) (at_top, s) (pc, s') ->
  match pc with
  | loading_done => exists f l j m s2, (mapAction s', f) ∈ mapFiles s /\ holds_map (world s') f l j /\
      Factory.encoded_new junk Factory.MapDataMessage j = Factory.returned m /\
      round_sends s' = Some s2 /\ sent (outputs s2) = sent (outputs s') ++ [m] /\
      Factory.decode_j2735_message junk' m = Factory.returned (Some j)
  | at_top => isMapFileNew s' = true -> exists s2, round_loads s' = Some s2 /\ mapFilesOk s2 = true /\ sent (outputs s2) = sent (outputs s')
  | files_loaded => mapFilesOk s' = true
  end.
Proof.
  intros Hn Hc Hok Hm He Ha Hw Hj Hf Hr.
  assert (playing P (mapFiles s) (fst (at_top, s)) (snd (at_top, s))) as Hp.
  { split; cbn [fst snd]; rewrite ?Hm, ?Hok; try done. apply Forall_forall. intros [n g] Hin. destruct (Hf n g Hin) as (H0 & l & j & m & Hh & Henc).
    split; [done|]. exists m. split; [by exists g, l, j|]. right. intros w Hpw. by apply (holds_map_loads w g l j m); [apply Hh|]. }
  apply (playing_steps P (mapFiles s) Hj _ _ Hr) in Hp. cbn [fst snd] in Hp. destruct pc.
  - intros _. destruct (playing_loads P (mapFiles s) Hj s' Hp) as (s2 & E & H2 & Ho). exists s2. split; [done|]. split; [|done].
    pose proof (playing_loaded _ _ _ _ H2) as Hl. destruct (mapFilesOk s2); [done|]. by destruct Hl.
  - pose proof (playing_loaded _ _ _ _ Hp) as Hl. destruct (mapFilesOk s'); [done|]. by destruct Hl.
  - destruct (playing_sends P (mapFiles s) Hj s' Hp) as (m & s2 & (f & l & j & Hin & Hh & Henc) & E & _ & Ho).
    exists f, l, j, m, s2. destruct (Factory.encode_decode junk junk' _ j m Henc Hj) as (bytes & Hdata & Hnew & Hdec).
    split_all; try done. apply Hh. apply (playing_world _ _ _ _ Hp).
Qed.

(** ** Texts that cannot be read *)
(** An odd number of characters, as with the carriage returns of another system, sends the
    loop that reads the bytes over the end of the text. *)
Lemma odd_text_undefined fn w text : extension_of fn = Some ".txt" -> read_file fn w = Some text ->
  Nat.odd (String.length (removeMessageFrame (remove_newlines text))) = true -> file_bytes fn w = Undefined.
Proof.
  intros He Hr Ho. unfold file_bytes. rewrite He, String.eqb_refl. unfold checkMapContent. rewrite Hr. cbn [fmap option_fmap option_map].
  destruct (ByteStream.byte_stream_decode _) as [b|] eqn:E; [|done].
  assert (Nat.even (String.length (removeMessageFrame (remove_newlines text))) = true) as Hev by (apply ByteStream.decode_defined; by eexists).
  unfold Nat.odd in Ho. by rewrite Hev in Ho.
Qed.
(** ** A type in the configuration *)
(** A file with a type in the configuration is not read; it counts as loaded. *)
Lemma typed_file_not_read f w : InputType f <> "" -> load_file f w = Ret f.
Proof. intros Ht. unfold load_file. rewrite (proj2 (String.eqb_neq (InputType f) "")) by done. by rewrite orb_true_r. Qed.
(** Nothing is sent for an action without bytes; for the other radio a null pointer is
    read. *)
Lemma no_bytes a f s : mapAction s = a -> 0 <= a -> a <> activeAction s -> mapFilesOk s = true -> msg s = None ->
  OrdMap.find a (mapFiles s) = Some f -> Bytes f = "" ->
  round_sends s = if cohdaR63 s then None else Some (emit (slept_until (clock_ms (world s) + sendFrequency s)) s).
Proof.
  intros Ha H0 Hne Hok Hm Hf Hb. unfold round_sends. rewrite Ha, (proj2 (Z.ltb_ge _ _)) by lia. unfold prepare, file_at.
  rewrite (proj2 (Z.eqb_neq _ _)) by done. rewrite Hf, Hb. cbn [String.eqb]. unfold send. rewrite Hok, Hm. by destruct (cohdaR63 s).
Qed.
(** ** The other radio *)
(** Its messages no longer say that they are UPER encoded, and a receiver finds nothing in
    them. *)
Lemma other_radio_undecodable junk' k p : is_Some (ByteStream.byte_stream_decode p) ->
  Factory.decode_j2735_message (J := J) junk' (Factory.mkEncoded k IVP_ENCODING_BYTEARRAY p) = Factory.returned None.
Proof.
  intros [b Hb]. unfold Factory.decode_j2735_message, Factory.get_msgId, Factory.get_data. cbn [Factory.payload]. rewrite Hb. done.
Qed.
(** Any key with a value that means yes, such as a period of one millisecond, turns it on,
    and its own key does not. *)
Lemma other_radio_keys key value s :
  cohdaR63 (OnConfigChanged true key value s) = if String.eqb "Cohda R63" key then cohdaR63 s else is_on value.
Proof.
  unfold OnConfigChanged. destruct (String.eqb "Cohda R63" key); cbn [negb]; [|done]. unfold UpdateConfigSettings.
  destruct (config_text "MAP_Files" _ ≫= map_array) as [l|]; [|done]. destruct (insert_files l _ _) as [[m n] [|]]; [done|].
  unfold choose_action. destruct (OrdMap.find _ _); (destruct (mapFiles _) as [|[? ?] ?]; [done|by case_if]).
Qed.

(** ** The active action *)
(** A configuration that the library can read leaves an active action that has a map, or
    none when there is no map. *)
Lemma update_active s text l : config_text "MAP_Files" (world s) = Some text -> map_array text = Some l -> Forall is_Some l ->
  let s' := UpdateConfigSettings s in mapAction s' = -1 \/ is_Some (OrdMap.find (mapAction s') (mapFiles s')).
Proof.
  intros Ht Hl Hall. cbn zeta. unfold UpdateConfigSettings. cbn [world set_frequency]. rewrite Ht. cbn [mbind option_bind]. rewrite Hl.
  assert (forall m n, snd (insert_files l m n) = false) as Hthrew.
  { clear Hl. induction l as [|[f|] l IH]; intros m n; [done| |by apply Forall_inv in Hall as []]. apply Forall_inv_tail in Hall. cbn [insert_files].
    case_if; by apply IH. }
  match goal with |- context [insert_files l ?m ?n] => specialize (Hthrew m n); destruct (insert_files l m n) as [[m' n'] threw] end.
  cbn [snd] in Hthrew. subst threw. unfold choose_action. cbn [mapAction mapFiles set_new set_files set_frequency].
  destruct (OrdMap.find (mapAction s) m') eqn:Ef; cbn [mapFiles set_action set_new set_files set_frequency mapAction];
    (destruct m' as [|[a f] m']; [by left|]); case_if; cbn [mapFiles set_action set_new set_files set_frequency mapAction].
  - right. cbn [OrdMap.find]. rewrite OrdMap.keqb_refl. by eexists.
  - right. by eexists.
  - right. cbn [OrdMap.find]. rewrite OrdMap.keqb_refl. by eexists.
  - by left.
Qed.
End plugin.

(** * A world of one's own *)
(** Two files in the configuration; the world says whether the second one exists. *)
#[local] Existing Instance Factory.sample_coder.
Definition demo_text : string := "001203" +:+ String "010" ("0102" +:+ String "010" "ff").
#[local] Instance demo_world : MapWorld (list Z) bool := {|
  config_text key _ := if String.eqb key "MAP_Files" then Some "maps" else if String.eqb key "Frequency" then Some "500" else None;
  lexical_int t := match stoi t with inr v => Some v | inl _ => None end;
  map_array _ := Some [Some (mkMapFile 0 "/maps/0.txt" "" ""); Some (mkMapFile 1 "/maps/1.txt" "" "")];
  read_file fn w := if String.eqb fn "/maps/0.txt" || w then Some demo_text else None;
  xml_map _ _ := None;
  clock_ms _ := 0 |}.
Definition demo_registered (w : bool) : Plugin (W := bool) := UpdateConfigSettings (plugin_start w).
Definition demo_file : MapFile := mkMapFile 0 "/maps/0.txt" "" "".
Definition demo_message : Factory.encoded_message :=
  Factory.mkEncoded Factory.MapDataMessage Factory.ENCODING_ASN1_UPER_STRING "0012120102ff".
Lemma map_frame_removed_witness : removeMessageFrame (frame_text [1; 2; 255]) = "0102ff" /\
  ByteStream.byte_stream_decode (removeMessageFrame (frame_text [1; 2; 255])) = Some [1; 2; 255].
Proof. split; [by vm_compute|]. apply map_frame_removed; [repeat constructor; by unfold ByteStream.is_byte|by vm_compute]. Defined.
(** The files are loaded, and the signal controller announces the other action before it is
    stored that they are no longer new. *)
Definition demo_loaded : Plugin (W := bool) := default (plugin_start true) (round_loads 0 (demo_registered true)).
Definition demo_announced : Plugin (W := bool) := default (plugin_start true) (OnMessageReceived (ivpSigCont_createMsg 7 1) demo_loaded).
Definition demo_ready : Plugin (W := bool) := set_new false demo_announced.
Lemma demo_run : rtc (step 0 (fun w => w = true) quiet_event) (at_top, demo_registered true) (loading_done, demo_ready).
Proof.
  apply (rtc_l _ _ (files_loaded, demo_loaded)); [apply step_loads; vm_compute; reflexivity|].
  apply (rtc_l _ _ (files_loaded, demo_announced)); [by apply (step_event _ _ _ _ (message_received (ivpSigCont_createMsg 7 1)))|].
  eapply rtc_l; [apply step_stores|apply rtc_refl].
Qed.
Lemma map_sent_witness : mapAction demo_ready = 1 /\ exists m j s', round_sends demo_ready = Some s' /\
  sent (outputs s') = [m] /\ Factory.decode_j2735_message 5 m = Factory.returned (Some j).
Proof.
  split; [by vm_compute|].
  destruct (map_sent 0 (fun w => w = true) 5 (demo_registered true) loading_done demo_ready)
    as (f & l & j & m & s2 & _ & _ & _ & Hs & Ho & Hd).
  - by vm_compute.
  - by vm_compute.
  - by vm_compute.
  - by vm_compute.
  - by vm_compute.
  - eexists. by vm_compute.
  - by vm_compute.
  - by left.
  - intros n g Hg. change (mapFiles (demo_registered true)) with [(0, demo_file); (1, mkMapFile 1 "/maps/1.txt" "" "")] in Hg.
    assert (0 <= n /\ (g = demo_file \/ g = mkMapFile 1 "/maps/1.txt" "" "")) as [H0 Hg'].
    { apply elem_of_cons in Hg as [[= -> ->]|Hg]; [by split; [|left]|]. apply elem_of_cons in Hg as [[= -> ->]|Hg]; [by split; [|right]|].
      by apply elem_of_nil in Hg. }
    split; [done|]. exists [1; 2; 255], [1; 2; 255], demo_message. split; [|by vm_compute]. intros w ->.
    destruct Hg' as [-> | ->]; (split; [done|]; split; [done|]; split; [by vm_compute|];
      split; [exists demo_text; by split; vm_compute|]; split; [repeat constructor; by unfold ByteStream.is_byte|]; by split; vm_compute).
  - exact demo_run.
  - exists m, j, s2. by split.
Defined.

Definition after_loading : Plugin (W := bool) := default (demo_registered false) (round_loads 0 (demo_registered false)).
(** The second file is missing; the active action has the first one. *)
Lemma bad_file_silences_witness :
  mapAction (demo_registered false) = 0 /\
  sent (outputs (default after_loading (round_sends (set_new false after_loading)))) = [].
Proof.
  split; [by vm_compute|].
  refine (bad_file_silences 0 (fun w => w = false) 1 "/maps/1.txt" (demo_registered false) at_top _ _ _ _ _ _).
  - exists (mkMapFile 1 "/maps/1.txt" "" ""). by split_all; vm_compute.
  - by vm_compute.
  - intros w ->. by exists "open".
  - by exists "open".
  - apply (rtc_l _ _ (files_loaded, after_loading)); [apply step_loads; vm_compute; reflexivity|].
    apply (rtc_l _ _ (loading_done, set_new false after_loading)); [apply step_stores|].
    eapply rtc_l; [|apply rtc_refl]. apply step_sends. vm_compute. reflexivity.
Defined.
Lemma configuration_ignored_witness :
  sendFrequency (OnConfigChanged true "Frequency" "100" (demo_registered true)) = 500 /\
  forall n f, OrdMap.find n (mapFiles (demo_registered true)) = Some f ->
    exists f', OrdMap.find n (mapFiles (OnConfigChanged true "Frequency" "100" (demo_registered true))) = Some f' /\
      FilePath f' = FilePath f /\ InputType f' = InputType f.
Proof.
  apply (configuration_ignored 0 (fun _ => True) at_top (demo_registered true) at_top).
  eapply rtc_l; [|apply rtc_refl]. by apply (step_event _ _ _ _ (config_changed "Frequency" "100")).
Defined.
End Maps.
