(* ===== verification/Receiver.v ===== *)
(** The plugin that receives messages of a radio
    ([MessageReceiverPlugin/src/MessageReceiverPlugin.cpp]) and the helpers for secured
    messages ([TmxUtils/src/RawSpduUtils.h]), over the factory of [Factory], the work of
    the message manager of [Threads] and the throttle of [Utilities]. The coder of IEEE
    1609.2, the configuration and the sockets are the class [ReceiverWorld]. *)
From Stdlib Require Import Ascii.
From S2P Require Import Prelude Text OrdMap Factory Utilities Threads.
Open Scope Z_scope.

Module Receiver.
(** * Secured messages *)
(** The structure of the coder as far as it is read: the version, and the contents where
    the pointer to it is not null. The buffer of unsecured data may be missing; of signed
    data either of two pointers may be, then the payload, and the message in it. *)
Inductive Ieee1609Dot2Data := mkData (protocolVersion : Z) (content : option Ieee1609Dot2Content)
with Ieee1609Dot2Content :=
| unsecuredData (buf : option (list Z))
| signedData (tbsData : option ToBeSigned)
| other_content
with ToBeSigned := mkTbs (psid : Z) (payload : option (option Ieee1609Dot2Data)).

Definition MAX_SPDU_DEPTH : Z := 20.
(** What the call leaves in its results: the payload, the number of the service, whether it
    is set. *)
Record unwrapped := mkUnwrapped { payloadOut : list Z; psidOut : Z; psidSet : bool }.
Fixpoint unwrapSpdu (d : Ieee1609Dot2Data) (r : unwrapped) (depth : Z) (psidOnly : bool) : bool * unwrapped :=
  let '(mkData version content) := d in
  if MAX_SPDU_DEPTH <? depth then (false, r)
  else if negb (version =? 3) then (false, r)
  else match content with
       | None => (false, r)
       | Some (unsecuredData (Some (b :: buf))) => (true, mkUnwrapped (b :: buf) (psidOut r) (psidSet r))
       | Some (unsecuredData _) => (false, r)
       | Some (signedData None) => (false, r)
       | Some (signedData (Some (mkTbs psid payload))) =>
           let wasSet := psidSet r in
           let r := if wasSet then r else mkUnwrapped (payloadOut r) (u32 psid) true in
           if negb wasSet && psidOnly then (true, r)
           else match payload with
                | Some (Some next) => unwrapSpdu next r (depth + 1) false
                | _ => (false, r)
                end
       | Some other_content => (false, r)
       end.
(** A null pointer is no message. *)
Definition unwrap_pointer (d : option Ieee1609Dot2Data) (r : unwrapped) : bool * unwrapped :=
  match d with Some d => unwrapSpdu d r 0 false | None => (false, r) end.

(** ** The number of the service of a message *)
Definition None_PSID : Z := 0.
Definition MSGTYPE_PSID_PAIRS : list (string * Z) :=
  [("BSM", 0x20); ("PSM-P", 0x27); ("PSM2", 0x27); ("MAP-P", 0xE0000017); ("SPAT-P", 0x8002); ("TSPaT", 0x8002); ("TLSM", 0x8002);
   ("SDSM", 0x8010); ("MSCM", 0x8011); ("TIM", 0x8003); ("RSA", 0x8003); ("RSM", 0x8003); ("RWM", 0x204099); ("RGA", 0xE0000017);
   ("EVA", 0x8005); ("IC", 0x8002); ("CSR", 0x20); ("CCM", 0x800E); ("SRM", 0xE0000016); ("SSM", 0xE0000015);
   ("SCPR", 0xE0000016); ("SCPS", 0xE0000015); ("PDM", 0x8004); ("PVD", 0x8004); ("PDC", 0x8004); ("PDR", 0x8004);
   ("TAM", 0x800F); ("TUM", 0x800F); ("TUMack", 0x800F); ("RUCCM", 0x800F); ("RUCRM", 0x800F); ("NMEA", 0x8000); ("RTCM", 0x8000)].
Fixpoint lookup_psid (pairs : list (string * Z)) (msgType : string) : Z :=
  match pairs with
  | [] => None_PSID
  | (t, p) :: pairs => if String.eqb msgType t then p else lookup_psid pairs msgType
  end.
Definition assignMsgPSID (msgType : string) : Z := lookup_psid MSGTYPE_PSID_PAIRS msgType.

(** * Messages *)
Definition ENCODING_BYTEARRAY_STRING : string := "bytearray/hexstring".
Definition ENCODING_JSON_STRING : string := "json".
Definition get_encoding (b : Z) : string :=
  if b =? 0 then Factory.ENCODING_ASN1_UPER_STRING
  else if b =? 48 then Factory.ENCODING_ASN1_BER_STRING
  else if b =? 123 then ENCODING_JSON_STRING
  else ENCODING_BYTEARRAY_STRING.
(** A message that is routed: its type and subtype, its encoding, what it carries, its
    flags and its time. *)
Inductive contents := hex_payload (text : string) | string_payload (bytes : list Z) | json_payload (bytes : list Z).
Record routeable_message := mkRouteable {
  r_type : string; r_subtype : string; r_encoding : string; r_contents : contents; r_flags : Z; r_timestamp : Z }.
Definition UNKNOWN_TYPE : string := "Unknown".
Definition UNKNOWN_SUBTYPE : string := "Unknown".
Definition MSGSUBTYPE_J2735_STRING : string := "J2735".
Definition IvpMsgFlags_None : Z := 0.
Definition IvpMsgFlags_RouteDSRC : Z := 1.
Definition IsJ2735Message (m : routeable_message) : bool := String.eqb (r_type m) MSGSUBTYPE_J2735_STRING.
Definition of_encoded (m : Factory.encoded_message) : routeable_message :=
  mkRouteable MSGSUBTYPE_J2735_STRING (Factory.MessageSubType (Factory.kind m)) (Factory.encoding m) (hex_payload (Factory.payload m)) 0 0.
Definition set_flags (f : Z) (m : routeable_message) : routeable_message :=
  mkRouteable (r_type m) (r_subtype m) (r_encoding m) (r_contents m) f (r_timestamp m).

(** The attribute for the number of the service is an [int]. *)
Record RawSpdu := mkSpdu {
  fullByteData : list Z; msgByteData : list Z; uuid : list Z; messageType : string; timestampMs : Z; spdu_psid : Z }.
Inductive output :=
| event_log (what : string)
| set_status (key : string) (num den : Z)
| incoming (bytes : list Z) (encoding : string) (time : Z)
| outgoing_spdu (m : RawSpdu)
| outgoing (m : routeable_message).

(** The decoder of a secured message, the value of a key of the configuration as a flag and
    as a number of 16 or 32 bits, the address of the host, and whether a server can be made. *)
Class ReceiverWorld (W : Type) := {
  oer_decode : list Z -> option Ieee1609Dot2Data;
  config_bool : string -> W -> option bool;
  config_uint16 : string -> W -> option Z;
  config_uint : string -> W -> option Z;
  local_ip : W -> string;
  server_binds : string -> Z -> W -> bool
}.

Record Settings := mkSettings {
  ip : string; port : Z; routeDsrc : bool; verState : Z; url : string; messageid : list string; fullSPDUMode : bool }.
Record Counters := mkCounters {
  totalBytes : Z; totalCount : list (string * Z); processedSPDU : Z; failedSPDU : Z }.

Section plugin.
Context {W J : Type} {RW : ReceiverWorld W} {AC : Asn1c J}.
(** What a variable of the factory holds that it does not set. *)
Variable junk : Z.

(** The server is the address and the port it was made for. *)
Record Plugin := mkPlugin {
  settings : Settings;
  cfgChanged : bool;
  server : option (string * Z);
  counters : Counters;
  errThrottle : Throttle.FrequencyThrottle (K := Z);
  statThrottle : Throttle.FrequencyThrottle (K := Z);
  startTime : Z;
  registered : bool;
  outputs : list output;
  world : W }.
Definition put_settings (c : Settings) (changed : bool) (s : Plugin) : Plugin :=
  mkPlugin c changed (server s) (counters s) (errThrottle s) (statThrottle s) (startTime s) (registered s) (outputs s) (world s).
Definition set_server (v : option (string * Z)) (s : Plugin) : Plugin :=
  mkPlugin (settings s) false v (counters s) (errThrottle s) (statThrottle s) (startTime s) (registered s) (outputs s) (world s).
Definition set_counters (c : Counters) (s : Plugin) : Plugin :=
  mkPlugin (settings s) (cfgChanged s) (server s) c (errThrottle s) (statThrottle s) (startTime s) (registered s) (outputs s) (world s).
Definition set_throttles (e t : Throttle.FrequencyThrottle (K := Z)) (s : Plugin) : Plugin :=
  mkPlugin (settings s) (cfgChanged s) (server s) (counters s) e t (startTime s) (registered s) (outputs s) (world s).
Definition set_world (reg : bool) (w : W) (s : Plugin) : Plugin :=
  mkPlugin (settings s) (cfgChanged s) (server s) (counters s) (errThrottle s) (statThrottle s) (startTime s) reg (outputs s) w.
Definition emit (o : list output) (s : Plugin) : Plugin :=
  mkPlugin (settings s) (cfgChanged s) (server s) (counters s) (errThrottle s) (statThrottle s) (startTime s) (registered s)
    (outputs s ++ o) (world s).

(** * A message that is received *)
Definition message_name (m : routeable_message) : string :=
  if IsJ2735Message m then r_subtype m else r_type m +:+ "/" +:+ r_subtype m.
(** The counting of a worker that no other interrupts; several at once are further down. *)
Definition count_message (name : string) (counts : list (string * Z)) : list (string * Z) :=
  match OrdMap.find name counts with
  | None => OrdMap.insert name 1 counts
  | Some n => OrdMap.insert name (u32 (n + 1)) counts
  end.
Definition set_count (f : list (string * Z) -> list (string * Z)) (c : Counters) : Counters :=
  mkCounters (totalBytes c) (f (totalCount c)) (processedSPDU c) (failedSPDU c).
(** What is given to [OutgoingMessage]. *)
Definition forwarded (c : Settings) (w : W) (m : routeable_message) : list routeable_message :=
  if default true (config_bool (message_name m) w)
  then [set_flags (if routeDsrc c then IvpMsgFlags_RouteDSRC else IvpMsgFlags_None) m] else [].
Definition OnMessageReceived (m : routeable_message) (s : Plugin) : Plugin :=
  let s := set_counters (set_count (count_message (message_name m)) (counters s)) s in
  emit (map outgoing (forwarded (settings s) (world s) m)) s.

(** What a worker of the message manager works with. The message manager asks for an
    answer of the factory; an access out of range counts as none here. *)
#[local] Instance decoder (s : Plugin) : MessageHandler unit routeable_message := {|
  NewMessage bytes := match Factory.NewMessage junk bytes with returned m => of_encoded <$> m | _ => None end;
  bytes_message bytes enc :=
    mkRouteable UNKNOWN_TYPE UNKNOWN_SUBTYPE (default ENCODING_BYTEARRAY_STRING enc) (hex_payload (ByteStream.byte_stream_encode bytes)) 0 0;
  json_message bytes enc := mkRouteable UNKNOWN_TYPE UNKNOWN_SUBTYPE ENCODING_JSON_STRING (json_payload bytes) 0 0;
  string_message bytes enc := mkRouteable UNKNOWN_TYPE UNKNOWN_SUBTYPE enc (string_payload bytes) 0 0;
  ivp_message _ := mkRouteable UNKNOWN_TYPE UNKNOWN_SUBTYPE "" (string_payload []) 0 0;
  set_timestamp t m := mkRouteable (r_type m) (r_subtype m) (r_encoding m) (r_contents m) (r_flags m) t;
  handle_message m := forwarded (settings s) (world s) m |}.

(** * The configuration *)
Definition getmessageid (messageidstr : string) : list string := split_on ","%char messageidstr.
Definition Key_FailedSPDU : string := "Message Failed (SPDU)".
Definition Key_ProcessedSPDU : string := "Message Processed (SPDU)".
(** The texts the names of messages and the address are made from are never set. *)
Definition UpdateConfigSettings (s : Plugin) : Plugin :=
  let c := settings s in
  let w := world s in
  let dsrc := default (routeDsrc c) (config_bool "RouteJ2735" w) in
  let ver := default (verState c) (config_uint "EnableVerification" w) in
  let p := default (port c) (config_uint16 "Port" w) in
  let full := default (fullSPDUMode c) (config_bool "FullSPDUMode" w) in
  let s := emit [set_status Key_FailedSPDU (failedSPDU (counters s)) 1; set_status Key_ProcessedSPDU (processedSPDU (counters s)) 1] s in
  put_settings (mkSettings (local_ip w) p dsrc ver ("" +:+ "verifySig") (getmessageid "") full) true s.
(** The configuration is [w] now. *)
Definition OnConfigChanged (w : W) (s : Plugin) : Plugin :=
  let s := set_world (registered s) w s in
  if registered s then UpdateConfigSettings s else s.
Definition OnStateChange (reg : bool) (s : Plugin) : Plugin :=
  let s := set_world reg (world s) s in
  if reg then UpdateConfigSettings s else s.

(** * A datagram *)
(** The number of the message is read without taking an extension off. *)
Definition getJ2735SubType (payload : list Z) : string :=
  match payload with
  | [] => UNKNOWN_SUBTYPE
  | _ =>
      let id := snd (Factory.GetCodecAndMessageId junk payload) in
      if 0 <=? id then default UNKNOWN_SUBTYPE (Factory.MessageType id) else UNKNOWN_SUBTYPE
  end.
Definition buildRawSpdu (psid : Z) (full msg : list Z) (rxTime : Z) (id : list Z) : RawSpdu :=
  mkSpdu full msg id (getJ2735SubType msg) rxTime (s32 psid).

Definition add_bytes (n : Z) (c : Counters) : Counters :=
  mkCounters (u64 (totalBytes c + n)) (totalCount c) (processedSPDU c) (failedSPDU c).
Definition add_processed (c : Counters) : Counters :=
  mkCounters (totalBytes c) (totalCount c) (u32 (processedSPDU c + 1)) (failedSPDU c).
Definition add_failed (c : Counters) : Counters :=
  mkCounters (totalBytes c) (totalCount c) (processedSPDU c) (u32 (failedSPDU c + 1)).
Definition failed (what : string) (s : Plugin) : Plugin :=
  let s := set_counters (add_failed (counters s)) s in
  emit [event_log what; set_status Key_FailedSPDU (failedSPDU (counters s)) 1] s.
Definition decode_failed : string := "Error decoding SPDU: ".
Definition unwrap_failed : string := "Error unwrapping SPDU".

Definition receive_secured (full : list Z) (time : Z) (id : list Z) (s : Plugin) : Plugin :=
  let decoded := oer_decode (W := W) full in
  let s := match decoded with None => failed decode_failed s | Some _ => s end in
  let '(ok, r) := unwrap_pointer decoded (mkUnwrapped [] 0 false) in
  match ok, payloadOut r with
  | true, b :: msg =>
      let s := emit [incoming (b :: msg) (get_encoding b) time] s in
      let spdu := buildRawSpdu (psidOut r) full (b :: msg) time id in
      let s := set_counters (add_processed (counters s)) s in
      emit [set_status Key_ProcessedSPDU (processedSPDU (counters s)) 1; outgoing_spdu spdu] s
  | _, _ => failed unwrap_failed s
  end.
Definition receive_plain (full : list Z) (time : Z) (s : Plugin) : Plugin :=
  match full with
  | b :: _ => emit [incoming full (get_encoding b) time] s
  | [] => s
  end.

(** What [TimedReceive] comes back with: bytes, nothing in time, or an error. *)
Inductive reception := bytes_received (bytes : list Z) | timed_out | receive_error (errno : Z).
Definition EAGAIN : Z := 11.
Definition ms_of (now : Z) : Z := now / 1000000.
(** A round of [Main]: its time in nanoseconds, what arrives, and the next random number. *)
Record moment := mkMoment { now : Z; arrival : reception; next_uuid : list Z }.
Definition receive_round (m : moment) (s : Plugin) : Plugin :=
  match server s, arrival m with
  | Some _, bytes_received (b :: bytes) =>
      let full := take 4000 (b :: bytes) in
      let s := set_counters (add_bytes (Z.of_nat (length full)) (counters s)) s in
      if fullSPDUMode (settings s) then receive_secured full (ms_of (now m)) (next_uuid m) s
      else receive_plain full (ms_of (now m)) s
  | Some _, receive_error errno =>
      if errno =? EAGAIN then s
      else set_throttles (snd (Throttle.Monitor errno (now m) (errThrottle s))) (statThrottle s) s
  | _, _ => s
  end.

(** The pair of numbers of a status item is a quotient. *)
Definition statistics (ms : Z) (c : Counters) : list output :=
  set_status "Total KBytes Received" (totalBytes c) 1024
  :: flat_map (fun '(name, n) =>
       [set_status ("Avg " +:+ name +:+ " Message Interval (ms)") (if n =? 0 then 0 else ms) (if n =? 0 then 1 else n);
        set_status ("Total " +:+ name +:+ " Messages Received") n 1]) (totalCount c).
Definition report_counts (now : Z) (s : Plugin) : Plugin :=
  let '(due, t) := Throttle.Monitor 1 now (statThrottle s) in
  let s := set_throttles (errThrottle s) t s in
  if due : bool then emit (statistics (ms_of now - startTime s) (counters s)) s else s.

Definition wants_server (s : Plugin) : bool :=
  let c := settings s in
  (0 <? port c) && match server s with
                   | Some (a, p) => negb (String.eqb a (ip c)) || negb (p =? port c)
                   | None => true
                   end.
(** An exception of the server is thrown outside the block that catches. *)
Definition prepare (s : Plugin) : option Plugin :=
  if cfgChanged s then
    if wants_server s then
      if server_binds (ip (settings s)) (port (settings s)) (world s)
      then Some (set_server (Some (ip (settings s), port (settings s))) s) else None
    else Some (set_server (server s) s)
  else Some s.
Definition round (m : moment) (s : Plugin) : option Plugin :=
  s ← prepare s;
  Some (report_counts (now m) (receive_round m s)).
(** No state: the program has ended with the exception. Between the rounds, the workers
    handle messages, here one at a time, and the configuration and the state may change. *)
Inductive happening :=
| in_main (m : moment)
| in_worker (m : routeable_message)
| config_changed (w : W)
| state_changed (reg : bool).
Definition happens (h : happening) (s : Plugin) : option Plugin :=
  match h with
  | in_main m => round m s
  | in_worker m => Some (OnMessageReceived m s)
  | config_changed w => Some (OnConfigChanged w s)
  | state_changed reg => Some (OnStateChange reg s)
  end.
Fixpoint run (hs : list happening) (s : Plugin) : option Plugin :=
  match hs with
  | [] => Some s
  | h :: hs => s ← happens h s; run hs s
  end.
Definition ERROR_WAIT_MS : Z := 120000.
Definition STATUS_WAIT_MS : Z := 2000.
Definition MessageReceiverPlugin (start : Z) (w : W) : Plugin :=
  mkPlugin (mkSettings "" 0 false 0 "" [] false) false None (mkCounters 0 [] 0 0)
    (Throttle.FrequencyThrottle_new ERROR_WAIT_MS) (Throttle.FrequencyThrottle_new STATUS_WAIT_MS) start false [] w.

(** ** Secured messages *)
(** Unsecured data within layers of signed data with these services. *)
Fixpoint wrap (psids : list Z) (bytes : list Z) : Ieee1609Dot2Data :=
  mkData 3 (Some (match psids with
                  | [] => unsecuredData (Some bytes)
                  | p :: psids => signedData (Some (mkTbs p (Some (Some (wrap psids bytes)))))
                  end)).
Definition psid_of (psids : list Z) : Z := match psids with [] => 0 | p :: _ => u32 p end.
Definition is_nil {A} (l : list A) : bool := match l with [] => true | _ => false end.

Lemma unwrap_wrap psids bytes r depth : bytes <> [] ->
  depth + Z.of_nat (length psids) <= MAX_SPDU_DEPTH ->
  unwrapSpdu (wrap psids bytes) r depth false =
  (true, if psidSet r || is_nil psids then mkUnwrapped bytes (psidOut r) (psidSet r) else mkUnwrapped bytes (psid_of psids) true).
Proof.
  intros Hb. revert r depth. induction psids as [|p psids IH]; intros r depth Hd; cbn [wrap unwrapSpdu length] in *;
    rewrite (proj2 (Z.ltb_ge _ _)) by lia; cbn [negb Z.eqb Pos.eqb].
  - destruct bytes; [done|]. by rewrite orb_true_r.
  - rewrite andb_false_r, IH by lia. by destruct (psidSet r) eqn:E; cbn; rewrite ?E.
Qed.

(** What is unwrapped is wrapped, with at most as many layers as are left. *)
Lemma unwrap_shape : forall d r depth r', unwrapSpdu d r depth false = (true, r') -> 
  exists psids, d = wrap psids (payloadOut r') /\ payloadOut r' <> [] /\ depth + Z.of_nat (length psids) <= MAX_SPDU_DEPTH.
Proof.
  fix IH 1. intros [v content] r depth r'. cbn [unwrapSpdu].
  destruct (Z.ltb_spec MAX_SPDU_DEPTH depth); [done|]. destruct (Z.eqb_spec v 3) as [->|]; [|done]. cbn [negb].
  destruct content as [[[[|b buf]|]|[[p [[next|]|]]|]|]|]; try done.
  - intros [= <-]. exists []. cbn. split_and!; [done..|lia].
  - rewrite andb_false_r. intros Hn. apply IH in Hn as (psids & -> & Hne & Hl).
    exists (p :: psids). cbn [wrap length]. split_and!; [done..|lia].
  - by rewrite andb_false_r.
  - by rewrite andb_false_r.
Qed.

Lemma u32_add x y : u32 (u32 x + y) = u32 (x + y).
Proof. unfold wrapu. by rewrite Z.add_mod_idemp_l. Qed.

(** C29: In the mode for secured messages, a datagram is taken exactly if it decodes as a
    message that is not empty within at most 20 layers of signed data: the message goes
    to the workers, and with the whole datagram, the number of the outermost service and
    its label it is sent on and counted once. Any other datagram gives nothing but the
    report: one failure when it decodes, two when it does not. *)
Theorem secured_datagram full time id s :
  let s' := receive_secured full time id s in
  (forall psids b msg, oer_decode (W := W) full = Some (wrap psids (b :: msg)) -> Z.of_nat (length psids) <= MAX_SPDU_DEPTH ->
    outputs s' = outputs s ++ [incoming (b :: msg) (get_encoding b) time;
                               set_status Key_ProcessedSPDU (u32 (processedSPDU (counters s) + 1)) 1;
                               outgoing_spdu (mkSpdu full (b :: msg) id (getJ2735SubType (b :: msg)) time (s32 (psid_of psids)))]
    /\ processedSPDU (counters s') = u32 (processedSPDU (counters s) + 1)
    /\ failedSPDU (counters s') = failedSPDU (counters s))
  /\ ((forall psids b msg, oer_decode (W := W) full = Some (wrap psids (b :: msg)) -> Z.of_nat (length psids) <= MAX_SPDU_DEPTH -> False) ->
    (exists o, outputs s' = outputs s ++ o /\ Forall (fun o => match o with event_log _ | set_status _ _ _ => True | _ => False end) o)
    /\ processedSPDU (counters s') = processedSPDU (counters s)
    /\ failedSPDU (counters s') = u32 (failedSPDU (counters s) + match oer_decode (W := W) full with Some _ => 1 | None => 2 end)).
Proof.
  cbv zeta. unfold receive_secured. split.
  - intros psids b msg -> Hl. cbn [unwrap_pointer]. rewrite unwrap_wrap by (try done; lia). cbn [psidSet orb psidOut].
    destruct psids as [|p psids]; cbn [is_nil payloadOut psidOut psid_of];
      (split_and!; [cbn; by rewrite <-app_assoc|done..]).
  - intros Hno. destruct (oer_decode full) as [d|] eqn:Ed; cbn [unwrap_pointer].
    + destruct (unwrapSpdu d _ 0 false) as [[|] r] eqn:Eu.
      * apply unwrap_shape in Eu as (psids & -> & Hne & Hl). destruct (payloadOut r) as [|b msg] eqn:Ep; [done|].
        exfalso. by apply (Hno psids b msg).
      * split_and!; [|done..]. eexists. split; [done|]. by repeat constructor.
    + split_and!; [|done|].
      * eexists. cbn. rewrite <-app_assoc. split; [done|]. by repeat constructor.
      * cbn. rewrite u32_add. f_equal. lia.
Qed.

(** ** Frames *)
Lemma ext_encoding ext b1 c rest : Factory.extension ext ->
  exists b bytes, ext ++ 0 :: b1 :: c :: rest = b :: bytes /\ Threads.IsByteHexEncoded (Some (get_encoding b)) = true.
Proof. intros []; eexists _, _; (split; [done|by vm_compute]). Qed.
Definition frame_message (k : message_kind) (frame : list Z) (flags time : Z) : routeable_message :=
  mkRouteable MSGSUBTYPE_J2735_STRING (Factory.MessageSubType k) Factory.ENCODING_ASN1_UPER_STRING
    (hex_payload (ByteStream.byte_stream_encode frame)) flags time.
Lemma frame_work s ext k c rest enc time :
  Factory.extension ext -> Forall ByteStream.is_byte (c :: rest) -> Threads.IsByteHexEncoded (Some enc) = true -> 0 < time ->
  Threads.work_outputs (MH := decoder s)
    (Threads.mkIn (0, 0) time (Threads.type_RawBytes (ext ++ 0 :: Factory.get_default_messageId k :: c :: rest) (Some enc)))
  = map (fun m => Threads.mkOut (0, 0) (Some m))
      (forwarded (settings s) (world s) (frame_message k (0 :: Factory.get_default_messageId k :: c :: rest) 0 time))
    ++ [Threads.mkOut (0, 0) None].
Proof.
  intros He Hb Hx Ht. unfold Threads.work_outputs. cbn [Threads.in_message Threads.in_timestamp Threads.in_source].
  unfold Threads.routeable_of. rewrite Hx. cbn [NewMessage decoder].
  pose proof (Factory.id_range k) as Hk.
  rewrite Factory.frame_made by (done || (constructor; [unfold ByteStream.is_byte; lia|done])).
  rewrite (proj2 (Factory.byInt_spec _ k)) by done. cbn [mbind option_bind fmap option_fmap option_map].
  by rewrite (proj2 (Z.ltb_lt _ _)) by done.
Qed.

Definition arrives (d : list Z) (psids : list Z) (frame : list Z) (s : Plugin) : Prop :=
  if fullSPDUMode (settings s) then oer_decode (W := W) d = Some (wrap psids frame) /\ Z.of_nat (length psids) <= MAX_SPDU_DEPTH
  else d = frame.

(** C30: A frame of a message the factory knows, with or without an extension, that arrives in a
    datagram of at most 4000 bytes, as it is or within the layers of a secured message by
    the mode, is given to the workers first of all with an encoding that makes them ask the
    factory; a worker gives out the J2735 message of that kind with the bytes of the
    frame, the time of arrival and the flags of the configuration, or none if forwarding
    is disabled under the label of the kind. *)
Theorem received_frame_forwarded m s d psids ext k c rest a :
  server s = Some a -> arrival m = bytes_received d -> (0 < length d <= 4000)%nat -> 0 < ms_of (now m) ->
  Factory.extension ext -> Forall ByteStream.is_byte (c :: rest) ->
  arrives d psids (ext ++ 0 :: Factory.get_default_messageId k :: c :: rest) s ->
  let s' := receive_round m s in
  let frame := 0 :: Factory.get_default_messageId k :: c :: rest in
  exists enc more,
    outputs s' = outputs s ++ incoming (ext ++ frame) enc (ms_of (now m)) :: more
    /\ Threads.work_outputs (MH := decoder s')
         (Threads.mkIn (0, 0) (ms_of (now m)) (Threads.type_RawBytes (ext ++ frame) (Some enc)))
       = (if default true (config_bool (Factory.MessageSubType k) (world s)) then
            [Threads.mkOut (0, 0) (Some (frame_message k frame (if routeDsrc (settings s) then 1 else 0) (ms_of (now m))))]
          else []) ++ [Threads.mkOut (0, 0) None].
Proof.
  cbv zeta. intros Hs Ha Hl Ht He Hb Har. set (frame := 0 :: Factory.get_default_messageId k :: c :: rest) in *.
  destruct (ext_encoding ext (Factory.get_default_messageId k) c rest He) as (b & bytes & Eb & Hx). fold frame in Eb.
  exists (get_encoding b).
  enough (exists more, outputs (receive_round m s) = outputs s ++ incoming (ext ++ frame) (get_encoding b) (ms_of (now m)) :: more
    /\ settings (receive_round m s) = settings s /\ world (receive_round m s) = world s) as (more & Ho & Hc & Hw).
  { exists more. split; [done|]. unfold frame. rewrite frame_work by done. rewrite Hc, Hw. unfold forwarded.
    change (message_name _) with (Factory.MessageSubType k). by destruct (default true _). }
  unfold receive_round. rewrite Hs, Ha. destruct d as [|b0 d]; [cbn in Hl; lia|]. rewrite (take_ge (b0 :: d)) by lia.
  unfold arrives in Har. cbn [settings set_counters]. destruct (fullSPDUMode (settings s)).
  - destruct Har as [Hd Hn]. unfold receive_secured. rewrite Hd. cbn [unwrap_pointer].
    rewrite unwrap_wrap by (rewrite ?Eb; done || lia). rewrite Eb. cbn [psidSet orb].
    destruct psids; cbn [is_nil payloadOut]; (eexists; split; [cbn; by rewrite <-app_assoc|done]).
  - rewrite Har, Eb. by eexists.
Qed.

(** The label of the message that carries the datagram is not that of the frame when an
    extension is in front of it. *)
Lemma extended_frame_label n rest : getJ2735SubType (3 :: 128 :: n :: rest) = UNKNOWN_SUBTYPE.
Proof. done. Qed.

(** ** The server *)
Lemma receive_server m s : server (report_counts (now m) (receive_round m s)) = server s.
Proof.
  assert (server (receive_round m s) = server s) as <-.
  - unfold receive_round. destruct (server s) eqn:E; [|by rewrite E]. destruct (arrival m) as [[|b d]| |e]; try done.
    + cbn [settings set_counters]. destruct (fullSPDUMode _); [|done]. unfold receive_secured.
      destruct (oer_decode _); destruct (unwrap_pointer _ _) as [[] [[|x y] ? ?]]; done.
    + by destruct (e =? EAGAIN).
  - unfold report_counts. by destruct (Throttle.Monitor _ _ _) as [[] t].
Qed.
(** After a change of the configuration the next round listens at the address of the host
    and the port, or ends the program. *)
Lemma port_followed w m s p : registered s = true -> config_uint16 "Port" w = Some p -> 0 < p ->
  (server_binds (local_ip w) p w = true ->
    exists s', round m (OnConfigChanged w s) = Some s' /\ server s' = Some (local_ip w, p)) /\
  (server_binds (local_ip w) p w = false -> server s <> Some (local_ip w, p) -> round m (OnConfigChanged w s) = None).
Proof.
  intros Hr Hp H0. unfold round, prepare, OnConfigChanged. cbn [registered set_world]. rewrite Hr.
  unfold wants_server. cbn [cfgChanged settings UpdateConfigSettings put_settings server emit set_world world port ip].
  rewrite Hp. change (default ?x (Some p)) with p. rewrite (proj2 (Z.ltb_lt _ _)) by done. cbn [andb].
  destruct (server s) as [[a q]|] eqn:Es.
  - destruct (String.eqb_spec a (local_ip w)) as [->|]; cbn [negb orb]; [destruct (Z.eqb_spec q p) as [->|]; cbn [negb]|].
    + split; [|by intros _ []]. intros _. eexists. split; [done|]. by rewrite receive_server.
    + split; intros ->; [|done]. eexists. split; [done|]. by rewrite receive_server.
    + split; intros ->; [|done]. eexists. split; [done|]. by rewrite receive_server.
  - split; intros ->; [|done]. eexists. split; [done|]. by rewrite receive_server.
Qed.

End plugin.

(** ** Counts *)
Definition occurrences (name : string) (names : list string) : Z :=
  Z.of_nat (length (filter (fun n => n = name) names)).
Lemma occurrences_app name l l' : occurrences name (l ++ l') = occurrences name l + occurrences name l'.
Proof. unfold occurrences. rewrite filter_app, length_app. lia. Qed.
Lemma occurrences_one name n : occurrences name [n] = if String.eqb n name then 1 else 0.
Proof. unfold occurrences. rewrite filter_cons, filter_nil. by destruct (String.eqb_spec n name); case_decide. Qed.

(** *** The workers together *)
(** A worker that counts a message is in [count]; it has found the name or not; it is in the
    operator that gives the entry of a name, for one it has found, or for one it has not,
    which makes an entry with 0 when there is none; and with the entry, which is atomic,
    it adds or stores. *)
Inductive phase := Testing | Found | Missing | Finding | Placing | Adding | Storing.
Record Board := mkBoard {
  counts : list (string * Z); at_work : gmap nat (string * phase); reporting : bool; handled : list string }.
Definition board_new : Board := mkBoard [] ∅ false [].
Definition accessing (p : phase) : bool := match p with Testing | Finding | Placing => true | _ => false end.
(** The map is changed while another thread is in it: nothing is defined from there on. *)
Definition race (x : Board) : bool :=
  existsb (fun '(i, (name, p)) =>
    match p, OrdMap.find name (counts x) with
    | Placing, None => reporting x || existsb (fun '(j, (_, q)) => negb (Nat.eqb i j) && accessing q) (map_to_list (at_work x))
    | _, _ => false
    end) (map_to_list (at_work x)).
Definition put_work (i : nat) (w : string * phase) (x : Board) : Board :=
  mkBoard (counts x) (<[i := w]> (at_work x)) (reporting x) (handled x).
Definition finish (i : nat) (name : string) (c : list (string * Z)) (x : Board) : Board :=
  mkBoard c (delete i (at_work x)) (reporting x) (handled x ++ [name]).
(** The main loop reports now and then. *)
Inductive move : Board -> Board -> Prop :=
| move_begin x i name : at_work x !! i = None -> move x (put_work i (name, Testing) x)
| move_tested x i name : at_work x !! i = Some (name, Testing) ->
    move x (put_work i (name, if OrdMap.find name (counts x) is Some _ then Found else Missing) x)
| move_find x i name : at_work x !! i = Some (name, Found) -> move x (put_work i (name, Finding) x)
| move_place x i name : at_work x !! i = Some (name, Missing) -> move x (put_work i (name, Placing) x)
| move_found x i name : at_work x !! i = Some (name, Finding) -> move x (put_work i (name, Adding) x)
| move_placed x i name : at_work x !! i = Some (name, Placing) ->
    move x (mkBoard (if OrdMap.find name (counts x) is Some _ then counts x else OrdMap.insert name 0 (counts x))
              (<[i := (name, Storing)]> (at_work x)) (reporting x) (handled x))
| move_add x i name v : at_work x !! i = Some (name, Adding) -> OrdMap.find name (counts x) = Some v ->
    move x (finish i name (OrdMap.insert name (u32 (v + 1)) (counts x)) x)
| move_store x i name : at_work x !! i = Some (name, Storing) -> move x (finish i name (OrdMap.insert name 1 (counts x)) x)
| move_report x b : move x (mkBoard (counts x) (at_work x) b (handled x)).
Definition step (x y : Board) : Prop := race x = false /\ move x y.

(** A name without an entry was not handled; an entry is at most the number of messages
    that were. *)
Definition bounded (name : string) (x : Board) : Prop :=
  match OrdMap.find name (counts x) with
  | None => occurrences name (handled x) = 0 /\ forall i p, at_work x !! i = Some (name, p) -> p <> Storing
  | Some v => 0 <= v <= occurrences name (handled x) /\
      (occurrences name (handled x) < 2 ^ 32 -> 0 < occurrences name (handled x) -> 0 < v)
  end.
Lemma occurrences_range name l : 0 <= occurrences name l.
Proof. unfold occurrences. lia. Qed.
Lemma find_insert_ne name name' v (c : list (string * Z)) : name <> name' -> OrdMap.find name' (OrdMap.insert name v c) = OrdMap.find name' c.
Proof. intros H. rewrite OrdMap.find_insert. by rewrite (proj2 (OrdMap.keqb_false name' name)) by (by intros ->). Qed.
Lemma find_insert_eq name v (c : list (string * Z)) : OrdMap.find name (OrdMap.insert name v c) = Some v.
Proof. by rewrite OrdMap.find_insert, OrdMap.keqb_refl. Qed.
(** Work on another place or with another phase leaves the bound. *)
Lemma bounded_work name x i other p : bounded name x -> (other = name -> p = Storing -> OrdMap.find name (counts x) <> None) ->
  bounded name (put_work i (other, p) x).
Proof.
  unfold bounded, put_work. cbn [counts at_work handled]. intros H Hp. destruct (OrdMap.find name (counts x)); [done|].
  destruct H as [Ho Hw]. split; [done|]. intros j q. destruct (decide (j = i)) as [->|]; [rewrite lookup_insert_eq|rewrite lookup_insert_ne by done; apply Hw].
  intros [= -> ->] ->. by apply Hp.
Qed.
Lemma bounded_finish name x i other v : bounded name x ->
  match OrdMap.find other (counts x) with
  | Some u => v = 1 \/ v = u32 (u + 1)
  | None => False
  end -> bounded name (finish i other (OrdMap.insert other v (counts x)) x).
Proof.
  intros H Hv. unfold bounded, finish in *. cbn [counts at_work handled]. rewrite occurrences_app, occurrences_one.
  destruct (String.eqb_spec other name) as [->|Hne].
  - rewrite find_insert_eq. destruct (OrdMap.find name (counts x)) as [u|]; [|done]. destruct H as [H1 H2].
    pose proof (wrapu_range 32 (u + 1)). destruct Hv as [->| ->]; [lia|].
    assert (u32 (u + 1) <= u + 1) by (unfold wrapu; apply Z.mod_le; lia).
    split; [lia|]. intros Hs _. rewrite u32_small; lia.
  - rewrite find_insert_ne by done. rewrite Z.add_0_r. destruct (OrdMap.find name (counts x)); [done|]. destruct H as [Ho Hw].
    split; [done|]. intros j q. destruct (decide (j = i)) as [->|]; [by rewrite lookup_delete_eq|rewrite lookup_delete_ne by done; apply Hw].
Qed.
Lemma bounded_move name x y : move x y -> (forall n, bounded n x) -> bounded name y.
Proof.
  intros H Hb. pose proof (Hb name) as Hn. destruct H as [x i other Hi|x i other Hi|x i other Hi|x i other Hi|x i other Hi|x i other Hi|x i other v Hi Hf|x i other Hi|x b].
  - by apply bounded_work.
  - apply bounded_work; [done|]. by destruct (OrdMap.find other (counts x)).
  - by apply bounded_work.
  - by apply bounded_work.
  - by apply bounded_work.
  - destruct (OrdMap.find other (counts x)) as [v|] eqn:E.
    + apply (bounded_work name x); [done|]. intros -> _. by rewrite E.
    + unfold bounded in *. cbn [counts at_work handled]. destruct (decide (other = name)) as [->|Hne].
      * rewrite find_insert_eq. rewrite E in Hn. destruct Hn as [-> _]. lia.
      * rewrite find_insert_ne by done. destruct (OrdMap.find name (counts x)); [done|]. destruct Hn as [Ho Hw]. split; [done|].
        intros j q. destruct (decide (j = i)) as [->|]; [rewrite lookup_insert_eq; by intros [= -> _]|rewrite lookup_insert_ne by done; apply Hw].
  - apply bounded_finish; [done|]. rewrite Hf. by right.
  - apply bounded_finish; [done|]. destruct (OrdMap.find other (counts x)) eqn:E; [by left|].
    pose proof (Hb other) as Ho. unfold bounded in Ho. rewrite E in Ho. by destruct (proj2 Ho i Storing Hi).
  - exact Hn.
Qed.

(** The first message of a name is handled before another one is begun. *)
Definition first_alone (name : string) (x : Board) : Prop := 0 < occurrences name (handled x) \/
  forall i j p q, at_work x !! i = Some (name, p) -> at_work x !! j = Some (name, q) -> i = j.
Definition may_store (p : phase) : bool := match p with Missing | Placing | Storing => true | _ => false end.
Definition exact (name : string) (x : Board) : Prop :=
  default 0 (OrdMap.find name (counts x)) = u32 (occurrences name (handled x)) /\
  forall i p, at_work x !! i = Some (name, p) -> may_store p = true -> occurrences name (handled x) = 0.
Lemma exact_work name x i other p : exact name x ->
  (other = name -> may_store p = true -> occurrences name (handled x) = 0) -> exact name (put_work i (other, p) x).
Proof.
  intros [He Hw] Hp. split; [done|]. cbn [at_work put_work handled]. intros j q.
  destruct (decide (j = i)) as [->|]; [rewrite lookup_insert_eq; intros [= -> ->]; by apply Hp|rewrite lookup_insert_ne by done; apply Hw].
Qed.
Lemma exact_finish name x i other v p : exact name x -> bounded name x -> first_alone name x -> at_work x !! i = Some (other, p) ->
  (other = name -> v = u32 (occurrences name (handled x) + 1)) ->
  exact name (finish i other (OrdMap.insert other v (counts x)) x).
Proof.
  intros [He Hw] Hb Ha Hi Hv. split; cbn [at_work finish handled counts]; rewrite occurrences_app, occurrences_one;
    destruct (String.eqb_spec other name) as [->|Hne].
  - rewrite find_insert_eq. by rewrite (Hv eq_refl).
  - by rewrite find_insert_ne, Z.add_0_r.
  - intros j q. destruct (decide (j = i)) as [->|Hj]; [by rewrite lookup_delete_eq|rewrite lookup_delete_ne by done]. intros Hq Hm.
    pose proof (Hw j q Hq Hm) as H0. destruct Ha as [Ha|Ha]; [lia|]. by destruct Hj, (Ha i j p q).
  - rewrite Z.add_0_r. intros j q. destruct (decide (j = i)) as [->|Hj]; [by rewrite lookup_delete_eq|rewrite lookup_delete_ne by done; apply Hw].
Qed.
Lemma exact_move name x y : move x y -> first_alone name x -> (forall n, bounded n x) -> exact name x -> exact name y.
Proof.
  intros H Ha Hb Hx. pose proof (Hb name) as Hn. pose proof Hx as [He Hw].
  destruct H as [x i other Hi|x i other Hi|x i other Hi|x i other Hi|x i other Hi|x i other Hi|x i other v Hi Hf|x i other Hi|x b].
  - by apply exact_work.
  - apply exact_work; [done|]. intros ->. unfold bounded in Hn. destruct (OrdMap.find name (counts x)); [done|]. by destruct Hn.
  - by apply exact_work.
  - apply exact_work; [done|]. intros -> _. by apply (Hw i Missing).
  - by apply exact_work.
  - destruct (exact_work name x i other Storing Hx) as [He' Hw']; [intros -> _; by apply (Hw i Placing)|]. split; [|exact Hw'].
    cbn [counts handled]. destruct (OrdMap.find other (counts x)) as [v|] eqn:E; [done|].
    destruct (decide (other = name)) as [->|Hne]; [|by rewrite find_insert_ne]. rewrite find_insert_eq. by rewrite E in He.
  - eapply exact_finish; try done. intros ->. rewrite Hf in He. cbn in He. by rewrite He, u32_add.
  - eapply exact_finish; try done. intros ->. by rewrite (Hw i Storing Hi eq_refl).
  - exact Hx.
Qed.
Lemma moves_bounded x y : rtc step x y -> (forall n, bounded n x) -> forall n, bounded n y.
Proof. induction 1 as [|x y z [_ H] _ IH]; [done|]. intros Hb. apply IH. intros n. by eapply bounded_move. Qed.
Lemma moves_exact name x y : rtc (fun x y => step x y /\ first_alone name x) x y -> (forall n, bounded n x) -> exact name x -> exact name y.
Proof.
  induction 1 as [|x y z [[_ H] Ha] _ IH]; [done|]. intros Hb He. apply IH; [intros n; by eapply bounded_move|by eapply exact_move].
Qed.
Lemma board_bounded n : bounded n board_new.
Proof. split; [done|]. by intros i p. Qed.

(** C31: Several workers count messages at once, in a map without a lock. As long as none
    makes an entry while another thread is in the map, from which on nothing is defined, the
    entry of a name is at most the number of messages of that name that were handled, and
    it is there and not 0 once one was, while they are fewer than 2^32. It may be less:
    when a worker has not found the name, its store of 1 takes back what others have
    counted. It is the number modulo 2^32 when no other message of the name is begun before
    the first is handled. *)
Theorem message_counts name x :
  rtc step board_new x ->
  let n := occurrences name (handled x) in
  0 <= default 0 (OrdMap.find name (counts x)) <= n /\
  (0 < n < 2 ^ 32 -> exists v, OrdMap.find name (counts x) = Some v /\ 0 < v) /\
  (rtc (fun x y => step x y /\ first_alone name x) board_new x -> default 0 (OrdMap.find name (counts x)) = u32 n).
Proof.
  intros H n. pose proof (moves_bounded _ _ H board_bounded name) as Hb. unfold bounded in Hb. subst n.
  pose proof (occurrences_range name (handled x)) as H0. split; [|split].
  - destruct (OrdMap.find name (counts x)); cbn; lia.
  - destruct (OrdMap.find name (counts x)) as [v|]; [intros; exists v; split; [done|lia]|lia].
  - intros Ho. apply (moves_exact name board_new); [done|exact board_bounded|]. split; [done|]. by intros i p.
Qed.
(** With one worker the first is always alone. *)
Lemma one_worker_alone name x : (forall i w, at_work x !! i = Some w -> i = O) -> first_alone name x.
Proof. intros H. right. intros i j p q Hi Hj. by rewrite (H _ _ Hi), (H _ _ Hj). Qed.
(** A worker that is not interrupted does what [count_message] does. *)
Lemma no_race i w c n : race (mkBoard c {[i := w]} false n) = false.
Proof.
  unfold race. cbn [at_work counts reporting]. rewrite map_to_list_singleton. destruct w as [name p]. cbn.
  rewrite Nat.eqb_refl. by destruct p, (OrdMap.find name c).
Qed.
Definition in_order (x y : Board) : Prop := step x y /\ forall name, first_alone name x.
Lemma step_alone i w w' c c' n : move (mkBoard c {[i := w]} false n) (mkBoard c' (<[i := w']> {[i := w]}) false n) ->
  in_order (mkBoard c {[i := w]} false n) (mkBoard c' {[i := w']} false n).
Proof.
  intros H. split; [split; [apply no_race|by rewrite insert_singleton_eq in H]|]. intros name. right. cbn.
  by intros ? ? p q [-> _]%lookup_singleton_Some [-> _]%lookup_singleton_Some.
Qed.
Lemma counted_alone c n (i : nat) name : exists c',
  rtc in_order (mkBoard c ∅ false n) (mkBoard c' ∅ false (n ++ [name])) /\
  forall other, OrdMap.find other c' = OrdMap.find other (count_message name c).
Proof.
  assert (forall c1 c2 w, move (mkBoard c1 {[i := w]} false n) (finish i name c2 (mkBoard c1 {[i := w]} false n)) ->
    in_order (mkBoard c1 {[i := w]} false n) (mkBoard c2 ∅ false (n ++ [name]))) as Hend.
  { intros c1 c2 w H. unfold finish in H. cbn in H. rewrite delete_singleton_eq in H. split; [split; [apply no_race|done]|].
    intros other. right. cbn. by intros ? ? p q [-> _]%lookup_singleton_Some [-> _]%lookup_singleton_Some. }
  assert (in_order (mkBoard c ∅ false n) (mkBoard c {[i := (name, Testing)]} false n)) as H0.
  { split; [split; [by vm_compute|]|intros other; right; by intros]. exact (move_begin (mkBoard c ∅ false n) i name eq_refl). }
  pose proof (step_alone _ _ _ _ _ _ (move_tested (mkBoard c {[i := (name, Testing)]} false n) i name (lookup_singleton_eq _ _))) as H1.
  cbn in H1. unfold count_message. destruct (OrdMap.find name c) as [v|] eqn:E.
  - exists (OrdMap.insert name (u32 (v + 1)) c). split; [|done].
    eapply rtc_l; [exact H0|]. eapply rtc_l; [exact H1|].
    eapply rtc_l; [apply step_alone, move_find, lookup_singleton_eq|]. eapply rtc_l; [apply step_alone, move_found, lookup_singleton_eq|].
    apply rtc_once, (Hend _ _ _), move_add; [apply lookup_singleton_eq|done].
  - exists (OrdMap.insert name 1 (OrdMap.insert name 0 c)). split.
    + eapply rtc_l; [exact H0|]. eapply rtc_l; [exact H1|].
      eapply rtc_l; [apply step_alone, move_place, lookup_singleton_eq|].
      pose proof (step_alone _ _ _ _ _ _ (move_placed (mkBoard c {[i := (name, Placing)]} false n) i name (lookup_singleton_eq _ _))) as H2.
      cbn in H2. rewrite E in H2. eapply rtc_l; [exact H2|].
      apply rtc_once, (Hend _ _ _), move_store, lookup_singleton_eq.
    + intros other. rewrite !OrdMap.find_insert. by destruct (OrdMap.keqb other name).
Qed.

(** * An example *)
(** The configuration is the value of the port, if any, and the labels that are not
    forwarded; a secured message is a byte for every layer, the number of bytes of its
    contents, and those. *)
Record sample_world := mkWorld { port_value : option Z; full_mode : bool; disabled : list string }.
Fixpoint sample_layers (n : nat) (bytes : list Z) : option Ieee1609Dot2Data :=
  match n, bytes with
  | O, b => Some (wrap [] b)
  | S n, p :: b => d ← sample_layers n b; Some (mkData 3 (Some (signedData (Some (mkTbs p (Some (Some d)))))))
  | _, _ => None
  end.
#[local] Instance sample_receiver : ReceiverWorld sample_world := {|
  oer_decode b := match b with n :: b => sample_layers (Z.to_nat n) b | [] => None end;
  config_bool key w :=
    if String.eqb key "FullSPDUMode" then Some (full_mode w)
    else if String.eqb key "RouteJ2735" then Some true
    else if bool_decide (key ∈ disabled w) then Some false else None;
  config_uint16 key w := port_value w;
  config_uint key w := None;
  local_ip w := "127.0.0.1";
  server_binds a p w := negb (p =? 80)
|}.
#[local] Existing Instance Factory.sample_coder.
Definition sample_plugin (full : bool) : Plugin :=
  OnStateChange true (MessageReceiverPlugin 0 (mkWorld (Some 26789) full ["SSM"])).
Definition sample_frame : list Z := [0; 19; 4; 1; 2; 3].
Definition sample_datagram : list Z := [2; 32; 39] ++ [3; 128; 70] ++ sample_frame.
Definition ready (full : bool) : Plugin := default (sample_plugin full) (prepare (sample_plugin full)).
Definition sample_moment (d : list Z) : moment := mkMoment 5000000 (bytes_received d) [7].
Definition spat_name : string := "SPAT-P".

Lemma secured_datagram_witness :
  let s' := receive_secured (J := list Z) 0 sample_datagram 5 [7] (ready true) in
  outputs s' = outputs (ready true) ++
    [incoming (3 :: 128 :: 70 :: sample_frame) ENCODING_BYTEARRAY_STRING 5; set_status Key_ProcessedSPDU 1 1;
     outgoing_spdu (mkSpdu sample_datagram (3 :: 128 :: 70 :: sample_frame) [7] UNKNOWN_SUBTYPE 5 32)]
  /\ processedSPDU (counters s') = 1 /\ failedSPDU (counters s') = 0.
Proof.
  exact (proj1 (secured_datagram (W := sample_world) (RW := sample_receiver) (J := list Z) 0 sample_datagram 5 [7] (ready true)) [32; 39] 3 (128 :: 70 :: sample_frame)
           eq_refl ltac:(vm_compute; discriminate)).
Defined.
Example sample_secured : psid_of [32; 39] = 32 /\ oer_decode (W := sample_world) sample_datagram = Some (wrap [32; 39] ([3; 128; 70] ++ sample_frame))
  /\ outputs (receive_secured (J := list Z) 0 sample_datagram 5 [7] (ready true))
     = outputs (ready true) ++ [incoming ([3; 128; 70] ++ sample_frame) ENCODING_BYTEARRAY_STRING 5; set_status Key_ProcessedSPDU 1 1;
                                outgoing_spdu (mkSpdu sample_datagram ([3; 128; 70] ++ sample_frame) [7] UNKNOWN_SUBTYPE 5 32)].
Proof. by vm_compute. Qed.
Lemma received_frame_forwarded_witness :
  let s := ready true in
  let m := sample_moment sample_datagram in
  let s' := receive_round (J := list Z) 0 m s in
  exists enc more,
    outputs s' = outputs s ++ incoming ([3; 128; 70] ++ sample_frame) enc 5 :: more
    /\ Threads.work_outputs (MH := decoder (J := list Z) 0 s')
         (Threads.mkIn (0, 0) 5 (Threads.type_RawBytes ([3; 128; 70] ++ sample_frame) (Some enc)))
       = [Threads.mkOut (0, 0) (Some (frame_message SpatMessage sample_frame 1 5)); Threads.mkOut (0, 0) None].
Proof.
  assert (arrives sample_datagram [32; 39] ([3; 128; 70] ++ sample_frame) (ready true)) as Ha
    by (split; [vm_compute; reflexivity|cbn; unfold MAX_SPDU_DEPTH; lia]).
  exact (received_frame_forwarded (J := list Z) 0 (sample_moment sample_datagram) (ready true) sample_datagram [32; 39]
           [3; 128; 70] SpatMessage 4 [1; 2; 3] ("127.0.0.1", 26789) ltac:(vm_compute; reflexivity) ltac:(reflexivity)
           ltac:(cbn; lia) ltac:(reflexivity) ltac:(by constructor) ltac:(repeat constructor; by unfold ByteStream.is_byte) Ha).
Defined.
(** Two messages one after the other. *)
Lemma two_counted : exists c, rtc in_order board_new (mkBoard c ∅ false [spat_name; spat_name]).
Proof.
  destruct (counted_alone [] [] 0 spat_name) as (c1 & H1 & _). destruct (counted_alone c1 [spat_name] 1 spat_name) as (c2 & H2 & _).
  exists c2. by etransitivity.
Qed.
Lemma message_counts_witness : exists c, rtc step board_new (mkBoard c ∅ false [spat_name; spat_name]) /\
  default 0 (OrdMap.find spat_name c) = 2.
Proof.
  destruct two_counted as [c H]. exists c.
  assert (rtc step board_new (mkBoard c ∅ false [spat_name; spat_name])) as Hs by (revert H; apply rtc_subrel; by intros x y []).
  split; [exact Hs|]. apply (message_counts spat_name _ Hs). revert H. apply rtc_subrel. intros x y [H Ha]. by split.
Defined.
(** Two workers do not find the name, and the second takes back the count of the first. *)
Ltac worker t i := eapply rtc_l; [split; [by vm_compute|apply (t _ i spat_name); by vm_compute]|].
Lemma count_lost : exists x, rtc step board_new x /\ handled x = [spat_name; spat_name] /\ OrdMap.find spat_name (counts x) = Some 1.
Proof.
  eexists. split; [|shelve].
  worker move_begin 0%nat. worker move_begin 1%nat. worker move_tested 0%nat. worker move_tested 1%nat.
  worker move_place 0%nat. worker move_placed 0%nat. worker move_store 0%nat.
  worker move_place 1%nat. worker move_placed 1%nat. worker move_store 1%nat. apply rtc_refl.
  Unshelve. by vm_compute.
Qed.
(** A port that cannot be bound ends the program. *)
Example sample_port : run (J := list Z) 0 [config_changed (mkWorld (Some 80) true []); in_main (sample_moment [])] (ready true) = None.
Proof. by vm_compute. Qed.
(** The number of the service of a map does not fit the attribute. *)
Example map_psid : s32 (assignMsgPSID "MAP-P") = -536870889.
Proof. done. Qed.
End Receiver.
