(* ===== verification/PluginClient.v ===== *)
(** The base class of the plugins ([TmxUtils/src/PluginClient.cpp] and [PluginClient.h])
    and its keep alive ([PluginKeepAlive.cpp]), over the library of a plugin in [Client],
    the collections of [IvpApi], the factory of [Factory] and the throttle of
    [Utilities]: configuration values, status items, subscriptions, the handlers of
    messages, and the locks that callbacks and reads of the configuration take. *)
From Stdlib Require Import Ascii.
From S2P Require Import Prelude Text OrdMap Json JsonText IvpMessage IvpApi Client Utilities Factory.
Import Json IvpMsg IvpApi.
Open Scope Z_scope.

(** A message a handler is given: a decoded J2735 message, which may be a null pointer, or
    the message whose payload the class of the handler reads. *)
Inductive payload_of (J : Type) :=
| of_j2735 (k : message_kind) (j : option J)
| of_message (m : IvpMessage).
Arguments of_j2735 {J} k j.
Arguments of_message {J} m.

(** The handlers of a plugin, by number: the text of the exception one ends with, if any.
    The value of a keep alive frequency in milliseconds, and the contents of a keep alive
    message with its two times. *)
Class Application (J : Type) := {
  handler_throws : Z -> payload_of J -> option string;
  minutes_to_ms : string -> option Z;
  KeepAlive_contents : Z -> Z -> cJSON
}.

Module PluginClient.
#[local] Existing Instance CJson.cJSON_text.
#[local] Existing Instance Client.IvpPluginState_eq_dec.

(** A class of messages: the template instance, the two names, and the kind if it is a
    J2735 message. *)
Record MsgType := mkMsgType { type_id : Z; MessageType : string; MessageSubType : string; j2735 : option message_kind }.
(** [None] is the default handler, [handleMessage]. *)
Record handler_allocator := mkAllocator { msg_type : MsgType; fn : option Z }.
Inductive handled (J : Type) := mkHandled (h : option Z) (p : payload_of J).
Arguments mkHandled {J} h p.

Definition MSGTYPE_SYSTEM_STRING : string := "System".
Definition MSGSUBTYPE_J2735 : string := "J2735".
Definition SYS_CONTEXT_CONFIGKEY_DB_RFRSH_INTERVAL : string := "MsgLatencyDbRefreshInterval".
Definition DEFAULT_KEEPALIVE_FREQUENCY : Z := 7800 * 60.
Definition KeepAlive_MessageSubType : string := "KeepAlive".

Section plugin.
Context {W J : Type} {NW : Network W} {AC : Asn1c J} {AP : Application J}.
(** What a variable of the factory holds that it does not set. *)
Variable junk : Z.

(** [allocators] are the static variables of [register_handler]; [performed] are the calls
    of the library, and [calls] those of the handlers. *)
Record TmxPlugin := mkTmx {
  name : string;
  ivp : Client.IvpPlugin (W := W);
  sysConfig : option cJSON;
  statusMap : gmap string string;
  msgFilter : option cJSON;
  allocators : gmap Z handler_allocator;
  msgHandlers : gmap (string * string) handler_allocator;
  keepAlive : Throttle.FrequencyThrottle (K := string);
  keepAliveTimes : Z * Z;
  isStartTimeStatusSet : bool;
  trackingEnabled : bool;
  performed : list Client.call;
  calls : list (handled J) }.
Definition set_ivp (p : Client.IvpPlugin) (s : TmxPlugin) : TmxPlugin :=
  mkTmx (name s) p (sysConfig s) (statusMap s) (msgFilter s) (allocators s) (msgHandlers s) (keepAlive s) (keepAliveTimes s)
    (isStartTimeStatusSet s) (trackingEnabled s) (performed s) (calls s).
Definition set_sysConfig (c : option cJSON) (s : TmxPlugin) : TmxPlugin :=
  mkTmx (name s) (ivp s) c (statusMap s) (msgFilter s) (allocators s) (msgHandlers s) (keepAlive s) (keepAliveTimes s)
    (isStartTimeStatusSet s) (trackingEnabled s) (performed s) (calls s).
Definition set_statusMap (m : gmap string string) (s : TmxPlugin) : TmxPlugin :=
  mkTmx (name s) (ivp s) (sysConfig s) m (msgFilter s) (allocators s) (msgHandlers s) (keepAlive s) (keepAliveTimes s)
    (isStartTimeStatusSet s) (trackingEnabled s) (performed s) (calls s).
Definition set_msgFilter (f : option cJSON) (s : TmxPlugin) : TmxPlugin :=
  mkTmx (name s) (ivp s) (sysConfig s) (statusMap s) f (allocators s) (msgHandlers s) (keepAlive s) (keepAliveTimes s)
    (isStartTimeStatusSet s) (trackingEnabled s) (performed s) (calls s).
Definition set_handlers (a : gmap Z handler_allocator) (h : gmap (string * string) handler_allocator) (s : TmxPlugin) : TmxPlugin :=
  mkTmx (name s) (ivp s) (sysConfig s) (statusMap s) (msgFilter s) a h (keepAlive s) (keepAliveTimes s)
    (isStartTimeStatusSet s) (trackingEnabled s) (performed s) (calls s).
Definition set_keepAlive (k : Throttle.FrequencyThrottle (K := string)) (t : Z * Z) (s : TmxPlugin) : TmxPlugin :=
  mkTmx (name s) (ivp s) (sysConfig s) (statusMap s) (msgFilter s) (allocators s) (msgHandlers s) k t
    (isStartTimeStatusSet s) (trackingEnabled s) (performed s) (calls s).
Definition set_flags (started tracking : bool) (s : TmxPlugin) : TmxPlugin :=
  mkTmx (name s) (ivp s) (sysConfig s) (statusMap s) (msgFilter s) (allocators s) (msgHandlers s) (keepAlive s) (keepAliveTimes s)
    started tracking (performed s) (calls s).
Definition log (p : list Client.call) (c : list (handled J)) (s : TmxPlugin) : TmxPlugin :=
  mkTmx (name s) (ivp s) (sysConfig s) (statusMap s) (msgFilter s) (allocators s) (msgHandlers s) (keepAlive s) (keepAliveTimes s)
    (isStartTimeStatusSet s) (trackingEnabled s) (performed s ++ p) (calls s ++ c).

(** A call of the library. *)
Definition call_library (c : Client.call) (s : TmxPlugin) : TmxPlugin :=
  log [c] [] (set_ivp (Client.perform c (ivp s)) s).

(** * Configuration *)
Definition GetConfigValue (key : string) (s : TmxPlugin) : option string * TmxPlugin :=
  let '(text, p) := Client.ivp_getCopyOfConfigurationValue key (ivp s) in
  let s := set_ivp p s in
  (match text, sysConfig s with
   | None, Some c => ivpConfig_getCopyOfValueFromCollection (Some c) key
   | _, _ => text
   end, s).
Definition is_yes (value : string) : bool :=
  iequals value "1" || iequals value "true" || iequals value "t" || iequals value "on".
Definition GetConfigValue_bool (key : string) (s : TmxPlugin) : option bool * TmxPlugin :=
  let '(text, s) := GetConfigValue key s in (is_yes <$> text, s).
(** Without a notification. *)
Definition SetSystemConfigValue (key value defaultValue : string) (s : TmxPlugin) : TmxPlugin :=
  set_sysConfig (ivpConfig_addItemToCollection (sysConfig s) (Some key) (Some value) (Some defaultValue)) s.

(** * Status *)
(** [value] is the text of the value. *)
Definition SetStatus (key value : string) (s : TmxPlugin) : bool * TmxPlugin :=
  let '(mute, s) := GetConfigValue_bool "MuteStatus" s in
  if default false mute then (false, s)
  else if bool_decide (statusMap s !! key = Some value) then (false, s)
  else (true, call_library (Client.SetStatusItem key value) (set_statusMap (<[key := value]> (statusMap s)) s)).
Definition RemoveStatus (key : string) (s : TmxPlugin) : TmxPlugin := call_library (Client.RemoveStatusItem key) s.

(** * Messages that are sent *)
Definition touch (now : Z) (s : TmxPlugin) : TmxPlugin :=
  set_keepAlive (Throttle.Touch (name s) now (keepAlive s)) (now / 1000000, fst (keepAliveTimes s)) s.
Definition IsMessageOfType (t st : string) (m : IvpMessage) : bool :=
  bool_decide (IvpMsg.msg_type m = Some t) && bool_decide (IvpMsg.subtype m = Some st).
Definition BroadcastMessage (m : IvpMessage) (now : Z) (s : TmxPlugin) : TmxPlugin :=
  let s := call_library (Client.Broadcast m) s in
  if negb (IsMessageOfType MSGTYPE_SYSTEM_STRING KeepAlive_MessageSubType m)
     && negb (IsMessageOfType IVPMSG_TYPE_APIRESV_EVENTLOG "" m)
  then touch now s else s.
Definition HandleException (what : string) (s : TmxPlugin) : TmxPlugin :=
  call_library (Client.AddEventLog IvpLogLevel_warn what) s.

(** * The keep alive *)
Definition set_Frequency (ms : Z) (s : TmxPlugin) : TmxPlugin :=
  if 0 <? ms then set_keepAlive (Throttle.set_Frequency ms (keepAlive s)) (keepAliveTimes s) s else s.
Definition KeepAliveMessage (now : Z) (s : TmxPlugin) : IvpMessage :=
  ivpMsg_create (now / 1000000) (Some MSGTYPE_SYSTEM_STRING) (Some KeepAlive_MessageSubType) (Some "json") IvpMsgFlags_None
    (Some (KeepAlive_contents (fst (keepAliveTimes s)) (snd (keepAliveTimes s)))).
Definition check_silence (now : Z) (s : TmxPlugin) : TmxPlugin :=
  if bool_decide (Client.state (ivp s) = Client.registered) then
    let '(due, k) := Throttle.Monitor (name s) now (keepAlive s) in
    let s := set_keepAlive k (keepAliveTimes s) s in
    if due : bool then
      let s := touch now s in
      BroadcastMessage (KeepAliveMessage now s) now s
    else s
  else s.

(** * Subscriptions and handlers *)
Definition AddFilter (t st : string) (flags : Z) (s : TmxPlugin) : TmxPlugin :=
  set_msgFilter (ivpSubscribe_addFilterEntryWithFlagMask (msgFilter s) (Some t) (Some st) flags) s.
(** The static variable is set by the first registration with its types. *)
Definition register_handler (t : MsgType) (h : option Z) (s : TmxPlugin) : TmxPlugin :=
  let a := default (mkAllocator t h) (allocators s !! type_id t) in
  set_handlers (<[type_id t := a]> (allocators s)) (<[(MessageType t, MessageSubType t) := a]> (msgHandlers s)) s.
Definition AddMessageFilter (t : MsgType) (h : option Z) (s : TmxPlugin) : TmxPlugin :=
  register_handler t h (AddFilter (MessageType t) (MessageSubType t) IvpMsgFlags_None s).
(** [None]: an exception, without filters. *)
Definition SubscribeToMessages (s : TmxPlugin) : option TmxPlugin :=
  match msgFilter s with
  | None => None
  | Some f => Some (set_msgFilter None (call_library (Client.Subscribe true (Some f)) s))
  end.

(** * Messages that arrive *)
Fixpoint drop_last_quote (l : list Z) : list Z :=
  match l with
  | [] => []
  | [c] => if c =? 34 then [] else [c]
  | c :: l => c :: drop_last_quote l
  end.
Definition strip_quotes (l : list Z) : list Z :=
  drop_last_quote (match l with c :: r => if c =? 34 then r else l | [] => l end).
Definition get_payload_str (m : IvpMessage) : string :=
  match payload m with
  | None => ""
  | Some c => CJson.string_of (strip_quotes (CJson.cJSON_PrintUnformatted c))
  end.
Definition get_type (m : IvpMessage) : string := default "Unknown" (IvpMsg.msg_type m).
Definition get_subtype (m : IvpMessage) : string := default "Unknown" (subtype m).
Definition IsJ2735Message (m : IvpMessage) : bool := String.eqb (get_type m) MSGSUBTYPE_J2735.

(** What becomes of a message: a call of the handler with it, an exception of the library,
    whose text is not modelled, or a read out
    of range, as the cast of an encoded message to one of another kind. *)
Definition payload_for (t : MsgType) (m : IvpMessage) : outcome (payload_of J) :=
  if IsJ2735Message m then
    match j2735 t with
    | None => thrown
    | Some k =>
        match ByteStream.byte_stream_decode (get_payload_str m) with
        | None => undefined
        | Some bytes =>
            match Factory.NewMessage junk bytes with
            | returned None | thrown => thrown
            | undefined => undefined
            | returned (Some e) =>
                if decide (Factory.kind e = k) then
                  match Factory.decode_j2735_message junk e with
                  | returned j => returned (of_j2735 k j)
                  | thrown => thrown
                  | undefined => undefined
                  end
                else undefined
            end
        end
    end
  else returned (of_message m).
Definition unhandled (m : IvpMessage) (s : TmxPlugin) : string :=
  name s +:+ " received unhandled message of Type=" +:+ get_type m +:+ ", SubType=" +:+ get_subtype m.
Definition invokeHandler (a : handler_allocator) (m : IvpMessage) (s : TmxPlugin) : outcome TmxPlugin :=
  match payload_for (msg_type a) m with
  | returned p =>
      let s := log [] [mkHandled (fn a) p] s in
      match fn a with
      | None => returned (HandleException (unhandled m s) s)
      | Some h =>
          match handler_throws h p with
          | None => returned s
          | Some what => returned (HandleException what s)
          end
      end
  | thrown => returned (HandleException "exception" s)
  | undefined => undefined
  end.
Definition OnMessageReceived (m : IvpMessage) (s : TmxPlugin) : outcome TmxPlugin :=
  match msgHandlers s !! (get_type m, get_subtype m) with
  | Some a => invokeHandler a m s
  | None => returned s
  end.

(** * Callbacks *)
Definition OnConfigChanged (key value : string) (s : TmxPlugin) : TmxPlugin :=
  let in_sys := match sysConfig s with Some c => ivpConfig_getCopyOfValueFromCollection (Some c) key | None => None end in
  let s :=
    match in_sys with
    | Some _ => set_sysConfig (snd (ivpConfig_updateValueInCollection (sysConfig s) (Some key) (Some value))) s
    | None =>
        match (match Client.config (ivp s) with Some c => ivpConfig_getCopyOfValueFromCollection (Some c) key | None => None end) with
        | Some _ => s
        | None => SetSystemConfigValue key value value s
        end
    end in
  if String.eqb "KeepAliveFrequency" key then
    match minutes_to_ms value with
    | Some ms => set_Frequency ms s
    | None => HandleException "exception" s
    end
  else s.
(** [SystemContext::setDbUpdateFrequency] is called outside the block that catches:
    the exception of [std::stoi] ends the process. *)
Definition setDbUpdateFrequency (value : string) (s : TmxPlugin) : outcome TmxPlugin :=
  match stoi value with
  | inr v => returned (set_flags (isStartTimeStatusSet s) (negb (v =? 0)) s)
  | inl _ => thrown
  end.
Definition StaticOnConfigChanged (key value : string) (s : TmxPlugin) : outcome TmxPlugin :=
  let s := OnConfigChanged key value s in
  if String.eqb SYS_CONTEXT_CONFIGKEY_DB_RFRSH_INTERVAL key then setDbUpdateFrequency value s else returned s.
(** [start] is the text of the time the plugin was made at. *)
Definition SetStartTimeStatus (start : string) (s : TmxPlugin) : TmxPlugin :=
  if isStartTimeStatusSet s || negb (bool_decide (Client.state (ivp s) = Client.registered)) then s
  else let s := snd (SetStatus "Start Time" start s) in set_flags true (trackingEnabled s) s.
(** The callback of a change of the state. *)
Definition StaticOnStateChange (start : string) (s : TmxPlugin) : TmxPlugin := SetStartTimeStatus start s.

Definition bind_outcome {A B} (o : outcome A) (f : A -> outcome B) : outcome B :=
  match o with returned a => f a | thrown => thrown | undefined => undefined end.
Fixpoint fold_outcome {A B} (f : B -> A -> outcome A) (l : list B) (a : A) : outcome A :=
  match l with [] => returned a | x :: l => bind_outcome (f x a) (fold_outcome f l) end.
(** A configuration item, in the library and in the callback it makes. *)
Definition config_item (item : IvpConfigItem) (s : TmxPlugin) : outcome TmxPlugin :=
  let s := set_ivp (Client.update_config item (ivp s)) s in
  match key item, value item with
  | Some k, Some v => StaticOnConfigChanged k v s
  | _, _ => returned s
  end.
(** A message from the core, with the callbacks where the library makes them. *)
Definition onMsgReceived (start : string) (m : IvpMessage) (s : TmxPlugin) : outcome TmxPlugin :=
  if ivpError_isErrMsg m then returned (set_ivp (Client.ivp_onError (ivpError_getError m) (ivp s)) s)
  else if ivpConfig_isConfigMsg m then
    bind_outcome (fold_outcome (fun item => config_item (ivpConfig_item item)) (items (payload m)) s) (fun s =>
    if bool_decide (Client.state (ivp s) = Client.connected) then
      let s := StaticOnStateChange start (set_ivp (Client.ivp_onStateChange Client.registered (ivp s)) s) in
      returned (set_ivp (Client.ivp_subscribe false None (ivp s)) s)
    else returned s)
  else OnMessageReceived m (set_ivp (Client.emit (Client.OnMsgReceived m) (ivp s)) s).

(** A new plugin, with a client of the library. *)
Definition client_new (n : string) (p : Client.IvpPlugin (W := W)) : TmxPlugin :=
  mkTmx n p None ∅ None ∅ ∅ (Throttle.FrequencyThrottle_new DEFAULT_KEEPALIVE_FREQUENCY) (0, 0) false false [] [].

(** * What can happen to a plugin *)
Inductive op :=
| o_status (key value : string)
| o_remove (key : string)
| o_broadcast (m : IvpMessage) (now : Z)
| o_check (now : Z)
| o_filter (t : MsgType) (h : option Z)
| o_receive (start : string) (m : IvpMessage)
| o_state (st : Client.IvpPluginState) (start : string).
Definition perform_op (o : op) (s : TmxPlugin) : outcome TmxPlugin :=
  match o with
  | o_status k v => returned (snd (SetStatus k v s))
  | o_remove k => returned (RemoveStatus k s)
  | o_broadcast m now => returned (BroadcastMessage m now s)
  | o_check now => returned (check_silence now s)
  | o_filter t h => returned (AddMessageFilter t h s)
  | o_receive start m => onMsgReceived start m s
  | o_state st start => returned (StaticOnStateChange start (set_ivp (Client.ivp_onStateChange st (ivp s)) s))
  end.
Definition run (os : list op) (s : TmxPlugin) : outcome TmxPlugin := fold_outcome perform_op os s.

(** ** Lemmas *)
Lemma fold_outcome_app {A B} (f : B -> A -> outcome A) l l' a :
  fold_outcome f (l ++ l') a = bind_outcome (fold_outcome f l a) (fold_outcome f l').
Proof. revert a. induction l as [|x l IH]; intros a; cbn; [done|]. destruct (f x a); cbn; [apply IH|done..]. Qed.
(** What every step keeps, the whole keeps. *)
Lemma fold_outcome_inv {A B} (f : B -> A -> outcome A) (R : A -> A -> Prop) l : (forall a, R a a) -> (forall a b c, R a b -> R b c -> R a c) ->
  (forall x a a', x ∈ l -> f x a = returned a' -> R a a') -> forall a a', fold_outcome f l a = returned a' -> R a a'.
Proof.
  intros Hr Ht. induction l as [|x l IH]; intros Hs a a'; cbn; [by intros [= <-]|].
  destruct (f x a) as [b| |] eqn:E; cbn; [|done..]. intros H. eapply Ht; [eapply Hs; [by left|done]|].
  apply IH; [|done]. intros y c c' Hy. apply Hs. by right.
Qed.

Lemma broadcast_config m p : Client.config (Client.ivp_broadcastMessage m p) = Client.config (W := W) p.
Proof.
  unfold Client.ivp_broadcastMessage. destruct (negb _); [done|]. destruct (net_send _ _ _) as [[] w]; [done|].
  unfold Client.ivp_onStateChange. by case_bool_decide.
Qed.
Lemma destroy_config m p : Client.config (Client.ivp_broadcastAndDestroyMessage m p) = Client.config (W := W) p.
Proof. destruct m; [apply broadcast_config|done]. Qed.
Lemma onError_config e p : Client.config (Client.ivp_onError e p) = Client.config (W := W) p.
Proof. unfold Client.ivp_onError. case_if; [done|]. by case_if. Qed.
Lemma perform_config c p : Client.config (Client.perform c p) = Client.config (W := W) p.
Proof.
  destruct c as [[] f|st|k v|k|l d|m|k v|k]; cbn [Client.perform]; unfold Client.ivp_subscribe, Client.ivp_setStatus,
    Client.ivp_setStatusItem, Client.ivp_removeStatusItem, Client.ivp_addEventLog, Client.ivp_setConfigurationValue,
    Client.ivp_getCopyOfConfigurationValue; rewrite ?destroy_config, ?broadcast_config; try done.
  1-4: case_if; [done|]; apply destroy_config.
  destruct (String.eqb k ""); [done|]. destruct (Client.config p) eqn:E; cbn [snd]; [done|]. by rewrite onError_config.
Qed.

(** ** The value of a key *)
Definition lookup (key : string) (c : option cJSON) : option string :=
  match c with Some c => ivpConfig_getCopyOfValueFromCollection (Some c) key | None => None end.
Definition value_of (key : string) (s : TmxPlugin) : option string :=
  match lookup key (Client.config (ivp s)) with Some v => Some v | None => lookup key (sysConfig s) end.
Lemma GetConfigValue_value key s : key <> "" -> fst (GetConfigValue key s) = value_of key s.
Proof.
  intros Hk. unfold GetConfigValue, Client.ivp_getCopyOfConfigurationValue, value_of.
  destruct (String.eqb_spec key ""); [done|]. destruct (Client.config (ivp s)) as [c|]; cbn [fst lookup sysConfig set_ivp].
  - destruct (ivpConfig_getCopyOfValueFromCollection _ _); [done|]. by destruct (sysConfig s).
  - by destruct (sysConfig s).
Qed.

Lemma find_value_keys key l : (key ∈ config_keys l -> False) -> find_value key l = None.
Proof.
  unfold config_keys. induction l as [|i l IH]; cbn [find_value omap list_omap]; [done|].
  destruct (cJSONxtra_tryGetStr i "key") as [k|]; [|done]. intros Hk.
  destruct (String.eqb_spec k key) as [->|]; [destruct Hk; by left|]. apply IH. intros H. apply Hk. by right.
Qed.
Lemma find_value_snoc key l i : find_value key (l ++ [i]) =
  if bool_decide (key ∈ config_keys l) then find_value key l else find_value key [i].
Proof.
  unfold config_keys. induction l as [|j l IH]; [done|]. cbn [app find_value omap list_omap].
  destruct (cJSONxtra_tryGetStr j "key") as [k|]; [|done].
  destruct (String.eqb_spec k key) as [->|Hne].
  - by rewrite bool_decide_eq_true_2 by left.
  - rewrite IH. repeat case_bool_decide; try done; set_solver.
Qed.
Lemma items_update c k v : is_array c = true ->
  items (snd (ivpConfig_updateValueInCollection (Some c) (Some k) (Some v))) = map snd (update_items k v (child c)).
Proof. intros Ha. cbn. rewrite Ha. cbn [items]. by replace (is_array (set_child c (update_items k v (child c)))) with true by exact (eq_sym Ha). Qed.
Lemma lookup_items key c : lookup key c = find_value key (items c).
Proof. by destruct c. Qed.
Lemma items_array c : is_array c = true -> items (Some c) = map snd (child c).
Proof. intros Ha. cbn. by rewrite Ha. Qed.
Lemma collection_update c k v key :
  lookup key (snd (ivpConfig_updateValueInCollection c (Some k) (Some v))) =
  if String.eqb key k && bool_decide (k ∈ config_keys (items c)) then Some v else lookup key c.
Proof.
  destruct c as [c|]; [|by rewrite andb_false_r]. destruct (is_array c) eqn:Ha.
  - by rewrite !lookup_items, items_update, items_array, find_value_update by done.
  - assert (items (Some c) = []) as Hi by (cbn; by rewrite Ha). cbn [ivpConfig_updateValueInCollection snd]. rewrite Ha.
    by rewrite Hi, andb_false_r.
Qed.

(** The parameters of the system: an array in which every key has a value. *)
Definition sys_ok (c : option cJSON) : Prop :=
  (forall c', c = Some c' -> is_array c' = true) /\
  forall key, key ∈ config_keys (items c) -> is_Some (lookup key c).
Lemma sys_ok_none : sys_ok None.
Proof. split; [done|]. intros key H. by apply elem_of_nil in H. Qed.

Definition new_item (k v d : string) : cJSON :=
  add_string_opt "default" (Some d) (add_string_opt "value" (Some v) (cJSON_AddStringToObject cJSON_CreateObject "key" k)).
Lemma new_item_fields k v d :
  cJSONxtra_tryGetStr (new_item k v d) "key" = Some k /\ cJSONxtra_tryGetStr (new_item k v d) "value" = Some v /\
  cJSON_GetObjectItem (new_item k v d) "value" <> None.
Proof. by vm_compute. Qed.
Lemma find_new_item k v d key : find_value key [new_item k v d] = if String.eqb k key then Some v else None.
Proof.
  destruct (new_item_fields k v d) as (Hk & Hv & Hn). cbn [find_value]. rewrite Hk. destruct (String.eqb k key); [|done].
  by destruct (cJSON_GetObjectItem _ _).
Qed.
Lemma keys_snoc l k v d : config_keys (l ++ [new_item k v d]) = config_keys l ++ [k].
Proof.
  unfold config_keys. by rewrite omap_app.
Qed.
Lemma sys_add c k v : sys_ok c -> lookup k c = None ->
  let c' := ivpConfig_addItemToCollection c (Some k) (Some v) (Some v) in
  sys_ok c' /\ forall key, lookup key c' = if String.eqb k key then Some v else lookup key c.
Proof.
  intros [Ha Hk] Hn. cbv zeta. change (ivpConfig_addItemToCollection c (Some k) (Some v) (Some v)) with (append_item c (new_item k v v)).
  destruct (items_append c (new_item k v v) Ha) as [Hi Ha'].
  assert (forall key, lookup key (append_item c (new_item k v v)) = if String.eqb k key then Some v else lookup key c) as Hl.
  { intros key. rewrite !lookup_items, Hi, find_value_snoc, find_new_item. case_bool_decide as Hin.
    - destruct (String.eqb_spec k key) as [->|]; [|done]. destruct (Hk _ Hin) as [x Hx]. congruence.
    - destruct (String.eqb k key); [done|]. by rewrite find_value_keys. }
  split; [|exact Hl]. split; [done|]. intros key. rewrite Hi, keys_snoc, Hl, elem_of_app, list_elem_of_singleton.
  intros [Hin | ->]; [|by rewrite String.eqb_refl]. destruct (String.eqb k key); [done|]. by apply Hk.
Qed.
Lemma sys_update c k v : sys_ok c -> lookup k c <> None ->
  let c' := snd (ivpConfig_updateValueInCollection c (Some k) (Some v)) in
  sys_ok c' /\ forall key, lookup key c' = if String.eqb k key then Some v else lookup key c.
Proof.
  intros [Ha Hk] Hn. cbv zeta.
  assert (k ∈ config_keys (items c)) as Hin.
  { destruct (decide (k ∈ config_keys (items c))); [done|]. destruct Hn. rewrite lookup_items. by apply find_value_keys. }
  assert (forall key, lookup key (snd (ivpConfig_updateValueInCollection c (Some k) (Some v))) =
    if String.eqb k key then Some v else lookup key c) as Hl.
  { intros key. rewrite collection_update, (bool_decide_eq_true_2 _ Hin), andb_true_r. by rewrite String.eqb_sym. }
  split; [|exact Hl]. destruct c as [c|]; [|by apply elem_of_nil in Hin]. pose proof (Ha c eq_refl) as Hc. split.
  - cbn. rewrite Hc. by intros ? [= <-].
  - intros key. rewrite items_update, (proj1 (update_items_keys k v (child c))), <-(items_array c Hc), Hl by done.
    intros Hin'. destruct (String.eqb k key); [done|]. by apply Hk.
Qed.

(** What a change of the configuration does to the values. *)
Lemma value_after k v s s' :
  config_item (mkConfigItem (Some k) (Some v) None None) s = returned s' -> sys_ok (sysConfig s) ->
  sys_ok (sysConfig s') /\ forall key, value_of key s' = if String.eqb k key then Some v else value_of key s.
Proof.
  unfold config_item. cbn [IvpApi.key IvpApi.value]. intros H Hok.
  set (s0 := set_ivp (Client.update_config _ (ivp s)) s) in H.
  set (c0 := Client.config (ivp s)). set (c1 := snd (ivpConfig_updateValueInCollection c0 (Some k) (Some v))).
  assert (Client.config (ivp s0) = c1) as Hc.
  { subst s0 c1 c0. cbn [ivp set_ivp]. unfold Client.update_config. cbn [IvpApi.key IvpApi.value].
    unfold ivpConfig_updateValueInCollection. cbn [snd]. change (1 =? 0) with false. cbn match. by destruct (Client.config (ivp s)). }
  enough (sys_ok (sysConfig s') /\ Client.config (ivp s') = c1 /\ (forall key, k <> key -> lookup key (sysConfig s') = lookup key (sysConfig s)) /\
          (lookup k c1 = None -> lookup k (sysConfig s') = Some v)) as (Hok' & Hc' & Ho & Hk).
  { split; [done|]. intros key. unfold value_of. rewrite Hc'. fold c0.
    assert (forall key, lookup key c1 = if String.eqb key k && bool_decide (k ∈ config_keys (items c0)) then Some v else lookup key c0) as Hl
      by (intros; apply collection_update).
    destruct (String.eqb_spec k key) as [<-|Hne].
    - specialize (Hl k). rewrite String.eqb_refl in Hl. cbn [andb] in Hl. case_bool_decide as Hin.
      + by rewrite Hl.
      + rewrite (lookup_items k c0), find_value_keys in Hl by done. by rewrite Hl, Hk.
    - rewrite Hl, (proj2 (String.eqb_neq key k)) by congruence. cbn [andb]. by rewrite Ho. }
  assert (exists s1, s1 = OnConfigChanged k v s0 /\ sysConfig s' = sysConfig s1 /\ Client.config (ivp s') = Client.config (ivp s1))
    as (s1 & E1 & -> & ->).
  { exists (OnConfigChanged k v s0). split; [done|]. unfold StaticOnConfigChanged in H.
    destruct (String.eqb _ k); [|by injection H as <-]. unfold setDbUpdateFrequency in H.
    destruct (stoi v); [done|]. by injection H as <-. }
  assert (exists s2, s2 = (match lookup k (sysConfig s0) with
      | Some _ => set_sysConfig (snd (ivpConfig_updateValueInCollection (sysConfig s0) (Some k) (Some v))) s0
      | None => match lookup k (Client.config (ivp s0)) with Some _ => s0 | None => SetSystemConfigValue k v v s0 end
      end) /\ sysConfig s1 = sysConfig s2 /\ Client.config (ivp s1) = Client.config (ivp s2)) as (s2 & E2 & -> & ->).
  { eexists. split; [reflexivity|]. subst s1. unfold OnConfigChanged.
    change (match sysConfig s0 with Some c => ivpConfig_getCopyOfValueFromCollection (Some c) k | None => None end) with (lookup k (sysConfig s0)).
    change (match Client.config (ivp s0) with Some c => ivpConfig_getCopyOfValueFromCollection (Some c) k | None => None end)
      with (lookup k (Client.config (ivp s0))).
    destruct (String.eqb _ k); [|done]. destruct (minutes_to_ms v) as [ms|].
    - unfold set_Frequency. by destruct (0 <? ms).
    - split; [done|]. unfold HandleException, call_library. cbn [ivp log set_ivp]. apply perform_config. }
  clear H E1. change (sysConfig s0) with (sysConfig s) in E2. rewrite Hc in E2.
  destruct (lookup k (sysConfig s)) as [x|] eqn:Ex; [|destruct (lookup k c1) as [x|] eqn:El]; subst s2; cbn [sysConfig set_sysConfig ivp SetSystemConfigValue].
  - destruct (sys_update (sysConfig s) k v Hok ltac:(congruence)) as [Hu Hl]. split_and!; [done|exact Hc| |].
    + intros key Hne. by rewrite Hl, (proj2 (String.eqb_neq _ _)).
    + intros _. by rewrite Hl, String.eqb_refl.
  - split_and!; [done|exact Hc|done|done].
  - destruct (sys_add (sysConfig s) k v Hok Ex) as [Hu Hl]. split_and!; [done|exact Hc| |].
    + intros key Hne. by rewrite Hl, (proj2 (String.eqb_neq _ _)).
    + intros _. by rewrite Hl, String.eqb_refl.
Qed.

Definition last_value (key : string) (changes : list (string * string)) : option string :=
  fold_left (fun o c => if String.eqb (fst c) key then Some (snd c) else o) changes None.
Definition changed (c : string * string) (s : TmxPlugin) : outcome TmxPlugin :=
  config_item (mkConfigItem (Some (fst c)) (Some (snd c)) None None) s.

(** C11: After any changes of the configuration, of keys of the manifest and of others, a plugin
    reads the last value each key was changed to, and what it read before for a key that
    was not changed. *)
Theorem config_changes_visible changes s s' key :
  fold_outcome changed changes s = returned s' -> sys_ok (sysConfig s) -> key <> "" ->
  fst (GetConfigValue key s') = match last_value key changes with Some v => Some v | None => fst (GetConfigValue key s) end.
Proof.
  intros H Hok Hk. rewrite !GetConfigValue_value by done. unfold last_value.
  enough (forall base o, value_of key s = match o with Some v => Some v | None => base end ->
    value_of key s' = match fold_left (fun o c => if String.eqb (fst c) key then Some (snd c) else o) changes o with
                      | Some v => Some v | None => base end) as G by by apply (G (value_of key s) None).
  intros base. revert s Hok H. induction changes as [|[k v] changes IH]; intros s Hok H o Ho; cbn [fold_outcome fold_left] in *.
  { injection H as <-. exact Ho. }
  destruct (changed (k, v) s) as [s1| |] eqn:E; [|done..]. cbn [bind_outcome] in H.
  destruct (value_after _ _ _ _ E Hok) as [Hok1 Hv]. apply (IH s1 Hok1 H). rewrite Hv. cbn [fst snd].
  by destruct (String.eqb k key).
Qed.

(** ** Status items *)
Definition not_status (k : string) (c : Client.call) : Prop := match c with Client.SetStatusItem k' _ => k' <> k | _ => True end.
Definition stays (k v : string) (s s' : TmxPlugin) : Prop :=
  statusMap s !! k = Some v -> statusMap s' !! k = Some v /\ exists l, performed s' = performed s ++ l /\ Forall (not_status k) l.
Lemma stays_refl k v s : stays k v s s.
Proof. intros H. split; [done|]. exists []. by rewrite app_nil_r. Qed.
Lemma stays_trans k v s1 s2 s3 : stays k v s1 s2 -> stays k v s2 s3 -> stays k v s1 s3.
Proof.
  intros H1 H2 H. destruct (H1 H) as (Hs2 & l1 & E1 & Hl1). destruct (H2 Hs2) as (Hs3 & l2 & E2 & Hl2).
  split; [done|]. exists (l1 ++ l2). by rewrite E2, E1, app_assoc, Forall_app.
Qed.
Lemma stays_same k v s s' : statusMap s' = statusMap s -> performed s' = performed s -> stays k v s s'.
Proof. intros E1 E2 H. rewrite E1, E2. by apply stays_refl. Qed.
Lemma stays_call k v c s : not_status k c -> stays k v s (call_library c s).
Proof. intros Hc H. split; [done|]. exists [c]. split; [done|]. by repeat constructor. Qed.
Lemma GetConfigValue_same key s : statusMap (snd (GetConfigValue key s)) = statusMap s /\ performed (snd (GetConfigValue key s)) = performed s.
Proof. unfold GetConfigValue. by destruct (Client.ivp_getCopyOfConfigurationValue _ _). Qed.
Lemma SetStatus_shape k v s : let s0 := snd (GetConfigValue "MuteStatus" s) in
  SetStatus k v s =
  if default false (is_yes <$> fst (GetConfigValue "MuteStatus" s)) || bool_decide (statusMap s !! k = Some v) then (false, s0)
  else (true, call_library (Client.SetStatusItem k v) (set_statusMap (<[k := v]> (statusMap s)) s0)).
Proof.
  cbv zeta. unfold SetStatus, GetConfigValue_bool. pose proof (GetConfigValue_same "MuteStatus" s) as [E _].
  destruct (GetConfigValue "MuteStatus" s) as [t s0]. cbn [fst snd] in *. rewrite E.
  destruct (default false _); [done|]. by destruct (bool_decide _).
Qed.
Lemma stays_status k v k' v' s : (k' = k -> v' = v) -> stays k v s (snd (SetStatus k' v' s)).
Proof.
  intros Hv H. rewrite SetStatus_shape. pose proof (GetConfigValue_same "MuteStatus" s) as [E1 E2].
  destruct (decide (k' = k)) as [->|Hne].
  - rewrite (Hv eq_refl), (bool_decide_eq_true_2 _ H), orb_true_r. by apply stays_same.
  - destruct (_ || _); [by apply stays_same|]. cbn [snd]. split.
    + cbn. by rewrite lookup_insert_ne.
    + exists [Client.SetStatusItem k' v']. cbn. rewrite E2. split; [done|]. by repeat constructor.
Qed.
Lemma stays_broadcast k v m now s : stays k v s (BroadcastMessage m now s).
Proof.
  unfold BroadcastMessage. destruct (_ && _); [|by apply stays_call].
  eapply stays_trans; [by apply (stays_call k v (Client.Broadcast m))|]. by apply stays_same.
Qed.
Lemma stays_check k v now s : stays k v s (check_silence now s).
Proof.
  unfold check_silence. destruct (bool_decide _); [|apply stays_refl]. destruct (Throttle.Monitor _ _ _) as [[] t]; [|by apply stays_same].
  eapply stays_trans; [|apply stays_broadcast]. by apply stays_same.
Qed.
Lemma stays_handler k v a m s s' : invokeHandler a m s = returned s' -> stays k v s s'.
Proof.
  assert (forall what (s : TmxPlugin) c, stays k v s (HandleException what (log [] c s))) as Hh.
  { intros what s1 c. eapply stays_trans; [|by apply stays_call]. apply stays_same; [done|]. cbn. by rewrite app_nil_r. }
  unfold invokeHandler. destruct (payload_for _ m); [|intros [= <-]; by apply stays_call|done].
  destruct (fn a); [destruct (handler_throws _ _)|]; intros [= <-]; try apply Hh.
  apply stays_same; [done|]. cbn. by rewrite app_nil_r.
Qed.
Lemma stays_config k v item s s' : config_item item s = returned s' -> stays k v s s'.
Proof.
  assert (forall k' v' (s : TmxPlugin), stays k v s (OnConfigChanged k' v' s)) as Hc.
  { intros k' v' s1. unfold OnConfigChanged.
    assert (exists s2, stays k v s1 s2 /\
      s2 = match match sysConfig s1 with Some c => ivpConfig_getCopyOfValueFromCollection (Some c) k' | None => None end with
           | Some _ => set_sysConfig (snd (ivpConfig_updateValueInCollection (sysConfig s1) (Some k') (Some v'))) s1
           | None =>
               match match Client.config (ivp s1) with Some c => ivpConfig_getCopyOfValueFromCollection (Some c) k' | None => None end with
               | Some _ => s1
               | None => SetSystemConfigValue k' v' v' s1
               end
           end) as (s2 & H2 & <-).
    { eexists. split; [|reflexivity]. destruct (match sysConfig s1 with Some _ => _ | None => _ end); [by apply stays_same|].
      destruct (match Client.config (ivp s1) with Some _ => _ | None => _ end); [apply stays_refl|by apply stays_same]. }
    eapply stays_trans; [exact H2|]. destruct (String.eqb _ k'); [|apply stays_refl].
    destruct (minutes_to_ms v'); [|by apply stays_call]. unfold set_Frequency. destruct (0 <? _); [by apply stays_same|apply stays_refl]. }
  unfold config_item. destruct (key item) as [k'|], (value item) as [v'|]; try (intros [= <-]; by apply stays_same).
  unfold StaticOnConfigChanged. destruct (String.eqb _ k').
  - unfold setDbUpdateFrequency. destruct (stoi v'); [done|]. intros [= <-]. eapply stays_trans; [|by apply stays_same].
    eapply stays_trans; [|apply Hc]. by apply stays_same.
  - intros [= <-]. eapply stays_trans; [|apply Hc]. by apply stays_same.
Qed.
Lemma stays_state k v st start s : k <> "Start Time" -> stays k v s (StaticOnStateChange start (set_ivp (Client.ivp_onStateChange st (ivp s)) s)).
Proof.
  intros Hk. eapply stays_trans; [by apply (stays_same k v s (set_ivp (Client.ivp_onStateChange st (ivp s)) s))|].
  unfold StaticOnStateChange, SetStartTimeStatus. destruct (_ || _); [apply stays_refl|].
  eapply stays_trans; [|by apply stays_same]. apply stays_status. congruence.
Qed.
Lemma stays_op k v o s s' : k <> "Start Time" -> match o with o_status k' v' => k' = k -> v' = v | _ => True end ->
  perform_op o s = returned s' -> stays k v s s'.
Proof.
  intros Hk Ho. destruct o as [k' v'|k'|m now|now|t h|start m|st start]; cbn [perform_op]; try intros [= <-].
  - by apply stays_status.
  - by apply stays_call.
  - apply stays_broadcast.
  - apply stays_check.
  - by apply stays_same.
  - unfold onMsgReceived. destruct (ivpError_isErrMsg m); [intros [= <-]; by apply stays_same|].
    destruct (ivpConfig_isConfigMsg m).
    + destruct (fold_outcome _ _ s) as [s1| |] eqn:E; [|done..]. cbn [bind_outcome].
      assert (stays k v s s1) as H1.
      { revert E. apply (fold_outcome_inv _ (stays k v)); [apply stays_refl|apply stays_trans|]. intros x a a' _. apply stays_config. }
      destruct (bool_decide _); intros [= <-]; [|done]. eapply stays_trans; [exact H1|].
      eapply stays_trans; [by apply (stays_state k v Client.registered start)|]. by apply stays_same.
    + unfold OnMessageReceived. destruct (msgHandlers _ !! _); [|intros [= <-]; by apply stays_same].
      intros H. eapply stays_trans; [|by eapply stays_handler]. by apply stays_same.
  - by apply stays_state.
Qed.

(** C15: A status that is set while the plugin is not connected is lost for good: nothing is sent
    at that time, and as long as the plugin does not set another value under the key, no
    later connection, message or removal makes it send the status again. *)
Theorem early_status_lost k v s s1 os s2 :
  Client.is_up (Client.state (ivp s)) = false -> Client.config (ivp s) <> None -> SetStatus k v s = (true, s1) ->
  k <> "Start Time" -> Forall (fun o => match o with o_status k' v' => k' = k -> v' = v | _ => True end) os ->
  run os s1 = returned s2 ->
  Client.trace (ivp s1) = Client.trace (ivp s) /\ exists l, performed s2 = performed s1 ++ l /\ Forall (not_status k) l.
Proof.
  intros Hup Hc Hs Hk Hos Hr. rewrite SetStatus_shape in Hs. destruct (_ || _); [done|]. injection Hs as <-. split.
  - cbn [ivp call_library log set_ivp set_statusMap Client.perform]. unfold GetConfigValue, Client.ivp_getCopyOfConfigurationValue.
    change (String.eqb "MuteStatus" "") with false. cbn match. destruct (Client.config (ivp s)) as [c|]; [|done]. cbn [snd ivp set_ivp].
    unfold Client.ivp_setStatusItem. destruct (String.eqb k ""); [done|]. unfold Client.ivp_broadcastAndDestroyMessage, Client.ivp_broadcastMessage.
    by rewrite Hup.
  - set (s1 := call_library _ _) in *.
    assert (stays k v s1 s2) as H.
    { revert Hr. apply (fold_outcome_inv _ (stays k v)); [apply stays_refl|apply stays_trans|].
      intros o a a' Hin. apply stays_op; [done|]. by apply (proj1 (Forall_forall _ _) Hos). }
    apply H. cbn. by rewrite lookup_insert_eq.
Qed.
(** Nor does a plugin set a status again that it has removed. *)
Lemma removed_status_not_set k v s : statusMap s !! k = Some v -> fst (SetStatus k v (RemoveStatus k s)) = false.
Proof. intros H. rewrite SetStatus_shape. cbn [statusMap RemoveStatus call_library log set_ivp]. by rewrite (bool_decide_eq_true_2 _ H), orb_true_r. Qed.

(** ** The keep alive *)
Definition counts (m : IvpMessage) : bool :=
  negb (IsMessageOfType MSGTYPE_SYSTEM_STRING KeepAlive_MessageSubType m) && negb (IsMessageOfType IVPMSG_TYPE_APIRESV_EVENTLOG "" m).
Definition last_time (s : TmxPlugin) : option Z := OrdMap.find (name s) (Throttle.mapLastTime (keepAlive s)).
Definition frequency (s : TmxPlugin) : Z := Throttle.frequency (keepAlive s).
Definition due (now : Z) (s : TmxPlugin) : bool :=
  bool_decide (Client.state (ivp s) = Client.registered) &&
  match last_time s with None => true | Some t => frequency s <=? Throttle.duration_ms (now - t) end.
(** The times at which a step sends a message that counts, or a keep alive. *)
Definition op_times (o : op) (s : TmxPlugin) : list Z :=
  match o with
  | o_broadcast m now => if counts m then [now] else []
  | o_check now => if due now s then [now] else []
  | _ => []
  end.
Fixpoint times (os : list op) (s : TmxPlugin) : list Z :=
  match os with
  | [] => []
  | o :: os => op_times o s ++ match perform_op o s with returned s => times os s | _ => [] end
  end.
Fixpoint ordered (t : Z) (os : list op) : Prop :=
  match os with
  | [] => True
  | o_broadcast _ now :: os | o_check now :: os => t <= now /\ ordered now os
  | _ :: os => ordered t os
  end.

Definition alive (t : Z) (ts : list Z) (s : TmxPlugin) : Prop :=
  0 < frequency s /\ Forall (fun u => u <= t) ts /\
  match last_time s with None => True | Some u => u ∈ ts /\ Forall (fun v => v <= u) ts end.
(** Steps that leave the keep alive as it is, but for the frequency. *)
Definition same_alive (s s' : TmxPlugin) : Prop :=
  name s' = name s /\ Throttle.mapLastTime (keepAlive s') = Throttle.mapLastTime (keepAlive s) /\ (0 < frequency s -> 0 < frequency s').
Lemma same_alive_refl s : same_alive s s.
Proof. done. Qed.
Lemma same_alive_trans s1 s2 s3 : same_alive s1 s2 -> same_alive s2 s3 -> same_alive s1 s3.
Proof. intros (A1 & A2 & A3) (B1 & B2 & B3). split_and!; [congruence..|auto]. Qed.
Lemma same_alive_alive t ts s s' : same_alive s s' -> alive t ts s -> alive t ts s'.
Proof. intros (E1 & E2 & E3) (H1 & H2 & H3). unfold alive, last_time. rewrite E1, E2. auto. Qed.
Lemma GetConfigValue_alive key s : same_alive s (snd (GetConfigValue key s)).
Proof. unfold GetConfigValue. by destruct (Client.ivp_getCopyOfConfigurationValue _ _). Qed.
Lemma SetStatus_alive k v s : same_alive s (snd (SetStatus k v s)).
Proof. rewrite SetStatus_shape. pose proof (GetConfigValue_alive "MuteStatus" s). by destruct (_ || _). Qed.
Lemma StateChange_alive start s : same_alive s (StaticOnStateChange start s).
Proof. unfold StaticOnStateChange, SetStartTimeStatus. destruct (_ || _); [done|]. apply (SetStatus_alive "Start Time" start s). Qed.
Lemma OnConfigChanged_alive k v s : same_alive s (OnConfigChanged k v s).
Proof.
  unfold OnConfigChanged. cbv zeta.
  destruct (match sysConfig s with Some _ => _ | None => _ end);
    [|destruct (match Client.config (ivp s) with Some _ => _ | None => _ end)].
  all: destruct (String.eqb _ k); [|done]; destruct (minutes_to_ms v) as [ms|]; [|done].
  all: unfold set_Frequency; destruct (Z.ltb_spec 0 ms); [|done]; (split_and!; [done..|]; by intros _).
Qed.
Lemma config_item_alive item s s' : config_item item s = returned s' -> same_alive s s'.
Proof.
  unfold config_item. destruct (key item) as [k|], (value item) as [v|]; try by intros [= <-].
  unfold StaticOnConfigChanged. set (s0 := set_ivp _ s). pose proof (OnConfigChanged_alive k v s0) as H.
  destruct (String.eqb _ k); [unfold setDbUpdateFrequency; destruct (stoi v); [done|]|]; by intros [= <-].
Qed.
Lemma receive_alive start m s s' : onMsgReceived start m s = returned s' -> same_alive s s'.
Proof.
  unfold onMsgReceived. destruct (ivpError_isErrMsg m); [by intros [= <-]|]. destruct (ivpConfig_isConfigMsg m).
  - destruct (fold_outcome _ _ s) as [s1| |] eqn:E; [|done..]. cbn [bind_outcome].
    assert (same_alive s s1) as H1.
    { revert E. apply (fold_outcome_inv _ same_alive); [apply same_alive_refl|apply same_alive_trans|]. intros x a a' _. apply config_item_alive. }
    destruct (bool_decide _); intros [= <-]; [|done]. eapply same_alive_trans; [exact H1|].
    exact (StateChange_alive start (set_ivp (Client.ivp_onStateChange Client.registered (ivp s1)) s1)).
  - unfold OnMessageReceived. destruct (msgHandlers _ !! _) as [a|]; [|by intros [= <-]].
    unfold invokeHandler. destruct (payload_for _ m); [|by intros [= <-]|done].
    destruct (fn a); [destruct (handler_throws _ _)|]; by intros [= <-].
Qed.

Lemma touch_alive t now ts s : alive t ts s -> t <= now -> alive now (ts ++ [now]) (touch now s).
Proof.
  intros (Hf & Ht & Hl) Hn. unfold alive, touch, last_time, frequency, Throttle.Touch in *. cbn [name keepAlive set_keepAlive].
  assert (Forall (fun u => u <= now) (ts ++ [now])) as Hall.
  { apply Forall_app. split; [|by repeat constructor]. eapply Forall_impl; [exact Ht|]. cbn. lia. }
  destruct (OrdMap.find (name s) (Throttle.mapLastTime (keepAlive s))) eqn:E.
  - cbn [Throttle.mapLastTime Throttle.set_map Throttle.frequency]. rewrite OrdMap.find_insert, OrdMap.keqb_refl.
    split_and!; [done..|set_solver|done].
  - rewrite E. split_and!; done.
Qed.
Lemma check_spec now s : 0 < frequency s ->
  (due now s = true -> last_time (check_silence now s) = Some now /\ name (check_silence now s) = name s /\ frequency (check_silence now s) = frequency s
     /\ performed (check_silence now s) = performed s ++ [Client.Broadcast (KeepAliveMessage now (touch now s))]) /\
  (due now s = false -> same_alive s (check_silence now s) /\ frequency (check_silence now s) = frequency s /\ performed (check_silence now s) = performed s).
Proof.
  intros Hf. unfold due, check_silence. destruct (bool_decide _); cbn [andb]; [|by split].
  unfold last_time, frequency, Throttle.Monitor.
  assert (forall k, Throttle.frequency k = Throttle.frequency (keepAlive s) ->
    OrdMap.find (name s) (Throttle.mapLastTime k) <> None -> let s' := set_keepAlive k (keepAliveTimes s) s in
    let s'' := BroadcastMessage (KeepAliveMessage now (touch now s')) now (touch now s') in
    OrdMap.find (name s'') (Throttle.mapLastTime (keepAlive s'')) = Some now /\ name s'' = name s /\
    Throttle.frequency (keepAlive s'') = Throttle.frequency (keepAlive s) /\
    performed s'' = performed s ++ [Client.Broadcast (KeepAliveMessage now (touch now s))]) as H.
  { intros k Hk Hn. cbv zeta. unfold BroadcastMessage. change (_ && _) with false. cbn match.
    unfold touch, Throttle.Touch. cbn [keepAlive set_keepAlive name call_library log set_ivp].
    destruct (OrdMap.find (name s) (Throttle.mapLastTime k)); [|done].
    cbn [Throttle.mapLastTime Throttle.set_map Throttle.frequency]. by rewrite OrdMap.find_insert, OrdMap.keqb_refl. }
  assert (forall m, OrdMap.find (name s) (OrdMap.insert (name s) now m) <> None) as Hi
    by (intros m; by rewrite OrdMap.find_insert, OrdMap.keqb_refl).
  destruct (OrdMap.find (name s) (Throttle.mapLastTime (keepAlive s))) as [t|] eqn:E.
  - destruct (Throttle.frequency (keepAlive s) <=? _); [|by split]. split; [|done]. intros _. apply H; [done|apply Hi].
  - split; [|done]. intros _. apply H; [done|apply Hi].
Qed.

Lemma ordered_app t os os' : ordered t (os ++ os') -> ordered t os.
Proof.
  revert t. induction os as [|o os IH]; intros t; [done|].
  destruct o; cbn [app ordered]; try apply IH; intros [? H]; (split; [done|by apply IH]).
Qed.
Lemma op_alive o s s' t ts : perform_op o s = returned s' -> alive t ts s ->
  match o with o_broadcast _ now | o_check now => t <= now | _ => True end ->
  alive (match o with o_broadcast _ now | o_check now => now | _ => t end) (ts ++ op_times o s) s'.
Proof.
  intros H Ha Hn. destruct o as [k v|k|m now|now|c h|start m|st start]; cbn [perform_op op_times] in *; rewrite ?app_nil_r.
  - injection H as <-. eapply same_alive_alive; [apply SetStatus_alive|done].
  - injection H as <-. exact Ha.
  - injection H as <-. unfold BroadcastMessage. change (_ && _) with (counts m). destruct (counts m).
    + by apply (touch_alive t).
    + rewrite app_nil_r. destruct Ha as (H1 & H2 & H3). split_and!; [done| |done]. eapply Forall_impl; [exact H2|]. cbn. lia.
  - injection H as <-. pose proof Ha as (Hf & H2 & H3). destruct (check_spec now s Hf) as [Hd Hd'].
    assert (Forall (fun u => u <= now) ts) as Hts by (eapply Forall_impl; [exact H2|]; cbn; lia).
    destruct (due now s).
    + destruct (Hd eq_refl) as (E1 & E2 & E3 & _). unfold alive. rewrite E1, E3.
      assert (Forall (fun u => u <= now) (ts ++ [now])) by (apply Forall_app; split; [done|by repeat constructor]).
      split_and!; [done..|set_solver|done].
    + rewrite app_nil_r. destruct (Hd' eq_refl) as (E1 & _). eapply same_alive_alive; [exact E1|]. by split_and!.
  - injection H as <-. exact Ha.
  - eapply same_alive_alive; [by eapply receive_alive|done].
  - injection H as <-. eapply same_alive_alive; [|exact Ha].
    exact (StateChange_alive start (set_ivp (Client.ivp_onStateChange st (ivp s)) s)).
Qed.
Lemma run_alive os : forall s s' t ts, run os s = returned s' -> alive t ts s -> ordered t os ->
  exists t', alive t' (ts ++ times os s) s' /\ forall now, ordered t (os ++ [o_check now]) -> t' <= now.
Proof.
  unfold run. induction os as [|o os IH]; intros s s' t ts; cbn [fold_outcome times app].
  - intros [= <-] Ha _. exists t. rewrite app_nil_r. split; [done|]. by intros now [].
  - destruct (perform_op o s) as [s1| |] eqn:E; [|done..]. cbn [bind_outcome]. intros H Ha Ho.
    assert (match o with o_broadcast _ now | o_check now => t <= now | _ => True end) as Hn by (destruct o; cbn in Ho; tauto).
    pose proof (op_alive o s s1 t ts E Ha Hn) as Ha1.
    assert (ordered (match o with o_broadcast _ now | o_check now => now | _ => t end) os) as Ho1 by (destruct o; cbn in Ho; tauto).
    destruct (IH s1 s' _ _ H Ha1 Ho1) as (t' & Ht' & Hle). exists t'. rewrite <-app_assoc in Ht'. split; [exact Ht'|].
    intros now Hnow. apply Hle. destruct o; cbn in Hnow; tauto.
Qed.

(** C12: While a plugin is registered, a check of the keep alive leaves no silence as long as the
    frequency: a message that counts or a keep alive has been sent within it. A check after
    the first keep alive sends one only if nothing was sent for the length of the
    frequency. *)
Theorem keepalive_bounded os n p s t now :
  run os (client_new n p) = returned s -> ordered t (os ++ [o_check now]) -> Client.state (ivp s) = Client.registered ->
  let sent := times (os ++ [o_check now]) (client_new n p) in
  (exists u, u ∈ sent /\ u <= now /\ Throttle.duration_ms (now - u) < frequency s)
  /\ (last_time s <> None -> due now s = true -> Forall (fun u => frequency s <= Throttle.duration_ms (now - u)) (times os (client_new n p)))
  /\ performed (check_silence now s) = performed s ++ (if due now s then [Client.Broadcast (KeepAliveMessage now (touch now s))] else []).
Proof.
  cbv zeta. intros Hr Ho Hreg.
  assert (alive t [] (client_new n p)) as H0 by (split_and!; [by vm_compute|done|by unfold last_time; cbn]).
  destruct (run_alive os _ _ t [] Hr H0 (ordered_app _ _ _ Ho)) as (t' & (Hf & Ht & Hl) & Hle). specialize (Hle now Ho). cbn [app] in *.
  assert (times (os ++ [o_check now]) (client_new n p) = times os (client_new n p) ++ op_times (o_check now) s) as ->.
  { clear -Hr. revert Hr. generalize (client_new n p). unfold run. induction os as [|o os IH]; intros a; cbn [fold_outcome times app].
    - intros [= <-]. by rewrite app_nil_r.
    - destruct (perform_op o a) as [a1| |]; [|done..]. cbn [bind_outcome]. intros H. by rewrite IH, app_assoc. }
  destruct (check_spec now s Hf) as [Hd Hd']. cbn [op_times].
  assert (due now s = match last_time s with None => true | Some u => frequency s <=? Throttle.duration_ms (now - u) end) as Ed
    by (unfold due; by rewrite bool_decide_eq_true_2).
  destruct (due now s) eqn:E.
  - split_and!; [|intros Hs _|].
    + exists now. split; [set_solver|]. split; [lia|]. by rewrite Z.sub_diag.
    + destruct (last_time s) as [u|]; [|done]. destruct Hl as [_ Hl]. eapply Forall_impl; [exact Hl|]. cbn. intros v Hv.
      symmetry in Ed. apply Z.leb_le in Ed. etransitivity; [exact Ed|]. apply Throttle.duration_mono. lia.
    + by destruct (Hd eq_refl) as (_ & _ & _ & ->).
  - destruct (Hd' eq_refl) as (_ & _ & ->). rewrite !app_nil_r. split_and!; [|done..].
    destruct (last_time s) as [u|]; [|done]. destruct Hl as [Hu _]. exists u. split; [done|].
    symmetry in Ed. apply Z.leb_gt in Ed. split; [|done]. apply (proj1 (Forall_forall _ _) Ht) in Hu. lia.
Qed.

(** ** J2735 messages *)
Definition plain (b : Z) : bool := (31 <? b) && negb (b =? 34) && negb (b =? 92) && (b <? 127).
Lemma drop_last_quote_snoc l : drop_last_quote (l ++ [34]) = l.
Proof. induction l as [|c l IH]; [done|]. cbn [app drop_last_quote]. destruct (l ++ [34]) eqn:E; [by destruct l|]. by rewrite IH. Qed.
Lemma print_plain l : forallb plain l = true -> concat (map CJson.print_char l) = l.
Proof.
  induction l as [|b l IH]; [done|]. cbn [forallb map concat]. intros [Hb Hl]%andb_prop. rewrite IH by done.
  unfold CJson.print_char. apply andb_prop in Hb as [Hb _]. by rewrite Hb.
Qed.
Lemma payload_plain m c s : payload m = Some c -> type c = cJSON_String -> valuestring c = Some s ->
  forallb plain (CJson.bytes s) = true -> get_payload_str m = s.
Proof.
  intros Hm Ht Hs Hp. unfold get_payload_str. rewrite Hm.
  assert (CJson.cJSON_PrintUnformatted c = 34 :: CJson.bytes s ++ [34]) as ->.
  { destruct c as [ct vs vi vd ch]. cbn in Ht, Hs. subst. unfold CJson.cJSON_PrintUnformatted. cbn [CJson.print_value type valuestring CJson.print_string_ptr].
    rewrite CJson.cstr_id; [by rewrite print_plain|]. apply Forall_forall. intros b Hb%list_elem_of_In.
    rewrite forallb_forall in Hp. apply Hp in Hb. unfold plain in Hb. rewrite !andb_true_iff, !Z.ltb_lt in Hb. lia. }
  unfold strip_quotes. change (34 =? 34) with true. cbn match. rewrite drop_last_quote_snoc. apply CJson.string_of_bytes.
Qed.
Lemma hex_plain l : Forall ByteStream.is_byte l -> forallb plain (CJson.bytes (ByteStream.byte_stream_encode l)) = true.
Proof.
  induction 1 as [|b l Hb _ IH]; [done|]. cbn [ByteStream.byte_stream_encode]. unfold ByteStream.snprintf_02x.
  assert (forall n, 0 <= n < 16 -> plain (Z.of_N (N_of_ascii (ByteStream.hex_char n))) = true) as Hh.
  { apply (below_ind 16 (fun n => plain (Z.of_N (N_of_ascii (ByteStream.hex_char n))))). by vm_compute. }
  unfold ByteStream.is_byte in Hb. pose proof (Z.mod_pos_bound b 16 ltac:(lia)).
  assert (0 <= b / 16 < 16) by (split; [apply Z.div_pos; lia|apply Z.div_lt_upper_bound; lia]).
  change (forallb plain (Z.of_N (N_of_ascii (ByteStream.hex_char (b / 16))) :: Z.of_N (N_of_ascii (ByteStream.hex_char (b mod 16)))
            :: CJson.bytes (ByteStream.byte_stream_encode l)) = true).
  cbn [forallb]. by rewrite !Hh by done.
Qed.

(** C13: A J2735 message that one plugin encodes reaches the handler of another: the message that
    carries its text, under the names of its kind, is given to the handler registered for
    them as the value that was encoded. *)
Theorem j2735_message_delivered junk' k j e m c t h s :
  Factory.encoded_new junk' k j = returned e -> junk' <= 0 \/ 17 < junk' ->
  IvpMsg.msg_type m = Some MSGSUBTYPE_J2735 -> IvpMsg.subtype m = Some (Factory.MessageSubType k) ->
  payload m = Some c -> type c = cJSON_String -> valuestring c = Some (Factory.payload e) ->
  msgHandlers s !! (MSGSUBTYPE_J2735, Factory.MessageSubType k) = Some (mkAllocator t (Some h)) -> j2735 t = Some k ->
  exists s', OnMessageReceived m s = returned s' /\ calls s' = calls s ++ [mkHandled (Some h) (of_j2735 k (Some j))] /\
    performed s' = performed s ++
      match handler_throws h (of_j2735 k (Some j)) with Some what => [Client.AddEventLog IvpLogLevel_warn what] | None => [] end.
Proof.
  intros He Hj Ht Hst Hp Hct Hcs Hh Hk. destruct (Factory.encode_decode junk' junk k j e He Hj) as (bytes & Hd & Hn & Hdec).
  destruct (Factory.encoded_shape junk' k j e He Hj) as (x & rest & Hb & Ee & _).
  assert (get_payload_str m = Factory.payload e) as Hstr.
  { apply (payload_plain m c); [done..|]. rewrite Ee. cbn [Factory.payload]. apply hex_plain. constructor; [by unfold ByteStream.is_byte; lia|done]. }
  unfold OnMessageReceived. unfold get_type at 1, get_subtype. rewrite Ht, Hst. cbn [default from_option id]. rewrite Hh.
  unfold invokeHandler, payload_for, IsJ2735Message, get_type. rewrite Ht. cbn [default from_option id msg_type]. rewrite Hk, Hstr.
  change (String.eqb MSGSUBTYPE_J2735 MSGSUBTYPE_J2735) with true. cbn match.
  change (ByteStream.byte_stream_decode (Factory.payload e)) with (Factory.get_data e). rewrite Hd, Hn.
  assert (Factory.kind e = k) as -> by by rewrite Ee. rewrite decide_True by done. rewrite Hdec. cbn match. cbn [fn].
  destruct (handler_throws h _) as [what|]; eexists; (split; [done|]); cbn; rewrite ?app_nil_r; by rewrite <-?app_assoc.
Qed.
(** A message whose bytes are of another kind than its name says is cast to the wrong
    class. *)
Lemma mislabelled_undefined t h m s b1 y rest k k' :
  get_type m = MSGSUBTYPE_J2735 -> j2735 t = Some k -> k' <> k -> Factory.get_default_messageId k' = b1 ->
  ByteStream.byte_stream_decode (get_payload_str m) = Some (0 :: b1 :: y :: rest) ->
  invokeHandler (mkAllocator t h) m s = undefined.
Proof.
  intros Hm Ht Hne Hk Hb. unfold invokeHandler, payload_for, IsJ2735Message. rewrite Hm. change (String.eqb _ _) with true. cbn match. cbn [msg_type].
  rewrite Ht, Hb. pose proof (Factory.frame_made junk [] b1 y rest Factory.ext_none) as E. cbn [app] in E. rewrite E.
  - rewrite (proj2 (Factory.byInt_spec b1 k') Hk). cbn [mbind option_bind Factory.kind]. by rewrite decide_False.
  - apply ByteStream.decode_bytes in Hb. by inversion Hb.
Qed.
(** Of two handlers for a class of messages the first one stays. *)
Lemma first_handler_stays t h h' s : allocators s !! type_id t = None ->
  msgHandlers (AddMessageFilter t h' (AddMessageFilter t h s)) !! (MessageType t, MessageSubType t) = Some (mkAllocator t h).
Proof.
  intros H. unfold AddMessageFilter, register_handler. cbn [allocators msgHandlers set_handlers AddFilter set_msgFilter].
  rewrite H. by rewrite lookup_insert_eq, lookup_insert_eq.
Qed.
(** A value that is no number ends the plugin. *)
Lemma bad_interval_ends value e s : stoi value = inl e ->
  StaticOnConfigChanged SYS_CONTEXT_CONFIGKEY_DB_RFRSH_INTERVAL value s = thrown.
Proof. intros H. unfold StaticOnConfigChanged. rewrite String.eqb_refl. unfold setDbUpdateFrequency. by rewrite H. Qed.
End plugin.

(** * An example *)
#[local] Existing Instance Factory.sample_coder.
#[local] Existing Instance Client.script_network.
#[local] Instance sample_application : Application (list Z) := {|
  handler_throws h p := if h =? 13 then Some "failed"%string else None;
  minutes_to_ms value := if String.eqb value "1" then Some 60000 else None;
  KeepAlive_contents current last := cJSON_CreateObject |}.
Definition sample_items : option cJSON := ivpConfig_addItemToCollection None (Some "Frequency") None (Some "1000").
Definition sample_client (st : Client.IvpPluginState) : Client.IvpPlugin (W := Client.script) :=
  Client.mkPlugin st cJSON_CreateObject None sample_items "127.0.0.1" 24601 3 (Client.mkScript 1700000000000 [] []) [].
Definition sample_plugin (st : Client.IvpPluginState) : TmxPlugin (W := Client.script) (J := list Z) := client_new "SPAT" (sample_client st).
Definition outcome_or {A} (o : outcome A) (a : A) : A := match o with returned a => a | _ => a end.

Definition sample_changes : list (string * string) := [("Frequency", "500"); ("MuteStatus", "off"); ("Frequency", "250"); ("MuteStatus", "t")].
Definition sample_changed : TmxPlugin (J := list Z) :=
  outcome_or (fold_outcome changed sample_changes (sample_plugin Client.registered)) (sample_plugin Client.registered).
Lemma config_changes_visible_witness : fst (GetConfigValue "MuteStatus" sample_changed) = Some "t".
Proof.
  exact (config_changes_visible sample_changes (sample_plugin Client.registered) sample_changed "MuteStatus"
           ltac:(vm_compute; reflexivity) sys_ok_none ltac:(discriminate)).
Defined.

Definition sample_early : TmxPlugin (J := list Z) := snd (SetStatus "Mode" "on" (sample_plugin Client.disconnected)).
Definition sample_ops : list op :=
  [o_state Client.connected "now"; o_state Client.registered "now"; o_status "Mode" "on"; o_check 20000000000; o_status "Other" "1"].
Definition sample_later : TmxPlugin (J := list Z) := outcome_or (run 0 sample_ops sample_early) sample_early.
Lemma early_status_lost_witness :
  Client.trace (ivp sample_early) = [] /\ exists l, performed sample_later = performed sample_early ++ l /\ Forall (not_status "Mode") l.
Proof.
  apply (early_status_lost 0 "Mode" "on" (sample_plugin Client.disconnected) sample_early sample_ops sample_later).
  - reflexivity.
  - discriminate.
  - vm_compute; reflexivity.
  - discriminate.
  - unfold sample_ops. repeat constructor. discriminate.
  - vm_compute; reflexivity.
Defined.

Definition sample_message : IvpMessage := ivpMsg_create 0 (Some "Application") (Some "Test") (Some "json") 0 None.
Definition sample_day : list op := [o_broadcast sample_message 1000000000; o_check 10000000000; o_broadcast sample_message 400000000000].
Definition sample_evening : TmxPlugin (J := list Z) := outcome_or (run 0 sample_day (sample_plugin Client.registered)) (sample_plugin Client.registered).
Lemma keepalive_bounded_witness :
  let sent := times 0 (sample_day ++ [o_check 868000000000]) (sample_plugin Client.registered) in
  (exists u, u ∈ sent /\ u <= 868000000000 /\ Throttle.duration_ms (868000000000 - u) < frequency sample_evening)
  /\ (last_time sample_evening <> None -> due 868000000000 sample_evening = true ->
      Forall (fun u => frequency sample_evening <= Throttle.duration_ms (868000000000 - u)) (times 0 sample_day (sample_plugin Client.registered)))
  /\ performed (check_silence 868000000000 sample_evening)
     = performed sample_evening ++ (if due 868000000000 sample_evening
         then [Client.Broadcast (KeepAliveMessage 868000000000 (touch 868000000000 sample_evening))] else []).
Proof.
  apply (keepalive_bounded 0 sample_day "SPAT" (sample_client Client.registered) sample_evening 0 868000000000).
  - vm_compute; reflexivity.
  - cbn. lia.
  - vm_compute; reflexivity.
Defined.
(** The first check sends, and the one after a long silence, and not the one between. *)
Example sample_times : times 0 (sample_day ++ [o_check 867000000000; o_check 868000000000]) (sample_plugin Client.registered)
  = [1000000000; 10000000000; 400000000000; 868000000000].
Proof. by vm_compute. Qed.

Definition spat_type : MsgType := mkMsgType 1 MSGSUBTYPE_J2735 "SPAT-P" (Some SpatMessage).
Definition spat_encoded : Factory.encoded_message := Factory.mkEncoded SpatMessage Factory.ENCODING_ASN1_UPER_STRING "001313010203".
Definition spat_message : IvpMessage :=
  ivpMsg_create 0 (Some MSGSUBTYPE_J2735) (Some "SPAT-P") (Some Factory.ENCODING_ASN1_UPER_STRING) 0 (Some (cJSON_CreateString "001313010203")).
Definition spat_listener : TmxPlugin (W := Client.script) (J := list Z) := AddMessageFilter spat_type (Some 7) (sample_plugin Client.registered).
Lemma j2735_message_delivered_witness :
  exists s', OnMessageReceived 5 spat_message spat_listener = returned s' /\
    calls s' = calls spat_listener ++ [mkHandled (Some 7) (of_j2735 SpatMessage (Some [1; 2; 3]))] /\
    performed s' = performed spat_listener ++
      match handler_throws 7 (of_j2735 SpatMessage (Some [1; 2; 3])) with Some what => [Client.AddEventLog IvpLogLevel_warn what] | None => [] end.
Proof.
  apply (j2735_message_delivered 5 0 SpatMessage [1; 2; 3] spat_encoded spat_message (cJSON_Duplicate (cJSON_CreateString "001313010203")) spat_type 7 spat_listener).
  - vm_compute; reflexivity.
  - by left.
  - reflexivity.
  - reflexivity.
  - reflexivity.
  - reflexivity.
  - reflexivity.
  - vm_compute; reflexivity.
  - reflexivity.
Defined.
End PluginClient.

(** * The locks of the configuration

    A read of the configuration takes the lock of the library, then the lock of the class
    and, for a parameter of the system, within it the lock of the library again; the
    library holds its lock, which is recursive, around the callbacks of a configuration
    message. *)
Module ConfigLocks.
Inductive lock := plugin_lock | config_lock.
Inductive action := acquire (l : lock) | release (l : lock).
(** What a read of a key does: whether the manifest has the key, and whether there are
    parameters of the system. *)
Definition GetConfigValue_locks (r : bool * bool) : list action :=
  [acquire plugin_lock; release plugin_lock; acquire config_lock]
  ++ (if negb (fst r) && snd r then [acquire plugin_lock; release plugin_lock] else []) ++ [release config_lock].
(** The items of a configuration message with the reads of their callbacks. *)
Definition item_locks (reads : list (bool * bool)) : list action :=
  [acquire plugin_lock; release plugin_lock] ++ flat_map GetConfigValue_locks reads.
Definition config_message_locks (its : list (list (bool * bool))) : list action :=
  acquire plugin_lock :: flat_map item_locks its ++ [release plugin_lock].

(** A thread: how often it holds the lock of the library, whether it holds that of the
    class, and what it still does. *)
Record lock_thread := mkThread { plugin_held : nat; config_held : bool; program : list action }.
Definition lock_start (l : list action) : lock_thread := mkThread 0 false l.
Definition others_free (i : nat) (held : lock_thread -> bool) (ts : list lock_thread) : Prop :=
  forall j t, ts !! j = Some t -> j <> i -> held t = false.
Definition holds_plugin (t : lock_thread) : bool := Nat.ltb 0 (plugin_held t).
Inductive step : list lock_thread -> list lock_thread -> Prop :=
| s_acquire_plugin i p c r ts : ts !! i = Some (mkThread p c (acquire plugin_lock :: r)) -> others_free i holds_plugin ts ->
    step ts (<[i := mkThread (S p) c r]> ts)
| s_release_plugin i p c r ts : ts !! i = Some (mkThread (S p) c (release plugin_lock :: r)) ->
    step ts (<[i := mkThread p c r]> ts)
| s_acquire_config i p r ts : ts !! i = Some (mkThread p false (acquire config_lock :: r)) -> others_free i config_held ts ->
    step ts (<[i := mkThread p true r]> ts)
| s_release_config i p r ts : ts !! i = Some (mkThread p true (release config_lock :: r)) ->
    step ts (<[i := mkThread p false r]> ts).
Definition stuck (ts : list lock_thread) : Prop :=
  (exists t, t ∈ ts /\ program t <> []) /\ forall ts', step ts ts' -> False.

(** The locks are taken and released in order: the lock of the library is not taken for the
    first time within the lock of the class. *)
Fixpoint in_order (p : nat) (c : bool) (l : list action) : bool :=
  match l with
  | [] => Nat.eqb p 0 && negb c
  | acquire plugin_lock :: l => (negb c || Nat.ltb 0 p) && in_order (S p) c l
  | acquire config_lock :: l => negb c && in_order p true l
  | release plugin_lock :: l => Nat.ltb 0 p && in_order (pred p) c l
  | release config_lock :: l => c && in_order p false l
  end.
Definition ok (t : lock_thread) : Prop := in_order (plugin_held t) (config_held t) (program t) = true.
Record orderly (ts : list lock_thread) : Prop := {
  all_ok : forall i t, ts !! i = Some t -> ok t;
  one_plugin : forall i j t u, ts !! i = Some t -> ts !! j = Some u -> holds_plugin t = true -> holds_plugin u = true -> i = j;
  one_config : forall i j t u, ts !! i = Some t -> ts !! j = Some u -> config_held t = true -> config_held u = true -> i = j }.

(** One thread goes on; what it holds more, no other one holds. *)
Lemma orderly_update i t t' ts : orderly ts -> ts !! i = Some t -> ok t' ->
  (holds_plugin t' = true -> holds_plugin t = true \/ others_free i holds_plugin ts) ->
  (config_held t' = true -> config_held t = true \/ others_free i config_held ts) -> orderly (<[i := t']> ts).
Proof.
  intros [Ho Hp Hc] Hi Ht' Hp' Hc'. pose proof (lookup_lt_Some _ _ _ Hi) as Hlt.
  assert (forall held : lock_thread -> bool,
    (forall i j t u, ts !! i = Some t -> ts !! j = Some u -> held t = true -> held u = true -> i = j) ->
    (held t' = true -> held t = true \/ others_free i held ts) ->
    forall a b x y, <[i := t']> ts !! a = Some x -> <[i := t']> ts !! b = Some y -> held x = true -> held y = true -> a = b) as H.
  { intros held H1 H2.
    assert (forall b y, ts !! b = Some y -> b <> i -> held y = true -> held t' = true -> False) as H3.
    { intros b y Hb Hne Hy Hx. destruct (H2 Hx) as [H4|H4]; [destruct Hne; by eapply H1|]. by rewrite (H4 b y Hb Hne) in Hy. }
    intros a b x y. destruct (decide (a = i)) as [->|Ha], (decide (b = i)) as [->|Hb];
      rewrite ?list_lookup_insert_eq, ?list_lookup_insert_ne by done; try done.
    - intros [= <-] Hy Ex Ey. exfalso. by apply (H3 b y).
    - intros Hx [= <-] Ex Ey. exfalso. by apply (H3 a x).
    - apply H1. }
  split; [|by apply H..]. intros j u. destruct (decide (j = i)) as [->|];
    rewrite ?list_lookup_insert_eq, ?list_lookup_insert_ne by done; [by intros [= <-]|apply Ho].
Qed.
Lemma orderly_step ts ts' : step ts ts' -> orderly ts -> orderly ts'.
Proof.
  intros Hs Ho. destruct Hs as [i p c r ts Hi Hf|i p c r ts Hi|i p r ts Hi Hf|i p r ts Hi];
    pose proof (all_ok _ Ho _ _ Hi) as Hok; unfold ok in Hok; cbn [plugin_held config_held program in_order] in Hok;
    rewrite ?andb_true_iff in Hok; (eapply orderly_update; [done|exact Hi| | |]); unfold ok; cbn [plugin_held config_held program];
    try tauto; try done.
  all: unfold holds_plugin; cbn [plugin_held]; rewrite ?Nat.ltb_lt; intros; try (by left); try (left; lia).
Qed.

(** In a state that is not finished some thread can go on: the one that holds the lock of
    the class, else the one that holds the lock of the library, else any. *)
Lemma thread_goes j u ts : orderly ts -> ts !! j = Some u -> program u <> [] ->
  others_free j holds_plugin ts -> others_free j config_held ts -> exists ts', step ts ts'.
Proof.
  intros Ho Hj Hu Hp Hc. pose proof (all_ok _ Ho _ _ Hj) as Hok. destruct u as [p c [|[[]|[]] r]]; unfold ok in Hok; cbn in Hok; [done|..].
  - eexists. by eapply s_acquire_plugin.
  - apply andb_prop in Hok as [Hf _]. destruct c; [done|]. eexists. by eapply s_acquire_config.
  - apply andb_prop in Hok as [Hf _]. destruct p; [done|]. eexists. by eapply s_release_plugin.
  - apply andb_prop in Hok as [-> _]. eexists. by eapply s_release_config.
Qed.
Lemma holder_free (held : lock_thread -> bool) ts j u :
  (forall i j t u, ts !! i = Some t -> ts !! j = Some u -> held t = true -> held u = true -> i = j) ->
  ts !! j = Some u -> held u = true -> others_free j held ts.
Proof. intros H Hj Hu k v Hk Hne. destruct (held v) eqn:E; [|done]. destruct Hne. by eapply H. Qed.
Lemma nobody (held : lock_thread -> bool) ts : (Exists (fun t => held t = true) ts -> False) -> forall j, others_free j held ts.
Proof. intros H j k t Hk _. destruct (held t) eqn:E; [|done]. destruct H. apply Exists_exists. exists t. split; [by eapply list_elem_of_lookup_2|done]. Qed.
Lemma orderly_goes_on ts : orderly ts -> stuck ts -> False.
Proof.
  intros Ho [(t & (i & Hi)%list_elem_of_lookup & Hp) Hno].
  enough (exists ts', step ts ts') as [ts' H] by by eapply Hno.
  destruct (decide (Exists (fun u => config_held u = true) ts)) as [(u & (j & Hj)%list_elem_of_lookup & Hu)%Exists_exists|Hc].
  - pose proof (all_ok _ Ho _ _ Hj) as Hok. pose proof (holder_free _ _ _ _ (one_config _ Ho) Hj Hu) as Hfc.
    destruct (holds_plugin u) eqn:Eu.
    + apply (thread_goes j u); [done..| |by apply (holder_free _ _ _ _ (one_plugin _ Ho) Hj)|done].
      destruct u as [p c [|a r]]; [|done]. cbn in Hu. subst c. unfold ok in Hok. cbn in Hok. by rewrite andb_false_r in Hok.
    + destruct u as [p c l]. cbn in Hu. subst c. unfold holds_plugin in Eu. cbn in Eu. unfold ok in Hok. cbn in Hok.
      destruct p; [|done]. destruct l as [|[[]|[]] r]; try done. eexists. by eapply s_release_config.
  - destruct (decide (Exists (fun u => holds_plugin u = true) ts)) as [(u & (j & Hj)%list_elem_of_lookup & Hu)%Exists_exists|Hn].
    + apply (thread_goes j u); [done..| |by apply (holder_free _ _ _ _ (one_plugin _ Ho) Hj)|by apply nobody].
      pose proof (all_ok _ Ho _ _ Hj) as Hok. destruct u as [p c [|a r]]; [|done]. unfold holds_plugin in Hu. cbn in Hu.
      unfold ok in Hok. cbn in Hok. by destruct p.
    + by apply (thread_goes i t); [..|apply nobody|apply nobody].
Qed.

(** ** The programs *)
Definition balanced (p : nat) (l : list action) : Prop := forall rest, in_order p false (l ++ rest) = in_order p false rest.
Lemma balanced_read p r : r <> (false, true) \/ (0 < p)%nat -> balanced p (GetConfigValue_locks r).
Proof.
  intros H rest. destruct r as [[] []]; try done. destruct H as [H|H]; [done|]. destruct p; [lia|]. done.
Qed.
Lemma balanced_app p l l' : balanced p l -> balanced p l' -> balanced p (l ++ l').
Proof. intros H H' rest. by rewrite <-app_assoc, H, H'. Qed.
Lemma balanced_flat_map {A} p (f : A -> list action) l : (forall a, balanced p (f a)) -> balanced p (flat_map f l).
Proof. intros H. induction l as [|a l IH]; [done|]. by apply balanced_app. Qed.
Lemma message_in_order its : in_order 0 false (config_message_locks its) = true.
Proof.
  cbn [config_message_locks in_order negb orb andb]. rewrite (balanced_flat_map 1 item_locks); [done|].
  intros reads. apply balanced_app; [done|]. apply balanced_flat_map. intros r. apply balanced_read. right. lia.
Qed.
Lemma orderly_start ls : Forall (fun l => in_order 0 false l = true) ls -> orderly (map lock_start ls).
Proof.
  intros H. assert (forall i t, map lock_start ls !! i = Some t -> exists l, t = lock_start l /\ in_order 0 false l = true) as Hs.
  { intros i t Hi. apply list_lookup_fmap_Some in Hi as (l & -> & Hl). exists l. split; [done|]. exact (Forall_lookup_1 _ _ _ _ H Hl). }
  split; intros i.
  - by intros t (l & -> & Hl)%Hs.
  - by intros j t u (l & -> & _)%Hs.
  - by intros j t u (l & -> & _)%Hs.
Qed.

(** The receiving thread comes to the first read of a callback. *)
Lemma acquire_release a p r : plugin_held a = 0%nat ->
  rtc step [a; mkThread p false (acquire plugin_lock :: release plugin_lock :: r)] [a; mkThread p false r].
Proof.
  intros Ha. eapply rtc_l.
  - apply (s_acquire_plugin 1); [done|]. intros [|[|j]] t; cbn; try done. intros [= <-] _. unfold holds_plugin. by rewrite Ha.
  - eapply rtc_l; [by apply (s_release_plugin 1)|]. apply rtc_refl.
Qed.
Lemma receiver_reads a its : plugin_held a = 0%nat -> existsb (fun l => negb (Nat.eqb (length l) 0)) its = true ->
  forall tail, exists rest, rtc step [a; mkThread 1 false (flat_map item_locks its ++ tail)] [a; mkThread 1 false (acquire config_lock :: rest)].
Proof.
  intros Ha. induction its as [|reads its IH]; [done|]. intros Hex tail. cbn [flat_map item_locks].
  destruct reads as [|r reads].
  - destruct (IH Hex tail) as [rest Hr]. exists rest. etransitivity; [|exact Hr]. by apply acquire_release.
  - eexists. etransitivity; [by apply acquire_release|]. by apply acquire_release.
Qed.
Lemma both_wait r r' : stuck [mkThread 0 true (acquire plugin_lock :: r); mkThread 1 false (acquire config_lock :: r')].
Proof.
  split; [eexists; split; [by left|done]|]. intros ts' H.
  inversion H as [i p c l ts Hi Hf|i p c l ts Hi|i p l ts Hi Hf|i p l ts Hi]; subst;
    destruct i as [|[|i]]; cbn in Hi; try done.
  - by specialize (Hf 1%nat _ eq_refl ltac:(done)).
  - by specialize (Hf 0%nat _ eq_refl ltac:(done)).
Qed.

(** C14: A read of the configuration in one thread and a configuration message whose callbacks
    read the configuration can wait for each other for ever exactly if the key is not one of
    the manifest and there are parameters of the system. *)
Theorem config_read_deadlock r its : existsb (fun l => negb (Nat.eqb (length l) 0)) its = true ->
  (exists ts, rtc step [lock_start (GetConfigValue_locks r); lock_start (config_message_locks its)] ts /\ stuck ts) <-> r = (false, true).
Proof.
  intros Hex. split.
  - intros (ts & Hr & Hs). destruct (decide (r = (false, true))) as [|Hne]; [done|]. exfalso. apply (orderly_goes_on ts); [|done].
    assert (orderly [lock_start (GetConfigValue_locks r); lock_start (config_message_locks its)]) as Ho.
    { apply (orderly_start [GetConfigValue_locks r; config_message_locks its]). repeat constructor; [|apply message_in_order].
      pose proof (balanced_read 0 r (or_introl Hne) []) as H. by rewrite app_nil_r in H. }
    revert Ho. induction Hr as [|x y z Hxy _ IH]; [done|]. intros Ho. apply IH; [done|]. by eapply orderly_step.
  - intros ->. destruct (receiver_reads (mkThread 0 true [acquire plugin_lock; release plugin_lock; release config_lock]) its eq_refl Hex [release plugin_lock])
      as [rest Hr]. eexists. split; [|apply both_wait].
    eapply rtc_l; [apply (s_acquire_plugin 0); [done|]; intros [|[|j]] t; cbn; try done; by intros [= <-]|].
    eapply rtc_l; [by apply (s_release_plugin 0)|].
    eapply rtc_l; [apply (s_acquire_config 0); [done|]; intros [|[|j]] t; cbn; try done; by intros [= <-]|].
    eapply rtc_l; [apply (s_acquire_plugin 1); [done|]; intros [|[|j]] t; cbn; try done; by intros [= <-]|].
    exact Hr.
Qed.
Lemma config_read_deadlock_witness :
  exists ts, rtc step [lock_start (GetConfigValue_locks (false, true)); lock_start (config_message_locks [[(true, true)]])] ts /\ stuck ts.
Proof. apply (config_read_deadlock (false, true) [[(true, true)]]); reflexivity. Defined.

End ConfigLocks.
